(* ===== verification/_CoqProject ===== *)
-Q . S2P
Prelude.v
DList.v
Locks.v
FrameAlloc.v
Paging.v
VM.v
VMInv.v
VMPages.v
VMMap.v
VMCow.v
VMFault.v
VMQuery.v
VMBoot.v
VMTheorems.v
Console.v
Keyboard.v
Idt.v
Sched.v
Sync.v
CString.v
UserMem.v
Loader.v
Regs.v
Swexn.v
ThreadMap.v
Tasks.v
Family.v
TaskRun.v
Fork.v
Vanish.v
Wait.v
Lifecycle.v
Exec.v
ExecArgs.v
ExecLoad.v
NewPages.v
VMReach.v
Syscalls.v
UThread.v
URwLock.v
UMutex.v
Lmm.v
LmmInv.v
LmmFree.v
LmmAlloc.v
LmmGen.v
LmmHeap.v
Malloc.v
MallocHeap.v
LmmFind.v
LmmBoot.v
KeyHelp.v
Cmdline.v
Qdivrem.v
