(* ===== verification/Prelude.v ===== *)
(** * Verification of a Pebbles kernel and its user thread library

    The repository holds an operating-system kernel for the x86 (src/kern), the
    support library it is linked with (src/410kern) and a thread library for its
    user programs (src/user/libthread).  This library of Rocq files models the
    kernel and the thread library, and proves the properties that make them work.

    ** The program and its parts

    At boot, [mb_entry] (410kern/entry.c) hands free physical memory to the list
    memory manager (410kern/lmm), from which [malloc] and [smalloc] take kernel
    memory.  [kernel_main] (kern/kernel.c) then initialises virtual memory, the
    interrupt table, the frame allocator and the scheduler, and creates the first
    two tasks.  From then on the kernel runs on interrupts: the timer switches
    threads, the keyboard fills a buffer, faults are handled or kill a thread, and
    system calls create and end tasks and threads, change their memory and use
    the console.

    Every file models the part of src/ it names, one definition for every
    function with the function's name, on a record that holds the static variables
    of the C file; the manifest maps each definition to its lines.

    - Heap: Lmm.v (410kern/lmm: regions and free lists whose nodes are bytes of
      the memory they manage), LmmInv.v (their invariant), LmmFree.v, LmmAlloc.v,
      LmmGen.v, LmmFind.v (one file for every group of functions), LmmHeap.v (the
      heap as a set of free bytes), Malloc.v (410kern/malloc and the wrappers of
      kern/common/malloc_wrappers.c), MallocHeap.v (what they promise),
      LmmBoot.v (410kern/boot/util_lmm.c and the memory setup of entry.c),
      Cmdline.v (410kern/boot/util_cmdline.c: the command line into words).
    - Arithmetic: Qdivrem.v (410kern/misc/gccisms.c: division of 64-bit numbers).
    - Lists and strings: DList.v (kern/list/list.c), CString.v (410kern/string).
    - Frames: FrameAlloc.v (kern/allocator/frame_allocator.c).
    - Virtual memory (kern/vm/vm.c): Paging.v (entries and macros), VM.v (all
      functions), VMInv.v (the invariant: who owns which page table and frame),
      VMPages.v, VMMap.v, VMCow.v, VMFault.v, VMQuery.v, VMBoot.v (one file for every group
      of functions), VMTheorems.v (the properties), NewPages.v
      (kern/syscalls/memory_syscalls.c), UserMem.v (reads and writes of user
      memory, kern/syscalls/syscall_util.c), VMReach.v (all these operations, from
      boot on, as steps of one machine).
    - Devices: Console.v (kern/drivers/console), Keyboard.v (the keystroke ring),
      KeyHelp.v (410kern/x86/keyhelp.c: from scan codes to characters), Idt.v (the interrupt
      table, its handlers and the timer), Syscalls.v (console and file system
      calls and the keyboard interrupt, with the scheduler of Sched.v).
    - Threads: Sched.v (run queue, sleep queue, context switch: kern/core/scheduler.c,
      context.c, sleep.c), Locks.v and Sync.v (kern/sync: a mutex for a caller
      that runs alone, and all primitives for interleaved threads), ThreadMap.v
      (the hash map of kern/core/thread.c).
    - Kernel entry: Regs.v (register frames and the assembly stubs), Swexn.v (fault
      handlers and the swexn call).
    - Tasks (kern/core): Tasks.v (the structs and the life cycle calls), Family.v
      (the invariant of parents and children), TaskRun.v (one lemma for every
      primitive), Fork.v, Vanish.v, Wait.v, Lifecycle.v (the properties), Exec.v,
      ExecArgs.v, ExecLoad.v (exec and the first tasks), Loader.v (kern/loader).
    - User library (user/libthread): UThread.v (mutexes, condition variables,
      semaphores, readers-writer locks, threads), UMutex.v, URwLock.v (the
      properties).

    ** How code is modelled

    A function that can fail or change state is a computation [M S A]: it maps a
    state to a value and a new state, or stops ([Ok], [Stop]).  It stops when an
    assertion fails ([KernelPanic], [ThreadPanic]), when it follows a pointer to no
    object ([BadAccess]), when it would wait for a mutex ([WouldBlock]) and when a loop
    exceeds its bound ([OutOfFuel]).  Theorems of correctness say that the computation ends
    with [Ok], so that they rule these out.  Integers are kept at their width: a
    C int or pointer is a [Z] in [0, 2^32), [u32] and [s32] are the wrap-around
    and the signed reading.

    Code of one component runs on its own state; a client embeds that state in
    its own and calls the component with [zoom].  Concurrency is modelled in two
    ways.  The components that protect their data with a mutex are verified for
    one caller at a time.  The primitives that make this sound (mutexes,
    condition variables, semaphores, the scheduler, and the user library) are
    step relations over any number of threads, with a step for every point where
    a thread can be interrupted; their properties hold in all reachable states.

    Components meet at interfaces: [KernelHeap] and [BlockHeap] (Paging.v, Tasks.v) are
    the heap as virtual memory and task code see it, with their laws
    as [KernelHeapSpec] and [BlockHeapSpec]; MallocHeap.v discharges the first by
    the list memory manager.  [Ramdisk] (Loader.v) is the table of user programs that the
    build generates, [Linked] (Idt.v) the addresses the linker gives to the stubs.

    ** Bounds and fuel

    Loops that are not structural take a bound that a theorem shows to be
    enough: a walk along a free list the number of bytes ever written
    (LmmInv.v, [nodes_length]), [lmm_remove_free] that number for each region, the
    boot loop the number of bounds of the areas it skips (LmmBoot.v,
    [bounds_above_max]), a scan of a string the number of bytes ever written (Cmdline.v,
    [string_size]), loops over page tables their 1024 entries, the scan of
    physical memory its number of frames, copies from user memory the length
    they are given.

    ** What the theorems show

    - The heap gives out only free, aligned bytes, keeps its free lists in one
      canonical form, and freeing restores them; after boot it lies between one
      megabyte and USER_MEM_START and outside the kernel image.
    - The frame allocator is a stack of frames.  Page tables and
      directories are owned by one address space, copy-on-write preserves what
      every task reads, and every failure path gives back what it took.  In every
      state that the memory operations reach from power-on, what a process stores
      no other process sees, and kernel memory is out of reach of user mode.
    - fork, thread_fork, exec, wait and vanish do what their contract says and
      keep the invariant of the kernel: ids, threads, lists of children and
      waiters fit together.
    - The scheduler runs every runnable thread, mutexes exclude each other, and no
      wakeup is lost when the mutex is held at the signal.
    - The loader puts exactly the bytes of the program file into memory; reads
      and writes of user memory are checked; swexn and the fault handlers hand
      the registers over and back.
    - The console refines a terminal with rows and columns, the keyboard a line editor,
      and what is typed reaches the readers that wait for it.  The command line is
      cut into its words.
    - Division of 64-bit numbers by digits of 16 bits equals division.
    - The user library's mutexes exclude, and its readers-writer locks keep
      readers and writers apart.

    Where the code falls short of what it means to do, the theorem states what
    it does and the manifest lists the finding.

    ** Not modelled

    The processor's cache of address translations (TLB) is taken to be flushed when
    the code flushes it.  Port input and output is a trace of the values written.
    [kernel_main] is a fixed sequence of the initialisation functions modelled
    here, on states of different files; its memory part, [vm_init] followed by
    [init_frame_allocator], is [boot_memory] of VMBoot.v, the rest is not a
    definition.  Formatted
    output (410kern/stdio, 410kern/stdlib) is used for messages only.  The SMP, APIC and
    random-number code of 410kern is not called by the kernel.  The assembly
    wrappers of instructions (cr0 to cr4, iret, in and out) are single steps.
    The user libraries of 410user, libautostack (its install function returns at
    once), libthrgrp, libsyscall (one instruction per call) and the
    test programs run outside the kernel.  Time and the cost of operations are not
    modelled. *)

From stdpp Require Export numbers prelude gmap fin_maps list.

#[global] Open Scope Z_scope.

(** ** Outcomes of kernel code

    Kernel code runs against an explicit state.  It either returns a value
    and a new state, or stops: [KernelPanic] is a failed [kernel_assert] (the
    machine is halted), [ThreadPanic] a failed [thread_assert] (the thread is
    killed), [BadAccess] a dereference of a pointer to no object of the model,
    [WouldBlock] a [mutex_lock] of a mutex that is held, and [OutOfFuel] a loop
    that ran longer than the bound given to it. *)
Inductive stop : Set :=
  | KernelPanic
  | ThreadPanic
  | BadAccess
  | WouldBlock
  | OutOfFuel.

#[export] Instance stop_eq_dec : EqDecision stop.
Proof. solve_decision. Defined.

Inductive outcome (S A : Type) : Type :=
  | Ok (a : A) (s : S)
  | Stop (w : stop).
Arguments Ok {S A} a s.
Arguments Stop {S A} w.

Definition M (S A : Type) : Type := S → outcome S A.

#[export] Instance M_ret {S} : MRet (M S) := λ A a s, Ok a s.
#[export] Instance M_bind {S} : MBind (M S) := λ A B k m s,
  match m s with
  | Ok a s' => k a s'
  | Stop w => Stop w
  end.

Definition get {S} : M S S := λ s, Ok s s.
Definition gets {S A} (f : S → A) : M S A := λ s, Ok (f s) s.
Definition modify {S} (f : S → S) : M S unit := λ s, Ok tt (f s).
Definition halt {S A} (w : stop) : M S A := λ _, Stop w.

(** [kernel_assert] and [thread_assert] of inc/common/assert.h. *)
Definition kernel_assert {S} (b : bool) : M S unit :=
  if b then mret tt else halt KernelPanic.
Definition thread_assert {S} (b : bool) : M S unit :=
  if b then mret tt else halt ThreadPanic.

(** The value of an optional read, a bad access when there is none. *)
Definition deref {S A} (o : option A) : M S A :=
  match o with Some a => mret a | None => halt BadAccess end.

(** Run code of a component against the state of its client. *)
Definition zoom {S T A} (view : T → S) (put : S → T → T) (m : M S A) : M T A :=
  λ t, match m (view t) with
       | Ok a s' => Ok a (put s' t)
       | Stop w => Stop w
       end.

(** [for (i = lo; n times; i++) body(i)]. *)
Fixpoint for_loop {S} (n : nat) (i : Z) (body : Z → M S unit) : M S unit :=
  match n with
  | O => mret tt
  | Datatypes.S n' => body i ;; for_loop n' (i + 1) body
  end.

Lemma bind_ok {S A B} (m : M S A) (k : A → M S B) s a s' :
  m s = Ok a s' → (m ≫= k) s = k a s'.
Proof. intros Hm. unfold mbind, M_bind. by rewrite Hm. Qed.

Lemma bind_stop {S A B} (m : M S A) (k : A → M S B) s w : m s = Stop w → (m ≫= k) s = Stop w.
Proof. intros Hm. unfold mbind, M_bind. by rewrite Hm. Qed.

Lemma bind_ok3 {S A B C D} (m1 : M S A) (m2 : M S B) (m3 : M S C) (k : M S D) s c s' :
  (m1 ;; m2 ;; m3) s = Ok c s' → (m1 ;; m2 ;; m3 ;; k) s = k s'.
Proof.
  unfold mbind, M_bind. destruct (m1 s) as [a s1|]; [|done]. destruct (m2 s1) as [b s2|]; [|done].
  by destruct (m3 s2); intros [= -> ->].
Qed.

Lemma bind_ok2 {S A B C} (m1 : M S A) (m2 : M S B) (k : M S C) s b s' :
  (m1 ;; m2) s = Ok b s' → (m1 ;; m2 ;; k) s = k s'.
Proof.
  unfold mbind, M_bind. destruct (m1 s) as [a s1|]; [|done].
  by destruct (m2 s1); intros [= -> ->].
Qed.

Lemma bind_inv {S A B} (m : M S A) (k : A → M S B) s b s'' :
  (m ≫= k) s = Ok b s'' → ∃ a s', m s = Ok a s' ∧ k a s' = Ok b s''.
Proof. unfold mbind, M_bind. destruct (m s) eqn:E; naive_solver. Qed.

Lemma bind_assoc {S A B C} (m : M S A) (f : A → M S B) (g : B → M S C) s :
  ((m ≫= f) ≫= g) s = (m ≫= λ a, f a ≫= g) s.
Proof. unfold mbind, M_bind. by destruct (m s). Qed.

Lemma bind_mret {S A B} (a : A) (k : A → M S B) s : (mret a ≫= k) s = k a s.
Proof. done. Qed.

Lemma bind_get {S B} (k : S → M S B) s : (get ≫= k) s = k s s.
Proof. done. Qed.

Lemma bind_gets {S A B} (f : S → A) (k : A → M S B) s : (gets f ≫= k) s = k (f s) s.
Proof. done. Qed.

Lemma bind_modify {S B} (f : S → S) (k : unit → M S B) s :
  (modify f ≫= k) s = k tt (f s).
Proof. done. Qed.

Lemma bind_assert {S B} (b : bool) (k : unit → M S B) s :
  b = true → (kernel_assert b ≫= k) s = k tt s.
Proof. by intros ->. Qed.

Lemma zoom_ok {S T A} (view : T → S) put (m : M S A) t a s' :
  m (view t) = Ok a s' → zoom view put m t = Ok a (put s' t).
Proof. intros Hm. unfold zoom. by rewrite Hm. Qed.

Lemma kernel_assert_true {S} (b : bool) (s : S) :
  b = true → kernel_assert b s = Ok tt s.
Proof. by intros ->. Qed.

Lemma thread_assert_true {S} (b : bool) (s : S) :
  b = true → thread_assert b s = Ok tt s.
Proof. by intros ->. Qed.

(** Loop rule: an invariant indexed by the loop counter, with totality. *)
Lemma for_loop_ok {S} (I : Z → S → Prop) body n lo s :
  I lo s →
  (∀ i s, lo ≤ i < lo + Z.of_nat n → I i s →
          ∃ s', body i s = Ok tt s' ∧ I (i + 1) s') →
  ∃ s', for_loop n lo body s = Ok tt s' ∧ I (lo + Z.of_nat n) s'.
Proof.
  revert lo s. induction n as [|n IH]; intros lo s HI Hstep.
  - exists s. split; [done|]. by rewrite Z.add_0_r.
  - destruct (Hstep lo s) as (s1 & H1 & HI1); [lia|done|].
    destruct (IH (lo + 1) s1) as (s2 & H2 & HI2); [done| |].
    { intros i s' Hi. apply Hstep. lia. }
    exists s2. split.
    + simpl. by rewrite (bind_ok _ _ _ _ _ H1).
    + by replace (lo + Z.of_nat (Datatypes.S n)) with (lo + 1 + Z.of_nat n) by lia.
Qed.

(** The same rule for a body that may also stop in one given way. *)
Lemma for_loop_or_stop {S} (w : stop) (I : Z → S → Prop) body n lo s :
  I lo s →
  (∀ i s, lo ≤ i < lo + Z.of_nat n → I i s →
          body i s = Stop w ∨ ∃ s', body i s = Ok tt s' ∧ I (i + 1) s') →
  for_loop n lo body s = Stop w ∨
  ∃ s', for_loop n lo body s = Ok tt s' ∧ I (lo + Z.of_nat n) s'.
Proof.
  revert lo s. induction n as [|n IH]; intros lo s HI Hstep.
  - right. exists s. split; [done|]. by rewrite Z.add_0_r.
  - cbn [for_loop]. unfold mbind, M_bind.
    destruct (Hstep lo s) as [->|(s1 & -> & HI1)]; [lia|done|by left|].
    destruct (IH (lo + 1) s1) as [->|(s2 & -> & HI2)]; [done| |by left|].
    { intros i s' Hi. apply Hstep. lia. }
    right. exists s2. split; [done|].
    by replace (lo + Z.of_nat (Datatypes.S n)) with (lo + 1 + Z.of_nat n) by lia.
Qed.

(** ** 32-bit machine integers

    A C [int], [unsigned int] or pointer is its bit pattern, a [Z] in
    [0, 2^32); [s32] is the value of a pattern read as a signed [int]. *)
Abbreviation W32 := 4294967296.

Definition u32 (x : Z) : Z := x mod W32.
Definition s32 (x : Z) : Z := (x + 2147483648) mod W32 - 2147483648.
Definition word (x : Z) : Prop := 0 ≤ x < W32.

Lemma u32_word x : word (u32 x).
Proof. unfold word, u32. apply Z.mod_pos_bound. lia. Qed.

Lemma u32_small x : word x → u32 x = x.
Proof. intros. unfold u32. apply Z.mod_small. done. Qed.

Lemma s32_small x : -2147483648 ≤ x < 2147483648 → s32 x = x.
Proof. intros. unfold s32. rewrite Z.mod_small; lia. Qed.

Lemma s32_wrap x : 2147483648 ≤ x < W32 → s32 x = x - W32.
Proof.
  intros Hx. unfold s32. replace (x + 2147483648) with (x - 2147483648 + 1 * W32) by lia.
  rewrite Z_mod_plus_full, Z.mod_small by lia. lia.
Qed.

Lemma s32_range x : -2147483648 ≤ s32 x < 2147483648.
Proof. unfold s32. pose proof (Z.mod_pos_bound (x + 2147483648) W32). lia. Qed.

Lemma s32_u32 x : s32 (u32 x) = s32 x.
Proof. unfold s32, u32. by rewrite Zplus_mod_idemp_l. Qed.

(** Bitwise facts used by the page-table code. *)
Lemma testbit_word_high x i : word x → 32 ≤ i → Z.testbit x i = false.
Proof.
  intros Hx Hi. unfold word in Hx.
  destruct (decide (x = 0)) as [->|]; [apply Z.testbit_0_l|].
  apply Z.bits_above_log2; [lia|].
  assert (Z.log2 x < 32); [|lia]. apply Z.log2_lt_pow2; lia.
Qed.

Lemma testbit_hi_mask i :
  0 ≤ i → Z.testbit 0xFFFFF000 i = bool_decide (12 ≤ i < 32).
Proof.
  intros Hi. change 0xFFFFF000 with (Z.shiftl (Z.ones 20) 12).
  rewrite Z.shiftl_spec by lia.
  destruct (decide (i < 12)).
  - rewrite Z.testbit_neg_r by lia. by rewrite bool_decide_false by lia.
  - rewrite Z.testbit_ones_nonneg by lia.
    case_bool_decide; [apply Z.ltb_lt|apply Z.ltb_ge]; lia.
Qed.

Lemma land_hi x : word x → Z.land x 0xFFFFF000 = x - x mod 4096.
Proof.
  intros Hx. replace (x - x mod 4096) with (Z.shiftl (Z.shiftr x 12) 12).
  2:{ rewrite Z.shiftl_mul_pow2, Z.shiftr_div_pow2 by lia.
      change (2 ^ 12) with 4096. pose proof (Z.div_mod x 4096). lia. }
  apply Z.bits_inj'. intros i Hi.
  rewrite Z.land_spec, testbit_hi_mask, Z.shiftl_spec by lia.
  destruct (decide (i < 12)).
  { rewrite (Z.testbit_neg_r _ (i - 12)) by lia.
    by rewrite bool_decide_false, andb_false_r by lia. }
  rewrite Z.shiftr_spec by lia. replace (i - 12 + 12) with i by lia.
  destruct (decide (32 ≤ i)).
  - rewrite testbit_word_high by done. done.
  - by rewrite bool_decide_true, andb_true_r by lia.
Qed.

Lemma land_lo x : Z.land x 0xFFF = x mod 4096.
Proof. change 0xFFF with (Z.ones 12). by rewrite Z.land_ones. Qed.

(** [base | flags] with a page-aligned base is their sum. *)
Lemma land_page_flags p fl : p mod 4096 = 0 → 0 ≤ fl < 4096 → Z.land p fl = 0.
Proof.
  intros Hp Hfl. rewrite <- (Z.mod_small fl 4096), <- land_lo by lia.
  by rewrite (Z.land_comm fl), Z.land_assoc, land_lo, Hp.
Qed.

Lemma lor_page p fl : p mod 4096 = 0 → 0 ≤ fl < 4096 → Z.lor p fl = p + fl.
Proof. intros Hp Hfl. by rewrite Z.add_nocarry_lor by (by apply land_page_flags). Qed.

Lemma land_mask_sub e m a : Z.land m a = a → Z.land (Z.land e m) a = Z.land e a.
Proof. intros Hm. by rewrite <- Z.land_assoc, Hm. Qed.

Lemma land_lor_disj e m a : Z.land m a = 0 → Z.land (Z.lor e m) a = Z.land e a.
Proof. intros Hm. by rewrite Z.land_lor_distr_l, Hm, Z.lor_0_r. Qed.

(** ** Arrays: a C array is a list, an access out of range a bad access *)
Definition aget {S A} (l : list A) (i : Z) : M S A :=
  if decide (0 ≤ i) then deref (l !! Z.to_nat i) else halt BadAccess.

Definition in_range {A} (l : list A) (i : Z) : bool :=
  bool_decide (0 ≤ i < Z.of_nat (length l)).

(** [a[i] = x]. *)
Definition aset {S A} (l : list A) (i : Z) (x : A) : M S (list A) :=
  if in_range l i then mret (<[Z.to_nat i := x]> l) else halt BadAccess.

Lemma aget_ok {S A} (l : list A) i x (s : S) :
  0 ≤ i → l !! Z.to_nat i = Some x → aget l i s = Ok x s.
Proof. intros Hi Hl. unfold aget. rewrite decide_True by done. by rewrite Hl. Qed.

Lemma in_range_true {A} (l : list A) i : 0 ≤ i < Z.of_nat (length l) → in_range l i = true.
Proof. intros. by apply bool_decide_true. Qed.

Lemma aset_ok {S A} (l : list A) i x (s : S) :
  0 ≤ i < Z.of_nat (length l) → aset l i x s = Ok (<[Z.to_nat i := x]> l) s.
Proof. intros. unfold aset. by rewrite in_range_true. Qed.

(** Every index in range has a value. *)
Lemma lookup_Z {A} (l : list A) i :
  0 ≤ i < Z.of_nat (length l) → ∃ x, l !! Z.to_nat i = Some x.
Proof. intros. apply lookup_lt_is_Some_2. lia. Qed.

Lemma lookup_insert_Z {A} (l : list A) i j x :
  0 ≤ i < Z.of_nat (length l) → 0 ≤ j →
  <[Z.to_nat i := x]> l !! Z.to_nat j =
  if decide (i = j) then Some x else l !! Z.to_nat j.
Proof.
  intros Hi Hj. case_decide; subst.
  - apply list_lookup_insert_eq. lia.
  - apply list_lookup_insert_ne. lia.
Qed.

(** Run the next statement of a monadic body when it is a pure step. *)
Ltac mstep :=
  first
    [ rewrite bind_get | rewrite bind_gets | rewrite bind_modify | rewrite bind_mret
    | rewrite bind_assert by (by apply bool_decide_true)
    | rewrite bind_assert by done ].
Ltac mrun := repeat mstep.

(** Linear arithmetic with division and remainder by constants. *)
Ltac dlia := Z.to_euclidean_division_equations; lia.
