(* ===== verification/DList.v ===== *)
(** * The kernel's circular doubly linked list (kern/list/list.c)

    Nodes are embedded in other structs, so a list is a pattern of [next] and
    [prev] fields in a store of nodes.  The store maps the address of a node
    (of any countable type [K], so that clients may use structured addresses
    such as "the run-queue link of thread t") to its two fields.  Every
    operation of list.c is translated field write by field write, in the
    order of the source, because nodes may alias (the predecessor and the
    successor of a new node are both the head of an empty list).

    [is_list h hd xs] says that the store [h] holds the circular list with
    dummy head [hd] and nodes [xs]; the theorems show that each operation
    implements the corresponding operation on the sequence [xs] and leaves
    every other node of the store alone. *)

From S2P Require Import Prelude.

Record list_head (K : Type) : Type := mk_list_head { next : K; prev : K }.
Arguments mk_list_head {K} next prev.
Arguments next {K} _.
Arguments prev {K} _.

Section dlist.
Context {K : Type} `{Countable K}.
Abbreviation store := (gmap K (list_head K)).
Implicit Types (h : store) (hd p n x : K) (xs ys l : list K).

(** ** Field accesses *)
Definition upd_next p (v : K) h : store :=
  alter (λ nd, mk_list_head v (prev nd)) p h.
Definition upd_prev p (v : K) h : store :=
  alter (λ nd, mk_list_head (next nd) v) p h.

Definition valid h p : bool := bool_decide (is_Some (h !! p)).

Definition set_next p v : M store unit :=
  λ h, if valid h p then Ok tt (upd_next p v h) else Stop BadAccess.
Definition set_prev p v : M store unit :=
  λ h, if valid h p then Ok tt (upd_prev p v h) else Stop BadAccess.
Definition get_next p : M store K :=
  λ h, match h !! p with Some nd => Ok (next nd) h | None => Stop BadAccess end.
Definition get_prev p : M store K :=
  λ h, match h !! p with Some nd => Ok (prev nd) h | None => Stop BadAccess end.

(** ** The operations of list.c *)
Definition init_head (head : K) : M store unit :=
  set_next head head ;;
  set_prev head head.

Definition add_to_list (new_node prv nxt : K) : M store unit :=
  set_next new_node nxt ;;
  set_prev new_node prv ;;
  set_next prv new_node ;;
  set_prev nxt new_node.

Definition add_to_tail (new_node head : K) : M store unit :=
  p ← get_prev head;
  add_to_list new_node p head.

Definition add_to_head (new_node head : K) : M store unit :=
  n ← get_next head;
  add_to_list new_node head n.

Definition del_entry (node : K) : M store unit :=
  p ← get_prev node;
  n ← get_next node;
  set_next p n ;;
  n' ← get_next node;
  p' ← get_prev node;
  set_prev n' p'.

(** NULL is [None]. *)
Definition get_first (head : K) : M store (option K) :=
  n ← get_next head;
  mret (if decide (n = head) then None else Some n).

Definition get_last (head : K) : M store (option K) :=
  p ← get_prev head;
  mret (if decide (p = head) then None else Some p).

Definition concat_lists (first_list_head second_list_head : K) : M store unit :=
  head_one ← get_first first_list_head;
  tail_one ← get_last first_list_head;
  head_two ← get_first second_list_head;
  tail_two ← get_last second_list_head;
  match head_two with
  | None => mret tt
  | Some head_two =>
      tail_two ← deref tail_two;
      match head_one with
      | None =>
          set_next first_list_head head_two ;;
          set_prev first_list_head tail_two ;;
          set_prev head_two first_list_head ;;
          set_next tail_two first_list_head ;;
          init_head second_list_head
      | Some _ =>
          tail_one ← deref tail_one;
          set_next tail_one head_two ;;
          set_prev head_two tail_one ;;
          set_next tail_two first_list_head ;;
          set_prev first_list_head tail_two
      end
  end.

(** The traversal idiom of the clients:
    [node = get_first(head); while (node != NULL && node != head) { if
    (found(node)) break; node = node->next; }].  The result is the node at
    which the loop stopped, [None] when the list was empty, [Some head] when
    it was exhausted.  [fuel] bounds the number of iterations. *)
Fixpoint find_from (fuel : nat) (found : K → bool) (head node : K)
    : M store (option K) :=
  if decide (node = head) then mret (Some node)
  else if found node then mret (Some node)
  else match fuel with
       | O => halt OutOfFuel
       | S fuel' => n ← get_next node; find_from fuel' found head n
       end.

Definition find_node (fuel : nat) (found : K → bool) (head : K)
    : M store (option K) :=
  f ← get_first head;
  match f with
  | None => mret None
  | Some node => find_from fuel found head node
  end.

(** ** What a well-formed list is *)
Definition nx h p : option K := next <$> h !! p.
Definition pv h p : option K := prev <$> h !! p.

Definition linked h p n : Prop := nx h p = Some n ∧ pv h n = Some p.

Fixpoint chain h l : Prop :=
  match l with
  | a :: ((b :: _) as t) => linked h a b ∧ chain h t
  | _ => True
  end.

Definition is_list h hd xs : Prop :=
  NoDup (hd :: xs) ∧ chain h (hd :: xs ++ [hd]).

(** ** Lemmas on field updates *)
Lemma nx_upd_next p v h k :
  nx (upd_next p v h) k = if decide (k = p) then const v <$> h !! k else nx h k.
Proof.
  unfold nx, upd_next. rewrite lookup_alter. case_decide; subst.
  - rewrite decide_True by done. by destruct (h !! k).
  - by rewrite decide_False by done.
Qed.

Lemma pv_upd_prev p v h k :
  pv (upd_prev p v h) k = if decide (k = p) then const v <$> h !! k else pv h k.
Proof.
  unfold pv, upd_prev. rewrite lookup_alter. case_decide; subst.
  - rewrite decide_True by done. by destruct (h !! k).
  - by rewrite decide_False by done.
Qed.

Lemma nx_upd_prev p v h k : nx (upd_prev p v h) k = nx h k.
Proof.
  unfold nx, upd_prev. rewrite lookup_alter.
  case_decide; subst; by destruct (h !! _).
Qed.

Lemma pv_upd_next p v h k : pv (upd_next p v h) k = pv h k.
Proof.
  unfold pv, upd_next. rewrite lookup_alter.
  case_decide; subst; by destruct (h !! _).
Qed.

Lemma is_Some_upd_next p v h k : is_Some (upd_next p v h !! k) ↔ is_Some (h !! k).
Proof. apply lookup_alter_is_Some. Qed.

Lemma is_Some_upd_prev p v h k : is_Some (upd_prev p v h !! k) ↔ is_Some (h !! k).
Proof. apply lookup_alter_is_Some. Qed.

Lemma set_next_ok p v h : is_Some (h !! p) → set_next p v h = Ok tt (upd_next p v h).
Proof. intros. unfold set_next, valid. by rewrite bool_decide_true. Qed.

Lemma set_prev_ok p v h : is_Some (h !! p) → set_prev p v h = Ok tt (upd_prev p v h).
Proof. intros. unfold set_prev, valid. by rewrite bool_decide_true. Qed.

Lemma get_next_ok p v h : nx h p = Some v → get_next p h = Ok v h.
Proof. unfold nx, get_next. destruct (h !! p); intros; by simplify_eq/=. Qed.

Lemma get_prev_ok p v h : pv h p = Some v → get_prev p h = Ok v h.
Proof. unfold pv, get_prev. destruct (h !! p); intros; by simplify_eq/=. Qed.

(** ** Lemmas on chains *)
Lemma linked_valid h p n : linked h p n → is_Some (h !! p) ∧ is_Some (h !! n).
Proof.
  intros [H1 H2]. unfold nx in H1. unfold pv in H2.
  apply fmap_Some in H1 as (? & -> & _). apply fmap_Some in H2 as (? & -> & _). done.
Qed.

Lemma chain_app h l p n r :
  chain h (l ++ p :: n :: r) ↔ chain h (l ++ [p]) ∧ linked h p n ∧ chain h (n :: r).
Proof.
  induction l as [|a [|b l] IH]; simpl in *; [tauto|tauto|]. rewrite IH. tauto.
Qed.

Lemma chain_frame h h' l :
  (∀ k, k ∈ removelast l → nx h' k = nx h k) →
  (∀ k, k ∈ tail l → pv h' k = pv h k) →
  chain h l → chain h' l.
Proof.
  induction l as [|a [|b l] IH]; [done|done|]. intros Hn Hp [[H1 H2] Hc].
  split; [split|].
  - rewrite Hn; [done|]. simpl. set_solver.
  - rewrite Hp; [done|]. simpl. set_solver.
  - apply IH; [| |done]; intros k Hk; [apply Hn|apply Hp]; simpl in *; set_solver.
Qed.

Lemma is_list_valid h hd xs k : is_list h hd xs → k ∈ hd :: xs → is_Some (h !! k).
Proof.
  intros [_ Hc] Hk. apply list_elem_of_split in Hk as (l & r & E).
  assert (hd :: xs ++ [hd] = l ++ k :: (r ++ [hd])) as E'.
  { change (hd :: xs ++ [hd]) with ((hd :: xs) ++ [hd]). rewrite E.
    by rewrite <- app_assoc. }
  rewrite E' in Hc. destruct r as [|y r]; simpl in Hc;
    apply chain_app in Hc as (_ & Hl & _); by destruct (linked_valid _ _ _ Hl).
Qed.

(** Only the fields of its own nodes matter to a list. *)
Lemma is_list_frame h h' hd xs :
  (∀ k, k ∈ hd :: xs → h' !! k = h !! k) → is_list h hd xs → is_list h' hd xs.
Proof.
  intros Hf [Hnd Hc]. split; [done|].
  eapply chain_frame; [| |exact Hc]; unfold nx, pv; intros k Hk; rewrite Hf; [done| |done|].
  - change (hd :: xs ++ [hd]) with ((hd :: xs) ++ [hd]) in Hk.
    by rewrite removelast_last in Hk.
  - simpl in Hk. set_solver.
Qed.

(** The seam of a list between two of its parts: [p] is the last node before
    it and [n] the first node after it (the head on either side when the part
    is empty). *)
Lemma seam hd xs ys :
  ∃ L p n R, hd :: xs = L ++ [p] ∧ ys ++ [hd] = n :: R ∧
    p = default hd (list.last xs) ∧ n = default hd (list.head ys).
Proof.
  assert (∃ L p, hd :: xs = L ++ [p] ∧ p = default hd (list.last xs)) as (L & p & E1 & E2).
  { destruct xs as [|x xs _] using rev_ind.
    - by exists [], hd.
    - exists (hd :: xs), x. by rewrite last_snoc. }
  exists L, p. destruct ys as [|y ys]; [by exists hd, []|by exists y, (ys ++ [hd])].
Qed.

Lemma is_list_seam h hd xs ys L p n R :
  hd :: xs = L ++ [p] → ys ++ [hd] = n :: R →
  is_list h hd (xs ++ ys) ↔
  NoDup (hd :: xs ++ ys) ∧ chain h (L ++ [p]) ∧ linked h p n ∧ chain h (n :: R).
Proof.
  intros E1 E2. unfold is_list.
  replace (hd :: (xs ++ ys) ++ [hd]) with (L ++ p :: n :: R).
  { by rewrite chain_app. }
  change (L ++ p :: n :: R) with (L ++ [p] ++ (n :: R)).
  by rewrite app_assoc, <- E1, <- E2, app_comm_cons, !app_assoc.
Qed.

Lemma elem_of_removelast k l : k ∈ removelast l → k ∈ l.
Proof.
  destruct l as [|y l _] using rev_ind; [done|].
  rewrite removelast_last. intros Hk. apply elem_of_app. by left.
Qed.

(** What NoDup says at a seam. *)
Lemma seam_fresh hd xs ys L p n R :
  hd :: xs = L ++ [p] → ys ++ [hd] = n :: R → NoDup (hd :: xs ++ ys) →
  p ∉ L ∧ p ∉ removelast (n :: R) ∧ n ∉ xs ∧ n ∉ R ∧
  removelast (n :: R) = ys.
Proof.
  intros E1 E2 Hnd. change (hd :: xs ++ ys) with ((hd :: xs) ++ ys) in Hnd.
  rewrite <- E2, removelast_last.
  pose proof Hnd as Hnd'. rewrite E1 in Hnd'. apply NoDup_app in Hnd' as (H1 & H2 & H3).
  apply NoDup_app in H1 as (_ & HpL & _).
  apply NoDup_app in Hnd as ((Hhd & _)%NoDup_cons & H2' & _).
  split_and!; [set_solver..| | |done].
  - intros Hn. destruct ys as [|y ys]; simplify_eq/=; [done|].
    apply (H2 n); [|set_solver]. rewrite <- E1. set_solver.
  - intros Hn. destruct ys as [|y ys]; simplify_eq/=; [by apply not_elem_of_nil in Hn|].
    apply elem_of_app in Hn as [Hn|Hn%list_elem_of_singleton].
    + apply NoDup_cons in H3 as [? _]. done.
    + subst. apply (H2 hd); [|set_solver]. rewrite <- E1. set_solver.
Qed.

(** [h'] differs from [h] at most in the fields of the nodes [ks]. *)
Definition same_but (ks : list K) h h' : Prop :=
  (∀ k, k ∉ ks → h' !! k = h !! k) ∧ (∀ k, is_Some (h' !! k) ↔ is_Some (h !! k)).

Lemma same_but_refl ks h : same_but ks h h.
Proof. done. Qed.

Lemma same_but_upd_next ks p v h h' :
  p ∈ ks → same_but ks h h' → same_but ks h (upd_next p v h').
Proof.
  intros Hp [H1 H2]. split; intros k.
  - intros Hk. unfold upd_next. rewrite lookup_alter_ne by set_solver. by apply H1.
  - by rewrite is_Some_upd_next.
Qed.

Lemma same_but_upd_prev ks p v h h' :
  p ∈ ks → same_but ks h h' → same_but ks h (upd_prev p v h').
Proof.
  intros Hp [H1 H2]. split; intros k.
  - intros Hk. unfold upd_prev. rewrite lookup_alter_ne by set_solver. by apply H1.
  - by rewrite is_Some_upd_prev.
Qed.

Lemma same_but_list ks h h' hd xs :
  same_but ks h h' → (∀ k, k ∈ hd :: xs → k ∉ ks) → is_list h hd xs → is_list h' hd xs.
Proof. intros [H1 _] Hd. apply is_list_frame. auto. Qed.

End dlist.

(** Run the next field access of a list operation. *)
Ltac dl_valid :=
  repeat first [apply is_Some_upd_next | apply is_Some_upd_prev]; eauto.
Ltac dl_step :=
  match goal with
  | |- context [(set_next ?p ?v ≫= _) ?h] =>
      rewrite (bind_ok (set_next p v) _ h tt (upd_next p v h))
        by (apply set_next_ok; dl_valid)
  | |- context [(set_prev ?p ?v ≫= _) ?h] =>
      rewrite (bind_ok (set_prev p v) _ h tt (upd_prev p v h))
        by (apply set_prev_ok; dl_valid)
  | |- context [set_next ?p ?v ?h] => rewrite (set_next_ok p v h) by dl_valid
  | |- context [set_prev ?p ?v ?h] => rewrite (set_prev_ok p v h) by dl_valid
  end.
(** Read a field through a stack of updates. *)
Ltac dl_field :=
  repeat first
    [ progress rewrite ?nx_upd_prev, ?pv_upd_next, ?nx_upd_next, ?pv_upd_prev
    | case_decide; subst; try done ].
Ltac dl_frame :=
  repeat first [apply same_but_refl
               | apply same_but_upd_next; [set_solver|]
               | apply same_but_upd_prev; [set_solver|]].

Section dlist_specs.
Context {K : Type} `{Countable K}.
Abbreviation store := (gmap K (list_head K)).
Implicit Types (h : store) (hd p n x : K) (xs ys l : list K).

Lemma const_fmap_is_Some (v : K) (o : option (list_head K)) :
  is_Some o → const v <$> o = Some v.
Proof. by intros [? ->]. Qed.

(** Linking a fresh node in at a seam. *)
Lemma chain_insert h new p n L R :
  chain h (L ++ [p]) → chain h (n :: R) →
  p ∉ L → p ∉ removelast (n :: R) → n ∉ tail (L ++ [p]) → n ∉ R →
  new ∉ L ++ [p] → new ∉ n :: R →
  is_Some (h !! new) → is_Some (h !! p) → is_Some (h !! n) →
  let h' := upd_prev n new (upd_next p new (upd_prev new p (upd_next new n h))) in
  chain h' (L ++ p :: new :: n :: R).
Proof.
  intros HcL HcR HpL HpR HnL HnR HnewL HnewR Hnew Hp Hn h'.
  assert (new ≠ p) as Hnp by (intros ->; apply HnewL, elem_of_app; right; left).
  assert (new ≠ n) as Hnn by (intros ->; apply HnewR; left).
  rewrite chain_app. change (chain h' (new :: n :: R)) with
    (linked h' new n ∧ chain h' (n :: R)).
  split_and!.
  - eapply chain_frame; [| |exact HcL]; intros k Hk; subst h'.
    + rewrite removelast_last in Hk. dl_field.
      by destruct HnewL; apply elem_of_app; left.
    + dl_field. destruct HnewL. destruct L; [by apply not_elem_of_nil in Hk|by right].
  - split; subst h'; dl_field; apply const_fmap_is_Some; dl_valid.
  - split; subst h'; dl_field; apply const_fmap_is_Some; dl_valid.
  - eapply chain_frame; [| |exact HcR]; intros k Hk; subst h'; dl_field.
    + destruct HnewR. by apply elem_of_removelast.
    + destruct HnewR. by right.
Qed.

(** Linking a node in between two consecutive parts of a list. *)
Lemma add_to_list_ok h hd xs ys new :
  is_list h hd (xs ++ ys) → new ∉ hd :: xs ++ ys → is_Some (h !! new) →
  ∃ h', add_to_list new (default hd (list.last xs)) (default hd (list.head ys)) h
          = Ok tt h' ∧
        is_list h' hd (xs ++ new :: ys) ∧
        same_but (new :: hd :: xs ++ ys) h h'.
Proof.
  intros Hl Hnew Hv.
  destruct (seam hd xs ys) as (L & p & n & R & E1 & E2 & <- & <-).
  pose proof Hl as Hl'. rewrite (is_list_seam _ _ _ _ _ _ _ _ E1 E2) in Hl'.
  destruct Hl' as (Hnd & HcL & Hpn & HcR).
  destruct (seam_fresh _ _ _ _ _ _ _ E1 E2 Hnd) as (HpL & HpR & Hnxs & HnR & _).
  destruct (linked_valid _ _ _ Hpn) as [Hp Hn].
  assert (∀ k, k ∈ L ++ [p] → k ∈ hd :: xs ++ ys) as HL.
  { intros k. rewrite <- E1. set_solver. }
  assert (∀ k, k ∈ n :: R → k ∈ hd :: xs ++ ys) as HR.
  { intros k. rewrite <- E2. set_solver. }
  eexists. split; [|split].
  - unfold add_to_list. repeat dl_step. reflexivity.
  - assert (xs ++ new :: ys = (xs ++ [new]) ++ ys) as -> by (by rewrite <- app_assoc).
    split.
    + apply NoDup_cons. apply NoDup_cons in Hnd as [??]. 
      split; [set_solver|]. rewrite <- app_assoc. simpl.
      rewrite <- Permutation_middle. apply NoDup_cons. split; [set_solver|done].
    + replace (hd :: ((xs ++ [new]) ++ ys) ++ [hd]) with (L ++ p :: new :: n :: R).
      2:{ change (L ++ p :: new :: n :: R) with (L ++ [p] ++ [new] ++ (n :: R)).
          by rewrite app_assoc, <- E1, <- E2, !app_comm_cons, !app_assoc. }
      apply chain_insert; try done; [|set_solver..].
      by rewrite <- E1.
  - dl_frame.
Qed.

Lemma is_list_next h hd xs : is_list h hd xs → nx h hd = Some (default hd (list.head xs)).
Proof. intros [_ Hc]. destruct xs; simpl in Hc; by destruct Hc as [[? ?] _]. Qed.

Lemma is_list_prev h hd xs : is_list h hd xs → pv h hd = Some (default hd (list.last xs)).
Proof.
  intros Hl. destruct (seam hd xs []) as (L & p & n & R & E1 & E2 & <- & ->).
  rewrite <- (app_nil_r xs), (is_list_seam _ _ _ _ _ _ _ _ E1 E2) in Hl.
  by destruct Hl as (_ & _ & [_ ?] & _).
Qed.

Lemma is_list_head_ne h hd xs : is_list h hd xs → hd ∉ xs.
Proof. by intros [[? _]%NoDup_cons _]. Qed.

Lemma get_first_ok h hd xs : is_list h hd xs → get_first hd h = Ok (list.head xs) h.
Proof.
  intros Hl. unfold get_first.
  rewrite (bind_ok _ _ _ _ _ (get_next_ok _ _ _ (is_list_next _ _ _ Hl))).
  destruct xs as [|x xs]; simpl; [by rewrite decide_True by done|].
  rewrite decide_False; [done|]. apply is_list_head_ne in Hl. set_solver.
Qed.

Lemma get_last_ok h hd xs : is_list h hd xs → get_last hd h = Ok (list.last xs) h.
Proof.
  intros Hl. unfold get_last.
  rewrite (bind_ok _ _ _ _ _ (get_prev_ok _ _ _ (is_list_prev _ _ _ Hl))).
  destruct (list.last xs) as [x|] eqn:E; simpl; [|by rewrite decide_True by done].
  rewrite decide_False; [done|]. apply is_list_head_ne in Hl.
  intros ->. by apply Hl, last_Some_elem_of.
Qed.

Lemma add_to_tail_ok h hd xs new :
  is_list h hd xs → new ∉ hd :: xs → is_Some (h !! new) →
  ∃ h', add_to_tail new hd h = Ok tt h' ∧ is_list h' hd (xs ++ [new]) ∧
        same_but (new :: hd :: xs) h h'.
Proof.
  intros Hl Hnew Hv. unfold add_to_tail.
  rewrite (bind_ok _ _ _ _ _ (get_prev_ok _ _ _ (is_list_prev _ _ _ Hl))).
  pose proof (add_to_list_ok h hd xs [] new) as Hadd. rewrite app_nil_r in Hadd.
  by apply Hadd.
Qed.

Lemma add_to_head_ok h hd xs new :
  is_list h hd xs → new ∉ hd :: xs → is_Some (h !! new) →
  ∃ h', add_to_head new hd h = Ok tt h' ∧ is_list h' hd (new :: xs) ∧
        same_but (new :: hd :: xs) h h'.
Proof.
  intros Hl Hnew Hv. unfold add_to_head.
  rewrite (bind_ok _ _ _ _ _ (get_next_ok _ _ _ (is_list_next _ _ _ Hl))).
  by apply (add_to_list_ok h hd [] xs new).
Qed.

(** Unlinking a node closes the gap between its neighbours. *)
Lemma del_entry_ok h hd xs x ys :
  is_list h hd (xs ++ x :: ys) →
  ∃ h', del_entry x h = Ok tt h' ∧ is_list h' hd (xs ++ ys) ∧
        same_but (hd :: xs ++ ys) h h'.
Proof.
  intros Hl.
  destruct (seam hd xs ys) as (L & p & n & R & E1 & E2 & Ep & En).
  pose proof Hl as [Hnd0 Hc].
  replace (hd :: (xs ++ x :: ys) ++ [hd]) with (L ++ p :: x :: n :: R) in Hc.
  2:{ change (L ++ p :: x :: n :: R) with (L ++ [p] ++ [x] ++ (n :: R)).
      rewrite app_assoc, <- E1, <- E2. simpl. by rewrite <- app_assoc. }
  apply chain_app in Hc as (HcL & [Hpx Hxp] & [[Hxn Hnx] HcR]).
  assert (NoDup (hd :: xs ++ ys) ∧ x ∉ hd :: xs ++ ys) as [Hnd Hx].
  { change (hd :: xs ++ x :: ys) with ((hd :: xs) ++ x :: ys) in Hnd0.
    rewrite <- Permutation_middle in Hnd0. by apply NoDup_cons in Hnd0 as [??]. }
  destruct (seam_fresh _ _ _ _ _ _ _ E1 E2 Hnd) as (HpL & HpR & Hnxs & HnR & Erl).
  assert (is_Some (h !! p) ∧ is_Some (h !! n)) as [Hp Hn].
  { by split; [eapply (linked_valid h p x)|eapply (linked_valid h x n)]. }
  assert (p ∈ hd :: xs) as Hpin by (rewrite E1; set_solver).
  assert (n ∈ ys ++ [hd]) as Hnin by (rewrite E2; set_solver).
  assert (x ≠ p) as Hxnp by set_solver.
  eexists. split; [|split].
  - unfold del_entry.
    rewrite (bind_ok _ _ _ _ _ (get_prev_ok _ _ _ Hxp)).
    rewrite (bind_ok _ _ _ _ _ (get_next_ok _ _ _ Hxn)).
    dl_step.
    rewrite (bind_ok _ _ _ n (upd_next p n h)) by (apply get_next_ok; by dl_field).
    rewrite (bind_ok _ _ _ p (upd_next p n h)) by (apply get_prev_ok; by dl_field).
    dl_step. reflexivity.
  - apply (is_list_seam _ _ _ _ _ _ _ _ E1 E2). split_and!; [done|..].
    + eapply chain_frame; [| |exact HcL]; intros k Hk.
      * rewrite removelast_last in Hk. dl_field.
      * rewrite <- E1 in Hk. simpl in Hk. dl_field.
    + split; dl_field; apply const_fmap_is_Some; dl_valid.
    + eapply chain_frame; [| |exact HcR]; intros k Hk; dl_field.
  - dl_frame.
Qed.

Lemma init_head_ok h hd :
  is_Some (h !! hd) →
  ∃ h', init_head hd h = Ok tt h' ∧ is_list h' hd [] ∧ same_but [hd] h h'.
Proof.
  intros Hv. eexists. split; [|split].
  - unfold init_head. repeat dl_step. reflexivity.
  - split; [apply NoDup_singleton|].
    split; [|done]. split; dl_field; apply const_fmap_is_Some; dl_valid.
  - dl_frame.
Qed.

(** Two lists joined: the tail of the first is linked to the first node of the
    second, and the last node of the second to the head of the first. *)
Lemma is_list_join h h' a b xs y ys :
  is_list h a xs → is_list h b (y :: ys) →
  (∀ k, k ∈ a :: xs → k ∉ b :: y :: ys) →
  let t1 := default a (list.last xs) in
  let t2 := default y (list.last ys) in
  linked h' t1 y → linked h' t2 a →
  (∀ k, k ∈ a :: xs ++ y :: ys → k ≠ t1 → k ≠ t2 → nx h' k = nx h k) →
  (∀ k, k ∈ xs ++ y :: ys → k ≠ y → pv h' k = pv h k) →
  is_list h' a (xs ++ y :: ys).
Proof.
  intros [Hnd1 Hc1] [Hnd2 Hc2] Hdisj t1 t2 Hl1 Hl2 Hnx Hpv.
  destruct (seam a xs []) as (L & p & n & R & E1 & E2 & Ep & _).
  clear E2. fold t1 in Ep. subst p.
  destruct (seam y ys []) as (P & q & n' & R' & E3 & E4 & Eq & _).
  clear E4. fold t2 in Eq. subst q.
  change (a :: xs ++ [a]) with ((a :: xs) ++ [a]) in Hc1.
  change (b :: (y :: ys) ++ [b]) with ([] ++ b :: y :: (ys ++ [b])) in Hc2.
  rewrite E1, <- app_assoc in Hc1. apply chain_app in Hc1 as (Hc1 & _ & _).
  apply chain_app in Hc2 as (_ & _ & Hc2).
  change (y :: ys ++ [b]) with ((y :: ys) ++ [b]) in Hc2.
  rewrite E3, <- app_assoc in Hc2. apply chain_app in Hc2 as (Hc2 & _ & _).
  apply NoDup_cons in Hnd2 as [_ Hnd2].
  split.
  - change (a :: xs ++ y :: ys) with ((a :: xs) ++ (y :: ys)).
    apply NoDup_app. split_and!; [done|set_solver|done].
  - replace (a :: (xs ++ y :: ys) ++ [a]) with (L ++ t1 :: y :: (ys ++ [a])).
    2:{ change (L ++ t1 :: y :: ys ++ [a]) with (L ++ [t1] ++ (y :: ys) ++ [a]).
        rewrite (app_assoc L), <- E1. simpl. by rewrite <- app_assoc. }
    rewrite chain_app. split_and!; [|done|].
    + rewrite E1 in Hnd1, Hdisj. apply NoDup_app in Hnd1 as (_ & HtL & _).
      assert (∀ k, k ∈ a :: xs ↔ k ∈ L ++ [t1]) as Hin by (by intros; rewrite E1).
      assert (t2 ∈ y :: ys) as Ht2 by (rewrite E3; set_solver).
      eapply chain_frame; [| |exact Hc1]; intros k Hk.
      * rewrite removelast_last in Hk. apply Hnx; [|set_solver..].
        assert (k ∈ a :: xs) by (apply Hin; set_solver). set_solver.
      * rewrite <- E1 in Hk. simpl in Hk. apply Hpv; [set_solver|].
        intros ->. apply (Hdisj y); [|set_solver]. apply Hin. by right.
    + change (y :: ys ++ [a]) with ((y :: ys) ++ [a]). rewrite E3, <- app_assoc.
      apply chain_app. split_and!; [|done|done].
      assert (t1 ∈ a :: xs) as Ht1 by (rewrite E1; set_solver).
      assert (∀ k, k ∈ y :: ys ↔ k ∈ P ++ [t2]) as Hin by (by intros; rewrite E3).
      assert (∀ k, k ∈ y :: ys → k ≠ t1) as Hne.
      { intros k Hk ->. apply (Hdisj t1 Ht1). by right. }
      rewrite E3 in Hnd2. pose proof Hnd2 as (_ & HtP & _)%NoDup_app.
      eapply chain_frame; [| |exact Hc2]; intros k Hk.
      * rewrite removelast_last in Hk.
        assert (k ∈ y :: ys) by (apply Hin; set_solver).
        apply Hnx; [set_solver|by apply Hne|set_solver].
      * rewrite <- E3 in Hk, Hnd2. simpl in Hk. apply NoDup_cons in Hnd2 as [? _].
        apply Hpv; [set_solver|]. by intros ->.
Qed.

Lemma last_cons_default y ys : list.last (y :: ys) = Some (default y (list.last ys)).
Proof. destruct ys using rev_ind; [done|]. by rewrite app_comm_cons, !last_snoc. Qed.

(** Joining two lists.  The second head is emptied when the first list was
    empty, and is left pointing into the joined list otherwise. *)
Lemma concat_lists_ok h a b xs ys :
  is_list h a xs → is_list h b ys → (∀ k, k ∈ a :: xs → k ∉ b :: ys) →
  ∃ h', concat_lists a b h = Ok tt h' ∧ is_list h' a (xs ++ ys) ∧
        same_but (a :: b :: xs ++ ys) h h' ∧
        (if decide (xs ≠ [] ∧ ys ≠ []) then nx h' b = list.head ys
         else is_list h' b []).
Proof.
  intros Ha Hb Hdisj. unfold concat_lists.
  rewrite (bind_ok _ _ _ _ _ (get_first_ok _ _ _ Ha)).
  rewrite (bind_ok _ _ _ _ _ (get_last_ok _ _ _ Ha)).
  rewrite (bind_ok _ _ _ _ _ (get_first_ok _ _ _ Hb)).
  rewrite (bind_ok _ _ _ _ _ (get_last_ok _ _ _ Hb)).
  destruct ys as [|y ys].
  { exists h. rewrite app_nil_r, decide_False by naive_solver. simpl. split_and!; try done. }
  rewrite last_cons_default. simpl list.head. cbn [deref].
  set (t2 := default y (list.last ys)).
  assert (t2 ∈ y :: ys) as Ht2
    by (apply (last_Some_elem_of (y :: ys)), last_cons_default).
  assert (∀ k, k ∈ a :: xs → is_Some (h !! k)) as Hva
    by (intros; by apply (is_list_valid h a xs)).
  assert (∀ k, k ∈ b :: y :: ys → is_Some (h !! k)) as Hvb
    by (intros; by apply (is_list_valid h b (y :: ys))).
  assert (is_Some (h !! a) ∧ is_Some (h !! b) ∧ is_Some (h !! y) ∧ is_Some (h !! t2))
    as (? & ? & ? & ?) by (split_and!; [apply Hva; left|apply Hvb; set_solver..]).
  assert (a ≠ b ∧ a ≠ y ∧ a ≠ t2 ∧ b ≠ y ∧ b ≠ t2) as (Hab & Hay & Hat & Hby & Hbt).
  { apply is_list_head_ne in Hb. set_solver. }
  assert (b ∉ a :: xs ++ y :: ys ∧ a ∉ xs ++ y :: ys) as [Hnb Hna].
  { apply is_list_head_ne in Ha, Hb. set_solver. }
  destruct xs as [|x xs].
  - eexists. split; [|split; [|split]].
    + cbv beta iota delta [list.head]. rewrite bind_mret. unfold init_head.
      repeat dl_step. reflexivity.
    + apply (is_list_join h _ a b [] y ys Ha Hb Hdisj); fold t2; simpl.
      1,2: split; dl_field; apply const_fmap_is_Some; dl_valid.
      * intros k Hk **; dl_field.
      * intros k Hk **; dl_field. destruct Hnb. by right.
    + dl_frame.
    + rewrite decide_False by naive_solver. split; [apply NoDup_singleton|].
      split; [|done]. split; dl_field; apply const_fmap_is_Some; dl_valid.
  - rewrite last_cons_default. simpl list.head. cbn [deref].
    set (t1 := default x (list.last xs)).
    assert (t1 ∈ x :: xs) as Ht1
      by (apply (last_Some_elem_of (x :: xs)), last_cons_default).
    assert (is_Some (h !! t1)) by (apply Hva; by right).
    assert (t1 ≠ a ∧ t1 ≠ t2 ∧ t1 ≠ b) as (H1a & H12 & H1b).
    { split_and!; intros E; rewrite E in Ht1; [by apply (is_list_head_ne h a (x :: xs))|..];
        eapply Hdisj; [by right| by right |by right|by left]. }
    eexists. split; [|split; [|split]].
    + cbv beta iota delta [list.head]. rewrite !bind_mret. repeat dl_step. reflexivity.
    + apply (is_list_join h _ a b (x :: xs) y ys Ha Hb Hdisj);
        rewrite ?last_cons_default; simpl; fold t1 t2.
      1,2: split; dl_field; apply const_fmap_is_Some; dl_valid.
      1,2: intros k Hk **; dl_field.
    + dl_frame.
    + rewrite decide_True by done. apply is_list_next in Hb. dl_field.
Qed.

Lemma is_list_next_mid h hd xs y ys :
  is_list h hd (xs ++ y :: ys) → nx h y = Some (default hd (list.head ys)).
Proof.
  intros Hl. destruct (seam hd (xs ++ [y]) ys) as (L & p & n & R & E1 & E2 & Ep & ->).
  rewrite cons_middle, app_assoc in Hl.
  rewrite (is_list_seam _ _ _ _ _ _ _ _ E1 E2) in Hl.
  destruct Hl as (_ & _ & [Hn _] & _).
  rewrite last_snoc in Ep. by subst.
Qed.

Lemma find_from_ok h hd xs ys found fuel :
  is_list h hd (xs ++ ys) → (length ys ≤ fuel)%nat →
  find_from fuel found hd (default hd (list.head ys)) h =
  Ok (Some (default hd (List.find found ys))) h.
Proof.
  revert xs fuel. induction ys as [|y ys IH]; intros xs fuel Hl Hf.
  { simpl. destruct fuel; simpl; by rewrite decide_True. }
  destruct fuel as [|fuel]; simpl in Hf; [lia|]. cbn [find_from list.head default List.find].
  rewrite decide_False.
  2:{ apply is_list_head_ne in Hl. set_solver. }
  unfold id. destruct (found y); [done|].
  rewrite (bind_ok _ _ _ _ _ (get_next_ok _ _ _ (is_list_next_mid _ _ _ _ _ Hl))).
  apply (IH (xs ++ [y])); [by rewrite <- app_assoc|lia].
Qed.

(** A traversal stops at the first matching node, or at the head. *)
Lemma find_node_ok h hd xs found fuel :
  is_list h hd xs → (length xs ≤ fuel)%nat →
  find_node fuel found hd h =
  Ok (match xs with [] => None | _ => Some (default hd (List.find found xs)) end) h.
Proof.
  intros Hl Hf. unfold find_node.
  rewrite (bind_ok _ _ _ _ _ (get_first_ok _ _ _ Hl)).
  destruct xs as [|x xs]; [done|]. by apply (find_from_ok h hd [] (x :: xs)).
Qed.

End dlist_specs.
