(* ===== verification/Locks.v ===== *)
(** * The kernel mutex as its uncontended users see it (kern/sync/mutex.c)

    The sequential components (frame allocator, virtual memory, thread map)
    take and release mutexes around their critical sections.  This file holds
    the mutex record and the effect of [mutex_init], [mutex_destroy],
    [mutex_lock] and [mutex_unlock] on it when the caller runs alone: locking a
    held mutex stops with [WouldBlock], because the C code would enqueue the
    caller and switch to another thread.  The step machine with several
    threads, the wait queue and the scheduler is in Sync.v. *)

From S2P Require Import Prelude.

Definition MUTEX_VALID : Z := 1.
Definition MUTEX_INVALID : Z := -1.

(** [waiting] is the queue of waiting threads, first to be woken first. *)
Record mutex_t : Type := mk_mutex { value : Z; waiting : list Z }.

#[export] Instance mutex_t_eq_dec : EqDecision mutex_t.
Proof. solve_decision. Defined.

Definition mutex_init : mutex_t := mk_mutex MUTEX_VALID [].

Definition mutex_destroy : M mutex_t unit :=
  m ← get;
  thread_assert (bool_decide (value m ≠ MUTEX_INVALID)) ;;
  modify (λ m, mk_mutex MUTEX_INVALID (waiting m)).

Definition mutex_lock : M mutex_t unit :=
  m ← get;
  thread_assert (bool_decide (value m ≠ MUTEX_INVALID)) ;;
  if decide (value m = 0) then halt WouldBlock
  else modify (λ m, mk_mutex 0 (waiting m)).

(** The first waiter, if any, leaves the queue and becomes runnable. *)
Definition mutex_unlock : M mutex_t unit :=
  m ← get;
  thread_assert (bool_decide (value m ≠ MUTEX_INVALID)) ;;
  modify (λ m, mk_mutex 1 (tail (waiting m))).

Abbreviation free_mutex := (mk_mutex 1 []).
Abbreviation held_mutex := (mk_mutex 0 []).

Lemma mutex_lock_free : mutex_lock free_mutex = Ok tt held_mutex.
Proof. done. Qed.

Lemma mutex_unlock_held : mutex_unlock held_mutex = Ok tt free_mutex.
Proof. done. Qed.

(** ** Condition variables (kern/sync/cond_var.c), initialisation and end *)
Definition COND_VAR_VALID : Z := 1.
Definition COND_VAR_INVALID : Z := -1.

Record cond_t : Type := mk_cond {
  cv_status : Z;
  cv_waiting : list Z;
  queue_mutex : mutex_t;
}.

(** For a [cv] that is not NULL; the call returns 0. *)
Definition cond_init : M cond_t Z :=
  modify (λ _, mk_cond COND_VAR_VALID [] mutex_init) ;;
  mret 0.

Definition cond_destroy : M cond_t unit :=
  c ← get;
  thread_assert (bool_decide (cv_status c ≠ COND_VAR_INVALID)) ;;
  zoom queue_mutex (λ m c, mk_cond (cv_status c) (cv_waiting c) m) mutex_destroy ;;
  modify (λ c, mk_cond COND_VAR_INVALID (cv_waiting c) (queue_mutex c)).
