(* ===== verification/FrameAlloc.v ===== *)
(** * The physical frame allocator (kern/allocator/frame_allocator.c)

    The free frames form a stack threaded through [free_frames_arr]: the entry
    of a free frame holds the address of the next free frame, the last one
    holds [FREE_FRAME_LIST_END].  [free_list_head] is the top.  There is one
    mutex for the stack and one per physical frame.

    [free_stack st fs] relates a state to the sequence [fs] of its free frames;
    the theorems show that [allocate_frame] pops it, [deallocate_frame] pushes
    on it and [check_physical_memory] counts it. *)

From S2P Require Import Prelude Locks.

(** Constants of page.h, common_kern.h, frame_allocator.c. *)
Definition PAGE_SIZE : Z := 4096.
Definition USER_MEM_START : Z := 0x1000000.
Definition FREE_FRAME_LIST_END : Z := 0xFFFFFFFF.
Definition PAGE_ALIGNMENT_CHECK : Z := 0xfff.
Definition NULL : Z := 0.

(** The static variables of frame_allocator.c, and the number of physical
    frames of the machine, which the code asks for each time. *)
Record falloc : Type := mk_falloc {
  machine_phys_frames : Z;
  free_frames_arr : list Z;
  free_frames_lock : list mutex_t;
  free_list_head : Z;
  list_mut : mutex_t;
}.

Definition set_arr a s :=
  mk_falloc (machine_phys_frames s) a (free_frames_lock s) (free_list_head s) (list_mut s).
Definition set_locks l s :=
  mk_falloc (machine_phys_frames s) (free_frames_arr s) l (free_list_head s) (list_mut s).
Definition set_head h s :=
  mk_falloc (machine_phys_frames s) (free_frames_arr s) (free_frames_lock s) h (list_mut s).
Definition set_list_mut m s :=
  mk_falloc (machine_phys_frames s) (free_frames_arr s) (free_frames_lock s)
            (free_list_head s) m.

Definition FREE_FRAMES_COUNT (s : falloc) : Z :=
  machine_phys_frames s - USER_MEM_START / PAGE_SIZE.

Lemma FREE_FRAMES_COUNT_eq s : FREE_FRAMES_COUNT s = machine_phys_frames s - 4096.
Proof. done. Qed.

(** Unsigned arithmetic: an address below [USER_MEM_START] wraps around. *)
Definition FRAME_INDEX (addr : Z) : Z := u32 (addr - USER_MEM_START) / PAGE_SIZE.

(** [kernel_assert(FRAME_INDEX(a) >= 0)] and [kernel_assert(FRAME_INDEX(a) <
    FREE_FRAMES_COUNT)]; the second compares as unsigned. *)
Definition index_ok (s : falloc) (addr : Z) : bool :=
  bool_decide (0 ≤ FRAME_INDEX addr) &&
  bool_decide (FRAME_INDEX addr < u32 (FREE_FRAMES_COUNT s)).

Definition with_list_mut (m : M mutex_t unit) : M falloc unit :=
  zoom list_mut set_list_mut m.

(** An operation on [free_frames_lock[i]]. *)
Definition with_frame_lock (i : Z) (m : M mutex_t unit) : M falloc unit :=
  s ← get;
  l ← aget (free_frames_lock s) i;
  match m l with
  | Ok _ l' =>
      ls ← aset (free_frames_lock s) i l';
      modify (set_locks ls)
  | Stop w => halt w
  end.

(** [free_frames_arr[i] = v; mutex_init(&free_frames_lock[i])]. *)
Definition init_entry (i v : Z) : M falloc unit :=
  s ← get;
  a ← aset (free_frames_arr s) i v;
  modify (set_arr a) ;;
  l ← aset (free_frames_lock s) i mutex_init;
  modify (set_locks l).

(** [arr] and [locks] are the two blocks returned by [smalloc], [None] for
    NULL; their contents are whatever the memory held. *)
Definition init_free_list (arr : option (list Z)) (locks : option (list mutex_t))
    : M falloc unit :=
  kernel_assert (bool_decide (is_Some arr)) ;;
  a ← deref arr;
  modify (set_arr a) ;;
  kernel_assert (bool_decide (is_Some locks)) ;;
  l ← deref locks;
  modify (set_locks l) ;;
  n ← gets FREE_FRAMES_COUNT;
  for_loop (Z.to_nat (n - 1)) 0 (λ i,
    init_entry i (USER_MEM_START + (i + 1) * PAGE_SIZE)) ;;
  init_entry (n - 1) FREE_FRAME_LIST_END ;;
  modify (set_head USER_MEM_START).

Definition init_frame_allocator arr locks : M falloc unit :=
  init_free_list arr locks ;;
  modify (set_list_mut mutex_init).

Definition allocate_frame : M falloc Z :=
  with_list_mut mutex_lock ;;
  s ← get;
  if decide (free_list_head s = FREE_FRAME_LIST_END) then
    with_list_mut mutex_unlock ;;
    mret NULL
  else
    let frame_addr := free_list_head s in
    nxt ← aget (free_frames_arr s) (FRAME_INDEX frame_addr);
    modify (set_head nxt) ;;
    with_list_mut mutex_unlock ;;
    kernel_assert (bool_decide (Z.land frame_addr PAGE_ALIGNMENT_CHECK = 0)) ;;
    kernel_assert (index_ok s frame_addr) ;;
    mret frame_addr.

Definition deallocate_frame (frame_addr : Z) : M falloc unit :=
  s ← get;
  kernel_assert (bool_decide (Z.land frame_addr PAGE_ALIGNMENT_CHECK = 0)) ;;
  kernel_assert (bool_decide (frame_addr ≠ NULL)) ;;
  kernel_assert (index_ok s frame_addr) ;;
  with_list_mut mutex_lock ;;
  s ← get;
  let index := FRAME_INDEX frame_addr in
  arr ← aset (free_frames_arr s) index (free_list_head s);
  modify (set_arr arr) ;;
  modify (set_head frame_addr) ;;
  with_list_mut mutex_unlock.

Definition lock_frame (frame_addr : Z) : M falloc unit :=
  s ← get;
  kernel_assert (bool_decide (frame_addr ≠ NULL)) ;;
  kernel_assert (index_ok s frame_addr) ;;
  with_frame_lock (FRAME_INDEX frame_addr) mutex_lock.

Definition unlock_frame (frame_addr : Z) : M falloc unit :=
  s ← get;
  kernel_assert (bool_decide (frame_addr ≠ NULL)) ;;
  kernel_assert (index_ok s frame_addr) ;;
  with_frame_lock (FRAME_INDEX frame_addr) mutex_unlock.

(** The walk of [check_physical_memory]; [fuel] bounds the number of nodes. *)
Fixpoint count_free (fuel : nat) (first : Z) (free_count : Z) : M falloc Z :=
  if decide (first = FREE_FRAME_LIST_END) then mret free_count
  else match fuel with
  | O => halt OutOfFuel
  | S fuel' =>
      kernel_assert (bool_decide (USER_MEM_START ≤ first)) ;;
      kernel_assert (bool_decide (first ≤ FREE_FRAME_LIST_END)) ;;
      s ← get;
      nxt ← aget (free_frames_arr s) (FRAME_INDEX first);
      count_free fuel' nxt (free_count + 1)
  end.

Definition check_physical_memory (fuel : nat) : M falloc Z :=
  s ← get;
  count_free fuel (free_list_head s) 0.

(** ** The free stack *)
Definition machine_ok (s : falloc) : Prop :=
  4096 < machine_phys_frames s ≤ 1048576.

(** The address of a frame managed by the allocator. *)
Definition is_frame (s : falloc) (f : Z) : Prop :=
  f mod 4096 = 0 ∧
  USER_MEM_START ≤ f < USER_MEM_START + PAGE_SIZE * FREE_FRAMES_COUNT s.

Fixpoint linked_free (arr : list Z) (hd : Z) (fs : list Z) : Prop :=
  match fs with
  | [] => hd = FREE_FRAME_LIST_END
  | f :: fs' => hd = f ∧
      ∃ nxt, arr !! Z.to_nat (FRAME_INDEX f) = Some nxt ∧ linked_free arr nxt fs'
  end.

Record free_stack (s : falloc) (fs : list Z) : Prop := {
  fs_machine : machine_ok s;
  fs_arr : Z.of_nat (length (free_frames_arr s)) = FREE_FRAMES_COUNT s;
  fs_locks : Z.of_nat (length (free_frames_lock s)) = FREE_FRAMES_COUNT s;
  fs_mut : list_mut s = free_mutex;
  fs_linked : linked_free (free_frames_arr s) (free_list_head s) fs;
  fs_nodup : NoDup fs;
  fs_frames : Forall (is_frame s) fs;
}.

(** No frame lock is held. *)
Definition all_unlocked (s : falloc) : Prop :=
  Forall (λ m, m = free_mutex) (free_frames_lock s).

(** ** Frame addresses and indices *)
Lemma frame_index s f :
  machine_ok s → is_frame s f →
  FRAME_INDEX f = (f - USER_MEM_START) / 4096 ∧ 0 ≤ FRAME_INDEX f < FREE_FRAMES_COUNT s.
Proof.
  unfold machine_ok, is_frame, FRAME_INDEX, FREE_FRAMES_COUNT, USER_MEM_START, PAGE_SIZE.
  intros Hm [Ha Hr]. change (16777216 / 4096) with 4096 in *.
  rewrite u32_small by (unfold word; lia). split; [done|]. dlia.
Qed.

Lemma frame_index_inj s f g :
  machine_ok s → is_frame s f → is_frame s g → FRAME_INDEX f = FRAME_INDEX g → f = g.
Proof.
  intros Hm Hf Hg. destruct (frame_index s f), (frame_index s g); try done.
  destruct Hf as [Hf _], Hg as [Hg _].
  unfold USER_MEM_START in *. dlia.
Qed.

Lemma frame_checks s f :
  machine_ok s → is_frame s f →
  Z.land f PAGE_ALIGNMENT_CHECK = 0 ∧ f ≠ NULL ∧ f ≠ FREE_FRAME_LIST_END ∧
  index_ok s f = true.
Proof.
  intros Hm Hf. destruct (frame_index s f Hm Hf) as [_ Hi]. destruct Hf as [Ha Hr].
  unfold machine_ok, FREE_FRAMES_COUNT, USER_MEM_START, PAGE_SIZE in *.
  change (16777216 / 4096) with 4096 in *.
  split_and!.
  - change PAGE_ALIGNMENT_CHECK with 0xFFF. by rewrite land_lo.
  - unfold NULL. lia.
  - unfold FREE_FRAME_LIST_END. dlia.
  - unfold index_ok, FREE_FRAMES_COUNT, USER_MEM_START, PAGE_SIZE.
    change (16777216 / 4096) with 4096.
    rewrite u32_small by (unfold word; lia).
    by rewrite !bool_decide_true by lia.
Qed.

Lemma linked_free_insert s arr hd fs f v :
  machine_ok s → is_frame s f → Forall (is_frame s) fs → f ∉ fs →
  linked_free arr hd fs →
  linked_free (<[Z.to_nat (FRAME_INDEX f) := v]> arr) hd fs.
Proof.
  intros Hm Hf. revert hd. induction fs as [|g fs IH]; intros hd Hall Hnin; [done|].
  apply Forall_cons in Hall as [Hg Hall]. intros (-> & nxt & Hn & Hl).
  split; [done|]. exists nxt. split.
  - rewrite list_lookup_insert_ne; [done|]. intros E.
    destruct (frame_index s f), (frame_index s g); try done.
    assert (f = g) by (eapply frame_index_inj; eauto; lia). set_solver.
  - apply IH; set_solver.
Qed.

(** ** The operations *)
Lemma lock_list_mut s :
  list_mut s = free_mutex → with_list_mut mutex_lock s = Ok tt (set_list_mut held_mutex s).
Proof. intros E. unfold with_list_mut, zoom. by rewrite E. Qed.

Lemma unlock_list_mut s :
  list_mut s = held_mutex → with_list_mut mutex_unlock s = Ok tt (set_list_mut free_mutex s).
Proof. intros E. unfold with_list_mut, zoom. by rewrite E. Qed.

Lemma relock s m : list_mut s = free_mutex → set_list_mut free_mutex (set_list_mut m s) = s.
Proof. destruct s; simpl. by intros ->. Qed.

Lemma allocate_frame_empty s : free_stack s [] → allocate_frame s = Ok NULL s.
Proof.
  intros Hs. pose proof (fs_mut _ _ Hs) as Hm. unfold allocate_frame.
  rewrite (bind_ok _ _ _ _ _ (lock_list_mut s Hm)), bind_get.
  rewrite decide_True by apply (fs_linked _ _ Hs).
  rewrite (bind_ok _ _ _ tt s); [done|]. rewrite unlock_list_mut by done.
  by rewrite relock.
Qed.

Lemma allocate_frame_pop s f fs :
  free_stack s (f :: fs) →
  ∃ nxt, free_frames_arr s !! Z.to_nat (FRAME_INDEX f) = Some nxt ∧
    allocate_frame s = Ok f (set_head nxt s) ∧ free_stack (set_head nxt s) fs.
Proof.
  intros Hs. pose proof (fs_mut _ _ Hs) as Hm. destruct Hs.
  destruct fs_linked0 as (Ehd & nxt & Hn & Hl).
  apply Forall_cons in fs_frames0 as [Hf Hfs]. apply NoDup_cons in fs_nodup0 as [Hnin Hnd].
  destruct (frame_index s f fs_machine0 Hf) as [_ Hi].
  destruct (frame_checks s f fs_machine0 Hf) as (Hal & Hnull & Hend & Hok).
  exists nxt. split; [done|]. split; [|by split].
  unfold allocate_frame. rewrite (bind_ok _ _ _ _ _ (lock_list_mut s Hm)), bind_get.
  cbn [free_list_head set_list_mut]. rewrite Ehd, decide_False by done.
  rewrite (bind_ok _ _ _ nxt (set_list_mut held_mutex s)) by (apply aget_ok; [lia|done]).
  rewrite bind_modify. erewrite bind_ok by (by apply unlock_list_mut).
  rewrite bind_assert by (by apply bool_decide_true). rewrite bind_assert by done.
  destruct s; simpl in *. by rewrite Hm.
Qed.

(** The state after [f] is returned. *)
Definition push_free (f : Z) (s : falloc) : falloc :=
  set_head f
    (set_arr (<[Z.to_nat (FRAME_INDEX f) := free_list_head s]> (free_frames_arr s)) s).

Lemma deallocate_frame_ok s f fs :
  free_stack s fs → is_frame s f → deallocate_frame f s = Ok tt (push_free f s).
Proof.
  intros Hs Hf. pose proof (fs_mut _ _ Hs) as Hm. destruct Hs.
  destruct (frame_index s f fs_machine0 Hf) as [_ Hi].
  destruct (frame_checks s f fs_machine0 Hf) as (Hal & Hnull & Hend & Hok).
  unfold deallocate_frame. rewrite bind_get.
  rewrite !bind_assert by (try apply bool_decide_true; done).
  rewrite (bind_ok _ _ _ _ _ (lock_list_mut s Hm)), bind_get.
  rewrite (bind_ok _ _ _ (<[Z.to_nat (FRAME_INDEX f) := free_list_head s]> (free_frames_arr s))
    (set_list_mut held_mutex s)) by (apply aset_ok; simpl; lia).
  rewrite !bind_modify, unlock_list_mut by done. destruct s; simpl in *. by rewrite Hm.
Qed.

Lemma push_free_stack s f fs :
  free_stack s fs → is_frame s f → f ∉ fs → free_stack (push_free f s) (f :: fs).
Proof.
  intros Hs Hf Hnin. destruct Hs. destruct (frame_index s f fs_machine0 Hf) as [_ Hi].
  split; try done.
  - simpl. by rewrite length_insert.
  - split; [done|]. exists (free_list_head s). split.
    + apply list_lookup_insert_eq. lia.
    + by apply (linked_free_insert s).
  - by apply NoDup_cons.
  - by apply Forall_cons.
Qed.

Lemma with_frame_lock_ok s i m m' op :
  0 ≤ i → free_frames_lock s !! Z.to_nat i = Some m → op m = Ok tt m' →
  with_frame_lock i op s = Ok tt (set_locks (<[Z.to_nat i := m']> (free_frames_lock s)) s).
Proof.
  intros Hi Hl Hop. pose proof (lookup_lt_Some _ _ _ Hl). unfold with_frame_lock.
  rewrite bind_get, (bind_ok _ _ _ m s) by (by apply aget_ok). rewrite Hop.
  rewrite (bind_ok _ _ _ (<[Z.to_nat i:=m']> (free_frames_lock s)) s)
    by (apply aset_ok; lia). done.
Qed.

(** The state with the lock of frame [f] set to [m]. *)
Definition set_lock (f : Z) (m : mutex_t) (s : falloc) : falloc :=
  set_locks (<[Z.to_nat (FRAME_INDEX f) := m]> (free_frames_lock s)) s.

Lemma lock_frame_ok s f :
  machine_ok s → is_frame s f →
  free_frames_lock s !! Z.to_nat (FRAME_INDEX f) = Some free_mutex →
  lock_frame f s = Ok tt (set_lock f held_mutex s).
Proof.
  intros Hm Hf Hl. destruct (frame_index s f Hm Hf) as [_ Hi].
  destruct (frame_checks s f Hm Hf) as (_ & Hnull & _ & Hok). unfold lock_frame.
  rewrite bind_get, !bind_assert by (try apply bool_decide_true; done).
  by apply with_frame_lock_ok with free_mutex; [lia|..].
Qed.

Lemma unlock_frame_ok s f :
  machine_ok s → is_frame s f →
  free_frames_lock s !! Z.to_nat (FRAME_INDEX f) = Some held_mutex →
  unlock_frame f s = Ok tt (set_lock f free_mutex s).
Proof.
  intros Hm Hf Hl. destruct (frame_index s f Hm Hf) as [_ Hi].
  destruct (frame_checks s f Hm Hf) as (_ & Hnull & _ & Hok). unfold unlock_frame.
  rewrite bind_get, !bind_assert by (try apply bool_decide_true; done).
  by apply with_frame_lock_ok with held_mutex; [lia|..].
Qed.

(** The free stack does not depend on the frame locks. *)
Lemma free_stack_set_lock s fs f m : free_stack s fs → free_stack (set_lock f m s) fs.
Proof. intros []. split; try done. simpl. by rewrite length_insert. Qed.

Lemma set_lock_restore s f m :
  free_frames_lock s !! Z.to_nat (FRAME_INDEX f) = Some free_mutex →
  set_lock f free_mutex (set_lock f m s) = s.
Proof.
  intros Hl. destruct s as [mpf arr locks hd mu]. unfold set_lock, set_locks; simpl in *.
  by rewrite list_insert_insert_eq, list_insert_id.
Qed.

Lemma all_unlocked_lookup s f :
  machine_ok s → Z.of_nat (length (free_frames_lock s)) = FREE_FRAMES_COUNT s →
  all_unlocked s → is_frame s f →
  free_frames_lock s !! Z.to_nat (FRAME_INDEX f) = Some free_mutex.
Proof.
  intros Hm Hlen Hall Hf. destruct (frame_index s f Hm Hf) as [_ Hi].
  destruct (lookup_Z (free_frames_lock s) (FRAME_INDEX f)) as [m Hl]; [lia|].
  rewrite Hl. f_equal. exact (Forall_lookup_1 _ _ _ _ Hall Hl).
Qed.

(** A held frame is not taken a second time by the same thread. *)
Lemma lock_frame_held s f :
  machine_ok s → is_frame s f →
  free_frames_lock s !! Z.to_nat (FRAME_INDEX f) = Some held_mutex →
  lock_frame f s = Stop WouldBlock.
Proof.
  intros Hm Hf Hl. destruct (frame_index s f Hm Hf) as [_ Hi].
  destruct (frame_checks s f Hm Hf) as (_ & Hnull & _ & Hok). unfold lock_frame.
  rewrite bind_get, !bind_assert by (try apply bool_decide_true; done).
  unfold with_frame_lock. rewrite bind_get.
  by rewrite (bind_ok _ _ _ held_mutex s) by (apply aget_ok; [lia|done]).
Qed.

Lemma count_free_ok s hd fs fuel n :
  machine_ok s → Forall (is_frame s) fs → linked_free (free_frames_arr s) hd fs →
  (length fs ≤ fuel)%nat →
  count_free fuel hd n s = Ok (n + Z.of_nat (length fs)) s.
Proof.
  intros Hm. revert hd fuel n. induction fs as [|f fs IH]; intros hd fuel n Hall Hl Hfuel.
  - simpl in Hl. subst. destruct fuel; cbn [count_free]; rewrite decide_True by done;
      unfold mret, M_ret; f_equal; simpl; lia.
  - destruct Hl as (-> & nxt & Hn & Hl). apply Forall_cons in Hall as [Hf Hall].
    destruct fuel as [|fuel]; simpl in Hfuel; [lia|].
    destruct (frame_index s f Hm Hf) as [_ Hi].
    destruct (frame_checks s f Hm Hf) as (_ & _ & Hend & _).
    cbn [count_free]. rewrite decide_False by done.
    destruct Hf as [Ha Hr]. unfold machine_ok, FREE_FRAMES_COUNT in *.
    rewrite !bind_assert by (apply bool_decide_true; unfold FREE_FRAME_LIST_END,
      USER_MEM_START, PAGE_SIZE in *; dlia).
    rewrite bind_get, (bind_ok _ _ _ nxt s) by (apply aget_ok; [lia|done]).
    rewrite IH; [|done|done|lia]. f_equal. simpl. lia.
Qed.

(** ** Initialisation *)
Definition all_frames (s : falloc) : list Z :=
  (λ i, USER_MEM_START + i * PAGE_SIZE) <$> seqZ 0 (FREE_FRAMES_COUNT s).

Lemma elem_of_all_frames s f : f ∈ all_frames s ↔ is_frame s f.
Proof.
  unfold all_frames, is_frame, USER_MEM_START, PAGE_SIZE. rewrite list_elem_of_fmap.
  setoid_rewrite elem_of_seqZ. split.
  - intros (i & -> & Hi). dlia.
  - intros [Ha Hr]. exists ((f - 16777216) / 4096). dlia.
Qed.

Lemma NoDup_all_frames s : NoDup (all_frames s).
Proof.
  apply NoDup_fmap_2; [|apply NoDup_seqZ]. intros i j. unfold PAGE_SIZE. lia.
Qed.

(** The free stack holds at most every frame. *)
Lemma free_stack_bound s fs :
  free_stack s fs → (length fs ≤ Z.to_nat (FREE_FRAMES_COUNT s))%nat.
Proof.
  intros []. transitivity (length (all_frames s)).
  - apply submseteq_length, NoDup_submseteq; [done|]. intros f Hf.
    apply elem_of_all_frames. by eapply Forall_forall in fs_frames0.
  - unfold all_frames. by rewrite length_fmap, length_seqZ.
Qed.

Lemma frame_index_of s i :
  machine_ok s → 0 ≤ i < FREE_FRAMES_COUNT s →
  FRAME_INDEX (USER_MEM_START + i * PAGE_SIZE) = i.
Proof.
  intros Hm Hi. destruct (frame_index s (USER_MEM_START + i * PAGE_SIZE) Hm) as [-> _].
  - unfold is_frame, USER_MEM_START, PAGE_SIZE. dlia.
  - unfold USER_MEM_START, PAGE_SIZE. dlia.
Qed.

(** The array written by the initialisation loop threads every frame. *)
Lemma linked_free_seq s arr i n :
  machine_ok s → 0 ≤ i → i + Z.of_nat n = FREE_FRAMES_COUNT s → (0 < n)%nat →
  (∀ j, 0 ≤ j < FREE_FRAMES_COUNT s → arr !! Z.to_nat j =
     Some (if decide (j = FREE_FRAMES_COUNT s - 1) then FREE_FRAME_LIST_END
           else USER_MEM_START + (j + 1) * PAGE_SIZE)) →
  linked_free arr (USER_MEM_START + i * PAGE_SIZE)
    ((λ i, USER_MEM_START + i * PAGE_SIZE) <$> seqZ i (Z.of_nat n)).
Proof.
  intros Hm. revert i. induction n as [|n IH]; intros i Hi Hn Hpos Harr; [lia|].
  rewrite seqZ_cons by lia. cbn [fmap list_fmap]. split; [done|].
  rewrite (frame_index_of s) by (done || lia). rewrite Harr by lia.
  eexists. split; [done|].
  replace (Z.pred (Z.of_nat (S n))) with (Z.of_nat n) by lia.
  case_decide.
  - replace n with O by lia. done.
  - by apply IH; [lia..|].
Qed.

(** What the initialisation loop has written before its iteration [i]. *)
Definition init_inv (mpf i : Z) (s : falloc) : Prop :=
  machine_phys_frames s = mpf ∧
  Z.of_nat (length (free_frames_arr s)) = FREE_FRAMES_COUNT s ∧
  Z.of_nat (length (free_frames_lock s)) = FREE_FRAMES_COUNT s ∧
  ∀ j, 0 ≤ j < i →
    free_frames_arr s !! Z.to_nat j = Some (USER_MEM_START + (j + 1) * PAGE_SIZE) ∧
    free_frames_lock s !! Z.to_nat j = Some free_mutex.

Lemma init_inv_write mpf i v s :
  init_inv mpf i s → 0 ≤ i < FREE_FRAMES_COUNT s →
  ∃ s', init_entry i v s = Ok tt s' ∧ init_inv mpf i s' ∧
    free_frames_arr s' !! Z.to_nat i = Some v ∧
    free_frames_lock s' !! Z.to_nat i = Some free_mutex.
Proof.
  intros (Hmpf & Ha & Hl & Hj) Hi. eexists. split; [|split; [split; [|split; [|split]]|split]].
  - unfold init_entry. rewrite bind_get. erewrite bind_ok by (apply aset_ok; lia).
    rewrite bind_modify. erewrite bind_ok by (apply aset_ok; lia). reflexivity.
  - done.
  - simpl. by rewrite length_insert.
  - simpl. by rewrite length_insert.
  - intros j Hj'. simpl. rewrite !lookup_insert_Z by lia. rewrite !decide_False by lia.
    by apply Hj.
  - simpl. by rewrite lookup_insert_Z, decide_True by lia.
  - simpl. by rewrite lookup_insert_Z, decide_True by lia.
Qed.

Lemma init_inv_count mpf i s t :
  init_inv mpf i s → machine_phys_frames t = mpf → FREE_FRAMES_COUNT s = FREE_FRAMES_COUNT t.
Proof. intros (E & _) Et. rewrite !FREE_FRAMES_COUNT_eq. lia. Qed.

(** The state before [free_list_head] is set: the whole array is written. *)
Lemma init_entries_ok s :
  machine_ok s →
  Z.of_nat (length (free_frames_arr s)) = FREE_FRAMES_COUNT s →
  Z.of_nat (length (free_frames_lock s)) = FREE_FRAMES_COUNT s →
  let n := FREE_FRAMES_COUNT s in
  ∃ s1 s2,
    for_loop (Z.to_nat (n - 1)) 0
      (λ i, init_entry i (USER_MEM_START + (i + 1) * PAGE_SIZE)) s = Ok tt s1 ∧
    init_entry (n - 1) FREE_FRAME_LIST_END s1 = Ok tt s2 ∧
    init_inv (machine_phys_frames s) (n - 1) s2 ∧
    free_frames_arr s2 !! Z.to_nat (n - 1) = Some FREE_FRAME_LIST_END ∧
    free_frames_lock s2 !! Z.to_nat (n - 1) = Some free_mutex.
Proof.
  intros Hm Ha Hl n.
  assert (1 ≤ n) as Hn by (subst n; rewrite FREE_FRAMES_COUNT_eq; unfold machine_ok in Hm; lia).
  destruct (for_loop_ok (init_inv (machine_phys_frames s))
    (λ i, init_entry i (USER_MEM_START + (i + 1) * PAGE_SIZE)) (Z.to_nat (n - 1)) 0 s)
    as (s1 & Hloop & HI).
  { split_and!; try done. intros j Hj. lia. }
  { intros i s1 Hi HI.
    assert (FREE_FRAMES_COUNT s1 = n) as En by (by apply (init_inv_count _ _ _ s HI)).
    destruct (init_inv_write _ _ (USER_MEM_START + (i + 1) * PAGE_SIZE) _ HI)
      as (s2 & H2 & (E & H3 & H4 & H5) & H6 & H7); [lia|].
    exists s2. split; [exact H2|]. split_and!; try done.
    intros j Hj. destruct (decide (j = i)) as [->|]; [done|]. apply H5. lia. }
  replace (0 + Z.of_nat (Z.to_nat (n - 1))) with (n - 1) in HI by lia.
  assert (FREE_FRAMES_COUNT s1 = n) as En by (by apply (init_inv_count _ _ _ s HI)).
  destruct (init_inv_write _ _ FREE_FRAME_LIST_END _ HI) as (s2 & H2 & ?); [lia|].
  by exists s1, s2.
Qed.

Lemma init_frame_allocator_ok s arr locks :
  machine_ok s →
  Z.of_nat (length arr) = FREE_FRAMES_COUNT s →
  Z.of_nat (length locks) = FREE_FRAMES_COUNT s →
  ∃ s', init_frame_allocator (Some arr) (Some locks) s = Ok tt s' ∧
        machine_phys_frames s' = machine_phys_frames s ∧
        free_stack s' (all_frames s') ∧ all_unlocked s'.
Proof.
  intros Hm Ha Hl.
  destruct (init_entries_ok (set_locks locks (set_arr arr s))) as
    (s1 & s2 & Hloop & H2 & HI & Ha2' & Hl2'); [done..|].
  assert (FREE_FRAMES_COUNT s2 = FREE_FRAMES_COUNT s) as En
    by (by apply (init_inv_count _ _ _ s HI)).
  destruct HI as (E2 & Ha2 & Hl2 & Hj2).
  exists (set_list_mut mutex_init (set_head USER_MEM_START s2)). split_and!.
  - unfold init_frame_allocator, init_free_list. erewrite bind_ok; [done|].
    cbn [deref]. mrun.
    rewrite (bind_ok _ _ _ _ _ Hloop). by rewrite (bind_ok _ _ _ _ _ H2).
  - done.
  - assert (machine_ok s2) as Hm2 by (unfold machine_ok in *; by rewrite E2).
    assert (1 ≤ FREE_FRAMES_COUNT s2)
      by (rewrite FREE_FRAMES_COUNT_eq; unfold machine_ok in Hm2; lia).
    split; try done.
    + change (linked_free (free_frames_arr s2) (USER_MEM_START + 0 * PAGE_SIZE)
        ((λ i, USER_MEM_START + i * PAGE_SIZE) <$> seqZ 0 (FREE_FRAMES_COUNT s2))).
      rewrite <- (Z2Nat.id (FREE_FRAMES_COUNT s2)) by lia.
      apply (linked_free_seq s2); [done|lia|lia|lia|].
      intros j Hj. case_decide as Ej; [subst j; by rewrite En|].
      apply Hj2. change (0 ≤ j < FREE_FRAMES_COUNT s - 1). lia.
    + apply NoDup_all_frames.
    + apply Forall_forall. intros f. by rewrite elem_of_all_frames.
  - apply Forall_lookup_2. intros i m Hi. simpl in Hi.
    pose proof (lookup_lt_Some _ _ _ Hi) as Hlt.
    change (FREE_FRAMES_COUNT (set_locks locks (set_arr arr s)))
      with (FREE_FRAMES_COUNT s) in *.
    destruct (decide (Z.of_nat i = FREE_FRAMES_COUNT s - 1)) as [Ei|Ei].
    + rewrite <- Ei, Nat2Z.id in Hl2'. congruence.
    + destruct (Hj2 (Z.of_nat i)) as [_ Hfree]; [lia|].
      rewrite Nat2Z.id in Hfree. congruence.
Qed.

(** ** Refinement of an abstract stack of frames *)
Inductive alloc_cmd : Set :=
  | Alloc
  | Dealloc (frame_addr : Z).

Definition alloc_exec (c : alloc_cmd) : M falloc Z :=
  match c with
  | Alloc => allocate_frame
  | Dealloc f => deallocate_frame f ;; mret NULL
  end.

Fixpoint alloc_run (cs : list alloc_cmd) : M falloc (list Z) :=
  match cs with
  | [] => mret []
  | c :: cs' => r ← alloc_exec c; rs ← alloc_run cs'; mret (r :: rs)
  end.

(** The specification: a stack of frames, with NULL when it is empty. *)
Definition stack_step (fs : list Z) (c : alloc_cmd) : Z * list Z :=
  match c with
  | Alloc => match fs with [] => (NULL, []) | f :: fs' => (f, fs') end
  | Dealloc f => (NULL, f :: fs)
  end.

Fixpoint stack_run (fs : list Z) (cs : list alloc_cmd) : list Z * list Z :=
  match cs with
  | [] => ([], fs)
  | c :: cs' =>
      let '(r, fs1) := stack_step fs c in
      let '(rs, fs2) := stack_run fs1 cs' in
      (r :: rs, fs2)
  end.

(** A client only returns frames, and none that is already free. *)
Fixpoint well_used (s : falloc) (fs : list Z) (cs : list alloc_cmd) : Prop :=
  match cs with
  | [] => True
  | c :: cs' =>
      match c with Alloc => True | Dealloc f => is_frame s f ∧ f ∉ fs end ∧
      well_used s (stack_step fs c).2 cs'
  end.

Lemma alloc_exec_ok s fs c cs :
  free_stack s fs → well_used s fs (c :: cs) →
  ∃ s', alloc_exec c s = Ok (stack_step fs c).1 s' ∧
        free_stack s' (stack_step fs c).2 ∧
        machine_phys_frames s' = machine_phys_frames s.
Proof.
  intros Hs [Hc _]. destruct c as [|f]; simpl.
  - destruct fs as [|f fs]; simpl.
    + exists s. by rewrite allocate_frame_empty.
    + destruct (allocate_frame_pop _ _ _ Hs) as (nxt & _ & -> & ?). eauto.
  - destruct Hc as [Hf Hnin].
    exists (push_free f s). rewrite (bind_ok _ _ _ _ _ (deallocate_frame_ok _ _ _ Hs Hf)).
    split_and!; [done| |done]. by apply push_free_stack.
Qed.

Lemma is_frame_machine s s' f :
  machine_phys_frames s' = machine_phys_frames s → is_frame s f ↔ is_frame s' f.
Proof. intros E. unfold is_frame. by rewrite !FREE_FRAMES_COUNT_eq, E. Qed.

Lemma well_used_machine s s' fs cs :
  machine_phys_frames s' = machine_phys_frames s → well_used s fs cs → well_used s' fs cs.
Proof.
  intros E. revert fs. induction cs as [|[|f] cs IH]; intros fs; simpl; [done|naive_solver|].
  rewrite (is_frame_machine s s' f E). naive_solver.
Qed.

Lemma alloc_run_ok s fs cs :
  free_stack s fs → well_used s fs cs →
  ∃ s', alloc_run cs s = Ok (stack_run fs cs).1 s' ∧
        free_stack s' (stack_run fs cs).2.
Proof.
  revert s fs. induction cs as [|c cs IH]; intros s fs Hs Hu; [by exists s|].
  destruct (alloc_exec_ok _ _ _ _ Hs Hu) as (s1 & H1 & Hs1 & E).
  destruct (IH s1 (stack_step fs c).2 Hs1) as (s2 & H2 & Hs2).
  { by apply (well_used_machine s); [|apply Hu]. }
  exists s2. cbn [alloc_run stack_run]. rewrite (bind_ok _ _ _ _ _ H1).
  rewrite (bind_ok _ _ _ _ _ H2).
  destruct (stack_step fs c) as [r fs1]. simpl in *.
  by destruct (stack_run fs1 cs).
Qed.

(** C16. From boot on, the allocator behaves as an abstract stack: after
    [init_frame_allocator], any sequence of [allocate_frame] and
    [deallocate_frame] calls that only frees frames in use returns exactly what
    a stack initially holding every frame in ascending order returns (NULL when
    it is empty), no assertion fails and no lock is left held. *)
Theorem allocator_refines_stack s arr locks cs :
  machine_ok s →
  Z.of_nat (length arr) = FREE_FRAMES_COUNT s →
  Z.of_nat (length locks) = FREE_FRAMES_COUNT s →
  well_used s (all_frames s) cs →
  ∃ s', (init_frame_allocator (Some arr) (Some locks) ;; alloc_run cs) s =
          Ok (stack_run (all_frames s) cs).1 s' ∧
        free_stack s' (stack_run (all_frames s) cs).2.
Proof.
  intros Hm Ha Hl Hu.
  destruct (init_frame_allocator_ok s arr locks) as (s1 & H1 & E & Hs1 & _); [done..|].
  replace (all_frames s1) with (all_frames s) in Hs1
    by (unfold all_frames; by rewrite !FREE_FRAMES_COUNT_eq, E).
  rewrite (bind_ok _ _ _ _ _ H1).
  apply alloc_run_ok; [done|]. by apply (well_used_machine s).
Qed.

(** C31. [check_physical_memory] returns the number of free frames and changes
    nothing: its walk of the threaded array takes one step per free frame (any
    fuel of at least that many steps is enough), trips no assertion, and there
    are at most as many free frames as user frames, in every state that satisfies
    the allocator invariant. *)
Theorem check_physical_memory_counts s fs fuel :
  free_stack s fs → (length fs ≤ fuel)%nat →
  check_physical_memory fuel s = Ok (Z.of_nat (length fs)) s ∧ Z.of_nat (length fs) ≤ FREE_FRAMES_COUNT s.
Proof.
  intros Hs Hf. pose proof (free_stack_bound _ _ Hs). destruct Hs. split; [|lia].
  unfold check_physical_memory. rewrite bind_get. by rewrite (count_free_ok s _ fs).
Qed.

(** A machine with three user frames. *)
Definition demo_machine : falloc := mk_falloc 4099 [] [] 0 free_mutex.

Lemma allocator_refines_stack_witness :
  ∃ s', (init_frame_allocator (Some [7; 7; 7]) (Some (replicate 3 held_mutex)) ;;
         alloc_run [Alloc; Alloc; Dealloc 0x1000000; Alloc; Alloc; Alloc]) demo_machine =
    Ok [0x1000000; 0x1001000; 0; 0x1000000; 0x1002000; 0] s' ∧ free_stack s' [].
Proof.
  apply (allocator_refines_stack demo_machine [7; 7; 7] (replicate 3 held_mutex)
           [Alloc; Alloc; Dealloc 0x1000000; Alloc; Alloc; Alloc]).
  - unfold machine_ok, demo_machine. simpl. lia.
  - reflexivity.
  - reflexivity.
  - cbn -[is_frame elem_of]. split_and!; try done.
    apply (bool_decide_unpack _). vm_compute. exact I.
Defined.

Lemma check_physical_memory_counts_witness :
  ∃ s', init_frame_allocator (Some [7; 7; 7]) (Some (replicate 3 held_mutex)) demo_machine
          = Ok tt s' ∧ check_physical_memory 3 s' = Ok 3 s'.
Proof.
  destruct (init_frame_allocator_ok demo_machine [7; 7; 7] (replicate 3 held_mutex))
    as (s' & H1 & E & Hs & _); [unfold machine_ok; simpl; lia|reflexivity|reflexivity|].
  exists s'. split; [exact H1|].
  replace (all_frames s') with (all_frames demo_machine) in Hs
    by (unfold all_frames; rewrite !FREE_FRAMES_COUNT_eq, E; reflexivity).
  apply (check_physical_memory_counts s' (all_frames demo_machine) 3 Hs).
  vm_compute. constructor.
Defined.
