(* ===== verification/Paging.v ===== *)
(** * Page-table entries and the kernel-heap interface

    The constants and macros of kern/inc/vm/vm.h and kern/vm/vm.c on page
    directory and page table entries, with their algebra (an entry is a
    page-aligned address together with twelve flag bits), and the interface
    through which the virtual-memory code obtains kernel pages. *)

From S2P Require Import Prelude FrameAlloc.

(** ** kern/inc/common/errors.h *)
Definition ERR_FAILURE : Z := -1.
Definition ERR_INVAL : Z := -2.
Definition ERR_BUSY : Z := -3.
Definition ERR_NOMEM : Z := -4.
Definition ERR_NOTAVAIL : Z := -5.
Definition ERR_BIG : Z := -6.

(** ** kern/inc/vm/vm.h *)
Definition PAGE_ENTRY_PRESENT : Z := 1.
Definition READ_WRITE_ENABLE : Z := 2.
Definition WRITE_DISABLE_MASK : Z := 0xFFFFFFFD.
Definition USER_MODE : Z := 4.
Definition COW_MODE : Z := 512.
Definition COW_MODE_DISABLE_MASK : Z := 0xFFFFFDFF.
Definition GLOBAL_PAGE_ENTRY : Z := 256.
Definition NEWPAGE_PAGE : Z := 1024.
Definition NEWPAGE_START : Z := 2048.
Definition NEWPAGE_END : Z := 3072.

Definition PAGE_DIRECTORY_MASK : Z := 0xffc00000.
Definition PAGE_TABLE_MASK : Z := 0x003ff000.
Definition PAGE_ROUND_DOWN : Z := 0xfffff000.
Definition NUM_PAGE_TABLE_ENTRIES : Z := 1024.
Definition DEFAULT_STACK_SIZE : Z := 2 * 1024 * 1024.
Definition STACK_START : Z := 0xc0000000.
Definition MEMORY_REGION_MAPPED : Z := 0.
Definition MEMORY_REGION_UNMAPPED : Z := 1.
Definition MAX_MEMORY_ADDR : Z := 0xffffffff.
Definition MAX_AVAILABLE_USER_MEM : Z := MAX_MEMORY_ADDR - USER_MEM_START.

Definition PAGE_DIR_ENTRY_DEFAULT : Z := 2.
Definition PAGE_TABLE_ENTRY_DEFAULT : Z := 2.

Definition GET_ADDR_FROM_ENTRY (e : Z) : Z := Z.land e 0xFFFFF000.
Definition GET_FLAGS_FROM_ENTRY (e : Z) : Z := Z.land e 0x00000FFF.
Definition GET_PD_INDEX (addr : Z) : Z := Z.shiftr (Z.land addr PAGE_DIRECTORY_MASK) 22.
Definition GET_PT_INDEX (addr : Z) : Z := Z.shiftr (Z.land addr PAGE_TABLE_MASK) 12.

(** [sizeof(direct_map) / sizeof(direct_map[0])]. *)
Definition KERNEL_MAP_NUM_ENTRIES : Z :=
  USER_MEM_START / (PAGE_SIZE * NUM_PAGE_TABLE_ENTRIES).

(** ** Macros of vm.c *)
Definition USER_PD_ENTRY_FLAGS : Z :=
  Z.lor (Z.lor PAGE_ENTRY_PRESENT READ_WRITE_ENABLE) USER_MODE.
Definition SET_NEWPAGE_START (x : Z) : Z := Z.lor (Z.land x 0xfffff3ff) NEWPAGE_START.
Definition SET_NEWPAGE_END (x : Z) : Z := Z.lor (Z.land x 0xfffff3ff) NEWPAGE_END.
Definition GET_NEWPAGE_FLAGS (x : Z) : Z := Z.land x 0x00000c00.

(** A flag test as the C code writes it: [x & mask] used as a condition. *)
Definition test (x mask : Z) : bool := bool_decide (Z.land x mask ≠ 0).

Definition present (e : Z) : bool := test e PAGE_ENTRY_PRESENT.
Definition writable (e : Z) : bool := test e READ_WRITE_ENABLE.

(** ** Algebra of entries *)
Lemma addr_of_entry p fl :
  p mod 4096 = 0 → 0 ≤ p < W32 → 0 ≤ fl < 4096 → GET_ADDR_FROM_ENTRY (Z.lor p fl) = p.
Proof.
  intros Hp Hw Hfl. unfold GET_ADDR_FROM_ENTRY. rewrite lor_page by done.
  assert (p + fl < W32) by dlia.
  rewrite land_hi by (unfold word; lia). dlia.
Qed.

Lemma flags_of_entry p fl :
  p mod 4096 = 0 → 0 ≤ fl < 4096 → GET_FLAGS_FROM_ENTRY (Z.lor p fl) = fl.
Proof.
  intros Hp Hfl. unfold GET_FLAGS_FROM_ENTRY. rewrite land_lo, lor_page by done. dlia.
Qed.

Lemma addr_or_flags e m : Z.land m 0xFFFFF000 = 0 →
  GET_ADDR_FROM_ENTRY (Z.lor e m) = GET_ADDR_FROM_ENTRY e.
Proof. apply land_lor_disj. Qed.

Lemma addr_and_mask e m : Z.land m 0xFFFFF000 = 0xFFFFF000 →
  GET_ADDR_FROM_ENTRY (Z.land e m) = GET_ADDR_FROM_ENTRY e.
Proof. apply land_mask_sub. Qed.

Lemma test_or_disj e m k : Z.land m k = 0 → test (Z.lor e m) k = test e k.
Proof. intros E. unfold test. by rewrite land_lor_disj. Qed.

Lemma test_and_sub e m k : Z.land m k = k → test (Z.land e m) k = test e k.
Proof. intros E. unfold test. by rewrite land_mask_sub. Qed.

Lemma test_and_disj e m k : Z.land m k = 0 → test (Z.land e m) k = false.
Proof.
  intros E. unfold test. rewrite <- Z.land_assoc, E, Z.land_0_r.
  apply bool_decide_false. lia.
Qed.

Lemma test_or_sub e m k : Z.land m k = k → k ≠ 0 → test (Z.lor e m) k = true.
Proof.
  intros E Hk. unfold test. apply bool_decide_true.
  rewrite Z.land_lor_distr_l, E. intros H0. apply Hk.
  apply Z.lor_eq_0_iff in H0. tauto.
Qed.

Lemma word_land a b : word a → 0 ≤ b → word (Z.land a b).
Proof.
  unfold word. intros Ha Hb. split; [apply Z.land_nonneg; lia|].
  pose proof (Z.land_nonneg a b). destruct (Z.eq_dec (Z.land a b) 0); [lia|].
  apply Z.log2_lt_cancel. change (Z.log2 W32) with 32.
  pose proof (Z.log2_land a b). assert (Z.log2 a < 32); [|lia].
  destruct (Z.eq_dec a 0) as [->|]; [done|]. apply Z.log2_lt_pow2; lia.
Qed.

Lemma word_lor a b : word a → word b → word (Z.lor a b).
Proof.
  unfold word. intros Ha Hb. split; [apply Z.lor_nonneg; lia|].
  destruct (Z.eq_dec (Z.lor a b) 0); [lia|].
  apply Z.log2_lt_cancel. change (Z.log2 W32) with 32.
  rewrite Z.log2_lor by lia.
  assert (∀ x, 0 ≤ x < W32 → Z.log2 x < 32) as Hlog.
  { intros x Hx. destruct (Z.eq_dec x 0) as [->|]; [done|]. apply Z.log2_lt_pow2; lia. }
  pose proof (Hlog a Ha). pose proof (Hlog b Hb). lia.
Qed.

Lemma addr_aligned e : word e → GET_ADDR_FROM_ENTRY e mod 4096 = 0 ∧
  0 ≤ GET_ADDR_FROM_ENTRY e < W32.
Proof.
  intros He. unfold GET_ADDR_FROM_ENTRY. rewrite land_hi by done. unfold word in He. dlia.
Qed.

Lemma flags_range e : 0 ≤ GET_FLAGS_FROM_ENTRY e < 4096.
Proof. unfold GET_FLAGS_FROM_ENTRY. rewrite land_lo. apply Z.mod_pos_bound. lia. Qed.

Lemma test_flags e k : Z.land 0xFFF k = k → test (GET_FLAGS_FROM_ENTRY e) k = test e k.
Proof. apply test_and_sub. Qed.

Lemma addr_default : GET_ADDR_FROM_ENTRY PAGE_TABLE_ENTRY_DEFAULT = 0.
Proof. done. Qed.

(** ** Directory and table indices of an address *)
Lemma pd_index_eq a : word a → GET_PD_INDEX a = a / 4194304.
Proof.
  intros Ha. unfold GET_PD_INDEX. change PAGE_DIRECTORY_MASK with (Z.shiftl (Z.ones 10) 22).
  rewrite Z.shiftr_land, Z.shiftr_shiftl_l by lia. change (Z.shiftl (Z.ones 10) (22 - 22))
    with (Z.ones 10).
  rewrite Z.land_ones, Z.shiftr_div_pow2 by lia. change (2 ^ 22) with 4194304.
  change (2 ^ 10) with 1024. unfold word in Ha. apply Z.mod_small. dlia.
Qed.

Lemma pt_index_eq a : word a → GET_PT_INDEX a = (a / 4096) mod 1024.
Proof.
  intros Ha. unfold GET_PT_INDEX. change PAGE_TABLE_MASK with (Z.shiftl (Z.ones 10) 12).
  rewrite Z.shiftr_land, Z.shiftr_shiftl_l by lia. change (Z.shiftl (Z.ones 10) (12 - 12))
    with (Z.ones 10).
  by rewrite Z.land_ones, Z.shiftr_div_pow2 by lia.
Qed.

Lemma pd_index_range a : word a → 0 ≤ GET_PD_INDEX a < 1024.
Proof. intros Ha. rewrite pd_index_eq by done. unfold word in Ha. dlia. Qed.

Lemma pt_index_range a : word a → 0 ≤ GET_PT_INDEX a < 1024.
Proof. intros Ha. rewrite pt_index_eq by done. dlia. Qed.

(** Two addresses have the same indices exactly when they are on one page. *)
Lemma indices_page a b :
  word a → word b →
  (GET_PD_INDEX a = GET_PD_INDEX b ∧ GET_PT_INDEX a = GET_PT_INDEX b) ↔ a / 4096 = b / 4096.
Proof.
  intros Ha Hb. rewrite !pd_index_eq, !pt_index_eq by done. unfold word in *. split.
  - intros [H1 H2]. dlia.
  - intros E. rewrite E. dlia.
Qed.

(** User addresses are those of the directory entries past the kernel's. *)
Lemma pd_index_user a : word a → USER_MEM_START ≤ a ↔ KERNEL_MAP_NUM_ENTRIES ≤ GET_PD_INDEX a.
Proof.
  intros Ha. rewrite pd_index_eq by done. change KERNEL_MAP_NUM_ENTRIES with 4.
  unfold USER_MEM_START, word in *. dlia.
Qed.

(** ** The kernel heap (410kern/malloc), as the virtual-memory code uses it

    [kh_smemalign h align size] and [kh_smalloc h size] return the block, NULL
    when there is none; [kh_contents] is what the memory of a fresh page
    holds, [kh_data h a n] the bytes a block of [n] bytes holds when [kh_smalloc]
    returns it.  [kh_pages] is the set of page blocks handed out and not freed. *)
Class KernelHeap (H : Type) : Type := {
  kh_smemalign : H → Z → Z → Z * H;
  kh_smalloc : H → Z → Z * H;
  kh_sfree : H → Z → Z → H;
  kh_contents : H → Z → list Z;
  kh_data : H → Z → Z → list Z;
  kh_pages : H → gset Z;
}.

(** What the allocator promises: page blocks are fresh, aligned and below
    [USER_MEM_START]; freeing returns the block. *)
Class KernelHeapSpec (H : Type) `{KernelHeap H} : Prop := {
  kh_memalign_page h a h' :
    kh_smemalign h PAGE_SIZE PAGE_SIZE = (a, h') → a ≠ NULL →
    a ∉ kh_pages h ∧ a mod 4096 = 0 ∧ 0 < a < USER_MEM_START ∧
    kh_pages h' = {[a]} ∪ kh_pages h;
  kh_memalign_null h a h' :
    kh_smemalign h PAGE_SIZE PAGE_SIZE = (a, h') → a = NULL → kh_pages h' = kh_pages h;
  kh_contents_page h a : length (kh_contents h a) = 1024%nat;
  kh_data_length h a n : length (kh_data h a n) = Z.to_nat n;
  kh_smalloc_pages h n : kh_pages (kh_smalloc h n).2 = kh_pages h;
  kh_smalloc_fresh h n a h' : kh_smalloc h n = (a, h') → a ≠ NULL → a ∉ kh_pages h;
  kh_sfree_page h a : a ∈ kh_pages h → kh_pages (kh_sfree h a PAGE_SIZE) = kh_pages h ∖ {[a]};
  kh_sfree_block h a n : a ∉ kh_pages h → kh_pages (kh_sfree h a n) = kh_pages h;
}.

(** An allocator that satisfies the interface: it hands out the pages from one
    megabyte up, each once. *)
Record bump : Type := mk_bump { bump_next : Z; bump_live : gset Z }.

#[export] Instance bump_heap : KernelHeap bump := {
  kh_smemalign h _ _ :=
    if decide (0x100000 ≤ bump_next h < USER_MEM_START ∧ bump_next h mod 4096 = 0 ∧
               bump_next h ∉ bump_live h)
    then (bump_next h, mk_bump (bump_next h + 4096) ({[bump_next h]} ∪ bump_live h))
    else (NULL, h);
  kh_smalloc h _ := if decide (0xFFFF00 ∈ bump_live h) then (NULL, h) else (0xFFFF00, h);
  kh_sfree h a _ := mk_bump (bump_next h) (bump_live h ∖ {[a]});
  kh_contents _ _ := replicate 1024 0xCC;
  kh_data _ _ n := replicate (Z.to_nat n) 0xCC;
  kh_pages := bump_live;
}.

#[export] Instance bump_heap_spec : KernelHeapSpec bump.
Proof.
  split; simpl; intros.
  - case_decide; simplify_eq/=. unfold USER_MEM_START in *. split_and!; try naive_solver lia.
  - case_decide; simplify_eq/=; [|done]. unfold NULL in *. lia.
  - done.
  - apply length_replicate.
  - by case_decide.
  - by case_decide; simplify_eq/=.
  - done.
  - set_solver.
Qed.
