(* ===== verification/VM.v ===== *)
(** * Virtual memory (kern/vm/vm.c): the model

    The state holds the static variables of vm.c, the frame allocator, the
    kernel pages used as page directories and page tables ([kmem], page address
    to 1024 entries), the contents of the physical user frames ([phys], a
    sparse map from byte offsets, absent offsets being zero) and the control
    registers.  Entries and addresses are unsigned 32-bit patterns.  Kernel
    code that touches user memory does so through the page directory in %cr3
    ([translate]); the TLB is not modelled. *)

From S2P Require Import Prelude Locks FrameAlloc Paging.

Section vm.
Context {H : Type} `{KernelHeap H}.

Record vm : Type := mk_vm {
  fa : falloc;
  kheap : H;
  kmem : gmap Z (list Z);
  frame_ref_count : list Z;
  direct_map : list Z;
  kernel_pd : Z;
  dead_thr_kernel_stack : Z;
  cr0 : Z;
  cr3 : Z;
  cr4 : Z;
  phys : gmap Z (gmap Z Z);
}.

Definition set_fa v s := mk_vm v (kheap s) (kmem s) (frame_ref_count s) (direct_map s)
  (kernel_pd s) (dead_thr_kernel_stack s) (cr0 s) (cr3 s) (cr4 s) (phys s).
Definition set_kheap v s := mk_vm (fa s) v (kmem s) (frame_ref_count s) (direct_map s)
  (kernel_pd s) (dead_thr_kernel_stack s) (cr0 s) (cr3 s) (cr4 s) (phys s).
Definition set_kmem v s := mk_vm (fa s) (kheap s) v (frame_ref_count s) (direct_map s)
  (kernel_pd s) (dead_thr_kernel_stack s) (cr0 s) (cr3 s) (cr4 s) (phys s).
Definition set_refs v s := mk_vm (fa s) (kheap s) (kmem s) v (direct_map s)
  (kernel_pd s) (dead_thr_kernel_stack s) (cr0 s) (cr3 s) (cr4 s) (phys s).
Definition set_dmap v s := mk_vm (fa s) (kheap s) (kmem s) (frame_ref_count s) v
  (kernel_pd s) (dead_thr_kernel_stack s) (cr0 s) (cr3 s) (cr4 s) (phys s).
Definition set_kpd v s := mk_vm (fa s) (kheap s) (kmem s) (frame_ref_count s) (direct_map s)
  v (dead_thr_kernel_stack s) (cr0 s) (cr3 s) (cr4 s) (phys s).
Definition set_dead v s := mk_vm (fa s) (kheap s) (kmem s) (frame_ref_count s) (direct_map s)
  (kernel_pd s) v (cr0 s) (cr3 s) (cr4 s) (phys s).
Definition set_cr0 v s := mk_vm (fa s) (kheap s) (kmem s) (frame_ref_count s) (direct_map s)
  (kernel_pd s) (dead_thr_kernel_stack s) v (cr3 s) (cr4 s) (phys s).
Definition set_cr3 v s := mk_vm (fa s) (kheap s) (kmem s) (frame_ref_count s) (direct_map s)
  (kernel_pd s) (dead_thr_kernel_stack s) (cr0 s) v (cr4 s) (phys s).
Definition set_cr4 v s := mk_vm (fa s) (kheap s) (kmem s) (frame_ref_count s) (direct_map s)
  (kernel_pd s) (dead_thr_kernel_stack s) (cr0 s) (cr3 s) v (phys s).
Definition set_phys v s := mk_vm (fa s) (kheap s) (kmem s) (frame_ref_count s) (direct_map s)
  (kernel_pd s) (dead_thr_kernel_stack s) (cr0 s) (cr3 s) (cr4 s) v.

(** ** Machine and heap primitives *)
Definition frames {A} (m : M falloc A) : M vm A := zoom fa set_fa m.

(** [page[i]] and [page[i] = v] for a page-aligned kernel address. *)
Definition kread (page i : Z) : M vm Z :=
  s ← get;
  l ← deref (kmem s !! page);
  aget l i.

Definition kwrite (page i v : Z) : M vm unit :=
  s ← get;
  l ← deref (kmem s !! page);
  l' ← aset l i v;
  modify (set_kmem (<[page := l']> (kmem s))).

(** [smemalign(PAGE_SIZE, PAGE_SIZE)]: a page with arbitrary contents. *)
Definition smemalign_page : M vm Z :=
  s ← get;
  let '(a, h') := kh_smemalign (kheap s) PAGE_SIZE PAGE_SIZE in
  modify (set_kheap h') ;;
  (if decide (a = NULL) then mret tt
   else modify (set_kmem (<[a := kh_contents (kheap s) a]> (kmem s)))) ;;
  mret a.

Definition smalloc (size : Z) : M vm Z :=
  s ← get;
  let '(a, h') := kh_smalloc (kheap s) size in
  modify (set_kheap h') ;;
  mret a.

(** [sfree(page, PAGE_SIZE)]: the page is gone. *)
Definition sfree_page (page : Z) : M vm unit :=
  s ← get;
  deref (kmem s !! page) ;;
  modify (set_kheap (kh_sfree (kheap s) page PAGE_SIZE)) ;;
  modify (set_kmem (delete page (kmem s))).

(** [sfree] of a block that is not a page. *)
Definition sfree (buf size : Z) : M vm unit :=
  modify (λ s, set_kheap (kh_sfree (kheap s) buf size) s).

Definition get_ref (frame_addr : Z) : M vm Z :=
  s ← get; aget (frame_ref_count s) (FRAME_INDEX frame_addr).

(** [frame_ref_count[FRAME_INDEX(frame_addr)] += d]. *)
Definition add_ref (frame_addr d : Z) : M vm unit :=
  s ← get;
  c ← aget (frame_ref_count s) (FRAME_INDEX frame_addr);
  l ← aset (frame_ref_count s) (FRAME_INDEX frame_addr) (c + d);
  modify (set_refs l).

Definition set_cur_pd (pd_addr : Z) : M vm unit := modify (set_cr3 pd_addr).

(** The frame a virtual address maps to under page directory [pd]. *)
Definition entry_at (s : vm) (page i : Z) : option Z :=
  l ← kmem s !! page; if decide (0 ≤ i) then l !! Z.to_nat i else None.

Definition pte_at (s : vm) (pd va : Z) : option Z :=
  e ← entry_at s pd (GET_PD_INDEX va);
  if present e then
    e' ← entry_at s (GET_ADDR_FROM_ENTRY e) (GET_PT_INDEX va);
    if present e' then Some e' else None
  else None.

Definition translate (s : vm) (pd va : Z) : option Z :=
  GET_ADDR_FROM_ENTRY <$> pte_at s pd va.

Definition frame_data (s : vm) (f : Z) : gmap Z Z := default ∅ (phys s !! f).

(** The byte user code reads at a virtual address. *)
Definition read_byte (s : vm) (pd va : Z) : option Z :=
  f ← translate s pd va; Some (default 0 (frame_data s f !! (va mod 4096))).

(** Copy a whole page out of, and into, the address space of %cr3. *)
Definition copy_from_page (va : Z) : M vm (gmap Z Z) :=
  s ← get;
  f ← deref (translate s (cr3 s) va);
  mret (frame_data s f).

Definition copy_to_page (va : Z) (data : gmap Z Z) : M vm unit :=
  s ← get;
  f ← deref (translate s (cr3 s) va);
  modify (set_phys (<[f := data]> (phys s))).

(** [zero_fill(addr, PAGE_SIZE)]. *)
Definition zero_fill (addr : Z) : M vm unit :=
  if decide (addr = NULL) then mret tt else copy_to_page addr ∅.

(** ** Page directories and page tables *)
Definition direct_map_kernel_pages (pd_addr : Z) : M vm unit :=
  let flags := Z.lor PAGE_ENTRY_PRESENT READ_WRITE_ENABLE in
  for_loop (Z.to_nat KERNEL_MAP_NUM_ENTRIES) 0 (λ i,
    s ← get;
    t ← aget (direct_map s) i;
    kwrite pd_addr i (Z.lor t flags)).

Definition create_page_directory : M vm Z :=
  frame_addr ← smemalign_page;
  if decide (frame_addr = NULL) then mret NULL
  else
    direct_map_kernel_pages frame_addr ;;
    for_loop (Z.to_nat (NUM_PAGE_TABLE_ENTRIES - KERNEL_MAP_NUM_ENTRIES))
      KERNEL_MAP_NUM_ENTRIES (λ i, kwrite frame_addr i PAGE_DIR_ENTRY_DEFAULT) ;;
    mret frame_addr.

Definition free_page_directory (pd_addr : Z) : M vm unit :=
  if decide (pd_addr = NULL) then mret tt else sfree_page pd_addr.

Definition create_page_table : M vm Z :=
  frame_addr ← smemalign_page;
  if decide (frame_addr = NULL) then mret NULL
  else
    for_loop (Z.to_nat NUM_PAGE_TABLE_ENTRIES) 0
      (λ i, kwrite frame_addr i PAGE_TABLE_ENTRY_DEFAULT) ;;
    mret frame_addr.

Definition setup_direct_map : M vm unit :=
  let flags := Z.lor (Z.lor PAGE_ENTRY_PRESENT READ_WRITE_ENABLE) GLOBAL_PAGE_ENTRY in
  for_loop (Z.to_nat KERNEL_MAP_NUM_ENTRIES) 0 (λ i,
    frame_addr ← create_page_table;
    kernel_assert (bool_decide (frame_addr ≠ NULL)) ;;
    for_loop (Z.to_nat NUM_PAGE_TABLE_ENTRIES) 0 (λ j,
      kwrite frame_addr j
        (Z.lor ((i * NUM_PAGE_TABLE_ENTRIES + j) * PAGE_SIZE) flags)) ;;
    s ← get;
    dm ← aset (direct_map s) i frame_addr;
    modify (set_dmap dm)).

Definition increment_ref_count (pt : Z) : M vm unit :=
  if decide (pt = NULL) then mret tt
  else
    for_loop (Z.to_nat NUM_PAGE_TABLE_ENTRIES) 0 (λ i,
      e ← kread pt i;
      if decide (e ≠ PAGE_TABLE_ENTRY_DEFAULT) then
        let frame_addr := GET_ADDR_FROM_ENTRY e in
        frames (lock_frame frame_addr) ;;
        add_ref frame_addr 1 ;;
        frames (unlock_frame frame_addr)
      else mret tt).

Definition clone_page_table (pt : Z) : M vm Z :=
  if decide (pt = NULL) then mret NULL
  else
    new_pt ← create_page_table;
    if decide (new_pt = NULL) then mret NULL
    else
      s ← get;
      l ← deref (kmem s !! pt);
      modify (set_kmem (<[new_pt := l]> (kmem s))) ;;
      increment_ref_count new_pt ;;
      mret new_pt.

(** Drop one reference to a frame, returning it to the allocator when it was
    the last: the body shared by [free_page_table] and [unmap_new_pages].
    [checked] is the [kernel_assert] that only the former has. *)
Definition drop_frame (checked : bool) (frame_addr : Z) : M vm unit :=
  frames (lock_frame frame_addr) ;;
  add_ref frame_addr (-1) ;;
  c ← get_ref frame_addr;
  (if checked then kernel_assert (bool_decide (0 ≤ c)) else mret tt) ;;
  (if decide (c = 0) then frames (deallocate_frame frame_addr) else mret tt) ;;
  frames (unlock_frame frame_addr).

Definition free_page_table (pt : Z) : M vm unit :=
  if decide (pt = NULL) then mret tt
  else
    for_loop (Z.to_nat NUM_PAGE_TABLE_ENTRIES) 0 (λ i,
      e ← kread pt i;
      if decide (e = PAGE_TABLE_ENTRY_DEFAULT) then mret tt
      else drop_frame true (GET_ADDR_FROM_ENTRY e)) ;;
    sfree_page pt.

Definition free_paging_info (pd : Z) : M vm unit :=
  if decide (pd = NULL) then mret tt
  else
    for_loop (Z.to_nat (NUM_PAGE_TABLE_ENTRIES - KERNEL_MAP_NUM_ENTRIES))
      KERNEL_MAP_NUM_ENTRIES (λ i,
        e ← kread pd i;
        if decide (e ≠ PAGE_DIR_ENTRY_DEFAULT) then free_page_table (GET_ADDR_FROM_ENTRY e)
        else mret tt) ;;
    free_page_directory pd.

(** ** Copy-on-write *)
Definition make_pt_cow (pt : Z) : M vm unit :=
  if decide (pt = NULL) then mret tt
  else
    for_loop (Z.to_nat NUM_PAGE_TABLE_ENTRIES) 0 (λ i,
      e ← kread pt i;
      if decide (e = PAGE_TABLE_ENTRY_DEFAULT) then mret tt
      else if test (GET_FLAGS_FROM_ENTRY e) READ_WRITE_ENABLE then
        kwrite pt i (Z.land (Z.lor e COW_MODE) WRITE_DISABLE_MASK)
      else mret tt).

Definition make_pages_cow (pd : Z) : M vm unit :=
  if decide (pd = NULL) then mret tt
  else
    for_loop (Z.to_nat (NUM_PAGE_TABLE_ENTRIES - KERNEL_MAP_NUM_ENTRIES))
      KERNEL_MAP_NUM_ENTRIES (λ i,
        e ← kread pd i;
        if decide (e ≠ PAGE_DIR_ENTRY_DEFAULT) then make_pt_cow (GET_ADDR_FROM_ENTRY e)
        else mret tt).

(** The loop of [clone_paging_info]; the result is false when a page table
    could not be cloned. *)
Fixpoint clone_tables (n : nat) (i pd new_pd : Z) : M vm bool :=
  match n with
  | O => mret true
  | S n' =>
      e ← kread pd i;
      if decide (e ≠ PAGE_DIR_ENTRY_DEFAULT) then
        new_pt ← clone_page_table (GET_ADDR_FROM_ENTRY e);
        if decide (new_pt = NULL) then mret false
        else
          kwrite new_pd i (Z.lor new_pt (GET_FLAGS_FROM_ENTRY e)) ;;
          clone_tables n' (i + 1) pd new_pd
      else clone_tables n' (i + 1) pd new_pd
  end.

Definition clone_paging_info (pd : Z) : M vm Z :=
  if decide (pd = NULL) then mret NULL
  else
    new_pd ← create_page_directory;
    if decide (new_pd = NULL) then mret NULL
    else
      ok ← clone_tables (Z.to_nat (NUM_PAGE_TABLE_ENTRIES - KERNEL_MAP_NUM_ENTRIES))
             KERNEL_MAP_NUM_ENTRIES pd new_pd;
      if ok : bool then
        make_pages_cow pd ;;
        make_pages_cow new_pd ;;
        mret new_pd
      else
        free_paging_info new_pd ;;
        mret NULL.

(** The test as it is written: [pt[i] | COW_MODE] is never zero. *)
Definition is_addr_cow (addr : Z) : M vm bool :=
  if decide (addr < USER_MEM_START) then mret false
  else
    s ← get;
    let pd := cr3 s in
    d ← kread pd (GET_PD_INDEX addr);
    e ← kread (GET_ADDR_FROM_ENTRY d) (GET_PT_INDEX addr);
    mret (bool_decide (Z.lor e COW_MODE ≠ 0) && negb (test e READ_WRITE_ENABLE) &&
          test e PAGE_ENTRY_PRESENT).

Definition handle_cow (addr : Z) : M vm Z :=
  s ← get;
  let pd := cr3 s in
  let pt_index := GET_PT_INDEX addr in
  d ← kread pd (GET_PD_INDEX addr);
  let pt := GET_ADDR_FROM_ENTRY d in
  e ← kread pt pt_index;
  let frame_addr := GET_ADDR_FROM_ENTRY e in
  let page_addr := Z.land addr PAGE_ROUND_DOWN in
  frames (lock_frame frame_addr) ;;
  c ← get_ref frame_addr;
  ok ←
    (if decide (c = 1) then
       e ← kread pt pt_index;
       kwrite pt pt_index (Z.land e COW_MODE_DISABLE_MASK) ;;
       mret true
     else
       frame_contents ← copy_from_page page_addr;
       new_frame ← frames allocate_frame;
       if decide (new_frame = NULL) then
         frames (unlock_frame frame_addr) ;;
         mret false
       else
         e ← kread pt pt_index;
         let flags := GET_FLAGS_FROM_ENTRY e in
         kwrite pt pt_index (Z.lor new_frame flags) ;;
         e ← kread pt pt_index;
         kwrite pt pt_index (Z.land e COW_MODE_DISABLE_MASK) ;;
         set_cur_pd pd ;;
         copy_to_page page_addr frame_contents ;;
         add_ref frame_addr (-1) ;;
         frames (lock_frame new_frame) ;;
         add_ref new_frame 1 ;;
         frames (unlock_frame new_frame) ;;
         mret true);
  if ok : bool then
    frames (unlock_frame frame_addr) ;;
    e ← kread pt pt_index;
    kwrite pt pt_index (Z.lor e READ_WRITE_ENABLE) ;;
    set_cur_pd pd ;;
    mret 0
  else mret ERR_FAILURE.

(** ** Mapping segments *)

(** The loop of [map_segment] from page [start_addr] on. *)
Fixpoint map_pages (fuel : nat) (start_addr end_addr pd_addr flags : Z) : M vm Z :=
  match fuel with
  | O => halt OutOfFuel
  | S fuel' =>
      if decide (start_addr < end_addr) then
        let pd_index := GET_PD_INDEX start_addr in
        let pt_index := GET_PT_INDEX start_addr in
        d ← kread pd_addr pd_index;
        have_pt ←
          (if decide (d = PAGE_DIR_ENTRY_DEFAULT) then
             new_pt ← create_page_table;
             if decide (new_pt ≠ NULL) then
               kwrite pd_addr pd_index (Z.lor new_pt USER_PD_ENTRY_FLAGS) ;;
               mret true
             else mret false
           else mret true);
        if have_pt : bool then
          d ← kread pd_addr pd_index;
          let pt_addr := GET_ADDR_FROM_ENTRY d in
          e ← kread pt_addr pt_index;
          mapped ←
            (if decide (e = PAGE_TABLE_ENTRY_DEFAULT) then
               new_frame ← frames allocate_frame;
               if decide (new_frame ≠ NULL) then
                 frames (lock_frame new_frame) ;;
                 add_ref new_frame 1 ;;
                 frames (unlock_frame new_frame) ;;
                 kwrite pt_addr pt_index (Z.lor new_frame flags) ;;
                 zero_fill start_addr ;;
                 mret true
               else mret false
             else mret true);
          if mapped : bool then
            map_pages fuel' (u32 (start_addr + PAGE_SIZE)) end_addr pd_addr flags
          else mret ERR_NOMEM
        else mret ERR_NOMEM
      else mret 0
  end.

(** Enough iterations for every range that does not reach the last page of the
    address space. *)
Definition map_fuel (start_addr end_addr : Z) : nat :=
  Z.to_nat (Z.max 0 ((end_addr - start_addr) / PAGE_SIZE) + 2).

Definition map_segment (start_addr length : Z) (pd_addr flags : Z) : M vm Z :=
  set_cur_pd pd_addr ;;
  let end_addr := u32 (start_addr + length) in
  let start_addr := Z.land start_addr PAGE_ROUND_DOWN in
  map_pages (map_fuel start_addr end_addr) start_addr end_addr pd_addr flags.

(** The ELF summary of elf_410.h, less the file name and offsets that only the
    loader uses. *)
Record segments : Type := mk_segments {
  e_txtstart : Z; e_txtlen : Z;
  e_datstart : Z; e_datlen : Z;
  e_rodatstart : Z; e_rodatlen : Z;
  e_bssstart : Z; e_bsslen : Z;
}.

Definition map_text_segment (se_hdr : segments) (pd_addr : Z) : M vm Z :=
  let flags := Z.lor PAGE_ENTRY_PRESENT USER_MODE in
  map_segment (e_txtstart se_hdr) (e_txtlen se_hdr) pd_addr flags.

Definition map_data_segment (se_hdr : segments) (pd_addr : Z) : M vm Z :=
  let flags := Z.lor (Z.lor PAGE_ENTRY_PRESENT READ_WRITE_ENABLE) USER_MODE in
  map_segment (e_datstart se_hdr) (e_datlen se_hdr) pd_addr flags.

Definition map_rodata_segment (se_hdr : segments) (pd_addr : Z) : M vm Z :=
  let flags := Z.lor PAGE_ENTRY_PRESENT USER_MODE in
  map_segment (e_rodatstart se_hdr) (e_rodatlen se_hdr) pd_addr flags.

Definition map_bss_segment (se_hdr : segments) (pd_addr : Z) : M vm Z :=
  let flags := Z.lor (Z.lor PAGE_ENTRY_PRESENT READ_WRITE_ENABLE) USER_MODE in
  map_segment (e_bssstart se_hdr) (e_bsslen se_hdr) pd_addr flags.

Definition map_stack_segment (pd_addr : Z) : M vm Z :=
  let flags := Z.lor (Z.lor PAGE_ENTRY_PRESENT READ_WRITE_ENABLE) USER_MODE in
  map_segment (STACK_START - DEFAULT_STACK_SIZE + 1) DEFAULT_STACK_SIZE pd_addr flags.

(** [if ((retval = step()) < 0) return retval;] in sequence. *)
Fixpoint seq_checked (steps : list (M vm Z)) : M vm Z :=
  match steps with
  | [] => mret 0
  | step :: rest =>
      retval ← step;
      if decide (retval < 0) then mret retval else seq_checked rest
  end.

Definition setup_page_table (se_hdr : option segments) (pd_addr : Z) : M vm Z :=
  match se_hdr with
  | None => mret ERR_FAILURE
  | Some se_hdr =>
      if decide (pd_addr = NULL) then mret ERR_FAILURE
      else
        seq_checked [map_text_segment se_hdr pd_addr; map_data_segment se_hdr pd_addr;
                     map_rodata_segment se_hdr pd_addr; map_bss_segment se_hdr pd_addr;
                     map_stack_segment pd_addr]
  end.

(** Mark the entry of [va] under [pd]. *)
Definition mark_entry (pd va : Z) (mark : Z → Z) : M vm unit :=
  d ← kread pd (GET_PD_INDEX va);
  let pt_addr := GET_ADDR_FROM_ENTRY d in
  e ← kread pt_addr (GET_PT_INDEX va);
  kwrite pt_addr (GET_PT_INDEX va) (mark e).

Definition map_new_pages (base length : Z) : M vm Z :=
  s ← get;
  let pd_addr := cr3 s in
  let end_addr := u32 (base + length - 1) in
  let end_frame := Z.land end_addr PAGE_ROUND_DOWN in
  let flags := Z.lor (Z.lor (Z.lor PAGE_ENTRY_PRESENT READ_WRITE_ENABLE) USER_MODE)
                 NEWPAGE_PAGE in
  retval ← map_segment base length pd_addr flags;
  if decide (retval < 0) then mret retval
  else
    mark_entry pd_addr end_frame SET_NEWPAGE_END ;;
    mark_entry pd_addr base SET_NEWPAGE_START ;;
    set_cur_pd pd_addr ;;
    mret 0.

(** The loop of [unmap_new_pages] from page [base] on. *)
Fixpoint unmap_pages (fuel : nat) (pd_addr base : Z) : M vm unit :=
  match fuel with
  | O => halt OutOfFuel
  | S fuel' =>
      let pt_index := GET_PT_INDEX base in
      d ← kread pd_addr (GET_PD_INDEX base);
      let pt_addr := GET_ADDR_FROM_ENTRY d in
      e ← kread pt_addr pt_index;
      if decide (GET_NEWPAGE_FLAGS e = NEWPAGE_PAGE ∨ GET_NEWPAGE_FLAGS e = NEWPAGE_END) then
        drop_frame false (GET_ADDR_FROM_ENTRY e) ;;
        kwrite pt_addr pt_index PAGE_TABLE_ENTRY_DEFAULT ;;
        unmap_pages fuel' pd_addr (u32 (base + PAGE_SIZE))
      else mret tt
  end.

Definition unmap_new_pages (fuel : nat) (base : Z) : M vm Z :=
  s ← get;
  let pd_addr := cr3 s in
  let pt_index := GET_PT_INDEX base in
  d ← kread pd_addr (GET_PD_INDEX base);
  let pt_addr := GET_ADDR_FROM_ENTRY d in
  e ← kread pt_addr pt_index;
  if decide (GET_NEWPAGE_FLAGS e ≠ NEWPAGE_START) then mret ERR_INVAL
  else
    drop_frame false (GET_ADDR_FROM_ENTRY e) ;;
    kwrite pt_addr pt_index PAGE_TABLE_ENTRY_DEFAULT ;;
    unmap_pages fuel pd_addr (u32 (base + PAGE_SIZE)) ;;
    set_cur_pd pd_addr ;;
    mret 0.

(** ** Queries *)
Fixpoint range_mapped (fuel : nat) (pd_addr base end_addr : Z) : M vm Z :=
  match fuel with
  | O => halt OutOfFuel
  | S fuel' =>
      if decide (base ≤ end_addr) then
        d ← kread pd_addr (GET_PD_INDEX base);
        mapped ←
          (if decide (d ≠ PAGE_DIR_ENTRY_DEFAULT) then
             e ← kread (GET_ADDR_FROM_ENTRY d) (GET_PT_INDEX base);
             mret (bool_decide (e ≠ PAGE_TABLE_ENTRY_DEFAULT))
           else mret false);
        if mapped : bool then mret MEMORY_REGION_MAPPED
        else range_mapped fuel' pd_addr (u32 (base + PAGE_SIZE)) end_addr
      else mret MEMORY_REGION_UNMAPPED
  end.

(** [len] is a signed int. *)
Definition is_memory_range_mapped (base len : Z) : M vm Z :=
  if decide (base = NULL ∨ base > MAX_MEMORY_ADDR ∨ len ≤ 0 ∨
             u32 len > MAX_AVAILABLE_USER_MEM)
  then mret ERR_INVAL
  else if decide (base < USER_MEM_START) then mret MEMORY_REGION_MAPPED
  else
    let end_addr := u32 (base + len) in
    s ← get;
    let base := Z.land base PAGE_ROUND_DOWN in
    range_mapped (map_fuel base end_addr) (cr3 s) base end_addr.

(** [bytes] is not used by the code. *)
Definition is_memory_writable (ptr bytes : Z) : M vm Z :=
  s ← get;
  d ← kread (cr3 s) (GET_PD_INDEX ptr);
  if decide (d ≠ PAGE_DIR_ENTRY_DEFAULT) then
    e ← kread (GET_ADDR_FROM_ENTRY d) (GET_PT_INDEX ptr);
    if decide (e ≠ PAGE_TABLE_ENTRY_DEFAULT) then
      if test e READ_WRITE_ENABLE then mret 0 else mret ERR_INVAL
    else mret ERR_INVAL
  else mret ERR_INVAL.

(** ** Initialisation *)
Definition setup_kernel_pd : M vm unit :=
  pd ← create_page_directory;
  modify (set_kpd pd) ;;
  kernel_assert (bool_decide (pd ≠ NULL)) ;;
  st ← smalloc PAGE_SIZE;
  modify (set_dead st) ;;
  kernel_assert (bool_decide (st ≠ NULL)).

Definition init_frame_ref_count : M vm unit :=
  s ← get;
  let n := FREE_FRAMES_COUNT (fa s) in
  a ← smalloc (n * 4);
  kernel_assert (bool_decide (a ≠ NULL)) ;;
  modify (set_refs (replicate (Z.to_nat n) 0)).

Definition set_kernel_pd : M vm unit := s ← get; set_cur_pd (kernel_pd s).
Definition get_kernel_pd : M vm Z := gets kernel_pd.
Definition get_dead_thr_kernel_stack : M vm Z :=
  gets (λ s, dead_thr_kernel_stack s + PAGE_SIZE - 1).

Definition CR0_PG : Z := 0x80000000.
Definition CR4_PGE : Z := 0x80.
Definition enable_paging : M vm unit := modify (λ s, set_cr0 (Z.lor (cr0 s) CR0_PG) s).
Definition enable_page_pinning : M vm unit := modify (λ s, set_cr4 (Z.lor (cr4 s) CR4_PGE) s).

Definition vm_init : M vm unit :=
  setup_direct_map ;;
  setup_kernel_pd ;;
  set_kernel_pd ;;
  enable_paging ;;
  init_frame_ref_count ;;
  enable_page_pinning.

End vm.
Arguments vm H : clear implicits.
