(* ===== verification/VMInv.v ===== *)
(** * Virtual memory: ownership of page tables and reference counts

    [vm_wf] is the invariant of the virtual-memory state.  It is stated with
    three ghost values: [own], which maps every page table in use to the
    directory and index that points to it; [pds], the live page directories;
    and [fs], the free frames.  Its heart is that the reference count of a
    frame is the number of page-table entries that map it and that the free
    frames are exactly those with count zero.  The function [x] counts
    references that are in transit (entries of a table being copied or freed). *)

From S2P Require Import Prelude Locks FrameAlloc Paging VM.

(** ** Sums over the tables in use *)
Definition sumf (g : Z → Z) (own : gmap Z (Z * Z)) : Z :=
  map_fold (λ pt _ acc, g pt + acc) 0 own.

Lemma sumf_insert g own pt x :
  own !! pt = None → sumf g (<[pt := x]> own) = g pt + sumf g own.
Proof.
  intros Hn. unfold sumf.
  apply (map_fold_insert_L (λ pt (_ : Z * Z) acc, g pt + acc)); [|done]. intros. lia.
Qed.

Lemma sumf_delete g own pt x :
  own !! pt = Some x → sumf g own = g pt + sumf g (delete pt own).
Proof.
  intros Hs. rewrite <- (insert_delete_id own pt x) at 1 by done.
  apply sumf_insert. apply lookup_delete_eq.
Qed.

Lemma sumf_ext g g' own :
  (∀ pt, is_Some (own !! pt) → g pt = g' pt) → sumf g own = sumf g' own.
Proof.
  induction own as [|pt x own Hn IH] using map_ind; [done|]. intros Hg.
  rewrite !sumf_insert by done. rewrite IH.
  - f_equal. apply Hg. rewrite lookup_insert_eq. eauto.
  - intros q Hq. apply Hg. rewrite lookup_insert. case_decide; eauto.
Qed.

Lemma sumf_nonneg g own : (∀ pt, 0 ≤ g pt) → 0 ≤ sumf g own.
Proof.
  intros Hg. induction own as [|pt x own Hn IH] using map_ind; [done|].
  rewrite sumf_insert by done. specialize (Hg pt). lia.
Qed.

Lemma sumf_ge g own pt : (∀ pt, 0 ≤ g pt) → is_Some (own !! pt) → g pt ≤ sumf g own.
Proof.
  intros Hg [x Hx]. rewrite (sumf_delete _ _ _ _ Hx).
  pose proof (sumf_nonneg g (delete pt own) Hg). lia.
Qed.

Lemma sumf_ge_two g own p q :
  (∀ pt, 0 ≤ g pt) → p ≠ q → is_Some (own !! p) → is_Some (own !! q) →
  g p + g q ≤ sumf g own.
Proof.
  intros Hg Hne [x Hx] Hq. rewrite (sumf_delete _ _ _ _ Hx).
  assert (is_Some (delete p own !! q)) as Hq' by (by rewrite lookup_delete_ne).
  pose proof (sumf_ge g _ q Hg Hq'). lia.
Qed.

Lemma sumf_le (g : Z → Z) own b :
  (∀ pt, g pt ≤ b) → sumf g own ≤ b * Z.of_nat (size own).
Proof.
  intros Hb. induction own as [|pt x own Hn IH] using map_ind.
  - unfold sumf. rewrite map_fold_empty, map_size_empty. lia.
  - rewrite sumf_insert, map_size_insert_None by done. specialize (Hb pt). lia.
Qed.

(** ** Entries of a table that map a frame *)
Fixpoint cnt (f : Z) (l : list Z) : Z :=
  match l with
  | [] => 0
  | e :: l' => (if decide (GET_ADDR_FROM_ENTRY e = f) then 1 else 0) + cnt f l'
  end.

Lemma cnt_nonneg f l : 0 ≤ cnt f l.
Proof. induction l; simpl; [done|]. case_decide; lia. Qed.

Lemma cnt_le f l : cnt f l ≤ Z.of_nat (length l).
Proof. induction l; simpl; [done|]. case_decide; lia. Qed.

Lemma cnt_insert f l i e v :
  l !! i = Some e →
  cnt f (<[i := v]> l) = cnt f l
    - (if decide (GET_ADDR_FROM_ENTRY e = f) then 1 else 0)
    + (if decide (GET_ADDR_FROM_ENTRY v = f) then 1 else 0).
Proof.
  revert i. induction l as [|a l IH]; intros [|i] Hl; simplify_eq/=; [lia|].
  rewrite (IH i Hl). lia.
Qed.

Lemma cnt_pos f l i e : l !! i = Some e → GET_ADDR_FROM_ENTRY e = f → 1 ≤ cnt f l.
Proof.
  revert i. induction l as [|a l IH]; intros [|i] Hl He; simplify_eq/=.
  - rewrite decide_True by done. pose proof (cnt_nonneg (GET_ADDR_FROM_ENTRY e) l). lia.
  - specialize (IH i Hl eq_refl). case_decide; lia.
Qed.

Lemma cnt_two f l i j e e' :
  i ≠ j → l !! i = Some e → l !! j = Some e' →
  GET_ADDR_FROM_ENTRY e = f → GET_ADDR_FROM_ENTRY e' = f → 2 ≤ cnt f l.
Proof.
  revert i j. induction l as [|a l IH]; intros i j Hne Hi Hj He He'; [done|].
  destruct i as [|i], j as [|j]; simpl in Hi, Hj |- *; [done|..].
  - injection Hi as ->. rewrite decide_True by done. pose proof (cnt_pos f l j e' Hj He'). lia.
  - injection Hj as ->. rewrite decide_True by done. pose proof (cnt_pos f l i e Hi He). lia.
  - assert (2 ≤ cnt f l) by (apply (IH i j); congruence). case_decide; lia.
Qed.

Lemma cnt_zero f l : (∀ e, e ∈ l → GET_ADDR_FROM_ENTRY e ≠ f) → cnt f l = 0.
Proof.
  induction l as [|a l IH]; intros Hl; simpl; [done|].
  rewrite decide_False by (apply Hl; left). rewrite IH; [done|]. intros e He. apply Hl. by right.
Qed.

Lemma cnt_app f l l' : cnt f (l ++ l') = cnt f l + cnt f l'.
Proof. induction l; simpl; [done|]. rewrite IHl. lia. Qed.

Section inv.
Context {H : Type} `{KernelHeapSpec H}.
Implicit Types (s : vm H) (own : gmap Z (Z * Z)) (pds : gset Z) (fs : list Z).

Definition page s (p : Z) : list Z := default [] (kmem s !! p).

(** The number of page-table entries that map frame [f]. *)
Definition refs s own (f : Z) : Z := sumf (λ pt, cnt f (page s pt)) own.

(** A page-table entry is absent or maps a user frame. *)
Definition good_pte s (e : Z) : Prop :=
  e = PAGE_TABLE_ENTRY_DEFAULT ∨
  (word e ∧ present e = true ∧ is_frame (fa s) (GET_ADDR_FROM_ENTRY e)).

(** The entries that map the kernel's sixteen megabytes onto themselves. *)
Definition kernel_pde (t : Z) : Z := Z.lor t (Z.lor PAGE_ENTRY_PRESENT READ_WRITE_ENABLE).
Definition kernel_pte (i j : Z) : Z :=
  Z.lor ((i * NUM_PAGE_TABLE_ENTRIES + j) * PAGE_SIZE)
    (Z.lor (Z.lor PAGE_ENTRY_PRESENT READ_WRITE_ENABLE) GLOBAL_PAGE_ENTRY).

Record vm_wf (x : Z → Z) s own pds fs : Prop := {
  wf_alloc : free_stack (fa s) fs;
  wf_unlocked : all_unlocked (fa s);
  wf_reflen : Z.of_nat (length (frame_ref_count s)) = FREE_FRAMES_COUNT (fa s);
  wf_page : ∀ p, p ∈ kh_pages (kheap s) →
    p mod 4096 = 0 ∧ 0 < p < USER_MEM_START ∧
    ∃ l, kmem s !! p = Some l ∧ length l = 1024%nat;
  wf_dmap : length (direct_map s) = 4%nat ∧ ∀ t, t ∈ direct_map s →
    t ∈ kh_pages (kheap s) ∧ own !! t = None ∧ t ∉ pds;
  wf_kern : ∀ i t, 0 ≤ i < 4 → direct_map s !! Z.to_nat i = Some t →
    (∀ pd, pd ∈ pds → entry_at s pd i = Some (kernel_pde t)) ∧
    (∀ j, 0 ≤ j < 1024 → entry_at s t j = Some (kernel_pte i j));
  wf_pds : ∀ pd, pd ∈ pds → pd ∈ kh_pages (kheap s) ∧ own !! pd = None;
  wf_own : ∀ pt pd i, own !! pt = Some (pd, i) →
    pt ∈ kh_pages (kheap s) ∧ pd ∈ pds ∧ 4 ≤ i < 1024 ∧
    ∃ e, entry_at s pd i = Some e ∧ e ≠ PAGE_DIR_ENTRY_DEFAULT ∧
         word e ∧ present e = true ∧ GET_ADDR_FROM_ENTRY e = pt;
  wf_dir : ∀ pd i e, pd ∈ pds → 4 ≤ i < 1024 → entry_at s pd i = Some e →
    e = PAGE_DIR_ENTRY_DEFAULT ∨ own !! GET_ADDR_FROM_ENTRY e = Some (pd, i);
  wf_tab : ∀ pt j e, is_Some (own !! pt) → entry_at s pt j = Some e → good_pte s e;
  wf_count : ∀ f, is_frame (fa s) f →
    frame_ref_count s !! Z.to_nat (FRAME_INDEX f) = Some (refs s own f + x f);
  wf_free : ∀ f, is_frame (fa s) f → f ∈ fs ↔ refs s own f + x f = 0;
}.

(** No reference in transit. *)
Definition none : Z → Z := λ _, 0.

(** Copy-on-write safety: a frame that can be written through some entry is
    mapped by that entry alone. *)
Definition cow_ok s own : Prop :=
  ∀ pt j e, is_Some (own !! pt) → entry_at s pt j = Some e →
    e ≠ PAGE_TABLE_ENTRY_DEFAULT → writable e = true →
    refs s own (GET_ADDR_FROM_ENTRY e) = 1.

(** ** Reading and writing entries *)
Lemma entry_at_page s p i e :
  entry_at s p i = Some e → 0 ≤ i ∧ page s p !! Z.to_nat i = Some e ∧ kmem s !! p = Some (page s p).
Proof.
  unfold entry_at, page. intros (l & -> & Hl)%bind_Some. case_decide; [|done]. by split_and!.
Qed.

Lemma page_entry_at s p i e l :
  kmem s !! p = Some l → 0 ≤ i → l !! Z.to_nat i = Some e → entry_at s p i = Some e.
Proof. intros E Hi Hl. unfold entry_at. rewrite E. simpl. by rewrite decide_True. Qed.

Lemma kread_ok s p i e : entry_at s p i = Some e → kread p i s = Ok e s.
Proof.
  intros (Hi & Hl & Hk)%entry_at_page. unfold kread. rewrite bind_get, Hk.
  cbn [deref]. rewrite bind_mret. by apply aget_ok.
Qed.

Definition upd_entry (p i v : Z) s : vm H :=
  set_kmem (<[p := <[Z.to_nat i := v]> (page s p)]> (kmem s)) s.

Lemma kwrite_ok s p i v : is_Some (entry_at s p i) → kwrite p i v s = Ok tt (upd_entry p i v s).
Proof.
  intros [e (Hi & Hl & Hk)%entry_at_page]. unfold kwrite. rewrite bind_get, Hk.
  cbn [deref]. rewrite bind_mret. pose proof (lookup_lt_Some _ _ _ Hl).
  rewrite (bind_ok _ _ _ (<[Z.to_nat i := v]> (page s p)) s) by (apply aset_ok; lia).
  done.
Qed.

Lemma entry_at_upd s p i v q j :
  is_Some (entry_at s p i) →
  entry_at (upd_entry p i v s) q j =
  if decide (q = p ∧ j = i) then Some v else entry_at s q j.
Proof.
  intros [e (Hi & Hl & Hk)%entry_at_page]. pose proof (lookup_lt_Some _ _ _ Hl).
  unfold entry_at. cbn [kmem upd_entry set_kmem]. rewrite lookup_insert.
  destruct (decide (p = q)) as [<-|Hpq].
  - rewrite Hk. cbn [mbind option_bind]. destruct (decide (0 ≤ j)).
    + rewrite lookup_insert_Z by lia. destruct (decide (i = j)) as [->|].
      * by rewrite decide_True.
      * by rewrite decide_False by naive_solver.
    + rewrite decide_False by naive_solver. done.
  - by rewrite decide_False by naive_solver.
Qed.

Lemma page_upd s p i v q :
  page (upd_entry p i v s) q = if decide (q = p) then <[Z.to_nat i := v]> (page s p) else page s q.
Proof.
  unfold page at 1, upd_entry. simpl. rewrite lookup_insert.
  case_decide; subst; [by rewrite decide_True|by rewrite decide_False].
Qed.

(** Overwriting an entry of a counted table moves one reference. *)
Lemma refs_upd_own s own p i v e f :
  is_Some (own !! p) → entry_at s p i = Some e →
  refs (upd_entry p i v s) own f = refs s own f
    - (if decide (GET_ADDR_FROM_ENTRY e = f) then 1 else 0)
    + (if decide (GET_ADDR_FROM_ENTRY v = f) then 1 else 0).
Proof.
  intros [w Hw] (Hi & Hl & Hk)%entry_at_page. unfold refs.
  rewrite !(sumf_delete _ own p w Hw), page_upd, decide_True by done.
  rewrite (cnt_insert _ _ _ _ _ Hl).
  rewrite (sumf_ext _ (λ pt, cnt f (page s pt)) (delete p own)); [lia|].
  intros q Hq. rewrite page_upd, decide_False; [done|].
  intros ->. rewrite lookup_delete_eq in Hq. by destruct Hq.
Qed.

Lemma refs_upd_other s own p i v f :
  own !! p = None → refs (upd_entry p i v s) own f = refs s own f.
Proof.
  intros Hn. apply sumf_ext. intros q Hq. rewrite page_upd, decide_False; [done|].
  intros ->. rewrite Hn in Hq. by destruct Hq.
Qed.

Lemma refs_nonneg s own f : 0 ≤ refs s own f.
Proof. apply sumf_nonneg. intros. apply cnt_nonneg. Qed.

Lemma refs_pos s own pt j e :
  is_Some (own !! pt) → entry_at s pt j = Some e → 1 ≤ refs s own (GET_ADDR_FROM_ENTRY e).
Proof.
  intros Ho (Hi & Hl & Hk)%entry_at_page. etransitivity; [by eapply cnt_pos|].
  apply (sumf_ge (λ pt, cnt (GET_ADDR_FROM_ENTRY e) (page s pt))); [|done].
  intros. apply cnt_nonneg.
Qed.

(** Two entries that map the same frame are two references to it. *)
Lemma refs_two s own pt j e pt' j' e' :
  is_Some (own !! pt) → entry_at s pt j = Some e →
  is_Some (own !! pt') → entry_at s pt' j' = Some e' →
  GET_ADDR_FROM_ENTRY e = GET_ADDR_FROM_ENTRY e' → (pt, j) ≠ (pt', j') →
  2 ≤ refs s own (GET_ADDR_FROM_ENTRY e).
Proof.
  intros Ho (Hi & Hl & _)%entry_at_page Ho' (Hi' & Hl' & _)%entry_at_page Ea Hne.
  destruct (decide (pt = pt')) as [<-|Hpt].
  - etransitivity; [|apply (sumf_ge (λ pt, cnt (GET_ADDR_FROM_ENTRY e) (page s pt)) own pt)];
      [|intros; apply cnt_nonneg|done].
    apply (cnt_two _ _ (Z.to_nat j) (Z.to_nat j') e e'); try done.
    intros E. apply Hne. f_equal. lia.
  - etransitivity; [|apply (sumf_ge_two (λ pt, cnt (GET_ADDR_FROM_ENTRY e) (page s pt)) own pt pt')];
      [|intros; apply cnt_nonneg|done..].
    pose proof (cnt_pos _ _ _ _ Hl eq_refl). pose proof (cnt_pos _ _ _ _ Hl' (eq_sym Ea)). lia.
Qed.

(** ** Taking and dropping references *)
Definition bump_at (x : Z → Z) (f d : Z) : Z → Z :=
  λ g, if decide (g = f) then x g + d else x g.

Definition recount (r : list Z) (a : falloc) s : vm H := set_refs r (set_fa a s).

Lemma wf_recount x x' s own pds fs fs' r a :
  vm_wf x s own pds fs →
  free_stack a fs' → all_unlocked a →
  machine_phys_frames a = machine_phys_frames (fa s) →
  Z.of_nat (length r) = FREE_FRAMES_COUNT a →
  (∀ f, is_frame (fa s) f →
     r !! Z.to_nat (FRAME_INDEX f) = Some (refs s own f + x' f) ∧
     (f ∈ fs' ↔ refs s own f + x' f = 0)) →
  vm_wf x' (recount r a s) own pds fs'.
Proof.
  intros [] Hfs Hun Hm Hr Hc. split; try done.
  - intros pt j e Ho He. destruct (wf_tab0 pt j e Ho He) as [->|(?&?&?)]; [by left|].
    right. split_and!; [done..|]. simpl. by apply (is_frame_machine (fa s)).
  - intros f Hf. apply Hc. by apply (is_frame_machine (fa s) a).
  - intros f Hf. apply Hc. by apply (is_frame_machine (fa s) a).
Qed.

Lemma wf_machine x s own pds fs : vm_wf x s own pds fs → machine_ok (fa s).
Proof. intros []. by destruct wf_alloc0. Qed.

Lemma wf_lock_free x s own pds fs f :
  vm_wf x s own pds fs → is_frame (fa s) f →
  free_frames_lock (fa s) !! Z.to_nat (FRAME_INDEX f) = Some free_mutex.
Proof.
  intros Hwf Hf. destruct Hwf. apply all_unlocked_lookup; try done; by destruct wf_alloc0.
Qed.

Lemma frames_lock_ok s f :
  machine_ok (fa s) → is_frame (fa s) f →
  free_frames_lock (fa s) !! Z.to_nat (FRAME_INDEX f) = Some free_mutex →
  frames (lock_frame f) s = Ok tt (set_fa (set_lock f held_mutex (fa s)) s).
Proof. intros. apply zoom_ok. by apply lock_frame_ok. Qed.

Lemma frames_unlock_ok s f :
  machine_ok (fa s) → is_frame (fa s) f →
  free_frames_lock (fa s) !! Z.to_nat (FRAME_INDEX f) = Some held_mutex →
  frames (unlock_frame f) s = Ok tt (set_fa (set_lock f free_mutex (fa s)) s).
Proof. intros. apply zoom_ok. by apply unlock_frame_ok. Qed.

Lemma locked_lookup a f :
  machine_ok a → is_frame a f → Z.of_nat (length (free_frames_lock a)) = FREE_FRAMES_COUNT a →
  free_frames_lock (set_lock f held_mutex a) !! Z.to_nat (FRAME_INDEX f) = Some held_mutex.
Proof.
  intros Hm Hf Hl. destruct (frame_index a f Hm Hf) as [_ Hi]. simpl.
  apply list_lookup_insert_eq. lia.
Qed.

Lemma add_ref_ok s f d c :
  0 ≤ FRAME_INDEX f → frame_ref_count s !! Z.to_nat (FRAME_INDEX f) = Some c →
  add_ref f d s = Ok tt (set_refs (<[Z.to_nat (FRAME_INDEX f) := c + d]> (frame_ref_count s)) s).
Proof.
  intros Hi Hc. pose proof (lookup_lt_Some _ _ _ Hc). unfold add_ref.
  rewrite bind_get, (bind_ok _ _ _ c s) by (by apply aget_ok).
  erewrite bind_ok by (apply aset_ok; lia). done.
Qed.

Lemma get_ref_ok s f c :
  0 ≤ FRAME_INDEX f → frame_ref_count s !! Z.to_nat (FRAME_INDEX f) = Some c →
  get_ref f s = Ok c s.
Proof. intros Hi Hc. unfold get_ref. rewrite bind_get. by apply aget_ok. Qed.

(** [lock; count++; unlock]. *)
Lemma take_ref_ok x s own pds fs f d :
  vm_wf x s own pds fs → is_frame (fa s) f →
  (frames (lock_frame f) ;; add_ref f d ;; frames (unlock_frame f)) s =
  Ok tt (recount (<[Z.to_nat (FRAME_INDEX f) := refs s own f + x f + d]> (frame_ref_count s))
           (fa s) s).
Proof.
  intros Hwf Hf. pose proof (wf_machine _ _ _ _ _ Hwf) as Hm.
  pose proof (wf_lock_free _ _ _ _ _ _ Hwf Hf) as Hl.
  destruct (frame_index _ _ Hm Hf) as [_ Hi]. pose proof (wf_count _ _ _ _ _ Hwf f Hf) as Hc.
  rewrite (bind_ok _ _ _ _ _ (frames_lock_ok _ _ Hm Hf Hl)).
  erewrite bind_ok by (apply add_ref_ok; [lia|exact Hc]).
  rewrite frames_unlock_ok; [|done|done|].
  - cbn [fa set_fa set_refs]. rewrite set_lock_restore by done. by destruct s.
  - apply locked_lookup; [done..|]. apply (fs_locks _ _ (wf_alloc _ _ _ _ _ Hwf)).
Qed.

Lemma wf_count_bump x s own pds fs f d r :
  vm_wf x s own pds fs → is_frame (fa s) f →
  r = <[Z.to_nat (FRAME_INDEX f) := refs s own f + x f + d]> (frame_ref_count s) →
  Z.of_nat (length r) = FREE_FRAMES_COUNT (fa s) ∧
  ∀ g, is_frame (fa s) g →
    r !! Z.to_nat (FRAME_INDEX g) = Some (refs s own g + bump_at x f d g).
Proof.
  intros Hwf Hf ->. pose proof (wf_machine _ _ _ _ _ Hwf) as Hm.
  destruct (frame_index _ _ Hm Hf) as [_ Hi]. pose proof (wf_reflen _ _ _ _ _ Hwf).
  split; [by rewrite length_insert|]. intros g Hg.
  destruct (frame_index _ _ Hm Hg) as [_ Hi']. rewrite lookup_insert_Z by lia.
  unfold bump_at. case_decide as E.
  - assert (f = g) as <- by (by apply (frame_index_inj (fa s))). rewrite decide_True by done.
    f_equal. lia.
  - rewrite decide_False by congruence. by apply (wf_count _ _ _ _ _ Hwf).
Qed.

(** Taking one more reference to a frame in use. *)
Lemma wf_take_ref x s own pds fs f :
  vm_wf x s own pds fs → is_frame (fa s) f → (∀ g, 0 ≤ x g) →
  1 ≤ refs s own f + x f →
  ∃ r, (frames (lock_frame f) ;; add_ref f 1 ;; frames (unlock_frame f)) s =
         Ok tt (recount r (fa s) s) ∧
       vm_wf (bump_at x f 1) (recount r (fa s) s) own pds fs.
Proof.
  intros Hwf Hf Hx Hpos. eexists. split; [by eapply take_ref_ok|].
  destruct (wf_count_bump _ _ _ _ _ f 1 _ Hwf Hf eq_refl) as [Hlen Hcnt].
  destruct Hwf eqn:E. eapply wf_recount; try done. intros g Hg. split; [by apply Hcnt|].
  rewrite wf_free0 by done. unfold bump_at. case_decide; subst; [lia|done].
Qed.

(** ** Changes of the state that keep the invariant *)
Lemma wf_ext x x' s own pds fs :
  vm_wf x s own pds fs → (∀ f, is_frame (fa s) f → x f = x' f) → vm_wf x' s own pds fs.
Proof.
  intros [] Hx. split; try done.
  - intros f Hf. rewrite <- Hx by done. by apply wf_count0.
  - intros f Hf. rewrite <- Hx by done. by apply wf_free0.
Qed.

(** The pages the invariant speaks of. *)
Definition in_use s own pds (p : Z) : Prop :=
  is_Some (own !! p) ∨ p ∈ pds ∨ p ∈ direct_map s.

Lemma in_use_page x s own pds fs p :
  vm_wf x s own pds fs → in_use s own pds p → p ∈ kh_pages (kheap s).
Proof.
  intros [] [[[pd i] Ho]|[Hp|Hd]].
  - by apply (wf_own0 _ _ _ Ho).
  - by apply wf_pds0.
  - by apply (proj2 wf_dmap0).
Qed.

Lemma refs_ext s s' own f :
  (∀ p, is_Some (own !! p) → kmem s' !! p = kmem s !! p) → refs s' own f = refs s own f.
Proof. intros Hk. apply sumf_ext. intros p Hp. unfold page. by rewrite Hk. Qed.

Lemma entry_at_ext s s' p i : kmem s' !! p = kmem s !! p → entry_at s' p i = entry_at s p i.
Proof. unfold entry_at. by intros ->. Qed.

(** Kernel pages that are not in use may come and go. *)
Lemma wf_kmem x s h' k' own pds fs :
  vm_wf x s own pds fs →
  (∀ p, in_use s own pds p → p ∈ kh_pages h' ∧ k' !! p = kmem s !! p) →
  (∀ p, p ∈ kh_pages h' → p mod 4096 = 0 ∧ 0 < p < USER_MEM_START ∧
     ∃ l, k' !! p = Some l ∧ length l = 1024%nat) →
  vm_wf x (set_kheap h' (set_kmem k' s)) own pds fs.
Proof.
  intros Hwf Huse Hpage. pose proof Hwf as [].
  set (s' := set_kheap h' (set_kmem k' s)).
  assert (∀ p i, in_use s own pds p → entry_at s' p i = entry_at s p i) as He
    by (intros p i Hp; apply entry_at_ext, Huse, Hp).
  assert (∀ f, refs s' own f = refs s own f) as Hr
    by (intros f; apply refs_ext; intros p Hp; apply Huse; by left).
  split; try done.
  - split; [apply wf_dmap0|]. intros t Ht. destruct (proj2 wf_dmap0 t Ht) as (? & ? & ?).
    split_and!; [|done..]. apply Huse. by right; right.
  - intros i t Hi Ht. destruct (wf_kern0 i t Hi Ht) as [Hpd Hj].
    assert (t ∈ direct_map s) by (by eapply list_elem_of_lookup_2). split.
    + intros pd Hp. rewrite He; [by apply Hpd|]. by right; left.
    + intros j Hj'. rewrite He; [by apply Hj|]. by right; right.
  - intros pd Hp. split; [apply Huse; by right; left|by apply wf_pds0].
  - intros pt pd i Ho. destruct (wf_own0 pt pd i Ho) as (Hpt & Hpd & Hi & e & Hent & ?).
    split_and!; [apply Huse; left; eauto|done|lia..|].
    exists e. split; [|done]. rewrite He; [done|]. by right; left.
  - intros pd i e Hpd Hi. rewrite He by (by right; left). by apply wf_dir0.
  - intros pt j e Ho. rewrite He by (by left). by apply wf_tab0.
  - intros f Hf. rewrite Hr. by apply wf_count0.
  - intros f Hf. rewrite Hr. by apply wf_free0.
Qed.

Lemma entry_exists x s own pds fs p i :
  vm_wf x s own pds fs → p ∈ kh_pages (kheap s) → 0 ≤ i < 1024 → ∃ e, entry_at s p i = Some e.
Proof.
  intros [] Hp Hi. destruct (wf_page0 p Hp) as (_ & _ & l & Hl & Hlen).
  destruct (lookup_Z l i) as [e He]; [lia|]. exists e. eapply page_entry_at; [done|lia|done].
Qed.

Lemma wf_page_upd x s own pds fs p i v :
  vm_wf x s own pds fs → p ∈ kh_pages (kheap s) → 0 ≤ i < 1024 →
  ∀ q, q ∈ kh_pages (kheap s) → q mod 4096 = 0 ∧ 0 < q < USER_MEM_START ∧
    ∃ l, kmem (upd_entry p i v s) !! q = Some l ∧ length l = 1024%nat.
Proof.
  intros [] Hp Hi q Hq. destruct (wf_page0 q Hq) as (? & ? & l & Hl & Hlen).
  split_and!; try lia. simpl. rewrite lookup_insert. case_decide; subst; [|by exists l].
  eexists. split; [done|]. rewrite length_insert. unfold page. by rewrite Hl.
Qed.

(** A reference moves from the old to the new value of an entry. *)
Definition moved (x : Z → Z) (e v : Z) : Z → Z :=
  λ f, x f + (if decide (GET_ADDR_FROM_ENTRY e = f) then 1 else 0)
           - (if decide (GET_ADDR_FROM_ENTRY v = f) then 1 else 0).

(** Overwriting a page-table entry. *)
Lemma wf_write_pte x s own pds fs pt j e v :
  vm_wf x s own pds fs → is_Some (own !! pt) → entry_at s pt j = Some e → 0 ≤ j < 1024 →
  good_pte s v → vm_wf (moved x e v) (upd_entry pt j v s) own pds fs.
Proof.
  intros Hwf Ho He Hj Hv. pose proof Hwf as [].
  assert (pt ∈ kh_pages (kheap s)) as Hpt by (apply (in_use_page _ _ _ _ _ _ Hwf); by left).
  assert (∀ q i, in_use s own pds q → own !! q = None →
    entry_at (upd_entry pt j v s) q i = entry_at s q i) as Hother.
  { intros q i _ Hq. rewrite entry_at_upd by eauto. rewrite decide_False; [done|].
    intros [-> _]. rewrite Hq in Ho. by destruct Ho. }
  assert (∀ f, refs (upd_entry pt j v s) own f + moved x e v f = refs s own f + x f) as Hr.
  { intros f. rewrite (refs_upd_own _ _ _ _ _ e) by done. unfold moved. lia. }
  split; try done.
  - by apply (wf_page_upd _ _ _ _ _ _ _ _ Hwf).
  - intros i t Hi Ht. assert (t ∈ direct_map s) as Hd by (by eapply list_elem_of_lookup_2).
    destruct (wf_kern0 i t Hi Ht) as [Hpd Hk]. split.
    + intros pd Hp. rewrite Hother; [by apply Hpd|by right; left|by apply wf_pds0].
    + intros k Hk'. rewrite Hother; [by apply Hk|by right; right|by apply (proj2 wf_dmap0 t Hd)].
  - intros q pd i Hq. destruct (wf_own0 q pd i Hq) as (? & Hpd & Hi & e' & ? & ?).
    split_and!; [done|done|lia..|]. exists e'. split; [|done].
    rewrite Hother; [done|by right; left|by apply wf_pds0].
  - intros pd i e' Hpd Hi. rewrite Hother; [by apply wf_dir0|by right; left|by apply wf_pds0].
  - intros q k e' Hq. rewrite entry_at_upd by eauto. case_decide; [by intros [= <-]|].
    by apply wf_tab0.
  - intros f Hf. simpl. rewrite Hr. by apply wf_count0.
  - intros f Hf. rewrite Hr. by apply wf_free0.
Qed.

(** A page that holds a table nobody points to becomes the table of an empty
    directory entry; its entries are no longer in transit. *)
Lemma wf_attach x s own pds fs a l pd i v :
  vm_wf x s own pds fs →
  a ∈ kh_pages (kheap s) → own !! a = None → a ∉ pds → a ∉ direct_map s →
  kmem s !! a = Some l → (∀ e, e ∈ l → good_pte s e) →
  pd ∈ pds → 4 ≤ i < 1024 → entry_at s pd i = Some PAGE_DIR_ENTRY_DEFAULT →
  v ≠ PAGE_DIR_ENTRY_DEFAULT → word v → present v = true → GET_ADDR_FROM_ENTRY v = a →
  vm_wf (λ f, x f - cnt f l) (upd_entry pd i v s) (<[a := (pd, i)]> own) pds fs.
Proof.
  intros Hwf Ha Hoa Hapds Hadm Hl Hgood Hpd Hi Hent Hv0 Hvw Hvp Hva. pose proof Hwf as [].
  assert (pd ≠ a) as Hpda by congruence.
  destruct (wf_pds0 pd Hpd) as [Hpdk Hpdo].
  assert (∀ q k, q ≠ pd → entry_at (upd_entry pd i v s) q k = entry_at s q k) as Hother.
  { intros q k Hq. rewrite entry_at_upd by eauto. by rewrite decide_False by naive_solver. }
  assert (∀ f, refs (upd_entry pd i v s) (<[a := (pd, i)]> own) f
                 + (x f - cnt f l) = refs s own f + x f) as Hr.
  { intros f. rewrite refs_upd_other by (by rewrite lookup_insert_ne).
    unfold refs. rewrite sumf_insert by done. unfold page at 1. rewrite Hl. simpl. lia. }
  split; try done.
  - apply (wf_page_upd _ _ _ _ _ _ _ _ Hwf Hpdk). lia.
  - split; [apply wf_dmap0|]. intros t Ht. destruct (proj2 wf_dmap0 t Ht) as (? & ? & ?).
    split_and!; [done| |done]. rewrite lookup_insert_ne; [done|]. by intros ->.
  - intros k t Hk Ht. destruct (wf_kern0 k t Hk Ht) as [Hp Hj]. split.
    + intros q Hq. rewrite entry_at_upd by eauto. rewrite decide_False by lia. by apply Hp.
    + intros j Hj'. rewrite Hother; [by apply Hj|]. intros ->.
      by destruct (proj2 wf_dmap0 pd) as (_ & _ & []); [eapply list_elem_of_lookup_2|].
  - intros q Hq. destruct (wf_pds0 q Hq). split; [done|].
    rewrite lookup_insert_ne; [done|congruence].
  - intros q pd' i'. rewrite lookup_insert. case_decide as E.
    + intros [= <- <-]. subst q. split_and!; [done|done|lia..|]. exists v.
      rewrite entry_at_upd by eauto. by rewrite decide_True.
    + intros Hq. destruct (wf_own0 q pd' i' Hq) as (? & ? & Hi' & e & He & Hne & ?).
      split_and!; [done|done|lia..|]. exists e. split; [|done].
      rewrite entry_at_upd by eauto. rewrite decide_False; [done|]. intros [-> ->]. congruence.
  - intros q k e Hq Hk. rewrite entry_at_upd by eauto. case_decide as E.
    + destruct E as [-> ->]. intros [= <-]. right. rewrite Hva. by rewrite lookup_insert_eq.
    + intros He. destruct (wf_dir0 q k e Hq Hk He) as [?|Ho]; [by left|]. right.
      rewrite lookup_insert_ne; [done|]. intros E2. congruence.
  - intros q j e Hq. rewrite Hother; last first.
    { intros ->. rewrite lookup_insert_ne, Hpdo in Hq by done. by destruct Hq. }
    intros He. rewrite lookup_insert in Hq. case_decide; [|by apply (wf_tab0 q j)].
    subst q. apply Hgood. apply entry_at_page in He as (_ & He & Hk). rewrite Hk in Hl.
    simplify_eq. by eapply list_elem_of_lookup_2.
  - intros f Hf. simpl. rewrite Hr. by apply wf_count0.
  - intros f Hf. rewrite Hr. by apply wf_free0.
Qed.

(** A frame is taken from the allocator and counted once. *)
Lemma fresh_frame_ok x s own pds f fs :
  vm_wf x s own pds (f :: fs) →
  ∃ nxt r, let s1 := set_fa (set_head nxt (fa s)) s in
    free_frames_arr (fa s) !! Z.to_nat (FRAME_INDEX f) = Some nxt ∧
    frames allocate_frame s = Ok f s1 ∧ is_frame (fa s) f ∧
    refs s own f + x f = 0 ∧
    r = <[Z.to_nat (FRAME_INDEX f) := 1]> (frame_ref_count s) ∧
    (frames (lock_frame f) ;; add_ref f 1 ;; frames (unlock_frame f)) s1 =
      Ok tt (recount r (fa s1) s) ∧
    vm_wf (bump_at x f 1) (recount r (fa s1) s) own pds fs.
Proof.
  intros Hwf. pose proof Hwf as []. destruct (allocate_frame_pop _ _ _ wf_alloc0) as (nxt & Hn & Ha & Hfs).
  pose proof (fs_frames _ _ wf_alloc0) as [Hf _]%Forall_cons.
  pose proof (fs_nodup _ _ wf_alloc0) as [Hnin _]%NoDup_cons.
  pose proof (wf_machine _ _ _ _ _ Hwf) as Hm. destruct (frame_index _ _ Hm Hf) as [_ Hi].
  assert (refs s own f + x f = 0) as Hz by (apply wf_free0; [done|by left]).
  exists nxt, (<[Z.to_nat (FRAME_INDEX f) := 1]> (frame_ref_count s)).
  split; [done|]. split; [by apply (zoom_ok fa set_fa)|]. split_and!; [done..| |].
  - rewrite (bind_ok _ _ _ _ _ (frames_lock_ok (set_fa (set_head nxt (fa s)) s) f Hm Hf
      (wf_lock_free _ _ _ _ _ _ Hwf Hf))).
    pose proof (wf_count0 f Hf) as Hc. rewrite Hz in Hc.
    erewrite bind_ok by (apply add_ref_ok; [lia|exact Hc]).
    rewrite frames_unlock_ok; [|done|done|].
    + cbn [fa set_fa set_refs]. rewrite set_lock_restore by (by apply (wf_lock_free _ _ _ _ _ _ Hwf)).
      by destruct s.
    + apply (locked_lookup (set_head nxt (fa s))); [done..|]. apply (fs_locks _ _ wf_alloc0).
  - eapply wf_recount; try done; [by rewrite length_insert|]. intros g Hg.
    destruct (frame_index _ _ Hm Hg) as [_ Hi']. rewrite lookup_insert_Z by lia.
    specialize (wf_free0 g Hg). rewrite elem_of_cons in wf_free0.
    unfold bump_at. destruct (decide (g = f)) as [->|Hgf].
    + rewrite decide_True by done. split; [f_equal; lia|]. split; [done|lia].
    + rewrite decide_False; [|by intros E%(frame_index_inj (fa s))].
      split; [by apply wf_count0|]. rewrite <- wf_free0. naive_solver.
Qed.

Lemma alloc_none x s own pds : vm_wf x s own pds [] → frames allocate_frame s = Ok NULL s.
Proof.
  intros []. unfold frames. rewrite (zoom_ok _ _ _ _ NULL (fa s)) by (by apply allocate_frame_empty).
  by destruct s.
Qed.

(** Dropping a reference; the last one returns the frame. *)
Lemma drop_frame_ok x s own pds fs b f :
  vm_wf x s own pds fs → is_frame (fa s) f → 1 ≤ refs s own f + x f →
  ∃ r a, drop_frame b f s = Ok tt (recount r a s) ∧
    machine_phys_frames a = machine_phys_frames (fa s) ∧
    vm_wf (bump_at x f (-1)) (recount r a s) own pds
      (if decide (refs s own f + x f = 1) then f :: fs else fs).
Proof.
  intros Hwf Hf Hpos. pose proof Hwf as []. pose proof (wf_machine _ _ _ _ _ Hwf) as Hm.
  destruct (frame_index _ _ Hm Hf) as [_ Hi]. pose proof (wf_count0 f Hf) as Hc.
  pose proof (wf_lock_free _ _ _ _ _ _ Hwf Hf) as Hlk.
  destruct (wf_count_bump _ _ _ _ _ f (-1) _ Hwf Hf eq_refl) as [Hlen Hcnt].
  set (r := <[Z.to_nat (FRAME_INDEX f) := refs s own f + x f + -1]> (frame_ref_count s)) in *.
  assert (r !! Z.to_nat (FRAME_INDEX f) = Some (refs s own f + x f + -1)) as Hr
    by (apply list_lookup_insert_eq; lia).
  assert (∀ a, machine_phys_frames a = machine_phys_frames (fa s) →
    free_frames_lock a = free_frames_lock (fa s) →
    frames (unlock_frame f) (recount r (set_lock f held_mutex a) s) = Ok tt (recount r a s))
    as Hunlock.
  { intros a Ea El. assert (machine_ok a) as Hma by (unfold machine_ok; by rewrite Ea).
    rewrite frames_unlock_ok; [|done|by apply (is_frame_machine (fa s))|].
    - cbn [fa set_fa set_refs recount]. rewrite set_lock_restore by (by rewrite El). done.
    - apply locked_lookup; [done|by apply (is_frame_machine (fa s))|].
      rewrite El, FREE_FRAMES_COUNT_eq, Ea. apply (fs_locks _ _ wf_alloc0). }
  exists r, (if decide (refs s own f + x f = 1) then push_free f (fa s) else fa s). split_and!.
  - unfold drop_frame. rewrite (bind_ok _ _ _ _ _ (frames_lock_ok _ _ Hm Hf Hlk)).
    erewrite bind_ok by (apply add_ref_ok; [lia|exact Hc]).
    rewrite (bind_ok _ _ _ (refs s own f + x f + -1) (recount r (set_lock f held_mutex (fa s)) s))
      by (apply get_ref_ok; [lia|exact Hr]).
    rewrite (bind_ok _ _ _ tt (recount r (set_lock f held_mutex (fa s)) s)); last first.
    { destruct b; [|done]. apply kernel_assert_true, bool_decide_true. lia. }
    case_decide as E1; case_decide as E2; try lia.
    + erewrite bind_ok by (apply (zoom_ok fa set_fa), (deallocate_frame_ok _ _ fs);
        [by apply free_stack_set_lock|done]).
      apply (Hunlock (push_free f (fa s))); done.
    + rewrite bind_mret. by apply Hunlock.
  - by case_decide.
  - eapply (wf_recount x); try done.
    + case_decide; [|done]. apply push_free_stack; [done|done|]. rewrite wf_free0 by done. lia.
    + by case_decide.
    + by case_decide.
    + by case_decide.
    + intros g Hg. split; [by apply Hcnt|]. specialize (wf_free0 g Hg). unfold bump_at.
      case_decide; [rewrite elem_of_cons|]; case_decide; subst; rewrite ?wf_free0;
        intuition lia.
Qed.

(** ** Kernel pages *)
Lemma set_kmem_id s : set_kmem (kmem s) s = s.
Proof. by destruct s. Qed.

(** The entries written by a loop over [lo, lo + n). *)
Fixpoint fill (g : Z → Z) (n : nat) (lo : Z) (l : list Z) : list Z :=
  match n with
  | O => l
  | S n' => fill g n' (lo + 1) (<[Z.to_nat lo := g lo]> l)
  end.

Lemma fill_length g n lo l : length (fill g n lo l) = length l.
Proof.
  revert lo l. induction n as [|n IH]; intros lo l; [done|]. simpl. by rewrite IH, length_insert.
Qed.

Lemma fill_lookup g n lo l j :
  0 ≤ lo → lo + Z.of_nat n ≤ Z.of_nat (length l) → 0 ≤ j →
  fill g n lo l !! Z.to_nat j =
  if decide (lo ≤ j < lo + Z.of_nat n) then Some (g j) else l !! Z.to_nat j.
Proof.
  revert lo l. induction n as [|n IH]; intros lo l Hlo Hn Hj; cbn [fill].
  - by rewrite decide_False by lia.
  - rewrite IH by (rewrite ?length_insert; lia). rewrite lookup_insert_Z by lia.
    destruct (decide (lo = j)) as [->|].
    + by rewrite decide_False, decide_True by lia.
    + destruct (decide (lo + 1 ≤ j < lo + 1 + Z.of_nat n)).
      * by rewrite decide_True by lia.
      * by rewrite decide_False by lia.
Qed.

Lemma kfill_ok s p l g body n lo :
  kmem s !! p = Some l → 0 ≤ lo → lo + Z.of_nat n ≤ Z.of_nat (length l) →
  (∀ i k l', lo ≤ i < lo + Z.of_nat n → k !! p = Some l' → l' !! Z.to_nat i = l !! Z.to_nat i →
     body i (set_kmem k s) = kwrite p i (g i) (set_kmem k s)) →
  for_loop n lo body s = Ok tt (set_kmem (<[p := fill g n lo l]> (kmem s)) s).
Proof.
  revert s l lo. induction n as [|n IH]; intros s l lo Hl Hlo Hn Hb; cbn [for_loop fill].
  - rewrite insert_id by done. by rewrite set_kmem_id.
  - assert (page s p = l) as Hp by (unfold page; by rewrite Hl).
    destruct (lookup_Z l lo) as [e He]; [lia|].
    rewrite (bind_ok _ _ _ tt (upd_entry p lo (g lo) s)); last first.
    { rewrite <- (set_kmem_id s) at 1. rewrite (Hb lo _ l) by (done || lia). rewrite set_kmem_id.
      apply kwrite_ok. exists e. by eapply page_entry_at. }
    rewrite (IH _ (<[Z.to_nat lo := g lo]> l)).
    + unfold upd_entry. rewrite Hp. cbn [kmem set_kmem]. by rewrite insert_insert_eq.
    + unfold upd_entry. rewrite Hp. apply lookup_insert_eq.
    + lia.
    + rewrite length_insert. lia.
    + intros i k l' Hi Hk El. apply (Hb i k l'); [lia|done|].
      rewrite El. apply list_lookup_insert_ne. lia.
Qed.

End inv.

(** Name the clauses of the invariant. *)
Ltac wf_open Hwf :=
  pose proof Hwf as [wf_alloc0 wf_unlocked0 wf_reflen0 wf_page0 wf_dmap0 wf_kern0 wf_pds0
                     wf_own0 wf_dir0 wf_tab0 wf_count0 wf_free0].
