(* ===== verification/VMPages.v ===== *)
(** * Virtual memory: page tables and directories come and go

    Creation of page tables and directories, and [free_paging_info], which
    gives back every page table of a directory and every frame that only this
    directory mapped. *)

From S2P Require Import Prelude Locks FrameAlloc Paging VM VMInv.

Section pages.
Context {H : Type} `{KernelHeapSpec H}.
Implicit Types (s : vm H) (own : gmap Z (Z * Z)) (pds : gset Z) (fs : list Z).

(** ** Creation *)

(** Only the heap changed, and no page was allocated. *)
Definition heap_same s s' : Prop :=
  ∃ h, s' = set_kheap h s ∧ kh_pages h = kh_pages (kheap s).

Lemma smemalign_page_ok x s own pds fs :
  vm_wf x s own pds fs →
  ∃ a h k, smemalign_page s = Ok a (set_kheap h (set_kmem k s)) ∧
    vm_wf x (set_kheap h (set_kmem k s)) own pds fs ∧
    (a = NULL ∧ k = kmem s ∧ kh_pages h = kh_pages (kheap s) ∨
     a ≠ NULL ∧ a ∈ kh_pages h ∧ a ∉ kh_pages (kheap s) ∧ kh_pages h = {[a]} ∪ kh_pages (kheap s) ∧
     ∃ l, length l = 1024%nat ∧ k = <[a := l]> (kmem s)).
Proof.
  intros Hwf. destruct (kh_smemalign (kheap s) PAGE_SIZE PAGE_SIZE) as [a h] eqn:E.
  unfold smemalign_page. rewrite bind_get, E, bind_modify.
  destruct (decide (a = NULL)) as [->|Ha].
  - pose proof (kh_memalign_null _ _ _ E eq_refl) as Hp.
    exists NULL, h, (kmem s). split; [by destruct s|]. split; [|by left].
    apply wf_kmem; [done|..].
    + intros p Hu. rewrite Hp. split; [|done]. by apply (in_use_page _ _ _ _ _ _ Hwf).
    + rewrite Hp. by apply (wf_page _ _ _ _ _ Hwf).
  - destruct (kh_memalign_page _ _ _ E Ha) as (Hnew & Hal & Hlow & Hp).
    exists a, h, (<[a := kh_contents (kheap s) a]> (kmem s)).
    split; [by destruct s|]. split.
    + apply wf_kmem; [done|..].
      * intros p Hu%(in_use_page _ _ _ _ _ _ Hwf). rewrite Hp. split; [set_solver|].
        rewrite lookup_insert_ne; [done|]. by intros ->.
      * intros p. rewrite Hp. rewrite lookup_insert. case_decide as Ep.
        { subst. intros _. split_and!; [done|lia..|]. eexists. split; [done|].
          apply kh_contents_page. }
        intros Hin. apply (wf_page _ _ _ _ _ Hwf). set_solver.
    + right. split_and!; [done|set_solver|done|done|]. eexists. split; [|done].
      apply kh_contents_page.
Qed.

(** Filling a page that is not in use. *)
Lemma wf_fill x s own pds fs a l :
  vm_wf x s own pds fs → a ∈ kh_pages (kheap s) → ¬ in_use s own pds a →
  length l = 1024%nat → vm_wf x (set_kmem (<[a := l]> (kmem s)) s) own pds fs.
Proof.
  intros Hwf Ha Hnu Hl.
  replace (set_kmem (<[a:=l]> (kmem s)) s) with (set_kheap (kheap s) (set_kmem (<[a:=l]> (kmem s)) s))
    by (by destruct s).
  apply wf_kmem; [done|..].
  - intros p Hu. split; [by apply (in_use_page _ _ _ _ _ _ Hwf)|].
    rewrite lookup_insert_ne; [done|]. by intros ->.
  - intros p Hp. destruct (wf_page _ _ _ _ _ Hwf p Hp) as (? & ? & l' & ? & ?).
    split_and!; [done|lia..|]. rewrite lookup_insert. case_decide; eauto.
Qed.

(** [a] is a fresh kernel page that holds [l]; the state is otherwise [s]. *)
Record new_page s (a : Z) (l : list Z) s' own pds : Prop := {
  np_shape : ∃ h k, s' = set_kheap h (set_kmem k s);
  np_null : a ≠ NULL;
  np_fresh : a ∉ kh_pages (kheap s);
  np_pages : kh_pages (kheap s') = {[a]} ∪ kh_pages (kheap s);
  np_kmem : kmem s' = <[a := l]> (kmem s);
  np_len : length l = 1024%nat;
  np_unused : ¬ in_use s' own pds a;
}.

Lemma create_filled x s own pds fs :
  vm_wf x s own pds fs →
  ∃ a s1, smemalign_page s = Ok a s1 ∧
    (a = NULL ∧ heap_same s s1 ∧ vm_wf x s1 own pds fs ∨
     ∃ l, new_page s a l s1 own pds ∧ vm_wf x s1 own pds fs ∧
       ∀ l', length l' = 1024%nat →
         new_page s a l' (set_kmem (<[a := l']> (kmem s1)) s1) own pds ∧
         vm_wf x (set_kmem (<[a := l']> (kmem s1)) s1) own pds fs).
Proof.
  intros Hwf. destruct (smemalign_page_ok _ _ _ _ _ Hwf) as (a & h & k & Hrun & Hwf1 & Hcase).
  exists a, (set_kheap h (set_kmem k s)). split; [done|].
  destruct Hcase as [(-> & -> & Hp)|(Ha & Hin & Hnew & Hp & l & Hl & ->)].
  { left. split; [done|]. split; [|done]. exists h. split; [by destruct s|done]. }
  right. assert (¬ in_use s own pds a) as Hnu.
  { intros Hu. by apply Hnew, (in_use_page _ _ _ _ _ _ Hwf). }
  exists l. split_and!; [by split; eauto|done|]. intros l' Hl'. split.
  - split; try done; [by eexists _, _|]. simpl. by rewrite insert_insert_eq.
  - by apply wf_fill.
Qed.

Lemma lookup_full (l : list Z) g :
  length l = 1024%nat → (∀ j, 0 ≤ j < 1024 → l !! Z.to_nat j = Some (g j)) →
  l = g <$> seqZ 0 1024.
Proof.
  intros Hl Hj. apply list_eq. intros n. rewrite list_lookup_fmap.
  destruct (decide (n < 1024)%nat) as [Hn|Hn].
  - rewrite lookup_seqZ_lt by lia. simpl. rewrite <- Hj by lia. f_equal. lia.
  - rewrite lookup_ge_None_2 by lia. rewrite lookup_seqZ_ge by lia. done.
Qed.

Definition empty_table : list Z := replicate 1024 PAGE_TABLE_ENTRY_DEFAULT.

Lemma fill_const (l : list Z) v : length l = 1024%nat → fill (λ _, v) 1024 0 l = replicate 1024 v.
Proof.
  intros Hl. apply list_eq. intros n. destruct (decide (n < 1024)%nat) as [Hn|Hn].
  - rewrite <- (Nat2Z.id n) at 1. rewrite fill_lookup by lia. rewrite decide_True by lia.
    symmetry. by apply lookup_replicate_2.
  - by rewrite !lookup_ge_None_2 by (rewrite ?fill_length, ?length_replicate; lia).
Qed.

Lemma create_page_table_ok x s own pds fs :
  vm_wf x s own pds fs →
  ∃ a s', create_page_table s = Ok a s' ∧ vm_wf x s' own pds fs ∧
    (a = NULL ∧ heap_same s s' ∨ new_page s a empty_table s' own pds).
Proof.
  intros Hwf. destruct (create_filled _ _ _ _ _ Hwf) as (a & s1 & Hrun & Hcase).
  exists a. unfold create_page_table. rewrite (bind_ok _ _ _ _ _ Hrun).
  destruct Hcase as [(-> & ? & ?)|(l & Hnp & Hwf1 & Hfill)].
  { exists s1. rewrite decide_True by done. split; [done|]. split; [done|]. by left. }
  rewrite decide_False by apply Hnp.
  destruct (Hfill empty_table) as [Hnp' Hwf']; [done|].
  eexists. split; [|split; [exact Hwf'|by right]].
  erewrite bind_ok by (apply (kfill_ok s1 a l (λ _, PAGE_TABLE_ENTRY_DEFAULT));
    [rewrite (np_kmem _ _ _ _ _ _ Hnp); apply lookup_insert_eq|done
    |by rewrite (np_len _ _ _ _ _ _ Hnp)|done]).
  change (Z.to_nat NUM_PAGE_TABLE_ENTRIES) with 1024%nat.
  rewrite fill_const by apply Hnp. done.
Qed.

(** An unused page that holds an empty directory becomes a live directory. *)
Lemma wf_new_dir x s own pds fs a :
  vm_wf x s own pds fs → a ∈ kh_pages (kheap s) → ¬ in_use s own pds a →
  (∀ i t, 0 ≤ i < 4 → direct_map s !! Z.to_nat i = Some t →
     entry_at s a i = Some (kernel_pde t)) →
  (∀ i, 4 ≤ i < 1024 → entry_at s a i = Some PAGE_DIR_ENTRY_DEFAULT) →
  vm_wf x s own ({[a]} ∪ pds) fs.
Proof.
  intros Hwf Ha Hnu Hk Hd. wf_open Hwf.
  assert (own !! a = None ∧ a ∉ direct_map s) as [Ho Hdm].
  { split; [apply eq_None_not_Some|]; intros ?; apply Hnu; [by left|by right; right]. }
  split; try done.
  - split; [apply wf_dmap0|]. intros t Ht. destruct (proj2 wf_dmap0 t Ht) as (? & ? & ?).
    split_and!; [done..|]. set_solver.
  - intros i t Hi Ht. destruct (wf_kern0 i t Hi Ht) as [Hpd Hj]. split; [|done].
    intros pd [->%elem_of_singleton|Hp]%elem_of_union; [by apply Hk|by apply Hpd].
  - intros pd [->%elem_of_singleton|Hp]%elem_of_union; [done|by apply wf_pds0].
  - intros pt pd i Hpt. destruct (wf_own0 pt pd i Hpt) as (? & ? & ? & ?).
    split_and!; [done|set_solver|lia..|done].
  - intros pd i e [->%elem_of_singleton|Hp]%elem_of_union Hi He; [|by apply wf_dir0].
    left. rewrite Hd in He by lia. congruence.
Qed.

Lemma direct_map_kernel_pages_ok s a l :
  length (direct_map s) = 4%nat → kmem s !! a = Some l → length l = 1024%nat →
  direct_map_kernel_pages a s =
  Ok tt (set_kmem (<[a := fill (λ i, kernel_pde (nth (Z.to_nat i) (direct_map s) 0)) 4 0 l]>
           (kmem s)) s).
Proof.
  intros Hd Hl Hlen. apply kfill_ok; [done|done|rewrite Hlen; done|].
  intros i k l' Hi _ _. rewrite bind_get. destruct (lookup_Z (direct_map s) i) as [t Ht]; [lia|].
  rewrite (bind_ok _ _ _ t (set_kmem k s)) by (apply aget_ok; [lia|done]).
  by rewrite (nth_lookup_Some _ _ _ _ Ht).
Qed.

Lemma create_page_directory_ok x s own pds fs :
  vm_wf x s own pds fs →
  ∃ a s', create_page_directory s = Ok a s' ∧
    (a = NULL ∧ heap_same s s' ∧ vm_wf x s' own pds fs ∨
     ∃ l, new_page s a l s' own pds ∧ vm_wf x s' own ({[a]} ∪ pds) fs ∧
       ∀ i, 4 ≤ i < 1024 → entry_at s' a i = Some PAGE_DIR_ENTRY_DEFAULT).
Proof.
  intros Hwf. destruct (create_filled _ _ _ _ _ Hwf) as (a & s1 & Hrun & Hcase).
  exists a. unfold create_page_directory. rewrite (bind_ok _ _ _ _ _ Hrun).
  destruct Hcase as [(-> & ? & ?)|(l & Hnp & Hwf1 & Hfill)].
  { exists s1. rewrite decide_True by done. split; [done|]. by left. }
  rewrite decide_False by apply Hnp.
  assert (kmem s1 !! a = Some l) as Hl
    by (rewrite (np_kmem _ _ _ _ _ _ Hnp); apply lookup_insert_eq).
  pose proof (np_len _ _ _ _ _ _ Hnp) as Hlen.
  assert (length (direct_map s1) = 4%nat) as Hdm by apply (wf_dmap _ _ _ _ _ Hwf1).
  erewrite bind_ok by (by apply (direct_map_kernel_pages_ok s1 a l)).
  set (l1 := fill _ 4 0 l).
  assert (length l1 = 1024%nat) as Hlen1 by (unfold l1; by rewrite fill_length).
  set (l2 := fill (λ _, PAGE_DIR_ENTRY_DEFAULT) 1020 4 l1).
  assert (length l2 = 1024%nat) as Hlen2 by (unfold l2; by rewrite fill_length).
  destruct (Hfill l2 Hlen2) as [Hnp' Hwf'].
  eexists. split.
  - erewrite bind_ok by (apply (kfill_ok _ a l1 (λ _, PAGE_DIR_ENTRY_DEFAULT));
      [apply lookup_insert_eq|done|by rewrite Hlen1|done]).
    cbn [kmem set_kmem]. rewrite insert_insert_eq. done.
  - change (Z.to_nat (NUM_PAGE_TABLE_ENTRIES - KERNEL_MAP_NUM_ENTRIES)) with 1020%nat.
    change KERNEL_MAP_NUM_ENTRIES with 4. fold l2. right. exists l2.
    set (s2 := set_kmem (<[a:=l2]> (kmem s1)) s1) in *.
    assert (∀ i, 4 ≤ i < 1024 → entry_at s2 a i = Some PAGE_DIR_ENTRY_DEFAULT) as Hdef.
    { intros i Hi. apply (page_entry_at _ _ _ _ l2); [apply lookup_insert_eq|lia|].
      unfold l2. rewrite fill_lookup by lia. by rewrite decide_True by lia. }
    split_and!; [done| |done]. apply wf_new_dir; [done| |apply Hnp'| |done].
    + change (a ∈ kh_pages (kheap s2)). rewrite (np_pages _ _ _ _ _ _ Hnp'). by apply elem_of_union_l, elem_of_singleton.
    + intros i t Hi Ht. apply (page_entry_at _ _ _ _ l2); [apply lookup_insert_eq|lia|].
      unfold l2. rewrite fill_lookup, decide_False by lia. unfold l1.
      rewrite fill_lookup, decide_True by lia. by rewrite (nth_lookup_Some _ _ _ _ Ht).
Qed.

(** ** Translations that do not change *)
Lemma pte_at_same x s s' own pds fs pd va :
  vm_wf x s own pds fs → pd ∈ pds → word va →
  (∀ p, in_use s own pds p → kmem s' !! p = kmem s !! p) →
  pte_at s' pd va = pte_at s pd va.
Proof.
  intros Hwf Hpd Hva Hk. unfold pte_at. rewrite (entry_at_ext s s' pd) by (apply Hk; by right; left).
  destruct (entry_at s pd (GET_PD_INDEX va)) as [e|] eqn:He; [|done]. simpl.
  destruct (present e) eqn:Hp; [|done].
  rewrite (entry_at_ext s s'); [done|]. apply Hk. pose proof (pd_index_range va Hva) as Hi.
  destruct (decide (GET_PD_INDEX va < 4)) as [Hlo|Hhi].
  - destruct (lookup_Z (direct_map s) (GET_PD_INDEX va)) as [t Ht].
    { rewrite (proj1 (wf_dmap _ _ _ _ _ Hwf)). lia. }
    assert (t ∈ direct_map s) as Hin by (by eapply list_elem_of_lookup_2).
    destruct (wf_kern _ _ _ _ _ Hwf (GET_PD_INDEX va) t) as [Hke _]; [lia|done|].
    rewrite Hke in He by done. simplify_eq.
    destruct (wf_dmap _ _ _ _ _ Hwf) as [_ Hdm]. destruct (Hdm t Hin) as (Htp & _ & _).
    destruct (wf_page _ _ _ _ _ Hwf t Htp) as (? & Hr & _). unfold USER_MEM_START in Hr.
    unfold kernel_pde. rewrite addr_of_entry by (done || lia). by right; right.
  - destruct (wf_dir _ _ _ _ _ Hwf pd (GET_PD_INDEX va) e) as [->|Ho]; [done|lia|done|done|].
    left. eauto.
Qed.

(** ** Freeing *)

(** References to [f] from the tables of the entries [lo, lo + n) of [pd]. *)
Definition table_refs s (pd i f : Z) : Z :=
  match entry_at s pd i with
  | Some e => if decide (e = PAGE_DIR_ENTRY_DEFAULT) then 0
              else cnt f (page s (GET_ADDR_FROM_ENTRY e))
  | None => 0
  end.

Fixpoint dir_refs s (pd f : Z) (n : nat) (lo : Z) : Z :=
  match n with
  | O => 0
  | S n' => table_refs s pd lo f + dir_refs s pd f n' (lo + 1)
  end.

(** Ownership once those tables are given up. *)
Fixpoint disown s (pd : Z) (n : nat) (lo : Z) own : gmap Z (Z * Z) :=
  match n with
  | O => own
  | S n' => disown s pd n' (lo + 1)
      match entry_at s pd lo with
      | Some e => if decide (e = PAGE_DIR_ENTRY_DEFAULT) then own
                  else delete (GET_ADDR_FROM_ENTRY e) own
      | None => own
      end
  end.

(** Each entry from [lo] on is empty or owns its table. *)
Definition dir_owns s (pd lo : Z) own : Prop :=
  ∀ i e, lo ≤ i < 1024 → entry_at s pd i = Some e →
    e = PAGE_DIR_ENTRY_DEFAULT ∨ own !! GET_ADDR_FROM_ENTRY e = Some (pd, i).

Lemma dir_owns_step s pd lo e own :
  dir_owns s pd lo own → 0 ≤ lo < 1024 → entry_at s pd lo = Some e → e ≠ PAGE_DIR_ENTRY_DEFAULT →
  own !! GET_ADDR_FROM_ENTRY e = Some (pd, lo) ∧
  dir_owns s pd (lo + 1) (delete (GET_ADDR_FROM_ENTRY e) own).
Proof.
  intros Hd Hlo He Hne. destruct (Hd lo e) as [?|Ho]; [lia|done|done|]. split; [done|].
  intros i e' Hi He'. destruct (Hd i e') as [?|Ho']; [lia|done|by left|]. right.
  rewrite lookup_delete_ne; [done|]. intros E. rewrite E, Ho' in Ho. simplify_eq. lia.
Qed.

Lemma disown_refs s pd own f n lo :
  0 ≤ lo → lo + Z.of_nat n ≤ 1024 → dir_owns s pd lo own →
  refs s own f = refs s (disown s pd n lo own) f + dir_refs s pd f n lo.
Proof.
  revert lo own. induction n as [|n IH]; intros lo own Hlo Hn Hd; cbn [disown dir_refs]; [lia|].
  assert (dir_owns s pd (lo + 1) own) as Hd1 by (intros i e Hi; apply Hd; lia).
  unfold table_refs. destruct (entry_at s pd lo) as [e|] eqn:He.
  2:{ rewrite (IH (lo + 1)) by (done || lia). lia. }
  case_decide as E; [rewrite (IH (lo + 1)) by (done || lia); lia|].
  destruct (dir_owns_step _ _ _ _ _ Hd ltac:(lia) He E) as [Ho Hd'].
  assert (refs s own f = cnt f (page s (GET_ADDR_FROM_ENTRY e)) +
    refs s (delete (GET_ADDR_FROM_ENTRY e) own) f) as -> by (exact (sumf_delete (λ pt, cnt f (page s pt)) _ _ _ Ho)).
  rewrite (IH (lo + 1) (delete _ own)) by (done || lia). lia.
Qed.

Lemma disown_sub s pd n lo own p w : disown s pd n lo own !! p = Some w → own !! p = Some w.
Proof.
  revert lo own. induction n as [|n IH]; intros lo own; cbn [disown]; [done|].
  intros Hp%IH. destruct (entry_at s pd lo); [|done]. case_decide; [done|].
  by apply lookup_delete_Some in Hp as [_ ?].
Qed.

Lemma disown_other s pd n lo own p w :
  0 ≤ lo → lo + Z.of_nat n ≤ 1024 → dir_owns s pd lo own → own !! p = Some w → w.1 ≠ pd →
  disown s pd n lo own !! p = Some w.
Proof.
  revert lo own. induction n as [|n IH]; intros lo own Hlo Hn Hd Hp Hw; cbn [disown]; [done|].
  assert (dir_owns s pd (lo + 1) own) as Hd1 by (intros i e Hi; apply Hd; lia).
  destruct (entry_at s pd lo) as [e|] eqn:He; [|apply IH; done || lia].
  case_decide as E; [apply IH; done || lia|].
  destruct (dir_owns_step _ _ _ _ _ Hd ltac:(lia) He E) as [Ho Hd'].
  apply IH; [lia|lia|done| |done]. rewrite lookup_delete_ne; [done|].
  intros Ep. rewrite Ep, Hp in Ho. by simplify_eq.
Qed.

Lemma disown_gone s pd n lo own i e :
  lo ≤ i < lo + Z.of_nat n → entry_at s pd i = Some e → e ≠ PAGE_DIR_ENTRY_DEFAULT →
  disown s pd n lo own !! GET_ADDR_FROM_ENTRY e = None.
Proof.
  revert lo own. induction n as [|n IH]; intros lo own Hi He Hne; cbn [disown]; [lia|].
  destruct (decide (i = lo)) as [->|]; [|apply IH; done || lia].
  rewrite He, decide_False by done. apply eq_None_not_Some. intros [w Hw%disown_sub].
  by rewrite lookup_delete_eq in Hw.
Qed.

(** The number of directory entries of user space.  It is sealed so that
    conversion does not unfold loops that many times. *)
Definition user_entries_aux : seal 1020%nat.
Proof. by eexists. Qed.
Definition user_entries : nat := user_entries_aux.(unseal).

Lemma user_entries_code :
  Z.to_nat (NUM_PAGE_TABLE_ENTRIES - KERNEL_MAP_NUM_ENTRIES) = user_entries.
Proof. unfold user_entries. by rewrite (seal_eq user_entries_aux). Qed.

Lemma user_entries_Z : Z.of_nat user_entries = 1020.
Proof. by rewrite <- user_entries_code. Qed.

(** What is left when directory [pd] and its tables are given up. *)
Definition disown_dir s (pd : Z) own : gmap Z (Z * Z) := disown s pd user_entries 4 own.

Lemma disown_dir_sub s pd own p w : disown_dir s pd own !! p = Some w → own !! p = Some w.
Proof. exact (disown_sub s pd user_entries 4 own p w). Qed.

Lemma disown_dir_none s pd own p : own !! p = None → disown_dir s pd own !! p = None.
Proof. intros Hp. apply eq_None_not_Some. intros [w Hw%disown_dir_sub]. congruence. Qed.

Lemma wf_release x s own pds fs pd :
  vm_wf x s own pds fs → pd ∈ pds →
  vm_wf (λ f, x f + dir_refs s pd f user_entries 4) s (disown_dir s pd own) (pds ∖ {[pd]}) fs.
Proof.
  intros Hwf Hpd. wf_open Hwf.
  assert (dir_owns s pd 4 own) as Hd by (intros i e Hi; by apply wf_dir0).
  assert (∀ f, refs s own f = refs s (disown_dir s pd own) f + dir_refs s pd f user_entries 4) as Hr
    by (intros f; apply (disown_refs s pd own f user_entries 4); [done|by rewrite user_entries_Z|exact Hd]).
  split; try done.
  - split; [apply wf_dmap0|]. intros t Ht. destruct (proj2 wf_dmap0 t Ht) as (? & ? & ?).
    split_and!; [done|by apply disown_dir_none|set_solver].
  - intros i t Hi Ht. destruct (wf_kern0 i t Hi Ht) as [Hk Hj]. split; [|done].
    intros q Hq. apply Hk. set_solver.
  - intros q [Hq _]%elem_of_difference. destruct (wf_pds0 q Hq). split; [done|by apply disown_dir_none].
  - intros pt q i Ho. pose proof (disown_dir_sub _ _ _ _ _ Ho) as Ho'.
    destruct (wf_own0 pt q i Ho') as (? & ? & Hi & e & He & Hne & ? & ? & Ea).
    assert (q ≠ pd) as Hq.
    { intros ->. subst pt. unfold disown_dir in Ho.
      rewrite (disown_gone s pd user_entries 4 own i e) in Ho;
        [done|rewrite user_entries_Z; lia|done|done]. }
    split_and!; [done| |lia..|by exists e]. by apply elem_of_difference; split; [|rewrite elem_of_singleton].
  - intros q i e [Hq Hne]%elem_of_difference Hi He. rewrite elem_of_singleton in Hne.
    destruct (wf_dir0 q i e Hq Hi He) as [?|Ho]; [by left|]. right.
    apply disown_other; [done|by rewrite user_entries_Z|done..].
  - intros pt j e [w Hw%disown_dir_sub]. apply wf_tab0. eauto.
  - intros f Hf. rewrite wf_count0, Hr by done. f_equal. lia.
  - intros f Hf. rewrite wf_free0, Hr by done. lia.
Qed.

Lemma cnt_take_S f (l : list Z) j e :
  l !! j = Some e →
  cnt f (take (S j) l) = cnt f (take j l) + (if decide (GET_ADDR_FROM_ENTRY e = f) then 1 else 0).
Proof. intros He. rewrite (take_S_r _ _ _ He), cnt_app. simpl. lia. Qed.

Lemma cnt_take_le f (l : list Z) j : cnt f (take j l) ≤ cnt f l.
Proof.
  rewrite <- (take_drop j l) at 2. rewrite cnt_app. pose proof (cnt_nonneg f (drop j l)). lia.
Qed.

Lemma good_pte_machine s s' e :
  machine_phys_frames (fa s') = machine_phys_frames (fa s) → good_pte s e → good_pte s' e.
Proof.
  intros E [->|(? & ? & ?)]; [by left|right]. split_and!; [done..|].
  by apply (is_frame_machine (fa s)).
Qed.

Lemma default_not_frame (a : falloc) f : is_frame a f → GET_ADDR_FROM_ENTRY PAGE_TABLE_ENTRY_DEFAULT ≠ f.
Proof. intros [_ Hr]. rewrite addr_default. unfold USER_MEM_START in Hr. lia. Qed.

(** The state after the first [j] entries of the table are dropped. *)
Definition dropped x s own pds (l : list Z) (j : Z) (s' : vm H) : Prop :=
  ∃ r a fs', s' = recount r a s ∧ machine_phys_frames a = machine_phys_frames (fa s) ∧
    vm_wf (λ f, x f - cnt f (take (Z.to_nat j) l)) s' own pds fs'.

Lemma drop_entry x s own pds l j e s1 :
  (∀ e, e ∈ l → good_pte s e) → (∀ f, is_frame (fa s) f → cnt f l ≤ x f) →
  0 ≤ j → l !! Z.to_nat j = Some e → dropped x s own pds l j s1 →
  ∃ s2, (if decide (e = PAGE_TABLE_ENTRY_DEFAULT) then mret tt
         else drop_frame true (GET_ADDR_FROM_ENTRY e)) s1 = Ok tt s2 ∧
        dropped x s own pds l (j + 1) s2.
Proof.
  intros Hgood Hx Hj He (r & a & fs1 & -> & Ea & Hwf).
  unfold dropped. replace (Z.to_nat (j + 1)) with (S (Z.to_nat j)) by lia.
  case_decide as Ed.
  - subst e. eexists. split; [done|]. exists r, a, fs1. split_and!; [done..|].
    eapply wf_ext; [done|]. intros f Hf. cbv beta.
    rewrite (cnt_take_S _ _ _ _ He), decide_False by (by eapply default_not_frame). lia.
  - destruct (Hgood e) as [?|(Hw & Hp & Hf)]; [by eapply list_elem_of_lookup_2|done|].
    set (f := GET_ADDR_FROM_ENTRY e) in *.
    assert (is_frame (fa (recount r a s)) f) as Hf' by (by apply (is_frame_machine (fa s))).
    destruct (drop_frame_ok _ _ _ _ _ true f Hwf Hf') as (r2 & a2 & Hrun & Ea2 & Hwf2).
    { pose proof (refs_nonneg (recount r a s) own f). pose proof (Hx f Hf).
      pose proof (cnt_take_le f l (S (Z.to_nat j))) as Hle.
      rewrite (cnt_take_S _ _ _ _ He), decide_True in Hle by done. lia. }
    eexists. split; [exact Hrun|]. eexists r2, a2, _. split_and!; [done|by rewrite Ea2|].
    eapply wf_ext; [exact Hwf2|]. intros g Hg. unfold bump_at.
    rewrite (cnt_take_S _ _ _ _ He). fold f.
    destruct (decide (g = f)) as [->|]; [rewrite decide_True by done|
      rewrite decide_False by congruence]; lia.
Qed.

Lemma free_page_table_ok x s own pds fs pt l :
  vm_wf x s own pds fs → pt ∈ kh_pages (kheap s) → ¬ in_use s own pds pt →
  kmem s !! pt = Some l → (∀ e, e ∈ l → good_pte s e) →
  (∀ f, is_frame (fa s) f → cnt f l ≤ x f) →
  ∃ r a fs', let s' := set_kheap (kh_sfree (kheap s) pt PAGE_SIZE)
                         (set_kmem (delete pt (kmem s)) (recount r a s)) in
    free_page_table pt s = Ok tt s' ∧ machine_phys_frames a = machine_phys_frames (fa s) ∧
    vm_wf (λ f, x f - cnt f l) s' own pds fs'.
Proof.
  intros Hwf Hpt Hnu Hl Hgood Hx.
  destruct (wf_page _ _ _ _ _ Hwf pt Hpt) as (_ & Hlow & l' & Hl' & Hlen).
  rewrite Hl in Hl'. injection Hl' as <-.
  unfold free_page_table. rewrite decide_False by (unfold NULL; lia).
  destruct (for_loop_ok (dropped x s own pds l) (λ i,
      e ← kread pt i;
      if decide (e = PAGE_TABLE_ENTRY_DEFAULT) then mret tt
      else drop_frame true (GET_ADDR_FROM_ENTRY e)) (Z.to_nat NUM_PAGE_TABLE_ENTRIES) 0 s)
    as (s1 & Hrun & r & a & fs1 & -> & Ea & Hwf1).
  - exists (frame_ref_count s), (fa s), fs. split_and!; [by destruct s|done|].
    eapply wf_ext; [done|]. intros f Hf. simpl. lia.
  - intros j s1 Hj Hd. change (0 + Z.of_nat (Z.to_nat NUM_PAGE_TABLE_ENTRIES)) with 1024 in Hj.
    destruct (lookup_Z l j) as [e He]; [lia|].
    rewrite (bind_ok _ _ _ e s1); [eapply drop_entry; [done|done|lia|done|done]|].
    destruct Hd as (r & a & fs1 & -> & _). apply kread_ok. by eapply (page_entry_at _ _ _ _ l); [|lia|].
  - exists r, a. eexists. split; [|split; [done|]].
    { rewrite (bind_ok _ _ _ _ _ Hrun). unfold sfree_page. rewrite bind_get. simpl.
      rewrite Hl. cbn [deref]. rewrite bind_mret, bind_modify. done. }
    change (0 + Z.of_nat (Z.to_nat NUM_PAGE_TABLE_ENTRIES)) with 1024 in Hwf1.
    rewrite take_ge in Hwf1 by lia.
    replace (set_kheap _ _) with (set_kheap (kh_sfree (kheap s) pt PAGE_SIZE)
      (set_kmem (delete pt (kmem (recount r a s))) (recount r a s))) by done.
    apply wf_kmem; [done|..]; rewrite kh_sfree_page by done.
    + intros p Hu. assert (p ≠ pt) by (by intros ->). split.
      * apply elem_of_difference. split; [|by rewrite elem_of_singleton].
        by apply (in_use_page _ _ _ _ _ _ Hwf1).
      * by rewrite lookup_delete_ne.
    + intros p [Hp Hne]%elem_of_difference. rewrite elem_of_singleton in Hne.
      rewrite lookup_delete_ne by done. by apply (wf_page _ _ _ _ _ Hwf).
Qed.

Lemma dir_refs_nonneg s pd f n lo : 0 ≤ dir_refs s pd f n lo.
Proof.
  revert lo. induction n as [|n IH]; intros lo; simpl; [done|]. specialize (IH (lo + 1)).
  unfold table_refs. destruct (entry_at s pd lo) as [e|]; [|lia].
  case_decide; [lia|]. pose proof (cnt_nonneg f (page s (GET_ADDR_FROM_ENTRY e))). lia.
Qed.

(** The tables of the entries below [i] of [pd]. *)
Definition table_below own (pd i p : Z) : Prop := ∃ i', own !! p = Some (pd, i') ∧ i' < i.

(** The state when the tables below [i] are freed. *)
Definition freeing s own pds (pd i : Z) (s' : vm H) : Prop :=
  ∃ r a h k fs', s' = set_kheap h (set_kmem k (recount r a s)) ∧
    machine_phys_frames a = machine_phys_frames (fa s) ∧
    vm_wf (λ f, dir_refs s pd f (Z.to_nat (1024 - i)) i) s'
      (disown_dir s pd own) (pds ∖ {[pd]}) fs' ∧
    (∀ p, ¬ table_below own pd i p → k !! p = kmem s !! p) ∧
    (∀ p, p ∈ kh_pages h ↔ p ∈ kh_pages (kheap s) ∧ ¬ table_below own pd i p).

(** A table that its directory no longer owns is out of use. *)
Lemma disowned_unused s own pds fs pd i e s' :
  vm_wf none s own pds fs → direct_map s' = direct_map s →
  own !! GET_ADDR_FROM_ENTRY e = Some (pd, i) →
  entry_at s pd i = Some e → e ≠ PAGE_DIR_ENTRY_DEFAULT →
  ¬ in_use s' (disown_dir s pd own) (pds ∖ {[pd]}) (GET_ADDR_FROM_ENTRY e).
Proof.
  intros Hwf Ed Ho He Hne Hu. destruct (wf_own _ _ _ _ _ Hwf _ _ _ Ho) as (_ & _ & Hi & _).
  destruct Hu as [Hu|[[Hu _]%elem_of_difference|Hu]].
  - unfold disown_dir in Hu. rewrite (disown_gone s pd user_entries 4 own i e) in Hu;
      [by destruct Hu|rewrite user_entries_Z; lia|done|done].
  - destruct (wf_pds _ _ _ _ _ Hwf _ Hu). congruence.
  - rewrite Ed in Hu. destruct (proj2 (wf_dmap _ _ _ _ _ Hwf) _ Hu) as (_ & ? & _). congruence.
Qed.

Lemma free_step s own pds fs pd i s1 :
  vm_wf none s own pds fs → pd ∈ pds → 4 ≤ i < 1024 → freeing s own pds pd i s1 →
  ∃ s2, (e ← kread pd i;
         if decide (e ≠ PAGE_DIR_ENTRY_DEFAULT) then free_page_table (GET_ADDR_FROM_ENTRY e)
         else mret tt) s1 = Ok tt s2 ∧ freeing s own pds pd (i + 1) s2.
Proof.
  intros Hwf Hpd Hi (r & a & h & k & fs1 & -> & Ea & Hwf1 & Hk & Hp).
  set (s1 := set_kheap h (set_kmem k (recount r a s))) in *.
  destruct (wf_pds _ _ _ _ _ Hwf pd Hpd) as [Hpdk Hpdo].
  destruct (entry_exists _ _ _ _ _ pd i Hwf Hpdk) as [e He]; [lia|].
  assert (entry_at s1 pd i = Some e) as He1.
  { rewrite (entry_at_ext s); [done|]. apply Hk. intros (i' & ? & _). congruence. }
  rewrite (bind_ok _ _ _ _ _ (kread_ok _ _ _ _ He1)).
  replace (Z.to_nat (1024 - i)) with (S (Z.to_nat (1024 - (i + 1)))) in Hwf1 by lia.
  cbn [dir_refs] in Hwf1. unfold table_refs in Hwf1. rewrite He in Hwf1.
  destruct (decide (e = PAGE_DIR_ENTRY_DEFAULT)) as [->|Ed];
    [rewrite decide_False by naive_solver|rewrite decide_True by done]; last first.
  - set (pt := GET_ADDR_FROM_ENTRY e) in *.
    destruct (wf_dir _ _ _ _ _ Hwf pd i e) as [?|Ho]; [done..|]. fold pt in Ho.
    assert (¬ table_below own pd i pt) as Hnb by (intros (i' & ? & ?); simplify_eq; lia).
    destruct (wf_own _ _ _ _ _ Hwf _ _ _ Ho) as (Hptk & _).
    destruct (wf_page _ _ _ _ _ Hwf pt Hptk) as (_ & _ & l & Hl & Hlen).
    assert (page s pt = l) as El by (unfold page; by rewrite Hl). rewrite El in Hwf1.
    destruct (free_page_table_ok _ s1 _ _ _ pt l Hwf1) as (r2 & a2 & fs2 & Hrun & Ea2 & Hwf2).
    + apply Hp. done.
    + by apply (disowned_unused s own pds fs pd i e).
    + change (k !! pt = Some l). by rewrite Hk.
    + intros e' He'. apply (good_pte_machine s); [done|].
      apply list_elem_of_lookup_1 in He' as [n Hn].
      apply (wf_tab _ _ _ _ _ Hwf pt (Z.of_nat n)); [by eauto|].
      apply (page_entry_at _ _ _ _ l); [done|lia|by rewrite Nat2Z.id].
    + intros f _. pose proof (dir_refs_nonneg s pd f (Z.to_nat (1024 - (i + 1))) (i + 1)). lia.
    + eexists. split; [exact Hrun|]. exists r2, a2, (kh_sfree h pt PAGE_SIZE), (delete pt k), fs2.
      split; [done|]. split; [by rewrite Ea2|].
      split; [eapply wf_ext; [exact Hwf2|]; intros f _; simpl; lia|].
      assert (∀ p, table_below own pd (i + 1) p ↔ table_below own pd i p ∨ p = pt) as Hb.
      { intros p. split.
        - intros (i' & Hi' & ?). destruct (decide (i' = i)) as [->|].
          + right. destruct (wf_own _ _ _ _ _ Hwf _ _ _ Hi') as (_ & _ & _ & e' & He' & _ & _ & _ & <-).
            rewrite He in He'. by injection He' as <-.
          + left. exists i'. split; [done|lia].
        - intros [(i' & ? & ?)| ->]; [exists i'|exists i]; split; done || lia. }
      split.
      * intros p Hnb'. rewrite Hb in Hnb'. rewrite lookup_delete_ne by naive_solver.
        apply Hk. naive_solver.
      * intros p. rewrite (kh_sfree_page h) by (by apply Hp). rewrite elem_of_difference.
        rewrite elem_of_singleton, Hp, Hb. naive_solver.
  - eexists. split; [done|]. exists r, a, h, k, fs1. split_and!; [done|done| |..].
    + eapply wf_ext; [exact Hwf1|]. intros f _. simpl. lia.
    + intros p Hnb. apply Hk. intros (i' & ? & ?). apply Hnb. exists i'. split; [done|lia].
    + intros p. rewrite Hp. split; intros [? Hnb]; (split; [done|]); intros (i' & Hi' & ?); apply Hnb;
        exists i'; (split; [done|]); [|lia].
      destruct (decide (i' = i)) as [->|]; [|lia].
      destruct (wf_own _ _ _ _ _ Hwf _ _ _ Hi') as (_ & _ & _ & e' & He' & ? & _). congruence.
Qed.

Lemma sfree_page_ok x s own pds fs p :
  vm_wf x s own pds fs → p ∈ kh_pages (kheap s) → ¬ in_use s own pds p →
  let s' := set_kheap (kh_sfree (kheap s) p PAGE_SIZE) (set_kmem (delete p (kmem s)) s) in
  sfree_page p s = Ok tt s' ∧ vm_wf x s' own pds fs.
Proof.
  intros Hwf Hp Hnu s'. destruct (wf_page _ _ _ _ _ Hwf p Hp) as (_ & _ & l & Hl & _). split.
  - unfold sfree_page. rewrite bind_get, Hl. cbn [deref]. by rewrite bind_mret, bind_modify.
  - apply wf_kmem; [done|..]; rewrite kh_sfree_page by done.
    + intros q Hq. assert (q ≠ p) by (by intros ->). split; [|by rewrite lookup_delete_ne].
      apply elem_of_difference. split; [by apply (in_use_page _ _ _ _ _ _ Hwf)|].
      by rewrite elem_of_singleton.
    + intros q [Hq Hne]%elem_of_difference. rewrite elem_of_singleton in Hne.
      rewrite lookup_delete_ne by done. by apply (wf_page _ _ _ _ _ Hwf).
Qed.

(** A page that stays in use when [pd] is given up. *)
Lemma in_use_release s own pds fs pd p :
  vm_wf none s own pds fs → in_use s (disown_dir s pd own) (pds ∖ {[pd]}) p →
  pd ∈ pds → in_use s own pds p ∧ p ≠ pd ∧ ∀ i, own !! p ≠ Some (pd, i).
Proof.
  intros Hwf Hu Hpd. destruct (wf_pds _ _ _ _ _ Hwf pd Hpd) as [_ Hpo].
  destruct Hu as [[w Hw]|[[Hp Hne]%elem_of_difference|Hd]].
  - pose proof (disown_dir_sub _ _ _ _ _ Hw) as Hw'. split_and!; [left; by eauto|congruence|].
    intros i Hi. destruct (wf_own _ _ _ _ _ Hwf _ _ _ Hi) as (_ & _ & Hr & e & He & Hne & _ & _ & <-).
    unfold disown_dir in Hw. rewrite (disown_gone s pd user_entries 4 own i e) in Hw;
      [done|rewrite user_entries_Z; lia|done|done].
  - rewrite elem_of_singleton in Hne. split_and!; [by right; left|done|].
    intros i Hi. destruct (wf_pds _ _ _ _ _ Hwf p Hp). congruence.
  - destruct (proj2 (wf_dmap _ _ _ _ _ Hwf) p Hd) as (_ & Ho & Hnp).
    split_and!; [by right; right|by intros ->|congruence].
Qed.

Lemma free_paging_info_ok s own pds fs pd :
  vm_wf none s own pds fs → pd ∈ pds →
  ∃ s' fs', free_paging_info pd s = Ok tt s' ∧
    vm_wf none s' (disown_dir s pd own) (pds ∖ {[pd]}) fs' ∧
    machine_phys_frames (fa s') = machine_phys_frames (fa s) ∧
    phys s' = phys s ∧ cr3 s' = cr3 s ∧ direct_map s' = direct_map s ∧
    (∀ p, in_use s (disown_dir s pd own) (pds ∖ {[pd]}) p → kmem s' !! p = kmem s !! p) ∧
    (∀ p, p ∈ kh_pages (kheap s') ↔
       p ∈ kh_pages (kheap s) ∧ p ≠ pd ∧ ∀ i, own !! p ≠ Some (pd, i)).
Proof.
  intros Hwf Hpd. destruct (wf_pds _ _ _ _ _ Hwf pd Hpd) as [Hpk Hpo].
  destruct (wf_page _ _ _ _ _ Hwf pd Hpk) as (_ & Hlow & _).
  unfold free_paging_info. rewrite decide_False by (unfold NULL; lia).
  rewrite user_entries_code. change KERNEL_MAP_NUM_ENTRIES with 4.
  destruct (for_loop_ok (freeing s own pds pd) (λ i,
        e ← kread pd i;
        if decide (e ≠ PAGE_DIR_ENTRY_DEFAULT) then free_page_table (GET_ADDR_FROM_ENTRY e)
        else mret tt) user_entries 4 s)
    as (s1 & Hrun & r & a & h & k & fs1 & -> & Ea & Hwf1 & Hk & Hp).
  - exists (frame_ref_count s), (fa s), (kheap s), (kmem s), fs.
    assert (∀ p, ¬ table_below own pd 4 p) as Hno.
    { intros p (i & Hi & ?). destruct (wf_own _ _ _ _ _ Hwf _ _ _ Hi) as (_ & _ & ? & _). lia. }
    split_and!; [by destruct s|done| |done|naive_solver].
    eapply wf_ext; [by apply (wf_release none)|]. intros f _. unfold none.
    by rewrite <- user_entries_code.
  - rewrite user_entries_Z. intros i s1 Hi. apply (free_step s own pds fs); [done|done|lia].
  - rewrite user_entries_Z in *. change (4 + 1020) with 1024 in *.
    set (s1 := set_kheap h (set_kmem k (recount r a s))) in *.
    assert (vm_wf none s1 (disown_dir s pd own) (pds ∖ {[pd]}) fs1) as Hwf1'
      by (eapply wf_ext; [exact Hwf1|done]).
    assert (∀ p, table_below own pd 1024 p ↔ ∃ i, own !! p = Some (pd, i)) as Hb.
    { intros p. split; [intros (i & ? & _); by exists i|]. intros [i Hi]. exists i.
      split; [done|]. by destruct (wf_own _ _ _ _ _ Hwf _ _ _ Hi) as (_ & _ & ? & _); lia. }
    assert (¬ table_below own pd 1024 pd) as Hpb by (rewrite Hb; intros [i Hi]; congruence).
    destruct (sfree_page_ok none s1 _ _ fs1 pd Hwf1') as [Hfree Hwf2].
    { by apply Hp. }
    { intros Hu. by destruct (in_use_release s own pds fs pd pd Hwf Hu Hpd) as (_ & ? & _). }
    eexists _, fs1. split.
    { rewrite (bind_ok _ _ _ _ _ Hrun). unfold free_page_directory.
      rewrite decide_False by (unfold NULL; lia). exact Hfree. }
    split_and!; [exact Hwf2|exact Ea|done|done|done|..].
    + intros p Hu. destruct (in_use_release s own pds fs pd p Hwf Hu Hpd) as (_ & Hne & Hno).
      change (delete pd k !! p = kmem s !! p). rewrite lookup_delete_ne by done.
      apply Hk. rewrite Hb. naive_solver.
    + intros p. change (p ∈ kh_pages (kh_sfree h pd PAGE_SIZE) ↔
        p ∈ kh_pages (kheap s) ∧ p ≠ pd ∧ ∀ i, own !! p ≠ Some (pd, i)).
      rewrite (kh_sfree_page h) by (by apply Hp).
      rewrite elem_of_difference, elem_of_singleton, Hp, Hb. naive_solver.
Qed.

End pages.
