(* ===== verification/VMMap.v ===== *)
(** * Virtual memory: mapping pages

    The effect of writing an entry on every translation, and the loop of
    [map_segment]: on success every page of the range is mapped, pages that
    were mapped keep their entry, new pages are zero-filled private frames,
    and nothing else changes; when memory runs out the pages mapped so far
    stay and the invariant still holds. *)

From S2P Require Import Prelude Locks FrameAlloc Paging VM VMInv VMPages.

Section map.
Context {H : Type} `{KernelHeapSpec H}.
Implicit Types (s : vm H) (own : gmap Z (Z * Z)) (pds : gset Z) (fs : list Z).

(** ** Translations after a write *)
Lemma pte_at_dir s pd va d :
  entry_at s pd (GET_PD_INDEX va) = Some d → present d = true →
  pte_at s pd va = e ← entry_at s (GET_ADDR_FROM_ENTRY d) (GET_PT_INDEX va);
                   if present e then Some e else None.
Proof. intros He Hp. unfold pte_at. rewrite He. simpl. by rewrite Hp. Qed.

Lemma table_of_entry x s own pds fs pd i d :
  vm_wf x s own pds fs → pd ∈ pds → 4 ≤ i < 1024 → entry_at s pd i = Some d →
  d ≠ PAGE_DIR_ENTRY_DEFAULT →
  own !! GET_ADDR_FROM_ENTRY d = Some (pd, i) ∧ present d = true ∧
  GET_ADDR_FROM_ENTRY d ∈ kh_pages (kheap s).
Proof.
  intros Hwf Hpd Hi He Hne. destruct (wf_dir _ _ _ _ _ Hwf pd i d) as [?|Ho]; [done..|].
  destruct (wf_own _ _ _ _ _ Hwf _ _ _ Ho) as (? & _ & _ & e & He' & _ & _ & Hp & _).
  rewrite He in He'. by injection He' as <-.
Qed.

Lemma kernel_table x s own pds fs pd i d :
  vm_wf x s own pds fs → pd ∈ pds → 0 ≤ i < 4 → entry_at s pd i = Some d →
  GET_ADDR_FROM_ENTRY d ∈ direct_map s ∧ direct_map s !! Z.to_nat i = Some (GET_ADDR_FROM_ENTRY d).
Proof.
  intros Hwf Hpd Hi He. destruct (lookup_Z (direct_map s) i) as [t Ht].
  { rewrite (proj1 (wf_dmap _ _ _ _ _ Hwf)). lia. }
  assert (t ∈ direct_map s) as Hin by (by eapply list_elem_of_lookup_2).
  destruct (wf_kern _ _ _ _ _ Hwf i t) as [Hk _]; [lia|done|].
  rewrite Hk in He by done. injection He as <-.
  destruct (proj2 (wf_dmap _ _ _ _ _ Hwf) t Hin) as (Htp & _ & _).
  destruct (wf_page _ _ _ _ _ Hwf t Htp) as (? & Hr & _). unfold USER_MEM_START in Hr.
  unfold kernel_pde. by rewrite addr_of_entry by (done || lia).
Qed.

(** Writing entry [j] of the table of entry [i] of [pd] changes the translation
    of one page of [pd] and no other. *)
Lemma pte_at_upd x s own pds fs pt pd i j v e pd' va :
  vm_wf x s own pds fs → own !! pt = Some (pd, i) → entry_at s pt j = Some e →
  pd' ∈ pds → word va →
  pte_at (upd_entry pt j v s) pd' va =
  if decide (pd' = pd ∧ GET_PD_INDEX va = i ∧ GET_PT_INDEX va = j)
  then (if present v then Some v else None) else pte_at s pd' va.
Proof.
  intros Hwf Ho Hj Hpd' Hva. destruct (wf_own _ _ _ _ _ Hwf _ _ _ Ho) as
    (Hptk & Hpd & Hi & d & Hd & Hne & Hdw & Hdp & Hda).
  assert (pd' ≠ pt) as Hpt.
  { intros ->. destruct (wf_pds _ _ _ _ _ Hwf pt Hpd'). congruence. }
  assert (∀ q k, q ≠ pt → entry_at (upd_entry pt j v s) q k = entry_at s q k) as Hother.
  { intros q k Hq. rewrite entry_at_upd by eauto. by rewrite decide_False by naive_solver. }
  case_decide as E.
  - destruct E as (-> & <- & <-). rewrite (pte_at_dir _ _ _ d) by (rewrite ?Hother; done).
    rewrite Hda, entry_at_upd by eauto. by rewrite decide_True.
  - unfold pte_at. rewrite Hother by done.
    destruct (entry_at s pd' (GET_PD_INDEX va)) as [d'|] eqn:Hd'; [|done]. simpl.
    destruct (present d') eqn:Hp'; [|done]. pose proof (pd_index_range va Hva).
    destruct (decide (GET_PD_INDEX va < 4)) as [Hlo|Hhi].
    + rewrite Hother; [done|]. intros E'.
      destruct (kernel_table x s own pds fs pd' (GET_PD_INDEX va) d') as [Hin _]; [done|done|lia|done|].
      destruct (proj2 (wf_dmap _ _ _ _ _ Hwf) _ Hin) as (_ & ? & _). congruence.
    + destruct (wf_dir _ _ _ _ _ Hwf pd' (GET_PD_INDEX va) d') as [->|Ho']; [done|lia|done|done|].
      rewrite entry_at_upd by eauto. rewrite decide_False; [done|]. intros [E1 E2].
      rewrite E1, Ho in Ho'. naive_solver.
Qed.

(** Attaching an empty table changes no translation. *)
Lemma pte_at_attach x s own pds fs a pd i v pd' va :
  vm_wf x s own pds fs → kmem s !! a = Some empty_table → a ∉ pds → a ∉ direct_map s →
  own !! a = None → pd ∈ pds → 4 ≤ i < 1024 → entry_at s pd i = Some PAGE_DIR_ENTRY_DEFAULT →
  GET_ADDR_FROM_ENTRY v = a → pd' ∈ pds → word va →
  pte_at (upd_entry pd i v s) pd' va = pte_at s pd' va.
Proof.
  intros Hwf Ha Hapd Hadm Hao Hpd Hi He Hva' Hpd' Hva.
  unfold pte_at. rewrite entry_at_upd by eauto.
  assert (∀ q k, q ≠ pd → entry_at (upd_entry pd i v s) q k = entry_at s q k) as Hother.
  { intros q k Hq. rewrite entry_at_upd by eauto. by rewrite decide_False by naive_solver. }
  case_decide as E.
  - destruct E as [-> ->]. rewrite He. simpl. destruct (present v); [|done].
    assert (entry_at (upd_entry pd i v s) (GET_ADDR_FROM_ENTRY v) (GET_PT_INDEX va)
            = Some PAGE_TABLE_ENTRY_DEFAULT) as ->; [|done].
    rewrite Hva', Hother by congruence. pose proof (pt_index_range va Hva).
    apply (page_entry_at _ _ _ _ empty_table); [done|lia|]. apply lookup_replicate_2. lia.
  - destruct (entry_at s pd' (GET_PD_INDEX va)) as [d|] eqn:Hd; [|done]. simpl.
    destruct (present d) eqn:Hp; [|done]. pose proof (pd_index_range va Hva).
    rewrite Hother; [done|]. intros E'.
    destruct (decide (GET_PD_INDEX va < 4)) as [Hlo|Hhi].
    + destruct (kernel_table x s own pds fs pd' (GET_PD_INDEX va) d) as [Hin _]; [done|done|lia|done|].
      destruct (proj2 (wf_dmap _ _ _ _ _ Hwf) _ Hin) as (_ & _ & ?). congruence.
    + destruct (wf_dir _ _ _ _ _ Hwf pd' (GET_PD_INDEX va) d) as [->|Ho]; [done|lia|done|done|].
      destruct (wf_pds _ _ _ _ _ Hwf pd Hpd). congruence.
Qed.

(** ** Adding pages to an address space *)
Definition page_of (va : Z) : Z := va - va mod 4096.

(** The frames taken from the free list have one reference, the others as many
    as before. *)
Definition taken_once s fs s' own own' fs' : Prop :=
  ∀ f, is_frame (fa s) f →
    refs s' own' f = refs s own f + (if decide (f ∈ fs ∧ f ∉ fs') then 1 else 0).

Lemma taken_once_refl s own fs s' own' :
  (∀ f, is_frame (fa s) f → refs s' own' f = refs s own f) → taken_once s fs s' own own' fs.
Proof. intros Hr f Hf. rewrite Hr, decide_False by (done || naive_solver). lia. Qed.

Lemma taken_once_trans s own fs s1 own1 fs1 s2 own2 fs2 :
  machine_phys_frames (fa s1) = machine_phys_frames (fa s) →
  (∀ f, f ∈ fs1 → f ∈ fs) → (∀ f, f ∈ fs2 → f ∈ fs1) →
  taken_once s fs s1 own own1 fs1 → taken_once s1 fs1 s2 own1 own2 fs2 →
  taken_once s fs s2 own own2 fs2.
Proof.
  intros Hm Hs1 Hs2 Ht1 Ht2 f Hf. rewrite Ht2 by (by apply (is_frame_machine (fa s))).
  rewrite Ht1 by done. repeat case_decide; try lia; naive_solver.
Qed.

(** [s'] extends [s] with zero-filled private pages in [lo, hi) of [pd]. *)
Record extends s own fs s' own' fs' pds (pd lo hi flags : Z) : Prop := {
  ex_wf : vm_wf none s' own' pds fs';
  ex_cow : cow_ok s' own';
  ex_cr3 : cr3 s' = cr3 s;
  ex_machine : machine_phys_frames (fa s') = machine_phys_frames (fa s);
  ex_sub : ∀ f, f ∈ fs' → f ∈ fs;
  ex_phys : ∀ f, f ∉ fs → phys s' !! f = phys s !! f;
  ex_pte : ∀ pd' va, pd' ∈ pds → word va →
    pte_at s' pd' va = pte_at s pd' va ∨
    (pd' = pd ∧ lo ≤ page_of va < hi ∧ pte_at s pd va = None ∧
     ∃ f, f ∈ fs ∧ f ∉ fs' ∧ pte_at s' pd va = Some (Z.lor f flags) ∧ frame_data s' f = ∅);
  ex_refs : taken_once s fs s' own own' fs';
}.

Lemma extends_refl s own fs pds pd lo hi flags :
  vm_wf none s own pds fs → cow_ok s own → extends s own fs s own fs pds pd lo hi flags.
Proof. intros. split; try done; [by left|]. by apply taken_once_refl. Qed.

Lemma extends_trans s own fs s1 own1 fs1 s2 own2 fs2 pds pd lo mid mid' hi flags :
  extends s own fs s1 own1 fs1 pds pd lo mid flags →
  extends s1 own1 fs1 s2 own2 fs2 pds pd mid' hi flags → lo ≤ mid' → mid ≤ hi →
  extends s own fs s2 own2 fs2 pds pd lo hi flags.
Proof.
  intros E1 E2 Hm Hm'. destruct E1 as [_ _ Hcr1 Hma1 Hsub1 Hph1 Hpte1 Href1].
  destruct E2 as [Hwf2 Hcow2 Hcr2 Hma2 Hsub2 Hph2 Hpte2 Href2].
  split; [done|done|congruence|congruence|by eauto| | |by eapply taken_once_trans].
  - intros f Hf. rewrite Hph2 by naive_solver. by apply Hph1.
  - intros pd' va Hpd' Hva.
    destruct (Hpte1 pd' va Hpd' Hva) as [Heq1|(-> & Hr1 & Hn1 & f & Hf & Hf1 & Hp1 & Hd1)].
    + destruct (Hpte2 pd' va Hpd' Hva) as [Heq2|(-> & Hr2 & Hn2 & f & Hf & Hf1 & Hp & Hd)].
      * left. congruence.
      * right. split_and!; [done|lia|lia|congruence|]. exists f. split_and!; [by apply Hsub1|done..].
    + right. split_and!; [done|lia|lia|done|]. exists f. split_and!; [done|naive_solver| |].
      * destruct (Hpte2 pd va Hpd' Hva) as [->|(_ & _ & ? & _)]; [done|congruence].
      * unfold frame_data in *. by rewrite Hph2.
Qed.

(** The reference counts and writable entries of a state in which one empty
    table was attached are unchanged. *)
Lemma cnt_empty_table a f : is_frame a f → cnt f empty_table = 0.
Proof.
  intros Hf. apply cnt_zero. intros e He%elem_of_replicate. destruct He as [-> _].
  by eapply default_not_frame.
Qed.

Lemma user_pde_facts a :
  a mod 4096 = 0 → 0 < a < USER_MEM_START →
  let v := Z.lor a USER_PD_ENTRY_FLAGS in
  v ≠ PAGE_DIR_ENTRY_DEFAULT ∧ word v ∧ present v = true ∧ GET_ADDR_FROM_ENTRY v = a.
Proof.
  intros Ha Hr v. unfold USER_MEM_START in Hr. split_and!.
  - unfold v. rewrite lor_page by done. change USER_PD_ENTRY_FLAGS with 7.
    unfold PAGE_DIR_ENTRY_DEFAULT. lia.
  - apply word_lor; unfold word; [lia|done].
  - by apply test_or_sub.
  - apply addr_of_entry; [done|lia|done].
Qed.

Lemma cow_attach s own a w pd i v :
  cow_ok s own → own !! a = None → own !! pd = None → a ≠ pd →
  kmem s !! a = Some empty_table → is_Some (entry_at s pd i) →
  (∀ pt j e, is_Some (own !! pt) → entry_at s pt j = Some e → good_pte s e) →
  cow_ok (upd_entry pd i v s) (<[a := w]> own).
Proof.
  intros Hcow Hao Hpo Hne Hl He Hgood pt j e Ho Hj Hd Hw.
  rewrite refs_upd_other by (by rewrite lookup_insert_ne).
  assert (pt ≠ pd) as Hpt by (intros ->; rewrite lookup_insert_ne, Hpo in Ho by done; by destruct Ho).
  rewrite entry_at_upd, decide_False in Hj by (done || naive_solver).
  rewrite lookup_insert in Ho. case_decide as Ea.
  - subst pt. apply entry_at_page in Hj as (_ & Hj & Hk). rewrite Hl in Hk.
    injection Hk as Hk. rewrite <- Hk in Hj. by apply lookup_replicate in Hj as [-> _].
  - unfold refs. rewrite sumf_insert by done. unfold page at 1. rewrite Hl.
    destruct (Hgood pt j e Ho Hj) as [?|(_ & _ & Hf)]; [done|].
    cbn [default]. rewrite (cnt_empty_table (fa s)) by done. by apply (Hcow pt j).
Qed.

Lemma cow_ext s s' own :
  (∀ p, is_Some (own !! p) → kmem s' !! p = kmem s !! p) → cow_ok s own → cow_ok s' own.
Proof.
  intros Hk Hcow pt j e Ho Hj Hd Hw. rewrite (refs_ext s s') by done.
  apply (Hcow pt j); try done. by rewrite <- (entry_at_ext s s') by (by apply Hk).
Qed.

Lemma ensure_table s own pds fs pd va d flags lo hi :
  vm_wf none s own pds fs → cow_ok s own → pd ∈ pds → word va → USER_MEM_START ≤ va →
  entry_at s pd (GET_PD_INDEX va) = Some d →
  ∃ b s1 own1,
    (if decide (d = PAGE_DIR_ENTRY_DEFAULT) then
       new_pt ← create_page_table;
       if decide (new_pt ≠ NULL) then
         kwrite pd (GET_PD_INDEX va) (Z.lor new_pt USER_PD_ENTRY_FLAGS) ;; mret true
       else mret false
     else mret true) s = Ok b s1 ∧
    extends s own fs s1 own1 fs pds pd lo hi flags ∧ fa s1 = fa s ∧ phys s1 = phys s ∧
    (b = true → ∃ d', entry_at s1 pd (GET_PD_INDEX va) = Some d' ∧ d' ≠ PAGE_DIR_ENTRY_DEFAULT).
Proof.
  intros Hwf Hcow Hpd Hva Huser He. apply pd_index_user in Huser; [|done].
  change KERNEL_MAP_NUM_ENTRIES with 4 in Huser. pose proof (pd_index_range va Hva).
  case_decide as Ed; [subst d|exists true, s, own; split_and!; [done|by apply extends_refl|done..|by eauto]].
  destruct (create_page_table_ok _ _ _ _ _ Hwf) as (a & s1 & Hrun & Hwf1 & Hcase).
  rewrite (bind_ok _ _ _ _ _ Hrun). destruct Hcase as [[-> [h [-> _]]]|Hnp].
  { rewrite decide_False by naive_solver. exists false, (set_kheap h s), own.
    split_and!; [done| |done..].
    split; try done; [by left|by apply taken_once_refl]. }
  destruct (np_shape _ _ _ _ _ _ Hnp) as (h & k & ->).
  rewrite decide_True by apply Hnp. set (s1 := set_kheap h (set_kmem k s)) in *.
  assert (a ∈ kh_pages (kheap s1)) as Hak
    by (rewrite (np_pages _ _ _ _ _ _ Hnp); by apply elem_of_union_l, elem_of_singleton).
  pose proof (np_unused _ _ _ _ _ _ Hnp) as Hnu.
  assert (own !! a = None ∧ a ∉ pds ∧ a ∉ direct_map s1) as (Hao & Hapd & Hadm).
  { split_and!; [apply eq_None_not_Some|..]; intros ?; apply Hnu; [by left|by right; left|by right; right]. }
  assert (kmem s1 !! a = Some empty_table) as Hal
    by (rewrite (np_kmem _ _ _ _ _ _ Hnp); apply lookup_insert_eq).
  destruct (wf_page _ _ _ _ _ Hwf1 a Hak) as (Ham & Har & _).
  destruct (user_pde_facts a Ham Har) as (Hv0 & Hvw & Hvp & Hva').
  assert (∀ p, in_use s own pds p → kmem s1 !! p = kmem s !! p) as Hsame.
  { intros p Hu. rewrite (np_kmem _ _ _ _ _ _ Hnp). rewrite lookup_insert_ne; [done|].
    intros <-. by apply Hnu. }
  assert (entry_at s1 pd (GET_PD_INDEX va) = Some PAGE_DIR_ENTRY_DEFAULT) as He1.
  { rewrite (entry_at_ext s); [done|]. apply Hsame. by right; left. }
  rewrite (bind_ok _ _ _ _ _ (kwrite_ok _ _ _ _ (mk_is_Some _ _ He1))).
  set (v := Z.lor a USER_PD_ENTRY_FLAGS) in *.
  assert (vm_wf none (upd_entry pd (GET_PD_INDEX va) v s1)
            (<[a := (pd, GET_PD_INDEX va)]> own) pds fs) as Hwf2.
  { eapply wf_ext.
    - apply (wf_attach none s1 own pds fs a empty_table); try done; [|lia].
      intros e He'%elem_of_replicate. left. apply He'.
    - intros f Hf. unfold none. by rewrite (cnt_empty_table (fa s1)). }
  eexists true, _, _. split; [done|]. split; [split; try done|].
  - apply cow_attach; [|done|by apply (wf_pds _ _ _ _ _ Hwf1 pd)|congruence|done|by eauto|].
    + apply (cow_ext s); [|done]. intros p Hp. apply Hsame. by left.
    + intros pt j e Ho Hj. by apply (wf_tab _ _ _ _ _ Hwf1 pt j).
  - intros pd' va' Hpd' Hva2. left. rewrite (pte_at_attach none s1 own pds fs a) by (done || lia).
    by apply (pte_at_same none s s1 own pds fs).
  - apply taken_once_refl. intros f Hf.
    rewrite refs_upd_other by (rewrite lookup_insert_ne by congruence; apply (wf_pds _ _ _ _ _ Hwf1 pd Hpd)).
    unfold refs. rewrite sumf_insert by done. unfold page at 1. rewrite Hal. cbn [default].
    rewrite (cnt_empty_table (fa s)) by done. rewrite Z.add_0_l. apply sumf_ext. intros p Hp.
    unfold page. by rewrite Hsame by (by left).
  - split; [done|]. split; [done|]. intros _. exists v. rewrite entry_at_upd by eauto.
    by rewrite decide_True.
Qed.

Lemma frame_entry a f flags :
  machine_ok a → is_frame a f → 0 ≤ flags < 4096 → present flags = true →
  let v := Z.lor f flags in
  v ≠ PAGE_TABLE_ENTRY_DEFAULT ∧ word v ∧ present v = true ∧ GET_ADDR_FROM_ENTRY v = f.
Proof.
  intros Hm [Ha Hr] Hfl Hp v. assert (word f) as Hw.
  { unfold word, machine_ok, USER_MEM_START, PAGE_SIZE in *. rewrite FREE_FRAMES_COUNT_eq in Hr. lia. }
  split_and!.
  - unfold v. rewrite lor_page by done. unfold PAGE_TABLE_ENTRY_DEFAULT, USER_MEM_START in *. lia.
  - apply word_lor; [done|]. unfold word. lia.
  - unfold v, present, test in *. apply bool_decide_true. apply bool_decide_eq_true in Hp.
    rewrite Z.land_lor_distr_l. intros E. apply Z.lor_eq_0_iff in E. tauto.
  - by apply addr_of_entry.
Qed.

(** Mapping a fresh frame through an empty entry keeps copy-on-write safety. *)
Lemma cow_fresh s own pt j v :
  cow_ok s own → is_Some (own !! pt) → entry_at s pt j = Some PAGE_TABLE_ENTRY_DEFAULT →
  (∀ g, g ≠ 0 → refs s own g = 0 → GET_ADDR_FROM_ENTRY v = g →
     (∀ p i e, is_Some (own !! p) → entry_at s p i = Some e → good_pte s e) →
     cow_ok (upd_entry pt j v s) own).
Proof.
  intros Hcow Ho Hj g Hg Href Hv Hgood p i e Hp Hi Hd Hw.
  rewrite (refs_upd_own _ _ _ _ _ PAGE_TABLE_ENTRY_DEFAULT) by done.
  rewrite addr_default. rewrite entry_at_upd in Hi by eauto. case_decide as E.
  - injection Hi as <-. rewrite Hv, Href, decide_False, decide_True by done. lia.
  - assert (GET_ADDR_FROM_ENTRY v ≠ GET_ADDR_FROM_ENTRY e) as Hne.
    { pose proof (refs_pos s own p i e Hp Hi). intros E'. rewrite <- E', Hv in *. lia. }
    rewrite (Hcow p i e) by done. rewrite (decide_False (P := GET_ADDR_FROM_ENTRY v = _)) by done.
    destruct (Hgood p i e Hp Hi) as [?|(_ & _ & Hf)]; [done|].
    rewrite decide_False; [lia|]. destruct Hf as [_ Hr]. unfold USER_MEM_START in Hr. lia.
Qed.

Lemma same_page va b : word va → word b → b mod 4096 = 0 →
  (GET_PD_INDEX va = GET_PD_INDEX b ∧ GET_PT_INDEX va = GET_PT_INDEX b) ↔ page_of va = b.
Proof. intros Hva Hb Hm. rewrite indices_page by done. unfold page_of. dlia. Qed.

Lemma ensure_frame s own pds fs pd b pt e flags :
  vm_wf none s own pds fs → cow_ok s own → pd ∈ pds → cr3 s = pd →
  word b → b mod 4096 = 0 → USER_MEM_START ≤ b → 0 ≤ flags < 4096 → present flags = true →
  own !! pt = Some (pd, GET_PD_INDEX b) → entry_at s pt (GET_PT_INDEX b) = Some e →
  ∃ ok s1 fs1,
    (if decide (e = PAGE_TABLE_ENTRY_DEFAULT) then
       new_frame ← frames allocate_frame;
       if decide (new_frame ≠ NULL) then
         frames (lock_frame new_frame) ;; add_ref new_frame 1 ;;
         frames (unlock_frame new_frame) ;;
         kwrite pt (GET_PT_INDEX b) (Z.lor new_frame flags) ;;
         zero_fill b ;; mret true
       else mret false
     else mret true) s = Ok ok s1 ∧
    extends s own fs s1 own fs1 pds pd b (b + 1) flags ∧
    (ok = true → ∃ e', entry_at s1 pt (GET_PT_INDEX b) = Some e' ∧ present e' = true).
Proof.
  intros Hwf Hcow Hpd Hcr Hb Hbm Hbu Hfl Hflp Hpt He.
  case_decide as Ed; last first.
  { exists true, s, fs. split_and!; [done|by apply extends_refl|]. intros _. exists e.
    split; [done|]. by destruct (wf_tab _ _ _ _ _ Hwf pt (GET_PT_INDEX b) e) as [?|(_ & ? & _)]; [eauto|..]. }
  subst e. destruct fs as [|f fs].
  { rewrite (bind_ok _ _ _ _ _ (alloc_none _ _ _ _ Hwf)), decide_False by naive_solver.
    exists false, s, []. split_and!; [done|by apply extends_refl|done]. }
  destruct (fresh_frame_ok _ _ _ _ _ _ Hwf) as (nxt & r & _ & Ha & Hf & Hz & _ & Hlock & Hwf1).
  pose proof (wf_machine _ _ _ _ _ Hwf) as Hm.
  destruct (frame_checks _ _ Hm Hf) as (_ & Hnull & _ & _).
  destruct (frame_entry _ _ _ Hm Hf Hfl Hflp) as (Hv0 & Hvw & Hvp & Hva).
  set (v := Z.lor f flags) in *. pose proof (pt_index_range b Hb) as Hj.
  rewrite (bind_ok _ _ _ _ _ Ha), decide_True by done.
  rewrite (bind_ok3 _ _ _ _ _ _ _ Hlock).
  set (s1 := recount r (fa (set_fa (set_head nxt (fa s)) s)) s) in *.
  rewrite (bind_ok _ _ _ _ _ (kwrite_ok s1 _ _ v (mk_is_Some _ _ He))).
  set (s2 := upd_entry pt (GET_PT_INDEX b) v s1).
  assert (good_pte s1 v) as Hgv by (right; split_and!; [done|done|by rewrite Hva]).
  assert (vm_wf none s2 own pds fs) as Hwf2.
  { eapply wf_ext; [apply (wf_write_pte _ _ _ _ _ pt (GET_PT_INDEX b) PAGE_TABLE_ENTRY_DEFAULT v Hwf1); [by eauto|exact He|done|done]|].
    intros g Hg. unfold moved, bump_at, none. rewrite Hva.
    rewrite (decide_False (P := GET_ADDR_FROM_ENTRY PAGE_TABLE_ENTRY_DEFAULT = g))
      by (by eapply default_not_frame).
    destruct (decide (g = f)) as [->|]; [by rewrite decide_True|by rewrite decide_False]. }
  assert (cow_ok s2 own) as Hcow2.
  { apply (cow_fresh s1 own pt (GET_PT_INDEX b) v Hcow (mk_is_Some _ _ Hpt) He f Hnull); [|done|].
    { change (refs s own f = 0). unfold none in Hz. lia. }
    intros p i e Hp Hi. apply (wf_tab _ _ _ _ _ Hwf1 p i e Hp Hi). }
  assert (∀ pd' va, pd' ∈ pds → word va → pte_at s2 pd' va =
    if decide (pd' = pd ∧ page_of va = b) then Some v else pte_at s pd' va) as Hpte.
  { intros pd' va Hpd' Hva'. unfold s2.
    rewrite (pte_at_upd _ s1 own pds fs pt pd (GET_PD_INDEX b) _ v _ pd' va Hwf1 Hpt He) by done.
    rewrite Hvp. pose proof (same_page va b Hva' Hb Hbm).
    case_decide; case_decide; [done|naive_solver..|done]. }
  unfold zero_fill. rewrite decide_False by (unfold NULL, USER_MEM_START in *; lia).
  assert (translate s2 (cr3 s2) b = Some f) as Htr.
  { change (cr3 s2) with (cr3 s). rewrite Hcr. unfold translate.
    rewrite Hpte by done. rewrite decide_True by (unfold page_of; split; [done|lia]).
    simpl. by rewrite Hva. }
  rewrite (bind_ok _ _ _ tt (set_phys (<[f := ∅]> (phys s)) s2)); last first.
  { unfold copy_to_page. rewrite bind_get, Htr. done. }
  pose proof (fs_nodup _ _ (wf_alloc _ _ _ _ _ Hwf)) as [Hnin _]%NoDup_cons.
  exists true, (set_phys (<[f := ∅]> (phys s)) s2), fs. split_and!; [done| |].
  - split; try done.
    + by destruct Hwf2.
    + intros g Hg. by right.
    + intros g Hg. cbn. rewrite lookup_insert_ne; [done|]. intros ->. apply Hg. by left.
    + intros pd' va Hpd' Hva'. change (pte_at (set_phys _ s2) pd' va) with (pte_at s2 pd' va).
      rewrite Hpte by done. case_decide as E; [|by left]. destruct E as [-> Hpg]. right.
      split_and!; [done|lia|lia| |].
      * apply (same_page va b Hva' Hb Hbm) in Hpg as [E1 E2].
        destruct (wf_own _ _ _ _ _ Hwf _ _ _ Hpt) as (_ & _ & _ & d & Hd & _ & _ & Hdp & Hda).
        rewrite (pte_at_dir _ _ _ d) by (by rewrite ?E1). by rewrite E2, Hda, He.
      * exists f. split_and!; [by left|done| |].
        { change (pte_at s2 pd va = Some v). rewrite Hpte by done. by rewrite decide_True. }
        unfold frame_data. cbn. by rewrite lookup_insert_eq.
    + intros g Hg. change (refs (set_phys _ s2) own g) with (refs s2 own g). unfold s2.
      rewrite (refs_upd_own _ _ _ _ _ PAGE_TABLE_ENTRY_DEFAULT) by done.
      rewrite (decide_False (P := GET_ADDR_FROM_ENTRY PAGE_TABLE_ENTRY_DEFAULT = g))
        by (by eapply default_not_frame).
      change (refs s1 own g) with (refs s own g). rewrite Hva.
      destruct (decide (f = g)) as [<-|Hne'].
      * rewrite decide_True by (split; [by left|done]). lia.
      * rewrite decide_False by (intros [[->|?]%elem_of_cons ?]; done). lia.
  - intros _. exists v. split; [|done]. change (entry_at (set_phys _ s2)) with (entry_at s2).
    unfold s2. rewrite entry_at_upd by eauto. by rewrite decide_True.
Qed.

(** Pages that are mapped stay mapped. *)
Lemma extends_mapped s own fs s' own' fs' pds pd lo hi flags va :
  extends s own fs s' own' fs' pds pd lo hi flags → pd ∈ pds → word va →
  is_Some (pte_at s pd va) → is_Some (pte_at s' pd va).
Proof.
  intros [_ _ _ _ _ _ Hpte _] Hpd Hva Hs.
  destruct (Hpte pd va Hpd Hva) as [->|(_ & _ & Hn & _)]; [done|].
  rewrite Hn in Hs. by destruct Hs.
Qed.

Lemma map_pages_ok fuel s own pds fs pd b hi flags :
  vm_wf none s own pds fs → cow_ok s own → pd ∈ pds → cr3 s = pd →
  word b → b mod 4096 = 0 → USER_MEM_START ≤ b → hi ≤ 0xFFFFF000 →
  0 ≤ flags < 4096 → present flags = true →
  Z.max 0 ((hi - b + 4095) / 4096) + 1 ≤ Z.of_nat fuel →
  ∃ rc s' own' fs', map_pages fuel b hi pd flags s = Ok rc s' ∧
    extends s own fs s' own' fs' pds pd b hi flags ∧
    (rc = ERR_NOMEM ∨
     rc = 0 ∧ ∀ va, word va → b ≤ page_of va < hi → is_Some (pte_at s' pd va)).
Proof.
  revert s own fs b. induction fuel as [|fuel IH]; intros s own fs b Hwf Hcow Hpd Hcr Hb Hbm Hbu Hhi
    Hfl Hflp Hfuel; [lia|].
  cbn [map_pages]. case_decide as Elt; last first.
  { exists 0, s, own, fs. split_and!; [done|by apply extends_refl|]. right. split; [done|lia]. }
  pose proof (pd_index_range b Hb) as Hdi. pose proof (pt_index_range b Hb) as Hti.
  pose proof (proj1 (pd_index_user b Hb) Hbu) as Hdu. change KERNEL_MAP_NUM_ENTRIES with 4 in Hdu.
  destruct (wf_pds _ _ _ _ _ Hwf pd Hpd) as [Hpk _].
  destruct (entry_exists _ _ _ _ _ pd (GET_PD_INDEX b) Hwf Hpk) as [d Hd]; [lia|].
  rewrite (bind_ok _ _ _ _ _ (kread_ok _ _ _ _ Hd)).
  destruct (ensure_table s own pds fs pd b d flags b (b + 1)) as
    (ok & s1 & own1 & Hrun & Hex & _ & _ & Hok); [done..|].
  rewrite (bind_ok _ _ _ _ _ Hrun). destruct ok; last first.
  { exists ERR_NOMEM, s1, own1, fs. split_and!; [done| |by left].
    apply (extends_trans _ _ _ s1 own1 fs _ _ _ _ _ _ (b + 1) b); [done| |lia|lia].
    destruct Hex. by apply extends_refl. }
  destruct Hok as (d' & Hd' & Hne); [done|]. pose proof Hex as [Hwf1 Hcow1 Hcr1 _ _ _ _ _].
  rewrite (bind_ok _ _ _ _ _ (kread_ok _ _ _ _ Hd')).
  destruct (table_of_entry none s1 own1 pds fs pd (GET_PD_INDEX b) d')
    as (Hown & Hdp & Hptk); [done|done|lia|done|done|].
  destruct (entry_exists _ _ _ _ _ _ (GET_PT_INDEX b) Hwf1 Hptk Hti) as [e He].
  rewrite (bind_ok _ _ _ _ _ (kread_ok _ _ _ _ He)).
  destruct (ensure_frame s1 own1 pds fs pd b (GET_ADDR_FROM_ENTRY d') e flags Hwf1 Hcow1 Hpd) as
    (ok & s2 & fs2 & Hrun2 & Hex2 & Hok2); [by rewrite Hcr1|done..|].
  rewrite (bind_ok _ _ _ _ _ Hrun2).
  assert (extends s own fs s2 own1 fs2 pds pd b (b + 1) flags) as Hex12
    by (apply (extends_trans _ _ _ s1 own1 fs _ _ _ _ _ _ (b + 1) b); [done|done|lia|lia]).
  pose proof Hex12 as [Hwf2 Hcow2 Hcr2 _ _ _ _ _]. destruct ok; last first.
  { exists ERR_NOMEM, s2, own1, fs2. split_and!; [done| |by left].
    apply (extends_trans _ _ _ s2 own1 fs2 _ _ _ _ _ _ (b + 1) b); [done| |lia|lia].
    by apply extends_refl. }
  assert (u32 (b + PAGE_SIZE) = b + 4096) as Eb.
  { unfold PAGE_SIZE. apply u32_small. unfold word, USER_MEM_START in *. lia. }
  rewrite Eb. destruct (IH s2 own1 fs2 (b + 4096)) as (rc & s' & own' & fs' & Hrun3 & Hex3 & Hrc);
    [done|done|done|by rewrite Hcr2|unfold word, USER_MEM_START in *; lia|dlia|lia|done..|dlia|].
  exists rc, s', own', fs'. split_and!; [done| |].
  { by apply (extends_trans _ _ _ s2 own1 fs2 _ _ _ _ _ _ (b + 1) (b + 4096)); [done|done|lia|lia]. }
  destruct Hrc as [?|[-> Hall]]; [by left|right]. split; [done|]. intros va Hva Hr.
  destruct (decide (page_of va = b)) as [Hpg|Hpg].
  - apply (extends_mapped s2 own1 fs2 s' own' fs' pds pd (b + 4096) hi flags); [done..|].
    destruct Hok2 as (e' & He' & Hp'); [done|].
    apply (same_page va b Hva Hb Hbm) in Hpg as [E1 E2].
    destruct (wf_own _ _ _ _ _ Hwf2 _ _ _ Hown) as (_ & _ & _ & d2 & Hd2 & _ & _ & Hd2p & Hd2a).
    rewrite (pte_at_dir _ _ _ d2) by (by rewrite ?E1). rewrite E2, Hd2a, He'. simpl.
    rewrite Hp'. by eauto.
  - apply Hall; [done|]. unfold page_of in *. dlia.
Qed.

Lemma page_of_land a : word a → Z.land a PAGE_ROUND_DOWN = page_of a.
Proof. intros Ha. change PAGE_ROUND_DOWN with 0xFFFFF000. by rewrite land_hi. Qed.

Lemma map_segment_ok s own pds fs pd start len flags :
  vm_wf none s own pds fs → cow_ok s own → pd ∈ pds →
  USER_MEM_START ≤ start → 0 ≤ len → start + len ≤ 0xFFFFF000 →
  0 ≤ flags < 4096 → present flags = true →
  ∃ rc s' own' fs', map_segment start len pd flags s = Ok rc s' ∧
    extends (set_cr3 pd s) own fs s' own' fs' pds pd (page_of start) (start + len) flags ∧
    (rc = ERR_NOMEM ∨
     rc = 0 ∧ ∀ va, word va → page_of start ≤ page_of va < start + len → is_Some (pte_at s' pd va)).
Proof.
  intros Hwf Hcow Hpd Hst Hlen Hend Hfl Hflp. unfold map_segment, set_cur_pd. rewrite bind_modify.
  unfold USER_MEM_START in Hst.
  rewrite u32_small, page_of_land by (unfold word; lia).
  apply (map_pages_ok _ _ own); try done.
  - by destruct Hwf.
  - unfold word, page_of. dlia.
  - unfold page_of. dlia.
  - unfold USER_MEM_START, page_of. dlia.
  - unfold map_fuel, PAGE_SIZE. rewrite Z2Nat.id by dlia. dlia.
Qed.

(** ** Loading a program's segments *)

(** [s'] extends [s] with zero-filled private pages somewhere in [pd]. *)
Record grows s own fs s' own' fs' pds (pd : Z) : Prop := {
  gr_wf : vm_wf none s' own' pds fs';
  gr_cow : cow_ok s' own';
  gr_sub : ∀ f, f ∈ fs' → f ∈ fs;
  gr_phys : ∀ f, f ∉ fs → phys s' !! f = phys s !! f;
  gr_pte : ∀ pd' va, pd' ∈ pds → word va →
    pte_at s' pd' va = pte_at s pd' va ∨
    (pd' = pd ∧ USER_MEM_START ≤ va ∧ pte_at s pd va = None ∧
     ∃ f flags, 0 ≤ flags < 4096 ∧ f ∈ fs ∧ f ∉ fs' ∧
       pte_at s' pd va = Some (Z.lor f flags) ∧ frame_data s' f = ∅);
  gr_machine : machine_phys_frames (fa s') = machine_phys_frames (fa s);
  gr_refs : taken_once s fs s' own own' fs';
  gr_cr3 : cr3 s = pd → cr3 s' = pd;
}.

Lemma extends_grows s own fs s' own' fs' pds pd lo hi flags :
  extends (set_cr3 pd s) own fs s' own' fs' pds pd lo hi flags → USER_MEM_START ≤ lo →
  0 ≤ flags < 4096 →
  grows s own fs s' own' fs' pds pd.
Proof.
  intros [] Hlo Hfl. split; try done. intros pd' va Hpd' Hva.
  destruct (ex_pte0 pd' va Hpd' Hva) as [?|(-> & Hr & Hn & f & ?)]; [by left|right].
  split_and!; [done| |done|by exists f, flags]. unfold page_of in Hr. dlia.
Qed.

Lemma grows_refl s own fs pds pd :
  vm_wf none s own pds fs → cow_ok s own → grows s own fs s own fs pds pd.
Proof. intros. split; try done; [by left|]. by apply taken_once_refl. Qed.

Lemma grows_trans s own fs s1 own1 fs1 s2 own2 fs2 pds pd :
  grows s own fs s1 own1 fs1 pds pd → grows s1 own1 fs1 s2 own2 fs2 pds pd →
  grows s own fs s2 own2 fs2 pds pd.
Proof.
  intros [_ _ Hsub1 Hph1 Hpte1 Hma1 Href1 Hcr1] [Hwf2 Hcow2 Hsub2 Hph2 Hpte2 Hma2 Href2 Hcr2].
  split; [done|done|by eauto| | |congruence|by eapply taken_once_trans|by eauto].
  - intros f Hf. rewrite Hph2 by naive_solver. by apply Hph1.
  - intros pd' va Hpd' Hva.
    destruct (Hpte1 pd' va Hpd' Hva) as [Heq1|(-> & Hr1 & Hn1 & f & fl & Hfl & Hf & Hf1 & Hp1 & Hd1)].
    + destruct (Hpte2 pd' va Hpd' Hva) as [Heq2|(-> & Hr2 & Hn2 & f & fl & Hfl & Hf & Hf1 & Hp & Hd)].
      * left. congruence.
      * right. split_and!; [done|done|congruence|]. exists f, fl. split_and!; [lia|lia|by apply Hsub1|done..].
    + right. split_and!; [done|done|done|]. exists f, fl. split_and!; [lia|lia|done|naive_solver| |].
      * destruct (Hpte2 pd va Hpd' Hva) as [->|(_ & _ & ? & _)]; [done|congruence].
      * unfold frame_data in *. by rewrite Hph2.
Qed.

Lemma grows_mapped s own fs s' own' fs' pds pd va :
  grows s own fs s' own' fs' pds pd → pd ∈ pds → word va →
  is_Some (pte_at s pd va) → is_Some (pte_at s' pd va).
Proof.
  intros [_ _ _ _ Hpte _ _ _] Hpd Hva Hs.
  destruct (Hpte pd va Hpd Hva) as [->|(_ & _ & Hn & _)]; [done|].
  rewrite Hn in Hs. by destruct Hs.
Qed.

(** One segment of the sequence: it maps [lo, hi) or runs out of memory. *)
Definition maps_range pds (pd lo hi : Z) (step : M (vm H) Z) : Prop :=
  ∀ s own fs, vm_wf none s own pds fs → cow_ok s own →
  ∃ rc s' own' fs', step s = Ok rc s' ∧ grows s own fs s' own' fs' pds pd ∧
    (rc = ERR_NOMEM ∨
     rc = 0 ∧ ∀ va, word va → page_of lo ≤ page_of va < hi → is_Some (pte_at s' pd va)).

Lemma map_segment_maps pds pd start len flags :
  pd ∈ pds → USER_MEM_START ≤ start → 0 ≤ len → start + len ≤ 0xFFFFF000 →
  0 ≤ flags < 4096 → present flags = true →
  maps_range pds pd start (start + len) (map_segment start len pd flags).
Proof.
  intros Hpd Hst Hlen Hend Hfl Hflp s own fs Hwf Hcow.
  destruct (map_segment_ok s own pds fs pd start len flags) as
    (rc & s' & own' & fs' & Hrun & Hex & Hrc); [done..|].
  exists rc, s', own', fs'. split_and!; [done| |done].
  eapply extends_grows; [done| |done]. unfold USER_MEM_START, page_of in *. dlia.
Qed.

Lemma seq_checked_maps pds pd (steps : list (Z * Z * M (vm H) Z)) :
  pd ∈ pds → Forall (λ '(lo, hi, m), maps_range pds pd lo hi m) steps →
  ∀ s own fs, vm_wf none s own pds fs → cow_ok s own →
  ∃ rc s' own' fs', seq_checked (snd <$> steps) s = Ok rc s' ∧
    grows s own fs s' own' fs' pds pd ∧
    (rc = ERR_NOMEM ∨
     rc = 0 ∧ Forall (λ '(lo, hi, _), ∀ va, word va → page_of lo ≤ page_of va < hi →
                        is_Some (pte_at s' pd va)) steps).
Proof.
  intros Hpd. induction steps as [|[[lo hi] m] steps IH]; intros Hall s own fs Hwf Hcow.
  { exists 0, s, own, fs. split_and!; [done|by apply grows_refl|by right]. }
  apply Forall_cons in Hall as [Hm Hall].
  destruct (Hm s own fs Hwf Hcow) as (rc & s1 & own1 & fs1 & Hrun & Hgr & Hrc).
  cbn [fmap list_fmap snd seq_checked]. rewrite (bind_ok _ _ _ _ _ Hrun).
  destruct Hrc as [->|[-> Hmap]].
  { exists ERR_NOMEM, s1, own1, fs1. split_and!; [done|done|by left]. }
  rewrite decide_False by lia.
  destruct (IH Hall s1 own1 fs1) as (rc & s2 & own2 & fs2 & Hrun2 & Hgr2 & Hrc);
    [apply Hgr|apply Hgr|].
  exists rc, s2, own2, fs2. split_and!; [done|by eapply grows_trans|].
  destruct Hrc as [->|[-> Hmap2]]; [by left|right]. split; [done|]. apply Forall_cons. split; [|done].
  intros va Hva Hr. apply (grows_mapped s1 own1 fs1 s2 own2 fs2 pds); [done..|]. by apply Hmap.
Qed.

End map.
