(* ===== verification/VMCow.v ===== *)
(** * Virtual memory: copy-on-write

    [make_pages_cow] turns every writable entry of an address space read-only,
    [clone_paging_info] (fork) shares every frame of the parent with the child
    and rolls everything back when memory runs out, [handle_cow] gives a
    faulting page a private frame. *)

From S2P Require Import Prelude Locks FrameAlloc Paging VM VMInv VMPages VMMap.

(** ** The entry after [make_pt_cow] *)
Definition cow_entry (e : Z) : Z :=
  if decide (e = PAGE_TABLE_ENTRY_DEFAULT) then e
  else if test (GET_FLAGS_FROM_ENTRY e) READ_WRITE_ENABLE
       then Z.land (Z.lor e COW_MODE) WRITE_DISABLE_MASK
       else e.

Lemma cow_entry_default : cow_entry PAGE_TABLE_ENTRY_DEFAULT = PAGE_TABLE_ENTRY_DEFAULT.
Proof. done. Qed.

Lemma cow_entry_addr e : GET_ADDR_FROM_ENTRY (cow_entry e) = GET_ADDR_FROM_ENTRY e.
Proof.
  unfold cow_entry. case_decide; [done|]. destruct (test _ _); [|done].
  rewrite addr_and_mask, addr_or_flags; done.
Qed.

Lemma cow_entry_present e : present (cow_entry e) = present e.
Proof.
  unfold cow_entry. case_decide; [done|]. destruct (test _ _); [|done].
  unfold present. rewrite test_and_sub, test_or_disj; done.
Qed.

Lemma cow_entry_word e : word e → word (cow_entry e).
Proof.
  intros He. unfold cow_entry. case_decide; [done|]. destruct (test _ _); [|done].
  apply word_land; [|done]. apply word_lor; done.
Qed.

(** The result is not writable, and keeps a mark where it was. *)
Lemma cow_entry_writable e :
  e ≠ PAGE_TABLE_ENTRY_DEFAULT → writable (cow_entry e) = false.
Proof.
  intros He. unfold cow_entry. rewrite decide_False by done.
  destruct (test _ _) eqn:E.
  - by apply test_and_disj.
  - unfold writable. rewrite <- E. symmetry. by apply test_flags.
Qed.

Lemma cow_entry_marked e :
  e ≠ PAGE_TABLE_ENTRY_DEFAULT → writable e = true → test (cow_entry e) COW_MODE = true.
Proof.
  intros He Hw. unfold cow_entry. rewrite decide_False by done.
  rewrite test_flags by done. unfold writable in Hw. rewrite Hw.
  rewrite test_and_sub by done. by apply test_or_sub.
Qed.

Lemma cow_entry_user e : test (cow_entry e) USER_MODE = test e USER_MODE.
Proof.
  unfold cow_entry. case_decide; [done|].
  destruct (test (GET_FLAGS_FROM_ENTRY e) READ_WRITE_ENABLE); [|done].
  rewrite test_and_sub, test_or_disj; done.
Qed.

Lemma cnt_cow f l : cnt f (cow_entry <$> l) = cnt f l.
Proof. induction l as [|e l IH]; [done|]. cbn. by rewrite cow_entry_addr, IH. Qed.

Section cow.
Context {H : Type} `{KernelHeapSpec H}.
Implicit Types (s : vm H) (own : gmap Z (Z * Z)) (pds : gset Z) (fs : list Z).

Lemma good_pte_cow s e : good_pte s e → good_pte s (cow_entry e).
Proof.
  intros [->|(? & ? & ?)]; [by left|right].
  rewrite cow_entry_present, cow_entry_addr. split_and!; [by apply cow_entry_word|done..].
Qed.

(** ** [make_pt_cow] *)
Lemma upd_entry_id s p i e : entry_at s p i = Some e → upd_entry p i e s = s.
Proof.
  intros (Hi & Hl & Hk)%entry_at_page. unfold upd_entry. rewrite list_insert_id by done.
  rewrite insert_id by done. apply set_kmem_id.
Qed.

Lemma make_pt_cow_step s pt i e :
  entry_at s pt i = Some e →
  (if decide (e = PAGE_TABLE_ENTRY_DEFAULT) then mret tt
   else if test (GET_FLAGS_FROM_ENTRY e) READ_WRITE_ENABLE then
     kwrite pt i (Z.land (Z.lor e COW_MODE) WRITE_DISABLE_MASK)
   else mret tt) s = kwrite pt i (cow_entry e) s.
Proof.
  intros He. unfold cow_entry. case_decide; [|destruct (test _ _); [done|]];
    rewrite kwrite_ok, upd_entry_id by eauto; done.
Qed.

Lemma make_pt_cow_ok s pt l :
  kmem s !! pt = Some l → length l = 1024%nat → pt ≠ NULL →
  make_pt_cow pt s = Ok tt (set_kmem (<[pt := cow_entry <$> l]> (kmem s)) s).
Proof.
  intros Hl Hlen Hnull. unfold make_pt_cow. rewrite decide_False by done.
  rewrite (kfill_ok s pt l (λ i, cow_entry (nth (Z.to_nat i) l 0))); [|done|done|by rewrite Hlen|].
  - do 3 f_equal. change (Z.to_nat NUM_PAGE_TABLE_ENTRIES) with 1024%nat.
    apply list_eq. intros n. destruct (decide (n < 1024)%nat) as [Hn|Hn].
    + destruct (lookup_lt_is_Some_2 l n) as [e He]; [lia|].
      rewrite <- (Nat2Z.id n) at 1. rewrite fill_lookup, decide_True by lia.
      rewrite list_lookup_fmap, He, Nat2Z.id. by rewrite (nth_lookup_Some _ _ _ _ He).
    + rewrite !lookup_ge_None_2 by (rewrite ?fill_length, ?length_fmap; lia). done.
  - intros i k l' Hi Hk El. change (0 + Z.of_nat _) with 1024 in Hi.
    destruct (lookup_Z l i) as [e He]; [lia|].
    assert (entry_at (set_kmem k s) pt i = Some e) as Hent.
    { apply (page_entry_at _ _ _ _ l'); [done|lia|congruence]. }
    rewrite (bind_ok _ _ _ _ _ (kread_ok _ _ _ _ Hent)), (make_pt_cow_step _ _ _ _ Hent).
    by rewrite (nth_lookup_Some _ _ _ _ He).
Qed.

(** ** [make_pages_cow] *)

(** [s'] is [s] with the tables of the entries below [i] of [pd] marked. *)
Definition cowed_below s own (pd i : Z) (s' : vm H) : Prop :=
  ∃ k, s' = set_kmem k s ∧
    (∀ p, table_below own pd i p → k !! p = Some (cow_entry <$> page s p)) ∧
    (∀ p, ¬ table_below own pd i p → k !! p = kmem s !! p).

Definition cowed s own (pd : Z) (s' : vm H) : Prop := cowed_below s own pd 1024 s'.

Lemma table_below_step s own pds fs pd i e p :
  vm_wf none s own pds fs → entry_at s pd i = Some e → e ≠ PAGE_DIR_ENTRY_DEFAULT →
  pd ∈ pds → 4 ≤ i < 1024 →
  table_below own pd (i + 1) p ↔ table_below own pd i p ∨ p = GET_ADDR_FROM_ENTRY e.
Proof.
  intros Hwf He Hne Hpd Hi. split.
  - intros (i' & Hi' & ?). destruct (decide (i' = i)) as [->|].
    + right. destruct (wf_own _ _ _ _ _ Hwf _ _ _ Hi') as (_ & _ & _ & e' & He' & _ & _ & _ & <-).
      rewrite He in He'. by injection He' as <-.
    + left. exists i'. split; [done|lia].
  - destruct (table_of_entry _ _ _ _ _ pd i e Hwf) as (Ho & _); [done..|].
    intros [(i' & ? & ?)| ->]; [exists i'|exists i]; split; done || lia.
Qed.

Lemma table_below_skip s own pds fs pd i p :
  vm_wf none s own pds fs → entry_at s pd i = Some PAGE_DIR_ENTRY_DEFAULT →
  table_below own pd (i + 1) p ↔ table_below own pd i p.
Proof.
  intros Hwf He. split; intros (i' & Hi' & ?); exists i'; (split; [done|]); [|lia].
  destruct (decide (i' = i)) as [->|]; [|lia].
  destruct (wf_own _ _ _ _ _ Hwf _ _ _ Hi') as (_ & _ & _ & e' & He' & ? & _). congruence.
Qed.

Lemma make_pages_cow_ok s own pds fs pd :
  vm_wf none s own pds fs → pd ∈ pds →
  ∃ s', make_pages_cow pd s = Ok tt s' ∧ cowed s own pd s'.
Proof.
  intros Hwf Hpd. destruct (wf_pds _ _ _ _ _ Hwf pd Hpd) as [Hpk Hpo].
  destruct (wf_page _ _ _ _ _ Hwf pd Hpk) as (_ & Hlow & _).
  unfold make_pages_cow. rewrite decide_False by (unfold NULL; lia).
  rewrite user_entries_code. change KERNEL_MAP_NUM_ENTRIES with 4.
  destruct (for_loop_ok (cowed_below s own pd) (λ i,
        e ← kread pd i;
        if decide (e ≠ PAGE_DIR_ENTRY_DEFAULT) then make_pt_cow (GET_ADDR_FROM_ENTRY e)
        else mret tt) user_entries 4 s) as (s' & Hrun & Hc).
  - exists (kmem s). split_and!; [by rewrite set_kmem_id| |done].
    intros p (i & Hi & ?). destruct (wf_own _ _ _ _ _ Hwf _ _ _ Hi) as (_ & _ & ? & _). lia.
  - rewrite user_entries_Z. intros i s1 Hi (k & -> & Hin & Hout).
    destruct (entry_exists _ _ _ _ _ pd i Hwf Hpk) as [e He]; [lia|].
    assert (entry_at (set_kmem k s) pd i = Some e) as He1.
    { rewrite (entry_at_ext s); [done|]. apply Hout. intros (i' & ? & _). congruence. }
    rewrite (bind_ok _ _ _ _ _ (kread_ok _ _ _ _ He1)).
    destruct (decide (e = PAGE_DIR_ENTRY_DEFAULT)) as [->|Hne].
    + rewrite decide_False by naive_solver. eexists. split; [done|]. exists k. split; [done|].
      setoid_rewrite (table_below_skip _ _ _ _ _ _ _ Hwf He). done.
    + rewrite decide_True by done.
      destruct (table_of_entry _ _ _ _ _ pd i e Hwf) as (Ho & _ & Hptk); [done|lia|done..|].
      set (pt := GET_ADDR_FROM_ENTRY e) in *.
      destruct (wf_page _ _ _ _ _ Hwf pt Hptk) as (_ & Hptl & l & Hl & Hlen).
      rewrite (make_pt_cow_ok (set_kmem k s) pt l); last first.
      { unfold NULL. lia. }
      { done. }
      { cbn. rewrite Hout; [done|]. intros (i' & ? & ?). simplify_eq. lia. }
      eexists. split; [done|]. exists (<[pt := cow_entry <$> l]> k). split; [done|].
      assert (∀ p, table_below own pd (i + 1) p ↔ table_below own pd i p ∨ p = pt) as Hb
        by (intros p; apply (table_below_step s own pds fs); done || lia).
      split; intros p; rewrite Hb; rewrite lookup_insert; case_decide as Ep.
      * intros _. subst p. unfold page. by rewrite Hl.
      * intros [?|?]; [by apply Hin|congruence].
      * naive_solver.
      * intros Hn. apply Hout. naive_solver.
  - exists s'. split; [done|]. rewrite user_entries_Z in Hc. exact Hc.
Qed.

Lemma table_below_all s own pds fs pd p :
  vm_wf none s own pds fs → table_below own pd 1024 p ↔ ∃ i, own !! p = Some (pd, i).
Proof.
  intros Hwf. split; [intros (i & ? & _); by exists i|]. intros [i Hi]. exists i.
  split; [done|]. destruct (wf_own _ _ _ _ _ Hwf _ _ _ Hi) as (_ & _ & ? & _). lia.
Qed.

Lemma owner_cases own (pd p : Z) :
  (∃ i, own !! p = Some (pd, i)) ∨ ∀ i, own !! p ≠ Some (pd, i).
Proof.
  destruct (own !! p) as [[q i]|]; [|by right]. destruct (decide (q = pd)) as [->|]; [left; eauto|].
  right. naive_solver.
Qed.

Lemma cowed_table s own pds fs pd s' p i j :
  vm_wf none s own pds fs → cowed s own pd s' → own !! p = Some (pd, i) →
  entry_at s' p j = cow_entry <$> entry_at s p j ∧ page s' p = cow_entry <$> page s p.
Proof.
  intros Hwf (k & -> & Hin & _) Ho.
  assert (k !! p = Some (cow_entry <$> page s p)) as Hk.
  { apply Hin. rewrite (table_below_all _ _ _ _ _ _ Hwf). eauto. }
  destruct (wf_own _ _ _ _ _ Hwf _ _ _ Ho) as (Hp & _).
  destruct (wf_page _ _ _ _ _ Hwf p Hp) as (_ & _ & l & Hl & _).
  unfold entry_at, page in *. cbn. rewrite Hk, Hl. cbn. split; [|done].
  case_decide; [|done]. by rewrite list_lookup_fmap.
Qed.

Lemma cowed_other s own pds fs pd s' p :
  vm_wf none s own pds fs → cowed s own pd s' → (∀ i, own !! p ≠ Some (pd, i)) →
  kmem s' !! p = kmem s !! p.
Proof.
  intros Hwf (k & -> & _ & Hout) Ho. apply Hout. rewrite (table_below_all _ _ _ _ _ _ Hwf).
  naive_solver.
Qed.

Lemma cowed_refs s own pds fs pd s' f :
  vm_wf none s own pds fs → cowed s own pd s' → refs s' own f = refs s own f.
Proof.
  intros Hwf Hc. apply sumf_ext. intros p [[q i] Ho]. destruct (decide (q = pd)) as [->|Hne].
  - destruct (cowed_table _ _ _ _ _ _ _ _ 0 Hwf Hc Ho) as [_ ->]. apply cnt_cow.
  - unfold page. rewrite (cowed_other s own pds fs pd s') by (done || naive_solver). done.
Qed.

Lemma cowed_wf s own pds fs pd s' :
  vm_wf none s own pds fs → pd ∈ pds → cowed s own pd s' → vm_wf none s' own pds fs.
Proof.
  intros Hwf Hpd Hc. wf_open Hwf. pose proof Hc as (k & Es & Hin & Hout).
  assert (∀ p i, own !! p = None → entry_at s' p i = entry_at s p i) as Hother.
  { intros p i Ho. apply entry_at_ext, (cowed_other s own pds fs pd); [done..|naive_solver]. }
  assert (∀ f, refs s' own f = refs s own f) as Hr by (intros f; by eapply cowed_refs).
  split; try (subst s'; done).
  - intros p Hp. replace (kheap s') with (kheap s) in Hp by (by subst).
    destruct (wf_page0 p Hp) as (? & ? & l & Hl & Hlen). split_and!; [done|lia..|].
    destruct (owner_cases own pd p) as [Ht|Ht].
    + exists (cow_entry <$> l). subst s'. cbn. rewrite Hin by (by apply (table_below_all s own pds fs)).
      split; [unfold page; by rewrite Hl|by rewrite length_fmap].
    + exists l. rewrite (cowed_other s own pds fs pd s') by (done || naive_solver). done.
  - intros i t Hi Ht. replace (direct_map s') with (direct_map s) in Ht by (by subst).
    assert (t ∈ direct_map s) as Hd by (by eapply list_elem_of_lookup_2).
    destruct (wf_kern0 i t Hi Ht) as [Hk Hj]. split.
    + intros q Hq. rewrite Hother; [by apply Hk|]. by apply wf_pds0.
    + intros j Hj'. rewrite Hother; [by apply Hj|]. by apply (proj2 wf_dmap0 t Hd).
  - intros pt q i Ho. destruct (wf_own0 pt q i Ho) as (? & Hq & ? & e & He & ?).
    split_and!; [by subst s'|done|lia..|]. exists e. split; [|done].
    rewrite Hother; [done|]. by apply wf_pds0.
  - intros q i e Hq Hi. rewrite Hother by (by apply wf_pds0). by apply wf_dir0.
  - intros pt j e [[q i] Ho] He. assert (∀ e, good_pte s e → good_pte s' e) as Hg by (by subst s').
    apply Hg. destruct (decide (q = pd)) as [->|Hne].
    + destruct (cowed_table _ _ _ _ _ _ _ _ j Hwf Hc Ho) as [E _]. rewrite E in He.
      apply fmap_Some in He as (e' & He' & ->). apply good_pte_cow, (wf_tab0 pt j); eauto.
    + apply (wf_tab0 pt j); [by eauto|]. rewrite <- (entry_at_ext s s'); [done|].
      apply (cowed_other s own pds fs pd); [done..|naive_solver].
  - intros f Hf. rewrite Hr. subst s'. by apply wf_count0.
  - intros f Hf. rewrite Hr. subst s'. by apply wf_free0.
Qed.

(** Every user translation of [pd] is marked, no other changes. *)
Lemma cowed_pte s own pds fs pd s' pd' va :
  vm_wf none s own pds fs → pd ∈ pds → cowed s own pd s' → pd' ∈ pds → word va →
  pte_at s' pd' va = if decide (pd' = pd ∧ USER_MEM_START ≤ va) then cow_entry <$> pte_at s pd va
                     else pte_at s pd' va.
Proof.
  intros Hwf Hpd Hc Hpd' Hva. destruct (wf_pds _ _ _ _ _ Hwf pd' Hpd') as [Hk' Ho'].
  pose proof (pd_index_range va Hva) as Hi.
  assert (∀ i, entry_at s' pd' i = entry_at s pd' i) as Hdir.
  { intros i. apply entry_at_ext, (cowed_other s own pds fs pd); [done..|naive_solver]. }
  unfold pte_at at 1. rewrite Hdir.
  destruct (entry_exists _ _ _ _ _ pd' (GET_PD_INDEX va) Hwf Hk' Hi) as [d Hd]. rewrite Hd. simpl.
  pose proof (pd_index_user va Hva) as Hu. change KERNEL_MAP_NUM_ENTRIES with 4 in Hu.
  assert (GET_PD_INDEX va < 4 ∨ d = PAGE_DIR_ENTRY_DEFAULT ∨
    USER_MEM_START ≤ va ∧ own !! GET_ADDR_FROM_ENTRY d = Some (pd', GET_PD_INDEX va) ∧ present d = true)
    as [Hlo|[->|(Hua & Ho & Hp)]].
  { destruct (decide (GET_PD_INDEX va < 4)); [by left|right].
    destruct (decide (d = PAGE_DIR_ENTRY_DEFAULT)); [by left|right].
    destruct (table_of_entry _ _ _ _ _ pd' (GET_PD_INDEX va) d Hwf) as (? & ? & _); [done|lia|done..|].
    split_and!; [apply Hu; lia|done..]. }
  - rewrite decide_False by lia. unfold pte_at. rewrite Hd. simpl. destruct (present d); [|done].
    rewrite (entry_at_ext s s'); [done|]. apply (cowed_other s own pds fs pd); [done..|].
    destruct (kernel_table none s own pds fs pd' (GET_PD_INDEX va) d) as [Hin _]; [done|done|lia|done|].
    destruct (proj2 (wf_dmap _ _ _ _ _ Hwf) _ Hin) as (_ & ? & _). naive_solver.
  - cbn. case_decide as E; [destruct E as [-> _]|]; unfold pte_at; by rewrite Hd.
  - rewrite Hp. destruct (decide (pd' = pd)) as [->|Hne].
    + rewrite decide_True by done. rewrite (pte_at_dir s pd va d) by done.
      destruct (cowed_table _ _ _ _ _ _ _ _ (GET_PT_INDEX va) Hwf Hc Ho) as [-> _].
      destruct (entry_at s (GET_ADDR_FROM_ENTRY d) (GET_PT_INDEX va)) as [e|]; [|done].
      cbn. rewrite cow_entry_present. by destruct (present e).
    + rewrite decide_False by naive_solver. rewrite (pte_at_dir s pd' va d) by done.
      rewrite (entry_at_ext s s'); [done|]. apply (cowed_other s own pds fs pd); [done..|naive_solver].
Qed.

(** ** Sharing a page table *)
Lemma new_page_refill s a l s' own pds l' :
  new_page s a l s' own pds → length l' = 1024%nat →
  new_page s a l' (set_kmem (<[a := l']> (kmem s')) s') own pds.
Proof.
  intros [(h & k & ->) ? ? ? Hk ? ?] Hl'. split; try done.
  - by eexists _, _.
  - cbn in *. by rewrite Hk, insert_insert_eq.
Qed.

Lemma new_page_in s a l s' own pds :
  new_page s a l s' own pds → a ∈ kh_pages (kheap s') ∧ kmem s' !! a = Some l.
Proof.
  intros Hnp. split.
  - rewrite (np_pages _ _ _ _ _ _ Hnp). by apply elem_of_union_l, elem_of_singleton.
  - rewrite (np_kmem _ _ _ _ _ _ Hnp). apply lookup_insert_eq.
Qed.

(** Every frame of the copied table gains a reference. *)
Lemma increment_ref_count_ok s own pds fs pt w a l :
  vm_wf none s own pds fs → own !! pt = Some w → kmem s !! pt = Some l →
  a ≠ NULL → kmem s !! a = Some l → length l = 1024%nat →
  ∃ r, increment_ref_count a s = Ok tt (recount r (fa s) s) ∧
    vm_wf (λ f, cnt f l) (recount r (fa s) s) own pds fs.
Proof.
  intros Hwf Ho Hpt Ha Hl Hlen. unfold increment_ref_count. rewrite decide_False by done.
  destruct (for_loop_ok (λ j s', ∃ r, s' = recount r (fa s) s ∧
      vm_wf (λ f, cnt f (take (Z.to_nat j) l)) s' own pds fs)
    (λ i, e ← kread a i;
      if decide (e ≠ PAGE_TABLE_ENTRY_DEFAULT) then
        let frame_addr := GET_ADDR_FROM_ENTRY e in
        frames (lock_frame frame_addr) ;; add_ref frame_addr 1 ;; frames (unlock_frame frame_addr)
      else mret tt) (Z.to_nat NUM_PAGE_TABLE_ENTRIES) 0 s) as (s' & Hrun & r & -> & Hwf').
  - exists (frame_ref_count s). split; [by destruct s|]. eapply wf_ext; [done|done].
  - intros j s' Hj (r & -> & Hwf'). change (0 + Z.of_nat _) with 1024 in Hj.
    destruct (lookup_Z l j) as [e He]; [lia|].
    assert (entry_at s a j = Some e) as Hent by (by apply (page_entry_at _ _ _ _ l); [|lia|]).
    assert (entry_at s pt j = Some e) as Hent' by (by apply (page_entry_at _ _ _ _ l); [|lia|]).
    rewrite (bind_ok _ _ _ e (recount r (fa s) s)) by (by apply kread_ok).
    replace (Z.to_nat (j + 1)) with (S (Z.to_nat j)) by lia.
    destruct (decide (e = PAGE_TABLE_ENTRY_DEFAULT)) as [->|Hne].
    + rewrite decide_False by naive_solver. eexists. split; [done|]. exists r. split; [done|].
      eapply wf_ext; [exact Hwf'|]. intros f Hf. cbv beta. rewrite (cnt_take_S _ _ _ _ He).
      rewrite decide_False by (by eapply default_not_frame). lia.
    + rewrite decide_True by done.
      destruct (wf_tab _ _ _ _ _ Hwf pt j e) as [?|(_ & _ & Hf)]; [by eauto|done|done|].
      pose proof (refs_pos s own pt j e (mk_is_Some _ _ Ho) Hent') as Hpos.
      destruct (wf_take_ref _ _ _ _ _ (GET_ADDR_FROM_ENTRY e) Hwf') as (r2 & Hrun2 & Hwf2).
      { done. }
      { intros g. apply cnt_nonneg. }
      { change (1 ≤ refs s own (GET_ADDR_FROM_ENTRY e) +
          cnt (GET_ADDR_FROM_ENTRY e) (take (Z.to_nat j) l)).
        pose proof (cnt_nonneg (GET_ADDR_FROM_ENTRY e) (take (Z.to_nat j) l)). lia. }
      eexists. split; [exact Hrun2|]. exists r2. split; [done|].
      eapply wf_ext; [exact Hwf2|]. intros g Hg. unfold bump_at. rewrite (cnt_take_S _ _ _ _ He).
      destruct (decide (g = GET_ADDR_FROM_ENTRY e)) as [->|];
        [rewrite decide_True by done|rewrite decide_False by congruence]; lia.
  - exists r. split; [done|]. change (Z.to_nat (0 + Z.of_nat _)) with 1024%nat in Hwf'.
    rewrite take_ge in Hwf' by lia. done.
Qed.

Lemma clone_page_table_ok s own pds fs pt w l :
  vm_wf none s own pds fs → own !! pt = Some w → kmem s !! pt = Some l →
  ∃ a s', clone_page_table pt s = Ok a s' ∧
    (a = NULL ∧ heap_same s s' ∧ vm_wf none s' own pds fs ∨
     ∃ r s1, new_page s a l s1 own pds ∧ s' = recount r (fa s) s1 ∧
       vm_wf (λ f, cnt f l) s' own pds fs).
Proof.
  intros Hwf Ho Hl. destruct w as [q i].
  destruct (wf_own _ _ _ _ _ Hwf _ _ _ Ho) as (Hptk & _).
  destruct (wf_page _ _ _ _ _ Hwf pt Hptk) as (_ & Hlow & l' & Hl' & Hlen).
  rewrite Hl in Hl'. injection Hl' as <-.
  unfold clone_page_table. rewrite decide_False by (unfold NULL; lia).
  destruct (create_page_table_ok _ _ _ _ _ Hwf) as (a & s1 & Hrun & Hwf1 & Hcase).
  rewrite (bind_ok _ _ _ _ _ Hrun). exists a. destruct Hcase as [[-> Hs1]|Hnp].
  { rewrite decide_True by done. exists s1. split; [done|]. by left. }
  rewrite decide_False by apply Hnp. rewrite bind_get.
  assert (kmem s1 !! pt = Some l) as Hl1.
  { rewrite (np_kmem _ _ _ _ _ _ Hnp), lookup_insert_ne; [done|]. intros ->.
    by apply (np_fresh _ _ _ _ _ _ Hnp). }
  rewrite Hl1. cbn [deref]. rewrite bind_mret, bind_modify.
  pose proof (new_page_refill _ _ _ _ _ _ l Hnp Hlen) as Hnp2.
  destruct (new_page_in _ _ _ _ _ _ Hnp) as [Hak _].
  assert (vm_wf none (set_kmem (<[a := l]> (kmem s1)) s1) own pds fs) as Hwf2
    by (apply wf_fill; [done|done|apply Hnp|done]).
  set (s2 := set_kmem (<[a := l]> (kmem s1)) s1) in *.
  destruct (increment_ref_count_ok s2 own pds fs pt (q, i) a l) as (r & Hrun3 & Hwf3);
    [done|done| |apply Hnp|apply lookup_insert_eq|done|].
  { cbn. rewrite lookup_insert_ne; [done|]. intros ->. by apply (np_fresh _ _ _ _ _ _ Hnp). }
  rewrite (bind_ok _ _ _ _ _ Hrun3). eexists. split; [done|]. right.
  exists r, s2. split_and!; [done| |done]. destruct (np_shape _ _ _ _ _ _ Hnp) as (h & k & ->). done.
Qed.

(** ** The loop of [clone_paging_info] *)

(** Tables below [i] of [pd] are cloned under [new]; [s] and [own] are the state
    and ownership before the loop. *)
Record cloning s own pds fs (pd new i : Z) (s' : vm H) (own' : gmap Z (Z * Z)) : Prop := {
  cl_wf : vm_wf none s' own' pds fs;
  cl_fa : fa s' = fa s;
  cl_phys : phys s' = phys s;
  cl_cr3 : cr3 s' = cr3 s;
  cl_dm : direct_map s' = direct_map s;
  cl_own : ∀ p w, own !! p = Some w → own' !! p = Some w;
  cl_new : ∀ p q k, own' !! p = Some (q, k) → own !! p = Some (q, k) ∨ q = new ∧ k < i;
  cl_mem : ∀ p, in_use s own pds p → p ≠ new → kmem s' !! p = kmem s !! p;
  cl_done : ∀ j e, 4 ≤ j < i → entry_at s pd j = Some e → e ≠ PAGE_DIR_ENTRY_DEFAULT →
    ∃ a, own' !! a = Some (new, j) ∧
         entry_at s' new j = Some (Z.lor a (GET_FLAGS_FROM_ENTRY e)) ∧
         kmem s' !! a = kmem s !! GET_ADDR_FROM_ENTRY e;
  cl_skip : ∀ j, 4 ≤ j < i → entry_at s pd j = Some PAGE_DIR_ENTRY_DEFAULT →
    entry_at s' new j = Some PAGE_DIR_ENTRY_DEFAULT;
  cl_todo : ∀ j, i ≤ j < 1024 → entry_at s' new j = Some PAGE_DIR_ENTRY_DEFAULT;
  cl_pages : ∀ p, p ∈ kh_pages (kheap s') ↔
    p ∈ kh_pages (kheap s) ∨ ∃ k, own' !! p = Some (new, k);
  cl_fresh : ∀ p k, own' !! p = Some (new, k) → p ∉ kh_pages (kheap s);
}.

Lemma cloned_pde a e :
  a mod 4096 = 0 → 0 < a < USER_MEM_START → present e = true →
  let v := Z.lor a (GET_FLAGS_FROM_ENTRY e) in
  v ≠ PAGE_DIR_ENTRY_DEFAULT ∧ word v ∧ present v = true ∧ GET_ADDR_FROM_ENTRY v = a.
Proof.
  intros Ha Hr Hp v. pose proof (flags_range e) as Hfl. unfold USER_MEM_START in Hr. split_and!.
  - unfold v. rewrite lor_page by done. unfold PAGE_DIR_ENTRY_DEFAULT. dlia.
  - apply word_lor; unfold word; lia.
  - unfold v. apply bool_decide_true. rewrite Z.land_lor_distr_l. intros [_ E]%Z.lor_eq_0_iff.
    pose proof (test_flags e PAGE_ENTRY_PRESENT eq_refl) as Ht. unfold present in Hp.
    rewrite Hp in Ht. by apply bool_decide_eq_true in Ht.
  - apply addr_of_entry; [done|lia|done].
Qed.

Lemma cloning_skip s own pds fs pd new i s' own' :
  cloning s own pds fs pd new i s' own' → 4 ≤ i < 1024 →
  entry_at s pd i = Some PAGE_DIR_ENTRY_DEFAULT → cloning s own pds fs pd new (i + 1) s' own'.
Proof.
  intros [] Hi He. split; try done.
  - intros p q k Hp. destruct (cl_new0 p q k Hp) as [?|[??]]; [by left|right]. split; [done|lia].
  - intros j e Hj Hje Hne. destruct (decide (j = i)) as [->|]; [congruence|]. apply cl_done0; [lia|done..].
  - intros j Hj Hje. destruct (decide (j = i)) as [->|]; [apply cl_todo0; lia|]. apply cl_skip0; [lia|done].
  - intros j Hj. apply cl_todo0. lia.
Qed.

(** The state of [cloning] up to the heap. *)
Lemma cloning_heap s own pds fs pd new i s1 s' own' :
  cloning s own pds fs pd new i s1 own' → heap_same s1 s' → vm_wf none s' own' pds fs →
  cloning s own pds fs pd new i s' own'.
Proof. intros [] (h & -> & Hh) Hwf. split; try done. intros p. cbn. rewrite Hh. apply cl_pages0. Qed.

Lemma cloning_attach s own pds fs pd new i e l s1 own1 a s2 r :
  cloning s own pds fs pd new i s1 own1 → new ∈ pds → 4 ≤ i < 1024 →
  entry_at s pd i = Some e → e ≠ PAGE_DIR_ENTRY_DEFAULT → present e = true →
  is_Some (own1 !! GET_ADDR_FROM_ENTRY e) →
  kmem s !! GET_ADDR_FROM_ENTRY e = Some l → kmem s1 !! GET_ADDR_FROM_ENTRY e = Some l →
  new_page s1 a l s2 own1 pds →
  vm_wf (λ f, cnt f l) (recount r (fa s1) s2) own1 pds fs →
  cloning s own pds fs pd new (i + 1)
    (upd_entry new i (Z.lor a (GET_FLAGS_FROM_ENTRY e)) (recount r (fa s1) s2))
    (<[a := (new, i)]> own1).
Proof.
  intros Hcl Hnew Hi He Hne Hp Hpo Hl Hl1 Hnp Hwf3.
  pose proof Hcl as [cl_wf0 cl_fa0 cl_phys0 cl_cr0 cl_dm0 cl_own0 cl_new0 cl_mem0 cl_done0 cl_skip0 cl_todo0 cl_pages0 cl_fresh0].
  destruct (new_page_in _ _ _ _ _ _ Hnp) as [Hak Hal].
  pose proof (np_unused _ _ _ _ _ _ Hnp) as Hnu. pose proof (np_fresh _ _ _ _ _ _ Hnp) as Hfr.
  destruct (np_shape _ _ _ _ _ _ Hnp) as (h & k & Es2).
  set (s3 := recount r (fa s1) s2) in *.
  assert (own1 !! a = None ∧ a ∉ pds ∧ a ∉ direct_map s3) as (Hao & Hapd & Hadm).
  { split_and!; [apply eq_None_not_Some|..]; intros ?; apply Hnu; [by left|by right; left|by right; right]. }
  assert (a ≠ new) as Han by congruence.
  assert (∀ p, p ≠ a → kmem s3 !! p = kmem s1 !! p) as Hk3.
  { intros p Hpa. change (kmem s2 !! p = kmem s1 !! p).
    by rewrite (np_kmem _ _ _ _ _ _ Hnp), lookup_insert_ne. }
  assert (entry_at s3 new i = Some PAGE_DIR_ENTRY_DEFAULT) as Hni.
  { rewrite (entry_at_ext s1) by (by apply Hk3). apply cl_todo0. lia. }
  destruct (wf_page _ _ _ _ _ Hwf3 a Hak) as (Ham & Har & _).
  destruct (cloned_pde a e Ham Har Hp) as (Hv0 & Hvw & Hvp & Hva).
  set (v := Z.lor a (GET_FLAGS_FROM_ENTRY e)) in *.
  assert (∀ p, p ≠ a → p ≠ new → kmem (upd_entry new i v s3) !! p = kmem s1 !! p) as Hk4.
  { intros p Hpa Hpn. cbn. rewrite lookup_insert_ne by done. by apply Hk3. }
  assert (∀ j, j ≠ i → entry_at (upd_entry new i v s3) new j = entry_at s1 new j) as Hnew4.
  { intros j Hj. rewrite entry_at_upd by eauto. rewrite decide_False by naive_solver.
    apply entry_at_ext. by apply Hk3. }
  split; [|exact cl_fa0|subst s2; exact cl_phys0|subst s2; exact cl_cr0|subst s2; exact cl_dm0|..].
  - eapply wf_ext; [eapply (wf_attach _ s3 own1 pds fs a l new i v); try done|].
    + intros e' [n Hn]%list_elem_of_lookup_1.
      apply (wf_tab _ _ _ _ _ Hwf3 (GET_ADDR_FROM_ENTRY e) (Z.of_nat n)); [done|].
      apply (page_entry_at _ _ _ _ l); [|lia|by rewrite Nat2Z.id].
      rewrite Hk3; [done|]. intros Ea. rewrite Ea in Hpo. rewrite Hao in Hpo. by destruct Hpo.
    + intros f Hf. unfold none. simpl. lia.
  - intros p w Hw. rewrite lookup_insert_ne; [by apply cl_own0|]. intros <-.
    apply cl_own0 in Hw. congruence.
  - intros p q k' Hq. rewrite lookup_insert in Hq. case_decide.
    + injection Hq as <- <-. right. split; [done|lia].
    + destruct (cl_new0 p q k' Hq) as [?|[??]]; [by left|right; split; [done|lia]].
  - intros p Hu Hpn. rewrite Hk4; [by apply cl_mem0| |done]. intros ->. apply Hnu.
    destruct Hu as [[w Hw]|[?|Hd]]; [left; by eauto|by right; left|right; right].
    subst s2. cbn. by rewrite cl_dm0.
  - intros j e' Hj Hje Hne'. destruct (decide (j = i)) as [->|].
    + rewrite He in Hje. injection Hje as <-. exists a. split_and!.
      * by rewrite lookup_insert_eq.
      * rewrite entry_at_upd by eauto. by rewrite decide_True.
      * cbn. rewrite lookup_insert_ne by done. change (kmem s2 !! a = kmem s !! GET_ADDR_FROM_ENTRY e).
        by rewrite Hl.
    + destruct (cl_done0 j e') as (a' & Ha' & Hent & Hmem); [lia|done..|]. exists a'.
      assert (a' ≠ a) by congruence.
      assert (a' ≠ new) by (intros ->; destruct (wf_pds _ _ _ _ _ cl_wf0 new Hnew); congruence).
      split_and!; [by rewrite lookup_insert_ne|by rewrite Hnew4|by rewrite Hk4].
  - intros j Hj Hje. destruct (decide (j = i)) as [->|]; [congruence|]. rewrite Hnew4 by done.
    apply cl_skip0; [lia|done].
  - intros j Hj. rewrite Hnew4 by lia. apply cl_todo0. lia.
  - intros p. change (kheap (upd_entry new i v s3)) with (kheap s2).
    rewrite (np_pages _ _ _ _ _ _ Hnp), elem_of_union, elem_of_singleton, cl_pages0.
    split.
    + intros [->|[?|[k' Hk']]]; [right; exists i; by rewrite lookup_insert_eq|by left|].
      right. exists k'. rewrite lookup_insert_ne; [done|congruence].
    + intros [?|[k' Hk']]; [by right; left|]. rewrite lookup_insert in Hk'.
      case_decide; [by left|]. right; right. eauto.
  - intros p k' Hk'. rewrite lookup_insert in Hk'. case_decide; [|by eapply cl_fresh0].
    subst p. intros Hin. apply Hfr. apply cl_pages0. by left.
Qed.

Lemma clone_tables_ok n i s own pds fs pd new s1 own1 :
  vm_wf none s own pds fs → pd ∈ pds → new ∈ pds → pd ≠ new →
  4 ≤ i → i + Z.of_nat n = 1024 → cloning s own pds fs pd new i s1 own1 →
  ∃ b s' own' i', clone_tables n i pd new s1 = Ok b s' ∧ 
    cloning s own pds fs pd new i' s' own' ∧ (b = true → i' = 1024).
Proof.
  intros Hwf Hpd Hnew Hne. revert i s1 own1.
  induction n as [|n IH]; intros i s1 own1 Hi Hn Hcl; cbn [clone_tables].
  { exists true, s1, own1, i. split_and!; [done|done|]. lia. }
  pose proof Hcl as [cl_wf0 cl_fa0 cl_phys0 cl_cr0 cl_dm0 cl_own0 cl_new0 cl_mem0 cl_done0
    cl_skip0 cl_todo0 cl_pages0 cl_fresh0].
  destruct (wf_pds _ _ _ _ _ Hwf pd Hpd) as [Hpk Hpo].
  destruct (entry_exists _ _ _ _ _ pd i Hwf Hpk) as [e He]; [lia|].
  assert (entry_at s1 pd i = Some e) as He1.
  { rewrite (entry_at_ext s); [done|]. apply cl_mem0; [by right; left|done]. }
  rewrite (bind_ok _ _ _ _ _ (kread_ok _ _ _ _ He1)).
  destruct (decide (e = PAGE_DIR_ENTRY_DEFAULT)) as [->|Hed].
  { rewrite decide_False by naive_solver. apply (IH (i + 1) s1 own1); [lia|lia|].
    apply cloning_skip; [done|lia|done]. }
  rewrite decide_True by done.
  destruct (table_of_entry _ _ _ _ _ pd i e Hwf) as (Ho & Hep & Hptk); [done|lia|done..|].
  destruct (wf_page _ _ _ _ _ Hwf _ Hptk) as (_ & Hlow & l & Hl & Hlen).
  assert (kmem s1 !! GET_ADDR_FROM_ENTRY e = Some l) as Hl1.
  { rewrite cl_mem0; [done|left; by eauto|]. intros E.
    destruct (wf_pds _ _ _ _ _ Hwf new Hnew). congruence. }
  pose proof (cl_own0 _ _ Ho) as Ho1.
  destruct (clone_page_table_ok s1 own1 pds fs _ _ l cl_wf0 Ho1 Hl1) as (a & s2 & Hrun & Hcase).
  rewrite (bind_ok _ _ _ _ _ Hrun). destruct Hcase as [(-> & Hh & Hwf2)|(r & s2' & Hnp & -> & Hwf3)].
  { rewrite decide_True by done. exists false, s2, own1, i. split_and!; [done| |done].
    by eapply cloning_heap. }
  rewrite decide_False by apply Hnp.
  pose proof (cloning_attach _ _ _ _ _ _ i e l _ _ _ _ r Hcl Hnew ltac:(lia) He Hed Hep
    (mk_is_Some _ _ Ho1) Hl Hl1 Hnp Hwf3) as Hcl4.
  rewrite (bind_ok _ _ _ tt (upd_entry new i (Z.lor a (GET_FLAGS_FROM_ENTRY e))
    (recount r (fa s1) s2'))); last first.
  { apply kwrite_ok. exists PAGE_DIR_ENTRY_DEFAULT.
    rewrite (entry_at_ext s1); [apply cl_todo0; lia|]. change (kmem s2' !! new = kmem s1 !! new).
    rewrite (np_kmem _ _ _ _ _ _ Hnp), lookup_insert_ne; [done|]. intros ->.
    apply (np_fresh _ _ _ _ _ _ Hnp). by apply (wf_pds _ _ _ _ _ cl_wf0). }
  eapply IH; [lia|lia|exact Hcl4].
Qed.

(** ** [clone_paging_info] *)

(** Giving up the new directory restores the ownership before the loop. *)
Lemma disown_clone s own pds fs pd new i s1 own1 :
  cloning s own pds fs pd new i s1 own1 → new ∈ pds →
  (∀ p k, own !! p ≠ Some (new, k)) → disown_dir s1 new own1 = own.
Proof.
  intros Hcl Hnew Hno. pose proof (cl_wf _ _ _ _ _ _ _ _ _ Hcl) as Hwf1. apply map_eq. intros p.
  assert (dir_owns s1 new 4 own1) as Hd by (intros j e Hj; by apply (wf_dir _ _ _ _ _ Hwf1)).
  destruct (own !! p) as [[q k]|] eqn:Hp.
  - apply disown_other; [done|by rewrite user_entries_Z|done|by apply (cl_own _ _ _ _ _ _ _ _ _ Hcl)|].
    cbn. intros ->. by apply (Hno p k).
  - destruct (own1 !! p) as [[q k]|] eqn:Hp1; [|by apply disown_dir_none].
    destruct (cl_new _ _ _ _ _ _ _ _ _ Hcl p q k Hp1) as [?|[-> _]]; [congruence|].
    destruct (wf_own _ _ _ _ _ Hwf1 _ _ _ Hp1) as (_ & _ & Hk & e & He & Hne & _ & _ & <-).
    apply (disown_gone s1 new user_entries 4 own1 k e); [rewrite user_entries_Z; lia|done|done].
Qed.

Lemma cnt_pos_inv f l : 1 ≤ cnt f l → ∃ j e, l !! j = Some e ∧ GET_ADDR_FROM_ENTRY e = f.
Proof.
  induction l as [|e l IH]; cbn; [lia|]. case_decide; [by exists 0%nat, e|].
  intros (j & e' & ? & ?)%IH. by exists (S j), e'.
Qed.

Lemma dir_refs_ext s s' pd pd' f n lo :
  (∀ i, lo ≤ i < lo + Z.of_nat n → table_refs s pd i f = table_refs s' pd' i f) →
  dir_refs s pd f n lo = dir_refs s' pd' f n lo.
Proof.
  revert lo. induction n as [|n IH]; intros lo Hi; cbn [dir_refs]; [done|].
  rewrite Hi by lia. f_equal. apply IH. intros i Hr. apply Hi. lia.
Qed.

Lemma dir_refs_zero s pd f n lo :
  (∀ i, lo ≤ i < lo + Z.of_nat n → table_refs s pd i f = 0) → dir_refs s pd f n lo = 0.
Proof.
  revert lo. induction n as [|n IH]; intros lo Hi; cbn [dir_refs]; [done|].
  rewrite Hi by lia. rewrite IH; [done|]. intros i Hr. apply Hi. lia.
Qed.

(** A frame written through another directory is not mapped by [pd]. *)
Lemma private_not_shared s own pds fs pd q pt k j e n lo :
  vm_wf none s own pds fs → cow_ok s own → pd ∈ pds → own !! pt = Some (q, k) → q ≠ pd →
  entry_at s pt j = Some e → e ≠ PAGE_TABLE_ENTRY_DEFAULT → writable e = true →
  4 ≤ lo → lo + Z.of_nat n ≤ 1024 → dir_refs s pd (GET_ADDR_FROM_ENTRY e) n lo = 0.
Proof.
  intros Hwf Hcow Hpd Ho Hq He Hne Hw Hlo Hn. apply dir_refs_zero. intros i Hi. unfold table_refs.
  destruct (entry_at s pd i) as [d|] eqn:Hd; [|done]. case_decide as Ed; [done|].
  destruct (table_of_entry _ _ _ _ _ pd i d Hwf) as (Ho' & _ & _); [done|lia|done..|].
  pose proof (cnt_nonneg (GET_ADDR_FROM_ENTRY e) (page s (GET_ADDR_FROM_ENTRY d))).
  destruct (decide (1 ≤ cnt (GET_ADDR_FROM_ENTRY e) (page s (GET_ADDR_FROM_ENTRY d)))) as [Hc|]; [|lia].
  apply cnt_pos_inv in Hc as (j' & e' & He' & Ea).
  destruct (wf_own _ _ _ _ _ Hwf _ _ _ Ho') as (Hk & _).
  destruct (wf_page _ _ _ _ _ Hwf _ Hk) as (_ & _ & l & Hl & _).
  assert (entry_at s (GET_ADDR_FROM_ENTRY d) (Z.of_nat j') = Some e') as Hent.
  { apply (page_entry_at _ _ _ _ l); [done|lia|]. rewrite Nat2Z.id.
    unfold page in He'. by rewrite Hl in He'. }
  pose proof (refs_two s own pt j e _ _ e' (mk_is_Some _ _ Ho) He (mk_is_Some _ _ Ho') Hent
    (eq_sym Ea)) as Htwo.
  rewrite (Hcow pt j e) in Htwo by (done || by eauto).
  assert (2 ≤ 1); [|lia]. apply Htwo. intros [= -> _]. congruence.
Qed.

(** References of the clone are those of the original. *)
Lemma cloned_refs s own pds fs pd new s1 own1 f :
  vm_wf none s own pds fs → pd ∈ pds → cloning s own pds fs pd new 1024 s1 own1 → new ∈ pds →
  (∀ p k, own !! p ≠ Some (new, k)) →
  refs s1 own1 f = refs s own f + dir_refs s pd f user_entries 4.
Proof.
  intros Hwf Hpd Hcl Hnew Hno. pose proof (cl_wf _ _ _ _ _ _ _ _ _ Hcl) as Hwf1.
  assert (dir_owns s1 new 4 own1) as Hd by (intros j e Hj; by apply (wf_dir _ _ _ _ _ Hwf1)).
  rewrite (disown_refs s1 new own1 f user_entries 4 ltac:(lia) ltac:(by rewrite user_entries_Z) Hd).
  fold (disown_dir s1 new own1). rewrite (disown_clone _ _ _ _ _ _ _ _ _ Hcl Hnew Hno). f_equal.
  - apply refs_ext. intros p Hp. apply (cl_mem _ _ _ _ _ _ _ _ _ Hcl); [by left|]. intros ->.
    destruct (wf_pds _ _ _ _ _ Hwf new Hnew) as [_ Hn]. rewrite Hn in Hp. by destruct Hp.
  - apply dir_refs_ext. rewrite user_entries_Z. intros i Hi. unfold table_refs.
    destruct (wf_pds _ _ _ _ _ Hwf pd Hpd) as [Hpk _].
    destruct (entry_exists _ _ _ _ _ pd i Hwf Hpk) as [e He]; [lia|]. rewrite He.
    case_decide as Ed; [subst e|].
    + rewrite (cl_skip _ _ _ _ _ _ _ _ _ Hcl i) by (done || lia). by rewrite decide_True.
    + destruct (cl_done _ _ _ _ _ _ _ _ _ Hcl i e) as (a & Ha & Hent & Hmem); [lia|done..|].
      destruct (wf_own _ _ _ _ _ Hwf1 _ _ _ Ha) as (_ & _ & _ & v & Hv & Hvd & _ & _ & Hva).
      rewrite Hent in Hv. injection Hv as Ev. rewrite Hent, Ev, decide_False, Hva by done.
      unfold page. by rewrite Hmem.
Qed.

(** The clone translates like the original. *)
Lemma cloned_pte s own pds fs pd new s1 own1 va :
  vm_wf none s own pds fs → pd ∈ pds → new ∈ pds → cloning s own pds fs pd new 1024 s1 own1 →
  pd ≠ new → word va → pte_at s1 new va = pte_at s pd va.
Proof.
  intros Hwf Hpd Hnew Hcl Hne Hva. pose proof (cl_wf _ _ _ _ _ _ _ _ _ Hcl) as Hwf1.
  pose proof (pd_index_range va Hva) as Hi. pose proof (pt_index_range va Hva) as Hj.
  destruct (wf_pds _ _ _ _ _ Hwf pd Hpd) as [Hpk _].
  destruct (entry_exists _ _ _ _ _ pd (GET_PD_INDEX va) Hwf Hpk Hi) as [e He].
  destruct (decide (GET_PD_INDEX va < 4)) as [Hlo|Hhi].
  - destruct (lookup_Z (direct_map s) (GET_PD_INDEX va)) as [t Ht].
    { rewrite (proj1 (wf_dmap _ _ _ _ _ Hwf)). lia. }
    destruct (wf_kern _ _ _ _ _ Hwf (GET_PD_INDEX va) t) as [Hk Hkt]; [lia|done|].
    destruct (wf_kern _ _ _ _ _ Hwf1 (GET_PD_INDEX va) t) as [Hk1 Hkt1];
      [lia|by rewrite (cl_dm _ _ _ _ _ _ _ _ _ Hcl)|].
    pose proof (Hk pd Hpd) as Epd.
    destruct (kernel_table none s own pds fs pd (GET_PD_INDEX va) (kernel_pde t)) as [_ Et];
      [done|done|lia|done|]. rewrite Ht in Et. injection Et as Et.
    unfold pte_at. rewrite (Hk1 new Hnew), Epd. cbn. rewrite <- Et. by rewrite Hkt1, Hkt by done.
  - destruct (decide (e = PAGE_DIR_ENTRY_DEFAULT)) as [->|Hed].
    + unfold pte_at. rewrite He, (cl_skip _ _ _ _ _ _ _ _ _ Hcl) by (done || lia). done.
    + destruct (cl_done _ _ _ _ _ _ _ _ _ Hcl (GET_PD_INDEX va) e) as (a & Ha & Hent & Hmem);
        [lia|done..|].
      destruct (wf_own _ _ _ _ _ Hwf1 _ _ _ Ha) as (_ & _ & _ & v & Hv & _ & _ & Hvp & Hva').
      destruct (table_of_entry _ _ _ _ _ pd (GET_PD_INDEX va) e Hwf) as (_ & Hep & _); [done|lia|done..|].
      rewrite (pte_at_dir _ _ _ v), (pte_at_dir _ _ _ e) by done. rewrite Hva'.
      unfold entry_at. by rewrite Hmem.
Qed.

(** Every writable entry after the marking belongs to a third directory. *)
Lemma cloned_cow s own pds fs pd new s1 own1 s2 s3 :
  vm_wf none s own pds fs → cow_ok s own → pd ∈ pds → new ∈ pds → pd ≠ new →
  (∀ p k, own !! p ≠ Some (new, k)) → cloning s own pds fs pd new 1024 s1 own1 →
  cowed s1 own1 pd s2 → cowed s2 own1 new s3 → cow_ok s3 own1.
Proof.
  intros Hwf Hcow Hpd Hnew Hne Hno Hcl Hc1 Hc2. pose proof (cl_wf _ _ _ _ _ _ _ _ _ Hcl) as Hwf1.
  pose proof (cowed_wf _ _ _ _ _ _ Hwf1 Hpd Hc1) as Hwf2.
  assert (∀ e, e ≠ PAGE_TABLE_ENTRY_DEFAULT → ∀ o, cow_entry <$> o = Some e → writable e = false) as Hro.
  { intros e Hed o (e' & _ & ->)%fmap_Some. apply cow_entry_writable. by intros ->. }
  intros pt j e [[q k] Ho] He Hed Hw. rewrite (cowed_refs _ _ _ _ _ _ _ Hwf2 Hc2).
  rewrite (cowed_refs _ _ _ _ _ _ _ Hwf1 Hc1).
  rewrite (cloned_refs s own pds fs pd new) by done.
  destruct (decide (q = new)) as [->|Hqn].
  { destruct (cowed_table _ _ _ _ _ _ _ _ j Hwf2 Hc2 Ho) as [E _]. rewrite E in He.
    apply Hro in He; [congruence|done]. }
  rewrite (entry_at_ext s2 s3) in He by (apply (cowed_other s2 own1 pds fs new); [done..|naive_solver]).
  destruct (decide (q = pd)) as [->|Hqp].
  { destruct (cowed_table _ _ _ _ _ _ _ _ j Hwf1 Hc1 Ho) as [E _]. rewrite E in He.
    apply Hro in He; [congruence|done]. }
  rewrite (entry_at_ext s1 s2) in He by (apply (cowed_other s1 own1 pds fs pd); [done..|naive_solver]).
  destruct (cl_new _ _ _ _ _ _ _ _ _ Hcl pt q k Ho) as [Ho'|[? _]]; [|done].
  rewrite (entry_at_ext s s1) in He; last first.
  { apply (cl_mem _ _ _ _ _ _ _ _ _ Hcl); [left; by eauto|]. intros ->.
    destruct (wf_pds _ _ _ _ _ Hwf new Hnew). congruence. }
  rewrite (Hcow pt j e) by (done || by eauto).
  rewrite (private_not_shared s own pds fs pd q pt k j e) by (done || rewrite ?user_entries_Z; lia).
  lia.
Qed.

(** The state before the loop. *)
Lemma cloning_start s0 own pds fs pd new l s :
  vm_wf none s0 own pds fs → new_page s0 new l s own pds →
  vm_wf none s own ({[new]} ∪ pds) fs →
  (∀ i, 4 ≤ i < 1024 → entry_at s new i = Some PAGE_DIR_ENTRY_DEFAULT) →
  (∀ p k, own !! p ≠ Some (new, k)) ∧ new ∉ pds ∧ cloning s own ({[new]} ∪ pds) fs pd new 4 s own.
Proof.
  intros Hwf0 Hnp Hwf Hdef. pose proof (np_fresh _ _ _ _ _ _ Hnp) as Hfr.
  assert (new ∉ pds) as Hnew by (intros Hn; apply Hfr; by apply (wf_pds _ _ _ _ _ Hwf0)).
  assert (∀ p k, own !! p ≠ Some (new, k)) as Hno.
  { intros p k Hp. by destruct (wf_own _ _ _ _ _ Hwf0 _ _ _ Hp) as (_ & ? & _). }
  split_and!; [done|done|]. split; try done.
  - by left.
  - intros j e Hj. lia.
  - intros j Hj. lia.
  - intros p. split; [by left|]. intros [?|[k Hk]]; [done|]. by apply Hno in Hk.
  - intros p k Hk. by apply Hno in Hk.
Qed.

(** Fork's failure: everything is as before. *)
Record rolled_back s own pds fs s' fs' : Prop := {
  rb_wf : vm_wf none s' own pds fs';
  rb_cow : cow_ok s' own;
  rb_free : ∀ f, f ∈ fs' ↔ f ∈ fs;
  rb_pages : ∀ p, p ∈ kh_pages (kheap s') ↔ p ∈ kh_pages (kheap s);
  rb_mem : ∀ p, in_use s own pds p → kmem s' !! p = kmem s !! p;
  rb_phys : phys s' = phys s;
  rb_cr3 : cr3 s' = cr3 s;
}.

(** Fork's success: the child shares every frame, copy-on-write. *)
Record forked s own pds fs (pd new : Z) s' own' : Prop := {
  fk_wf : vm_wf none s' own' ({[new]} ∪ pds) fs;
  fk_cow : cow_ok s' own';
  fk_new : new ∉ pds;
  fk_child : ∀ va, word va → USER_MEM_START ≤ va →
    pte_at s' new va = cow_entry <$> pte_at s pd va;
  fk_parent : ∀ va, word va → USER_MEM_START ≤ va →
    pte_at s' pd va = cow_entry <$> pte_at s pd va;
  fk_other : ∀ pd' va, pd' ∈ pds → pd' ≠ pd → word va → pte_at s' pd' va = pte_at s pd' va;
  fk_kernel : ∀ pd' va, pd' ∈ {[new]} ∪ pds → word va → va < USER_MEM_START →
    pte_at s' pd' va = pte_at s pd va;
  fk_phys : phys s' = phys s;
  fk_cr3 : cr3 s' = cr3 s;
}.

(** Kernel addresses translate alike in every directory. *)
Lemma kernel_pte_at x s own pds fs pd va :
  vm_wf x s own pds fs → pd ∈ pds → word va → va < USER_MEM_START →
  pte_at s pd va = Some (kernel_pte (GET_PD_INDEX va) (GET_PT_INDEX va)).
Proof.
  intros Hwf Hpd Hva Hk. pose proof (pd_index_range va Hva) as Hi.
  pose proof (pt_index_range va Hva) as Hj. pose proof (pd_index_user va Hva) as Hu.
  change KERNEL_MAP_NUM_ENTRIES with 4 in Hu.
  destruct (lookup_Z (direct_map s) (GET_PD_INDEX va)) as [t Ht].
  { rewrite (proj1 (wf_dmap _ _ _ _ _ Hwf)). lia. }
  destruct (wf_kern _ _ _ _ _ Hwf (GET_PD_INDEX va) t) as [Hke Hkt]; [lia|done|].
  destruct (kernel_table x s own pds fs pd (GET_PD_INDEX va) (kernel_pde t)) as [_ Et];
    [done|done|lia|by apply Hke|]. rewrite Ht in Et. injection Et as Et.
  rewrite (pte_at_dir _ _ _ (kernel_pde t)); [|by apply Hke|by apply test_or_sub].
  rewrite <- Et, Hkt by done. cbn [mbind option_bind].
  assert (present (kernel_pte (GET_PD_INDEX va) (GET_PT_INDEX va)) = true) as ->; [|done].
  by apply test_or_sub.
Qed.

Lemma clone_rollback s own pds fs pd new l s1 i s2 own2 :
  vm_wf none s own pds fs → cow_ok s own → new_page s new l s1 own pds →
  (∀ p k, own !! p ≠ Some (new, k)) → new ∉ pds →
  cloning s1 own ({[new]} ∪ pds) fs pd new i s2 own2 →
  ∃ s' fs', free_paging_info new s2 = Ok tt s' ∧ rolled_back s own pds fs s' fs'.
Proof.
  intros Hwf Hcow Hnp Hno Hnew Hcl. pose proof (cl_wf _ _ _ _ _ _ _ _ _ Hcl) as Hwf2.
  assert (new ∈ {[new]} ∪ pds) as Hin by (by apply elem_of_union_l, elem_of_singleton).
  destruct (free_paging_info_ok s2 own2 _ fs new Hwf2 Hin) as
    (s' & fs' & Hrun & Hwf' & Hm & Hph & Hcr & Hdm & Hk & Hpg).
  rewrite (disown_clone _ _ _ _ _ _ _ _ _ Hcl Hin Hno) in *.
  replace (({[new]} ∪ pds) ∖ {[new]}) with pds in * by (apply set_eq; set_solver).
  destruct (np_shape _ _ _ _ _ _ Hnp) as (h & k & Es1).
  assert (direct_map s2 = direct_map s) as Ed
    by (rewrite (cl_dm _ _ _ _ _ _ _ _ _ Hcl), Es1; done).
  assert (∀ p, in_use s own pds p → kmem s' !! p = kmem s !! p) as Hmem.
  { intros p Hu. assert (p ∈ kh_pages (kheap s)) as Hp by (by apply (in_use_page _ _ _ _ _ _ Hwf)).
    assert (p ≠ new) as Hpn by (intros ->; by apply (np_fresh _ _ _ _ _ _ Hnp)).
    rewrite Hk by (unfold in_use in *; by rewrite Ed).
    rewrite (cl_mem _ _ _ _ _ _ _ _ _ Hcl);
      [by rewrite (np_kmem _ _ _ _ _ _ Hnp), lookup_insert_ne| |done].
    destruct Hu as [?|[?|?]]; [by left|right; left; by apply elem_of_union_r|right; right; by subst s1]. }
  assert (∀ f, refs s' own f = refs s own f) as Hr
    by (intros f; apply refs_ext; intros p Hp; apply Hmem; by left).
  exists s', fs'. split; [done|]. split; [done| | | |done|..].
  - apply (cow_ext s); [|done]. intros p Hp. apply Hmem. by left.
  - assert (machine_phys_frames (fa s') = machine_phys_frames (fa s)) as Hms.
    { rewrite Hm, (cl_fa _ _ _ _ _ _ _ _ _ Hcl), Es1. done. }
    intros f. split; intros Hf.
    + assert (is_frame (fa s') f) as Hfr.
      { pose proof (fs_frames _ _ (wf_alloc _ _ _ _ _ Hwf')) as Hall. by eapply Forall_forall in Hall. }
      apply (wf_free _ _ _ _ _ Hwf' f Hfr) in Hf. rewrite Hr in Hf.
      apply (wf_free _ _ _ _ _ Hwf f); [|done]. by apply (is_frame_machine _ (fa s')).
    + assert (is_frame (fa s) f) as Hfr.
      { pose proof (fs_frames _ _ (wf_alloc _ _ _ _ _ Hwf)) as Hall. by eapply Forall_forall in Hall. }
      apply (wf_free _ _ _ _ _ Hwf f Hfr) in Hf. rewrite <- Hr in Hf.
      apply (wf_free _ _ _ _ _ Hwf' f); [|done]. by apply (is_frame_machine (fa s)).
  - intros p. rewrite Hpg, (cl_pages _ _ _ _ _ _ _ _ _ Hcl), (np_pages _ _ _ _ _ _ Hnp).
    rewrite elem_of_union, elem_of_singleton. split; [naive_solver|].
    intros Hp. assert (p ≠ new) by (intros ->; by apply (np_fresh _ _ _ _ _ _ Hnp)).
    split_and!; [by left; right|done|]. intros j Hj.
    apply (cl_fresh _ _ _ _ _ _ _ _ _ Hcl p j Hj). rewrite (np_pages _ _ _ _ _ _ Hnp).
    by apply elem_of_union_r.
  - rewrite Hph, (cl_phys _ _ _ _ _ _ _ _ _ Hcl), Es1. done.
  - rewrite Hcr, (cl_cr3 _ _ _ _ _ _ _ _ _ Hcl), Es1. done.
Qed.

Lemma heap_same_rolled_back s own pds fs s' :
  vm_wf none s own pds fs → cow_ok s own → heap_same s s' → vm_wf none s' own pds fs →
  rolled_back s own pds fs s' fs.
Proof. intros Hwf Hcow (h & -> & Hh) Hwf'. split; try done. intros p. cbn. by rewrite Hh. Qed.

(** After the loop and the two markings. *)
Lemma clone_forked s own pds fs pd new l s1 s2 own2 s3 s4 :
  vm_wf none s own pds fs → cow_ok s own → pd ∈ pds → new_page s new l s1 own pds →
  vm_wf none s1 own ({[new]} ∪ pds) fs → (∀ p k, own !! p ≠ Some (new, k)) → new ∉ pds →
  cloning s1 own ({[new]} ∪ pds) fs pd new 1024 s2 own2 →
  cowed s2 own2 pd s3 → cowed s3 own2 new s4 → forked s own pds fs pd new s4 own2.
Proof.
  intros Hwf Hcow Hpd Hnp Hwf1 Hno Hnew Hcl Hc1 Hc2.
  assert (new ∈ {[new]} ∪ pds) as Hin by (by apply elem_of_union_l, elem_of_singleton).
  assert (∀ q, q ∈ pds → q ∈ {[new]} ∪ pds) as Hsub by (intros; by apply elem_of_union_r).
  assert (pd ≠ new) as Hne by congruence.
  pose proof (cl_wf _ _ _ _ _ _ _ _ _ Hcl) as Hwf2.
  pose proof (cowed_wf _ _ _ _ _ _ Hwf2 (Hsub pd Hpd) Hc1) as Hwf3.
  pose proof (cowed_wf _ _ _ _ _ _ Hwf3 Hin Hc2) as Hwf4.
  destruct (np_shape _ _ _ _ _ _ Hnp) as (h & k & Es1).
  assert (∀ p, in_use s own pds p → p ≠ new) as Hun.
  { intros p Hu ->. apply (np_fresh _ _ _ _ _ _ Hnp). by apply (in_use_page _ _ _ _ _ _ Hwf). }
  assert (∀ p, in_use s own pds p → kmem s1 !! p = kmem s !! p) as Hm1.
  { intros p Hu. rewrite (np_kmem _ _ _ _ _ _ Hnp), lookup_insert_ne; [done|]. intros <-. by eapply Hun. }
  assert (∀ p, in_use s own pds p → kmem s2 !! p = kmem s !! p) as Hm2.
  { intros p Hu. rewrite (cl_mem _ _ _ _ _ _ _ _ _ Hcl); [by apply Hm1| |by apply Hun].
    destruct Hu as [?|[?|?]]; [by left|right; left; by apply Hsub|right; right; by subst s1]. }
  assert (∀ q va, q ∈ pds → word va → pte_at s2 q va = pte_at s q va) as Hpte2
    by (intros q va Hq Hva; by apply (pte_at_same none s s2 own pds fs)).
  assert (∀ va, word va → pte_at s2 new va = pte_at s pd va) as Hptenew.
  { intros va Hva. rewrite (cloned_pte s1 own _ fs pd new s2 own2) by (done || by apply Hsub).
    by apply (pte_at_same none s s1 own pds fs). }
  assert (∀ q va, q ∈ {[new]} ∪ pds → word va → pte_at s4 q va =
    if decide ((q = pd ∨ q = new) ∧ USER_MEM_START ≤ va) then cow_entry <$> pte_at s2 q va
    else pte_at s2 q va) as Hpte4.
  { intros q va Hq Hva. rewrite (cowed_pte s3 own2 _ fs new s4 q va) by done.
    rewrite !(cowed_pte s2 own2 _ fs pd s3) by (done || by apply Hsub).
    repeat case_decide; naive_solver. }
  split; [done| |done|..].
  - by apply (cloned_cow s1 own ({[new]} ∪ pds) fs pd new s2 own2 s3); [done|
      apply (cow_ext s); [intros p Hp; apply Hm1; by left|done]|by apply Hsub|done..].
  - intros va Hva Hu. rewrite Hpte4, decide_True by first [done|by (split; [right|])]. by rewrite Hptenew.
  - intros va Hva Hu. rewrite Hpte4, decide_True by first [done|by apply Hsub|by (split; [left|])].
    by rewrite Hpte2.
  - intros q va Hq Hqp Hva. rewrite Hpte4, decide_False by first [done|by apply Hsub|naive_solver].
    by apply Hpte2.
  - intros q va Hq Hva Hk. rewrite (kernel_pte_at _ _ _ _ _ _ _ Hwf4) by done.
    by rewrite (kernel_pte_at _ _ _ _ _ _ _ Hwf) by done.
  - destruct Hc1 as (? & -> & _), Hc2 as (? & -> & _). cbn.
    rewrite (cl_phys _ _ _ _ _ _ _ _ _ Hcl), Es1. done.
  - destruct Hc1 as (? & -> & _), Hc2 as (? & -> & _). cbn.
    rewrite (cl_cr3 _ _ _ _ _ _ _ _ _ Hcl), Es1. done.
Qed.

Lemma clone_paging_info_ok s own pds fs pd :
  vm_wf none s own pds fs → cow_ok s own → pd ∈ pds →
  ∃ new s', clone_paging_info pd s = Ok new s' ∧
    (new = NULL ∧ (∃ fs', rolled_back s own pds fs s' fs') ∨
     new ≠ NULL ∧ ∃ own', forked s own pds fs pd new s' own').
Proof.
  intros Hwf Hcow Hpd. destruct (wf_pds _ _ _ _ _ Hwf pd Hpd) as [Hpk _].
  destruct (wf_page _ _ _ _ _ Hwf pd Hpk) as (_ & Hlow & _).
  unfold clone_paging_info. rewrite decide_False by (unfold NULL; lia).
  destruct (create_page_directory_ok _ _ _ _ _ Hwf) as (new & s1 & Hrun & Hcase).
  rewrite (bind_ok _ _ _ _ _ Hrun). destruct Hcase as [(-> & Hh & Hwf1)|(l & Hnp & Hwf1 & Hdef)].
  { exists NULL, s1. rewrite decide_True by done. split; [done|left]. split; [done|].
    exists fs. by apply heap_same_rolled_back. }
  rewrite decide_False by apply Hnp.
  destruct (cloning_start s own pds fs pd new l s1 Hwf Hnp Hwf1 Hdef) as (Hno & Hnew & Hcl).
  assert (new ∈ {[new]} ∪ pds) as Hin by (by apply elem_of_union_l, elem_of_singleton).
  assert (pd ∈ {[new]} ∪ pds) as Hpd' by (by apply elem_of_union_r).
  rewrite user_entries_code. change KERNEL_MAP_NUM_ENTRIES with 4.
  destruct (clone_tables_ok user_entries 4 s1 own _ fs pd new s1 own Hwf1 Hpd' Hin) as
    (ok & s2 & own2 & i & Hrun2 & Hcl2 & Hok); [congruence|lia|by rewrite user_entries_Z|done|].
  rewrite (bind_ok _ _ _ _ _ Hrun2). destruct ok.
  - rewrite (Hok eq_refl) in Hcl2. pose proof (cl_wf _ _ _ _ _ _ _ _ _ Hcl2) as Hwf2.
    destruct (make_pages_cow_ok _ _ _ _ pd Hwf2 Hpd') as (s3 & Hrun3 & Hc3).
    pose proof (cowed_wf _ _ _ _ _ _ Hwf2 Hpd' Hc3) as Hwf3.
    destruct (make_pages_cow_ok _ _ _ _ new Hwf3 Hin) as (s4 & Hrun4 & Hc4).
    exists new, s4. rewrite (bind_ok _ _ _ _ _ Hrun3), (bind_ok _ _ _ _ _ Hrun4).
    split; [done|right]. split; [apply Hnp|]. exists own2. by eapply clone_forked.
  - destruct (clone_rollback s own pds fs pd new l s1 i s2 own2) as (s' & fs' & Hfree & Hrb); [done..|].
    exists NULL, s'. rewrite (bind_ok _ _ _ _ _ Hfree). split; [done|left]. split; [done|]. by exists fs'.
Qed.

End cow.
