(* ===== verification/VMFault.v ===== *)
(** * Virtual memory: handling a copy-on-write fault

    [handle_cow] on a present page of the current address space: the page ends
    up writable and private, no process sees a changed byte, and when there is
    no frame for the copy nothing changes at all. *)

From S2P Require Import Prelude Locks FrameAlloc Paging VM VMInv VMPages VMMap VMCow.

(** The entry [handle_cow] leaves: frame [f], the flags of [e] less the
    copy-on-write mark, writable. *)
Definition uncow_entry (f e : Z) : Z :=
  Z.lor (Z.land (Z.lor f (GET_FLAGS_FROM_ENTRY e)) COW_MODE_DISABLE_MASK) READ_WRITE_ENABLE.

Lemma entry_split e : word e → Z.lor (GET_ADDR_FROM_ENTRY e) (GET_FLAGS_FROM_ENTRY e) = e.
Proof.
  intros He. destruct (addr_aligned e He) as [Ha _].
  rewrite lor_page by (done || apply flags_range).
  unfold GET_ADDR_FROM_ENTRY, GET_FLAGS_FROM_ENTRY. rewrite land_hi, land_lo by done. lia.
Qed.

Lemma uncow_facts a f e :
  machine_ok a → is_frame a f → word e → present e = true →
  let v := uncow_entry f e in
  v ≠ PAGE_TABLE_ENTRY_DEFAULT ∧ word v ∧ present v = true ∧ GET_ADDR_FROM_ENTRY v = f ∧
  writable v = true ∧ test v COW_MODE = false.
Proof.
  intros Hm Hf He Hp v. pose proof (flags_range e) as Hfl.
  assert (present (GET_FLAGS_FROM_ENTRY e) = true) as Hpf by (by rewrite <- Hp; apply test_flags).
  destruct (frame_entry a f (GET_FLAGS_FROM_ENTRY e) Hm Hf Hfl Hpf) as (_ & Hw & Hp1 & Ha).
  assert (GET_ADDR_FROM_ENTRY v = f) as Hva.
  { unfold v, uncow_entry. by rewrite addr_or_flags, addr_and_mask. }
  split_and!.
  - intros E. rewrite E, addr_default in Hva. destruct Hf as [_ Hr]. unfold USER_MEM_START in Hr. lia.
  - apply word_lor; [|done]. by apply word_land.
  - unfold v, uncow_entry, present. rewrite test_or_disj, test_and_sub by done. exact Hp1.
  - done.
  - by apply test_or_sub.
  - unfold v, uncow_entry. rewrite test_or_disj by done. by apply test_and_disj.
Qed.

Section fault.
Context {H : Type} `{KernelHeapSpec H}.
Implicit Types (s : vm H) (own : gmap Z (Z * Z)) (pds : gset Z) (fs : list Z).

(** The table and entry a mapped user address goes through. *)
Lemma pte_at_inv x s own pds fs pd va e :
  vm_wf x s own pds fs → pd ∈ pds → word va → USER_MEM_START ≤ va → pte_at s pd va = Some e →
  ∃ d, entry_at s pd (GET_PD_INDEX va) = Some d ∧
    own !! GET_ADDR_FROM_ENTRY d = Some (pd, GET_PD_INDEX va) ∧
    entry_at s (GET_ADDR_FROM_ENTRY d) (GET_PT_INDEX va) = Some e ∧ present e = true ∧
    e ≠ PAGE_TABLE_ENTRY_DEFAULT ∧ word e ∧ is_frame (fa s) (GET_ADDR_FROM_ENTRY e).
Proof.
  intros Hwf Hpd Hva Hu. apply pd_index_user in Hu; [|done]. change KERNEL_MAP_NUM_ENTRIES with 4 in Hu.
  pose proof (pd_index_range va Hva) as Hi. unfold pte_at.
  destruct (entry_at s pd (GET_PD_INDEX va)) as [d|] eqn:Hd; [|done]. cbn [mbind option_bind].
  destruct (present d) eqn:Hdp; [|done].
  destruct (entry_at s (GET_ADDR_FROM_ENTRY d) (GET_PT_INDEX va)) as [e'|] eqn:He; [|done].
  cbn [mbind option_bind]. destruct (present e') eqn:Hp; [|done]. intros [= <-].
  destruct (wf_dir _ _ _ _ _ Hwf pd (GET_PD_INDEX va) d) as [->|Ho]; [done|lia|done|done|].
  assert (e' ≠ PAGE_TABLE_ENTRY_DEFAULT) as Hne by (by intros ->).
  destruct (wf_tab _ _ _ _ _ Hwf _ _ e' (mk_is_Some _ _ Ho) He) as [?|(? & _ & ?)]; [done|].
  exists d. by split_and!.
Qed.

Lemma upd_entry_twice s p i v w :
  upd_entry p i w (upd_entry p i v s) = upd_entry p i w s.
Proof.
  unfold upd_entry at 1. rewrite page_upd, decide_True by done.
  unfold upd_entry. cbn [kmem set_kmem].
  rewrite insert_insert_eq, list_insert_insert_eq. done.
Qed.

Lemma set_cr3_id s : set_cr3 (cr3 s) s = s.
Proof. by destruct s. Qed.

Lemma wf_set_cr3 x v own pds fs c : vm_wf x v own pds fs → vm_wf x (set_cr3 c v) own pds fs.
Proof. by intros []. Qed.

(** [s'] is [s] after a successful fault at [addr]: frame [f] is private. *)
Record resolved s own pds (addr e f : Z) s' fs' : Prop := {
  rs_wf : vm_wf none s' own pds fs';
  rs_cow : cow_ok s' own;
  rs_pte : ∀ pd va, pd ∈ pds → word va →
    pte_at s' pd va = if decide (pd = cr3 s ∧ page_of va = page_of addr)
                      then Some (uncow_entry f e) else pte_at s pd va;
  rs_private : refs s' own f = 1;
  rs_data : frame_data s' f = frame_data s (GET_ADDR_FROM_ENTRY e);
  rs_phys : ∀ g, g ≠ f → phys s' !! g = phys s !! g;
  rs_cr3 : cr3 s' = cr3 s;
}.

(** Overwriting the entry of a page. *)
Lemma pte_write s own pds fs addr e v d :
  vm_wf none s own pds fs → cr3 s ∈ pds → word addr →
  own !! GET_ADDR_FROM_ENTRY d = Some (cr3 s, GET_PD_INDEX addr) →
  entry_at s (GET_ADDR_FROM_ENTRY d) (GET_PT_INDEX addr) = Some e → present v = true →
  ∀ pd va, pd ∈ pds → word va →
  pte_at (upd_entry (GET_ADDR_FROM_ENTRY d) (GET_PT_INDEX addr) v s) pd va =
  if decide (pd = cr3 s ∧ page_of va = page_of addr) then Some v else pte_at s pd va.
Proof.
  intros Hwf Hpd Hva Ho He Hp pd va Hpd' Hva'.
  rewrite (pte_at_upd none s own pds fs _ (cr3 s) (GET_PD_INDEX addr) _ v e) by done. rewrite Hp.
  assert (word (page_of addr)) as Hw by (unfold word, page_of in *; dlia).
  assert (page_of addr mod 4096 = 0) as Hm by (unfold page_of; dlia).
  pose proof (same_page va (page_of addr) Hva' Hw Hm) as Hs.
  pose proof (indices_page addr (page_of addr) Hva Hw) as [_ Hia].
  destruct Hia as [E1 E2]; [unfold page_of; dlia|]. rewrite E1, E2 in *.
  case_decide; case_decide; naive_solver.
Qed.

(** Entry [v] for frame [f] replaces [e]: copy-on-write safety when [f] is then
    mapped once and other counts do not grow. *)
Lemma cow_replace s own pt j e v s' :
  cow_ok s own → is_Some (own !! pt) → entry_at s pt j = Some e → s' = upd_entry pt j v s →
  refs s' own (GET_ADDR_FROM_ENTRY v) = 1 →
  cow_ok s' own.
Proof.
  intros Hcow Ho He -> Hv p i e' Hp Hi Hd Hw. rewrite entry_at_upd in Hi by eauto.
  case_decide as E; [by injection Hi as <-|].
  destruct (decide (GET_ADDR_FROM_ENTRY e' = GET_ADDR_FROM_ENTRY v)) as [->|Hne]; [done|].
  assert (entry_at (upd_entry pt j v s) p i = Some e') as Hi'
    by (by rewrite entry_at_upd, decide_False by eauto).
  pose proof (refs_pos _ own p i e' Hp Hi') as Hpos.
  rewrite (refs_upd_own _ _ _ _ _ e) in * by done.
  rewrite (Hcow p i e') in * by done.
  rewrite (decide_False (P := GET_ADDR_FROM_ENTRY v = _)) in * by done. case_decide; lia.
Qed.

Lemma set_lock_head f m h a : set_lock f m (set_head h a) = set_head h (set_lock f m a).
Proof. done. Qed.

(** The frame is mapped nowhere else: the entry alone changes. *)
Lemma handle_cow_private s own pds fs addr e :
  vm_wf none s own pds fs → cow_ok s own → cr3 s ∈ pds → word addr → USER_MEM_START ≤ addr →
  pte_at s (cr3 s) addr = Some e → refs s own (GET_ADDR_FROM_ENTRY e) = 1 →
  ∃ s', handle_cow addr s = Ok 0 s' ∧ resolved s own pds addr e (GET_ADDR_FROM_ENTRY e) s' fs.
Proof.
  intros Hwf Hcow Hpd Hva Hu Hpte Hone.
  destruct (pte_at_inv _ _ _ _ _ _ _ _ Hwf Hpd Hva Hu Hpte) as (d & Hd & Ho & He & Hp & Hne & Hw & Hf).
  set (pt := GET_ADDR_FROM_ENTRY d) in *. set (j := GET_PT_INDEX addr) in *.
  set (f := GET_ADDR_FROM_ENTRY e) in *. pose proof (wf_machine _ _ _ _ _ Hwf) as Hm.
  pose proof (wf_lock_free _ _ _ _ _ _ Hwf Hf) as Hlk. pose proof (frame_index _ _ Hm Hf) as [_ Hi].
  assert (uncow_entry f e = Z.lor (Z.land e COW_MODE_DISABLE_MASK) READ_WRITE_ENABLE) as Ev
    by (unfold uncow_entry, f; by rewrite entry_split).
  destruct (uncow_facts _ f e Hm Hf Hw Hp) as (Hv0 & Hvw & Hvp & Hvf & _ & _).
  set (v := uncow_entry f e) in *. set (v1 := Z.land e COW_MODE_DISABLE_MASK) in *.
  assert (entry_at (upd_entry pt j v1 s) pt j = Some v1) as He1
    by (rewrite entry_at_upd by eauto; by rewrite decide_True).
  assert (refs (upd_entry pt j v s) own f = 1) as Hone'.
  { rewrite (refs_upd_own _ _ _ _ _ e) by (done || by eauto). fold f. rewrite Hvf, Hone. lia. }
  exists (upd_entry pt j v s). split.
  - unfold handle_cow. rewrite bind_get, (bind_ok _ _ _ _ _ (kread_ok _ _ _ _ Hd)). fold pt j.
    rewrite (bind_ok _ _ _ _ _ (kread_ok _ _ _ _ He)). fold f.
    rewrite (bind_ok _ _ _ _ _ (frames_lock_ok _ _ Hm Hf Hlk)).
    set (s1 := set_fa (set_lock f held_mutex (fa s)) s).
    rewrite (bind_ok _ _ _ 1 s1); last first.
    { apply get_ref_ok; [lia|]. change (frame_ref_count s1) with (frame_ref_count s).
      rewrite (wf_count _ _ _ _ _ Hwf f Hf), Hone. done. }
    rewrite decide_True by done.
    rewrite (bind_ok _ _ _ true (upd_entry pt j v1 s1)); last first.
    { rewrite (bind_ok _ _ _ e s1) by (by apply kread_ok).
      rewrite (bind_ok _ _ _ tt (upd_entry pt j v1 s1)); [done|].
      apply kwrite_ok. by exists e. }
    rewrite (bind_ok _ _ _ tt (upd_entry pt j v1 s)); last first.
    { rewrite frames_unlock_ok; [|done|done|].
      - change (fa (upd_entry pt j v1 s1)) with (set_lock f held_mutex (fa s)).
        rewrite set_lock_restore by done. by destruct s.
      - apply locked_lookup; [done|done|]. apply (fs_locks _ _ (wf_alloc _ _ _ _ _ Hwf)). }
    rewrite (bind_ok _ _ _ v1 (upd_entry pt j v1 s)) by (by apply kread_ok).
    rewrite <- Ev. rewrite (bind_ok _ _ _ tt (upd_entry pt j v s)); last first.
    { rewrite kwrite_ok by (by eexists). by rewrite upd_entry_twice. }
    unfold set_cur_pd. rewrite bind_modify. change (cr3 s) with (cr3 (upd_entry pt j v s)).
    by rewrite set_cr3_id.
  - split; try done.
    + eapply wf_ext; [apply (wf_write_pte none s own pds fs pt j e v Hwf (mk_is_Some _ _ Ho) He)|].
      * by apply pt_index_range.
      * right. by rewrite Hvf.
      * intros g _. unfold moved, none. fold f. rewrite Hvf. lia.
    + eapply (cow_replace s); [done|by eauto|exact He|done|]. by rewrite Hvf.
    + by apply (pte_write s own pds fs addr e v d).
Qed.

(** A reference that is not the last is dropped. *)
Lemma wf_lower_ref x s own pds fs f c :
  vm_wf x s own pds fs → is_frame (fa s) f → c = refs s own f + x f → 2 ≤ c →
  vm_wf (bump_at x f (-1))
    (recount (<[Z.to_nat (FRAME_INDEX f) := c + -1]> (frame_ref_count s)) (fa s) s) own pds fs.
Proof.
  intros Hwf Hf -> Htwo.
  destruct (wf_count_bump _ _ _ _ _ f (-1) _ Hwf Hf eq_refl) as [Hlen Hcnt].
  wf_open Hwf. eapply wf_recount; try done. intros g Hg. split; [by apply Hcnt|].
  rewrite wf_free0 by done. unfold bump_at. case_decide; subst; [lia|done].
Qed.

(** The frame lock is taken and the page read: the part the two outcomes of a
    shared page have in common. *)
Lemma translate_page s own pds fs pd addr e :
  vm_wf none s own pds fs → pd ∈ pds → word addr → USER_MEM_START ≤ addr →
  pte_at s pd addr = Some e →
  translate s pd (Z.land addr PAGE_ROUND_DOWN) = Some (GET_ADDR_FROM_ENTRY e).
Proof.
  intros Hwf Hpd Hva Hu Hpte. unfold translate.
  assert (pte_at s pd (Z.land addr PAGE_ROUND_DOWN) = pte_at s pd addr) as ->; [|by rewrite Hpte].
  rewrite page_of_land by done.
  assert (word (page_of addr)) as Hw by (unfold word, page_of in *; dlia).
  destruct (proj2 (indices_page addr (page_of addr) Hva Hw)) as [E1 E2]; [unfold page_of; dlia|].
  unfold pte_at. by rewrite E1, E2.
Qed.

Lemma handle_cow_nomem s own pds addr e :
  vm_wf none s own pds [] → cr3 s ∈ pds → word addr → USER_MEM_START ≤ addr →
  pte_at s (cr3 s) addr = Some e → refs s own (GET_ADDR_FROM_ENTRY e) ≠ 1 →
  handle_cow addr s = Ok ERR_FAILURE s.
Proof.
  intros Hwf Hpd Hva Hu Hpte Hone.
  destruct (pte_at_inv _ _ _ _ _ _ _ _ Hwf Hpd Hva Hu Hpte) as (d & Hd & Ho & He & Hp & Hne & Hw & Hf).
  set (f := GET_ADDR_FROM_ENTRY e) in *. pose proof (wf_machine _ _ _ _ _ Hwf) as Hm.
  pose proof (wf_lock_free _ _ _ _ _ _ Hwf Hf) as Hlk. pose proof (frame_index _ _ Hm Hf) as [_ Hi].
  unfold handle_cow. rewrite bind_get, (bind_ok _ _ _ _ _ (kread_ok _ _ _ _ Hd)).
  rewrite (bind_ok _ _ _ _ _ (kread_ok _ _ _ _ He)). fold f.
  rewrite (bind_ok _ _ _ _ _ (frames_lock_ok _ _ Hm Hf Hlk)).
  set (s1 := set_fa (set_lock f held_mutex (fa s)) s).
  rewrite (bind_ok _ _ _ (refs s own f) s1); last first.
  { apply get_ref_ok; [lia|]. change (frame_ref_count s1) with (frame_ref_count s).
    rewrite (wf_count _ _ _ _ _ Hwf f Hf). f_equal. unfold none. lia. }
  rewrite decide_False by done.
  rewrite (bind_ok _ _ _ false s); [done|].
  rewrite (bind_ok _ _ _ (frame_data s1 f) s1); last first.
  { unfold copy_from_page. rewrite bind_get. change (translate s1 (cr3 s1)) with (translate s (cr3 s)).
    by rewrite (translate_page s own pds [] _ _ e). }
  rewrite (bind_ok _ _ _ NULL s1); last first.
  { unfold frames. rewrite (zoom_ok _ _ _ _ NULL (fa s1)); [by destruct s|].
    apply allocate_frame_empty, free_stack_set_lock, (wf_alloc _ _ _ _ _ Hwf). }
  rewrite decide_True by done.
  rewrite (bind_ok _ _ _ tt s); [done|]. rewrite frames_unlock_ok; [|done|done|].
  - change (fa s1) with (set_lock f held_mutex (fa s)).
    rewrite set_lock_restore by done. by destruct s.
  - apply locked_lookup; [done|done|]. apply (fs_locks _ _ (wf_alloc _ _ _ _ _ Hwf)).
Qed.

(** The copy, as the code performs it under the lock of the shared frame. *)
Lemma handle_cow_copy_run s own pds nf fs addr e nxt :
  vm_wf none s own pds (nf :: fs) → cr3 s ∈ pds → word addr → USER_MEM_START ≤ addr →
  pte_at s (cr3 s) addr = Some e → refs s own (GET_ADDR_FROM_ENTRY e) ≠ 1 →
  free_frames_arr (fa s) !! Z.to_nat (FRAME_INDEX nf) = Some nxt →
  is_frame (fa s) nf → nf ≠ GET_ADDR_FROM_ENTRY e → refs s own nf = 0 →
  ∃ d, own !! GET_ADDR_FROM_ENTRY d = Some (cr3 s, GET_PD_INDEX addr) ∧
    entry_at s (GET_ADDR_FROM_ENTRY d) (GET_PT_INDEX addr) = Some e ∧
    handle_cow addr s =
    Ok 0 (set_phys (<[nf := frame_data s (GET_ADDR_FROM_ENTRY e)]> (phys s))
      (upd_entry (GET_ADDR_FROM_ENTRY d) (GET_PT_INDEX addr) (uncow_entry nf e)
        (recount (<[Z.to_nat (FRAME_INDEX nf) := 1]>
                   (<[Z.to_nat (FRAME_INDEX (GET_ADDR_FROM_ENTRY e)) :=
                       refs s own (GET_ADDR_FROM_ENTRY e) + -1]> (frame_ref_count s)))
           (set_head nxt (fa s)) s))).
Proof.
  intros Hwf Hpd Hva Hu Hpte Hone Hnxt Hnf Hnff Hnz.
  destruct (pte_at_inv _ _ _ _ _ _ _ _ Hwf Hpd Hva Hu Hpte) as (d & Hd & Ho & He & Hp & Hne & Hw & Hf).
  exists d. split; [done|]. split; [done|].
  set (pt := GET_ADDR_FROM_ENTRY d) in *. set (j := GET_PT_INDEX addr) in *.
  set (f := GET_ADDR_FROM_ENTRY e) in *. pose proof (wf_machine _ _ _ _ _ Hwf) as Hm.
  pose proof (wf_lock_free _ _ _ _ _ _ Hwf Hf) as Hlk. pose proof (frame_index _ _ Hm Hf) as [_ Hi].
  pose proof (wf_lock_free _ _ _ _ _ _ Hwf Hnf) as Hlkn. pose proof (frame_index _ _ Hm Hnf) as [_ Hin].
  assert (FRAME_INDEX nf ≠ FRAME_INDEX f) as Hix by (intros E; by apply (frame_index_inj (fa s)) in E).
  pose proof (wf_reflen _ _ _ _ _ Hwf) as Hlen.
  pose proof (fs_locks _ _ (wf_alloc _ _ _ _ _ Hwf)) as Hll.
  destruct (frame_checks _ _ Hm Hnf) as (_ & Hnnull & _ & _).
  destruct (uncow_facts _ nf e Hm Hnf Hw Hp) as (_ & _ & Hvp & Hvf & _ & _).
  set (v := uncow_entry nf e) in *. set (v0 := Z.lor nf (GET_FLAGS_FROM_ENTRY e)).
  set (v1 := Z.land v0 COW_MODE_DISABLE_MASK). set (data := frame_data s f).
  unfold handle_cow. rewrite bind_get, (bind_ok _ _ _ _ _ (kread_ok _ _ _ _ Hd)). fold pt j.
  rewrite (bind_ok _ _ _ _ _ (kread_ok _ _ _ _ He)). fold f.
  rewrite (bind_ok _ _ _ _ _ (frames_lock_ok _ _ Hm Hf Hlk)).
  set (aL := set_lock f held_mutex (fa s)). set (s1 := set_fa aL s).
  rewrite (bind_ok _ _ _ (refs s own f) s1); last first.
  { apply get_ref_ok; [lia|]. change (frame_ref_count s1) with (frame_ref_count s).
    rewrite (wf_count _ _ _ _ _ Hwf f Hf). f_equal. unfold none. lia. }
  rewrite decide_False by done.
  set (r1 := <[Z.to_nat (FRAME_INDEX f) := refs s own f + -1]> (frame_ref_count s)).
  set (r2 := <[Z.to_nat (FRAME_INDEX nf) := 1]> r1).
  set (aN := set_head nxt aL). set (s2 := set_fa aN s).
  set (ph := <[nf := data]> (phys s)).
  rewrite (bind_ok _ _ _ true (set_phys ph (upd_entry pt j v1 (recount r2 aN s)))).
  - rewrite (bind_ok _ _ _ tt (set_phys ph (upd_entry pt j v1 (recount r2 (set_head nxt (fa s)) s)))).
    2:{ rewrite frames_unlock_ok; [|done|done|].
        - cbn [fa set_phys upd_entry set_kmem recount set_refs set_fa].
          change aN with (set_lock f held_mutex (set_head nxt (fa s))).
          rewrite set_lock_restore by done. done.
        - by apply (locked_lookup (set_head nxt (fa s))). }
    assert (entry_at (upd_entry pt j v1 s) pt j = Some v1) as He1
      by (rewrite entry_at_upd by eauto; by rewrite decide_True).
    rewrite (bind_ok _ _ _ v1 (set_phys ph (upd_entry pt j v1 (recount r2 (set_head nxt (fa s)) s))))
      by (by apply kread_ok).
    rewrite (bind_ok _ _ _ tt (set_phys ph (upd_entry pt j v (recount r2 (set_head nxt (fa s)) s)))).
    2:{ rewrite kwrite_ok by (by exists v1). change (Z.lor v1 READ_WRITE_ENABLE) with v.
        change (upd_entry pt j v (set_phys ph (upd_entry pt j v1 (recount r2 (set_head nxt (fa s)) s))))
          with (set_phys ph (recount r2 (set_head nxt (fa s)) (upd_entry pt j v (upd_entry pt j v1 s)))).
        by rewrite upd_entry_twice. }
    unfold set_cur_pd. rewrite bind_modify. by destruct s.
  - rewrite (bind_ok _ _ _ data s1); last first.
    { unfold copy_from_page. rewrite bind_get. change (translate s1 (cr3 s1)) with (translate s (cr3 s)).
      by rewrite (translate_page s own pds (nf :: fs) _ _ e). }
    rewrite (bind_ok _ _ _ nf s2); last first.
    { destruct (allocate_frame_pop aL nf fs) as (nxt' & Hn' & Ha & _);
        [apply free_stack_set_lock, (wf_alloc _ _ _ _ _ Hwf)|].
      change (free_frames_arr aL) with (free_frames_arr (fa s)) in Hn'.
      rewrite Hnxt in Hn'. injection Hn' as <-. unfold frames. by rewrite (zoom_ok fa set_fa _ s1 nf aN Ha). }
    rewrite decide_False by done.
    rewrite (bind_ok _ _ _ e s2) by (by apply kread_ok).
    rewrite (bind_ok _ _ _ tt (upd_entry pt j v0 s2)) by (apply kwrite_ok; by exists e).
    assert (entry_at (upd_entry pt j v0 s) pt j = Some v0) as He0
      by (rewrite entry_at_upd by eauto; by rewrite decide_True).
    rewrite (bind_ok _ _ _ v0 (upd_entry pt j v0 s2)) by (by apply kread_ok).
    rewrite (bind_ok _ _ _ tt (upd_entry pt j v1 s2)); last first.
    { rewrite kwrite_ok by (by exists v0). by rewrite upd_entry_twice. }
    unfold set_cur_pd. rewrite bind_modify.
    change (cr3 s) with (cr3 (upd_entry pt j v1 s2)) at 1. rewrite set_cr3_id.
    rewrite (bind_ok _ _ _ tt (set_phys ph (upd_entry pt j v1 s2))); last first.
    { unfold copy_to_page. rewrite bind_get.
      assert (present v1 = true) as Hv1p
        by (rewrite <- Hvp; unfold v, uncow_entry, present; by rewrite test_or_disj).
      assert (GET_ADDR_FROM_ENTRY v1 = nf) as Hv1a
        by (rewrite <- Hvf; unfold v, uncow_entry; by rewrite addr_or_flags).
      assert (translate (upd_entry pt j v1 s2) (cr3 (upd_entry pt j v1 s2))
                (Z.land addr PAGE_ROUND_DOWN) = Some nf) as ->; [|done].
      rewrite page_of_land by done. change (cr3 (upd_entry pt j v1 s2)) with (cr3 s).
      change (translate (upd_entry pt j v1 s2)) with (translate (upd_entry pt j v1 s)).
      unfold translate. rewrite (pte_write s own pds (nf :: fs) addr e v1 d) by
        (done || (unfold word, page_of in *; dlia)).
      rewrite decide_True by (split; [done|unfold page_of; dlia]). cbn. by rewrite Hv1a. }
    rewrite (bind_ok _ _ _ tt (set_refs r1 (set_phys ph (upd_entry pt j v1 s2)))); last first.
    { rewrite (add_ref_ok _ f (-1) (refs s own f)); [done|lia|].
      change (frame_ref_count s !! Z.to_nat (FRAME_INDEX f) = Some (refs s own f)).
      rewrite (wf_count _ _ _ _ _ Hwf f Hf). f_equal. unfold none. lia. }
    rewrite (bind_ok3 _ _ _ _ _ tt (set_phys ph (upd_entry pt j v1 (recount r2 aN s)))); [done|].
    assert (free_frames_lock aN !! Z.to_nat (FRAME_INDEX nf) = Some free_mutex) as Hln.
    { cbn. rewrite list_lookup_insert_ne by lia. exact Hlkn. }
    rewrite (bind_ok _ _ _ _ _ (frames_lock_ok
      (set_refs r1 (set_phys ph (upd_entry pt j v1 s2))) nf Hm Hnf Hln)).
    erewrite bind_ok; last first.
    { apply add_ref_ok; [lia|]. cbn [frame_ref_count set_fa set_refs]. unfold r1.
      rewrite list_lookup_insert_ne by lia. rewrite (wf_count _ _ _ _ _ Hwf nf Hnf). done. }
    rewrite Hnz. rewrite frames_unlock_ok; [|done|done|].
    + cbn [fa set_fa set_refs]. change (fa _) with aN at 1. rewrite set_lock_restore by done. done.
    + apply locked_lookup; [done|done|]. cbn. rewrite length_insert. exact Hll.
Qed.

Lemma handle_cow_copy s own pds nf fs addr e :
  vm_wf none s own pds (nf :: fs) → cow_ok s own → cr3 s ∈ pds → word addr → USER_MEM_START ≤ addr →
  pte_at s (cr3 s) addr = Some e → refs s own (GET_ADDR_FROM_ENTRY e) ≠ 1 →
  ∃ s', handle_cow addr s = Ok 0 s' ∧ resolved s own pds addr e nf s' fs.
Proof.
  intros Hwf Hcow Hpd Hva Hu Hpte Hone.
  destruct (pte_at_inv _ _ _ _ _ _ _ _ Hwf Hpd Hva Hu Hpte) as (d' & _ & Ho' & He' & Hp & Hne & Hw & Hf).
  set (f := GET_ADDR_FROM_ENTRY e) in *.
  pose proof (refs_pos s own _ _ e (mk_is_Some _ _ Ho') He') as Hpos. fold f in Hpos.
  pose proof (wf_lower_ref none s own pds (nf :: fs) f (refs s own f) Hwf Hf
    ltac:(unfold none; lia) ltac:(lia)) as Hwf1.
  set (s1 := recount _ (fa s) s) in Hwf1.
  destruct (fresh_frame_ok _ _ _ _ _ _ Hwf1) as (nxt & r2 & Hnxt & _ & Hnf & Hz & -> & _ & Hwf2).
  change (refs s1 own nf) with (refs s own nf) in Hz.
  assert (nf ≠ f) as Hnff.
  { intros ->. unfold bump_at, none in *. rewrite decide_True in Hz by done. lia. }
  assert (refs s own nf = 0) as Hnz by (unfold bump_at, none in *; rewrite decide_False in Hz by done; lia).
  destruct (handle_cow_copy_run s own pds nf fs addr e nxt) as (d & Ho & He & Hrun); [done..|].
  eexists. split; [exact Hrun|]. fold f. set (pt := GET_ADDR_FROM_ENTRY d) in *.
  set (j := GET_PT_INDEX addr) in *. set (v := uncow_entry nf e) in *.
  pose proof (wf_machine _ _ _ _ _ Hwf) as Hm.
  destruct (uncow_facts _ nf e Hm Hnf Hw Hp) as (Hv0 & Hvw & Hvp & Hvf & _ & _). fold v in Hv0, Hvw, Hvp, Hvf.
  set (r2 := <[Z.to_nat (FRAME_INDEX nf) := 1]> _).
  set (s2 := recount r2 (set_head nxt (fa s)) s).
  assert (vm_wf none (upd_entry pt j v s2) own pds fs) as Hwf3.
  { eapply wf_ext; [apply (wf_write_pte (bump_at (bump_at none f (-1)) nf 1) s2 own pds fs pt j e v)|].
    - exact Hwf2.
    - by eauto.
    - exact He.
    - by apply pt_index_range.
    - right. by rewrite Hvf.
    - intros g _. unfold moved, bump_at, none. fold f. rewrite Hvf.
      repeat case_decide; congruence || lia. }
  assert (refs (upd_entry pt j v s2) own nf = 1) as Hone'.
  { rewrite (refs_upd_own _ _ _ _ _ e) by (done || by eauto). fold f. rewrite Hvf.
    change (refs s2 own nf) with (refs s own nf). rewrite Hnz.
    rewrite decide_False, decide_True by done. lia. }
  split; try done.
  - by destruct Hwf3.
  - apply (cow_ext (upd_entry pt j v s2)); [done|].
    eapply (cow_replace s2); [exact Hcow|by eauto|exact He|done|]. by rewrite Hvf.
  - intros pd va Hpd' Hva'.
    change (pte_at (upd_entry pt j v s) pd va =
      if decide (pd = cr3 s ∧ page_of va = page_of addr) then Some v else pte_at s pd va).
    by apply (pte_write s own pds (nf :: fs) addr e v d).
  - unfold frame_data at 1. cbn. by rewrite lookup_insert_eq.
  - intros g Hg. cbn. by rewrite lookup_insert_ne.
Qed.

(** Every outcome of a fault on a mapped user page. *)
Lemma handle_cow_ok s own pds fs addr e :
  vm_wf none s own pds fs → cow_ok s own → cr3 s ∈ pds → word addr → USER_MEM_START ≤ addr →
  pte_at s (cr3 s) addr = Some e →
  (handle_cow addr s = Ok ERR_FAILURE s ∧ fs = [] ∧ refs s own (GET_ADDR_FROM_ENTRY e) ≠ 1) ∨
  ∃ s' f fs', handle_cow addr s = Ok 0 s' ∧ resolved s own pds addr e f s' fs' ∧
    (f = GET_ADDR_FROM_ENTRY e ∧ fs' = fs ∨ fs = f :: fs' ∧ refs s own f = 0).
Proof.
  intros Hwf Hcow Hpd Hva Hu Hpte.
  destruct (decide (refs s own (GET_ADDR_FROM_ENTRY e) = 1)) as [Hone|Hone].
  { right. destruct (handle_cow_private s own pds fs addr e) as (s' & ? & ?); [done..|].
    exists s', (GET_ADDR_FROM_ENTRY e), fs. split_and!; [done..|by left]. }
  destruct fs as [|nf fs].
  - left. split_and!; [|done..]. by eapply handle_cow_nomem.
  - right. destruct (handle_cow_copy s own pds nf fs addr e) as (s' & ? & ?); [done..|].
    exists s', nf, fs. split_and!; [done..|]. right. split; [done|].
    pose proof (wf_free _ _ _ _ _ Hwf nf) as [Hz _].
    { pose proof (fs_frames _ _ (wf_alloc _ _ _ _ _ Hwf)) as [? _]%Forall_cons. done. }
    unfold none in Hz. rewrite Z.add_0_r in Hz. apply Hz. by left.
Qed.

Lemma kernel_pte_addr i j :
  0 ≤ i < 4 → 0 ≤ j < 1024 → GET_ADDR_FROM_ENTRY (kernel_pte i j) = (i * 1024 + j) * 4096.
Proof.
  intros Hi Hj. unfold kernel_pte, NUM_PAGE_TABLE_ENTRIES, PAGE_SIZE.
  apply addr_of_entry; [dlia|lia|done].
Qed.

(** A fault is invisible to every reader of memory. *)
Lemma resolved_reads s own pds addr e f fs s' fs' pd va :
  vm_wf none s own pds fs → cr3 s ∈ pds → word addr → USER_MEM_START ≤ addr →
  pte_at s (cr3 s) addr = Some e → resolved s own pds addr e f s' fs' →
  (f = GET_ADDR_FROM_ENTRY e ∨ refs s own f = 0) → is_frame (fa s) f →
  pd ∈ pds → word va → read_byte s' pd va = read_byte s pd va.
Proof.
  intros Hwf Hcr Hva0 Hu Hpte Hrs Hf Hfr Hpd Hva.
  destruct (pte_at_inv _ _ _ _ _ _ _ _ Hwf Hcr Hva0 Hu Hpte) as (d & _ & Ho & He & Hp & Hne & Hw & Hfe).
  destruct (uncow_facts _ f e (wf_machine _ _ _ _ _ Hwf) Hfr Hw Hp) as (_ & _ & _ & Hvf & _ & _).
  unfold read_byte, translate. rewrite (rs_pte _ _ _ _ _ _ _ _ Hrs) by done.
  case_decide as E.
  - destruct E as [-> Epg].
    assert (pte_at s (cr3 s) va = Some e) as ->.
    { rewrite <- Hpte. unfold pte_at.
      destruct (proj2 (indices_page va addr Hva Hva0)) as [-> ->]; [|done].
      unfold page_of in Epg. dlia. }
    cbn. rewrite Hvf, (rs_data _ _ _ _ _ _ _ _ Hrs). done.
  - destruct (pte_at s pd va) as [e'|] eqn:Hpte'; [|done]. cbn. do 2 f_equal.
    destruct (decide (GET_ADDR_FROM_ENTRY e' = f)) as [Ef|Ef].
    + destruct Hf as [->|Hz].
      * rewrite Ef. by rewrite (rs_data _ _ _ _ _ _ _ _ Hrs).
      * exfalso. destruct (decide (USER_MEM_START ≤ va)) as [Hvu|Hvk].
        -- destruct (pte_at_inv _ _ _ _ _ _ _ _ Hwf Hpd Hva Hvu Hpte') as (d' & _ & Ho' & He' & _).
           pose proof (refs_pos s own _ _ e' (mk_is_Some _ _ Ho') He'). rewrite Ef in *. lia.
        -- rewrite (kernel_pte_at _ _ _ _ _ _ _ Hwf) in Hpte' by (done || lia). injection Hpte' as <-.
           pose proof (pd_index_user va Hva) as Hiu. change KERNEL_MAP_NUM_ENTRIES with 4 in Hiu.
           pose proof (pd_index_range va Hva). pose proof (pt_index_range va Hva).
           rewrite kernel_pte_addr in Ef by lia. destruct Hfr as [_ Hr].
           unfold USER_MEM_START in Hr. lia.
    + unfold frame_data. by rewrite (rs_phys _ _ _ _ _ _ _ _ Hrs).
Qed.

End fault.
