(* ===== verification/VMQuery.v ===== *)
(** * Virtual memory: the queries

    What [is_memory_range_mapped], [is_memory_writable] and [is_addr_cow]
    compute, in terms of the translations of the current address space. *)

From S2P Require Import Prelude Locks FrameAlloc Paging VM VMInv VMPages VMMap VMCow VMFault.

Section query.
Context {H : Type} `{KernelHeapSpec H}.
Implicit Types (s : vm H) (own : gmap Z (Z * Z)) (pds : gset Z) (fs : list Z).

(** The entry the code reads for a user address, absent or present. *)
Lemma user_entry s own pds fs pd va :
  vm_wf none s own pds fs → pd ∈ pds → word va → USER_MEM_START ≤ va →
  ∃ d, entry_at s pd (GET_PD_INDEX va) = Some d ∧
    (d = PAGE_DIR_ENTRY_DEFAULT ∧ pte_at s pd va = None ∨
     d ≠ PAGE_DIR_ENTRY_DEFAULT ∧ ∃ e,
       entry_at s (GET_ADDR_FROM_ENTRY d) (GET_PT_INDEX va) = Some e ∧
       (e = PAGE_TABLE_ENTRY_DEFAULT ∧ pte_at s pd va = None ∨
        e ≠ PAGE_TABLE_ENTRY_DEFAULT ∧ pte_at s pd va = Some e)).
Proof.
  intros Hwf Hpd Hva Hu. apply pd_index_user in Hu; [|done]. change KERNEL_MAP_NUM_ENTRIES with 4 in Hu.
  pose proof (pd_index_range va Hva) as Hi. pose proof (pt_index_range va Hva) as Hj.
  destruct (wf_pds _ _ _ _ _ Hwf pd Hpd) as [Hpk _].
  destruct (entry_exists _ _ _ _ _ pd (GET_PD_INDEX va) Hwf Hpk Hi) as [d Hd].
  exists d. split; [done|]. destruct (decide (d = PAGE_DIR_ENTRY_DEFAULT)) as [->|Hne].
  { left. split; [done|]. unfold pte_at. by rewrite Hd. }
  right. split; [done|].
  destruct (table_of_entry none s own pds fs pd (GET_PD_INDEX va) d) as (Ho & Hdp & Hk); [done|done|lia|done..|].
  destruct (entry_exists _ _ _ _ _ _ (GET_PT_INDEX va) Hwf Hk Hj) as [e He].
  exists e. split; [done|]. rewrite (pte_at_dir _ _ _ d) by done. rewrite He. cbn [mbind option_bind].
  destruct (wf_tab _ _ _ _ _ Hwf _ _ e (mk_is_Some _ _ Ho) He) as [->|(_ & Hp & _)]; [by left|right].
  rewrite Hp. split; [by intros ->|done].
Qed.

Lemma range_mapped_ok fuel s own pds fs pd b hi :
  vm_wf none s own pds fs → pd ∈ pds → word b → b mod 4096 = 0 → USER_MEM_START ≤ b →
  hi < 0xFFFFF000 → Z.max 0 ((hi - b + 4096) / 4096) + 1 ≤ Z.of_nat fuel →
  ∃ r, range_mapped fuel pd b hi s = Ok r s ∧
    (r = MEMORY_REGION_MAPPED ∧
       (∃ va, word va ∧ b ≤ page_of va ≤ hi ∧ is_Some (pte_at s pd va)) ∨
     r = MEMORY_REGION_UNMAPPED ∧
       ∀ va, word va → b ≤ page_of va ≤ hi → pte_at s pd va = None).
Proof.
  intros Hwf Hpd. revert b. induction fuel as [|fuel IH]; intros b Hb Hbm Hbu Hhi Hfuel; [lia|].
  cbn [range_mapped]. case_decide as Ele; last first.
  { exists MEMORY_REGION_UNMAPPED. split; [done|right]. split; [done|]. intros va _ Hr. lia. }
  destruct (user_entry s own pds fs pd b Hwf Hpd Hb Hbu) as (d & Hd & Hcase).
  rewrite (bind_ok _ _ _ _ _ (kread_ok _ _ _ _ Hd)).
  assert (page_of b = b) as Epb by (unfold page_of; lia).
  rewrite (bind_ok _ _ _ (bool_decide (is_Some (pte_at s pd b))) s); last first.
  { destruct Hcase as [[-> Hn]|(Hne & e & He & Hcase)].
    - rewrite decide_False by naive_solver. by rewrite Hn.
    - rewrite decide_True by done. rewrite (bind_ok _ _ _ _ _ (kread_ok _ _ _ _ He)).
      destruct Hcase as [[-> Hn]|[Hne' Hs]]; [by rewrite Hn|].
      rewrite Hs, bool_decide_true by done. by rewrite bool_decide_true by eauto. }
  case_bool_decide as Hs.
  { exists MEMORY_REGION_MAPPED. split; [done|left]. split; [done|]. exists b. split_and!; [done|lia|lia|done]. }
  assert (u32 (b + PAGE_SIZE) = b + 4096) as Eb.
  { unfold PAGE_SIZE. apply u32_small. unfold word, USER_MEM_START in *. lia. }
  rewrite Eb. destruct (IH (b + 4096)) as (r & Hrun & Hr);
    [unfold word, USER_MEM_START in *; lia|dlia|lia|done|dlia|].
  exists r. split; [done|]. destruct Hr as [(-> & va & Hva & Hr & Hsome)|[-> Hnone]].
  - left. split; [done|]. exists va. split_and!; [done|lia|lia|done].
  - right. split; [done|]. intros va Hva Hr. destruct (decide (page_of va = b)) as [Epg|Epg].
    + apply (same_page va b Hva Hb Hbm) in Epg as [E1 E2].
      assert (pte_at s pd va = pte_at s pd b) as -> by (unfold pte_at; by rewrite E1, E2).
      by apply eq_None_not_Some.
    + apply Hnone; [done|]. unfold page_of in *. dlia.
Qed.

(** The arguments for which the query is meaningful. *)
Definition query_range (base len : Z) : Prop :=
  USER_MEM_START ≤ base ∧ 0 < len < 2147483648 ∧ base + len < 0xFFFFF000.

Lemma is_memory_range_mapped_ok s own pds fs base len :
  vm_wf none s own pds fs → cr3 s ∈ pds → query_range base len →
  ∃ r, is_memory_range_mapped base len s = Ok r s ∧
    (r = MEMORY_REGION_MAPPED ∧
       (∃ va, word va ∧ page_of base ≤ page_of va ≤ base + len ∧ is_Some (pte_at s (cr3 s) va)) ∨
     r = MEMORY_REGION_UNMAPPED ∧
       ∀ va, word va → page_of base ≤ page_of va ≤ base + len → pte_at s (cr3 s) va = None).
Proof.
  intros Hwf Hpd (Hb & Hl & He). unfold USER_MEM_START in Hb. unfold is_memory_range_mapped.
  unfold NULL, MAX_MEMORY_ADDR, MAX_AVAILABLE_USER_MEM, MAX_MEMORY_ADDR, USER_MEM_START.
  rewrite decide_False by (rewrite u32_small by (unfold word; lia); lia).
  rewrite decide_False by lia. rewrite bind_get. rewrite u32_small by (unfold word; lia).
  rewrite page_of_land by (unfold word; lia).
  apply (range_mapped_ok _ _ own pds fs); try done.
  - unfold word, page_of. dlia.
  - unfold page_of. dlia.
  - unfold USER_MEM_START, page_of. dlia.
  - unfold map_fuel, PAGE_SIZE. rewrite Z2Nat.id by dlia. dlia.
Qed.

(** [pt[i] | COW_MODE] is never zero: the answer is "present and read-only". *)
Lemma is_addr_cow_ok s own pds fs addr e :
  vm_wf none s own pds fs → cr3 s ∈ pds → word addr → USER_MEM_START ≤ addr →
  pte_at s (cr3 s) addr = Some e → is_addr_cow addr s = Ok (negb (writable e)) s.
Proof.
  intros Hwf Hpd Hva Hu Hpte.
  destruct (pte_at_inv _ _ _ _ _ _ _ _ Hwf Hpd Hva Hu Hpte) as (d & Hd & _ & He & Hp & _ & Hw & _).
  unfold is_addr_cow. rewrite decide_False by lia. rewrite bind_get.
  rewrite (bind_ok _ _ _ _ _ (kread_ok _ _ _ _ Hd)), (bind_ok _ _ _ _ _ (kread_ok _ _ _ _ He)).
  change (test e PAGE_ENTRY_PRESENT) with (present e). rewrite Hp, andb_true_r.
  rewrite bool_decide_true; [done|]. intros [_ E]%Z.lor_eq_0_iff. done.
Qed.

Lemma is_memory_writable_ok s own pds fs addr bytes :
  vm_wf none s own pds fs → cr3 s ∈ pds → word addr → USER_MEM_START ≤ addr →
  is_memory_writable addr bytes s =
  Ok (match pte_at s (cr3 s) addr with
      | Some e => if writable e then 0 else ERR_INVAL
      | None => ERR_INVAL
      end) s.
Proof.
  intros Hwf Hpd Hva Hu. unfold is_memory_writable. rewrite bind_get.
  destruct (user_entry s own pds fs (cr3 s) addr Hwf Hpd Hva Hu) as (d & Hd & Hcase).
  rewrite (bind_ok _ _ _ _ _ (kread_ok _ _ _ _ Hd)).
  destruct Hcase as [[-> ->]|(Hne & e & He & Hcase)]; [by rewrite decide_False by naive_solver|].
  rewrite decide_True by done. rewrite (bind_ok _ _ _ _ _ (kread_ok _ _ _ _ He)).
  destruct Hcase as [[-> ->]|[Hne' ->]]; [by rewrite decide_False by naive_solver|].
  rewrite decide_True by done. unfold writable. by destruct (test e READ_WRITE_ENABLE).
Qed.

End query.
