(* ===== verification/VMBoot.v ===== *)
(** * Virtual memory: initialisation

    [vm_init] maps the kernel's memory, creates the kernel page directory,
    clears the reference counts and turns paging on.  From a freshly booted
    machine it either panics for lack of kernel memory or establishes the
    invariant of VMInv.v with one directory and every frame free. *)

From S2P Require Import Prelude Locks FrameAlloc Paging VM VMInv VMPages.

Section boot.
Context {H : Type} `{KernelHeapSpec H}.
Implicit Types (s : vm H).

(** The pages of the heap are present in kernel memory. *)
Definition page_ok s : Prop := ∀ p, p ∈ kh_pages (kheap s) →
  p mod 4096 = 0 ∧ 0 < p < USER_MEM_START ∧ ∃ l, kmem s !! p = Some l ∧ length l = 1024%nat.

(** A page was allocated and filled with [l]. *)
Definition got_page s (a : Z) (l : list Z) s' : Prop :=
  ∃ h, s' = set_kheap h (set_kmem (<[a := l]> (kmem s)) s) ∧
    a ≠ NULL ∧ a ∉ kh_pages (kheap s) ∧ kh_pages h = {[a]} ∪ kh_pages (kheap s) ∧
    length l = 1024%nat ∧ page_ok s'.

Lemma smemalign_raw s :
  page_ok s →
  ∃ a s', smemalign_page s = Ok a s' ∧ (a = NULL ∨ ∃ l, got_page s a l s').
Proof.
  intros Hok. destruct (kh_smemalign (kheap s) PAGE_SIZE PAGE_SIZE) as [a h] eqn:E.
  unfold smemalign_page. rewrite bind_get, E, bind_modify. exists a.
  destruct (decide (a = NULL)) as [->|Ha].
  { eexists. split; [done|by left]. }
  destruct (kh_memalign_page _ _ _ E Ha) as (Hnew & Hal & Hlow & Hp).
  pose proof (kh_contents_page (kheap s) a) as Hlen.
  exists (set_kheap h (set_kmem (<[a := kh_contents (kheap s) a]> (kmem s)) s)).
  split; [by destruct s|right]. exists (kh_contents (kheap s) a), h. split_and!; [done..|].
  intros p Hin. cbn in Hin. rewrite Hp in Hin. cbn. rewrite lookup_insert. case_decide as Ep.
  - subst p. split_and!; [done|lia..|]. by eexists.
  - apply Hok. set_solver.
Qed.

Lemma got_page_refill s a l s' l' :
  got_page s a l s' → length l' = 1024%nat →
  got_page s a l' (set_kmem (<[a := l']> (kmem s')) s').
Proof.
  intros (h & -> & Ha & Hn & Hp & Hl & Hok) Hl'. exists h. split_and!; try done.
  - cbn. by rewrite insert_insert_eq.
  - intros p Hin. destruct (Hok p Hin) as (? & ? & k & Hk & ?). split_and!; [done|lia..|].
    cbn in *. destruct (decide (a = p)) as [->|].
    + exists l'. by rewrite lookup_insert_eq.
    + rewrite !lookup_insert_ne in * by done. by exists k.
Qed.

Lemma got_page_lookup s a l s' : got_page s a l s' → kmem s' !! a = Some l.
Proof. intros (h & -> & _). apply lookup_insert_eq. Qed.

Lemma create_page_table_raw s :
  page_ok s →
  ∃ a s', create_page_table s = Ok a s' ∧ (a = NULL ∨ got_page s a empty_table s').
Proof.
  intros Hok. destruct (smemalign_raw s Hok) as (a & s1 & Hrun & Hcase).
  unfold create_page_table. exists a. rewrite (bind_ok _ _ _ _ _ Hrun).
  destruct (decide (a = NULL)) as [->|Ha]; [by eexists; split; [|left]|].
  destruct Hcase as [?|(l & Hg)]; [done|]. pose proof Hg as (_ & _ & _ & _ & _ & Hl & _).
  erewrite bind_ok by (apply (kfill_ok s1 a l (λ _, PAGE_TABLE_ENTRY_DEFAULT));
    [by apply (got_page_lookup s)|done|by rewrite Hl|done]).
  change (Z.to_nat NUM_PAGE_TABLE_ENTRIES) with 1024%nat. rewrite fill_const by done.
  eexists. split; [done|right]. by apply (got_page_refill _ _ l).
Qed.

(** ** The direct map *)

(** The first [i] tables of the direct map are written. *)
Definition mapping s (i : Z) (s' : vm H) : Prop :=
  ∃ h k dm, s' = set_dmap dm (set_kheap h (set_kmem k s)) ∧ page_ok s' ∧ length dm = 4%nat ∧
  ∀ j, 0 ≤ j < i → ∃ t, dm !! Z.to_nat j = Some t ∧ t ∈ kh_pages h ∧
    ∀ e, 0 ≤ e < 1024 → entry_at s' t e = Some (kernel_pte j e).

Lemma mapping_step s i s1 :
  0 ≤ i < 4 → mapping s i s1 →
  let body := frame_addr ← create_page_table;
    kernel_assert (bool_decide (frame_addr ≠ NULL)) ;;
    for_loop (Z.to_nat NUM_PAGE_TABLE_ENTRIES) 0 (λ j,
      kwrite frame_addr j (Z.lor ((i * NUM_PAGE_TABLE_ENTRIES + j) * PAGE_SIZE)
        (Z.lor (Z.lor PAGE_ENTRY_PRESENT READ_WRITE_ENABLE) GLOBAL_PAGE_ENTRY))) ;;
    s ← get;
    dm ← aset (direct_map s) i frame_addr;
    modify (set_dmap dm) in
  body s1 = Stop KernelPanic ∨ ∃ s2, body s1 = Ok tt s2 ∧ mapping s (i + 1) s2.
Proof.
  intros Hi (h & k & dm & -> & Hok & Hdm & Hj). set (s1 := set_dmap dm _) in *. cbv zeta.
  destruct (create_page_table_raw s1 Hok) as (a & s2 & Hrun & Hcase).
  rewrite (bind_ok _ _ _ _ _ Hrun). destruct (decide (a = NULL)) as [->|Ha]; [by left|].
  destruct Hcase as [?|Hg]; [done|]. right. rewrite bind_assert by (by apply bool_decide_true).
  pose proof Hg as (h' & Es2 & _ & Hn & Hp & _ & Hok2).
  set (l := fill (kernel_pte i) 1024 0 empty_table).
  assert (length l = 1024%nat) as Hl by (unfold l; by rewrite fill_length).
  erewrite bind_ok by (apply (kfill_ok s2 a empty_table (kernel_pte i));
    [by apply (got_page_lookup s1)|done|done|done]).
  change (Z.to_nat NUM_PAGE_TABLE_ENTRIES) with 1024%nat. fold l.
  pose proof (got_page_refill _ _ _ _ l Hg Hl) as Hg3.
  set (s3 := set_kmem (<[a:=l]> (kmem s2)) s2) in *. pose proof Hg3 as (h3 & Es3 & _ & _ & Hp3 & _ & Hok3).
  assert (direct_map s3 = dm) as Edm by (rewrite Es3; done).
  rewrite bind_get, Edm.
  rewrite (bind_ok _ _ _ (<[Z.to_nat i := a]> dm) s3) by (apply aset_ok; lia).
  eexists. split; [done|].
  exists h3, (<[a := l]> k), (<[Z.to_nat i := a]> dm). split_and!.
  - rewrite Es3. done.
  - intros p Hpin. apply (Hok3 p Hpin).
  - by rewrite length_insert.
  - intros j Hj'. rewrite lookup_insert_Z by lia. case_decide as Eij.
    + subst j. exists a. split_and!; [done|rewrite Hp3; by apply elem_of_union_l, elem_of_singleton|].
      intros e He. apply (page_entry_at _ _ _ _ l); [exact (got_page_lookup _ _ _ _ Hg3)|lia|].
      unfold l. rewrite fill_lookup by (unfold empty_table; rewrite ?length_replicate; lia). by rewrite decide_True by lia.
    + destruct (Hj j) as (t & Ht & Htp & Hte); [lia|]. exists t. split_and!; [done|rewrite Hp3; by apply elem_of_union_r|].
      intros e He. rewrite <- (Hte e He). apply entry_at_ext. cbn.
      rewrite Es2. cbn. rewrite !lookup_insert_ne; [done|..]; intros ->; by apply Hn.
Qed.

Lemma setup_direct_map_ok s :
  page_ok s → length (direct_map s) = 4%nat →
  setup_direct_map s = Stop KernelPanic ∨
  ∃ s', setup_direct_map s = Ok tt s' ∧ mapping s 4 s'.
Proof.
  intros Hok Hdm. unfold setup_direct_map. cbv zeta.
  apply (for_loop_or_stop KernelPanic (mapping s)).
  - exists (kheap s), (kmem s), (direct_map s). split_and!; [by destruct s|done|done|lia].
  - change (0 + Z.of_nat (Z.to_nat KERNEL_MAP_NUM_ENTRIES)) with 4.
    intros i s1 Hi HI. exact (mapping_step s i s1 Hi HI).
Qed.

(** ** The kernel page directory *)
Definition dir_contents (dm l : list Z) : Prop :=
  (∀ i t, 0 ≤ i < 4 → dm !! Z.to_nat i = Some t → l !! Z.to_nat i = Some (kernel_pde t)) ∧
  (∀ i, 4 ≤ i < 1024 → l !! Z.to_nat i = Some PAGE_DIR_ENTRY_DEFAULT).

Lemma create_page_directory_raw s :
  page_ok s → length (direct_map s) = 4%nat →
  ∃ a s', create_page_directory s = Ok a s' ∧
    (a = NULL ∨ ∃ l, got_page s a l s' ∧ dir_contents (direct_map s) l).
Proof.
  intros Hok Hdm. destruct (smemalign_raw s Hok) as (a & s1 & Hrun & Hcase).
  unfold create_page_directory. exists a. rewrite (bind_ok _ _ _ _ _ Hrun).
  destruct (decide (a = NULL)) as [->|Ha]; [by eexists; split; [|left]|].
  destruct Hcase as [?|(l & Hg)]; [done|]. pose proof Hg as (h & Es1 & _ & _ & _ & Hl & _).
  assert (direct_map s1 = direct_map s) as Ed by (by rewrite Es1).
  erewrite bind_ok by (apply (direct_map_kernel_pages_ok s1 a l);
    [by rewrite Ed|by apply (got_page_lookup s)|done]). rewrite Ed.
  set (l1 := fill _ 4 0 l).
  assert (length l1 = 1024%nat) as Hl1 by (unfold l1; by rewrite fill_length).
  set (l2 := fill (λ _, PAGE_DIR_ENTRY_DEFAULT) 1020 4 l1).
  assert (length l2 = 1024%nat) as Hl2 by (unfold l2; by rewrite fill_length).
  erewrite bind_ok by (apply (kfill_ok _ a l1 (λ _, PAGE_DIR_ENTRY_DEFAULT));
    [apply lookup_insert_eq|done|by rewrite Hl1|done]).
  cbn [kmem set_kmem]. rewrite insert_insert_eq.
  change (Z.to_nat (NUM_PAGE_TABLE_ENTRIES - KERNEL_MAP_NUM_ENTRIES)) with 1020%nat.
  change KERNEL_MAP_NUM_ENTRIES with 4. fold l2.
  eexists. split; [done|right]. exists l2. split; [exact (got_page_refill _ _ _ _ l2 Hg Hl2)|]. split.
  - intros i t Hi Ht. unfold l2. rewrite fill_lookup, decide_False by lia. unfold l1.
    rewrite fill_lookup, decide_True by lia. by rewrite (nth_lookup_Some _ _ _ _ Ht).
  - intros i Hi. unfold l2. by rewrite fill_lookup, decide_True by lia.
Qed.

Lemma smalloc_run s n :
  ∃ a h, smalloc n s = Ok a (set_kheap h s) ∧ kh_pages h = kh_pages (kheap s).
Proof.
  unfold smalloc. rewrite bind_get. destruct (kh_smalloc (kheap s) n) as [a h] eqn:E.
  exists a, h. split; [done|]. pose proof (kh_smalloc_pages (kheap s) n) as Hp. by rewrite E in Hp.
Qed.

Lemma setup_kernel_pd_ok s :
  page_ok s → length (direct_map s) = 4%nat →
  setup_kernel_pd s = Stop KernelPanic ∨
  ∃ pd s1 l st h, setup_kernel_pd s = Ok tt (set_dead st (set_kheap h (set_kpd pd s1))) ∧
    got_page s pd l s1 ∧ dir_contents (direct_map s) l ∧ kh_pages h = kh_pages (kheap s1).
Proof.
  intros Hok Hdm. unfold setup_kernel_pd.
  destruct (create_page_directory_raw s Hok Hdm) as (pd & s1 & Hrun & Hcase).
  rewrite (bind_ok _ _ _ _ _ Hrun), bind_modify.
  destruct (decide (pd = NULL)) as [->|Hpd]; [by left|].
  destruct Hcase as [?|(l & Hg & Hdir)]; [done|].
  rewrite bind_assert by (by apply bool_decide_true).
  destruct (smalloc_run (set_kpd pd s1) PAGE_SIZE) as (st & h & Hst & Hh).
  rewrite (bind_ok _ _ _ _ _ Hst), bind_modify.
  destruct (decide (st = NULL)) as [->|Hst0]; [by left|right].
  exists pd, s1, l, st, h. rewrite kernel_assert_true by (by apply bool_decide_true). done.
Qed.

Lemma init_frame_ref_count_ok s :
  init_frame_ref_count s = Stop KernelPanic ∨
  ∃ h, init_frame_ref_count s =
    Ok tt (set_refs (replicate (Z.to_nat (FREE_FRAMES_COUNT (fa s))) 0) (set_kheap h s)) ∧
    kh_pages h = kh_pages (kheap s).
Proof.
  unfold init_frame_ref_count. rewrite bind_get. cbv zeta.
  destruct (smalloc_run s (FREE_FRAMES_COUNT (fa s) * 4)) as (a & h & Ha & Hh).
  rewrite (bind_ok _ _ _ _ _ Ha). destruct (decide (a = NULL)) as [->|Ha0]; [by left|right].
  exists h. by rewrite bind_assert by (by apply bool_decide_true).
Qed.

Lemma refs_empty s f : refs s ∅ f = 0.
Proof. done. Qed.

(** The invariant from its parts, when no table exists yet. *)
Lemma wf_boot s fs pd :
  free_stack (fa s) fs → all_unlocked (fa s) → (∀ f, is_frame (fa s) f → f ∈ fs) →
  page_ok s → length (direct_map s) = 4%nat →
  (∀ j, 0 ≤ j < 4 → ∃ t, direct_map s !! Z.to_nat j = Some t ∧ t ∈ kh_pages (kheap s) ∧ t ≠ pd ∧
     ∀ e, 0 ≤ e < 1024 → entry_at s t e = Some (kernel_pte j e)) →
  pd ∈ kh_pages (kheap s) → (∃ l, kmem s !! pd = Some l ∧ dir_contents (direct_map s) l) →
  frame_ref_count s = replicate (Z.to_nat (FREE_FRAMES_COUNT (fa s))) 0 →
  vm_wf none s ∅ {[pd]} fs.
Proof.
  intros Hfs Hun Hall Hok Hdm Hmap Hpd (l & Hl & Hk & Hd) Hr.
  assert (machine_ok (fa s)) as Hm by (by destruct Hfs).
  split; try done.
  - rewrite Hr, length_replicate. unfold machine_ok in Hm. rewrite FREE_FRAMES_COUNT_eq. lia.
  - split; [done|]. intros t [n Hn]%list_elem_of_lookup_1.
    pose proof (lookup_lt_Some _ _ _ Hn). destruct (Hmap (Z.of_nat n)) as (t' & Ht' & ? & ? & _); [lia|].
    rewrite Nat2Z.id in Ht'. assert (t' = t) as -> by congruence.
    split_and!; [done|done|]. by rewrite elem_of_singleton.
  - intros i t Hi Ht. destruct (Hmap i Hi) as (t' & Ht' & _ & _ & He).
    assert (t' = t) as -> by congruence. split; [|done].
    intros q ->%elem_of_singleton. apply (page_entry_at _ _ _ _ l); [done|lia|by apply Hk].
  - intros q ->%elem_of_singleton. done.
  - intros q i e ->%elem_of_singleton Hi He. left.
    apply entry_at_page in He as (_ & He & Hkm). rewrite Hl in Hkm. injection Hkm as Hkm.
    rewrite <- Hkm, Hd in He by done. congruence.
  - intros pt j e [w Hw] _. by rewrite lookup_empty in Hw.
  - intros f Hf. destruct (frame_index _ _ Hm Hf) as [_ Hi]. rewrite Hr, refs_empty.
    apply lookup_replicate_2. lia.
  - intros f Hf. rewrite refs_empty. split; [done|]. intros _. by apply Hall.
Qed.

(** What holds when [vm_init] returns: paging is on and the kernel directory
    current, the memory of the kernel is mapped, the frame allocator has not been
    touched (it is initialised later). *)
Record vm_ready s s' : Prop := {
  vr_fa : fa s' = fa s;
  vr_pages : page_ok s';
  vr_dmap : length (direct_map s') = 4%nat;
  vr_tables : ∀ j, 0 ≤ j < 4 → ∃ t, direct_map s' !! Z.to_nat j = Some t ∧ t ∈ kh_pages (kheap s') ∧
    t ≠ kernel_pd s' ∧ ∀ e, 0 ≤ e < 1024 → entry_at s' t e = Some (kernel_pte j e);
  vr_pd : kernel_pd s' ∈ kh_pages (kheap s');
  vr_dir : ∃ l, kmem s' !! kernel_pd s' = Some l ∧ dir_contents (direct_map s') l;
  vr_refs : frame_ref_count s' = replicate (Z.to_nat (FREE_FRAMES_COUNT (fa s))) 0;
  vr_cr3 : cr3 s' = kernel_pd s';
  vr_paging : test (cr0 s') CR0_PG = true;
  vr_pinning : test (cr4 s') CR4_PGE = true;
}.

(** What [vm_init] promises of its outcome. *)
Definition panics_or (P : vm H → Prop) (o : outcome (vm H) unit) : Prop :=
  o = Stop KernelPanic ∨ ∃ s', o = Ok tt s' ∧ P s'.

Lemma vm_init_ok s :
  kh_pages (kheap s) = ∅ → length (direct_map s) = 4%nat → panics_or (vm_ready s) (vm_init s).
Proof.
  intros Hempty Hdm. unfold vm_init, set_kernel_pd, enable_paging, enable_page_pinning.
  assert (page_ok s) as Hok by (intros p Hp; rewrite Hempty in Hp; set_solver).
  unfold mbind at 1, M_bind at 1.
  destruct (setup_direct_map_ok s Hok Hdm) as [->|(s1 & -> & h1 & k1 & dm & Es1 & Hok1 & Hdm1 & Hmap)];
    [by left|].
  assert (direct_map s1 = dm) as Ed1 by (by rewrite Es1).
  unfold mbind at 1, M_bind at 1.
  destruct (setup_kernel_pd_ok s1 Hok1) as [->|(pd & s2 & l & st & h3 & -> & Hg & Hdir & Hh3)];
    [by rewrite Ed1|by left|].
  pose proof Hg as (h2 & Es2 & _ & Hn & Hp & Hl & Hok2).
  set (s3 := set_dead st (set_kheap h3 (set_kpd pd s2))).
  rewrite (bind_ok _ _ _ tt (set_cr3 pd s3)) by done. rewrite bind_modify.
  unfold mbind at 1, M_bind at 1.
  match goal with |- context [init_frame_ref_count ?t] =>
    destruct (init_frame_ref_count_ok t) as [->|(h4 & -> & Hh4)]; [by left|] end.
  right. eexists. split; [done|].
  match goal with |- vm_ready _ ?t => set (s' := t) end.
  assert (kh_pages (kheap s') = {[pd]} ∪ kh_pages h1) as Hp'.
  { change (kh_pages (kheap s')) with (kh_pages h4). rewrite Hh4.
    change (kheap _) with h3. rewrite Hh3, Es2. cbn. rewrite Hp, Es1. done. }
  assert (kmem s' = <[pd := l]> (kmem s1)) as Hk' by (cbn; by rewrite Es2).
  assert (pd ∉ kh_pages h1) as Hn1 by (by rewrite Es1 in Hn).
  split; try done.
  - cbn. by rewrite Es2, Es1.
  - intros p Hpin. rewrite Hp' in Hpin. apply (Hok2 p). rewrite Es2. cbn. by rewrite Hp, Es1.
  - cbn. rewrite Es2. cbn. by rewrite Ed1.
  - intros j Hj. destruct (Hmap j Hj) as (t & Ht & Htp & Hte).
    assert (t ≠ pd) as Htpd by (by intros ->). exists t. split_and!.
    + cbn. rewrite Es2. cbn. by rewrite Ed1.
    + rewrite Hp'. by apply elem_of_union_r.
    + done.
    + intros e He. rewrite <- (Hte e He). apply entry_at_ext. by rewrite Hk', lookup_insert_ne.
  - rewrite Hp'. by apply elem_of_union_l, elem_of_singleton.
  - exists l. split; [rewrite Hk'; apply lookup_insert_eq|]. cbn. rewrite Es2. cbn. by rewrite Ed1 in *.
  - cbn. by rewrite Es2, Es1.
  - by apply test_or_sub.
  - by apply test_or_sub.
Qed.

(** ** Boot: [kernel_main] calls [vm_init], then [init_frame_allocator] *)
Definition sizeof_mutex : Z := 12.

(** [init_frame_allocator] with its two blocks from the kernel heap; [arr] and
    [locks] are what their memory holds. *)
Definition init_user_frames (arr : list Z) (locks : list mutex_t) : M (vm H) unit :=
  n ← gets (λ s, FREE_FRAMES_COUNT (fa s));
  a ← smalloc (n * 4);
  l ← smalloc (n * sizeof_mutex);
  frames (init_frame_allocator (if decide (a = NULL) then None else Some arr)
                               (if decide (l = NULL) then None else Some locks)).

Definition boot_memory (arr : list Z) (locks : list mutex_t) : M (vm H) unit :=
  vm_init ;; init_user_frames arr locks.

(** The machine when [kernel_main] starts: no page handed out, the static
    [direct_map] has its four entries; the blocks have the size asked for. *)
Record power_on (arr : list Z) (locks : list mutex_t) s : Prop := {
  po_machine : machine_ok (fa s);
  po_pages : kh_pages (kheap s) = ∅;
  po_dmap : length (direct_map s) = 4%nat;
  po_arr : Z.of_nat (length arr) = FREE_FRAMES_COUNT (fa s);
  po_locks : Z.of_nat (length locks) = FREE_FRAMES_COUNT (fa s);
}.

Record booted s s' : Prop := {
  bt_wf : vm_wf none s' ∅ {[kernel_pd s']} (all_frames (fa s'));
  bt_cow : cow_ok s' ∅;
  bt_machine : machine_phys_frames (fa s') = machine_phys_frames (fa s);
  bt_cr3 : cr3 s' = kernel_pd s';
  bt_paging : test (cr0 s') CR0_PG = true;
  bt_pinning : test (cr4 s') CR4_PGE = true;
}.

Lemma init_user_frames_ok arr locks s :
  machine_ok (fa s) → Z.of_nat (length arr) = FREE_FRAMES_COUNT (fa s) →
  Z.of_nat (length locks) = FREE_FRAMES_COUNT (fa s) →
  init_user_frames arr locks s = Stop KernelPanic ∨
  ∃ h a, init_user_frames arr locks s = Ok tt (set_fa a (set_kheap h s)) ∧ kh_pages h = kh_pages (kheap s) ∧
    machine_phys_frames a = machine_phys_frames (fa s) ∧ free_stack a (all_frames a) ∧ all_unlocked a.
Proof.
  intros Hm Ha Hl. unfold init_user_frames. rewrite bind_gets.
  destruct (smalloc_run s (FREE_FRAMES_COUNT (fa s) * 4)) as (p & h1 & Hr1 & Hp1).
  rewrite (bind_ok _ _ _ _ _ Hr1).
  destruct (smalloc_run (set_kheap h1 s) (FREE_FRAMES_COUNT (fa s) * sizeof_mutex)) as (q & h2 & Hr2 & Hp2).
  rewrite (bind_ok _ _ _ _ _ Hr2). unfold frames, zoom.
  destruct (decide (p = NULL)) as [_|_]; [by left|].
  destruct (decide (q = NULL)) as [_|_]; [by left|right].
  destruct (init_frame_allocator_ok (fa s) arr locks Hm Ha Hl) as (a & Hrun & Hma & Hst & Hun).
  change (fa (set_kheap h2 (set_kheap h1 s))) with (fa s). rewrite Hrun.
  exists h2, a. split_and!; try done. by rewrite Hp2.
Qed.

Lemma boot_memory_ok arr locks s :
  power_on arr locks s → panics_or (booted s) (boot_memory arr locks s).
Proof.
  intros [Hm Hempty Hdm Ha Hl]. unfold boot_memory.
  destruct (vm_init_ok s Hempty Hdm) as [Hrun|(s1 & Hrun & [Efa Hok Hd Htab Hpd Hdir Hrefs Hcr Hpg Hpin])].
  { left. by apply bind_stop. }
  rewrite (bind_ok _ _ _ _ _ Hrun).
  destruct (init_user_frames_ok arr locks s1) as [->|(h & a & -> & Hh & Hma & Hst & Hun)]; rewrite ?Efa; try done; [by left|].
  right. eexists. split; [done|]. rewrite Efa in Hma.
  split; try done; [|intros pt j e [w Hw]; by rewrite lookup_empty in Hw].
  apply wf_boot; try done; cbn -[all_frames].
  - intros f. apply elem_of_all_frames.
  - intros p Hp. cbn in Hp. rewrite Hh in Hp. by apply Hok.
  - rewrite Hh. exact Htab.
  - by rewrite Hh.
  - rewrite Hrefs, !FREE_FRAMES_COUNT_eq. by rewrite Hma.
Qed.
End boot.
