(* ===== verification/VMTheorems.v ===== *)
(** * Virtual memory: the properties

    What the other components rely on: the invariant is established at boot,
    [clone_paging_info], [handle_cow], [map_segment], [setup_page_table] and
    [free_paging_info] meet their specifications, address spaces are isolated,
    the range query is exact; and two places where the code does less than its
    comments say.  Each theorem is followed by an instance on a small machine. *)

From S2P Require Import Prelude Locks FrameAlloc Paging VM VMInv VMPages VMMap VMCow VMFault VMQuery VMBoot.

(** ** A small machine: eight frames, one directory *)
Definition demo_fa : falloc :=
  match init_frame_allocator (Some (replicate 8 7)) (Some (replicate 8 held_mutex))
          (mk_falloc 4104 [] [] 0 free_mutex) with
  | Ok _ a => a
  | Stop _ => mk_falloc 0 [] [] 0 free_mutex
  end.

Definition demo_dmap : list Z := [0x100000; 0x101000; 0x102000; 0x103000].
Definition demo_pd : Z := 0x104000.

Definition demo_dir : list Z :=
  (kernel_pde <$> demo_dmap) ++ replicate 1020 PAGE_DIR_ENTRY_DEFAULT.

Definition demo_table (i : Z) : list Z := kernel_pte i <$> seqZ 0 1024.

Definition demo_kmem : gmap Z (list Z) :=
  {[ 0x100000 := demo_table 0; 0x101000 := demo_table 1; 0x102000 := demo_table 2;
     0x103000 := demo_table 3; demo_pd := demo_dir ]}.

Definition demo : vm bump :=
  mk_vm demo_fa (mk_bump 0x105000 {[0x100000; 0x101000; 0x102000; 0x103000; demo_pd]})
    demo_kmem (replicate 8 0) demo_dmap demo_pd 0 CR0_PG demo_pd CR4_PGE ∅.

Lemma demo_fa_ok : free_stack demo_fa (all_frames demo_fa) ∧ all_unlocked demo_fa ∧
  machine_phys_frames demo_fa = 4104.
Proof.
  destruct (init_frame_allocator_ok (mk_falloc 4104 [] [] 0 free_mutex) (replicate 8 7)
    (replicate 8 held_mutex)) as (a & Hrun & Hm & Hs & Hu); [unfold machine_ok; cbn; lia|done|done|].
  unfold demo_fa. rewrite Hrun. done.
Qed.

Lemma demo_table_entry s t i j :
  kmem s !! t = Some (demo_table i) → 0 ≤ j < 1024 →
  entry_at (H := bump) s t j = Some (kernel_pte i j).
Proof.
  intros Ht Hj. apply (page_entry_at _ _ _ _ (demo_table i)); [done|lia|].
  unfold demo_table. rewrite list_lookup_fmap, lookup_seqZ_lt by lia. cbn. f_equal. f_equal. lia.
Qed.

Lemma demo_dir_contents : dir_contents demo_dmap demo_dir.
Proof.
  split.
  - intros i t Hi Ht. unfold demo_dir. rewrite lookup_app_l by (cbn; lia).
    by rewrite list_lookup_fmap, Ht.
  - intros i Hi. unfold demo_dir. rewrite lookup_app_r by (cbn; lia).
    apply lookup_replicate_2. cbn. lia.
Qed.

Lemma demo_pages (p : Z) :
  p ∈ kh_pages (kheap demo) →
  p = 0x100000 ∨ p = 0x101000 ∨ p = 0x102000 ∨ p = 0x103000 ∨ p = demo_pd.
Proof. cbn. set_solver. Qed.

Lemma demo_wf : vm_wf none demo ∅ {[demo_pd]} (all_frames demo_fa) ∧ cow_ok demo ∅.
Proof.
  destruct demo_fa_ok as (Hs & Hu & Hm). split; [|intros pt j e [w Hw]; by rewrite lookup_empty in Hw].
  apply wf_boot.
  - done.
  - done.
  - intros f. apply elem_of_all_frames.
  - intros p [->|[->|[->|[->| ->]]]]%demo_pages; (split; [done|]); (split; [done|]);
      eexists; (split; [reflexivity|]); unfold demo_table, demo_dir;
      rewrite ?length_fmap, ?length_seqZ, ?length_app, ?length_replicate; done.
  - done.
  - intros j Hj. assert (j = 0 ∨ j = 1 ∨ j = 2 ∨ j = 3) as [->|[->|[->| ->]]] by lia;
      eexists; (split; [reflexivity|]); (split; [cbn; set_solver|]); (split; [done|]);
      intros e He; by apply demo_table_entry.
  - cbn. set_solver.
  - exists demo_dir. split; [done|]. apply demo_dir_contents.
  - cbn. rewrite FREE_FRAMES_COUNT_eq, Hm. done.
Qed.

(** The machine at power-on. *)
Definition demo_raw : vm bump :=
  mk_vm (mk_falloc 4104 [] [] 0 free_mutex) (mk_bump 0x100000 ∅) ∅ [] [0; 0; 0; 0] 0 0 0 0 0 ∅.

(** The small machine with one read-only page at the bottom of user space. *)
Definition demo_ro : vm bump :=
  match map_segment 0x1000000 100 demo_pd (Z.lor PAGE_ENTRY_PRESENT USER_MODE) demo with
  | Ok _ s => s
  | Stop _ => demo
  end.

Lemma demo_ro_wf : ∃ own fs, vm_wf none demo_ro own {[demo_pd]} fs ∧ cow_ok demo_ro own ∧
  cr3 demo_ro = demo_pd.
Proof.
  destruct demo_wf as [Hwf Hcow]. unfold demo_ro.
  destruct (map_segment_ok demo ∅ {[demo_pd]} (all_frames demo_fa) demo_pd 0x1000000 100
    (Z.lor PAGE_ENTRY_PRESENT USER_MODE)) as (rc & s & own & fs & -> & Hex & _);
    [done|done|by apply elem_of_singleton|done|done|done|done|done|].
  exists own, fs. split_and!; [apply (ex_wf _ _ _ _ _ _ _ _ _ _ _ Hex)|
    apply (ex_cow _ _ _ _ _ _ _ _ _ _ _ Hex)|apply (ex_cr3 _ _ _ _ _ _ _ _ _ _ _ Hex)].
Qed.

Lemma demo_ro_pte : pte_at demo_ro demo_pd 0x1000000 = Some 0x1000005.
Proof. vm_compute. reflexivity. Qed.

Section theorems.
Context {H : Type} `{KernelHeapSpec H}.
Implicit Types (s : vm H) (own : gmap Z (Z * Z)) (pds : gset Z) (fs : list Z).

(** C2. [clone_paging_info] (fork) always returns.  On success the child's user
    pages are the parent's, every writable page of both has become read-only
    and marked copy-on-write, no other address space and no byte of memory has
    changed, and the invariant (page-table ownership, reference counts, free
    frames) holds with the child added.  When memory runs out it returns NULL
    with every kernel page, reference and free frame as before. *)
Theorem clone_paging_info_correct s own pds fs pd :
  vm_wf none s own pds fs → cow_ok s own → pd ∈ pds →
  ∃ new s', clone_paging_info pd s = Ok new s' ∧
    (new = NULL ∧ (∃ fs', rolled_back s own pds fs s' fs') ∨
     new ≠ NULL ∧ ∃ own', forked s own pds fs pd new s' own').
Proof. apply clone_paging_info_ok. Qed.

(** C4. [handle_cow] on a mapped user page of the current address space either
    fails because there is no free frame, leaving the state exactly as it was,
    or returns 0 with the page writable, unmarked and mapped to a frame that no
    other entry maps; every other translation is unchanged, every byte that any
    address space reads is unchanged, and the invariant holds. *)
Theorem handle_cow_correct s own pds fs addr e :
  vm_wf none s own pds fs → cow_ok s own → cr3 s ∈ pds → word addr → USER_MEM_START ≤ addr →
  pte_at s (cr3 s) addr = Some e →
  (handle_cow addr s = Ok ERR_FAILURE s ∧ fs = []) ∨
  ∃ s' f fs', handle_cow addr s = Ok 0 s' ∧ resolved s own pds addr e f s' fs' ∧
    ∀ pd va, pd ∈ pds → word va → read_byte s' pd va = read_byte s pd va.
Proof.
  intros Hwf Hcow Hcr Hva Hu Hpte.
  destruct (handle_cow_ok s own pds fs addr e Hwf Hcow Hcr Hva Hu Hpte)
    as [(? & ? & _)|(s' & f & fs' & Hrun & Hrs & Hf)]; [by left|right].
  exists s', f, fs'. split_and!; [done..|]. intros pd va Hpd Hva'.
  destruct (pte_at_inv _ _ _ _ _ _ _ _ Hwf Hcr Hva Hu Hpte) as (_ & _ & _ & _ & _ & _ & _ & Hfe).
  apply (resolved_reads s own pds addr e f fs s' fs'); try done; [naive_solver|].
  destruct Hf as [[-> _]|[-> _]]; [done|].
  by pose proof (fs_frames _ _ (wf_alloc _ _ _ _ _ Hwf)) as [? _]%Forall_cons.
Qed.

(** A user page that can be written is backed by a frame that no other page of
    any address space maps. *)
Lemma writable_frame_once s own pds fs pd va e pd' va' e' :
  vm_wf none s own pds fs → cow_ok s own → pd ∈ pds → pd' ∈ pds → word va → word va' →
  USER_MEM_START ≤ va → pte_at s pd va = Some e → writable e = true →
  pte_at s pd' va' = Some e' → GET_ADDR_FROM_ENTRY e' = GET_ADDR_FROM_ENTRY e →
  pd' = pd ∧ page_of va' = page_of va.
Proof.
  intros Hwf Hcow Hpd Hpd' Hva Hva' Hu Hpte Hw Hpte' Ea.
  destruct (pte_at_inv _ _ _ _ _ _ _ _ Hwf Hpd Hva Hu Hpte) as (d & Hd & Ho & He & _ & Hne & _ & Hf).
  destruct (decide (USER_MEM_START ≤ va')) as [Hu'|Hk].
  - destruct (pte_at_inv _ _ _ _ _ _ _ _ Hwf Hpd' Hva' Hu' Hpte') as (d' & Hd' & Ho' & He' & _).
    destruct (decide ((GET_ADDR_FROM_ENTRY d, GET_PT_INDEX va) =
                      (GET_ADDR_FROM_ENTRY d', GET_PT_INDEX va'))) as [E|E].
    + injection E as E1 E2. rewrite E1, Ho' in Ho. injection Ho as -> E3. split; [done|].
      pose proof (proj1 (indices_page va' va Hva' Hva) (conj E3 (eq_sym E2))). unfold page_of. dlia.
    + pose proof (refs_two s own _ _ e _ _ e' (mk_is_Some _ _ Ho) He (mk_is_Some _ _ Ho') He'
        (eq_sym Ea) E) as Htwo.
      rewrite (Hcow _ _ e (mk_is_Some _ _ Ho) He Hne Hw) in Htwo. lia.
  - rewrite (kernel_pte_at _ _ _ _ _ _ _ Hwf) in Hpte' by (done || lia). injection Hpte' as <-.
    pose proof (pd_index_user va' Hva') as Hiu. change KERNEL_MAP_NUM_ENTRIES with 4 in Hiu.
    pose proof (pd_index_range va' Hva'). pose proof (pt_index_range va' Hva').
    rewrite kernel_pte_addr in Ea by lia. destruct Hf as [_ Hr]. unfold USER_MEM_START in *. lia.
Qed.

(** An access in user mode: both entries must be present and user. *)
Definition user_accessible s (pd va : Z) : bool :=
  match entry_at s pd (GET_PD_INDEX va) with
  | Some d =>
      present d && test d USER_MODE &&
      match entry_at s (GET_ADDR_FROM_ENTRY d) (GET_PT_INDEX va) with
      | Some e => present e && test e USER_MODE
      | None => false
      end
  | None => false
  end.

(** The kernel's addresses are mapped to themselves and out of reach of user mode;
    what user mode reaches is a frame of the user pool. *)
Lemma user_reaches_frames s own pds fs pd va :
  vm_wf none s own pds fs → pd ∈ pds → word va →
  (va < USER_MEM_START → user_accessible s pd va = false ∧ translate s pd va = Some (page_of va)) ∧
  (user_accessible s pd va = true → ∃ f, translate s pd va = Some f ∧ is_frame (fa s) f).
Proof.
  intros Hwf Hpd Hva. pose proof (pd_index_range va Hva) as Hi. pose proof (pt_index_range va Hva) as Hj.
  pose proof (pd_index_user va Hva) as Hiu. change KERNEL_MAP_NUM_ENTRIES with 4 in Hiu.
  assert (va < USER_MEM_START → user_accessible s pd va = false) as Hk.
  { intros Hlow. unfold user_accessible. destruct (lookup_Z (direct_map s) (GET_PD_INDEX va)) as [t Ht].
    { rewrite (proj1 (wf_dmap _ _ _ _ _ Hwf)). lia. }
    destruct (wf_kern _ _ _ _ _ Hwf (GET_PD_INDEX va) t) as [Hke _]; [lia|done|].
    rewrite (Hke pd Hpd). assert (test (kernel_pde t) USER_MODE = false) as ->;
      [|by rewrite andb_false_r].
    assert (t ∈ direct_map s) as Hin by (by eapply list_elem_of_lookup_2).
    destruct (proj2 (wf_dmap _ _ _ _ _ Hwf) t Hin) as (Htp & _ & _).
    destruct (wf_page _ _ _ _ _ Hwf t Htp) as (Htm & _).
    unfold kernel_pde. rewrite test_or_disj by done. unfold test. apply bool_decide_false.
    intros Hn. apply Hn. apply (land_page_flags t USER_MODE); [done|by vm_compute]. }
  split.
  - intros Hlow. split; [by apply Hk|]. unfold translate.
    rewrite (kernel_pte_at _ _ _ _ _ _ _ Hwf) by (done || lia). cbn. f_equal.
    rewrite kernel_pte_addr by lia. rewrite pd_index_eq, pt_index_eq by done.
    unfold page_of, USER_MEM_START in *. dlia.
  - intros Hacc. destruct (decide (USER_MEM_START ≤ va)) as [Hu|Hlow].
    2:{ rewrite Hk in Hacc by lia. done. }
    destruct (user_entry s own pds fs pd va Hwf Hpd Hva Hu) as (d & Hd & Hcase).
    unfold user_accessible in Hacc. rewrite Hd in Hacc.
    destruct Hcase as [[-> _]|(Hne & e & He & Hcase)]; [done|]. rewrite He in Hacc.
    destruct Hcase as [[-> _]|[Hne' Hpte]].
    { by rewrite !andb_false_r in Hacc. }
    exists (GET_ADDR_FROM_ENTRY e). split; [unfold translate; by rewrite Hpte|].
    by destruct (pte_at_inv _ _ _ _ _ _ _ _ Hwf Hpd Hva Hu Hpte) as (_ & _ & _ & _ & _ & _ & _ & ?).
Qed.

(** C13. [map_segment] on a user range below the last page of the address space
    always returns.  The pages of the range that were not mapped get zero-filled
    frames that were free, with the given flags; pages that were mapped keep
    their entry; no other address space and no frame in use changes.  The result
    is 0, and then every page of the range is mapped, or [ERR_NOMEM]. *)
Theorem map_segment_correct s own pds fs pd start len flags :
  vm_wf none s own pds fs → cow_ok s own → pd ∈ pds →
  USER_MEM_START ≤ start → 0 ≤ len → start + len ≤ 0xFFFFF000 →
  0 ≤ flags < 4096 → present flags = true →
  ∃ rc s' own' fs', map_segment start len pd flags s = Ok rc s' ∧
    extends (set_cr3 pd s) own fs s' own' fs' pds pd (page_of start) (start + len) flags ∧
    (rc = ERR_NOMEM ∨
     rc = 0 ∧ ∀ va, word va → page_of start ≤ page_of va < start + len → is_Some (pte_at s' pd va)).
Proof. apply map_segment_ok. Qed.

(** The segments of an executable that [setup_page_table] can map. *)
Definition segment_ok (start len : Z) : Prop :=
  USER_MEM_START ≤ start ∧ 0 ≤ len ∧ start + len ≤ 0xFFFFF000.

Definition segments_ok (se : segments) : Prop :=
  segment_ok (e_txtstart se) (e_txtlen se) ∧ segment_ok (e_datstart se) (e_datlen se) ∧
  segment_ok (e_rodatstart se) (e_rodatlen se) ∧ segment_ok (e_bssstart se) (e_bsslen se).

Definition in_segment (va start len : Z) : Prop := start ≤ va < start + len.

Lemma setup_page_table_ok s own pds fs pd se :
  vm_wf none s own pds fs → cow_ok s own → pd ∈ pds → segments_ok se →
  ∃ rc s' own' fs', setup_page_table (Some se) pd s = Ok rc s' ∧
    grows s own fs s' own' fs' pds pd ∧
    (rc = ERR_NOMEM ∨
     rc = 0 ∧ ∀ va, word va →
       in_segment va (e_txtstart se) (e_txtlen se) ∨ in_segment va (e_datstart se) (e_datlen se) ∨
       in_segment va (e_rodatstart se) (e_rodatlen se) ∨ in_segment va (e_bssstart se) (e_bsslen se) ∨
       in_segment va (STACK_START - DEFAULT_STACK_SIZE + 1) DEFAULT_STACK_SIZE →
       is_Some (pte_at s' pd va)).
Proof.
  intros Hwf Hcow Hpd ((Ht1 & Ht2 & Ht3) & (Hd1 & Hd2 & Hd3) & (Hr1 & Hr2 & Hr3) & (Hb1 & Hb2 & Hb3)).
  unfold setup_page_table. rewrite decide_False; last first.
  { destruct (wf_pds _ _ _ _ _ Hwf pd Hpd) as [Hk _].
    destruct (wf_page _ _ _ _ _ Hwf pd Hk) as (_ & ? & _). unfold NULL. lia. }
  destruct (seq_checked_maps pds pd
    [(e_txtstart se, e_txtstart se + e_txtlen se, map_text_segment se pd);
     (e_datstart se, e_datstart se + e_datlen se, map_data_segment se pd);
     (e_rodatstart se, e_rodatstart se + e_rodatlen se, map_rodata_segment se pd);
     (e_bssstart se, e_bssstart se + e_bsslen se, map_bss_segment se pd);
     (STACK_START - DEFAULT_STACK_SIZE + 1, STACK_START - DEFAULT_STACK_SIZE + 1 + DEFAULT_STACK_SIZE,
      map_stack_segment pd)] Hpd) with (s := s) (own := own) (fs := fs)
    as (rc & s' & own' & fs' & Hrun & Hgr & Hrc); [|done|done|].
  { rewrite !Forall_cons. split_and!; [by apply map_segment_maps..|by apply Forall_nil]. }
  exists rc, s', own', fs'. split; [exact Hrun|]. split; [done|].
  destruct Hrc as [->|[-> Hall]]; [by left|right]. split; [done|].
  rewrite !Forall_cons in Hall. destruct Hall as (Ha & Hb & Hc & Hd & He & _).
  intros va Hva [Hi|[Hi|[Hi|[Hi|Hi]]]]; unfold in_segment in Hi;
    [apply Ha|apply Hb|apply Hc|apply Hd|apply He]; try done; unfold page_of; dlia.
Qed.

(** C14. [setup_page_table] either maps every byte of the text, data, read-only
    data and bss segments and of the stack, and returns 0, or returns
    [ERR_NOMEM]; pages mapped before are kept, new pages are zero-filled private
    frames, the other address spaces are unchanged and the invariant holds. *)
Theorem setup_page_table_correct s own pds fs pd se :
  vm_wf none s own pds fs → cow_ok s own → pd ∈ pds → segments_ok se →
  ∃ rc s' own' fs', setup_page_table (Some se) pd s = Ok rc s' ∧
    grows s own fs s' own' fs' pds pd ∧
    (rc = ERR_NOMEM ∨
     rc = 0 ∧ ∀ va, word va →
       in_segment va (e_txtstart se) (e_txtlen se) ∨ in_segment va (e_datstart se) (e_datlen se) ∨
       in_segment va (e_rodatstart se) (e_rodatlen se) ∨ in_segment va (e_bssstart se) (e_bsslen se) ∨
       in_segment va (STACK_START - DEFAULT_STACK_SIZE + 1) DEFAULT_STACK_SIZE →
       is_Some (pte_at s' pd va)).
Proof. apply setup_page_table_ok. Qed.

(** C15. [free_paging_info] always returns; exactly the directory's page and the
    pages of its tables go back to the kernel heap, every frame that only this
    directory mapped goes back to the frame allocator (the reference counts of
    the invariant hold without it), and no translation of another address space
    and no byte of memory changes. *)
Theorem free_paging_info_correct s own pds fs pd :
  vm_wf none s own pds fs → cow_ok s own → pd ∈ pds →
  ∃ s' fs', free_paging_info pd s = Ok tt s' ∧
    vm_wf none s' (disown_dir s pd own) (pds ∖ {[pd]}) fs' ∧ phys s' = phys s ∧
    (∀ p, p ∈ kh_pages (kheap s') ↔
       p ∈ kh_pages (kheap s) ∧ p ≠ pd ∧ ∀ i, own !! p ≠ Some (pd, i)) ∧
    (∀ f, is_frame (fa s) f → f ∈ fs → f ∈ fs') ∧
    (∀ pd' va, pd' ∈ pds → pd' ≠ pd → word va → pte_at s' pd' va = pte_at s pd' va).
Proof.
  intros Hwf Hcow Hpd.
  destruct (free_paging_info_ok s own pds fs pd Hwf Hpd) as
    (s' & fs' & Hrun & Hwf' & Hm & Hph & Hcr & Hdm & Hk & Hpg).
  exists s', fs'. split_and!; [done..| |].
  - intros f Hf Hin. apply (wf_free _ _ _ _ _ Hwf' f); [by apply (is_frame_machine (fa s))|].
    apply (wf_free _ _ _ _ _ Hwf f Hf) in Hin. unfold none in *.
    rewrite (refs_ext s s') by (intros p Hp; apply Hk; by left).
    assert (dir_owns s pd 4 own) as Hd by (intros j e Hj; by apply (wf_dir _ _ _ _ _ Hwf)).
    pose proof (disown_refs s pd own f user_entries 4 ltac:(lia) ltac:(by rewrite user_entries_Z) Hd) as Hr.
    pose proof (refs_nonneg s (disown_dir s pd own) f). pose proof (dir_refs_nonneg s pd f user_entries 4).
    fold (disown_dir s pd own) in Hr. lia.
  - intros pd' va Hpd' Hne Hva.
    pose proof (wf_release _ _ _ _ _ _ Hwf Hpd) as Hwf0.
    eapply (pte_at_same _ s s'); [exact Hwf0| |done|exact Hk].
    apply elem_of_difference. by rewrite elem_of_singleton.
Qed.

(** C30. Boot.  [kernel_main] calls [vm_init] and later [init_frame_allocator].
    From the state at power-on this either panics because the kernel heap is
    exhausted or ends with paging and global pages on, the kernel directory
    current, and the invariant: one directory, no page table of user space, every
    user frame free. *)
Theorem boot_establishes_invariant arr locks s :
  power_on arr locks s → panics_or (booted s) (boot_memory arr locks s).
Proof. apply boot_memory_ok. Qed.

(** [is_memory_range_mapped] on a user range is exact for the pages that
    hold the bytes from [base] up to and including [base + len]: it answers
    "mapped" when one of them is mapped and "unmapped" when none is.  The page of
    the byte just past the range is included, so a free range that ends where a
    mapped page begins is reported as mapped. *)
Theorem is_memory_range_mapped_exact s own pds fs base len :
  vm_wf none s own pds fs → cr3 s ∈ pds → query_range base len →
  ∃ r, is_memory_range_mapped base len s = Ok r s ∧
    (r = MEMORY_REGION_MAPPED ∧
       (∃ va, word va ∧ page_of base ≤ page_of va ≤ base + len ∧ is_Some (pte_at s (cr3 s) va)) ∨
     r = MEMORY_REGION_UNMAPPED ∧
       ∀ va, word va → page_of base ≤ page_of va ≤ base + len → pte_at s (cr3 s) va = None).
Proof. apply is_memory_range_mapped_ok. Qed.

(** [is_addr_cow] answers yes for every present page that is not writable,
    whether or not it carries the copy-on-write mark (the code tests
    [pt[i] | COW_MODE]); after the fault handler calls [handle_cow] for it, a
    read-only page that was never copy-on-write, such as program text, is
    writable. *)
Theorem readonly_page_treated_as_cow s own pds fs addr e :
  vm_wf none s own pds fs → cow_ok s own → cr3 s ∈ pds → word addr → USER_MEM_START ≤ addr →
  pte_at s (cr3 s) addr = Some e → writable e = false → test e COW_MODE = false →
  is_addr_cow addr s = Ok true s ∧
  ((∃ s' e', handle_cow addr s = Ok 0 s' ∧ pte_at s' (cr3 s) addr = Some e' ∧ writable e' = true) ∨
   fs = []).
Proof.
  intros Hwf Hcow Hcr Hva Hu Hpte Hw _. split.
  { rewrite (is_addr_cow_ok s own pds fs addr e) by done. by rewrite Hw. }
  destruct (handle_cow_ok s own pds fs addr e Hwf Hcow Hcr Hva Hu Hpte)
    as [(_ & ? & _)|(s' & f & fs' & Hrun & Hrs & Hf)]; [by right|left].
  exists s', (uncow_entry f e). split; [done|].
  rewrite (rs_pte _ _ _ _ _ _ _ _ Hrs) by done. rewrite decide_True by done. split; [done|].
  by apply test_or_sub.
Qed.

Lemma kread_bad s p i : kmem s !! p = None → kread p i s = Stop BadAccess.
Proof. intros Hn. unfold kread. by rewrite bind_get, Hn. Qed.

(** For the last page of the address space the checks of [new_pages] do not
    hold: [end_addr] wraps to 0, so [is_memory_range_mapped] answers "unmapped",
    [map_segment] maps nothing and reports success, and [map_new_pages] goes on
    to mark an entry of a page table at address 0. *)
Theorem new_pages_at_top_of_memory s own pds fs :
  vm_wf none s own pds fs → cr3 s ∈ pds →
  entry_at s (cr3 s) 1023 = Some PAGE_DIR_ENTRY_DEFAULT → kmem s !! 0 = None →
  is_memory_range_mapped 0xFFFFF000 4096 s = Ok MEMORY_REGION_UNMAPPED s ∧
  map_segment 0xFFFFF000 4096 (cr3 s) 7 s = Ok 0 s ∧
  map_new_pages 0xFFFFF000 4096 s = Stop BadAccess.
Proof.
  intros Hwf Hcr He Hz. assert (∀ flags, map_segment 0xFFFFF000 4096 (cr3 s) flags s = Ok 0 s) as Hmap.
  { intros flags. unfold map_segment, set_cur_pd. rewrite bind_modify, set_cr3_id. done. }
  split_and!; [done|by apply Hmap|].
  unfold map_new_pages. rewrite bind_get, (bind_ok _ _ _ _ _ (Hmap _)), decide_False by done.
  change (Z.land (u32 (0xFFFFF000 + 4096 - 1)) PAGE_ROUND_DOWN) with 0xFFFFF000.
  unfold mark_entry. change (GET_PD_INDEX 0xFFFFF000) with 1023.
  assert ((d ← kread (cr3 s) 1023;
           e ← kread (GET_ADDR_FROM_ENTRY d) (GET_PT_INDEX 0xFFFFF000);
           kwrite (GET_ADDR_FROM_ENTRY d) (GET_PT_INDEX 0xFFFFF000) (SET_NEWPAGE_END e)) s =
          Stop BadAccess) as E.
  { rewrite (bind_ok _ _ _ _ _ (kread_ok _ _ _ _ He)).
    change (GET_ADDR_FROM_ENTRY PAGE_DIR_ENTRY_DEFAULT) with 0.
    unfold mbind, M_bind. by rewrite kread_bad. }
  unfold mbind at 1, M_bind at 1. by rewrite E.
Qed.

End theorems.

(** ** Instances *)
Lemma clone_paging_info_correct_witness :
  ∃ new s', clone_paging_info demo_pd demo_ro = Ok new s'.
Proof.
  destruct demo_ro_wf as (own & fs & Hwf & Hcow & _).
  destruct (clone_paging_info_correct demo_ro own {[demo_pd]} fs demo_pd Hwf Hcow)
    as (new & s' & Hrun & _); [by apply elem_of_singleton|]. exists new, s'. exact Hrun.
Defined.

Lemma handle_cow_correct_witness :
  ∃ fs, (handle_cow 0x1000004 demo_ro = Ok ERR_FAILURE demo_ro ∧ fs = @nil Z) ∨
    ∃ s' own f fs', handle_cow 0x1000004 demo_ro = Ok 0 s' ∧
      resolved demo_ro own {[demo_pd]} 0x1000004 0x1000005 f s' fs'.
Proof.
  destruct demo_ro_wf as (own & fs & Hwf & Hcow & Hcr). exists fs.
  destruct (handle_cow_correct demo_ro own {[demo_pd]} fs 0x1000004 0x1000005 Hwf Hcow)
    as [Hfail|(s' & f & fs' & Hrun & Hrs & _)];
    [rewrite Hcr; by apply elem_of_singleton|unfold word; lia|unfold USER_MEM_START; lia|
     |left; exact Hfail|].
  - rewrite Hcr. exact demo_ro_pte.
  - right. exists s', own, f, fs'. split; [exact Hrun|exact Hrs].
Defined.

(** The small machine with one writable page. *)
Definition demo_rw : vm bump :=
  match map_segment 0x1000000 100 demo_pd 7 demo with Ok _ s => s | Stop _ => demo end.

Lemma demo_rw_wf : ∃ own fs, vm_wf none demo_rw own {[demo_pd]} fs ∧ cow_ok demo_rw own.
Proof.
  destruct demo_wf as [Hwf Hcow]. unfold demo_rw.
  destruct (map_segment_ok demo ∅ {[demo_pd]} (all_frames demo_fa) demo_pd 0x1000000 100 7)
    as (rc & s & own & fs & -> & Hex & _);
    [done|done|by apply elem_of_singleton|done|done|done|done|done|].
  exists own, fs. split; [apply (ex_wf _ _ _ _ _ _ _ _ _ _ _ Hex)|
    apply (ex_cow _ _ _ _ _ _ _ _ _ _ _ Hex)].
Qed.

Lemma demo_rw_pte va : page_of va = 0x1000000 → word va → pte_at demo_rw demo_pd va = Some 0x1000007.
Proof.
  intros Hpg Hva. assert (pte_at demo_rw demo_pd 0x1000000 = Some 0x1000007) as <- by (vm_compute; reflexivity).
  apply (same_page va 0x1000000) in Hpg as [E1 E2]; [|exact Hva|unfold word; lia|reflexivity].
  unfold pte_at. rewrite E1, E2. exact eq_refl.
Qed.

Lemma map_segment_correct_witness :
  ∃ rc s', map_segment 0x1000000 0x5000 demo_pd 7 demo = Ok rc s' ∧ cr3 s' = demo_pd ∧
    (rc = ERR_NOMEM ∨ rc = 0 ∧ is_Some (pte_at s' demo_pd 0x1004000)).
Proof.
  destruct demo_wf as [Hwf Hcow].
  destruct (map_segment_correct demo ∅ {[demo_pd]} (all_frames demo_fa) demo_pd 0x1000000 0x5000 7)
    as (rc & s' & own & fs & Hrun & Hex & Hrc);
    [done|done|by apply elem_of_singleton|done|done|done|done|done|].
  exists rc, s'. split; [exact Hrun|]. split; [apply (ex_cr3 _ _ _ _ _ _ _ _ _ _ _ Hex)|].
  destruct Hrc as [E|[-> Hall]]; [left; exact E|right]. split; [reflexivity|].
  refine (Hall 0x1004000 _ _); [unfold word; lia|unfold page_of; split; reflexivity || (intros E; discriminate E)].
Defined.

Definition demo_segments : segments :=
  mk_segments 0x1000000 0x123 0x1001000 0x10 0x1002000 0 0x1001010 0x20.

Lemma setup_page_table_correct_witness :
  ∃ rc s', setup_page_table (Some demo_segments) demo_pd demo = Ok rc s' ∧
    (rc = ERR_NOMEM ∨ rc = 0 ∧ is_Some (pte_at s' demo_pd 0x1000122)).
Proof.
  destruct demo_wf as [Hwf Hcow].
  destruct (setup_page_table_correct demo ∅ {[demo_pd]} (all_frames demo_fa) demo_pd demo_segments)
    as (rc & s' & own & fs & Hrun & Hgr & Hrc); [done|done|by apply elem_of_singleton| |].
  { by repeat split. }
  exists rc, s'. split; [exact Hrun|].
  destruct Hrc as [E|[-> Hall]]; [left; exact E|right]. split; [reflexivity|].
  apply Hall; [unfold word; lia|]. left. unfold in_segment. cbn. lia.
Defined.

Lemma free_paging_info_correct_witness :
  ∃ s', free_paging_info demo_pd demo_ro = Ok tt s' ∧ demo_pd ∉ kh_pages (kheap s').
Proof.
  destruct demo_ro_wf as (own & fs & Hwf & Hcow & _).
  destruct (free_paging_info_correct demo_ro own {[demo_pd]} fs demo_pd Hwf Hcow)
    as (s' & fs' & Hrun & _ & _ & Hp & _); [by apply elem_of_singleton|].
  exists s'. split; [exact Hrun|]. rewrite Hp. intros (_ & Hne & _). exact (Hne eq_refl).
Defined.

Lemma demo_power_on : power_on (replicate 8 7) (replicate 8 held_mutex) demo_raw.
Proof. split; [unfold machine_ok; cbn; lia|reflexivity..]. Qed.

Lemma demo_boots : match boot_memory (replicate 8 7) (replicate 8 held_mutex) demo_raw with Ok _ _ => true | Stop _ => false end = true.
Proof. vm_compute. reflexivity. Qed.

Lemma boot_establishes_invariant_witness :
  ∃ s', boot_memory (replicate 8 7) (replicate 8 held_mutex) demo_raw = Ok tt s' ∧ booted demo_raw s'.
Proof.
  destruct (boot_establishes_invariant (replicate 8 7) (replicate 8 held_mutex) demo_raw demo_power_on)
    as [E|Hok]; [|exact Hok]. pose proof demo_boots as Hb. rewrite E in Hb. discriminate Hb.
Defined.

Lemma is_memory_range_mapped_exact_witness :
  ∃ r, is_memory_range_mapped 0x1800000 0x2000 demo = Ok r demo.
Proof.
  destruct demo_wf as [Hwf _].
  destruct (is_memory_range_mapped_exact demo ∅ {[demo_pd]} (all_frames demo_fa) 0x1800000 0x2000 Hwf)
    as (r & Hrun & _); [by apply elem_of_singleton|unfold query_range, USER_MEM_START; lia|]. exists r. exact Hrun.
Defined.

Lemma readonly_page_treated_as_cow_witness : is_addr_cow 0x1000000 demo_ro = Ok true demo_ro.
Proof.
  destruct demo_ro_wf as (own & fs & Hwf & Hcow & Hcr).
  destruct (readonly_page_treated_as_cow demo_ro own {[demo_pd]} fs 0x1000000 0x1000005 Hwf Hcow)
    as [Hrun _]; [rewrite Hcr; by apply elem_of_singleton|unfold word; lia|
    unfold USER_MEM_START; lia| |reflexivity|reflexivity|exact Hrun].
  rewrite Hcr. exact demo_ro_pte.
Defined.

Lemma new_pages_at_top_of_memory_witness :
  map_new_pages 0xFFFFF000 4096 demo = Stop BadAccess.
Proof.
  destruct demo_wf as [Hwf _].
  apply (new_pages_at_top_of_memory demo ∅ {[demo_pd]} (all_frames demo_fa) Hwf);
    [by apply elem_of_singleton| |done].
  apply (page_entry_at _ _ _ _ demo_dir); [done|done|].
  apply (proj2 demo_dir_contents). lia.
Defined.
