(* ===== verification/Console.v ===== *)
(** * The console driver (kern/drivers/console/)

    The state holds the static variables of console_util.c, the 32 KB of text
    video memory from [CONSOLE_MEM_BASE] on, byte by byte, and the sequence of
    port writes that move the hardware cursor.  A [char] is an integer in
    [-128, 128), a byte of video memory one in [0, 256).

    The first part translates console_util.c and console.c; the second states
    what the screen shows as an abstract terminal (a grid of 25 by 80 cells and
    a cursor) and shows that [putbyte] implements it. *)

From S2P Require Import Prelude FrameAlloc Paging.

(** ** x86/video_defines.h *)
Definition CRTC_IDX_REG : Z := 0x3d4.
Definition CRTC_DATA_REG : Z := 0x3d5.
Definition CRTC_CURSOR_LSB_IDX : Z := 15.
Definition CRTC_CURSOR_MSB_IDX : Z := 14.
Definition CONSOLE_MEM_BASE : Z := 0xB8000.
Definition CONSOLE_WIDTH : Z := 80.
Definition CONSOLE_HEIGHT : Z := 25.

Definition CONSOLE_MEM_END : Z := CONSOLE_MEM_BASE + CONSOLE_HEIGHT * CONSOLE_WIDTH * 2.

(** Bytes of the text window of the video card. *)
Definition VIDEO_MEM_SIZE : Z := 32768.

(** The character constants the driver treats specially. *)
Definition ch_newline : Z := 10.
Definition ch_return : Z := 13.
Definition ch_backspace : Z := 8.
Definition ch_space : Z := 32.

Record console : Type := mk_console {
  cursor_row : Z;
  cursor_col : Z;
  console_color : Z;
  empty_char : list Z;
  cbuf : list Z;
  vmem : list Z;
  ports : list (Z * Z);
}.

Definition set_cur r c s :=
  mk_console r c (console_color s) (empty_char s) (cbuf s) (vmem s) (ports s).
Definition set_color v s :=
  mk_console (cursor_row s) (cursor_col s) v (empty_char s) (cbuf s) (vmem s) (ports s).
Definition set_empty v s :=
  mk_console (cursor_row s) (cursor_col s) (console_color s) v (cbuf s) (vmem s) (ports s).
Definition set_cbuf v s :=
  mk_console (cursor_row s) (cursor_col s) (console_color s) (empty_char s) v (vmem s) (ports s).
Definition set_vmem v s :=
  mk_console (cursor_row s) (cursor_col s) (console_color s) (empty_char s) (cbuf s) v (ports s).

Definition outb (port v : Z) : M console unit :=
  modify (λ s, mk_console (cursor_row s) (cursor_col s) (console_color s) (empty_char s)
    (cbuf s) (vmem s) (ports s ++ [(port, v)])).

(** ** Accesses to video memory *)

(** [memcpy] of [n] bytes out of an array, and of bytes into one. *)
Definition copy_out {S} (l : list Z) (off n : Z) : M S (list Z) :=
  if decide (0 ≤ off ∧ 0 ≤ n ∧ off + n ≤ Z.of_nat (length l))
  then mret (take (Z.to_nat n) (drop (Z.to_nat off) l)) else halt BadAccess.

Definition copy_in {S} (l : list Z) (off : Z) (d : list Z) : M S (list Z) :=
  if decide (0 ≤ off ∧ off + Z.of_nat (length d) ≤ Z.of_nat (length l))
  then mret (list_inserts (Z.to_nat off) d l) else halt BadAccess.

Definition write_video (addr : Z) (d : list Z) : M console unit :=
  s ← get;
  l ← copy_in (vmem s) (addr - CONSOLE_MEM_BASE) d;
  modify (set_vmem l).

Definition read_video (addr n : Z) : M console (list Z) :=
  s ← get; copy_out (vmem s) (addr - CONSOLE_MEM_BASE) n.

(** ** console_util.c *)
Definition set_logical_cursor (row col : Z) : M console unit :=
  modify (set_cur (if decide (row < 0) then 0 else row) (if decide (col < 0) then 0 else col)).

Definition empty_fill (addr num : Z) : M console unit :=
  for_loop (Z.to_nat num) 0 (λ i,
    s ← get;
    write_video (addr + i * 2) (empty_char s)).

(** [unsigned short position], sent low byte first. *)
Definition set_hardware_cursor (row col : Z) : M console unit :=
  let position := (row * 80 + col) mod 65536 in
  outb CRTC_IDX_REG CRTC_CURSOR_LSB_IDX ;;
  outb CRTC_DATA_REG (Z.land position 0xFF) ;;
  outb CRTC_IDX_REG CRTC_CURSOR_MSB_IDX ;;
  outb CRTC_DATA_REG (Z.land (Z.shiftr position 8) 0xFF).

Definition is_valid_color (color : Z) : Z :=
  let bg_color := Z.land color 0xF in
  let fg_color := Z.land (Z.shiftr color 4) 0xF in
  if decide (fg_color < 0 ∨ fg_color > 0xF ∨ bg_color < 0 ∨ bg_color > 0x8)
  then ERR_INVAL else 0.

Definition print_char (ch row col color : Z) : M console unit :=
  if decide (ch = ch_newline ∨ ch = ch_return) then mret tt
  else
    write_video (CONSOLE_MEM_BASE + 2 * (row * CONSOLE_WIDTH + col)) [ch mod 256] ;;
    write_video (CONSOLE_MEM_BASE + 2 * (row * CONSOLE_WIDTH + col) + 1) [color mod 256].

Definition scroll_screen (num_rows : Z) : M console unit :=
  if decide (num_rows ≤ 0) then mret tt
  else if decide (CONSOLE_HEIGHT ≤ num_rows) then mret tt
  else
    let offset := num_rows * CONSOLE_WIDTH * 2 in
    let bytes := CONSOLE_HEIGHT * CONSOLE_WIDTH * 2 - offset in
    d ← read_video (CONSOLE_MEM_BASE + offset) bytes;
    s ← get;
    b ← copy_in (cbuf s) 0 d;
    modify (set_cbuf b) ;;
    d ← copy_out b 0 bytes;
    write_video CONSOLE_MEM_BASE d ;;
    empty_fill (CONSOLE_MEM_END - offset) offset.

Definition is_cursor_hidden : M console Z :=
  s ← get;
  mret (if decide (CONSOLE_HEIGHT ≤ cursor_row s ∨ CONSOLE_WIDTH ≤ cursor_col s)
        then 0 else ERR_INVAL).

(** ** console.c *)
Definition off_screen (row col : Z) : bool :=
  bool_decide (row < 0) || bool_decide (CONSOLE_HEIGHT ≤ row) ||
  bool_decide (col < 0) || bool_decide (CONSOLE_WIDTH ≤ col).

Definition set_cursor (row col : Z) : M console Z :=
  if off_screen row col then mret ERR_INVAL
  else
    set_logical_cursor row col ;;
    h ← is_cursor_hidden;
    if decide (h = 0) then mret 0
    else set_hardware_cursor row col ;; mret 0.

(** The statements of [putbyte] after the switch. *)
Definition scroll_at_bottom : M console unit :=
  s ← get;
  if decide (cursor_row s = CONSOLE_HEIGHT) then
    scroll_screen 1 ;;
    s ← get;
    set_logical_cursor (cursor_row s - 1) (cursor_col s)
  else mret tt.

Definition putbyte_tail (ch : Z) : M console Z :=
  scroll_at_bottom ;;
  s ← get;
  print_char ch (cursor_row s) (cursor_col s) (console_color s) ;;
  (if decide (ch ≠ ch_newline ∧ ch ≠ ch_return ∧ ch ≠ ch_backspace) then
     s ← get;
     set_logical_cursor (cursor_row s) (cursor_col s + 1)
   else mret tt) ;;
  mret ch.

Definition putbyte (ch : Z) : M console Z :=
  s ← get;
  if decide (ch = ch_newline) then
    set_logical_cursor (cursor_row s + 1) 0 ;;
    putbyte_tail ch
  else if decide (ch = ch_return) then
    set_logical_cursor (cursor_row s) 0 ;;
    putbyte_tail ch
  else if decide (ch = ch_backspace) then
    (if decide (cursor_col s = 0) then
       set_logical_cursor (cursor_row s - 1) (CONSOLE_WIDTH - 1)
     else set_logical_cursor (cursor_row s) (cursor_col s - 1)) ;;
    s ← get;
    print_char ch_space (cursor_row s) (cursor_col s) (console_color s) ;;
    mret ch
  else
    (if decide (cursor_col s = CONSOLE_WIDTH) then
       set_logical_cursor (cursor_row s + 1) 0
     else mret tt) ;;
    putbyte_tail ch.

(** The string, [None] for NULL, holds at least [len] characters. *)
Definition putbytes (str : option (list Z)) (len : Z) : M console unit :=
  match str with
  | None => mret tt
  | Some l =>
      if decide (len ≤ 0) then mret tt
      else for_loop (Z.to_nat len) 0 (λ i, c ← aget l i; putbyte c ;; mret tt)
  end.

(** [int] to [char]. *)
Definition s8 (x : Z) : Z := (x + 128) mod 256 - 128.

Definition set_term_color (color : Z) : M console Z :=
  if decide (is_valid_color color = -1) then mret ERR_INVAL
  else modify (set_color (s8 color)) ;; mret 0.

Definition get_term_color : M console Z := gets console_color.

Definition hide_cursor : M console unit :=
  set_hardware_cursor (CONSOLE_HEIGHT + 1) (CONSOLE_WIDTH + 1).

Definition show_cursor : M console unit :=
  s ← get; set_hardware_cursor (cursor_row s) (cursor_col s).

Definition clear_console : M console unit :=
  empty_fill CONSOLE_MEM_BASE (CONSOLE_HEIGHT * CONSOLE_WIDTH) ;;
  set_cursor 0 0 ;;
  mret tt.

Definition draw_char (row col ch color : Z) : M console unit :=
  if off_screen row col || bool_decide (is_valid_color color = -1) then mret tt
  else print_char (s8 ch) row col color.

Definition get_char (row col : Z) : M console Z :=
  if off_screen row col then mret 0
  else
    d ← read_video (CONSOLE_MEM_BASE + 2 * (row * CONSOLE_WIDTH + col)) 1;
    b ← aget d 0;
    mret (s8 b).

Definition get_color (row col : Z) : M console Z :=
  if off_screen row col then mret 0
  else
    d ← read_video (CONSOLE_MEM_BASE + 2 * (row * CONSOLE_WIDTH + col) + 1) 1;
    b ← aget d 0;
    mret (s8 b).

Definition get_cursor : M console (Z * Z) := gets (λ s, (cursor_row s, cursor_col s)).

(** ** What the driver keeps true *)
Record mem_ok (s : console) : Prop := {
  ok_empty : length (empty_char s) = 2%nat;
  ok_cbuf : length (cbuf s) = 4000%nat;
  ok_vmem : length (vmem s) = Z.to_nat VIDEO_MEM_SIZE;
}.

Record console_ok (s : console) : Prop := {
  ok_mem : mem_ok s;
  ok_row : 0 ≤ cursor_row s < CONSOLE_HEIGHT;
  ok_col : 0 ≤ cursor_col s ≤ CONSOLE_WIDTH;
}.

(** The character and the colour shown at a position. *)
Definition cell_of (v : list Z) (row col : Z) : option (Z * Z) :=
  let k := 2 * (row * CONSOLE_WIDTH + col) in
  ch ← v !! Z.to_nat k; color ← v !! Z.to_nat (k + 1); Some (ch, color).

(** ** The abstract terminal *)
Record term : Type := mk_term {
  t_row : Z;
  t_col : Z;
  t_color : Z;
  t_blank : Z * Z;
  t_grid : Z → Z → Z * Z;
}.

Definition t_at r c t := mk_term r c (t_color t) (t_blank t) (t_grid t).
Definition t_draw (ch : Z) (t : term) : term :=
  mk_term (t_row t) (t_col t) (t_color t) (t_blank t) (λ r c,
    if decide (r = t_row t ∧ c = t_col t) then (ch mod 256, t_color t mod 256) else t_grid t r c).
Definition t_scroll (n : Z) (t : term) : term :=
  mk_term (t_row t) (t_col t) (t_color t) (t_blank t) (λ r c,
    if decide (r + n < CONSOLE_HEIGHT) then t_grid t (r + n) c else t_blank t).

(** To the start of the next line, scrolling at the bottom. *)
Definition t_newline (t : term) : term :=
  if decide (t_row t + 1 = CONSOLE_HEIGHT) then t_at (t_row t) 0 (t_scroll 1 t)
  else t_at (t_row t + 1) 0 t.

(** One column back; from the first column to the last one of the line above,
    and from the top left corner to the end of the first line. *)
Definition t_back (t : term) : term :=
  if decide (t_col t = 0) then t_at (Z.max 0 (t_row t - 1)) (CONSOLE_WIDTH - 1) t
  else t_at (t_row t) (t_col t - 1) t.

Definition t_put (t : term) (ch : Z) : term :=
  if decide (ch = ch_newline) then t_newline t
  else if decide (ch = ch_return) then t_at (t_row t) 0 t
  else if decide (ch = ch_backspace) then t_draw ch_space (t_back t)
  else
    let t := if decide (t_col t = CONSOLE_WIDTH) then t_newline t else t in
    t_at (t_row t) (t_col t + 1) (t_draw ch t).

(** The console shows the terminal. *)
Record shows (s : console) (t : term) : Prop := {
  sh_row : cursor_row s = t_row t;
  sh_col : cursor_col s = t_col t;
  sh_color : console_color s = t_color t;
  sh_blank : empty_char s = [(t_blank t).1; (t_blank t).2];
  sh_cell r c : 0 ≤ r < CONSOLE_HEIGHT → 0 ≤ c < CONSOLE_WIDTH →
    cell_of (vmem s) r c = Some (t_grid t r c);
}.

(** ** Video memory accesses *)
Lemma lookup_inserts_Z {A} (l d : list A) off k :
  0 ≤ off → off + Z.of_nat (length d) ≤ Z.of_nat (length l) → 0 ≤ k →
  list_inserts (Z.to_nat off) d l !! Z.to_nat k =
  if decide (off ≤ k < off + Z.of_nat (length d)) then d !! Z.to_nat (k - off)
  else l !! Z.to_nat k.
Proof.
  intros Ho Hl Hk. case_decide.
  - rewrite list_lookup_inserts by lia. f_equal. lia.
  - destruct (decide (k < off)); [rewrite list_lookup_inserts_lt by lia|
      rewrite list_lookup_inserts_ge by lia]; done.
Qed.

Lemma write_video_ok addr d s :
  0 ≤ addr - CONSOLE_MEM_BASE →
  addr - CONSOLE_MEM_BASE + Z.of_nat (length d) ≤ Z.of_nat (length (vmem s)) →
  write_video addr d s =
  Ok tt (set_vmem (list_inserts (Z.to_nat (addr - CONSOLE_MEM_BASE)) d (vmem s)) s).
Proof.
  intros H1 H2. unfold write_video, copy_in. by rewrite bind_get, decide_True.
Qed.

(** [k] is the offset of a byte of a region of [n] cells at offset [off]. *)
Definition in_region (off n k : Z) : bool := bool_decide (off ≤ k < off + 2 * n).

Lemma empty_fill_ok addr num s :
  mem_ok s → 0 ≤ num →
  0 ≤ addr - CONSOLE_MEM_BASE → addr - CONSOLE_MEM_BASE + 2 * num ≤ VIDEO_MEM_SIZE →
  ∃ v, empty_fill addr num s = Ok tt (set_vmem v s) ∧ length v = length (vmem s) ∧
    ∀ k, 0 ≤ k → v !! Z.to_nat k =
      if in_region (addr - CONSOLE_MEM_BASE) num k
      then empty_char s !! Z.to_nat ((k - (addr - CONSOLE_MEM_BASE)) mod 2)
      else vmem s !! Z.to_nat k.
Proof.
  intros Hok Hn Ha Hb. set (off := addr - CONSOLE_MEM_BASE) in *.
  pose proof (ok_vmem s Hok) as Hv. pose proof (ok_empty s Hok) as He. unfold VIDEO_MEM_SIZE in *.
  unfold empty_fill.
  destruct (for_loop_ok (λ i s', ∃ v, s' = set_vmem v s ∧ length v = length (vmem s) ∧
      ∀ k, 0 ≤ k → v !! Z.to_nat k =
        if in_region off i k then empty_char s !! Z.to_nat ((k - off) mod 2)
        else vmem s !! Z.to_nat k)
    (λ i, s ← get; write_video (addr + i * 2) (empty_char s)) (Z.to_nat num) 0 s)
    as (s' & Hrun & v & -> & Hl & Hk).
  - exists (vmem s). split_and!; [by destruct s|done|]. intros k Hk. unfold in_region.
    by rewrite bool_decide_false by lia.
  - intros i s' Hi (v & -> & Hl & Hk). rewrite bind_get. cbn.
    rewrite write_video_ok by (cbn; rewrite ?Hl, ?He, ?Hv; lia). eexists. split; [done|].
    eexists. split; [cbn; unfold set_vmem; cbn; reflexivity|]. cbn.
    split; [by rewrite length_inserts|]. intros k Hk0.
    rewrite lookup_inserts_Z by (rewrite ?Hl, ?He, ?Hv; lia). rewrite He, Hk by done.
    unfold in_region. replace (addr + i * 2 - CONSOLE_MEM_BASE) with (off + 2 * i) by lia.
    case_decide as D.
    + rewrite bool_decide_true by lia. f_equal. dlia.
    + repeat case_bool_decide; try done; lia.
  - exists v. split_and!; [done..|]. intros k Hk0. rewrite Hk by done.
    by replace (0 + Z.of_nat (Z.to_nat num)) with num by lia.
Qed.

(** The screen moves up by [n] rows, the rows that appear are blank, and as
    many bytes again after the end of the screen are overwritten. *)
Lemma scroll_screen_ok n s :
  mem_ok s → 0 < n < CONSOLE_HEIGHT →
  ∃ b v, scroll_screen n s = Ok tt (set_vmem v (set_cbuf b s)) ∧
    length b = length (cbuf s) ∧ length v = length (vmem s) ∧
    ∀ k, 0 ≤ k → v !! Z.to_nat k =
      if decide (k < 4000 - 160 * n) then vmem s !! Z.to_nat (k + 160 * n)
      else if decide (k < 4000 + 160 * n) then empty_char s !! Z.to_nat (k mod 2)
      else vmem s !! Z.to_nat k.
Proof.
  intros Hok Hn. unfold CONSOLE_HEIGHT in Hn.
  pose proof (ok_vmem s Hok) as Hv. pose proof (ok_cbuf s Hok) as Hcb. unfold VIDEO_MEM_SIZE in *.
  unfold scroll_screen. rewrite !decide_False by (unfold CONSOLE_HEIGHT; lia).
  unfold read_video, CONSOLE_WIDTH, CONSOLE_HEIGHT.
  set (d := take (Z.to_nat (25 * 80 * 2 - n * 80 * 2)) (drop (Z.to_nat (n * 80 * 2)) (vmem s))).
  assert (Z.of_nat (length d) = 4000 - n * 160) as Hd.
  { unfold d. rewrite length_take, length_drop. lia. }
  erewrite bind_ok; last first.
  { rewrite bind_get. unfold copy_out. rewrite decide_True by lia.
    replace (CONSOLE_MEM_BASE + n * 80 * 2 - CONSOLE_MEM_BASE) with (n * 80 * 2) by lia. done. }
  fold d. rewrite bind_get.
  erewrite bind_ok by (unfold copy_in; rewrite decide_True by lia; done).
  rewrite bind_modify. set (b := list_inserts (Z.to_nat 0) d (cbuf s)).
  assert (length b = length (cbuf s)) as Hlb by apply length_inserts.
  assert (take (Z.to_nat (25 * 80 * 2 - n * 80 * 2)) (drop (Z.to_nat 0) b) = d) as Hbd.
  { apply list_eq. intros i. rewrite drop_0.
    destruct (decide (i < length d)%nat).
    - rewrite lookup_take_lt by lia. unfold b. rewrite list_lookup_inserts by lia. f_equal. lia.
    - rewrite lookup_take_ge by lia. symmetry. apply lookup_ge_None_2. lia. }
  erewrite bind_ok by (unfold copy_out; rewrite decide_True by lia; rewrite Hbd; done).
  set (s1 := set_cbuf b s).
  assert (mem_ok s1) as Hok1 by (destruct Hok; split; cbn in *; lia).
  erewrite bind_ok by (apply write_video_ok; change (vmem s1) with (vmem s); lia).
  set (v1 := list_inserts _ d (vmem s1)).
  assert (length v1 = length (vmem s)) as Hl1 by apply length_inserts.
  assert (mem_ok (set_vmem v1 s1)) as Hok2 by (destruct Hok; split; cbn in *; lia).
  replace (CONSOLE_MEM_END - n * 80 * 2) with (CONSOLE_MEM_BASE + (4000 - n * 160))
    by (unfold CONSOLE_MEM_END, CONSOLE_HEIGHT, CONSOLE_WIDTH; lia).
  destruct (empty_fill_ok (CONSOLE_MEM_BASE + (4000 - n * 160)) (n * 80 * 2) _ Hok2)
    as (v & Hrun & Hl & Hk); [lia|lia|unfold VIDEO_MEM_SIZE; lia|].
  exists b, v. rewrite Hrun. cbn in Hl. split_and!; [done|done|by rewrite Hl|].
  intros k Hk0. rewrite Hk by done. unfold in_region.
  replace (CONSOLE_MEM_BASE + (4000 - n * 160) - CONSOLE_MEM_BASE) with (4000 - n * 160) by lia.
  cbn [empty_char vmem set_vmem set_cbuf s1].
  destruct (decide (k < 4000 - 160 * n)).
  - rewrite bool_decide_false by lia. unfold v1.
    replace (CONSOLE_MEM_BASE - CONSOLE_MEM_BASE) with 0 by lia. change (vmem s1) with (vmem s).
    rewrite lookup_inserts_Z by lia. rewrite decide_True by lia. unfold d.
    rewrite lookup_take_lt by lia. rewrite lookup_drop. f_equal. lia.
  - case_decide.
    + rewrite bool_decide_true by lia. f_equal. f_equal. dlia.
    + rewrite bool_decide_false by lia. unfold v1.
      replace (CONSOLE_MEM_BASE - CONSOLE_MEM_BASE) with 0 by lia. change (vmem s1) with (vmem s).
      rewrite lookup_inserts_Z by lia. by rewrite decide_False by lia.
Qed.

(** ** [putbyte] implements the terminal *)

(** Video memory after the area that scrolling writes. *)
Definition far_same (s s' : console) : Prop :=
  ∀ k, 4160 ≤ k → vmem s' !! Z.to_nat k = vmem s !! Z.to_nat k.

Lemma set_logical_cursor_ok row col s :
  0 ≤ row → 0 ≤ col → set_logical_cursor row col s = Ok tt (set_cur row col s).
Proof. intros. unfold set_logical_cursor. by rewrite !decide_False by lia. Qed.

Lemma print_char_ok ch row col color s :
  mem_ok s → 0 ≤ row < CONSOLE_HEIGHT → 0 ≤ col < CONSOLE_WIDTH →
  ch ≠ ch_newline → ch ≠ ch_return →
  ∃ v, print_char ch row col color s = Ok tt (set_vmem v s) ∧ length v = length (vmem s) ∧
    (∀ r c, 0 ≤ r < CONSOLE_HEIGHT → 0 ≤ c < CONSOLE_WIDTH → cell_of v r c =
       if decide (r = row ∧ c = col) then Some (ch mod 256, color mod 256)
       else cell_of (vmem s) r c) ∧
    (∀ k, 4000 ≤ k → v !! Z.to_nat k = vmem s !! Z.to_nat k).
Proof.
  unfold CONSOLE_HEIGHT, CONSOLE_WIDTH. intros Hok Hr Hc Hn Hn'.
  pose proof (ok_vmem s Hok) as Hv. unfold VIDEO_MEM_SIZE in Hv.
  unfold print_char, CONSOLE_WIDTH. rewrite decide_False by tauto.
  set (off := 2 * (row * 80 + col)).
  erewrite bind_ok by (apply write_video_ok; cbn [length]; lia).
  rewrite write_video_ok by (cbn [length vmem set_vmem]; rewrite ?length_inserts; lia).
  replace (CONSOLE_MEM_BASE + off + 1 - CONSOLE_MEM_BASE) with (off + 1) by lia.
  replace (CONSOLE_MEM_BASE + off - CONSOLE_MEM_BASE) with off by lia.
  exists (list_inserts (Z.to_nat (off + 1)) [color mod 256]
      (list_inserts (Z.to_nat off) [ch mod 256] (vmem s))). split; [done|].
  assert (∀ k, 0 ≤ k → list_inserts (Z.to_nat (off + 1)) [color mod 256]
      (list_inserts (Z.to_nat off) [ch mod 256] (vmem s)) !! Z.to_nat k =
    if decide (k = off + 1) then Some (color mod 256)
    else if decide (k = off) then Some (ch mod 256) else vmem s !! Z.to_nat k) as Hk.
  { intros k Hk. rewrite !lookup_inserts_Z by (rewrite ?length_inserts; cbn [length]; lia).
    cbn [length]. destruct (decide (k = off + 1)) as [->|].
    - rewrite decide_True by lia. by replace (off + 1 - (off + 1)) with 0 by lia.
    - rewrite decide_False by lia. destruct (decide (k = off)) as [->|].
      + rewrite decide_True by lia. by replace (off - off) with 0 by lia.
      + by rewrite decide_False by lia. }
  split_and!; [by rewrite !length_inserts| |].
  - intros r c Hr' Hc'. unfold cell_of, CONSOLE_WIDTH. rewrite !Hk by lia.
    destruct (decide (r = row ∧ c = col)) as [[-> ->]|Hne].
    + fold off. rewrite (decide_False (P := off = off + 1)) by lia.
      rewrite (decide_True (P := off = off)), (decide_True (P := off + 1 = off + 1)) by lia. done.
    + rewrite !decide_False by lia. done.
  - intros k Hk0. rewrite Hk by lia. by rewrite !decide_False by lia.
Qed.

Lemma cell_scrolled s n v r c :
  mem_ok s → 0 < n < CONSOLE_HEIGHT →
  (∀ k, 0 ≤ k → v !! Z.to_nat k =
      if decide (k < 4000 - 160 * n) then vmem s !! Z.to_nat (k + 160 * n)
      else if decide (k < 4000 + 160 * n) then empty_char s !! Z.to_nat (k mod 2)
      else vmem s !! Z.to_nat k) →
  0 ≤ r < CONSOLE_HEIGHT → 0 ≤ c < CONSOLE_WIDTH →
  cell_of v r c = if decide (r + n < CONSOLE_HEIGHT) then cell_of (vmem s) (r + n) c
                  else b ← empty_char s !! 0%nat; a ← empty_char s !! 1%nat; Some (b, a).
Proof.
  unfold CONSOLE_HEIGHT, CONSOLE_WIDTH. intros Hok Hn Hk Hr Hc.
  unfold cell_of, CONSOLE_WIDTH. destruct (decide (r + n < 25)).
  - assert (∀ k, 0 ≤ k < 4000 - 160 * n → v !! Z.to_nat k = vmem s !! Z.to_nat (k + 160 * n)) as E
      by (intros k Hk0; rewrite Hk by lia; by rewrite decide_True by lia).
    rewrite !E by lia.
    replace (2 * (r * 80 + c) + 1 + 160 * n) with (2 * ((r + n) * 80 + c) + 1) by lia.
    by replace (2 * (r * 80 + c) + 160 * n) with (2 * ((r + n) * 80 + c)) by lia.
  - assert (∀ k, 4000 - 160 * n ≤ k < 4000 → v !! Z.to_nat k = empty_char s !! Z.to_nat (k mod 2)) as E
      by (intros k Hk0; rewrite Hk by lia; by rewrite decide_False, decide_True by lia).
    rewrite !E by lia. replace ((2 * (r * 80 + c)) mod 2) with 0 by dlia.
    by replace ((2 * (r * 80 + c) + 1) mod 2) with 1 by dlia.
Qed.

(** The cursor one line down, with the scroll that [putbyte] makes. *)
Lemma line_feed_ok s t :
  console_ok s → shows s t →
  ∃ s', scroll_at_bottom (set_cur (cursor_row s + 1) 0 s) = Ok tt s' ∧
    console_ok s' ∧ shows s' (t_newline t) ∧ far_same s s'.
Proof.
  intros Hok Hsh. pose proof (ok_row s Hok) as Hr. unfold CONSOLE_HEIGHT in Hr.
  unfold scroll_at_bottom, t_newline. rewrite bind_get. cbn [cursor_row set_cur].
  rewrite <- (sh_row _ _ Hsh). case_decide as Hb.
  - set (s1 := set_cur (cursor_row s + 1) 0 s).
    assert (mem_ok s1) as Hm by (destruct Hok as [[]]; by split).
    destruct (scroll_screen_ok 1 s1 Hm) as (b & v & Hrun & Hlb & Hlv & Hk); [done|].
    rewrite (bind_ok _ _ _ _ _ Hrun), bind_get, set_logical_cursor_ok by (cbn; lia).
    eexists. split; [done|]. split_and!.
    + destruct Hok as [[]]. split; [split|..]; cbn in *; unfold CONSOLE_HEIGHT, CONSOLE_WIDTH; lia.
    + destruct Hsh as [Er Ec Eco Eb Hcell]. split; cbn; [lia|done..|].
      intros r c Hrr Hcc. rewrite (cell_scrolled s1 1 v) by done. cbn.
      case_decide; [apply Hcell; lia|]. rewrite Eb. cbn. by destruct (t_blank t).
    + intros k Hk0. cbn. rewrite Hk by lia. by rewrite !decide_False by lia.
  - eexists. split; [done|]. unfold CONSOLE_HEIGHT in *. split_and!; [|by destruct Hsh; split|done].
    destruct Hok as [[]]. split; [by split|..]; cbn; unfold CONSOLE_HEIGHT, CONSOLE_WIDTH; lia.
Qed.

(** Drawing at the cursor. *)
Lemma draw_ok ch s t :
  console_ok s → shows s t → cursor_col s < CONSOLE_WIDTH →
  ch ≠ ch_newline → ch ≠ ch_return →
  ∃ v, print_char ch (cursor_row s) (cursor_col s) (console_color s) s = Ok tt (set_vmem v s) ∧
    console_ok (set_vmem v s) ∧ shows (set_vmem v s) (t_draw ch t) ∧ far_same s (set_vmem v s).
Proof.
  intros Hok Hsh Hc Hn Hr. pose proof (ok_row s Hok). pose proof (ok_col s Hok).
  destruct (print_char_ok ch (cursor_row s) (cursor_col s) (console_color s) s)
    as (v & Hrun & Hl & Hcell & Hfar); [apply Hok|done|lia|done..|].
  exists v. split_and!; [done| | |].
  - destruct Hok as [[]]. split; [split|..]; cbn; try done; lia.
  - destruct Hsh as [Er Ec Eco Eb Hg]. split; [done..|]. intros r c Hrr Hcc. cbn.
    rewrite Hcell, Er, Ec, Eco by done. case_decide; [done|]. by apply Hg.
  - intros k Hk. apply Hfar. lia.
Qed.

Lemma far_same_trans s1 s2 s3 : far_same s1 s2 → far_same s2 s3 → far_same s1 s3.
Proof. intros H1 H2 k Hk. rewrite H2 by done. by apply H1. Qed.

(** Moving the logical cursor inside the screen. *)
Lemma move_ok row col s t :
  console_ok s → shows s t → 0 ≤ row < CONSOLE_HEIGHT → 0 ≤ col ≤ CONSOLE_WIDTH →
  console_ok (set_cur row col s) ∧ shows (set_cur row col s) (t_at row col t).
Proof. intros [[]] [] Hr Hc. repeat split; try done; cbn; lia. Qed.

Lemma scroll_at_bottom_id s : console_ok s → scroll_at_bottom s = Ok tt s.
Proof.
  intros Hok. unfold scroll_at_bottom. rewrite bind_get, decide_False; [done|].
  pose proof (ok_row s Hok). lia.
Qed.

(** A printable character, once the cursor is on a column of the screen. *)
Lemma put_printable_ok ch s s0 t :
  scroll_at_bottom s0 = Ok tt s → console_ok s → shows s t → cursor_col s < CONSOLE_WIDTH →
  ch ≠ ch_newline → ch ≠ ch_return → ch ≠ ch_backspace →
  ∃ s', putbyte_tail ch s0 = Ok ch s' ∧ console_ok s' ∧
    shows s' (t_at (t_row t) (t_col t + 1) (t_draw ch t)) ∧ far_same s s'.
Proof.
  intros Hs Hok Hsh Hc Hn Hr Hb. pose proof (ok_row s Hok). pose proof (ok_col s Hok).
  destruct (draw_ok ch s t Hok Hsh Hc Hn Hr) as (v & Hrun & Hok' & Hsh' & Hfar).
  unfold putbyte_tail. rewrite (bind_ok _ _ _ _ _ Hs), bind_get, (bind_ok _ _ _ _ _ Hrun).
  rewrite decide_True by done.
  erewrite bind_ok by (rewrite bind_get; apply set_logical_cursor_ok; cbn; lia).
  eexists. split; [done|]. destruct (move_ok (cursor_row s) (cursor_col s + 1) _ _ Hok' Hsh'); [lia..|].
  split_and!; [done| |].
  - by rewrite <- (sh_row _ _ Hsh), <- (sh_col _ _ Hsh).
  - intros k Hk. by apply Hfar.
Qed.

Lemma far_same_refl s : far_same s s.
Proof. by intros k. Qed.

Lemma putbyte_ok ch s t :
  console_ok s → shows s t →
  ∃ s', putbyte ch s = Ok ch s' ∧ console_ok s' ∧ shows s' (t_put t ch) ∧ far_same s s'.
Proof.
  intros Hok Hsh. pose proof (ok_row s Hok) as Hr. pose proof (ok_col s Hok) as Hc.
  destruct (line_feed_ok s t Hok Hsh) as (s1 & Hlf & Hok1 & Hsh1 & Hfar1).
  unfold putbyte, t_put. rewrite bind_get.
  destruct (decide (ch = ch_newline)) as [->|Hn].
  { erewrite bind_ok by (apply set_logical_cursor_ok; lia).
    exists s1. unfold putbyte_tail. by rewrite (bind_ok _ _ _ _ _ Hlf). }
  destruct (decide (ch = ch_return)) as [->|Hr'].
  { erewrite bind_ok by (apply set_logical_cursor_ok; lia).
    destruct (move_ok (cursor_row s) 0 s t Hok Hsh) as [Hok2 Hsh2]; [done|unfold CONSOLE_WIDTH; lia|].
    exists (set_cur (cursor_row s) 0 s). unfold putbyte_tail.
    rewrite (bind_ok _ _ _ _ _ (scroll_at_bottom_id _ Hok2)).
    rewrite <- (sh_row _ _ Hsh). by split_and!. }
  destruct (decide (ch = ch_backspace)) as [->|Hb].
  { set (row := if decide (cursor_col s = 0) then Z.max 0 (cursor_row s - 1) else cursor_row s).
    set (col := if decide (cursor_col s = 0) then CONSOLE_WIDTH - 1 else cursor_col s - 1).
    assert (0 ≤ row < CONSOLE_HEIGHT ∧ 0 ≤ col < CONSOLE_WIDTH) as [Hrow Hcol].
    { unfold row, col, CONSOLE_WIDTH, CONSOLE_HEIGHT in *. case_decide; lia. }
    destruct (move_ok row col s t Hok Hsh) as [Hok2 Hsh2]; [done|lia|].
    destruct (draw_ok ch_space _ _ Hok2 Hsh2) as (v & Hrun & Hok3 & Hsh3 & Hfar3);
      [cbn; lia|done..|].
    assert ((if decide (cursor_col s = 0) then set_logical_cursor (cursor_row s - 1) (CONSOLE_WIDTH - 1)
      else set_logical_cursor (cursor_row s) (cursor_col s - 1)) s = Ok tt (set_cur row col s)) as Hmv.
    { unfold row, col, set_logical_cursor, CONSOLE_WIDTH. case_decide.
      - rewrite (decide_False (P := 80 - 1 < 0)) by lia. case_decide; repeat f_equal; unfold modify; repeat f_equal; lia.
      - by rewrite !decide_False by lia. }
    rewrite (bind_ok _ _ _ _ _ Hmv), bind_get, (bind_ok _ _ _ _ _ Hrun).
    eexists. split; [done|]. split_and!; [done| |intros k Hk; by apply Hfar3].
    replace (t_back t) with (t_at row col t); [done|].
    unfold t_back, row, col. rewrite <- (sh_row _ _ Hsh), <- (sh_col _ _ Hsh). by case_decide. }
  destruct (decide (cursor_col s = CONSOLE_WIDTH)) as [Hw|Hw].
  - erewrite bind_ok by (apply set_logical_cursor_ok; lia).
    destruct (put_printable_ok ch s1 _ (t_newline t) Hlf Hok1 Hsh1) as (s' & Hrun & Hok' & Hsh' & Hfar');
      [|done..|].
    { rewrite (sh_col _ _ Hsh1). unfold t_newline, CONSOLE_WIDTH. by case_decide. }
    exists s'. split_and!; [done..| |by eapply far_same_trans].
    by rewrite <- (sh_col _ _ Hsh), decide_True by done.
  - rewrite bind_mret.
    destruct (put_printable_ok ch s s t (scroll_at_bottom_id _ Hok) Hok Hsh)
      as (s' & Hrun & Hok' & Hsh' & Hfar'); [lia|done..|].
    exists s'. split_and!; [done..| |done]. by rewrite <- (sh_col _ _ Hsh), decide_False by done.
Qed.

(** A line feed on the last row exposes a row of [empty_char], in its colour and
    not in [console_color]. *)
Lemma newline_blanks_in_boot_colour s t c :
  console_ok s → shows s t → cursor_row s = CONSOLE_HEIGHT - 1 → 0 ≤ c < CONSOLE_WIDTH →
  ∃ s' a b, putbyte ch_newline s = Ok ch_newline s' ∧ empty_char s = [a; b] ∧
    cell_of (vmem s') (CONSOLE_HEIGHT - 1) c = Some (a, b).
Proof.
  intros Hok Hsh Hr Hc. destruct (putbyte_ok ch_newline s t Hok Hsh) as (s' & Hrun & _ & Hsh' & _).
  exists s', (t_blank t).1, (t_blank t).2. split_and!; [done|by rewrite (sh_blank _ _ Hsh)|].
  rewrite (sh_cell _ _ Hsh') by (unfold CONSOLE_HEIGHT; lia). unfold t_put. rewrite decide_True by done.
  unfold t_newline. rewrite <- (sh_row _ _ Hsh), Hr, decide_True by lia. cbn.
  by destruct (t_blank t).
Qed.

(** ** Properties *)

(** C32. [putbytes] implements the terminal: printing [len] characters makes the
    screen, the cursor and the colours what the abstract terminal computes from
    those characters one after the other (line feeds, wrapping, scrolling,
    carriage returns and backspaces included) and never writes past the area that
    scrolling overruns.  The cursor stays on the rows of the screen; its column
    may be [CONSOLE_WIDTH], one past the last, after a character in the last
    column and until the next one wraps.  The rows that scrolling exposes get the
    cell [empty_char] that the kernel set at boot ([t_blank]), whatever the current
    colour is, although the comment above [empty_fill] promises that colour
    ([newline_blanks_in_boot_colour]). *)
Theorem putbytes_refines_terminal s t l len :
  console_ok s → shows s t → len ≤ Z.of_nat (length l) →
  ∃ s', putbytes (Some l) len s = Ok tt s' ∧ console_ok s' ∧
    shows s' (foldl t_put t (take (Z.to_nat len) l)) ∧ far_same s s'.
Proof.
  intros Hok Hsh Hlen. unfold putbytes. case_decide as Hz.
  { exists s. replace (Z.to_nat len) with 0%nat by lia. by split_and!. }
  destruct (for_loop_ok (λ i s', console_ok s' ∧ far_same s s' ∧
      shows s' (foldl t_put t (take (Z.to_nat i) l)))
    (λ i, c ← aget l i; putbyte c ;; mret tt) (Z.to_nat len) 0 s)
    as (s' & Hrun & Hok' & Hfar & Hsh'); [by split_and!| |].
  - intros i s1 Hi (Hok1 & Hfar1 & Hsh1). destruct (lookup_Z l i) as [c Hc]; [lia|].
    destruct (putbyte_ok c s1 _ Hok1 Hsh1) as (s2 & Hrun & Hok2 & Hsh2 & Hfar2).
    exists s2. erewrite bind_ok by (apply aget_ok; [lia|exact Hc]).
    rewrite (bind_ok _ _ _ _ _ Hrun). split_and!; [done..|by eapply far_same_trans|].
    replace (Z.to_nat (i + 1)) with (S (Z.to_nat i)) by lia.
    by rewrite (take_S_r _ _ _ Hc), foldl_app.
  - exists s'. replace (0 + Z.of_nat (Z.to_nat len)) with len in Hsh' by lia. by split_and!.
Qed.

Lemma draw_char_ok row col ch color s :
  console_ok s → 0 ≤ row < CONSOLE_HEIGHT → 0 ≤ col < CONSOLE_WIDTH →
  s8 ch ≠ ch_newline → s8 ch ≠ ch_return →
  ∃ v, draw_char row col ch color s = Ok tt (set_vmem v s) ∧ mem_ok (set_vmem v s) ∧
    cell_of v row col = Some (s8 ch mod 256, color mod 256).
Proof.
  intros Hok Hr Hc Hn Hn'. destruct (print_char_ok (s8 ch) row col color s)
    as (v & Hrun & Hl & Hcell & _); [apply Hok|done..|].
  exists v. split_and!.
  - unfold draw_char, off_screen. rewrite !bool_decide_false; try lia; [done|].
    unfold is_valid_color, ERR_INVAL. case_decide; lia.
  - destruct Hok as [[]]. split; cbn; congruence.
  - rewrite Hcell by done. by rewrite decide_True.
Qed.

Lemma cell_lookup v row col ch color :
  cell_of v row col = Some (ch, color) →
  v !! Z.to_nat (2 * (row * CONSOLE_WIDTH + col)) = Some ch ∧
  v !! Z.to_nat (2 * (row * CONSOLE_WIDTH + col) + 1) = Some color.
Proof.
  unfold cell_of. destruct (v !! Z.to_nat (2 * _)) as [b|]; cbn; [|done].
  by destruct (v !! Z.to_nat (_ + 1)) as [a|]; cbn; intros [= -> ->].
Qed.

Lemma read_video_byte k x s :
  0 ≤ k → vmem s !! Z.to_nat k = Some x → read_video (CONSOLE_MEM_BASE + k) 1 s = Ok [x] s.
Proof.
  intros Hk Hx. pose proof (lookup_lt_Some _ _ _ Hx). unfold read_video, copy_out. rewrite bind_get.
  rewrite decide_True by lia. replace (CONSOLE_MEM_BASE + k - CONSOLE_MEM_BASE) with k by lia.
  by rewrite (drop_S _ _ _ Hx).
Qed.

Lemma s8_byte x : s8 (s8 x mod 256) = s8 x.
Proof. unfold s8. dlia. Qed.

(** A character drawn on the screen is the one read back there, with the
    colour it was drawn in, whatever colour code is given. *)
Theorem draw_char_get_char row col ch color s :
  console_ok s → 0 ≤ row < CONSOLE_HEIGHT → 0 ≤ col < CONSOLE_WIDTH →
  s8 ch ≠ ch_newline → s8 ch ≠ ch_return →
  ∃ s', draw_char row col ch color s = Ok tt s' ∧ get_char row col s' = Ok (s8 ch) s' ∧
    get_color row col s' = Ok (s8 color) s'.
Proof.
  intros Hok Hr Hc Hn Hn'.
  destruct (draw_char_ok row col ch color s) as (v & Hrun & Hm & Hcell); [done..|].
  destruct (cell_lookup _ _ _ _ _ Hcell) as [H1 H2].
  exists (set_vmem v s). split; [done|]. unfold get_char, get_color, off_screen.
  rewrite !bool_decide_false by lia. cbn [orb].
  assert (0 ≤ 2 * (row * CONSOLE_WIDTH + col)) as Hk by (unfold CONSOLE_WIDTH in *; lia).
  pose proof (read_video_byte _ _ (set_vmem v s) Hk H1) as R1.
  assert (0 ≤ 2 * (row * CONSOLE_WIDTH + col) + 1) as Hk' by lia.
  pose proof (read_video_byte _ _ (set_vmem v s) Hk' H2) as R2.
  rewrite Z.add_assoc in R2. rewrite (bind_ok _ _ _ _ _ R1), (bind_ok _ _ _ _ _ R2).
  erewrite !bind_ok by done. rewrite s8_byte. split; [done|].
  unfold mret, M_ret. f_equal. unfold s8. dlia.
Qed.

(** [scroll_screen] moves the screen up and blanks the rows that appear, but
    it fills [offset] cells, not [offset] bytes: as many bytes again after the
    end of the screen are overwritten with the blank cell. *)
Theorem scroll_screen_overruns n s :
  console_ok s → 0 < n < CONSOLE_HEIGHT →
  ∃ s', scroll_screen n s = Ok tt s' ∧
    (∀ r c, 0 ≤ r < CONSOLE_HEIGHT → 0 ≤ c < CONSOLE_WIDTH →
       cell_of (vmem s') r c =
       if decide (r + n < CONSOLE_HEIGHT) then cell_of (vmem s) (r + n) c
       else b ← empty_char s !! 0%nat; a ← empty_char s !! 1%nat; Some (b, a)) ∧
    (∀ k, 2 * CONSOLE_WIDTH * CONSOLE_HEIGHT ≤ k < 2 * CONSOLE_WIDTH * (CONSOLE_HEIGHT + n) →
       vmem s' !! Z.to_nat k = empty_char s !! Z.to_nat (k mod 2)) ∧
    (∀ k, 2 * CONSOLE_WIDTH * (CONSOLE_HEIGHT + n) ≤ k →
       vmem s' !! Z.to_nat k = vmem s !! Z.to_nat k).
Proof.
  intros [Hm _ _] Hn. destruct (scroll_screen_ok n s Hm Hn) as (b & v & Hrun & _ & _ & Hk).
  eexists. split; [done|]. unfold CONSOLE_WIDTH, CONSOLE_HEIGHT in *. split_and!.
  - intros r c Hr Hc. by apply cell_scrolled.
  - intros k Hk0. cbn. rewrite Hk by lia. by rewrite decide_False, decide_True by lia.
  - intros k Hk0. cbn. rewrite Hk by lia. by rewrite !decide_False by lia.
Qed.

(** The hardware position that a sequence of port writes leaves. *)
Definition crtc_position (old : Z) (writes : list (Z * Z)) : Z :=
  (foldl (λ '(idx, pos) '(port, v),
    if decide (port = CRTC_IDX_REG) then (v, pos)
    else if decide (idx = CRTC_CURSOR_LSB_IDX) then (idx, pos - pos mod 256 + v)
    else (idx, pos mod 256 + 256 * v)) (0, old) writes).2.

Lemma crtc_position_eq old a b :
  crtc_position old [(CRTC_IDX_REG, CRTC_CURSOR_LSB_IDX); (CRTC_DATA_REG, a);
    (CRTC_IDX_REG, CRTC_CURSOR_MSB_IDX); (CRTC_DATA_REG, b)] =
  (old - old mod 256 + a) mod 256 + 256 * b.
Proof. reflexivity. Qed.

Lemma set_hardware_cursor_run row col s :
  ∃ w, set_hardware_cursor row col s = Ok tt
      (mk_console (cursor_row s) (cursor_col s) (console_color s) (empty_char s) (cbuf s)
        (vmem s) (ports s ++ w)) ∧
    ∀ old, 0 ≤ old < 65536 → crtc_position old w = (row * 80 + col) mod 65536.
Proof.
  set (position := (row * 80 + col) mod 65536).
  exists [(CRTC_IDX_REG, CRTC_CURSOR_LSB_IDX); (CRTC_DATA_REG, Z.land position 0xFF);
     (CRTC_IDX_REG, CRTC_CURSOR_MSB_IDX); (CRTC_DATA_REG, Z.land (Z.shiftr position 8) 0xFF)].
  split.
  - unfold set_hardware_cursor, outb. rewrite !bind_modify. unfold modify. cbn.
    by rewrite <- !app_assoc.
  - intros old Ho. rewrite crtc_position_eq.
    change 0xFF with (Z.ones 8). rewrite !Z.land_ones, Z.shiftr_div_pow2 by lia.
    change (2 ^ 8) with 256. fold position.
    assert (0 ≤ position < 65536) by (apply Z.mod_pos_bound; lia). dlia.
Qed.

(** [set_cursor] to a position on the screen moves the hardware cursor
    there, also when [hide_cursor] had put it beyond the screen, although the
    documentation says that a hidden cursor stays hidden. *)
Theorem set_cursor_unhides row col s :
  0 ≤ row < CONSOLE_HEIGHT → 0 ≤ col < CONSOLE_WIDTH →
  ∃ s1 s2 w1 w2, hide_cursor s = Ok tt s1 ∧ set_cursor row col s1 = Ok 0 s2 ∧
    ports s1 = ports s ++ w1 ∧ crtc_position 0 w1 = 2161 ∧
    ports s2 = ports s1 ++ w2 ∧ crtc_position 2161 w2 = row * CONSOLE_WIDTH + col ∧
    cursor_row s2 = row ∧ cursor_col s2 = col.
Proof.
  unfold CONSOLE_HEIGHT, CONSOLE_WIDTH. intros Hr Hc.
  destruct (set_hardware_cursor_run (CONSOLE_HEIGHT + 1) (CONSOLE_WIDTH + 1) s) as (w1 & Hrun1 & Hp1).
  set (s1 := mk_console _ _ _ _ _ _ _) in Hrun1.
  destruct (set_hardware_cursor_run row col (set_cur row col s1)) as (w2 & Hrun2 & Hp2).
  eexists s1, _, w1, w2. split_and!; [done| |done|by apply Hp1| | | |].
  - unfold set_cursor, off_screen, CONSOLE_HEIGHT, CONSOLE_WIDTH. rewrite !bool_decide_false by lia.
    cbn [orb]. erewrite bind_ok by (apply set_logical_cursor_ok; lia).
    unfold is_cursor_hidden, CONSOLE_HEIGHT, CONSOLE_WIDTH.
    erewrite bind_ok by (rewrite bind_get; cbn; rewrite decide_False by lia; done).
    rewrite decide_False by done. by rewrite (bind_ok _ _ _ _ _ Hrun2).
  - done.
  - rewrite Hp2 by lia. apply Z.mod_small. lia.
  - done.
  - done.
Qed.

(** Every colour code is accepted: [is_valid_color] answers [ERR_INVAL], which
    the callers do not test for. *)
Lemma set_term_color_accepts_all color s :
  set_term_color color s = Ok 0 (set_color (s8 color) s).
Proof.
  unfold set_term_color. rewrite decide_False; [done|].
  unfold is_valid_color, ERR_INVAL. case_decide; lia.
Qed.

(** [clear_console] blanks the screen and puts the cursor home. *)
Lemma clear_console_ok s t :
  console_ok s → shows s t →
  ∃ s', clear_console s = Ok tt s' ∧ console_ok s' ∧
    shows s' (mk_term 0 0 (t_color t) (t_blank t) (λ _ _, t_blank t)).
Proof.
  intros Hok Hsh. destruct (empty_fill_ok CONSOLE_MEM_BASE (CONSOLE_HEIGHT * CONSOLE_WIDTH) s)
    as (v & Hrun & Hl & Hk); [apply Hok|done..|].
  destruct (set_hardware_cursor_run 0 0 (set_cur 0 0 (set_vmem v s))) as (w & Hw & _).
  unfold clear_console. rewrite (bind_ok _ _ _ _ _ Hrun). unfold set_cursor.
  change (off_screen 0 0) with false. erewrite bind_ok; last first.
  { erewrite bind_ok by (apply set_logical_cursor_ok; lia).
    erewrite bind_ok by done. rewrite decide_False by done.
    rewrite (bind_ok _ _ _ _ _ Hw). done. }
  eexists. split; [done|]. destruct Hok as [[He Hb Hv] ? ?], Hsh as [Er Ec Eco Eb Hg]. split.
  - split; [split|..]; cbn; unfold CONSOLE_HEIGHT, CONSOLE_WIDTH; try done; lia.
  - split; [done..|]. unfold CONSOLE_WIDTH, CONSOLE_HEIGHT. intros r c Hr Hc. cbn.
    assert (∀ k, 0 ≤ k < 4000 → v !! Z.to_nat k = empty_char s !! Z.to_nat (k mod 2)) as E.
    { intros k Hk0. rewrite Hk by lia. unfold in_region. rewrite bool_decide_true.
      - do 2 f_equal. unfold CONSOLE_MEM_BASE. dlia.
      - unfold CONSOLE_MEM_BASE, CONSOLE_HEIGHT, CONSOLE_WIDTH. lia. }
    unfold cell_of, CONSOLE_WIDTH. rewrite !E by lia.
    replace ((2 * (r * 80 + c)) mod 2) with 0 by dlia.
    replace ((2 * (r * 80 + c) + 1) mod 2) with 1 by dlia. rewrite Eb. cbn. by destruct (t_blank t).
Qed.

(** ** Instances *)
Definition demo_console : console :=
  mk_console 0 0 7 [32; 7] (replicate 4000 0) (replicate (Z.to_nat VIDEO_MEM_SIZE) 0) [].

Lemma demo_console_ok : console_ok demo_console.
Proof. split; [split|..]; cbn; try lia; try (by rewrite length_replicate); done. Qed.

Definition demo_term : term := mk_term 0 0 7 (32, 7) (λ _ _, (0, 0)).

Lemma demo_console_shows : shows demo_console demo_term.
Proof.
  split; try done. unfold CONSOLE_HEIGHT, CONSOLE_WIDTH. intros r c Hr Hc.
  unfold cell_of, demo_console, vmem, CONSOLE_WIDTH, VIDEO_MEM_SIZE.
  by rewrite !lookup_replicate_2 by lia.
Qed.

Lemma putbytes_refines_terminal_witness :
  ∃ s', putbytes (Some [104; 105; 10]) 3 demo_console = Ok tt s' ∧ cursor_row s' = 1.
Proof.
  destruct (putbytes_refines_terminal demo_console demo_term [104; 105; 10] 3
    demo_console_ok demo_console_shows) as (s' & Hrun & _ & Hsh & _); [cbn; lia|].
  exists s'. split; [exact Hrun|]. rewrite (sh_row _ _ Hsh). reflexivity.
Defined.

Lemma draw_char_get_char_witness :
  ∃ s', draw_char 24 79 65 0x17 demo_console = Ok tt s' ∧ get_char 24 79 s' = Ok 65 s'.
Proof.
  destruct (draw_char_get_char 24 79 65 0x17 demo_console demo_console_ok) as (s' & H1 & H2 & _);
    [unfold CONSOLE_HEIGHT; lia|unfold CONSOLE_WIDTH; lia|discriminate|discriminate|].
  exists s'. split; [exact H1|exact H2].
Defined.

Lemma scroll_screen_overruns_witness :
  ∃ s', scroll_screen 1 demo_console = Ok tt s' ∧ vmem s' !! Z.to_nat 4100 = Some 32.
Proof.
  destruct (scroll_screen_overruns 1 demo_console demo_console_ok) as (s' & H1 & _ & H2 & _);
    [unfold CONSOLE_HEIGHT; lia|].
  exists s'. split; [exact H1|]. rewrite H2 by (unfold CONSOLE_WIDTH, CONSOLE_HEIGHT; lia).
  reflexivity.
Defined.

Lemma set_cursor_unhides_witness :
  ∃ s1 s2, hide_cursor demo_console = Ok tt s1 ∧ set_cursor 3 4 s1 = Ok 0 s2 ∧ cursor_col s2 = 4.
Proof.
  destruct (set_cursor_unhides 3 4 demo_console) as (s1 & s2 & w1 & w2 & H1 & H2 & _ & _ & _ & _ & _ & H3);
    [unfold CONSOLE_HEIGHT; lia|unfold CONSOLE_WIDTH; lia|].
  exists s1, s2. split; [exact H1|]. split; [exact H2|exact H3].
Defined.
