(* ===== verification/Keyboard.v ===== *)
(** * The keyboard buffer (kern/drivers/keyboard/keyboard_circular_buffer.c)

    The ring of pending keystrokes with its start, end and newline indices, on
    top of the console that echoes them.  The abstract specification is a line
    editor: a queue of characters edited at its end and read a line at a time.
    [keyboard_refines_line_editor] shows that the ring implements it as long as
    no keystroke erases a newline and the ring has not wrapped around; the
    last section shows what happens otherwise. *)

From S2P Require Import Prelude FrameAlloc Paging Console.

Definition KEYBOARD_BUFFER_SIZE : Z := 2000.
Definition NOT_PRESENT : Z := -1.
Definition NEXT (i : Z) : Z := Z.rem (i + 1) KEYBOARD_BUFFER_SIZE.
Definition PREV (i : Z) : Z := if decide (i = 0) then KEYBOARD_BUFFER_SIZE - 1 else i - 1.

Record kbd : Type := mk_kbd {
  key_buf : list Z;
  start_ptr : Z;
  end_ptr : Z;
  newline_ptr : Z;
  screen : console;
}.

Definition set_key_buf v s := mk_kbd v (start_ptr s) (end_ptr s) (newline_ptr s) (screen s).
Definition set_start v s := mk_kbd (key_buf s) v (end_ptr s) (newline_ptr s) (screen s).
Definition set_end v s := mk_kbd (key_buf s) (start_ptr s) v (newline_ptr s) (screen s).
Definition set_newline v s := mk_kbd (key_buf s) (start_ptr s) (end_ptr s) v (screen s).
Definition set_screen v s := mk_kbd (key_buf s) (start_ptr s) (end_ptr s) (newline_ptr s) v.

Definition key_at (i : Z) : M kbd Z := s ← get; aget (key_buf s) i.

(** ** The operations *)
Definition add_keystroke (c : Z) : M kbd unit :=
  s ← get;
  if decide (NEXT (end_ptr s) = start_ptr s) then mret tt
  else
    b ← aset (key_buf s) (end_ptr s) c;
    modify (set_key_buf b) ;;
    (if decide (c = ch_newline ∧ newline_ptr s = -1) then modify (set_newline (end_ptr s))
     else mret tt) ;;
    if decide (c = ch_backspace) then
      s ← get;
      if decide (end_ptr s ≠ start_ptr s) then
        modify (set_end (PREV (end_ptr s))) ;;
        zoom screen set_screen (putbyte c) ;;
        mret tt
      else mret tt
    else
      zoom screen set_screen (putbyte c) ;;
      s ← get;
      modify (set_end (NEXT (end_ptr s))).

(** [while (start_ptr != newline_ptr)]. *)
Fixpoint seek_newline (fuel : nat) : M kbd unit :=
  match fuel with
  | O => halt OutOfFuel
  | S fuel' =>
      s ← get;
      if decide (start_ptr s ≠ newline_ptr s) then
        modify (set_start (NEXT (start_ptr s))) ;;
        seek_newline fuel'
      else mret tt
  end.

Definition ring_fuel : nat := Z.to_nat (KEYBOARD_BUFFER_SIZE + 1).

Definition update_start_ptr : M kbd unit :=
  seek_newline ring_fuel ;;
  s ← get;
  modify (set_start (NEXT (start_ptr s))).

(** [while (key_buf[newline_ptr] != '\n')]. *)
Fixpoint scan_newline (fuel : nat) : M kbd unit :=
  match fuel with
  | O => halt OutOfFuel
  | S fuel' =>
      s ← get;
      k ← key_at (newline_ptr s);
      if decide (k ≠ ch_newline) then
        if decide (newline_ptr s = end_ptr s) then modify (set_newline NOT_PRESENT)
        else
          modify (set_newline (NEXT (newline_ptr s))) ;;
          scan_newline fuel'
      else mret tt
  end.

Definition update_newline_ptr : M kbd unit :=
  s ← get;
  modify (set_newline (NEXT (newline_ptr s))) ;;
  scan_newline ring_fuel.

(** The copy loop: what is stored from [buf[i]] on. *)
Fixpoint copy_line (n : nat) : M kbd (list Z) :=
  match n with
  | O => mret []
  | S n' =>
      s ← get;
      if decide (start_ptr s = newline_ptr s) then mret []
      else
        k ← key_at (start_ptr s);
        modify (set_start (NEXT (start_ptr s))) ;;
        rest ← copy_line n';
        mret (s8 k :: rest)
  end.

(** The result and the characters stored in [buf]. *)
Definition get_nextline (buf len : Z) : M kbd (Z * list Z) :=
  if decide (buf = NULL ∨ KEYBOARD_BUFFER_SIZE ≤ len) then mret (ERR_INVAL, [])
  else
    s ← get;
    if decide (newline_ptr s = -1) then mret (ERR_NOTAVAIL, [])
    else
      line ← copy_line (Z.to_nat len);
      update_start_ptr ;;
      update_newline_ptr ;;
      mret (Z.of_nat (length line), line).

Definition get_nextchar : M kbd Z :=
  s ← get;
  if decide (newline_ptr s = -1) then mret ERR_NOTAVAIL
  else
    c ← key_at (start_ptr s);
    modify (set_start (start_ptr s + 1)) ;;
    mret c.

(** ** The line editor *)

(** The characters before and after the first newline. *)
Fixpoint split_line (q : list Z) : option (list Z * list Z) :=
  match q with
  | [] => None
  | c :: q' =>
      if decide (c = ch_newline) then Some ([], q')
      else match split_line q' with
           | Some (line, rest) => Some (c :: line, rest)
           | None => None
           end
  end.

Definition editor : Type := list Z * term.

Definition ed_key (c : Z) (e : editor) : editor :=
  let '(q, t) := e in
  if decide (Z.of_nat (length q) = KEYBOARD_BUFFER_SIZE - 1) then e
  else if decide (c = ch_backspace) then
    match q with [] => e | _ => (removelast q, t_put t c) end
  else (q ++ [c], t_put t c).

Definition ed_line (len : Z) (e : editor) : (Z * list Z) * editor :=
  let '(q, t) := e in
  if decide (KEYBOARD_BUFFER_SIZE ≤ len) then ((ERR_INVAL, []), e)
  else match split_line q with
       | None => ((ERR_NOTAVAIL, []), e)
       | Some (line, rest) =>
           let out := s8 <$> take (Z.to_nat len) line in
           ((Z.of_nat (length out), out), (rest, t))
       end.

(** ** The ring represents a queue *)
Record ring (s : kbd) (q : list Z) : Prop := {
  rg_len : length (key_buf s) = 2000%nat;
  rg_start : 0 ≤ start_ptr s < 2000;
  rg_end : end_ptr s = (start_ptr s + Z.of_nat (length q)) mod 2000;
  rg_room : Z.of_nat (length q) < 2000;
  rg_key i c : q !! i = Some c →
    key_buf s !! Z.to_nat ((start_ptr s + Z.of_nat i) mod 2000) = Some c;
}.

(** [newline_ptr] is the position of the first newline. *)
Definition newline_ok (s : kbd) (q : list Z) : Prop :=
  newline_ptr s =
  match split_line q with
  | Some (line, _) => (start_ptr s + Z.of_nat (length line)) mod 2000
  | None => -1
  end.

Lemma NEXT_mod i : 0 ≤ i → NEXT i = (i + 1) mod 2000.
Proof. intros. unfold NEXT, KEYBOARD_BUFFER_SIZE. apply Z.rem_mod_nonneg; lia. Qed.

Lemma PREV_mod i : 0 ≤ i < 2000 → PREV i = (i - 1) mod 2000.
Proof. intros. unfold PREV, KEYBOARD_BUFFER_SIZE. case_decide; dlia. Qed.

Lemma split_line_snoc q c :
  split_line (q ++ [c]) =
  match split_line q with
  | Some (line, rest) => Some (line, rest ++ [c])
  | None => if decide (c = ch_newline) then Some (q, []) else None
  end.
Proof.
  induction q as [|x q IH]; cbn; [done|]. destruct (decide (x = ch_newline)); [done|]. rewrite IH.
  destruct (split_line q) as [[]|]; [done|]. by case_decide.
Qed.

Lemma split_line_Some q line rest : split_line q = Some (line, rest) →
  q = line ++ ch_newline :: rest ∧ ch_newline ∉ line.
Proof.
  revert line rest. induction q as [|x q IH]; cbn; [done|]. intros line rest.
  case_decide as Hx.
  - intros [= <- <-]. subst x. split; [done|]. apply not_elem_of_nil.
  - destruct (split_line q) as [[l r]|]; [|done]. intros [= <- <-].
    destruct (IH l r eq_refl) as [-> Hn]. split; [done|]. by rewrite not_elem_of_cons.
Qed.

Lemma split_line_None q : split_line q = None → ch_newline ∉ q.
Proof.
  induction q as [|x q IH]; cbn; [intros _; apply not_elem_of_nil|].
  case_decide; [done|]. destruct (split_line q) as [[]|]; [done|].
  rewrite not_elem_of_cons. auto.
Qed.

Lemma ring_slot_inj a i j :
  0 ≤ i < 2000 → 0 ≤ j < 2000 → (a + i) mod 2000 = (a + j) mod 2000 → i = j.
Proof. intros. dlia. Qed.

(** Writing the slot after the last keystroke does not touch the queue. *)
Lemma ring_write_end s q c :
  ring s q → ring (set_key_buf (<[Z.to_nat (end_ptr s) := c]> (key_buf s)) s) q.
Proof.
  intros [Hl Hs He Hr Hk]. split; cbn; try done; [by rewrite length_insert|].
  intros i x Hi. pose proof (lookup_lt_Some _ _ _ Hi).
  rewrite lookup_insert_Z; [|rewrite He, Hl; dlia|dlia]. rewrite decide_False; [by apply Hk|].
  rewrite He. intros E. apply ring_slot_inj in E; lia.
Qed.

Lemma ring_push s q c :
  ring s q → Z.of_nat (length q) < 1999 →
  ring (set_end (NEXT (end_ptr s)) (set_key_buf (<[Z.to_nat (end_ptr s) := c]> (key_buf s)) s))
    (q ++ [c]).
Proof.
  intros Hr Hlen. pose proof (ring_write_end s q c Hr) as [Hl _ _ _ Hk]. cbn in *.
  destruct Hr as [Hl0 Hs He Hroom _]. split; cbn; [done|done| | |].
  - rewrite length_app, NEXT_mod by (rewrite He; dlia). rewrite He. cbn. dlia.
  - rewrite length_app. cbn. lia.
  - intros i x Hi. destruct (decide (i < length q)%nat).
    + apply Hk. by rewrite lookup_app_l in Hi.
    + apply lookup_app_Some in Hi as [Hi|[_ Hi]]; [by apply lookup_lt_Some in Hi|].
      destruct (i - length q)%nat as [|] eqn:E; [|done]. cbn in Hi. injection Hi as <-.
      replace i with (length q) by lia. rewrite <- He. apply list_lookup_insert_eq.
      rewrite He, Hl0. dlia.
Qed.

Lemma ring_pop_last s q c :
  ring s (q ++ [c]) → ring (set_end (PREV (end_ptr s)) s) q.
Proof.
  intros [Hl Hs He Hroom Hk]. rewrite length_app in *. cbn in Hroom, He. split; cbn; [done|done| | |].
  - rewrite PREV_mod by (rewrite He; dlia). rewrite He. dlia.
  - lia.
  - intros i x Hi. apply Hk. by apply lookup_app_l_Some.
Qed.

Lemma ring_tail s c q :
  ring s (c :: q) → ring (set_start (NEXT (start_ptr s)) s) q.
Proof.
  intros [Hl Hs He Hroom Hk]. cbn in Hroom, He. split; cbn; [done| | | |].
  - rewrite NEXT_mod by lia. dlia.
  - rewrite NEXT_mod, He by lia. dlia.
  - lia.
  - intros i x Hi. rewrite NEXT_mod by lia. rewrite Zplus_mod_idemp_l.
    replace (start_ptr s + 1 + Z.of_nat i) with (start_ptr s + Z.of_nat (S i)) by lia.
    by apply Hk.
Qed.

(** ** [add_keystroke] *)
Lemma ring_newline_ne s q : ring s q → newline_ok s q → newline_ptr s = -1 ↔ split_line q = None.
Proof.
  intros Hr Hn. unfold newline_ok in Hn. destruct (split_line q) as [[line rest]|] eqn:E.
  - split; [|done]. intros E'. rewrite E' in Hn. dlia.
  - done.
Qed.

Lemma ring_newline_at s q line rest :
  ring s q → newline_ok s q → split_line q = Some (line, rest) →
  newline_ptr s = (start_ptr s + Z.of_nat (length line)) mod 2000 ∧
  Z.of_nat (length line) + 1 + Z.of_nat (length rest) = Z.of_nat (length q).
Proof.
  intros Hr Hn E. unfold newline_ok in Hn. rewrite E in Hn. split; [done|].
  apply split_line_Some in E as [-> _]. rewrite length_app. cbn. lia.
Qed.

(** One keystroke on a ring that represents [q] under a console that shows [t]. *)
Record represents (s : kbd) (e : editor) : Prop := {
  rp_ring : ring s e.1;
  rp_newline : newline_ok s e.1;
  rp_console : console_ok (screen s);
  rp_shows : shows (screen s) e.2;
}.

Lemma ring_ext s s' q :
  key_buf s' = key_buf s → start_ptr s' = start_ptr s → end_ptr s' = end_ptr s →
  ring s q → ring s' q.
Proof. intros E1 E2 E3 [Hl Hs He Hroom Hk]. split; rewrite ?E1, ?E2, ?E3; try done. Qed.

Lemma ring_full s q : ring s q → NEXT (end_ptr s) = start_ptr s ↔ Z.of_nat (length q) = 1999.
Proof. intros [Hl Hs He Hroom Hk]. rewrite NEXT_mod, He by (rewrite He; dlia). dlia. Qed.

Lemma echo_ok s t c : console_ok (screen s) → shows (screen s) t →
  ∃ k, zoom screen set_screen (putbyte c) s = Ok c (set_screen k s) ∧
    console_ok k ∧ shows k (t_put t c).
Proof.
  intros Hc Ht. destruct (putbyte_ok c _ _ Hc Ht) as (k & Hrun & Hok & Hsh & _).
  exists k. split; [by apply zoom_ok|done].
Qed.

Lemma add_printable s q t c :
  represents s (q, t) → Z.of_nat (length q) < 1999 → c ≠ ch_backspace →
  ∃ s', add_keystroke c s = Ok tt s' ∧ represents s' (q ++ [c], t_put t c) ∧
    start_ptr s' = start_ptr s ∧ key_buf s' = <[Z.to_nat (end_ptr s) := c]> (key_buf s).
Proof.
  intros [Hr Hn Hc Ht] Hlen Hb. cbn in *. unfold add_keystroke. rewrite bind_get.
  rewrite decide_False by (rewrite ring_full by done; lia).
  pose proof (rg_end _ _ Hr) as He. pose proof (rg_len _ _ Hr) as Hl.
  erewrite bind_ok by (apply aset_ok; rewrite He, Hl; dlia). rewrite bind_modify.
  set (b := <[_ := c]> _). set (s1 := set_key_buf b s).
  set (nl := if decide (c = ch_newline ∧ newline_ptr s = -1) then end_ptr s else newline_ptr s).
  assert ((if decide (c = ch_newline ∧ newline_ptr s = -1) then modify (set_newline (end_ptr s))
     else mret tt) s1 = Ok tt (set_newline nl s1)) as Hnl
    by (unfold nl; case_decide; [done|by destruct s]).
  rewrite (bind_ok _ _ _ _ _ Hnl).
  rewrite decide_False by done.
  destruct (echo_ok (set_newline nl s1) t c Hc Ht) as (k & Hecho & Hck & Hsk).
  rewrite (bind_ok _ _ _ _ _ Hecho), bind_get. eexists. split; [done|].
  split; [|done]. split; cbn; [| |done|done].
  - eapply ring_ext; [..|by apply (ring_push s q c)]; done.
  - unfold newline_ok. rewrite split_line_snoc. cbn. unfold nl.
    pose proof (ring_newline_ne s q Hr Hn) as Hne. unfold newline_ok in Hn.
    destruct (split_line q) as [[line rest]|].
    + rewrite decide_False; [done|]. intros [_ E]. by apply Hne in E.
    + destruct (decide (c = ch_newline)).
      * rewrite decide_True by tauto. done.
      * rewrite decide_False by tauto. done.
Qed.

Lemma newline_ok_pop s q c :
  ring s (q ++ [c]) → newline_ok s (q ++ [c]) → c ≠ ch_newline → newline_ok s q.
Proof.
  intros Hr Hn Hc. unfold newline_ok in *. rewrite split_line_snoc in Hn.
  destruct (split_line q) as [[line rest]|]; [done|]. by rewrite decide_False in Hn.
Qed.

Lemma add_backspace s q t :
  represents s (q, t) → Z.of_nat (length q) < 1999 → last q ≠ Some ch_newline →
  ∃ s', add_keystroke ch_backspace s = Ok tt s' ∧ represents s' (ed_key ch_backspace (q, t)) ∧
    start_ptr s' = start_ptr s ∧
    key_buf s' = <[Z.to_nat (end_ptr s) := ch_backspace]> (key_buf s).
Proof.
  intros [Hr Hn Hc Ht] Hlen Hlast. cbn in *. unfold add_keystroke. rewrite bind_get.
  rewrite decide_False by (rewrite ring_full by done; lia).
  pose proof (rg_end _ _ Hr) as He. pose proof (rg_len _ _ Hr) as Hl. pose proof (rg_start _ _ Hr) as Hs.
  erewrite bind_ok by (apply aset_ok; rewrite He, Hl; dlia). rewrite bind_modify.
  set (b := <[_ := ch_backspace]> _). rewrite (decide_False (P := ch_backspace = ch_newline ∧ _)) by (by intros [? _]).
  rewrite bind_mret.
  rewrite decide_True, bind_get by done. set (s1 := set_key_buf b s).
  rewrite (decide_False (P := _ = KEYBOARD_BUFFER_SIZE - 1)) by (unfold KEYBOARD_BUFFER_SIZE; lia).
  rewrite (decide_True (P := ch_backspace = _)) by done.
  assert (ring s1 q) as Hr1 by by apply ring_write_end.
  destruct (decide (q = [])) as [->|Hq].
  - rewrite decide_False; [|cbn; rewrite He; cbn; intros E; apply E; dlia].
    exists s1. done.
  - destruct (exists_last Hq) as (q' & c & ->). assert (c ≠ ch_newline) as Hcn.
    { intros ->. apply Hlast. apply last_snoc. }
    rewrite length_app in Hlen, He. cbn in Hlen, He.
    rewrite decide_True by (cbn; rewrite He; dlia). rewrite bind_modify.
    destruct (echo_ok (set_end (PREV (end_ptr s1)) s1) t ch_backspace Hc Ht) as (k & Hecho & Hck & Hsk).
    rewrite (bind_ok _ _ _ _ _ Hecho). eexists. split; [done|]. split; [|done].
    destruct (q' ++ [c]) as [|x l] eqn:E; [by destruct q'|]. rewrite <- E in *. clear x l E.
    rewrite removelast_last. split; cbn; [| |done|done].
    + eapply ring_ext; [..|by apply (ring_pop_last s1 q' c)]; done.
    + by apply (newline_ok_pop s q' c).
Qed.

Lemma add_keystroke_ok s q t c :
  represents s (q, t) → (c = ch_backspace → last q ≠ Some ch_newline) →
  ∃ s', add_keystroke c s = Ok tt s' ∧ represents s' (ed_key c (q, t)) ∧
    start_ptr s' = start_ptr s ∧
    (key_buf s' = key_buf s ∨ key_buf s' = <[Z.to_nat (end_ptr s) := c]> (key_buf s)).
Proof.
  intros Hrep Hb. destruct (decide (Z.of_nat (length q) = 1999)) as [Hf|Hf].
  - exists s. unfold add_keystroke. rewrite bind_get.
    rewrite decide_True by (apply (ring_full s q); [apply Hrep|done]).
    split; [done|]. split; [|by split; [|left]]. unfold ed_key, KEYBOARD_BUFFER_SIZE.
    by rewrite decide_True.
  - pose proof (rg_room _ _ (rp_ring _ _ Hrep)) as Hroom. cbn in Hroom.
    destruct (decide (c = ch_backspace)) as [->|Hc].
    + destruct (add_backspace s q t) as (s' & Hrun & Hrep' & Hs & Hk); [done|lia|by apply Hb|].
      exists s'. split_and!; try done. by right.
    + destruct (add_printable s q t c) as (s' & Hrun & Hrep' & Hs & Hk); [done|lia|done|].
      exists s'. split_and!; try done; [|by right].
      unfold ed_key, KEYBOARD_BUFFER_SIZE. by rewrite !decide_False by (done || lia).
Qed.

(** ** [get_nextline] *)
Lemma key_at_ok i x s : 0 ≤ i → key_buf s !! Z.to_nat i = Some x → key_at i s = Ok x s.
Proof. intros. unfold key_at. rewrite bind_get. by apply aget_ok. Qed.

Lemma set_start_id s : set_start (start_ptr s) s = s.
Proof. by destruct s. Qed.

Lemma copy_line_ok n s line rest :
  ring s (line ++ ch_newline :: rest) → ch_newline ∉ line →
  newline_ptr s = (start_ptr s + Z.of_nat (length line)) mod 2000 →
  copy_line n s = Ok (s8 <$> take n line)
    (set_start ((start_ptr s + Z.of_nat (length (take n line))) mod 2000) s).
Proof.
  revert s line. induction n as [|n IH]; intros s line Hr Hl Hnl; cbn [copy_line].
  - cbn. rewrite Z.add_0_r, Z.mod_small by apply Hr. by rewrite set_start_id.
  - rewrite bind_get. pose proof (rg_start _ _ Hr) as Hs. pose proof (rg_room _ _ Hr) as Hroom.
    destruct line as [|c line]; cbn in Hnl.
    + rewrite decide_True by (rewrite Hnl; dlia). cbn.
      rewrite Z.add_0_r, Z.mod_small by done. by rewrite set_start_id.
    + rewrite length_app in Hroom. cbn in Hroom.
      rewrite decide_False by (rewrite Hnl; dlia).
      pose proof (rg_key _ _ Hr 0 c eq_refl) as Hk. cbn in Hk. rewrite Z.add_0_r, Z.mod_small in Hk by done.
      rewrite (bind_ok _ _ _ _ _ (key_at_ok _ _ s (proj1 Hs) Hk)), bind_modify.
      rewrite not_elem_of_cons in Hl.
      erewrite bind_ok; last first.
      { apply (IH _ line); [by apply (ring_tail _ c)|apply Hl|]. cbn.
        rewrite Hnl, NEXT_mod by lia. dlia. }
      cbn. unfold mret, M_ret. f_equal. rewrite NEXT_mod by lia. unfold set_start. cbn. f_equal. dlia.
Qed.

Lemma ring_drop s q n :
  ring s q → (n ≤ length q)%nat →
  ring (set_start ((start_ptr s + Z.of_nat n) mod 2000) s) (drop n q).
Proof.
  intros [Hl Hs He Hroom Hk] Hn. pose proof (length_drop q n) as Hd.
  split; cbn; rewrite ?Hd; [done|dlia|rewrite He; dlia|lia|].
  intros i x Hi. rewrite lookup_drop in Hi. rewrite Zplus_mod_idemp_l.
  replace (start_ptr s + Z.of_nat n + Z.of_nat i) with (start_ptr s + Z.of_nat (n + i)) by lia.
  by apply Hk.
Qed.

Lemma seek_newline_ok fuel s :
  0 ≤ start_ptr s < 2000 → 0 ≤ newline_ptr s < 2000 →
  (newline_ptr s - start_ptr s) mod 2000 < Z.of_nat fuel →
  seek_newline fuel s = Ok tt (set_start (newline_ptr s) s).
Proof.
  revert s. induction fuel as [|fuel IH]; intros s Hs Hn Hf; [dlia|]. cbn [seek_newline].
  rewrite bind_get. case_decide as Hd.
  - rewrite bind_modify. rewrite IH; [done| | |]; cbn; rewrite ?NEXT_mod by lia; [dlia|done|dlia].
  - assert (start_ptr s = newline_ptr s) as <- by (destruct (decide (start_ptr s = newline_ptr s)); tauto).
    by rewrite set_start_id.
Qed.

Lemma set_newline_twice a b s : set_newline a (set_newline b s) = set_newline a s.
Proof. done. Qed.

(** The scan for the next newline, from the [j]-th pending character on.  Without
    one it ends at [end_ptr], where it stops at an old newline if the slot after
    the last keystroke holds one. *)
Definition scanned (s : kbd) (q : list Z) (j : nat) : Z :=
  match split_line (drop j q) with
  | Some (line, _) => (start_ptr s + Z.of_nat j + Z.of_nat (length line)) mod 2000
  | None => if decide (key_buf s !! Z.to_nat (end_ptr s) = Some ch_newline) then end_ptr s else -1
  end.

Lemma scan_newline_ok fuel s q j :
  ring s q → newline_ptr s = (start_ptr s + Z.of_nat j) mod 2000 → (j ≤ length q)%nat →
  (length q - j < fuel)%nat →
  scan_newline fuel s = Ok tt (set_newline (scanned s q j) s).
Proof.
  revert s j. induction fuel as [|fuel IH]; intros s j Hr Hn Hj Hf; [lia|].
  cbn [scan_newline]. rewrite bind_get. unfold scanned.
  pose proof (rg_start _ _ Hr) as Hs. pose proof (rg_room _ _ Hr) as Hroom.
  pose proof (rg_end _ _ Hr) as He. pose proof (rg_len _ _ Hr) as Hlen.
  destruct (decide (j = length q)) as [->|Hne].
  - assert (newline_ptr s = end_ptr s) as Ene by by rewrite Hn, He.
    destruct (lookup_Z (key_buf s) (end_ptr s)) as [x Hx]; [rewrite He, Hlen; dlia|].
    rewrite Ene, drop_all. erewrite bind_ok by (apply key_at_ok; [rewrite He; dlia|exact Hx]).
    rewrite Hx. cbn [split_line]. destruct (decide (x = ch_newline)) as [->|Hxn].
    + rewrite decide_False, decide_True by naive_solver. rewrite <- Ene. by destruct s.
    + rewrite decide_True, decide_True, decide_False by naive_solver. done.
  - destruct (lookup_lt_is_Some_2 q j) as [x Hx]; [lia|].
    pose proof (rg_key _ _ Hr j x Hx) as Hk. rewrite <- Hn in Hk.
    erewrite bind_ok by (apply key_at_ok; [rewrite Hn; dlia|exact Hk]).
    rewrite (drop_S _ _ _ Hx). cbn [split_line]. destruct (decide (x = ch_newline)) as [->|Hxn].
    + rewrite decide_False by tauto. rewrite Z.add_0_r, <- Hn. by destruct s.
    + rewrite decide_True by done. rewrite decide_False by (rewrite Hn, He; dlia).
      rewrite bind_modify. rewrite (IH _ (S j)); cbn; try lia; [|by eapply ring_ext; [..|exact Hr]|].
      * rewrite set_newline_twice. unfold scanned. cbn [key_buf end_ptr start_ptr set_newline].
        destruct (split_line (drop (S j) q)) as [[line rest]|]; [|done].
        cbn. do 3 f_equal. lia.
      * rewrite NEXT_mod, Hn by (rewrite Hn; dlia). dlia.
Qed.

(** The queue after a read whose scan found an old newline at [end_ptr]: the
    buffer holds no complete line but [newline_ptr] says that it does. *)
Record false_line (s : kbd) (e : editor) : Prop := {
  fa_ring : ring s e.1;
  fa_none : split_line e.1 = None;
  fa_newline : newline_ptr s = end_ptr s;
  fa_old : key_buf s !! Z.to_nat (end_ptr s) = Some ch_newline;
  fa_console : console_ok (screen s);
  fa_shows : shows (screen s) e.2;
}.

(** A read always returns the line editor's line; the buffer represents what is
    left, unless an old newline was found. *)
Lemma get_nextline_run s q t buf len :
  represents s (q, t) → buf ≠ NULL →
  ∃ s', get_nextline buf len s = Ok (ed_line len (q, t)).1 s' ∧
    key_buf s' = key_buf s ∧ end_ptr s' = end_ptr s ∧
    (∃ n, (n ≤ length q)%nat ∧ start_ptr s' = (start_ptr s + Z.of_nat n) mod 2000) ∧
    (represents s' (ed_line len (q, t)).2 ∨
     split_line q ≠ None ∧ false_line s' (ed_line len (q, t)).2).
Proof.
  intros Hrep Hbuf. pose proof Hrep as [Hr Hn Hc Ht]. cbn in Hr, Hn.
  pose proof (rg_start _ _ Hr) as Hs.
  assert (∃ n, (n ≤ length q)%nat ∧ start_ptr s = (start_ptr s + Z.of_nat n) mod 2000) as Hsame.
  { exists 0%nat. split; [lia|]. rewrite Z.add_0_r, Z.mod_small; lia. }
  unfold get_nextline, ed_line. destruct (decide (KEYBOARD_BUFFER_SIZE ≤ len)).
  { rewrite decide_True by tauto. exists s. split_and!; [done..|by left]. }
  rewrite decide_False by tauto. rewrite bind_get.
  pose proof (ring_newline_ne s q Hr Hn) as Hne.
  destruct (split_line q) as [[line rest]|] eqn:Eq; last first.
  { rewrite decide_True by tauto. exists s. split_and!; [done..|by left]. }
  rewrite decide_False by (intros E; apply Hne in E; discriminate).
  destruct (ring_newline_at s q line rest Hr Hn Eq) as [Hnl Hlen].
  pose proof (rg_room _ _ Hr) as Hroom.
  destruct (split_line_Some _ _ _ Eq) as [Eq' Hnin].
  set (m := Z.to_nat len). assert (length (take m line) ≤ length line)%nat as Htk by (rewrite length_take; lia).
  erewrite bind_ok by (apply (copy_line_ok m s line rest); [rewrite <- Eq'; exact Hr|done|done]).
  set (s1 := set_start _ s). unfold update_start_ptr.
  erewrite (bind_ok (seek_newline ring_fuel ;; _)); last first.
  { erewrite bind_ok.
    2:{ apply seek_newline_ok; cbn; [dlia|rewrite Hnl; dlia|].
        unfold ring_fuel, KEYBOARD_BUFFER_SIZE. rewrite Z2Nat.id by lia. dlia. }
    rewrite bind_get. done. }
  cbn [start_ptr set_start newline_ptr s1]. set (s2 := set_start _ (set_start _ s1)).
  assert (start_ptr s2 = (start_ptr s + Z.of_nat (S (length line))) mod 2000) as Es2.
  { cbn. rewrite NEXT_mod, Hnl by (rewrite Hnl; dlia). dlia. }
  assert (ring s2 rest) as Hr2.
  { pose proof (ring_drop s q (S (length line)) Hr ltac:(lia)) as Hd.
    assert (drop (S (length line)) q = rest) as Edr.
    { rewrite Eq'. replace (S (length line)) with (length line + 1)%nat by lia. by rewrite drop_app_add. }
    rewrite Edr, <- Es2 in Hd. eapply ring_ext; [..|exact Hd]; done. }
  unfold update_newline_ptr. erewrite (bind_ok (s ← get; _)); last first.
  { rewrite bind_get, bind_modify. apply (scan_newline_ok _ _ rest 0).
    - eapply ring_ext; [..|exact Hr2]; done.
    - cbn [newline_ptr set_newline start_ptr]. rewrite Es2.
      cbn. rewrite NEXT_mod, Hnl by (rewrite Hnl; dlia). dlia.
    - lia.
    - unfold ring_fuel, KEYBOARD_BUFFER_SIZE. lia. }
  eexists. split.
  { done. }
  cbn [fst snd]. split_and!; [done..|exists (S (length line)); split; [lia|done]|].
  unfold scanned. rewrite drop_0. cbn [key_buf end_ptr start_ptr set_newline].
  assert (∀ v, ring (set_newline v (set_newline (NEXT (newline_ptr s2)) s2)) rest) as Hr3
    by (intros v; eapply ring_ext; [..|exact Hr2]; done).
  destruct (split_line rest) as [[l r]|] eqn:Er; [left|case_decide as Eold; [right|left]].
  - split; cbn [fst snd]; [apply Hr3| |done|done]. unfold newline_ok. rewrite Er.
    cbn [newline_ptr set_newline start_ptr Z.of_nat]. by rewrite Z.add_0_r.
  - split; [done|]. split; cbn [fst snd]; try done.
  - split; cbn [fst snd]; [apply Hr3| |done|done]. unfold newline_ok. by rewrite Er.
Qed.

Lemma get_nextline_ok s q t buf len :
  represents s (q, t) → buf ≠ NULL →
  (split_line q ≠ None → key_buf s !! Z.to_nat (end_ptr s) ≠ Some ch_newline) →
  ∃ s', get_nextline buf len s =
      Ok (ed_line len (q, t)).1 s' ∧
    represents s' (ed_line len (q, t)).2 ∧ key_buf s' = key_buf s ∧ end_ptr s' = end_ptr s ∧
    (∃ n, (n ≤ length q)%nat ∧ start_ptr s' = (start_ptr s + Z.of_nat n) mod 2000).
Proof.
  intros Hrep Hbuf Hend. destruct (get_nextline_run s q t buf len Hrep Hbuf) as (s' & Hrun & Hk & He & Hn & Hor).
  exists s'. split_and!; try done. destruct Hor as [?|[Hq Hf]]; [done|].
  destruct (Hend Hq). rewrite <- Hk, <- He. apply Hf.
Qed.

Lemma copy_line_total n s :
  length (key_buf s) = 2000%nat → 0 ≤ start_ptr s < 2000 →
  ∃ line st, copy_line n s = Ok line (set_start st s) ∧ 0 ≤ st < 2000.
Proof.
  revert s. induction n as [|n IH]; intros s Hl Hs; cbn [copy_line].
  { exists [], (start_ptr s). by rewrite set_start_id. }
  rewrite bind_get. case_decide.
  { exists [], (start_ptr s). by rewrite set_start_id. }
  destruct (lookup_Z (key_buf s) (start_ptr s)) as [x Hx]; [lia|].
  erewrite bind_ok by (apply key_at_ok; [lia|exact Hx]). rewrite bind_modify.
  destruct (IH (set_start (NEXT (start_ptr s)) s)) as (line & st & Hrun & Hst);
    [done|cbn; rewrite NEXT_mod by lia; dlia|].
  exists (s8 x :: line), st. by rewrite (bind_ok _ _ _ _ _ Hrun).
Qed.

Lemma update_start_ptr_ok s :
  0 ≤ start_ptr s < 2000 → 0 ≤ newline_ptr s < 2000 →
  update_start_ptr s = Ok tt (set_start (NEXT (newline_ptr s)) s).
Proof.
  intros Hs Hn. unfold update_start_ptr.
  rewrite (bind_ok _ _ _ _ _ (seek_newline_ok ring_fuel s Hs Hn
    ltac:(unfold ring_fuel, KEYBOARD_BUFFER_SIZE; dlia))). by rewrite bind_get.
Qed.

(** With an old newline at [end_ptr] the scan ends within one lap. *)
Lemma scan_newline_total fuel s :
  length (key_buf s) = 2000%nat → 0 ≤ newline_ptr s < 2000 → 0 ≤ end_ptr s < 2000 →
  key_buf s !! Z.to_nat (end_ptr s) = Some ch_newline →
  (end_ptr s - newline_ptr s) mod 2000 < Z.of_nat fuel →
  ∃ v, scan_newline fuel s = Ok tt (set_newline v s) ∧ 0 ≤ v < 2000.
Proof.
  revert s. induction fuel as [|fuel IH]; intros s Hl Hn He Hk Hf; [dlia|].
  cbn [scan_newline]. rewrite bind_get.
  destruct (lookup_Z (key_buf s) (newline_ptr s)) as [x Hx]; [lia|].
  erewrite bind_ok by (apply key_at_ok; [lia|exact Hx]).
  destruct (decide (x = ch_newline)) as [->|Hxn].
  { exists (newline_ptr s). split; [|done]. rewrite decide_False by (by intros []). by destruct s. }
  assert (newline_ptr s ≠ end_ptr s) as Hne by (intros E; rewrite E in Hx; congruence).
  rewrite decide_True by done. rewrite decide_False, bind_modify by done.
  destruct (IH (set_newline (NEXT (newline_ptr s)) s)) as (v & Hrun & Hv);
    cbn; rewrite ?NEXT_mod by lia; try done; [dlia..|].
  exists v. rewrite NEXT_mod in Hrun by lia. split; [exact Hrun|done].
Qed.

(** What follows a false line: the next read, of any length that is allowed,
    answers at once with what was typed so far, although no newline was. *)
Lemma false_line_read s q t buf len :
  false_line s (q, t) → buf ≠ NULL → 0 ≤ len < KEYBOARD_BUFFER_SIZE →
  ∃ r out s', get_nextline buf len s = Ok (r, out) s' ∧ r ≠ ERR_NOTAVAIL.
Proof.
  intros [Hr Hq Hnl Hold Hc Ht] Hbuf Hlen. pose proof (rg_start _ _ Hr) as Hs. pose proof (rg_len _ _ Hr) as Hl.
  pose proof (rg_end _ _ Hr) as He. assert (0 ≤ end_ptr s < 2000) as Her by (rewrite He; dlia).
  unfold get_nextline. rewrite decide_False by lia. rewrite bind_get, decide_False by lia.
  destruct (copy_line_total (Z.to_nat len) s Hl Hs) as (line & st & Hrun & Hst).
  rewrite (bind_ok _ _ _ _ _ Hrun).
  erewrite bind_ok by (apply update_start_ptr_ok; cbn; lia). unfold update_newline_ptr.
  rewrite bind_assoc, bind_get, bind_assoc, bind_modify. cbn [newline_ptr set_start].
  set (s1 := set_newline _ (set_start _ _)).
  assert (∃ v, scan_newline ring_fuel s1 = Ok tt (set_newline v s1)) as [v Hsc].
  { destruct (scan_newline_total ring_fuel s1) as (v & Hsc & _); [..|by exists v]; subst s1; cbn;
      rewrite ?NEXT_mod by lia; try done; [dlia|unfold ring_fuel, KEYBOARD_BUFFER_SIZE; dlia]. }
  rewrite (bind_ok _ _ _ _ _ Hsc). eexists (Z.of_nat (length line)), line, _.
  split; [done|unfold ERR_NOTAVAIL; lia].
Qed.

(** ** Sequences of keystrokes and reads *)
Inductive kb_cmd : Set :=
  | Key (c : Z)
  | ReadLine (len : Z).

Definition kb_exec (cmd : kb_cmd) : M kbd (Z * list Z) :=
  match cmd with
  | Key c => add_keystroke c ;; mret (0, [])
  | ReadLine len => get_nextline 1 len
  end.

Fixpoint kb_run (cmds : list kb_cmd) : M kbd (list (Z * list Z)) :=
  match cmds with
  | [] => mret []
  | cmd :: rest => r ← kb_exec cmd; rs ← kb_run rest; mret (r :: rs)
  end.

Definition ed_exec (cmd : kb_cmd) (e : editor) : (Z * list Z) * editor :=
  match cmd with
  | Key c => ((0, []), ed_key c e)
  | ReadLine len => ed_line len e
  end.

Fixpoint ed_run (cmds : list kb_cmd) (e : editor) : list (Z * list Z) * editor :=
  match cmds with
  | [] => ([], e)
  | cmd :: rest =>
      let '(r, e1) := ed_exec cmd e in
      let '(rs, e2) := ed_run rest e1 in
      (r :: rs, e2)
  end.

(** Keystrokes of a sequence, and sequences that erase no newline. *)
Definition is_key (cmd : kb_cmd) : Z := match cmd with Key _ => 1 | ReadLine _ => 0 end.
Fixpoint keys (cmds : list kb_cmd) : Z :=
  match cmds with [] => 0 | cmd :: rest => is_key cmd + keys rest end.

Fixpoint erases_no_newline (cmds : list kb_cmd) (e : editor) : Prop :=
  match cmds with
  | [] => True
  | cmd :: rest =>
      (cmd = Key ch_backspace → last e.1 ≠ Some ch_newline) ∧
      erases_no_newline rest (ed_exec cmd e).2
  end.

(** The ring has not wrapped around and [n] more keystrokes do not make it; no
    slot from [end_ptr] on holds a newline. *)
Record first_lap (s : kbd) (e : editor) (n : Z) : Prop := {
  fl_rep : represents s e;
  fl_flat : end_ptr s = start_ptr s + Z.of_nat (length e.1);
  fl_room : end_ptr s + n < 2000;
  fl_clean i : end_ptr s ≤ i < 2000 → key_buf s !! Z.to_nat i ≠ Some ch_newline;
}.

Lemma keys_nonneg cmds : 0 ≤ keys cmds.
Proof. induction cmds as [|[] ? IH]; cbn; lia. Qed.

Lemma clean_write s i c :
  length (key_buf s) = 2000%nat → 0 ≤ end_ptr s < 2000 → end_ptr s ≤ i → c ≠ ch_newline →
  key_buf s !! Z.to_nat i ≠ Some ch_newline →
  <[Z.to_nat (end_ptr s) := c]> (key_buf s) !! Z.to_nat i ≠ Some ch_newline.
Proof. intros Hl He Hi Hc Hk. rewrite lookup_insert_Z by lia. case_decide; [congruence|done]. Qed.

Lemma first_lap_key s q t c n :
  first_lap s (q, t) (1 + n) → 0 ≤ n → (c = ch_backspace → last q ≠ Some ch_newline) →
  ∃ s', add_keystroke c s = Ok tt s' ∧ first_lap s' (ed_key c (q, t)) n.
Proof.
  intros [Hrep Hfl Hroom Hcl] Hn Hb. cbn in Hfl, Hcl.
  pose proof (rp_ring _ _ Hrep) as Hr. cbn in Hr.
  pose proof (rg_start _ _ Hr) as Hst. pose proof (rg_len _ _ Hr) as Hlen.
  destruct (decide (c = ch_backspace)) as [->|Hc].
  - destruct (add_backspace s q t Hrep ltac:(lia) (Hb eq_refl)) as (s' & Hrun & Hrep' & Hs & Hk).
    exists s'. split; [done|]. pose proof (rg_end _ _ (rp_ring _ _ Hrep')) as He'. revert Hrep' He'.
    unfold ed_key. rewrite decide_False by (unfold KEYBOARD_BUFFER_SIZE; lia).
    rewrite decide_True by done. destruct (decide (q = [])) as [->|Hq].
    + cbn in *. intros Hrep' He'. rewrite Hs, Z.add_0_r, Z.mod_small in He' by lia.
      split; cbn; [done|lia..|]. intros i Hi. rewrite Hk. apply clean_write; try lia; [done|].
      apply Hcl. lia.
    + destruct (exists_last Hq) as (q' & x & ->). rewrite length_app in Hfl. cbn in Hfl.
      destruct (q' ++ [x]) as [|y l] eqn:E; [by destruct q'|]. rewrite <- E in *. clear y l E.
      rewrite removelast_last. intros Hrep' He'. cbn in He'. rewrite Hs, Z.mod_small in He' by lia.
      split; cbn; [done|lia..|]. intros i Hi. rewrite Hk.
      destruct (decide (end_ptr s ≤ i)).
      * apply clean_write; try lia; [done|]. apply Hcl. lia.
      * rewrite lookup_insert_Z, decide_False by lia.
        pose proof (rg_key _ _ Hr (length q') x) as Hx. rewrite Z.mod_small in Hx by lia.
        replace (start_ptr s + Z.of_nat (length q')) with i in Hx by lia.
        rewrite Hx by (by apply list_lookup_middle). intros [= ->]. by apply Hb; [|apply last_snoc].
  - destruct (add_printable s q t c Hrep ltac:(lia) Hc) as (s' & Hrun & Hrep' & Hs & Hk).
    exists s'. split; [done|]. pose proof (rg_end _ _ (rp_ring _ _ Hrep')) as He'.
    unfold ed_key. rewrite decide_False by (unfold KEYBOARD_BUFFER_SIZE; lia).
    rewrite decide_False by done. cbn in He'. rewrite length_app, Hs, Z.mod_small in He' by (cbn; lia).
    cbn in He'. split; [done|cbn; rewrite length_app; cbn; lia|lia|].
    intros i Hi. rewrite Hk, lookup_insert_Z, decide_False by lia. apply Hcl. lia.
Qed.

Lemma first_lap_line s q t len n :
  first_lap s (q, t) n → 0 ≤ n →
  ∃ s', get_nextline 1 len s = Ok (ed_line len (q, t)).1 s' ∧
    first_lap s' (ed_line len (q, t)).2 n.
Proof.
  intros [Hrep Hfl Hroom Hcl] Hn. cbn in Hfl.
  pose proof (rg_start _ _ (rp_ring _ _ Hrep)) as Hst.
  destruct (get_nextline_ok s q t 1 len Hrep) as (s' & Hrun & Hrep' & Hk & He & k & Hkq & Hs);
    [done|intros _; apply Hcl; lia|].
  exists s'. split; [done|]. pose proof (rg_end _ _ (rp_ring _ _ Hrep')) as He'.
  pose proof (rg_room _ _ (rp_ring _ _ Hrep')) as Hroom'.
  rewrite Z.mod_small in Hs by lia.
  split; [done| |lia|rewrite Hk, He; exact Hcl].
  rewrite He. rewrite He in He'. dlia.
Qed.

Lemma kb_run_ok cmds : ∀ s e,
  first_lap s e (keys cmds) → erases_no_newline cmds e →
  ∃ s', kb_run cmds s = Ok (ed_run cmds e).1 s' ∧ represents s' (ed_run cmds e).2.
Proof.
  induction cmds as [|cmd cmds IH]; intros s [q t] Hfl Her; cbn [kb_run ed_run].
  { exists s. split; [done|apply Hfl]. }
  destruct Her as [Hb Her]. cbn [keys] in Hfl. pose proof (keys_nonneg cmds).
  assert (∃ s1, kb_exec cmd s = Ok (ed_exec cmd (q, t)).1 s1 ∧
    first_lap s1 (ed_exec cmd (q, t)).2 (keys cmds)) as (s1 & Hrun & Hfl1).
  { destruct cmd as [c|len]; cbn [kb_exec ed_exec is_key fst snd] in *.
    - destruct (first_lap_key s q t c (keys cmds)) as (s1 & Hrun & Hfl1);
        [done|done|intros ->; by apply Hb|]. exists s1. by rewrite (bind_ok _ _ _ _ _ Hrun).
    - by apply first_lap_line. }
  destruct (ed_exec cmd (q, t)) as [r e1]. cbn in *.
  destruct (IH s1 e1 Hfl1 Her) as (s2 & Hrun2 & Hrep2). exists s2.
  destruct (ed_run cmds e1) as [rs e2].
  by rewrite (bind_ok _ _ _ _ _ Hrun), (bind_ok _ _ _ _ _ Hrun2).
Qed.

(** The buffer as the kernel starts, with a console. *)
Definition kbd_boot (k : console) : kbd :=
  mk_kbd (replicate (Z.to_nat KEYBOARD_BUFFER_SIZE) 0) 0 0 (-1) k.

Lemma kbd_boot_lap k t n : console_ok k → shows k t → n < 2000 → first_lap (kbd_boot k) ([], t) n.
Proof.
  intros Hk Ht Hn. split; cbn; [|done|lia|].
  - split; cbn; [|done..]. split; cbn; done.
  - intros i Hi E. apply lookup_replicate_1 in E as [E _]. discriminate.
Qed.

(** ** A newline that is erased *)

(** [newline_ptr] has caught up with [end_ptr] and the slot there holds the
    only newline of the buffer. *)
Record stuck (s : kbd) : Prop := {
  sk_len : length (key_buf s) = 2000%nat;
  sk_start : 0 ≤ start_ptr s < 2000;
  sk_end : 0 ≤ end_ptr s < 2000;
  sk_newline : newline_ptr s = end_ptr s;
  sk_key : key_buf s !! Z.to_nat (end_ptr s) = Some ch_newline;
  sk_only i : 0 ≤ i < 2000 → i ≠ end_ptr s → key_buf s !! Z.to_nat i ≠ Some ch_newline;
}.

Lemma scan_stuck fuel s :
  length (key_buf s) = 2000%nat → 0 ≤ newline_ptr s < 2000 → 0 ≤ end_ptr s < 2000 →
  key_buf s !! Z.to_nat (end_ptr s) = Some ch_newline →
  (∀ i, 0 ≤ i < 2000 → i ≠ end_ptr s → key_buf s !! Z.to_nat i ≠ Some ch_newline) →
  (end_ptr s - newline_ptr s) mod 2000 < Z.of_nat fuel →
  scan_newline fuel s = Ok tt (set_newline (end_ptr s) s).
Proof.
  revert s. induction fuel as [|fuel IH]; intros s Hl Hn He Hk Ho Hf; [dlia|].
  cbn [scan_newline]. rewrite bind_get.
  destruct (lookup_Z (key_buf s) (newline_ptr s)) as [x Hx]; [lia|].
  erewrite bind_ok by (apply key_at_ok; [lia|exact Hx]).
  destruct (decide (newline_ptr s = end_ptr s)) as [E|E].
  - rewrite decide_False by (rewrite E in Hx; intros Hne; apply Hne; congruence).
    rewrite <- E. by destruct s.
  - rewrite decide_True by (intros ->; by apply (Ho (newline_ptr s))). rewrite bind_modify.
    rewrite IH; cbn; try done; rewrite NEXT_mod by lia; dlia.
Qed.

(** A read leaves the buffer full: [start_ptr] is one past [end_ptr]. *)
Lemma stuck_line s len :
  stuck s → len < KEYBOARD_BUFFER_SIZE →
  ∃ r s', get_nextline 1 len s = Ok r s' ∧ stuck s' ∧ screen s' = screen s ∧
    NEXT (end_ptr s') = start_ptr s'.
Proof.
  intros [Hl Hs He Hn Hk Ho] Hlen. unfold get_nextline.
  rewrite decide_False by (unfold NULL; lia). rewrite bind_get, decide_False by lia.
  destruct (copy_line_total (Z.to_nat len) s Hl Hs) as (line & st & Hrun & Hst).
  rewrite (bind_ok _ _ _ _ _ Hrun). unfold update_start_ptr.
  erewrite (bind_ok (seek_newline ring_fuel ;; _)); last first.
  { erewrite bind_ok.
    2:{ apply seek_newline_ok; cbn; [done|lia|].
        unfold ring_fuel, KEYBOARD_BUFFER_SIZE. rewrite Z2Nat.id by lia. dlia. }
    rewrite bind_get. done. }
  cbn [start_ptr set_start newline_ptr]. unfold update_newline_ptr.
  erewrite (bind_ok (s ← get; _)); last first.
  { rewrite bind_get, bind_modify. apply scan_stuck; cbn; try done.
    - rewrite NEXT_mod by lia. dlia.
    - unfold ring_fuel, KEYBOARD_BUFFER_SIZE. rewrite Z2Nat.id by lia. dlia. }
  eexists _, _. split; [done|]. split_and!; [|done|cbn; congruence].
  split; cbn; try done. rewrite Hn, NEXT_mod by lia. dlia.
Qed.

Lemma full_drops s c : NEXT (end_ptr s) = start_ptr s → add_keystroke c s = Ok tt s.
Proof. intros E. unfold add_keystroke. by rewrite bind_get, decide_True. Qed.

Lemma stuck_run cmds : ∀ s, stuck s → NEXT (end_ptr s) = start_ptr s →
  ∃ rs s', kb_run cmds s = Ok rs s' ∧ stuck s' ∧ screen s' = screen s ∧
    NEXT (end_ptr s') = start_ptr s'.
Proof.
  induction cmds as [|cmd cmds IH]; intros s Hst Hfull; cbn [kb_run].
  { by exists [], s. }
  assert (∃ r s1, kb_exec cmd s = Ok r s1 ∧ stuck s1 ∧ screen s1 = screen s ∧
    NEXT (end_ptr s1) = start_ptr s1) as (r & s1 & Hrun & Hst1 & Hsc1 & Hf1).
  { destruct cmd as [c|len]; cbn [kb_exec].
    - exists (0, []), s. by rewrite (bind_ok _ _ _ _ _ (full_drops s c Hfull)).
    - destruct (decide (len < KEYBOARD_BUFFER_SIZE)) as [Hlen|Hlen].
      + by apply stuck_line.
      + exists (ERR_INVAL, []), s. unfold get_nextline. by rewrite decide_True by lia. }
  destruct (IH s1 Hst1 Hf1) as (rs & s2 & Hrun2 & Hst2 & Hsc2 & Hf2).
  exists (r :: rs), s2. rewrite (bind_ok _ _ _ _ _ Hrun), (bind_ok _ _ _ _ _ Hrun2).
  by rewrite Hsc2.
Qed.

(** A backspace just after the only newline. *)
Lemma erase_newline s q t n :
  first_lap s (q ++ [ch_newline], t) n → 0 ≤ n → ch_newline ∉ q → Z.of_nat (length q) < 1998 →
  (∀ i, 0 ≤ i < 2000 → key_buf s !! Z.to_nat i = Some ch_newline → i = end_ptr s - 1) →
  ∃ s', add_keystroke ch_backspace s = Ok tt s' ∧ stuck s'.
Proof.
  intros [Hrep Hfl Hroom Hcl] Hn Hq Hlen Ho. cbn in Hfl. rewrite length_app in Hfl. cbn in Hfl.
  destruct Hrep as [Hr Hnl Hc Ht]. cbn in *.
  pose proof (rg_start _ _ Hr) as Hs. pose proof (rg_len _ _ Hr) as Hl.
  assert (newline_ptr s = end_ptr s - 1) as Enl.
  { unfold newline_ok in Hnl. rewrite split_line_snoc in Hnl.
    destruct (split_line q) as [[line rest]|] eqn:E.
    - apply split_line_Some in E as [-> _]. set_solver.
    - rewrite decide_True in Hnl by done. rewrite Hnl, Z.mod_small; lia. }
  unfold add_keystroke. rewrite bind_get, decide_False; last first.
  { intros E. apply (ring_full s _ Hr) in E. rewrite length_app in E. cbn in E. lia. }
  erewrite bind_ok by (apply aset_ok; lia). rewrite bind_modify.
  rewrite (decide_False (P := ch_backspace = ch_newline ∧ _)) by (by intros [? _]).
  rewrite bind_mret, (decide_True (P := ch_backspace = _)), bind_get by done.
  set (s1 := set_key_buf _ s). rewrite decide_True by (cbn; lia). rewrite bind_modify.
  destruct (echo_ok (set_end (PREV (end_ptr s1)) s1) t ch_backspace Hc Ht) as (k & Hecho & _).
  rewrite (bind_ok _ _ _ _ _ Hecho). eexists. split; [done|].
  assert (PREV (end_ptr s) = end_ptr s - 1) as Ep by (rewrite PREV_mod by lia; dlia).
  split; cbn; rewrite ?Ep; [by rewrite length_insert|done|lia|done| |].
  - rewrite lookup_insert_Z, decide_False by lia.
    pose proof (rg_key _ _ Hr (length q) ch_newline) as Hx. rewrite Z.mod_small in Hx by lia.
    replace (start_ptr s + Z.of_nat (length q)) with (end_ptr s - 1) in Hx by lia.
    apply Hx. by apply list_lookup_middle.
  - intros i Hi Hne. rewrite lookup_insert_Z by lia. case_decide; [done|].
    intros E. apply Hne. by apply Ho.
Qed.

(** ** Properties *)


(** [add_keystroke] at any position of the ring, wrapped or not: the ring
    goes on representing a queue, which loses its last character on a
    backspace, gains the new one otherwise, and is unchanged when 1999
    characters are pending. *)
Theorem add_keystroke_keeps_ring s q t c :
  represents s (q, t) → (c = ch_backspace → last q ≠ Some ch_newline) →
  ∃ s', add_keystroke c s = Ok tt s' ∧ represents s' (ed_key c (q, t)).
Proof.
  intros Hrep Hb. destruct (add_keystroke_ok s q t c Hrep Hb) as (s' & Hrun & Hrep' & _).
  by exists s'.
Qed.

(** After a line is typed and its newline erased before anybody read it, the
    keyboard is dead: once a read has returned, every keystroke that follows is
    dropped without an echo, whatever reads come in between. *)
Theorem erased_newline_kills_keyboard s q t n len :
  first_lap s (q ++ [ch_newline], t) n → 0 ≤ n → ch_newline ∉ q → Z.of_nat (length q) < 1998 →
  (∀ i, 0 ≤ i < 2000 → key_buf s !! Z.to_nat i = Some ch_newline → i = end_ptr s - 1) →
  len < KEYBOARD_BUFFER_SIZE →
  ∃ s1 r s2, add_keystroke ch_backspace s = Ok tt s1 ∧ get_nextline 1 len s1 = Ok r s2 ∧
    ∀ cmds, ∃ rs s3, kb_run cmds s2 = Ok rs s3 ∧ screen s3 = screen s2 ∧
      ∀ c, add_keystroke c s3 = Ok tt s3.
Proof.
  intros Hfl Hn Hq Hl Ho Hlen. destruct (erase_newline s q t n Hfl Hn Hq Hl Ho) as (s1 & Hrun & Hst).
  destruct (stuck_line s1 len Hst Hlen) as (r & s2 & Hrun2 & Hst2 & _ & Hf2).
  exists s1, r, s2. split_and!; [done..|]. intros cmds.
  destruct (stuck_run cmds s2 Hst2 Hf2) as (rs & s3 & Hrun3 & _ & Hsc & Hf3).
  exists rs, s3. split_and!; [done..|]. intros c. by apply full_drops.
Qed.

(** ** Instances *)

(** "ab", a backspace, "c", a newline; then a read. *)
Definition demo_keys : list kb_cmd :=
  [Key 97; Key 98; Key ch_backspace; Key 99; Key ch_newline; ReadLine 80].


Lemma add_keystroke_keeps_ring_witness :
  ∃ s', add_keystroke 97 (kbd_boot demo_console) = Ok tt s' ∧ represents s' ([97], t_put demo_term 97).
Proof.
  pose proof (kbd_boot_lap demo_console demo_term 0 demo_console_ok demo_console_shows ltac:(lia)) as Hfl.
  apply (add_keystroke_keeps_ring (kbd_boot demo_console) [] demo_term 97 (fl_rep _ _ _ Hfl)).
  discriminate.
Defined.

(** A newline typed on a fresh buffer. *)
Lemma demo_newline :
  ∃ s t, first_lap s ([ch_newline], t) 0 ∧
    ∀ i, 0 ≤ i < 2000 → key_buf s !! Z.to_nat i = Some ch_newline → i = end_ptr s - 1.
Proof.
  pose proof (kbd_boot_lap demo_console demo_term 1 demo_console_ok demo_console_shows ltac:(lia)) as Hfl.
  destruct (add_printable (kbd_boot demo_console) [] demo_term ch_newline (fl_rep _ _ _ Hfl))
    as (s & Hrun & Hrep & Hs & Hk); [cbn; lia|discriminate|].
  exists s, (t_put demo_term ch_newline).
  pose proof (rg_end _ _ (rp_ring _ _ Hrep)) as He. rewrite Hs in He. change (end_ptr s = 1) in He.
  assert (∀ i, 0 ≤ i < 2000 → key_buf s !! Z.to_nat i = Some ch_newline → i = 0) as Honly.
  { intros i Hi. rewrite Hk. cbn [end_ptr key_buf kbd_boot].
    rewrite lookup_insert_Z by (rewrite ?length_replicate; unfold KEYBOARD_BUFFER_SIZE; lia).
    case_decide; [done|]. intros [E _]%lookup_replicate_1. discriminate. }
  split; [split; cbn; [done|rewrite Hs; cbn; lia|lia|]|].
  - intros i Hi E. apply Honly in E; lia.
  - intros i Hi E. apply Honly in E; lia.
Qed.

Lemma erased_newline_kills_keyboard_witness :
  ∃ s1 s2, add_keystroke ch_backspace s1 = Ok tt s2 ∧ ∃ r s3, get_nextline 1 80 s2 = Ok r s3.
Proof.
  destruct demo_newline as (s & t & Hfl & Ho). exists s.
  destruct (erased_newline_kills_keyboard s [] t 0 80 Hfl) as (s1 & r & s2 & H1 & H2 & _);
    [lia|apply not_elem_of_nil|cbn; lia|exact Ho|unfold KEYBOARD_BUFFER_SIZE; lia|].
  exists s1. split; [exact H1|]. exists r, s2. exact H2.
Defined.
