(* ===== verification/Idt.v ===== *)
(** * The interrupt descriptor table (kern/interrupts/, kern/drivers/timer/)

    [add_idt_entry] builds an [idt_entry] (a bit field struct of 8 bytes) and
    copies it into the table; [install_handlers] and [install_syscall_handlers]
    fill the table.  The addresses of the assembly entry points are a parameter
    of the model ([handler_addr]); the table is the sequence of its bytes.
    [gate] reads an entry back the way the processor does. *)

From S2P Require Import Prelude Locks FrameAlloc Paging.

(** ** Constants *)
Definition TRAP_GATE : Z := 0.
Definition INTERRUPT_GATE : Z := 1.
Definition KERNEL_DPL : Z := 0.
Definition USER_DPL : Z := 3.
Definition TRAP_GATE_FLAGS : Z := 15.
Definition INTERRUPT_GATE_FLAGS : Z := 14.
Definition ZEROES : Z := 0.
Definition PRESENT : Z := 1.
Definition SEGSEL_KERNEL_CS : Z := 0x10.

Definition IDT_DE : Z := 0.
Definition IDT_DB : Z := 1.
Definition IDT_NMI : Z := 2.
Definition IDT_BP : Z := 3.
Definition IDT_OF : Z := 4.
Definition IDT_BR : Z := 5.
Definition IDT_UD : Z := 6.
Definition IDT_NM : Z := 7.
Definition IDT_CSO : Z := 9.
Definition IDT_TS : Z := 10.
Definition IDT_NP : Z := 11.
Definition IDT_SS : Z := 12.
Definition IDT_GP : Z := 13.
Definition IDT_PF : Z := 14.
Definition IDT_MF : Z := 16.
Definition IDT_AC : Z := 17.
Definition IDT_MC : Z := 18.
Definition IDT_XF : Z := 19.
Definition IDT_ENTS : Z := 256.
Definition TIMER_IDT_ENTRY : Z := 0x20.
Definition KEY_IDT_ENTRY : Z := 0x21.

Definition FORK_INT : Z := 0x41.
Definition EXEC_INT : Z := 0x42.
Definition WAIT_INT : Z := 0x44.
Definition YIELD_INT : Z := 0x45.
Definition DESCHEDULE_INT : Z := 0x46.
Definition MAKE_RUNNABLE_INT : Z := 0x47.
Definition GETTID_INT : Z := 0x48.
Definition NEW_PAGES_INT : Z := 0x49.
Definition REMOVE_PAGES_INT : Z := 0x4A.
Definition SLEEP_INT : Z := 0x4B.
Definition GETCHAR_INT : Z := 0x4C.
Definition READLINE_INT : Z := 0x4D.
Definition PRINT_INT : Z := 0x4E.
Definition SET_TERM_COLOR_INT : Z := 0x4F.
Definition SET_CURSOR_POS_INT : Z := 0x50.
Definition GET_CURSOR_POS_INT : Z := 0x51.
Definition THREAD_FORK_INT : Z := 0x52.
Definition GET_TICKS_INT : Z := 0x53.
Definition HALT_INT : Z := 0x55.
Definition SET_STATUS_INT : Z := 0x59.
Definition VANISH_INT : Z := 0x60.
Definition READFILE_INT : Z := 0x62.
Definition SWEXN_INT : Z := 0x74.
Definition SYSCALL_RESERVED_1 : Z := 0x81.

(** ** The descriptor *)
Record idt_entry : Type := mk_idt_entry {
  offset_1 : Z;
  seg_selector : Z;
  reserved : Z;
  zeroes : Z;
  flags : Z;
  dpl_of : Z;
  present_bit : Z;
  offset_2 : Z;
}.

(** The bit fields as the compiler lays them out, low bits first, and the
    bytes of the two words. *)
Definition low_word (e : idt_entry) : Z := offset_1 e mod 65536 + 65536 * (seg_selector e mod 65536).
Definition high_word (e : idt_entry) : Z :=
  reserved e mod 32 + 32 * (zeroes e mod 8) + 256 * (flags e mod 32) + 8192 * (dpl_of e mod 4) +
  32768 * (present_bit e mod 2) + 65536 * (offset_2 e mod 65536).

Definition bytes4 (w : Z) : list Z :=
  [w mod 256; w / 256 mod 256; w / 65536 mod 256; w / 16777216 mod 256].
Definition entry_bytes (e : idt_entry) : list Z := bytes4 (low_word e) ++ bytes4 (high_word e).

(** What the functions of the interrupt setup change. *)
Record irq : Type := mk_irq {
  idt : list Z;
  io : list (Z * Z);
  tick_counter : Z;
  readline_cond_var : cond_t;
  readline_mutex : mutex_t;
}.

Definition set_idt v s := mk_irq v (io s) (tick_counter s) (readline_cond_var s) (readline_mutex s).
Definition set_ticks v s := mk_irq (idt s) (io s) v (readline_cond_var s) (readline_mutex s).
Definition set_rcond v s := mk_irq (idt s) (io s) (tick_counter s) v (readline_mutex s).
Definition set_rmutex v s := mk_irq (idt s) (io s) (tick_counter s) (readline_cond_var s) v.

Definition out_port (port v : Z) : M irq unit :=
  modify (λ s, mk_irq (idt s) (io s ++ [(port, v)]) (tick_counter s) (readline_cond_var s)
    (readline_mutex s)).

(** The entry points in assembly. *)
Inductive handler : Set :=
  | timer_handler | keyboard_handler
  | divide_error_handler | debug_exception_handler | non_maskable_interrupt_handler
  | breakpoint_handler | overflow_handler | bound_range_handler | undefined_opcode_handler
  | no_math_coprocessor_handler | cso_handler | invalid_tss_handler | snp_handler
  | ssf_handler | gpf_handler | page_fault_handler | math_fault_handler
  | alignment_check_handler | machine_check_handler | floating_point_exp_handler
  | gettid_handler | print_handler | fork_handler | thread_fork_handler | exec_handler
  | set_status_handler | halt_handler | wait_handler | vanish_handler | new_pages_handler
  | readline_handler | remove_pages_handler | yield_handler | memory_check_handler
  | sleep_handler | deschedule_handler | make_runnable_handler | get_ticks_handler
  | swexn_handler | readfile_handler | set_term_color_handler | set_cursor_pos_handler
  | get_cursor_pos_handler | getchar_handler.

#[export] Instance handler_eq_dec : EqDecision handler.
Proof. solve_decision. Defined.

(** ** kern/interrupts/idt_entry.c *)
Definition get_default_trap_idt (e : idt_entry) (dpl : Z) : idt_entry :=
  mk_idt_entry (offset_1 e) SEGSEL_KERNEL_CS (reserved e) ZEROES TRAP_GATE_FLAGS dpl PRESENT
    (offset_2 e).

Definition get_default_interrupt_idt (e : idt_entry) (dpl : Z) : idt_entry :=
  mk_idt_entry (offset_1 e) SEGSEL_KERNEL_CS (reserved e) ZEROES INTERRUPT_GATE_FLAGS dpl PRESENT
    (offset_2 e).

(** [memcpy] of an entry to the table. *)
Definition copy_entry (off : Z) (d : list Z) : M irq unit :=
  s ← get;
  if decide (0 ≤ off ∧ off + Z.of_nat (length d) ≤ Z.of_nat (length (idt s)))
  then modify (set_idt (list_inserts (Z.to_nat off) d (idt s))) else halt BadAccess.

(** The values the linker gives to the entry points, and the bits of the stack
    that the uninitialised field [reserved] holds. *)
Class Linked : Type := {
  handler_addr : handler → Z;
  stack_junk : Z;
}.

Section idt.
Context `{Linked}.

Definition add_idt_entry (h : handler) (interrupt_num type dpl : Z) : M irq Z :=
  if decide (type ≠ TRAP_GATE ∧ type ≠ INTERRUPT_GATE) then mret ERR_FAILURE
  else
    let junk := mk_idt_entry 0 0 stack_junk 0 0 0 0 0 in
    let entry := if decide (type = TRAP_GATE) then get_default_trap_idt junk dpl
                 else if decide (type = INTERRUPT_GATE) then get_default_interrupt_idt junk dpl
                 else junk in
    let entry := mk_idt_entry (Z.land (handler_addr h) 0xffff) (seg_selector entry) (reserved entry)
      (zeroes entry) (flags entry) (dpl_of entry) (present_bit entry)
      (Z.land (Z.shiftr (handler_addr h) 16) 0xffff) in
    copy_entry (8 * interrupt_num) (entry_bytes entry) ;;
    mret 0.

End idt.

(** ** kern/drivers/timer/timer.c *)
Definition INT_FREQ : Z := 10.
Definition MILLISECONDS : Z := 1000.
Definition TIMER_RATE : Z := 1193182.
Definition TIMER_PERIOD_IO_PORT : Z := 0x40.
Definition TIMER_MODE_IO_PORT : Z := 0x43.
Definition TIMER_SQUARE_WAVE : Z := 0x36.

Definition set_mode_freq : M irq unit :=
  let output_freq := Z.quot MILLISECONDS INT_FREQ in
  let freq_divider := Z.quot TIMER_RATE output_freq in
  out_port TIMER_MODE_IO_PORT TIMER_SQUARE_WAVE ;;
  out_port TIMER_PERIOD_IO_PORT (Z.land freq_divider 0xff) ;;
  out_port TIMER_PERIOD_IO_PORT (Z.land (Z.shiftr freq_divider 8) 0xff).

Definition INT_CTL_PORT : Z := 0x20.
Definition INT_ACK_CURRENT : Z := 0x20.

Definition acknowledge_interrupt : M irq unit := out_port INT_CTL_PORT INT_ACK_CURRENT.

(** The callback is the argument of the caller. *)
Definition callback_handler (callback : Z → M irq unit) : M irq unit :=
  acknowledge_interrupt ;;
  s ← get;
  modify (set_ticks (u32 (tick_counter s + 1))) ;;
  s ← get;
  callback (tick_counter s).

Definition total_ticks : M irq Z := gets tick_counter.

(** ** The table is filled *)
Section install.
Context `{Linked}.

Definition install_timer_handler : M irq Z :=
  add_idt_entry timer_handler TIMER_IDT_ENTRY INTERRUPT_GATE KERNEL_DPL.

Definition initialize_timer : M irq Z :=
  set_mode_freq ;;
  install_timer_handler.

(** kern/drivers/keyboard/keyboard.c *)
Definition mutex_init_call : M mutex_t Z := modify (λ _, mutex_init) ;; mret 0.

Definition install_keyboard_handler : M irq Z :=
  retval ← zoom readline_cond_var set_rcond cond_init;
  if decide (retval < 0) then mret retval
  else
    retval ← zoom readline_mutex set_rmutex mutex_init_call;
    if decide (retval < 0) then mret retval
    else add_idt_entry keyboard_handler KEY_IDT_ENTRY TRAP_GATE KERNEL_DPL.

(** kern/interrupts/interrupt_handlers.c *)
Definition install_divide_error_handler : M irq Z :=
  add_idt_entry divide_error_handler IDT_DE TRAP_GATE KERNEL_DPL.
Definition install_page_fault_handler : M irq Z :=
  add_idt_entry page_fault_handler IDT_PF TRAP_GATE KERNEL_DPL.
Definition install_debug_exception_handler : M irq Z :=
  add_idt_entry debug_exception_handler IDT_DB TRAP_GATE KERNEL_DPL.
Definition install_non_maskable_interrupt_handler : M irq Z :=
  add_idt_entry non_maskable_interrupt_handler IDT_NMI TRAP_GATE KERNEL_DPL.
Definition install_breakpoint_handler : M irq Z :=
  add_idt_entry breakpoint_handler IDT_BP TRAP_GATE KERNEL_DPL.
Definition install_overflow_handler : M irq Z :=
  add_idt_entry overflow_handler IDT_OF TRAP_GATE KERNEL_DPL.
Definition install_bound_range_handler : M irq Z :=
  add_idt_entry bound_range_handler IDT_BR TRAP_GATE KERNEL_DPL.
Definition install_undefined_opcode_handler : M irq Z :=
  add_idt_entry undefined_opcode_handler IDT_OF TRAP_GATE KERNEL_DPL.
Definition install_no_math_coprocessor_handler : M irq Z :=
  add_idt_entry no_math_coprocessor_handler IDT_NM TRAP_GATE KERNEL_DPL.
Definition install_cso_handler : M irq Z :=
  add_idt_entry cso_handler IDT_CSO TRAP_GATE KERNEL_DPL.
Definition install_invalid_tss_handler : M irq Z :=
  add_idt_entry invalid_tss_handler IDT_TS TRAP_GATE KERNEL_DPL.
Definition install_snp_handler : M irq Z := add_idt_entry snp_handler IDT_NP TRAP_GATE KERNEL_DPL.
Definition install_ssf_handler : M irq Z := add_idt_entry ssf_handler IDT_SS TRAP_GATE KERNEL_DPL.
Definition install_gpf_handler : M irq Z := add_idt_entry gpf_handler IDT_GP TRAP_GATE KERNEL_DPL.
Definition install_math_fault_handler : M irq Z :=
  add_idt_entry math_fault_handler IDT_MF TRAP_GATE KERNEL_DPL.
Definition install_alignment_check_handler : M irq Z :=
  add_idt_entry alignment_check_handler IDT_AC TRAP_GATE KERNEL_DPL.
Definition install_machine_check_handler : M irq Z :=
  add_idt_entry machine_check_handler IDT_MC TRAP_GATE KERNEL_DPL.
Definition install_floating_point_exp_handler : M irq Z :=
  add_idt_entry floating_point_exp_handler IDT_XF TRAP_GATE KERNEL_DPL.

(** [if ((retval = install()) < 0) return retval;] in sequence; the last value
    is returned. *)
Fixpoint install_all (retval : Z) (steps : list (M irq Z)) : M irq Z :=
  match steps with
  | [] => mret retval
  | step :: rest =>
      retval ← step;
      if decide (retval < 0) then mret retval else install_all retval rest
  end.

Definition install_handlers : M irq Z :=
  install_all 0
    [initialize_timer; install_keyboard_handler; install_divide_error_handler;
     install_debug_exception_handler; install_non_maskable_interrupt_handler;
     install_breakpoint_handler; install_overflow_handler; install_bound_range_handler;
     install_undefined_opcode_handler; install_no_math_coprocessor_handler; install_cso_handler;
     install_invalid_tss_handler; install_snp_handler; install_gpf_handler;
     install_page_fault_handler; install_math_fault_handler; install_alignment_check_handler;
     install_machine_check_handler; install_floating_point_exp_handler].

(** kern/syscalls/syscall_handlers.c *)
Definition install_gettid_handler : M irq Z :=
  add_idt_entry gettid_handler GETTID_INT TRAP_GATE USER_DPL.
Definition install_print_handler : M irq Z :=
  add_idt_entry print_handler PRINT_INT TRAP_GATE USER_DPL.
Definition install_fork_handler : M irq Z :=
  add_idt_entry fork_handler FORK_INT TRAP_GATE USER_DPL.
Definition install_thread_fork_handler : M irq Z :=
  add_idt_entry thread_fork_handler THREAD_FORK_INT TRAP_GATE USER_DPL.
Definition install_exec_handler : M irq Z :=
  add_idt_entry exec_handler EXEC_INT TRAP_GATE USER_DPL.
Definition install_set_status_handler : M irq Z :=
  add_idt_entry set_status_handler SET_STATUS_INT TRAP_GATE USER_DPL.
Definition install_halt_handler : M irq Z :=
  add_idt_entry halt_handler HALT_INT TRAP_GATE USER_DPL.
Definition install_wait_handler : M irq Z :=
  add_idt_entry wait_handler WAIT_INT TRAP_GATE USER_DPL.
Definition install_vanish_handler : M irq Z :=
  add_idt_entry vanish_handler VANISH_INT TRAP_GATE USER_DPL.
Definition install_new_pages_handler : M irq Z :=
  add_idt_entry new_pages_handler NEW_PAGES_INT TRAP_GATE USER_DPL.
Definition install_readline_handler : M irq Z :=
  add_idt_entry readline_handler READLINE_INT TRAP_GATE USER_DPL.
Definition install_remove_pages_handler : M irq Z :=
  add_idt_entry remove_pages_handler REMOVE_PAGES_INT TRAP_GATE USER_DPL.
Definition install_yield_handler : M irq Z :=
  add_idt_entry yield_handler YIELD_INT TRAP_GATE USER_DPL.
Definition install_memcheck_handler : M irq Z :=
  add_idt_entry memory_check_handler SYSCALL_RESERVED_1 INTERRUPT_GATE USER_DPL.
Definition install_sleep_handler : M irq Z :=
  add_idt_entry sleep_handler SLEEP_INT TRAP_GATE USER_DPL.
Definition install_deschedule_handler : M irq Z :=
  add_idt_entry deschedule_handler DESCHEDULE_INT TRAP_GATE USER_DPL.
Definition install_make_runnable_handler : M irq Z :=
  add_idt_entry make_runnable_handler MAKE_RUNNABLE_INT TRAP_GATE USER_DPL.
Definition install_get_ticks_handler : M irq Z :=
  add_idt_entry get_ticks_handler GET_TICKS_INT TRAP_GATE USER_DPL.
Definition install_swexn_handler : M irq Z :=
  add_idt_entry swexn_handler SWEXN_INT TRAP_GATE USER_DPL.
Definition install_readfile_handler : M irq Z :=
  add_idt_entry readfile_handler READFILE_INT TRAP_GATE USER_DPL.
Definition install_set_term_color_handler : M irq Z :=
  add_idt_entry set_term_color_handler SET_TERM_COLOR_INT TRAP_GATE USER_DPL.
Definition install_set_cursor_pos_handler : M irq Z :=
  add_idt_entry set_cursor_pos_handler SET_CURSOR_POS_INT TRAP_GATE USER_DPL.
Definition install_get_cursor_pos_handler : M irq Z :=
  add_idt_entry get_cursor_pos_handler GET_CURSOR_POS_INT TRAP_GATE USER_DPL.
Definition install_getchar_handler : M irq Z :=
  add_idt_entry getchar_handler GETCHAR_INT TRAP_GATE USER_DPL.

Definition install_syscall_handlers : M irq Z :=
  install_all 0
    [install_print_handler; install_fork_handler; install_thread_fork_handler;
     install_exec_handler; install_set_status_handler; install_halt_handler;
     install_wait_handler; install_vanish_handler; install_new_pages_handler;
     install_remove_pages_handler; install_readline_handler; install_yield_handler;
     install_memcheck_handler; install_gettid_handler; install_deschedule_handler;
     install_make_runnable_handler; install_get_ticks_handler; install_sleep_handler;
     install_swexn_handler; install_readfile_handler; install_set_term_color_handler;
     install_set_cursor_pos_handler; install_get_cursor_pos_handler; install_getchar_handler].

End install.

(** ** What the processor reads *)
Record gate_desc : Type := mk_gate {
  g_offset : Z;
  g_selector : Z;
  g_type : Z;
  g_dpl : Z;
  g_present : Z;
}.

Definition dword (t : list Z) (off : Z) : option Z :=
  b0 ← t !! Z.to_nat off; b1 ← t !! Z.to_nat (off + 1);
  b2 ← t !! Z.to_nat (off + 2); b3 ← t !! Z.to_nat (off + 3);
  Some (b0 + 256 * b1 + 65536 * b2 + 16777216 * b3).

Definition gate (t : list Z) (n : Z) : option gate_desc :=
  lo ← dword t (8 * n);
  hi ← dword t (8 * n + 4);
  Some (mk_gate (lo mod 65536 + 65536 * (hi / 65536)) (lo / 65536) (hi / 256 mod 32)
    (hi / 8192 mod 4) (hi / 32768 mod 2)).

(** ** Round trip of one entry *)
Lemma bytes4_word w : word w →
  w mod 256 + 256 * (w / 256 mod 256) + 65536 * (w / 65536 mod 256) +
  16777216 * (w / 16777216 mod 256) = w.
Proof. unfold word. intros. dlia. Qed.

Lemma dword_inserts t off d k :
  0 ≤ off → off + Z.of_nat (length d) ≤ Z.of_nat (length t) → 0 ≤ k →
  k + 3 < Z.of_nat (length d) →
  dword (list_inserts (Z.to_nat off) d t) (off + k) = dword d k.
Proof.
  intros Ho Hl Hk Hk3. unfold dword.
  assert (∀ j, 0 ≤ j ≤ 3 → list_inserts (Z.to_nat off) d t !! Z.to_nat (off + k + j) =
    d !! Z.to_nat (k + j)) as E.
  { intros j Hj. rewrite list_lookup_inserts by lia. f_equal. lia. }
  pose proof (E 0 ltac:(lia)) as E0. rewrite !Z.add_0_r in E0.
  by rewrite E0, !E by lia.
Qed.

Lemma dword_inserts_ne t off d k :
  0 ≤ off → 0 ≤ k → k + 4 ≤ off ∨ off + Z.of_nat (length d) ≤ k →
  dword (list_inserts (Z.to_nat off) d t) k = dword t k.
Proof.
  intros Ho Hk Hne. unfold dword.
  assert (∀ j, 0 ≤ j ≤ 3 → list_inserts (Z.to_nat off) d t !! Z.to_nat (k + j) =
    t !! Z.to_nat (k + j)) as E.
  { intros j Hj. destruct Hne; [rewrite list_lookup_inserts_lt by lia|
      rewrite list_lookup_inserts_ge by lia]; done. }
  pose proof (E 0 ltac:(lia)) as E0. rewrite !Z.add_0_r in E0.
  by rewrite E0, !E by lia.
Qed.

Lemma dword_bytes4 a b : word a → dword (bytes4 a ++ b) 0 = Some a.
Proof.
  intros Ha. transitivity (Some (a mod 256 + 256 * (a / 256 mod 256) + 65536 * (a / 65536 mod 256) +
    16777216 * (a / 16777216 mod 256))); [reflexivity|by rewrite bytes4_word].
Qed.

Lemma dword_bytes4_high a b : word b → dword (bytes4 a ++ bytes4 b) 4 = Some b.
Proof.
  intros Hb. transitivity (Some (b mod 256 + 256 * (b / 256 mod 256) + 65536 * (b / 65536 mod 256) +
    16777216 * (b / 16777216 mod 256))); [reflexivity|by rewrite bytes4_word].
Qed.

(** A comparison of constants. *)
Ltac zconst := split; vm_compute; (reflexivity || discriminate).

Section theorems.
Context `{Linked}.

(** A gate for handler [h] of the given descriptor type and privilege level. *)
Definition gate_for (h : handler) (type dpl : Z) : gate_desc :=
  mk_gate (handler_addr h) SEGSEL_KERNEL_CS
    (if decide (type = TRAP_GATE) then TRAP_GATE_FLAGS else INTERRUPT_GATE_FLAGS) dpl PRESENT.

Lemma gate_of_entry lo hi a sel fl d :
  word a → 0 ≤ sel < 65536 → 0 ≤ fl < 32 → 0 ≤ d < 4 →
  lo = a mod 65536 + 65536 * sel →
  (∃ r, 0 ≤ r < 32 ∧ hi = r + 256 * fl + 8192 * d + 32768 + 65536 * (a / 65536)) →
  mk_gate (lo mod 65536 + 65536 * (hi / 65536)) (lo / 65536) (hi / 256 mod 32)
    (hi / 8192 mod 4) (hi / 32768 mod 2) = mk_gate a sel fl d 1 ∧ word lo ∧ word hi.
Proof.
  unfold word. intros Ha Hs Hf Hd -> (r & Hr & ->).
  split; [f_equal|split]; dlia.
Qed.

Definition installs (step : M irq Z) (n : Z) (g : gate_desc) : Prop :=
  ∀ s, length (idt s) = 2048%nat →
  ∃ s', step s = Ok 0 s' ∧ length (idt s') = 2048%nat ∧
    ∀ m, 0 ≤ m < IDT_ENTS → gate (idt s') m = if decide (m = n) then Some g else gate (idt s) m.

Lemma add_idt_entry_installs h n type dpl :
  word (handler_addr h) → type = TRAP_GATE ∨ type = INTERRUPT_GATE → 0 ≤ n < IDT_ENTS →
  0 ≤ dpl < 4 → installs (add_idt_entry h n type dpl) n (gate_for h type dpl).
Proof.
  unfold IDT_ENTS. intros Ha Ht Hn Hd s Hl. unfold add_idt_entry.
  rewrite decide_False by tauto. set (e := mk_idt_entry _ _ _ _ _ _ _ _).
  assert (Z.of_nat (length (entry_bytes e)) = 8) as He by done.
  unfold copy_entry. erewrite bind_ok by (rewrite bind_get, decide_True by lia; done).
  eexists. split; [done|]. cbn [idt set_idt]. split; [by rewrite length_inserts|].
  intros m Hm. unfold gate. case_decide as Hmn.
  - subst m. pose proof (dword_inserts (idt s) (8 * n) (entry_bytes e) 0) as H0.
    pose proof (dword_inserts (idt s) (8 * n) (entry_bytes e) 4) as H4.
    rewrite Z.add_0_r in H0. rewrite H0, H4 by lia. unfold entry_bytes.
    set (fl := if decide (type = TRAP_GATE) then TRAP_GATE_FLAGS else INTERRUPT_GATE_FLAGS).
    assert (flags e = fl ∧ dpl_of e = dpl ∧ present_bit e = 1 ∧ zeroes e = 0 ∧ seg_selector e = 0x10)
      as (E1 & E2 & E3 & E4 & E5).
    { unfold e, fl. destruct (decide (type = TRAP_GATE)) as [->|]; [done|].
      rewrite decide_True by tauto. done. }
    destruct (gate_of_entry (low_word e) (high_word e) (handler_addr h) 0x10 fl dpl)
      as (Eg & Hlo & Hhi); [done|lia|unfold fl; case_decide; done|done| | |].
    + unfold low_word. rewrite E5. unfold e. cbn. change 0xffff with (Z.ones 16).
      rewrite Z.land_ones by lia. change (2 ^ 16) with 65536. dlia.
    + exists (reserved e mod 32). split; [apply Z.mod_pos_bound; lia|].
      unfold high_word. rewrite E1, E2, E3, E4.
      replace (offset_2 e mod 65536) with (handler_addr h / 65536); last first.
      { unfold e. cbn. change 0xffff with (Z.ones 16). rewrite Z.land_ones, Z.shiftr_div_pow2 by lia.
        change (2 ^ 16) with 65536. unfold word in Ha. dlia. }
      assert (0 ≤ fl < 32) by (unfold fl; by case_decide).
      rewrite (Z.mod_small fl), (Z.mod_small dpl) by lia. change (1 mod 2) with 1.
      change (0 mod 8) with 0. lia.
    + rewrite dword_bytes4, dword_bytes4_high by done. cbn [mbind option_bind].
      f_equal. exact Eg.
  - by rewrite !dword_inserts_ne by lia.
Qed.

(** ** Sequences of installations *)
Fixpoint last_gate (entries : list (Z * gate_desc)) (m : Z) : option gate_desc :=
  match entries with
  | [] => None
  | (n, g) :: rest =>
      match last_gate rest m with
      | Some g' => Some g'
      | None => if decide (m = n) then Some g else None
      end
  end.

Definition after_installs (t : list Z) (entries : list (Z * gate_desc)) (m : Z) : option gate_desc :=
  match last_gate entries m with Some g => Some g | None => gate t m end.

Lemma install_all_ok steps entries s r :
  Forall2 (λ step e, installs step e.1 e.2) steps entries →
  length (idt s) = 2048%nat → (steps = [] → r = 0) →
  ∃ s', install_all r steps s = Ok 0 s' ∧ length (idt s') = 2048%nat ∧
    ∀ m, 0 ≤ m < IDT_ENTS → gate (idt s') m = after_installs (idt s) entries m.
Proof.
  intros Hall. revert s r. induction Hall as [|step [n g] steps entries Hst Hall IH]; intros s r Hl Hr.
  - exists s. rewrite Hr by done. by split_and!.
  - destruct (Hst s Hl) as (s1 & Hrun & Hl1 & Hg1). cbn in Hg1.
    destruct (IH s1 0 Hl1 (λ _, eq_refl)) as (s2 & Hrun2 & Hl2 & Hg2).
    exists s2. cbn [install_all]. rewrite (bind_ok _ _ _ _ _ Hrun), decide_False by lia.
    split_and!; [done..|]. intros m Hm. rewrite Hg2 by done. unfold after_installs. cbn [last_gate].
    destruct (last_gate entries m); [done|]. rewrite Hg1 by done. by case_decide.
Qed.

(** The rows in the order of the calls: vector, handler, type, privilege. *)
Definition row : Type := Z * handler * Z * Z.
Definition gate_of_row (r : row) : Z * gate_desc :=
  let '(v, h, type, dpl) := r in (v, gate_for h type dpl).

Definition handler_rows : list row :=
   [(TIMER_IDT_ENTRY, timer_handler, INTERRUPT_GATE, KERNEL_DPL);
    (KEY_IDT_ENTRY, keyboard_handler, TRAP_GATE, KERNEL_DPL);
    (IDT_DE, divide_error_handler, TRAP_GATE, KERNEL_DPL);
    (IDT_DB, debug_exception_handler, TRAP_GATE, KERNEL_DPL);
    (IDT_NMI, non_maskable_interrupt_handler, TRAP_GATE, KERNEL_DPL);
    (IDT_BP, breakpoint_handler, TRAP_GATE, KERNEL_DPL);
    (IDT_OF, overflow_handler, TRAP_GATE, KERNEL_DPL);
    (IDT_BR, bound_range_handler, TRAP_GATE, KERNEL_DPL);
    (IDT_OF, undefined_opcode_handler, TRAP_GATE, KERNEL_DPL);
    (IDT_NM, no_math_coprocessor_handler, TRAP_GATE, KERNEL_DPL);
    (IDT_CSO, cso_handler, TRAP_GATE, KERNEL_DPL);
    (IDT_TS, invalid_tss_handler, TRAP_GATE, KERNEL_DPL);
    (IDT_NP, snp_handler, TRAP_GATE, KERNEL_DPL); (IDT_GP, gpf_handler, TRAP_GATE, KERNEL_DPL);
    (IDT_PF, page_fault_handler, TRAP_GATE, KERNEL_DPL);
    (IDT_MF, math_fault_handler, TRAP_GATE, KERNEL_DPL);
    (IDT_AC, alignment_check_handler, TRAP_GATE, KERNEL_DPL);
    (IDT_MC, machine_check_handler, TRAP_GATE, KERNEL_DPL);
    (IDT_XF, floating_point_exp_handler, TRAP_GATE, KERNEL_DPL)].

Definition syscall_rows : list row :=
   [(PRINT_INT, print_handler, TRAP_GATE, USER_DPL);
    (FORK_INT, fork_handler, TRAP_GATE, USER_DPL);
    (THREAD_FORK_INT, thread_fork_handler, TRAP_GATE, USER_DPL);
    (EXEC_INT, exec_handler, TRAP_GATE, USER_DPL);
    (SET_STATUS_INT, set_status_handler, TRAP_GATE, USER_DPL);
    (HALT_INT, halt_handler, TRAP_GATE, USER_DPL);
    (WAIT_INT, wait_handler, TRAP_GATE, USER_DPL);
    (VANISH_INT, vanish_handler, TRAP_GATE, USER_DPL);
    (NEW_PAGES_INT, new_pages_handler, TRAP_GATE, USER_DPL);
    (REMOVE_PAGES_INT, remove_pages_handler, TRAP_GATE, USER_DPL);
    (READLINE_INT, readline_handler, TRAP_GATE, USER_DPL);
    (YIELD_INT, yield_handler, TRAP_GATE, USER_DPL);
    (SYSCALL_RESERVED_1, memory_check_handler, INTERRUPT_GATE, USER_DPL);
    (GETTID_INT, gettid_handler, TRAP_GATE, USER_DPL);
    (DESCHEDULE_INT, deschedule_handler, TRAP_GATE, USER_DPL);
    (MAKE_RUNNABLE_INT, make_runnable_handler, TRAP_GATE, USER_DPL);
    (GET_TICKS_INT, get_ticks_handler, TRAP_GATE, USER_DPL);
    (SLEEP_INT, sleep_handler, TRAP_GATE, USER_DPL);
    (SWEXN_INT, swexn_handler, TRAP_GATE, USER_DPL);
    (READFILE_INT, readfile_handler, TRAP_GATE, USER_DPL);
    (SET_TERM_COLOR_INT, set_term_color_handler, TRAP_GATE, USER_DPL);
    (SET_CURSOR_POS_INT, set_cursor_pos_handler, TRAP_GATE, USER_DPL);
    (GET_CURSOR_POS_INT, get_cursor_pos_handler, TRAP_GATE, USER_DPL);
    (GETCHAR_INT, getchar_handler, TRAP_GATE, USER_DPL)].

Lemma installs_after (f : M irq unit) step n g :
  (∀ s, ∃ s', f s = Ok tt s' ∧ idt s' = idt s) → installs step n g → installs (f ;; step) n g.
Proof.
  intros Hf Hst s Hl. destruct (Hf s) as (s1 & Hrun & E).
  destruct (Hst s1) as (s2 & Hrun2 & Hl2 & Hg); [congruence|].
  exists s2. rewrite (bind_ok _ _ _ _ _ Hrun). split_and!; [done..|]. by rewrite <- E.
Qed.

Lemma initialize_timer_installs n g :
  installs install_timer_handler n g → installs initialize_timer n g.
Proof. apply installs_after. intros s. by eexists. Qed.

Lemma install_keyboard_installs n g :
  installs (add_idt_entry keyboard_handler KEY_IDT_ENTRY TRAP_GATE KERNEL_DPL) n g →
  installs install_keyboard_handler n g.
Proof.
  intros Hst s Hl.
  set (s1 := set_rmutex mutex_init (set_rcond (mk_cond COND_VAR_VALID [] mutex_init) s)).
  destruct (Hst s1 Hl) as (s2 & Hrun & Hl2 & Hg). by exists s2.
Qed.

Definition addresses_ok : Prop := ∀ h, word (handler_addr h).

Definition step_of (r : row) : M irq Z := let '(v, h, type, dpl) := r in add_idt_entry h v type dpl.

Definition row_ok (r : row) : bool :=
  let '(v, h, type, dpl) := r in
  (bool_decide (type = TRAP_GATE) || bool_decide (type = INTERRUPT_GATE)) &&
  bool_decide (0 ≤ v < IDT_ENTS) && bool_decide (0 ≤ dpl < 4).

Lemma row_installs r :
  addresses_ok → row_ok r = true → installs (step_of r) (gate_of_row r).1 (gate_of_row r).2.
Proof.
  intros Ha. destruct r as [[[v h] type] dpl]. unfold row_ok.
  rewrite !andb_true_iff, orb_true_iff, !bool_decide_eq_true. intros [[Ht Hv] Hd].
  by apply add_idt_entry_installs.
Qed.

Lemma rows_install rows :
  addresses_ok → forallb row_ok rows = true →
  Forall2 (λ step e, installs step e.1 e.2) (step_of <$> rows) (gate_of_row <$> rows).
Proof.
  intros Ha. induction rows as [|r rows IH]; cbn; [constructor|].
  rewrite andb_true_iff. intros [Hr Hrs]. constructor; [by apply row_installs|by apply IH].
Qed.

Lemma install_syscall_handlers_ok s :
  addresses_ok → length (idt s) = 2048%nat →
  ∃ s', install_syscall_handlers s = Ok 0 s' ∧ length (idt s') = 2048%nat ∧
    ∀ m, 0 ≤ m < IDT_ENTS → gate (idt s') m = after_installs (idt s) (gate_of_row <$> syscall_rows) m.
Proof.
  intros Ha Hl. change install_syscall_handlers with (install_all 0 (step_of <$> syscall_rows)).
  apply install_all_ok; [|done..]. by apply rows_install.
Qed.

Lemma install_handlers_ok s :
  addresses_ok → length (idt s) = 2048%nat →
  ∃ s', install_handlers s = Ok 0 s' ∧ length (idt s') = 2048%nat ∧
    ∀ m, 0 ≤ m < IDT_ENTS → gate (idt s') m = after_installs (idt s) (gate_of_row <$> handler_rows) m.
Proof.
  intros Ha Hl. change install_handlers with
    (install_all 0 (initialize_timer :: install_keyboard_handler :: (step_of <$> drop 2 handler_rows))).
  apply install_all_ok; [|done..].
  change (gate_of_row <$> handler_rows) with
    (gate_of_row (TIMER_IDT_ENTRY, timer_handler, INTERRUPT_GATE, KERNEL_DPL) ::
     gate_of_row (KEY_IDT_ENTRY, keyboard_handler, TRAP_GATE, KERNEL_DPL) ::
     (gate_of_row <$> drop 2 handler_rows)).
  constructor; [|constructor; [|by apply rows_install]].
  - apply initialize_timer_installs.
    by apply (row_installs (TIMER_IDT_ENTRY, timer_handler, INTERRUPT_GATE, KERNEL_DPL)).
  - apply install_keyboard_installs.
    by apply (row_installs (KEY_IDT_ENTRY, keyboard_handler, TRAP_GATE, KERNEL_DPL)).
Qed.

(** The exceptions of the processor and the entry points written for them, the
    overflow, undefined-opcode and stack-fault vectors apart. *)
Definition exception_vectors : list (Z * handler) :=
   [(IDT_DE, divide_error_handler); (IDT_DB, debug_exception_handler);
    (IDT_NMI, non_maskable_interrupt_handler); (IDT_BP, breakpoint_handler);
    (IDT_BR, bound_range_handler); (IDT_NM, no_math_coprocessor_handler);
    (IDT_CSO, cso_handler); (IDT_TS, invalid_tss_handler); (IDT_NP, snp_handler);
    (IDT_GP, gpf_handler); (IDT_PF, page_fault_handler); (IDT_MF, math_fault_handler);
    (IDT_AC, alignment_check_handler); (IDT_MC, machine_check_handler);
    (IDT_XF, floating_point_exp_handler)].

(** ** Properties *)

(** An entry written by [add_idt_entry] is read back by the processor as a
    present gate to the handler, in the kernel's code segment, of the type and
    privilege level asked for; every other entry of the table stays as it was. *)
Theorem idt_entry_round_trip h n type dpl s :
  word (handler_addr h) → type = TRAP_GATE ∨ type = INTERRUPT_GATE → 0 ≤ n < IDT_ENTS →
  0 ≤ dpl < 4 → length (idt s) = 2048%nat →
  ∃ s', add_idt_entry h n type dpl s = Ok 0 s' ∧
    gate (idt s') n = Some (gate_for h type dpl) ∧
    ∀ m, 0 ≤ m < IDT_ENTS → m ≠ n → gate (idt s') m = gate (idt s) m.
Proof.
  intros Ha Ht Hn Hd Hl. destruct (add_idt_entry_installs h n type dpl Ha Ht Hn Hd s Hl)
    as (s' & Hrun & _ & Hg). exists s'. split_and!; [done| |].
  - by rewrite Hg, decide_True.
  - intros m Hm Hne. by rewrite Hg, decide_False.
Qed.

(** [install_handlers] installs the handler of every exception in
    [exception_vectors], the timer as an interrupt gate and the keyboard, all
    for the kernel only; but the overflow vector gets the undefined-opcode
    handler, and the undefined-opcode and stack-fault vectors are left as they
    were. *)
Theorem install_handlers_table s :
  addresses_ok → length (idt s) = 2048%nat →
  ∃ s', install_handlers s = Ok 0 s' ∧
    Forall (λ '(v, h), gate (idt s') v = Some (gate_for h TRAP_GATE KERNEL_DPL)) exception_vectors ∧
    gate (idt s') TIMER_IDT_ENTRY = Some (gate_for timer_handler INTERRUPT_GATE KERNEL_DPL) ∧
    gate (idt s') KEY_IDT_ENTRY = Some (gate_for keyboard_handler TRAP_GATE KERNEL_DPL) ∧
    gate (idt s') IDT_OF = Some (gate_for undefined_opcode_handler TRAP_GATE KERNEL_DPL) ∧
    gate (idt s') IDT_UD = gate (idt s) IDT_UD ∧ gate (idt s') IDT_SS = gate (idt s) IDT_SS.
Proof.
  intros Ha Hl. destruct (install_handlers_ok s Ha Hl) as (s' & Hrun & _ & Hg).
  exists s'. split; [done|]. split.
  - unfold exception_vectors. repeat (constructor; [rewrite Hg by zconst; done|]).
    constructor.
  - by split_and!; rewrite Hg by zconst.
Qed.

(** The vectors that user code may raise. *)
Definition user_callable (t : list Z) (v : Z) : Prop := g_dpl <$> gate t v = Some USER_DPL.

Definition syscall_vectors : list Z := (λ r : row, r.1.1.1) <$> syscall_rows.

Lemma last_gate_dpl entries m g :
  last_gate entries m = Some g → ∃ n, (n, g) ∈ entries ∧ n = m.
Proof.
  induction entries as [|[n g'] entries IH]; cbn; [done|].
  destruct (last_gate entries m) as [g''|] eqn:E.
  - intros [= ->]. destruct (IH eq_refl) as (k & Hk & ->). exists m. split; [by right|done].
  - case_decide; [|done]. intros [= ->]. exists n. split; [left|done].
Qed.

Lemma last_gate_None entries m :
  last_gate entries m = None ↔ Forall (λ e, e.1 ≠ m) entries.
Proof.
  induction entries as [|[n g] entries IH]; cbn; [split; [constructor|done]|].
  rewrite Forall_cons, <- IH. cbn. destruct (last_gate entries m); [naive_solver|].
  case_decide; naive_solver.
Qed.

(** C34. After both installations on a table with no gate for user code, user
    code can raise exactly the system-call vectors, and each of them leads to
    its own handler. *)
Theorem user_gates_are_syscalls s :
  addresses_ok → length (idt s) = 2048%nat →
  (∀ v, 0 ≤ v < IDT_ENTS → ¬ user_callable (idt s) v) →
  ∃ s1 s2, install_handlers s = Ok 0 s1 ∧ install_syscall_handlers s1 = Ok 0 s2 ∧
    (∀ v, 0 ≤ v < IDT_ENTS → user_callable (idt s2) v ↔ v ∈ syscall_vectors) ∧
    Forall (λ '(v, h, type, dpl), gate (idt s2) v = Some (gate_for h type dpl)) syscall_rows.
Proof.
  intros Ha Hl Hno. destruct (install_handlers_ok s Ha Hl) as (s1 & Hrun1 & Hl1 & Hg1).
  destruct (install_syscall_handlers_ok s1 Ha Hl1) as (s2 & Hrun2 & _ & Hg2).
  exists s1, s2. split_and!; [done..| |].
  - intros v Hv. unfold user_callable. rewrite Hg2 by done. unfold after_installs.
    destruct (last_gate (gate_of_row <$> syscall_rows) v) as [g|] eqn:E.
    + destruct (last_gate_dpl _ _ _ E) as (n & Hin & ->).
      apply list_elem_of_fmap in Hin as ([[[n h] ty] d] & Hgr & Hin). cbn in Hgr.
      injection Hgr as <- ->. split; intros _.
      * apply list_elem_of_fmap. by eexists (v, h, ty, d).
      * cbn. f_equal. assert (Forall (λ r : row, r.2 = USER_DPL) syscall_rows) as Hall
          by (unfold syscall_rows; repeat constructor).
        rewrite Forall_forall in Hall. by apply (Hall _ Hin).
    + rewrite Hg1 by done. unfold after_installs. split.
      * destruct (last_gate (gate_of_row <$> handler_rows) v) as [g|] eqn:E1.
        -- destruct (last_gate_dpl _ _ _ E1) as (n & Hin & ->).
           apply list_elem_of_fmap in Hin as ([[[n h] ty] d] & Hgr & Hin). cbn in Hgr.
           injection Hgr as <- ->. assert (Forall (λ r : row, r.2 = KERNEL_DPL) handler_rows) as Hall
             by (unfold handler_rows; repeat constructor).
           rewrite Forall_forall in Hall. apply Hall in Hin. cbn in *. by rewrite Hin.
        -- intros Hu. by apply Hno in Hu.
      * intros Hin. apply last_gate_None in E. rewrite Forall_forall in E.
        apply list_elem_of_fmap in Hin as (r & -> & Hin).
        exfalso. apply (E (gate_of_row r)); [by apply list_elem_of_fmap_2|].
        by destruct r as [[[? ?] ?] ?].
  - unfold syscall_rows. repeat (constructor; [rewrite Hg2 by zconst; done|]).
    constructor.
Qed.

End theorems.

(** ** Instances *)
#[export] Instance demo_link : Linked := {
  handler_addr _ := 0x00101234;
  stack_junk := 21;
}.

Lemma demo_addresses : addresses_ok.
Proof. intros h. unfold word. cbn. lia. Qed.

Definition demo_irq : irq :=
  mk_irq (replicate 2048 0) [] 0 (mk_cond 0 [] (mk_mutex 0 [])) (mk_mutex 0 []).

Lemma demo_irq_len : length (idt demo_irq) = 2048%nat.
Proof. apply length_replicate. Qed.

Lemma idt_entry_round_trip_witness :
  ∃ s', add_idt_entry page_fault_handler IDT_PF TRAP_GATE KERNEL_DPL demo_irq = Ok 0 s' ∧
    gate (idt s') 14 = Some (mk_gate 0x00101234 0x10 15 0 1).
Proof.
  destruct (idt_entry_round_trip page_fault_handler IDT_PF TRAP_GATE KERNEL_DPL demo_irq
    (demo_addresses _)) as (s' & H1 & H2 & _);
    [left; reflexivity|zconst|zconst|exact demo_irq_len|].
  exists s'. split; [exact H1|exact H2].
Defined.

Lemma install_handlers_table_witness :
  ∃ s', install_handlers demo_irq = Ok 0 s' ∧
    gate (idt s') 4 = Some (gate_for undefined_opcode_handler TRAP_GATE KERNEL_DPL).
Proof.
  destruct (install_handlers_table demo_irq demo_addresses demo_irq_len)
    as (s' & H1 & _ & _ & _ & H2 & _). exists s'. split; [exact H1|exact H2].
Defined.

Lemma demo_irq_gate v : 0 ≤ v < IDT_ENTS → gate (idt demo_irq) v = Some (mk_gate 0 0 0 0 0).
Proof.
  unfold IDT_ENTS. intros Hv. unfold gate, dword, demo_irq, idt.
  by rewrite !lookup_replicate_2 by lia.
Qed.

Lemma user_gates_are_syscalls_witness :
  ∃ s1 s2, install_handlers demo_irq = Ok 0 s1 ∧ install_syscall_handlers s1 = Ok 0 s2 ∧
    ¬ user_callable (idt s2) IDT_PF.
Proof.
  destruct (user_gates_are_syscalls demo_irq demo_addresses demo_irq_len) as (s1 & s2 & H1 & H2 & H3 & _).
  { intros v Hv Hu. unfold user_callable in Hu. rewrite demo_irq_gate in Hu by exact Hv. discriminate Hu. }
  exists s1, s2. split; [exact H1|]. split; [exact H2|].
  rewrite H3 by zconst. unfold syscall_vectors, syscall_rows. cbn.
  rewrite !elem_of_cons. intros Hin. repeat (destruct Hin as [Hin|Hin]; [discriminate Hin|]).
  apply elem_of_nil in Hin. exact Hin.
Defined.
