(* ===== verification/Sched.v ===== *)
(** * The scheduler (kern/core/scheduler.c, context.c, sleep.c)

    Threads are named by their id, which stands for the address of their
    [thread_struct].  The run queue and the sleep queue are the sequences of
    threads that their lists hold (DList.v shows that the list operations are
    the sequence operations); putting a thread into a queue whose link field it
    already uses would corrupt both lists, and is a bad access here.

    The invariant [sched_ok] says what the queues mean: a thread is in the run
    queue exactly when it is runnable, the running thread is the current one,
    and the sleepers are waiting and sorted by wake-up time. *)

From S2P Require Import Prelude Locks FrameAlloc Paging.

(** ** kern/inc/core/thread.h *)
Definition RUNNING : Z := 0.
Definition RUNNABLE : Z := 1.
Definition WAITING : Z := 2.
Definition EXITED : Z := 3.
Definition DESCHEDULED : Z := 4.

Record thread_struct : Type := mk_thread {
  parent_task : Z;
  k_stack_base : Z;
  cur_esp : Z;
  cur_ebp : Z;
  status : Z;
  wake_time : Z;
}.

(** The static variables of scheduler.c and sleep.c, the threads, the page
    directory of each task, the tick counter of timer.c and the registers that
    a switch changes.  [sleep_hidden] says that [sleeping_threads] is NULL. *)
Record sched : Type := mk_sched {
  threads : gmap Z thread_struct;
  pdbrs : gmap Z Z;
  curr_thread : option Z;
  runnable_threads : list Z;
  sleeping_threads : list Z;
  sleep_hidden : bool;
  sleep_list_mutex : mutex_t;
  idle_thread : Z;
  ticks : Z;
  interrupts : bool;
  pd_reg : Z;
  esp0 : Z;
  esp : Z;
  ebp : Z;
}.

Definition set_threads v s := mk_sched v (pdbrs s) (curr_thread s) (runnable_threads s)
  (sleeping_threads s) (sleep_hidden s) (sleep_list_mutex s) (idle_thread s) (ticks s)
  (interrupts s) (pd_reg s) (esp0 s) (esp s) (ebp s).
Definition set_curr v s := mk_sched (threads s) (pdbrs s) v (runnable_threads s)
  (sleeping_threads s) (sleep_hidden s) (sleep_list_mutex s) (idle_thread s) (ticks s)
  (interrupts s) (pd_reg s) (esp0 s) (esp s) (ebp s).
Definition set_runq v s := mk_sched (threads s) (pdbrs s) (curr_thread s) v
  (sleeping_threads s) (sleep_hidden s) (sleep_list_mutex s) (idle_thread s) (ticks s)
  (interrupts s) (pd_reg s) (esp0 s) (esp s) (ebp s).
Definition set_sleepq v s := mk_sched (threads s) (pdbrs s) (curr_thread s) (runnable_threads s)
  v (sleep_hidden s) (sleep_list_mutex s) (idle_thread s) (ticks s)
  (interrupts s) (pd_reg s) (esp0 s) (esp s) (ebp s).
Definition set_hidden v s := mk_sched (threads s) (pdbrs s) (curr_thread s) (runnable_threads s)
  (sleeping_threads s) v (sleep_list_mutex s) (idle_thread s) (ticks s)
  (interrupts s) (pd_reg s) (esp0 s) (esp s) (ebp s).
Definition set_sleep_mutex v s := mk_sched (threads s) (pdbrs s) (curr_thread s)
  (runnable_threads s) (sleeping_threads s) (sleep_hidden s) v (idle_thread s) (ticks s)
  (interrupts s) (pd_reg s) (esp0 s) (esp s) (ebp s).
Definition set_tick v s := mk_sched (threads s) (pdbrs s) (curr_thread s) (runnable_threads s)
  (sleeping_threads s) (sleep_hidden s) (sleep_list_mutex s) (idle_thread s) v
  (interrupts s) (pd_reg s) (esp0 s) (esp s) (ebp s).
Definition set_if v s := mk_sched (threads s) (pdbrs s) (curr_thread s) (runnable_threads s)
  (sleeping_threads s) (sleep_hidden s) (sleep_list_mutex s) (idle_thread s) (ticks s)
  v (pd_reg s) (esp0 s) (esp s) (ebp s).
Definition set_regs pd e0 e b s := mk_sched (threads s) (pdbrs s) (curr_thread s)
  (runnable_threads s) (sleeping_threads s) (sleep_hidden s) (sleep_list_mutex s) (idle_thread s)
  (ticks s) (interrupts s) pd e0 e b.

Definition set_stack e b t := mk_thread (parent_task t) (k_stack_base t) e b (status t) (wake_time t).
Definition with_status v t :=
  mk_thread (parent_task t) (k_stack_base t) (cur_esp t) (cur_ebp t) v (wake_time t).
Definition with_wake v t :=
  mk_thread (parent_task t) (k_stack_base t) (cur_esp t) (cur_ebp t) (status t) v.

(** ** Accesses *)
Definition the_thread (t : Z) : M sched thread_struct := s ← get; deref (threads s !! t).

Definition upd_thread (t : Z) (f : thread_struct → thread_struct) : M sched unit :=
  x ← the_thread t;
  modify (λ s, set_threads (<[t := f x]> (threads s)) s).

Definition set_status (t v : Z) : M sched unit := upd_thread t (with_status v).

Definition disable_interrupts : M sched unit := modify (set_if false).
Definition enable_interrupts : M sched unit := modify (set_if true).

(** [add_to_tail(&thr->runq_link, &runnable_threads)]. *)
Definition runq_enqueue (t : Z) : M sched unit :=
  s ← get;
  if decide (t ∈ runnable_threads s) then halt BadAccess
  else modify (set_runq (runnable_threads s ++ [t])).

(** ** kern/core/scheduler.c and sleep.c *)

(** [list] is the result of [smalloc(sizeof(list_head))]. *)
Definition init_sleeping_threads (list : Z) : M sched unit :=
  modify (set_sleep_mutex mutex_init) ;;
  kernel_assert (bool_decide (list ≠ NULL)) ;;
  modify (set_hidden false) ;;
  modify (set_sleepq []).

Definition init_scheduler (list : Z) : M sched unit :=
  modify (set_runq []) ;;
  init_sleeping_threads list.

Definition runq_get_head : M sched (option Z) :=
  s ← get;
  match runnable_threads s with
  | [] => mret None
  | t :: rest => modify (set_runq rest) ;; mret (Some t)
  end.

(** [int curr_ticks = total_ticks()]. *)
Definition curr_ticks : M sched Z := s ← get; mret (s32 (ticks s)).

Definition get_sleeping_thread : M sched (option Z) :=
  s ← get;
  if sleep_hidden s then mret None
  else match sleeping_threads s with
       | [] => mret None
       | t :: rest =>
           now ← curr_ticks;
           thr ← the_thread t;
           if decide (wake_time thr < now) then
             modify (set_sleepq rest) ;;
             mret (Some t)
           else mret None
       end.

Definition next_thread : M sched (option Z) :=
  sleeping_thread ← get_sleeping_thread;
  match sleeping_thread with
  | Some t => mret (Some t)
  | None => runq_get_head
  end.

Definition runq_add_thread (t : Z) : M sched unit :=
  disable_interrupts ;;
  runq_enqueue t ;;
  enable_interrupts.

Definition runq_add_thread_interruptible (t : Z) : M sched unit := runq_enqueue t.

Definition get_curr_thread : M sched (option Z) := gets curr_thread.

Definition get_curr_task : M sched Z :=
  s ← get;
  c ← deref (curr_thread s);
  thr ← the_thread c;
  mret (parent_task thr).

Definition set_running_thread (t : Z) : M sched unit := modify (set_curr (Some t)).

(** ** kern/core/context.c *)

(** [update_stack] saves %esp and %ebp in the thread that is left and loads
    those of the next one. *)
Definition switch_to_thread (curr : option Z) (next : option Z) : M sched unit :=
  match next with
  | None => mret tt
  | Some next =>
      thr ← the_thread next;
      s ← get;
      pd ← deref (pdbrs s !! parent_task thr);
      modify (λ s, set_regs pd (esp0 s) (esp s) (ebp s) s) ;;
      modify (λ s, set_regs (pd_reg s) (k_stack_base thr) (esp s) (ebp s) s) ;;
      set_running_thread next ;;
      set_status next RUNNING ;;
      thr ← the_thread next;
      (match curr with
       | Some c => s ← get; upd_thread c (set_stack (esp s) (ebp s))
       | None => mret tt
       end) ;;
      modify (λ s, set_regs (pd_reg s) (esp0 s) (cur_esp thr) (cur_ebp thr) s)
  end.

(** [curr->id == idle->id || curr->status == RUNNING] when there is a current
    thread; ids are compared after the thread is read. *)
Definition keeps_running (curr : option Z) : M sched bool :=
  match curr with
  | None => mret false
  | Some c =>
      s ← get;
      thr ← the_thread c;
      mret (bool_decide (c = idle_thread s) || bool_decide (status thr = RUNNING))
  end.

Definition requeue (curr : option Z) : M sched unit :=
  match curr with
  | None => mret tt
  | Some c =>
      s ← get;
      thr ← the_thread c;
      if decide (status thr = RUNNING ∧ c ≠ idle_thread s) then
        set_status c RUNNABLE ;;
        runq_add_thread_interruptible c
      else mret tt
  end.

Definition context_switch : M sched unit :=
  disable_interrupts ;;
  s ← get;
  let idle := idle_thread s in
  thr ← next_thread;
  curr ← get_curr_thread;
  stay ← (match thr with
          | None => keeps_running curr
          | Some _ => mret false
          end);
  if stay : bool then enable_interrupts
  else
    requeue curr ;;
    switch_to_thread curr (Some (default idle thr)) ;;
    enable_interrupts.

(** The timer's callback (fault_handlers.c) and the tick that leads to it. *)
Definition tickback : M sched unit := context_switch.
Definition timer_tick : M sched unit :=
  modify (λ s, set_tick (u32 (ticks s + 1)) s) ;;
  tickback.

(** ** kern/core/sleep.c, going to sleep *)

(** The position of a new wake-up time: before the first thread that wakes
    later. *)
Fixpoint insert_sleeper (ts : gmap Z thread_struct) (t wake : Z) (q : list Z) : option (list Z) :=
  match q with
  | [] => Some [t]
  | u :: rest =>
      thr ← ts !! u;
      if decide (wake < wake_time thr) then Some (t :: u :: rest)
      else (cons u) <$> insert_sleeper ts t wake rest
  end.

Definition schedule_sleep (n : Z) : M sched unit :=
  thr ← get_curr_thread;
  thr ← deref thr;
  now ← curr_ticks;
  if decide (s32 (now + n) < now) then mret tt
  else
    upd_thread thr (with_wake (s32 (now + n))) ;;
    zoom sleep_list_mutex set_sleep_mutex mutex_lock ;;
    modify (set_hidden true) ;;
    s ← get;
    q ← deref (insert_sleeper (threads s) thr (s32 (now + n)) (sleeping_threads s));
    modify (set_sleepq q) ;;
    zoom sleep_list_mutex set_sleep_mutex mutex_unlock ;;
    disable_interrupts ;;
    modify (set_hidden false) ;;
    set_status thr WAITING ;;
    context_switch.

Definition do_sleep (n : Z) : M sched Z :=
  if decide (n = 0) then mret 0
  else if decide (n < 0) then mret ERR_INVAL
  else schedule_sleep n ;; mret 0.

(** ** The invariant *)
Definition st (s : sched) (t : Z) : option Z := status <$> threads s !! t.
Definition wk (s : sched) (t : Z) : option Z := wake_time <$> threads s !! t.
Definition pt (s : sched) (t : Z) : option Z := parent_task <$> threads s !! t.
Definition kb (s : sched) (t : Z) : option Z := k_stack_base <$> threads s !! t.

(** The sleepers of [q] in the order of their wake-up times. *)
Fixpoint sorted_wake (s : sched) (q : list Z) : Prop :=
  match q with
  | [] => True
  | t :: rest =>
      (∀ u, u ∈ rest → ∃ a b, wk s t = Some a ∧ wk s u = Some b ∧ a ≤ b) ∧ sorted_wake s rest
  end.

Record sched_ok (s : sched) : Prop := {
  so_curr c : curr_thread s = Some c → is_Some (st s c);
  so_idle : is_Some (st s (idle_thread s));
  so_idle_out : idle_thread s ∉ runnable_threads s ++ sleeping_threads s;
  so_nodup : NoDup (runnable_threads s ++ sleeping_threads s);
  so_runq t : t ∈ runnable_threads s → st s t = Some RUNNABLE;
  so_runnable t : st s t = Some RUNNABLE → t ≠ idle_thread s → t ∈ runnable_threads s;
  so_running t : st s t = Some RUNNING → t ≠ idle_thread s → curr_thread s = Some t;
  so_sleep t : t ∈ sleeping_threads s → st s t = Some WAITING;
  so_sorted : sorted_wake s (sleeping_threads s);
  so_task t p : pt s t = Some p → is_Some (pdbrs s !! p);
}.

(** The thread that the scheduler takes, and the queues it leaves. *)
Inductive choice : Type :=
  | Sleeper (t : Z) (rest : list Z)
  | Head (t : Z) (rest : list Z)
  | Nobody.

Definition ready (s : sched) (t : Z) : bool :=
  negb (sleep_hidden s) &&
  match wk s t with Some w => bool_decide (w < s32 (ticks s)) | None => false end.

Definition choose (s : sched) : choice :=
  match sleeping_threads s with
  | t :: rest => if ready s t then Sleeper t rest
                 else match runnable_threads s with u :: rest => Head u rest | [] => Nobody end
  | [] => match runnable_threads s with u :: rest => Head u rest | [] => Nobody end
  end.

Lemma st_Some s t v : st s t = Some v → ∃ x, threads s !! t = Some x ∧ status x = v.
Proof. unfold st. destruct (threads s !! t) as [x|]; [|done]. intros [= <-]. by exists x. Qed.

Lemma st_is_Some s t : is_Some (st s t) → ∃ x, threads s !! t = Some x.
Proof. intros [v Hv]. destruct (st_Some _ _ _ Hv) as (x & ? & _). by exists x. Qed.

(** [s'] differs from [s] in the status of the threads, by [f], and in fields
    that the invariant does not read. *)
Record restatus (s s' : sched) (f : Z → option Z → option Z) : Prop := {
  rs_st t : st s' t = f t (st s t);
  rs_wk t : wk s' t = wk s t;
  rs_pt t : pt s' t = pt s t;
  rs_pd : pdbrs s' = pdbrs s;
  rs_idle : idle_thread s' = idle_thread s;
  rs_ticks : ticks s' = ticks s;
  rs_hidden : sleep_hidden s' = sleep_hidden s;
  rs_mutex : sleep_list_mutex s' = sleep_list_mutex s;
  rs_kb t : kb s' t = kb s t;
}.

Definition put (t v : Z) (u : Z) (old : option Z) : option Z :=
  if decide (u = t) then Some v else old.

Lemma upd_thread_ok t f x s :
  threads s !! t = Some x →
  upd_thread t f s = Ok tt (set_threads (<[t := f x]> (threads s)) s).
Proof.
  intros Hx. unfold upd_thread, the_thread. erewrite bind_ok by (rewrite bind_get, Hx; done). done.
Qed.

Lemma lookup_upd {A} (g : thread_struct → A) s t x f u :
  threads s !! t = Some x →
  g <$> (<[t := f x]> (threads s) !! u) =
  if decide (u = t) then Some (g (f x)) else g <$> threads s !! u.
Proof.
  intros Hx. case_decide; subst; [by rewrite lookup_insert_eq|by rewrite lookup_insert_ne].
Qed.

Lemma set_status_ok t v s :
  is_Some (st s t) →
  ∃ s', set_status t v s = Ok tt s' ∧ restatus s s' (put t v) ∧
    curr_thread s' = curr_thread s ∧ runnable_threads s' = runnable_threads s ∧
    sleeping_threads s' = sleeping_threads s ∧ interrupts s' = interrupts s.
Proof.
  intros Hs. destruct (st_is_Some _ _ Hs) as (x & Hx). unfold set_status.
  rewrite (upd_thread_ok _ _ x) by done. eexists. split; [done|]. split_and!; try done.
  split; try done; intros u; unfold st, wk, pt, kb; cbn;
    rewrite (lookup_upd _ s t x (with_status v)) by done; unfold put;
    case_decide; subst; rewrite ?Hx; done.
Qed.

Lemma save_stack_ok c e b s :
  is_Some (st s c) →
  ∃ m, upd_thread c (set_stack e b) s = Ok tt (set_threads m s) ∧
    restatus s (set_threads m s) (λ _ old, old).
Proof.
  intros Hs. destruct (st_is_Some _ _ Hs) as (x & Hx).
  rewrite (upd_thread_ok _ _ x) by done. eexists. split; [done|].
  split; try done; intros u; unfold st, wk, pt, kb; cbn;
    rewrite (lookup_upd _ s c x (set_stack e b)) by done; case_decide; subst; rewrite ?Hx; done.
Qed.

(** The switch: the next thread is running and current. *)
Lemma switch_to_thread_ok s curr t :
  is_Some (st s t) → (∀ c, curr = Some c → is_Some (st s c)) →
  (∀ t p, pt s t = Some p → is_Some (pdbrs s !! p)) →
  ∃ s', switch_to_thread curr (Some t) s = Ok tt s' ∧ restatus s s' (put t RUNNING) ∧
    curr_thread s' = Some t ∧ runnable_threads s' = runnable_threads s ∧
    sleeping_threads s' = sleeping_threads s ∧ interrupts s' = interrupts s ∧
    Some (esp0 s') = kb s t ∧
    Some (esp s') = cur_esp <$> threads s !! t ∧ Some (ebp s') = cur_ebp <$> threads s !! t ∧
    ∃ p, pt s t = Some p ∧ pdbrs s !! p = Some (pd_reg s').
Proof.
  intros Ht Hc Hp. destruct (st_is_Some _ _ Ht) as (x & Hx).
  assert (pt s t = Some (parent_task x)) as Hpt by (unfold pt; by rewrite Hx).
  destruct (Hp _ _ Hpt) as (pd & Hpd).
  unfold switch_to_thread, the_thread. erewrite bind_ok by (rewrite bind_get, Hx; done).
  rewrite bind_get, Hpd. cbn [deref]. rewrite bind_mret, !bind_modify.
  unfold set_running_thread. rewrite bind_modify.
  set (s1 := set_curr (Some t) _). assert (threads s1 = threads s) as E1 by done.
  unfold set_status. rewrite (bind_ok _ _ _ _ _ (upd_thread_ok t _ x s1 Hx)).
  set (s2 := set_threads _ s1). assert (threads s2 = <[t := with_status RUNNING x]> (threads s)) as E2 by done.
  erewrite bind_ok by (rewrite bind_get, E2, lookup_insert_eq; done).
  assert (∃ s3, match curr with
      | Some c => s ← get; upd_thread c (set_stack (esp s) (ebp s))
      | None => mret tt end s2 = Ok tt s3 ∧ restatus s s3 (put t RUNNING) ∧
    curr_thread s3 = Some t ∧ runnable_threads s3 = runnable_threads s ∧
    sleeping_threads s3 = sleeping_threads s ∧ interrupts s3 = interrupts s ∧
    esp0 s3 = k_stack_base x ∧ pd_reg s3 = pd) as (s3 & Hrun3 & Hrs & E3 & E4 & E5 & E6 & E7 & E8).
  { assert (restatus s s2 (put t RUNNING)) as Hrs2.
    { split; try done; intros u; unfold st, wk, pt, kb; rewrite E2;
        rewrite (lookup_upd _ s t x (with_status RUNNING)) by done; unfold put;
        case_decide; subst; rewrite ?Hx; done. }
    destruct curr as [c|]; [|by exists s2]. rewrite bind_get.
    destruct (save_stack_ok c (esp s2) (ebp s2) s2) as (m & -> & Hrs3).
    { rewrite (rs_st _ _ _ Hrs2). unfold put. case_decide; [done|]. by apply Hc. }
    exists (set_threads m s2). split_and!; try done.
    destruct Hrs2 as [H1 H2 H3 H4 H5 H6 H7 H8 H9], Hrs3 as [G1 G2 G3 G4 G5 G6 G7 G8 G9].
    split; congruence. }
  rewrite (bind_ok _ _ _ _ _ Hrun3). eexists. split; [done|].
  split_and!; cbn; try done; unfold kb; rewrite ?Hx; cbn; try congruence.
  - by destruct Hrs.
  - exists (parent_task x). split; congruence.
Qed.

(** The thread that a switch puts back into the run queue. *)
Definition leaving (s : sched) : list Z :=
  match curr_thread s with
  | Some c => if decide (st s c = Some RUNNING ∧ c ≠ idle_thread s) then [c] else []
  | None => []
  end.

Lemma elem_of_leaving s u :
  u ∈ leaving s ↔ curr_thread s = Some u ∧ st s u = Some RUNNING ∧ u ≠ idle_thread s.
Proof.
  unfold leaving. destruct (curr_thread s) as [c|]; [|set_solver].
  case_decide; rewrite ?list_elem_of_singleton, ?elem_of_nil; naive_solver.
Qed.

Lemma NoDup_leaving s : NoDup (leaving s).
Proof.
  unfold leaving. destruct (curr_thread s); [|constructor]. case_decide; [apply NoDup_singleton|constructor].
Qed.

Lemma sorted_wake_ext s s' q : (∀ t, wk s' t = wk s t) → sorted_wake s q → sorted_wake s' q.
Proof.
  intros E. induction q as [|t q IH]; cbn; [done|]. intros [H1 H2]. split; [|by apply IH].
  intros u Hu. rewrite !E. by apply H1.
Qed.

Definition switched_status (s : sched) (t u : Z) (old : option Z) : option Z :=
  if decide (u = t) then Some RUNNING
  else if decide (u ∈ leaving s) then Some RUNNABLE else old.

(** The invariant after a switch to [t], taken from one of the queues or idle. *)
Lemma sched_ok_switch s s' t rq sq :
  sched_ok s → restatus s s' (switched_status s t) →
  curr_thread s' = Some t → runnable_threads s' = rq ++ leaving s → sleeping_threads s' = sq →
  t = idle_thread s ∨ t ∈ runnable_threads s ++ sleeping_threads s →
  rq ⊆ runnable_threads s → runnable_threads s ⊆ t :: rq → sq ⊆ sleeping_threads s →
  t ∉ rq ++ sq → NoDup (rq ++ sq) → sorted_wake s sq →
  sched_ok s'.
Proof.
  intros Hok [Hst Hwk Hpt Hpd Hidle Htk Hhid Hmx Hkb] Hcur Hrq Hsq Ht Hsub Hsup Hssub Hnt Hnd Hsort.
  assert (∀ u, u ∈ leaving s → u ≠ t ∧ u ∉ rq ∧ u ∉ sq) as Hlv.
  { intros u (Hc & Hr & Hi)%elem_of_leaving.
    assert (u ∉ runnable_threads s) by (intros Hin; apply (so_runq s Hok) in Hin; by rewrite Hr in Hin).
    assert (u ∉ sleeping_threads s) by (intros Hin; apply (so_sleep s Hok) in Hin; by rewrite Hr in Hin).
    split_and!; [|set_solver..]. intros ->. destruct Ht as [->|Hin]; [done|]. set_solver. }
  assert (st s' t = Some RUNNING) as Htr.
  { rewrite Hst. unfold switched_status. by rewrite decide_True. }
  split; rewrite ?Hidle, ?Hrq, ?Hsq, ?Hpd.
  - intros c. rewrite Hcur. intros [= <-]. by rewrite Htr.
  - rewrite Hst. unfold switched_status. repeat case_decide; try done. apply (so_idle s Hok).
  - pose proof (so_idle_out s Hok). rewrite !elem_of_app, elem_of_leaving. set_solver.
  - apply NoDup_app in Hnd as (Hn1 & Hn2 & Hn3). rewrite !NoDup_app.
    pose proof (NoDup_leaving s). split_and!; try done.
    + intros x Hx Hl. by apply Hlv in Hl as (_ & ? & _).
    + intros x [Hx|Hx]%elem_of_app Hin; [by apply (Hn2 x)|]. by apply Hlv in Hx as (_ & _ & ?).
  - intros u [Hu|Hu]%elem_of_app; rewrite Hst; unfold switched_status.
    + rewrite decide_False by set_solver. case_decide; [done|]. apply (so_runq s Hok). by apply Hsub.
    + rewrite decide_False by (by apply Hlv in Hu as [? _]). by rewrite decide_True.
  - intros u Hu Hne. rewrite Hst in Hu. unfold switched_status in Hu.
    destruct (decide (u = t)); [done|]. rewrite elem_of_app. destruct (decide (u ∈ leaving s)); [by right|].
    left. pose proof (so_runnable s Hok u Hu Hne) as Hin. apply Hsup in Hin. set_solver.
  - intros u Hu Hne. rewrite Hcur. rewrite Hst in Hu. unfold switched_status in Hu.
    destruct (decide (u = t)) as [->|]; [done|]. destruct (decide (u ∈ leaving s)) as [|Hnl]; [done|].
    exfalso. apply Hnl. apply elem_of_leaving. split_and!; [|done..]. by apply (so_running s Hok).
  - intros u Hu. rewrite Hst. unfold switched_status. rewrite !decide_False; [| |set_solver].
    + apply (so_sleep s Hok). by apply Hssub.
    + intros Hl. by apply Hlv in Hl as (_ & _ & ?).
  - by apply (sorted_wake_ext s).
  - intros u p. rewrite Hpt. apply (so_task s Hok).
Qed.

Lemma next_thread_ok s :
  sched_ok s →
  next_thread s = match choose s with
                  | Sleeper t rest => Ok (Some t) (set_sleepq rest s)
                  | Head t rest => Ok (Some t) (set_runq rest s)
                  | Nobody => Ok None s
                  end.
Proof.
  intros Hok. unfold next_thread, get_sleeping_thread, choose.
  assert (∀ s, runq_get_head s = match runnable_threads s with
    | u :: rest => Ok (Some u) (set_runq rest s) | [] => Ok None s end) as Hhead.
  { intros s0. unfold runq_get_head. rewrite bind_get. by destruct (runnable_threads s0). }
  destruct (sleeping_threads s) as [|t rest] eqn:E.
  - erewrite bind_ok by (rewrite bind_get; destruct (sleep_hidden s); rewrite ?E; done).
    rewrite Hhead. by destruct (runnable_threads s).
  - unfold ready. destruct (sleep_hidden s) eqn:Eh.
    + erewrite bind_ok by (rewrite bind_get, Eh; done). cbn. rewrite Hhead. by destruct (runnable_threads s).
    + assert (st s t = Some WAITING) as Hw by (apply (so_sleep s Hok); rewrite E; left).
      apply st_Some in Hw as (x & Hx & _). unfold wk. rewrite Hx. cbn.
      case_bool_decide as Hb.
      * erewrite bind_ok; last first.
        { rewrite bind_get, Eh, E. unfold curr_ticks. erewrite bind_ok by done.
          unfold the_thread. erewrite bind_ok by (rewrite bind_get, Hx; done).
          rewrite decide_True by done. rewrite bind_modify. done. }
        done.
      * erewrite bind_ok; last first.
        { rewrite bind_get, Eh, E. unfold curr_ticks. erewrite bind_ok by done.
          unfold the_thread. erewrite bind_ok by (rewrite bind_get, Hx; done).
          rewrite decide_False by done. done. }
        rewrite Hhead. by destruct (runnable_threads s).
Qed.

Lemma restatus_trans s1 s2 s3 f g :
  restatus s1 s2 f → restatus s2 s3 g → restatus s1 s3 (λ u old, g u (f u old)).
Proof.
  intros [H1 H2 H3 H4 H5 H6 H7 H8 H9] [G1 G2 G3 G4 G5 G6 G7 G8 G9]. split; congruence.
Qed.

Lemma restatus_ext s s' f g :
  (∀ u, f u (st s u) = g u (st s u)) → restatus s s' f → restatus s s' g.
Proof. intros E [H1 H2 H3 H4 H5 H6 H7 H8 H9]. split; try done. intros t. by rewrite H1. Qed.

Lemma requeue_ok s :
  (∀ c, curr_thread s = Some c → is_Some (st s c)) →
  (∀ c, c ∈ leaving s → c ∉ runnable_threads s) →
  ∃ s', requeue (curr_thread s) s = Ok tt s' ∧
    restatus s s' (λ u old, if decide (u ∈ leaving s) then Some RUNNABLE else old) ∧
    curr_thread s' = curr_thread s ∧ runnable_threads s' = runnable_threads s ++ leaving s ∧
    sleeping_threads s' = sleeping_threads s.
Proof.
  intros Hc Hl. unfold requeue.
  destruct (curr_thread s) as [c|] eqn:E.
  2:{ assert (leaving s = []) as El by (unfold leaving; by rewrite E).
      exists s. rewrite El, app_nil_r. by split_and!. }
  destruct (st_is_Some s c) as (x & Hx); [by apply Hc|].
  assert (st s c = Some (status x)) as Hst by (unfold st; by rewrite Hx).
  rewrite bind_get. unfold the_thread. erewrite bind_ok by (rewrite bind_get, Hx; done).
  destruct (decide (st s c = Some RUNNING ∧ c ≠ idle_thread s)) as [Hd|Hd].
  - assert (leaving s = [c]) as El by (unfold leaving; by rewrite E, decide_True).
    rewrite decide_True by (destruct Hd; split; congruence).
    destruct (set_status_ok c RUNNABLE s) as (s1 & Hrun & Hrs & E1 & E2 & E3 & _); [by rewrite Hst|].
    rewrite (bind_ok _ _ _ _ _ Hrun). unfold runq_add_thread_interruptible, runq_enqueue.
    rewrite bind_get, decide_False by (rewrite E2; apply Hl; rewrite El; by apply list_elem_of_singleton).
    eexists. split; [done|]. rewrite El. split_and!; cbn; try congruence.
    destruct Hrs as [H1 H2 H3 H4 H5 H6 H7 H8 H9]. split; try done. intros t.
    change (st s1 t = if decide (t ∈ [c]) then Some RUNNABLE else st s t). rewrite H1. unfold put.
    destruct (decide (t = c)) as [Hp|Hp]; [rewrite decide_True|rewrite decide_False];
      rewrite ?list_elem_of_singleton; done.
  - assert (leaving s = []) as El by (unfold leaving; by rewrite E, decide_False).
    rewrite decide_False by (intros [Ha Hb]; apply Hd; split; congruence).
    exists s. rewrite El, app_nil_r. by split_and!.
Qed.

(** Whether the current thread goes on when there is nothing else to run. *)
Definition stays (s : sched) : bool :=
  match curr_thread s with
  | Some c => bool_decide (c = idle_thread s) || bool_decide (st s c = Some RUNNING)
  | None => false
  end.

Lemma keeps_running_ok s :
  (∀ c, curr_thread s = Some c → is_Some (st s c)) →
  keeps_running (curr_thread s) s = Ok (stays s) s.
Proof.
  intros Hc. unfold keeps_running, stays. destruct (curr_thread s) as [c|] eqn:E; [|done].
  destruct (st_is_Some s c) as (x & Hx); [by apply Hc|].
  rewrite bind_get. unfold the_thread. erewrite bind_ok by (rewrite bind_get, Hx; done).
  unfold mret, M_ret. f_equal. f_equal. apply bool_decide_ext. unfold st. rewrite Hx. cbn.
  split; [by intros ->|by intros [= ->]].
Qed.

(** What a context switch does to the queues and to the current thread. *)
Definition after_switch (s s' : sched) : Prop :=
  match choose s with
  | Sleeper t rest => curr_thread s' = Some t ∧ sleeping_threads s' = rest ∧
      runnable_threads s' = runnable_threads s ++ leaving s
  | Head t rest => curr_thread s' = Some t ∧ sleeping_threads s' = sleeping_threads s ∧
      runnable_threads s' = rest ++ leaving s
  | Nobody => curr_thread s' = (if stays s then curr_thread s else Some (idle_thread s)) ∧
      sleeping_threads s' = sleeping_threads s ∧ runnable_threads s' = []
  end.

Record switched (s s' : sched) : Prop := {
  sw_ok : sched_ok s';
  sw_if : interrupts s' = true;
  sw_queues : after_switch s s';
  sw_status : restatus s s' (λ _ old, old) ∧ curr_thread s' = curr_thread s ∨
    ∃ t, restatus s s' (switched_status s t) ∧ curr_thread s' = Some t ∧
      (t = idle_thread s ∨ t ∈ runnable_threads s ++ sleeping_threads s);
  sw_regs : curr_thread s' = curr_thread s ∨ ∃ t p, curr_thread s' = Some t ∧ pt s t = Some p ∧
    pdbrs s !! p = Some (pd_reg s') ∧ Some (esp0 s') = kb s t;
  sw_running c : curr_thread s' = Some c → c = idle_thread s ∨ st s' c = Some RUNNING;
}.

(** From the choice on. *)
Lemma switch_part s s1 t rq sq :
  sched_ok s → threads s1 = threads s → pdbrs s1 = pdbrs s → curr_thread s1 = curr_thread s →
  idle_thread s1 = idle_thread s → ticks s1 = ticks s → sleep_hidden s1 = sleep_hidden s →
  sleep_list_mutex s1 = sleep_list_mutex s →
  runnable_threads s1 = rq → sleeping_threads s1 = sq →
  t = idle_thread s ∨ t ∈ runnable_threads s ++ sleeping_threads s →
  rq ⊆ runnable_threads s → runnable_threads s ⊆ t :: rq → sq ⊆ sleeping_threads s →
  t ∉ rq ++ sq → NoDup (rq ++ sq) → sorted_wake s sq →
  ∃ s', (requeue (curr_thread s1) ;; switch_to_thread (curr_thread s1) (Some t) ;;
         enable_interrupts) s1 = Ok tt s' ∧
    sched_ok s' ∧ interrupts s' = true ∧ restatus s s' (switched_status s t) ∧
    curr_thread s' = Some t ∧ runnable_threads s' = rq ++ leaving s ∧ sleeping_threads s' = sq ∧
    Some (esp0 s') = kb s t ∧
    ∃ p, pt s t = Some p ∧ pdbrs s !! p = Some (pd_reg s').
Proof.
  intros Hok Eth Epd Ecur Eid Etk Eh Emx Erq Esq Ht Hsub Hsup Hssub Hnt Hnd Hsort.
  assert (∀ u, st s1 u = st s u) as Est by (intros; unfold st; by rewrite Eth).
  assert (∀ u, pt s1 u = pt s u) as Ept by (intros; unfold pt; by rewrite Eth).
  assert (∀ u, wk s1 u = wk s u) as Ewk by (intros; unfold wk; by rewrite Eth).
  assert (∀ u, kb s1 u = kb s u) as Ekb by (intros; unfold kb; by rewrite Eth).
  assert (leaving s1 = leaving s) as Elv.
  { unfold leaving. rewrite Ecur, Eid. destruct (curr_thread s); [by rewrite Est|done]. }
  destruct (requeue_ok s1) as (s2 & Hrun2 & Hrs2 & E2c & E2r & E2s).
  { intros c. rewrite Ecur, Est. apply (so_curr s Hok). }
  { rewrite Elv, Erq. intros c (_ & Hr & _)%elem_of_leaving Hin.
    apply Hsub, (so_runq s Hok) in Hin. by rewrite Hr in Hin. }
  rewrite (bind_ok _ _ _ _ _ Hrun2), Elv in *.
  assert (restatus s s2 (λ u old, if decide (u ∈ leaving s) then Some RUNNABLE else old)) as Hrs02.
  { destruct Hrs2 as [H1 H2 H3 H4 H5 H6 H7 H8 H9].
    split; try congruence; intros u; rewrite ?H1, ?H2, ?H3, ?H9, ?Est; done. }
  assert (∀ u, is_Some (st s u) → is_Some (st s2 u)) as Hsome.
  { intros u Hu. rewrite (rs_st _ _ _ Hrs02). by case_decide. }
  assert (is_Some (st s t)) as Hst.
  { destruct Ht as [->|[Hin|Hin]%elem_of_app]; [apply (so_idle s Hok)| |].
    - by rewrite (so_runq s Hok).
    - by rewrite (so_sleep s Hok). }
  destruct (switch_to_thread_ok s2 (curr_thread s1) t) as
    (s3 & Hrun3 & Hrs3 & E3c & E3r & E3s & _ & E30 & _ & _ & p & Hp & Hpd); [by apply Hsome| | |].
  { intros c. rewrite Ecur. intros Hc. apply Hsome. by apply (so_curr s Hok). }
  { intros u q. rewrite (rs_pt _ _ _ Hrs02), (rs_pd _ _ _ Hrs02). apply (so_task s Hok). }
  rewrite (bind_ok _ _ _ _ _ Hrun3). eexists. split; [done|].
  assert (restatus s (set_if true s3) (switched_status s t)) as Hrs.
  { apply (restatus_ext _ _ (λ u old, put t RUNNING u
      (if decide (u ∈ leaving s) then Some RUNNABLE else old))); [done|].
    pose proof (restatus_trans _ _ _ _ _ Hrs02 Hrs3) as []. by split. }
  split_and!; try done.
  - apply (sched_ok_switch s _ t rq sq Hok Hrs); try done; cbn; congruence.
  - cbn. congruence.
  - cbn. congruence.
  - cbn. by rewrite <- (rs_kb _ _ _ Hrs02).
  - exists p. by rewrite <- (rs_pt _ _ _ Hrs02), <- (rs_pd _ _ _ Hrs02).
Qed.

Lemma sched_ok_if b s : sched_ok s → sched_ok (set_if b s).
Proof. intros []. split; try done. by apply (sorted_wake_ext s). Qed.

Lemma choose_cases s :
  sched_ok s →
  match choose s with
  | Sleeper t rest => sleeping_threads s = t :: rest ∧ ready s t = true
  | Head t rest => runnable_threads s = t :: rest
  | Nobody => runnable_threads s = []
  end.
Proof.
  intros _. unfold choose. destruct (sleeping_threads s) as [|t rest].
  - by destruct (runnable_threads s).
  - destruct (ready s t) eqn:E; [done|]. by destruct (runnable_threads s).
Qed.

Lemma sorted_wake_tail s t q : sorted_wake s (t :: q) → sorted_wake s q.
Proof. by intros [_ ?]. Qed.

Lemma stays_same s s' : st s' = st s → curr_thread s' = curr_thread s →
  idle_thread s' = idle_thread s → stays s' = stays s ∧ leaving s' = leaving s.
Proof. intros E1 E2 E3. unfold stays, leaving. by rewrite E1, E2, E3. Qed.

Lemma context_switch_ok s :
  sched_ok s → ∃ s', context_switch s = Ok tt s' ∧ switched s s'.
Proof.
  intros Hok. pose proof (sched_ok_if false s Hok) as Hok0. set (s0 := set_if false s) in *.
  unfold context_switch, disable_interrupts. rewrite bind_modify. fold s0. rewrite bind_get.
  pose proof (next_thread_ok s0 Hok0) as Hnext.
  pose proof (choose_cases s0 Hok0) as Hch. change (choose s0) with (choose s) in *.
  assert (∀ s', restatus s0 s' (switched_status s0 (default (idle_thread s) (curr_thread s'))) →
    curr_thread s' = Some (default (idle_thread s) (curr_thread s')) →
    interrupts s' = true → sched_ok s' → after_switch s s' →
    (∃ p, pt s0 (default (idle_thread s) (curr_thread s')) = Some p ∧
      pdbrs s0 !! p = Some (pd_reg s')) →
    (default (idle_thread s) (curr_thread s') = idle_thread s ∨
     default (idle_thread s) (curr_thread s') ∈ runnable_threads s ++ sleeping_threads s) →
    Some (esp0 s') = kb s0 (default (idle_thread s) (curr_thread s')) → switched s s') as Hsw.
  { intros s' Hrs Hc Hi Hok' Hq (p & Hp & Hpd) Hfrom He. split; [done..| | |].
    - right. eexists. split_and!; [|exact Hc|exact Hfrom]. destruct Hrs. by split.
    - right. exists (default (idle_thread s) (curr_thread s')), p. by split_and!.
    - intros c E. rewrite E in *. right. rewrite (rs_st _ _ _ Hrs). unfold switched_status.
      by rewrite decide_True. }
  destruct (choose s) as [t rest|t rest|] eqn:Ech; rewrite (bind_ok _ _ _ _ _ Hnext);
    unfold get_curr_thread; rewrite bind_gets.
  - rewrite bind_mret. destruct Hch as [Eq Hr]. cbn [from_option default].
    pose proof (so_nodup s Hok) as Hnd. cbn in Eq. rewrite Eq, NoDup_app, NoDup_cons in Hnd.
    destruct Hnd as (Hn1 & Hn2 & Hn3 & Hn4).
    destruct (switch_part s0 (set_sleepq rest s0) t (runnable_threads s) rest)
      as (s' & Hrun & Hok' & Hif & Hrs & Ec & Er & Es & E0 & Hpd); try done.
    + right. cbn. rewrite Eq. set_solver.
    + set_solver.
    + cbn. rewrite Eq. set_solver.
    + rewrite elem_of_app. intros [Hin|Hin]; [|done]. by apply (Hn2 t Hin); left.
    + rewrite NoDup_app. split_and!; [done| |done]. intros x Hx Hx'. apply (Hn2 x Hx). by right.
    + eapply sorted_wake_tail. cbn in Eq. rewrite <- Eq. apply (so_sorted _ Hok0).
    + exists s'. split; [exact Hrun|]. apply Hsw; rewrite ?Ec; try done.
      * unfold after_switch. rewrite Ech. by destruct (stays_same s s0).
      * right. cbn. rewrite Eq. set_solver.
  - rewrite bind_mret. cbn [from_option default]. cbn in Hch.
    pose proof (so_nodup s Hok) as Hnd. rewrite Hch in Hnd. cbn in Hnd.
    rewrite NoDup_cons in Hnd. destruct Hnd as [Hn1 Hn2].
    destruct (switch_part s0 (set_runq rest s0) t rest (sleeping_threads s))
      as (s' & Hrun & Hok' & Hif & Hrs & Ec & Er & Es & E0 & Hpd); try done.
    + right. cbn. rewrite Hch. set_solver.
    + cbn. rewrite Hch. set_solver.
    + cbn. rewrite Hch. set_solver.
    + apply (so_sorted _ Hok0).
    + exists s'. split; [exact Hrun|]. apply Hsw; rewrite ?Ec; try done.
      * unfold after_switch. rewrite Ech. by destruct (stays_same s s0).
      * right. cbn. rewrite Hch. set_solver.
  - assert (keeps_running (curr_thread s0) s0 = Ok (stays s0) s0) as Hk
      by (apply keeps_running_ok; apply (so_curr s Hok)).
    rewrite (bind_ok _ _ _ _ _ Hk). destruct (stays_same s s0) as [Est _]; [done..|].
    rewrite Est. destruct (stays s) eqn:Estay.
    + exists (set_if true s0). split; [done|]. split.
      * by apply sched_ok_if.
      * done.
      * unfold after_switch. rewrite Ech, Estay. by split_and!.
      * left. by split.
      * by left.
      * cbn. intros c E. unfold stays in Estay. rewrite E in Estay.
        apply orb_true_iff in Estay as [Hi|Hi]; apply bool_decide_eq_true in Hi; [by left|by right].
    + cbn [from_option default]. pose proof (so_nodup s Hok) as Hnd.
      pose proof (so_idle_out s Hok) as Hio. cbn in Hch. rewrite Hch in *.
      destruct (switch_part s0 s0 (idle_thread s) [] (sleeping_threads s))
        as (s' & Hrun & Hok' & Hif & Hrs & Ec & Er & Es & E0 & Hpd); try done.
      * by left.
      * apply list_subseteq_nil.
      * cbn. rewrite Hch. apply list_subseteq_nil.
      * apply (so_sorted _ Hok0).
      * exists s'. split; [exact Hrun|]. apply Hsw; rewrite ?Ec; try done.
        2:{ by left. }
        unfold after_switch. rewrite Ech, Estay. split_and!; [done..|].
        rewrite Er. unfold leaving. cbn. unfold stays in Estay. destruct (curr_thread s); [|done].
        apply orb_false_iff in Estay as [_ Hn]. apply bool_decide_eq_false in Hn.
        rewrite decide_False; [done|]. by intros [? _].
Qed.

Lemma switched_restatus s s' : switched s s' → ∃ f, restatus s s' f.
Proof. intros Hsw. destruct (sw_status _ _ Hsw) as [[H _]|(t & H & _)]; by eexists. Qed.

(** What other components need of a switch. *)
Lemma switched_waiting s s' t :
  switched s s' → t ∉ sleeping_threads s → sched_ok s → st s t = Some WAITING →
  t ≠ idle_thread s → st s' t = Some WAITING.
Proof.
  intros Hsw Hns Hok Hw Hi. destruct (sw_status _ _ Hsw) as [[Hrs _]|(u & Hrs & _ & Hu)];
    rewrite (rs_st _ _ _ Hrs); [done|]. unfold switched_status. rewrite !decide_False; [done| |].
  - intros (_ & Hr & _)%elem_of_leaving. by rewrite Hw in Hr.
  - intros ->. destruct Hu as [?|[Hin|?]%elem_of_app]; [done| |done].
    apply (so_runq s Hok) in Hin. by rewrite Hw in Hin.
Qed.

Lemma switched_waiting_inv s s' t :
  switched s s' → st s' t = Some WAITING → st s t = Some WAITING.
Proof.
  intros Hsw. destruct (sw_status _ _ Hsw) as [[Hrs _]|(u & Hrs & _)];
    rewrite (rs_st _ _ _ Hrs); [done|]. unfold switched_status. by repeat case_decide.
Qed.

Lemma switched_sleepers s s' : sched_ok s → switched s s' →
  sleeping_threads s' ⊆ sleeping_threads s ∧
  (∀ t, t ∈ sleeping_threads s → t ∈ sleeping_threads s' ∨ curr_thread s' = Some t).
Proof.
  intros Hok Hsw. pose proof (sw_queues _ _ Hsw) as Hq. unfold after_switch in Hq.
  pose proof (choose_cases s Hok) as Hch. destruct (choose s); destruct Hq as (E1 & E2 & E3);
    rewrite E2; try (split; [done|by left]).
  destruct Hch as [Eq _]. rewrite Eq. split; [set_solver|].
  intros u [->|Hu]%elem_of_cons; [by right|by left].
Qed.

(** A thread that can run goes on being able to run. *)
Lemma switched_alive s s' t :
  sched_ok s → switched s s' → t ≠ idle_thread s →
  t ∈ runnable_threads s ∨ (curr_thread s = Some t ∧ st s t = Some RUNNING) →
  t ∈ runnable_threads s' ∨ curr_thread s' = Some t.
Proof.
  intros Hok Hsw Hi Ht. pose proof (sw_queues _ _ Hsw) as Hq. unfold after_switch in Hq.
  assert (t ∈ runnable_threads s ∨ t ∈ leaving s) as Ht'.
  { destruct Ht as [?|[? ?]]; [by left|]. right. by apply elem_of_leaving. }
  pose proof (choose_cases s Hok) as Hch.
  destruct (choose s) as [u rest|u rest|]; destruct Hq as (E1 & E2 & E3); rewrite E1, E3.
  - left. rewrite elem_of_app. tauto.
  - rewrite Hch, elem_of_cons in Ht'. rewrite elem_of_app. destruct Ht' as [[->|?]|?]; tauto.
  - right. destruct Ht as [Hin|[Hc Hr]]; [rewrite Hch in Hin; by apply elem_of_nil in Hin|].
    unfold stays. rewrite Hc, Hr, (bool_decide_true (Some RUNNING = _)) by done. by rewrite orb_true_r.
Qed.

Lemma switched_curr s s' : sched_ok s → is_Some (curr_thread s) → switched s s' →
  is_Some (curr_thread s').
Proof.
  intros Hok Hc Hsw. destruct (sw_status _ _ Hsw) as [[_ ->]|(u & _ & -> & _)]; done.
Qed.

(** The current thread starts to wait. *)
Lemma sched_ok_wait s s1 c :
  sched_ok s → curr_thread s = Some c → c ∉ runnable_threads s →
  restatus s s1 (put c WAITING) → curr_thread s1 = curr_thread s →
  runnable_threads s1 = runnable_threads s → sleeping_threads s1 = sleeping_threads s →
  sched_ok s1.
Proof.
  intros Hok Hc Hnr Hrs E1 E2 E3. destruct Hrs as [Hst Hwk Hpt Hpd Hidle Htk Hhid Hmx Hkb].
  split; rewrite ?E1, ?E2, ?E3, ?Hidle, ?Hpd.
  - intros d. rewrite Hc. intros [= <-]. rewrite Hst. unfold put. by rewrite decide_True.
  - rewrite Hst. unfold put. case_decide; [done|apply (so_idle s Hok)].
  - apply (so_idle_out s Hok).
  - apply (so_nodup s Hok).
  - intros t Ht. rewrite Hst. unfold put. rewrite decide_False by congruence. by apply (so_runq s Hok).
  - intros t. rewrite Hst. unfold put. case_decide; [done|]. apply (so_runnable s Hok).
  - intros t. rewrite Hst. unfold put. case_decide; [done|]. apply (so_running s Hok).
  - intros t Ht. rewrite Hst. unfold put. case_decide; [done|]. by apply (so_sleep s Hok).
  - apply (sorted_wake_ext s); [done|]. apply (so_sorted s Hok).
  - intros t p. rewrite Hpt. apply (so_task s Hok).
Qed.

(** A waiting thread that does not sleep is made runnable. *)
Lemma sched_ok_wake s s1 w :
  sched_ok s → st s w = Some WAITING → w ∉ sleeping_threads s → w ≠ idle_thread s →
  restatus s s1 (put w RUNNABLE) → curr_thread s1 = curr_thread s →
  runnable_threads s1 = runnable_threads s ++ [w] → sleeping_threads s1 = sleeping_threads s →
  sched_ok s1.
Proof.
  intros Hok Hw Hns Hi Hrs E1 E2 E3. destruct Hrs as [Hst Hwk Hpt Hpd Hidle Htk Hhid Hmx Hkb].
  assert (w ∉ runnable_threads s) as Hnr.
  { intros Hin. apply (so_runq s Hok) in Hin. by rewrite Hw in Hin. }
  split; rewrite ?E1, ?E2, ?E3, ?Hidle, ?Hpd.
  - intros d Hd. rewrite Hst. unfold put. case_decide; [done|]. by apply (so_curr s Hok).
  - rewrite Hst. unfold put. case_decide; [done|apply (so_idle s Hok)].
  - pose proof (so_idle_out s Hok). set_solver.
  - pose proof (so_nodup s Hok) as Hnd. rewrite !NoDup_app in *. destruct Hnd as (Hn1 & Hn2 & Hn3).
    split_and!; [done| |apply NoDup_singleton| |done].
    + intros x Hx Hx'. apply list_elem_of_singleton in Hx' as ->. done.
    + intros x [Hx|Hx]%elem_of_app Hx'; [by apply (Hn2 x)|].
      apply list_elem_of_singleton in Hx as ->. done.
  - intros t [Ht|Ht]%elem_of_app; rewrite Hst; unfold put.
    + rewrite decide_False by congruence. by apply (so_runq s Hok).
    + apply list_elem_of_singleton in Ht as ->. by rewrite decide_True.
  - intros t. rewrite Hst, elem_of_app. unfold put. case_decide as Hd.
    + intros _ _. right. by apply list_elem_of_singleton.
    + intros Ht Hne. left. by apply (so_runnable s Hok).
  - intros t. rewrite Hst. unfold put. case_decide; [done|]. apply (so_running s Hok).
  - intros t Ht. rewrite Hst. unfold put. rewrite decide_False by congruence. by apply (so_sleep s Hok).
  - apply (sorted_wake_ext s); [done|]. apply (so_sorted s Hok).
  - intros t p. rewrite Hpt. apply (so_task s Hok).
Qed.

(** ** Going to sleep *)
Lemma insert_sleeper_ok s t wake q :
  (∀ u, u ∈ q → is_Some (wk s u)) → sorted_wake s q → wk s t = Some wake →
  ∃ q', insert_sleeper (threads s) t wake q = Some q' ∧ q' ≡ₚ t :: q ∧ sorted_wake s q'.
Proof.
  intros Hq Hs Hw. induction q as [|u q IH]; cbn.
  - exists [t]. split_and!; [done..|]. split; [|done]. intros u Hu. by apply elem_of_nil in Hu.
  - destruct (Hq u) as [a Ha]; [by left|]. pose proof Ha as Ha'. unfold wk in Ha'.
    destruct (threads s !! u) as [x|]; [|done]. injection Ha' as Ha'. cbn. destruct Hs as [Hs1 Hs2].
    case_decide as Hd.
    + exists (t :: u :: q). split_and!; [done..|]. split; [|by split].
      intros v [->|Hv]%elem_of_cons.
      * exists wake, a. split_and!; [done..|lia].
      * destruct (Hs1 v Hv) as (a' & b & Ea & Eb & Hab). rewrite Ha in Ea. injection Ea as <-.
        exists wake, b. split_and!; [done..|lia].
    + destruct IH as (q' & Hins & Hp & Hsort); [intros v Hv; apply Hq; by right|done|].
      rewrite Hins. cbn. exists (u :: q'). split_and!; [done| |].
      * rewrite Hp. apply Permutation_swap.
      * split; [|done]. intros v Hv. rewrite Hp in Hv. apply elem_of_cons in Hv as [->|Hv]; [|by apply Hs1].
        exists a, wake. split_and!; [done..|lia].
Qed.

(** The current thread is put to sleep until [wake], before the switch. *)
Lemma asleep_ok s s1 c wake q :
  sched_ok s → curr_thread s = Some c → st s c = Some RUNNING → c ≠ idle_thread s →
  curr_thread s1 = Some c → runnable_threads s1 = runnable_threads s → sleeping_threads s1 = q →
  idle_thread s1 = idle_thread s → pdbrs s1 = pdbrs s →
  (∀ u, st s1 u = if decide (u = c) then Some WAITING else st s u) →
  (∀ u, wk s1 u = if decide (u = c) then Some wake else wk s u) →
  (∀ u, pt s1 u = pt s u) →
  q ≡ₚ c :: sleeping_threads s → sorted_wake s1 q → sched_ok s1.
Proof.
  intros Hok Hc Hr Hi E1 E2 E3 E4 E5 Hst Hwk Hpt Hq Hsort.
  assert (c ∉ runnable_threads s) as Hnr.
  { intros Hin. apply (so_runq s Hok) in Hin. by rewrite Hr in Hin. }
  assert (c ∉ sleeping_threads s) as Hns.
  { intros Hin. apply (so_sleep s Hok) in Hin. by rewrite Hr in Hin. }
  split; rewrite ?E1, ?E2, ?E3, ?E4, ?E5.
  - intros c' [= <-]. rewrite Hst. by rewrite decide_True.
  - rewrite Hst. case_decide; [done|]. apply (so_idle s Hok).
  - rewrite Hq. pose proof (so_idle_out s Hok). set_solver.
  - rewrite Hq. apply NoDup_app. pose proof (so_nodup s Hok) as Hnd.
    apply NoDup_app in Hnd as (Hn1 & Hn2 & Hn3). split_and!; [done| |by apply NoDup_cons].
    intros x Hx [->|Hx']%elem_of_cons; [done|]. by apply (Hn2 x).
  - intros u Hu. rewrite Hst, decide_False by congruence. by apply (so_runq s Hok).
  - intros u. rewrite Hst. case_decide; [done|]. by apply (so_runnable s Hok).
  - intros u. rewrite Hst. case_decide; [done|]. intros Hu Hne.
    pose proof (so_running s Hok u Hu Hne). congruence.
  - intros u. rewrite Hq, Hst, elem_of_cons. case_decide; [done|]. intros [?|Hu]; [done|].
    by apply (so_sleep s Hok).
  - done.
  - intros u p. rewrite Hpt. apply (so_task s Hok).
Qed.

Lemma ready_wake s t w : wk s t = Some w → s32 (ticks s) ≤ w → ready s t = false.
Proof.
  intros Hw Hle. unfold ready. rewrite Hw, bool_decide_false by lia. apply andb_false_r.
Qed.

Lemma schedule_sleep_ok s c n :
  sched_ok s → curr_thread s = Some c → st s c = Some RUNNING → c ≠ idle_thread s →
  sleep_list_mutex s = free_mutex → 0 < n → s32 (ticks s) + n < 2147483648 →
  ∃ s', schedule_sleep n s = Ok tt s' ∧ sched_ok s' ∧ sleep_hidden s' = false ∧
    c ∈ sleeping_threads s' ∧ wk s' c = Some (s32 (ticks s) + n) ∧ curr_thread s' ≠ Some c ∧
    sleep_list_mutex s' = free_mutex.
Proof.
  intros Hok Hc Hr Hi Hm Hn Hov. pose proof (s32_range (ticks s)) as Hrange.
  destruct (st_Some _ _ _ Hr) as (x & Hx & Hxr).
  assert (s32 (s32 (ticks s) + n) = s32 (ticks s) + n) as Ew by (apply s32_small; lia).
  unfold schedule_sleep, get_curr_thread. rewrite bind_gets, Hc. cbn [deref]. rewrite bind_mret.
  unfold curr_ticks. erewrite bind_ok by done. rewrite Ew, decide_False by lia.
  set (wake := s32 (ticks s) + n) in *.
  rewrite (bind_ok _ _ _ _ _ (upd_thread_ok c _ x s Hx)). set (s1 := set_threads _ s).
  erewrite bind_ok by (apply zoom_ok; cbn; rewrite Hm; apply mutex_lock_free). rewrite bind_modify.
  set (s2 := set_hidden true _). rewrite bind_get.
  assert (∀ u, wk s2 u = if decide (u = c) then Some wake else wk s u) as Hwk.
  { intros u. unfold wk. cbn. rewrite (lookup_upd _ s c x (with_wake wake)) by done. by case_decide. }
  assert (∀ u, st s2 u = st s u) as Hst.
  { intros u. unfold st. cbn. rewrite (lookup_upd _ s c x (with_wake wake)) by done.
    case_decide; subst; by rewrite ?Hx. }
  assert (∀ u, u ∈ sleeping_threads s → u ≠ c) as Hne.
  { intros u Hu ->. apply (so_sleep s Hok) in Hu. by rewrite Hr in Hu. }
  destruct (insert_sleeper_ok s2 c wake (sleeping_threads s2)) as (q & Hins & Hq & Hsort).
  { intros u Hu. rewrite Hwk. case_decide; [done|]. unfold wk.
    apply (so_sleep s Hok), st_Some in Hu as (y & -> & _). done. }
  { assert (∀ q, (∀ u, u ∈ q → u ≠ c) → sorted_wake s q → sorted_wake s2 q) as Hlift.
    { intros q'. induction q' as [|u q' IH]; cbn; [done|]. intros Hq' [H1 H2]. split.
      - intros v Hv. rewrite !Hwk, !decide_False by (apply Hq'; set_solver). by apply H1.
      - apply IH; [|done]. intros v Hv. apply Hq'. by right. }
    apply Hlift; [done|]. apply (so_sorted s Hok). }
  { by rewrite Hwk, decide_True. }
  rewrite Hins. cbn [deref]. rewrite bind_mret, bind_modify.
  erewrite bind_ok by (apply zoom_ok; apply mutex_unlock_held). unfold disable_interrupts.
  rewrite !bind_modify. set (s3 := set_hidden false _).
  assert (threads s3 = threads s2) as E3 by done.
  destruct (set_status_ok c WAITING s3) as (s4 & Hrun4 & Hrs & E4c & E4r & E4s & _).
  { unfold st. rewrite E3. change (is_Some (st s2 c)). by rewrite Hst, Hr. }
  rewrite (bind_ok _ _ _ _ _ Hrun4).
  assert (∀ u, wk s4 u = wk s2 u) as Ewk4 by (intros u; by rewrite (rs_wk _ _ _ Hrs)).
  assert (sched_ok s4) as Hok4.
  { apply (asleep_ok s s4 c wake q Hok Hc Hr Hi); try done.
    - by rewrite E4c.
    - by rewrite (rs_idle _ _ _ Hrs).
    - by rewrite (rs_pd _ _ _ Hrs).
    - intros u. rewrite (rs_st _ _ _ Hrs). unfold put. case_decide; [done|]. apply Hst.
    - intros u. by rewrite Ewk4, Hwk.
    - intros u. rewrite (rs_pt _ _ _ Hrs). unfold pt. cbn.
      rewrite (lookup_upd _ s c x (with_wake wake)) by done. case_decide; subst; by rewrite ?Hx.
    - by apply (sorted_wake_ext s2). }
  destruct (context_switch_ok s4 Hok4) as (s5 & Hrun5 & Hsw5).
  destruct (switched_restatus _ _ Hsw5) as (f & Hrs5).
  pose proof (sw_ok _ _ Hsw5) as Hok5. pose proof (sw_queues _ _ Hsw5) as Hq5.
  exists s5. split; [done|]. split; [done|].
  assert (ticks s4 = ticks s) as Etk by (by rewrite (rs_ticks _ _ _ Hrs)).
  assert (wk s4 c = Some wake) as Hwc by (by rewrite Ewk4, Hwk, decide_True).
  assert (ready s4 c = false) as Hnr by (apply (ready_wake _ _ wake); [done|rewrite Etk; lia]).
  assert (st s4 c = Some WAITING) as Hsc by (rewrite (rs_st _ _ _ Hrs); unfold put; by rewrite decide_True).
  assert (c ∈ sleeping_threads s4) as Hin4 by (rewrite E4s; cbn; rewrite Hq; left).
  pose proof (choose_cases s4 Hok4) as Hch. unfold after_switch in Hq5.
  assert (c ∈ sleeping_threads s5 ∧ curr_thread s5 ≠ Some c) as [Hin Hcur].
  { destruct (choose s4) as [t rest|t rest|]; destruct Hq5 as (E1 & E2 & E5); rewrite E1, E2.
    - destruct Hch as [Eq Hready]. rewrite Eq in Hin4. apply elem_of_cons in Hin4 as [->|Hin4]; [congruence|].
      split; [done|]. intros [= ->]. pose proof (so_nodup s4 Hok4) as Hnd.
      rewrite Eq, NoDup_app, NoDup_cons in Hnd. tauto.
    - split; [done|]. intros [= ->]. assert (st s4 c = Some RUNNABLE) as Hrn
        by (apply (so_runq s4 Hok4); rewrite Hch; left). by rewrite Hsc in Hrn.
    - split; [done|]. unfold stays. rewrite E4c. change (curr_thread s3) with (curr_thread s). rewrite Hc.
      rewrite (rs_idle _ _ _ Hrs). change (idle_thread s3) with (idle_thread s).
      rewrite !bool_decide_false; [|by rewrite Hsc|done]. cbn. congruence. }
  split_and!; try done.
  - by rewrite (rs_hidden _ _ _ Hrs5), (rs_hidden _ _ _ Hrs).
  - by rewrite (rs_wk _ _ _ Hrs5).
  - by rewrite (rs_mutex _ _ _ Hrs5), (rs_mutex _ _ _ Hrs).
Qed.

(** ** Timer ticks *)
Fixpoint run_ticks (k : nat) : M sched unit :=
  match k with
  | O => mret tt
  | S k' => timer_tick ;; run_ticks k'
  end.

Lemma sched_ok_tick v s : sched_ok s → sched_ok (set_tick v s).
Proof. intros []. split; try done. by apply (sorted_wake_ext s). Qed.

Lemma timer_tick_ok s :
  sched_ok s → ∃ s', timer_tick s = Ok tt s' ∧ switched (set_tick (u32 (ticks s + 1)) s) s'.
Proof.
  intros Hok. unfold timer_tick, tickback. rewrite bind_modify.
  apply context_switch_ok. by apply sched_ok_tick.
Qed.

(** ** Properties *)

(** C18. [context_switch] always returns, with interrupts on and the scheduler
    invariant kept: it runs the first sleeper when its time has passed,
    otherwise the head of the run queue, otherwise the current thread if it is
    still running, otherwise idle; a current thread that is still running goes
    to the end of the run queue; the page directory and the kernel stack are
    those of the thread that runs. *)
Theorem context_switch_correct s :
  sched_ok s → ∃ s', context_switch s = Ok tt s' ∧ switched s s'.
Proof. apply context_switch_ok. Qed.

(** C19. Round robin: a runnable thread behind [n] others becomes the current
    thread after at most [n + 1] timer ticks and one more for each sleeping
    thread, if the threads that run do not block or make others runnable. *)
Theorem runnable_thread_runs s t n :
  sched_ok s → runnable_threads s !! n = Some t →
  ∃ k s', (k ≤ n + length (sleeping_threads s) + 1)%nat ∧ run_ticks k s = Ok tt s' ∧
    curr_thread s' = Some t ∧ st s' t = Some RUNNING.
Proof.
  remember (n + length (sleeping_threads s))%nat as m eqn:Em.
  revert s n Em. induction m as [m IH] using lt_wf_ind. intros s n Em Hok Hn.
  destruct (timer_tick_ok s Hok) as (s1 & Hrun & Hsw).
  set (s0 := set_tick (u32 (ticks s + 1)) s) in *. assert (sched_ok s0) as Hok0 by by apply sched_ok_tick.
  pose proof (sw_queues _ _ Hsw) as Hq. pose proof (choose_cases s0 Hok0) as Hch. unfold after_switch in Hq.
  assert (t ≠ idle_thread s) as Hti.
  { intros ->. apply (so_idle_out s Hok). apply elem_of_app. left. by eapply list_elem_of_lookup_2. }
  assert (∀ n', (n' + length (sleeping_threads s1) < m)%nat → runnable_threads s1 !! n' = Some t →
    ∃ k s', (k ≤ m + 1)%nat ∧ run_ticks k s = Ok tt s' ∧ curr_thread s' = Some t ∧ st s' t = Some RUNNING)
    as Hnext.
  { intros n' Hlt Hl. destruct (IH _ Hlt s1 n' eq_refl (sw_ok _ _ Hsw) Hl) as (k & s' & Hk & Hr & Hc).
    exists (S k), s'. split; [lia|]. split; [|done]. cbn. by rewrite (bind_ok _ _ _ _ _ Hrun). }
  destruct (choose s0) as [u rest|u rest|]; destruct Hq as (Hc & Hs & Hr).
  - destruct Hch as [Eq _]. cbn in Eq. apply (Hnext n).
    + rewrite Hs, Em, Eq. cbn. lia.
    + rewrite Hr. by apply lookup_app_l_Some.
  - cbn in Hch, Hs. rewrite Hch in Hn. destruct n as [|n]; cbn in Hn.
    + injection Hn as ->. exists 1%nat, s1. split; [lia|]. cbn. rewrite (bind_ok _ _ _ _ _ Hrun).
      split_and!; [done..|]. destruct (sw_running _ _ Hsw t Hc); [done|done].
    + apply (Hnext n); [rewrite Hs, Em; lia|]. rewrite Hr. by apply lookup_app_l_Some.
  - cbn in Hch. by rewrite Hch in Hn.
Qed.

(** [do_sleep] returns at once for zero and with an error for a negative
    count; otherwise the calling thread leaves the processor and is queued in
    wake-up order with the tick it asked for, when that tick is representable. *)
Theorem do_sleep_correct s c n :
  sched_ok s → curr_thread s = Some c → st s c = Some RUNNING → c ≠ idle_thread s →
  sleep_list_mutex s = free_mutex → s32 (ticks s) + n < 2147483648 →
  if decide (n < 0) then do_sleep n s = Ok ERR_INVAL s
  else if decide (n = 0) then do_sleep n s = Ok 0 s
  else ∃ s', do_sleep n s = Ok 0 s' ∧ sched_ok s' ∧ c ∈ sleeping_threads s' ∧
    wk s' c = Some (s32 (ticks s) + n) ∧ curr_thread s' ≠ Some c.
Proof.
  intros Hok Hc Hr Hi Hm Hov. unfold do_sleep.
  destruct (decide (n < 0)); [by rewrite decide_False by lia|].
  destruct (decide (n = 0)); [done|].
  destruct (schedule_sleep_ok s c n) as (s' & Hrun & Hok' & _ & Hin & Hw & Hcur & _); try done; [lia|].
  exists s'. by rewrite (bind_ok _ _ _ _ _ Hrun).
Qed.

(** At a switch, the sleeper that runs, if one does, is the one with the
    earliest wake-up time and that time lies before the current tick; if every
    wake-up time is the current tick or later, no sleeper wakes, although the
    documentation says that a wake-up time equal to the current tick is due. *)
Theorem sleepers_wake_in_order s :
  sched_ok s → sleep_hidden s = false →
  ∃ s', context_switch s = Ok tt s' ∧
    ((∃ t rest w, sleeping_threads s = t :: rest ∧ wk s t = Some w ∧ w < s32 (ticks s) ∧
        curr_thread s' = Some t ∧ sleeping_threads s' = rest ∧
        ∀ u, u ∈ rest → ∃ b, wk s u = Some b ∧ w ≤ b) ∨
     sleeping_threads s' = sleeping_threads s ∧
     ∀ u, u ∈ sleeping_threads s → ∃ b, wk s u = Some b ∧ s32 (ticks s) ≤ b).
Proof.
  intros Hok Hh. destruct (context_switch_ok s Hok) as (s' & Hrun & Hsw). exists s'. split; [done|].
  pose proof (sw_queues _ _ Hsw) as Hq. unfold after_switch, choose in Hq.
  pose proof (so_sorted s Hok) as Hsort.
  destruct (sleeping_threads s) as [|t rest] eqn:E.
  { right. split; [|intros u Hu; by apply elem_of_nil in Hu].
    destruct (runnable_threads s); by destruct Hq as (_ & ? & _). }
  assert (∃ w, wk s t = Some w) as (w & Hw).
  { assert (st s t = Some WAITING) as Hs by (apply (so_sleep s Hok); rewrite E; left).
    apply st_Some in Hs as (x & Hx & _). unfold wk. rewrite Hx. by eexists. }
  destruct Hsort as [Hle _].
  assert (∀ u, u ∈ rest → ∃ b, wk s u = Some b ∧ w ≤ b) as Hrest.
  { intros u Hu. destruct (Hle u Hu) as (a & b & Ha & Hb & Hab). rewrite Hw in Ha.
    injection Ha as ->. by exists b. }
  unfold ready in Hq. rewrite Hh, Hw in Hq. cbn in Hq. case_bool_decide as Hb.
  - left. destruct Hq as (Hc & Hs & _). by exists t, rest, w.
  - right. split; [destruct (runnable_threads s); by destruct Hq as (_ & ? & _)|].
    intros u [->|Hu]%elem_of_cons; [exists w; split; [done|lia]|].
    destruct (Hrest u Hu) as (b & Hbu & ?). exists b. split; [done|lia].
Qed.

(** ** Instances *)
Definition demo_thread (v w : Z) : thread_struct := mk_thread 1 0x5000 0x4f00 0x4f10 v w.

(** Thread 1 is idle, 2 runs, 3 and 4 are runnable, 5 sleeps until tick 7. *)
Definition demo_sched : sched :=
  mk_sched {[1 := demo_thread RUNNING 0; 2 := demo_thread RUNNING 0; 3 := demo_thread RUNNABLE 0;
             4 := demo_thread RUNNABLE 0; 5 := demo_thread WAITING 7]}
    {[1 := 0x100000]} (Some 2) [3; 4] [5] false free_mutex 1 5 true 0x100000 0 0 0.

Lemma demo_threads t x : threads demo_sched !! t = Some x →
  t = 1 ∨ t = 2 ∨ t = 3 ∨ t = 4 ∨ t = 5.
Proof. cbn. rewrite !lookup_insert_Some, lookup_singleton_Some. naive_solver. Qed.

Lemma demo_sched_ok : sched_ok demo_sched.
Proof.
  split; cbn.
  - intros c [= <-]. by eexists.
  - by eexists.
  - set_solver.
  - repeat (constructor; [set_solver|]). constructor.
  - intros t Ht. apply elem_of_cons in Ht as [->|Ht]; [done|].
    apply list_elem_of_singleton in Ht as ->. done.
  - intros t Ht Hne. destruct (st_Some _ _ _ Ht) as (x & Hx & _).
    destruct (demo_threads t x Hx) as [E|[E|[E|[E|E]]]]; subst t; vm_compute in Ht; try discriminate;
      set_solver.
  - intros t Ht Hne. destruct (st_Some _ _ _ Ht) as (x & Hx & _).
    destruct (demo_threads t x Hx) as [E|[E|[E|[E|E]]]]; subst t; vm_compute in Ht; try discriminate; done.
  - intros t Ht. apply list_elem_of_singleton in Ht as ->. done.
  - split; [|done]. intros u Hu. by apply elem_of_nil in Hu.
  - intros t p Hp. unfold pt in Hp. destruct (threads demo_sched !! t) as [x|] eqn:Hx; [|done].
    destruct (demo_threads t x Hx) as [E|[E|[E|[E|E]]]]; subst t; vm_compute in Hx;
      injection Hx as <-; vm_compute in Hp; injection Hp as <-; by eexists.
Qed.

Lemma context_switch_correct_witness :
  ∃ s', context_switch demo_sched = Ok tt s' ∧ curr_thread s' = Some 3 ∧
    runnable_threads s' = [4; 2].
Proof.
  destruct (context_switch_correct demo_sched demo_sched_ok) as (s' & Hrun & Hsw).
  exists s'. split; [exact Hrun|]. destruct (sw_queues _ _ Hsw) as (H1 & _ & H2).
  split; [exact H1|exact H2].
Defined.

Lemma runnable_thread_runs_witness :
  ∃ k s', (k ≤ 3)%nat ∧ run_ticks k demo_sched = Ok tt s' ∧ curr_thread s' = Some 4.
Proof.
  destruct (runnable_thread_runs demo_sched 4 1 demo_sched_ok eq_refl) as (k & s' & Hk & Hrun & Hc & _).
  exists k, s'. split; [exact Hk|]. split; [exact Hrun|exact Hc].
Defined.

Lemma do_sleep_correct_witness :
  ∃ s', do_sleep 2 demo_sched = Ok 0 s' ∧ wk s' 2 = Some 7 ∧ curr_thread s' ≠ Some 2.
Proof.
  pose proof (do_sleep_correct demo_sched 2 2 demo_sched_ok eq_refl eq_refl ltac:(discriminate)
    eq_refl ltac:(reflexivity)) as Hs.
  rewrite decide_False in Hs by lia. rewrite decide_False in Hs by lia.
  destruct Hs as (s' & Hrun & _ & _ & Hw & Hc). exists s'. split; [exact Hrun|]. split; [exact Hw|exact Hc].
Defined.

Lemma sleepers_wake_in_order_witness :
  ∃ s', context_switch (set_tick 8 demo_sched) = Ok tt s' ∧ curr_thread s' = Some 5.
Proof.
  destruct (sleepers_wake_in_order (set_tick 8 demo_sched) (sched_ok_tick 8 _ demo_sched_ok) eq_refl)
    as (s' & Hrun & Hcase). exists s'. split; [exact Hrun|].
  destruct Hcase as [(t & rest & w & Eq & _ & _ & Hc & _)|[_ Hall]].
  - injection Eq as <- _. exact Hc.
  - destruct (Hall 5) as (b & Hb & Hle); [left|]. vm_compute in Hb. injection Hb as <-.
    exfalso. apply Hle. reflexivity.
Defined.
