(* ===== verification/Sync.v ===== *)
(** * Mutexes, condition variables and semaphores among several threads
      (kern/sync/)

    A thread is at a point of its kernel code where interrupts are enabled;
    what it still has to do is its list of operations, each of which runs with
    interrupts disabled or cannot be interfered with, so that a run of the
    machine is an interleaving of operations and timer ticks.  A call such as
    [mutex_lock] is one operation when it succeeds; when it blocks it leaves
    the rest of itself ([MRetry]) to be done after the thread is switched to
    again.  The mutexes and condition variables are named by their addresses.

    The theorems are about programs that bracket each mutex by a lock and an
    unlock: mutual exclusion, the absence of lost wake-ups, and that no
    operation fails.  The last section runs the condition variables through
    the interleaving in which a signal is sent without holding the mutex. *)

From S2P Require Import Prelude Locks FrameAlloc Paging Sched.

Record condvar : Type := mk_condvar {
  cv_stat : Z;
  cv_queue : list Z;
  cv_mutex : Z;
}.

Record sem_t : Type := mk_sem {
  sem_mutex : Z;
  sem_cond : Z;
  count : Z;
  valid : Z;
}.

(** The operations a thread can be at. *)
Inductive op : Type :=
  | Work
  | Switch
  | MLock (m : Z)
  | MRetry (m : Z)
  | MUnlock (m : Z)
  | MLockSave (m : Z)
  | MRetrySave (m : Z) (int_flag : bool)
  | MUnlockSave (m : Z)
  | CEnqueue (c : Z)
  | CBlock (m v : Z)
  | CWake (c : Z)
  | CUnlink (c t : Z)
  | CWakeAll (c : Z)
  | SCheck (s : Z)
  | SCount (s : Z).

Record sync : Type := mk_sync {
  sc : sched;
  mutexes : gmap Z mutex_t;
  conds : gmap Z condvar;
  sems : gmap Z sem_t;
  todo : gmap Z (list op);
  enable : bool;
}.

Definition set_sc v s := mk_sync v (mutexes s) (conds s) (sems s) (todo s) (enable s).
Definition set_mutexes v s := mk_sync (sc s) v (conds s) (sems s) (todo s) (enable s).
Definition set_conds v s := mk_sync (sc s) (mutexes s) v (sems s) (todo s) (enable s).
Definition set_sems v s := mk_sync (sc s) (mutexes s) (conds s) v (todo s) (enable s).
Definition set_todo v s := mk_sync (sc s) (mutexes s) (conds s) (sems s) v (enable s).
Definition set_enable v s := mk_sync (sc s) (mutexes s) (conds s) (sems s) (todo s) v.

Definition sched_do {A} (m : M sched A) : M sync A := zoom sc set_sc m.
Definition the_mutex (m : Z) : M sync mutex_t := s ← get; deref (mutexes s !! m).
Definition the_cond (c : Z) : M sync condvar := s ← get; deref (conds s !! c).
Definition the_sem (x : Z) : M sync sem_t := s ← get; deref (sems s !! x).
Definition put_mutex (m : Z) (v : mutex_t) : M sync unit :=
  modify (λ s, set_mutexes (<[m := v]> (mutexes s)) s).
Definition put_cond (c : Z) (v : condvar) : M sync unit :=
  modify (λ s, set_conds (<[c := v]> (conds s)) s).
Definition put_sem (x : Z) (v : sem_t) : M sync unit :=
  modify (λ s, set_sems (<[x := v]> (sems s)) s).

(** The running thread. *)
Definition me : M sync Z := c ← sched_do get_curr_thread; deref c.

(** A thread has one [mutex_link] and one [cond_wait_link]: it can be in the
    queue of one mutex and of one condition variable. *)
Definition mutex_linked (s : sync) (t : Z) : bool :=
  bool_decide (map_Exists (λ _ mx, t ∈ waiting mx) (mutexes s)).
Definition cond_linked (s : sync) (t : Z) : bool :=
  bool_decide (map_Exists (λ _ cv, t ∈ cv_queue cv) (conds s)).

(** ** kern/sync/mutex.c *)
Definition enable_mutex_lib : M sync unit := modify (set_enable true).

Definition disable_interrupts_mutex : M sync unit :=
  s ← get; if enable s then sched_do disable_interrupts else mret tt.
Definition enable_interrupts_mutex : M sync unit :=
  s ← get; if enable s then sched_do enable_interrupts else mret tt.

(** [curr_thread->status = WAITING; add_to_tail(&curr_thread->mutex_link,
    &mp->waiting); context_switch();]. *)
Definition wait_on (m : Z) : M sync unit :=
  c ← me;
  sched_do (set_status c WAITING) ;;
  s ← get;
  mx ← the_mutex m;
  (if mutex_linked s c then halt BadAccess
   else put_mutex m (mk_mutex (value mx) (waiting mx ++ [c]))) ;;
  sched_do context_switch.

(** One iteration of [while (mp->value == 0)] and what follows the loop. *)
Definition lock_loop (m : Z) (int_flag : bool) (again : op) : M sync (list op) :=
  mx ← the_mutex m;
  if decide (value mx = 0) then
    wait_on m ;;
    mret [again]
  else
    put_mutex m (mk_mutex 0 (waiting mx)) ;;
    (if int_flag then enable_interrupts_mutex else mret tt) ;;
    mret [].

Definition mutex_lock (m : Z) : M sync (list op) :=
  mx ← the_mutex m;
  thread_assert (bool_decide (value mx ≠ MUTEX_INVALID)) ;;
  disable_interrupts_mutex ;;
  lock_loop m true (MRetry m).

Definition mutex_lock_again (m : Z) : M sync (list op) :=
  disable_interrupts_mutex ;;
  lock_loop m true (MRetry m).

(** The first waiter becomes runnable and the mutex is free. *)
Definition release (m : Z) : M sync unit :=
  mx ← the_mutex m;
  match waiting mx with
  | [] => put_mutex m (mk_mutex 1 [])
  | w :: rest =>
      sched_do (set_status w RUNNABLE) ;;
      sched_do (runq_add_thread_interruptible w) ;;
      put_mutex m (mk_mutex 1 rest)
  end.

Definition mutex_unlock (m : Z) : M sync (list op) :=
  mx ← the_mutex m;
  thread_assert (bool_decide (value mx ≠ MUTEX_INVALID)) ;;
  disable_interrupts_mutex ;;
  release m ;;
  enable_interrupts_mutex ;;
  mret [].

(** [get_eflags() & EFLAGS_IF]. *)
Definition int_flag : M sync bool := gets (λ s, interrupts (sc s)).

Definition mutex_lock_int_save (m : Z) : M sync (list op) :=
  mx ← the_mutex m;
  thread_assert (bool_decide (value mx ≠ MUTEX_INVALID)) ;;
  f ← int_flag;
  disable_interrupts_mutex ;;
  lock_loop m f (MRetrySave m f).

Definition mutex_lock_int_save_again (m : Z) (f : bool) : M sync (list op) :=
  disable_interrupts_mutex ;;
  lock_loop m f (MRetrySave m f).

Definition mutex_unlock_int_save (m : Z) : M sync (list op) :=
  mx ← the_mutex m;
  thread_assert (bool_decide (value mx ≠ MUTEX_INVALID)) ;;
  f ← int_flag;
  disable_interrupts_mutex ;;
  release m ;;
  (if f : bool then enable_interrupts_mutex else mret tt) ;;
  mret [].

(** ** kern/sync/cond_var.c *)

(** The operations of [cond_wait(cv, mp, link, status)] after its checks. *)
Definition cond_wait_ops (c q m v : Z) : list op :=
  [MLock q; CEnqueue c; MUnlock q; CBlock m v; Switch; MLock m].

Definition cond_wait (c m v : Z) : M sync (list op) :=
  cv ← the_cond c;
  thread_assert (bool_decide (cv_stat cv ≠ COND_VAR_INVALID)) ;;
  mret (cond_wait_ops c (cv_mutex cv) m v).

Definition cond_enqueue (c : Z) : M sync (list op) :=
  t ← me;
  s ← get;
  cv ← the_cond c;
  (if cond_linked s t then halt BadAccess
   else put_cond c (mk_condvar (cv_stat cv) (cv_queue cv ++ [t]) (cv_mutex cv))) ;;
  mret [].

(** [disable_interrupts(); curr_thread->status = status; mutex_unlock(mp);]. *)
Definition cond_block (m v : Z) : M sync (list op) :=
  sched_do disable_interrupts ;;
  t ← me;
  sched_do (set_status t v) ;;
  mutex_unlock m.

Definition cond_signal_ops (c q : Z) : list op := [MLockSave q; CWake c; MUnlockSave q].

Definition cond_signal (c : Z) : M sync (list op) :=
  cv ← the_cond c;
  thread_assert (bool_decide (cv_stat cv ≠ COND_VAR_INVALID)) ;;
  mret (cond_signal_ops c (cv_mutex cv)).

(** The first waiter is made runnable; its link is removed afterwards, with
    interrupts enabled in between ([runq_add_thread] enables them). *)
Definition cond_wake (c : Z) : M sync (list op) :=
  cv ← the_cond c;
  match cv_queue cv with
  | [] => mret []
  | t :: _ =>
      sched_do (set_status t RUNNABLE) ;;
      sched_do (runq_add_thread t) ;;
      mret [CUnlink c t]
  end.

(** [del_entry(&thr->cond_wait_link)]: the link leaves the queue it is in. *)
Definition cond_unlink (c t : Z) : M sync (list op) :=
  cv ← the_cond c;
  (if decide (t ∈ cv_queue cv) then
     put_cond c (mk_condvar (cv_stat cv) (filter (λ u, u ≠ t) (cv_queue cv)) (cv_mutex cv))
   else halt BadAccess) ;;
  mret [].

(** The loop of [cond_broadcast]. *)
Definition cond_wake_all (c : Z) : M sync (list op) :=
  cv ← the_cond c;
  match cv_queue cv with
  | [] => mret []
  | t :: _ =>
      sched_do (set_status t RUNNABLE) ;;
      sched_do (runq_add_thread t) ;;
      mret [CUnlink c t; CWakeAll c]
  end.

Definition cond_broadcast (c : Z) : M sync (list op) :=
  cv ← the_cond c;
  thread_assert (bool_decide (cv_stat cv ≠ COND_VAR_INVALID)) ;;
  mret [MLockSave (cv_mutex cv); CWakeAll c; MUnlockSave (cv_mutex cv)].

(** ** kern/sync/sem.c *)
Definition sem_wait (x : Z) : M sync (list op) :=
  sm ← the_sem x;
  thread_assert (bool_decide (valid sm ≠ 0)) ;;
  mret [MLock (sem_mutex sm); SCheck x; MUnlock (sem_mutex sm)].

(** [while (sem->count == 0) cond_wait(...); sem->count--;]. *)
Definition sem_check (x : Z) : M sync (list op) :=
  sm ← the_sem x;
  if decide (count sm = 0) then
    ops ← cond_wait (sem_cond sm) (sem_mutex sm) WAITING;
    mret (ops ++ [SCheck x])
  else
    put_sem x (mk_sem (sem_mutex sm) (sem_cond sm) (count sm - 1) (valid sm)) ;;
    mret [].

Definition sem_signal (x : Z) : M sync (list op) :=
  sm ← the_sem x;
  thread_assert (bool_decide (valid sm ≠ 0)) ;;
  mret [MLock (sem_mutex sm); SCount x; MUnlock (sem_mutex sm)].

(** [sem->count++; cond_signal(&sem->cond_var);]. *)
Definition sem_count (x : Z) : M sync (list op) :=
  sm ← the_sem x;
  put_sem x (mk_sem (sem_mutex sm) (sem_cond sm) (count sm + 1) (valid sm)) ;;
  cond_signal (sem_cond sm).

(** ** Initialisation and end *)
Definition mutex_destroy (m : Z) : M sync unit :=
  mx ← the_mutex m;
  thread_assert (bool_decide (value mx ≠ MUTEX_INVALID)) ;;
  put_mutex m (mk_mutex MUTEX_INVALID (waiting mx)).

(** The condition variable at [c], whose queue mutex is at [q]. *)
Definition cond_init (c q : Z) : M sync Z :=
  put_mutex q mutex_init ;;
  put_cond c (mk_condvar COND_VAR_VALID [] q) ;;
  mret 0.

Definition cond_destroy (c : Z) : M sync unit :=
  cv ← the_cond c;
  thread_assert (bool_decide (cv_stat cv ≠ COND_VAR_INVALID)) ;;
  mutex_destroy (cv_mutex cv) ;;
  put_cond c (mk_condvar COND_VAR_INVALID (cv_queue cv) (cv_mutex cv)).

(** The semaphore at [x] with its mutex at [m] and condition variable at [c]. *)
Definition sem_init (x m c q cnt : Z) : M sync Z :=
  if decide (x = NULL) then mret (-1)
  else
    put_mutex m mutex_init ;;
    cond_init c q ;;
    put_sem x (mk_sem m c cnt 1) ;;
    mret 0.

Definition sem_destroy (x : Z) : M sync unit :=
  sm ← the_sem x;
  cond_destroy (sem_cond sm) ;;
  mutex_destroy (sem_mutex sm) ;;
  put_sem x (mk_sem (sem_mutex sm) (sem_cond sm) (count sm) 0).

(** ** The machine *)
Definition exec (o : op) : M sync (list op) :=
  match o with
  | Work => mret []
  | Switch => sched_do context_switch ;; mret []
  | MLock m => mutex_lock m
  | MRetry m => mutex_lock_again m
  | MUnlock m => mutex_unlock m
  | MLockSave m => mutex_lock_int_save m
  | MRetrySave m f => mutex_lock_int_save_again m f
  | MUnlockSave m => mutex_unlock_int_save m
  | CEnqueue c => cond_enqueue c
  | CBlock m v => cond_block m v
  | CWake c => cond_wake c
  | CUnlink c t => cond_unlink c t
  | CWakeAll c => cond_wake_all c
  | SCheck x => sem_check x
  | SCount x => sem_count x
  end.

Definition ops_of (s : sync) (t : Z) : list op := default [] (todo s !! t).

(** The running thread does its next operation. *)
Definition run_op : M sync unit :=
  c ← me;
  s ← get;
  match ops_of s c with
  | [] => mret tt
  | o :: rest =>
      more ← exec o;
      modify (λ s, set_todo (<[c := more ++ rest]> (todo s)) s)
  end.

Definition tick : M sync unit := sched_do timer_tick.

(** The running thread runs on, or a timer interrupt arrives. *)
Inductive step (s s' : sync) : Prop :=
  | step_op : run_op s = Ok tt s' → step s s'
  | step_tick : interrupts (sc s) = true → tick s = Ok tt s' → step s s'.

Inductive reachable (s0 : sync) : sync → Prop :=
  | reach_refl : reachable s0 s0
  | reach_step s s' : reachable s0 s → step s s' → reachable s0 s'.

(** ** Programs that bracket their mutexes *)
Definition acquires (o : op) : option Z :=
  match o with
  | MLock m | MRetry m | MLockSave m | MRetrySave m _ => Some m
  | _ => None
  end.
Definition releases (o : op) : option Z :=
  match o with MUnlock m | MUnlockSave m => Some m | _ => None end.

(** The thread has been woken, or is still to be woken, to take [m]. *)
Definition retries (o : op) : option Z :=
  match o with MRetry m | MRetrySave m _ => Some m | _ => None end.

Definition mutex_op (o : op) : bool :=
  match o with
  | Work | Switch | MLock _ | MRetry _ | MUnlock _ | MLockSave _ | MRetrySave _ true
  | MUnlockSave _ => true
  | _ => false
  end.

(** Locks and unlocks of [m] alternate in [ops], from a state in which [m] is
    held or not, and end with an unlock. *)
Fixpoint brackets (held : bool) (m : Z) (ops : list op) : Prop :=
  match ops with
  | [] => held = false
  | o :: rest =>
      if decide (acquires o = Some m) then held = false ∧ brackets true m rest
      else if decide (releases o = Some m) then held = true ∧ brackets false m rest
      else brackets held m rest
  end.

(** Thread [t] is between its lock and its unlock of [m]. *)
Definition holds (s : sync) (t m : Z) : Prop := brackets true m (ops_of s t).

(** A thread waits for [m] in its queue, at the retry of its lock. *)
Definition retrying (s : sync) (t m : Z) : Prop :=
  ∃ o rest, ops_of s t = o :: rest ∧ retries o = Some m.

(** What holds also in the middle of an operation, just before a switch. *)
Record sync_inv (s : sync) : Prop := {
  sy_sched : sched_ok (sc s);
  sy_enable : enable s = true;
  sy_curr : is_Some (curr_thread (sc s));
  sy_idle : ops_of s (idle_thread (sc s)) = [];
  sy_ops t : Forall (λ o, mutex_op o = true) (ops_of s t);
  sy_known t o m : o ∈ ops_of s t → acquires o = Some m ∨ releases o = Some m →
    is_Some (mutexes s !! m);
  sy_value m mx : mutexes s !! m = Some mx →
    value mx = 0 ∧ (∃ t, holds s t m ∧ ∀ u, u ≠ t → brackets false m (ops_of s u)) ∨
    value mx = 1 ∧ ∀ u, brackets false m (ops_of s u);
  sy_waiting m mx t : mutexes s !! m = Some mx → t ∈ waiting mx →
    st (sc s) t = Some WAITING ∧ t ∉ sleeping_threads (sc s) ∧ retrying s t m;
  sy_nodup m mx : mutexes s !! m = Some mx → NoDup (waiting mx);
  sy_woken m mx : mutexes s !! m = Some mx → value mx ≠ 0 → waiting mx ≠ [] →
    ∃ r, retrying s r m ∧ (r ∈ runnable_threads (sc s) ∨
      curr_thread (sc s) = Some r ∧ st (sc s) r = Some RUNNING);
  sy_blocked t : st (sc s) t = Some WAITING → t ∈ sleeping_threads (sc s) ∨
    ∃ m mx, mutexes s !! m = Some mx ∧ t ∈ waiting mx;
}.

Record sync_ok (s : sync) : Prop := {
  sy_inv : sync_inv s;
  sy_if : interrupts (sc s) = true;
  sy_running c : curr_thread (sc s) = Some c → c = idle_thread (sc s) ∨ st (sc s) c = Some RUNNING;
}.

Lemma brackets_excl m ops : brackets true m ops → brackets false m ops → False.
Proof.
  induction ops as [|o ops IH]; cbn; [done|]. repeat case_decide; naive_solver.
Qed.

Lemma retrying_inj s t m m' : retrying s t m → retrying s t m' → m = m'.
Proof. intros (o & r & E & H) (o' & r' & E' & H'). congruence. Qed.

Lemma retrying_not_idle s t m : sync_inv s → retrying s t m → t ≠ idle_thread (sc s).
Proof. intros Hok (o & r & E & _) ->. rewrite (sy_idle s Hok) in E. done. Qed.

Lemma set_sc_id s : set_sc (sc s) s = s.
Proof. by destruct s. Qed.

Lemma me_ok s c : curr_thread (sc s) = Some c → me s = Ok c s.
Proof.
  intros Hc. unfold me, sched_do. erewrite bind_ok by (apply zoom_ok; done).
  rewrite set_sc_id, Hc. done.
Qed.

Lemma sched_do_ok {A} (m : M sched A) s a k :
  m (sc s) = Ok a k → sched_do m s = Ok a (set_sc k s).
Proof. apply zoom_ok. Qed.

Lemma the_mutex_ok s m mx : mutexes s !! m = Some mx → the_mutex m s = Ok mx s.
Proof. intros Hm. unfold the_mutex. by rewrite bind_get, Hm. Qed.

(** ** Switches and ticks *)
Lemma sync_ok_switch s k :
  sync_inv s → switched (sc s) k → sync_ok (set_sc k s).
Proof.
  intros Hok Hsw. pose proof (sy_sched s Hok) as Hs.
  destruct (switched_restatus _ _ Hsw) as (f & Hf).
  destruct (switched_sleepers _ _ Hs Hsw) as [Hsl1 Hsl2].
  pose proof (rs_idle _ _ _ Hf) as Hidle.
  assert (∀ t, curr_thread k = Some t → t ≠ idle_thread (sc s) → st k t = Some RUNNING) as Hrun.
  { intros t Hc Hi. by destruct (sw_running _ _ Hsw t Hc). }
  split; cbn; [split; cbn; try apply Hok|apply Hsw|].
  - apply Hsw.
  - eapply switched_curr; [done| |done]. apply (sy_curr s Hok).
  - rewrite Hidle. apply (sy_idle s Hok).
  - intros m mx t Hm Ht. destruct (sy_waiting s Hok m mx t Hm Ht) as (H1 & H2 & H3).
    split_and!; [|set_solver|done].
    apply (switched_waiting (sc s)); try done. by eapply retrying_not_idle.
  - intros m mx Hm Hv Hw. destruct (sy_woken s Hok m mx Hm Hv Hw) as (r & Hr & Hal).
    exists r. split; [done|]. pose proof (retrying_not_idle _ _ _ Hok Hr) as Hi.
    destruct (switched_alive (sc s) k r Hs Hsw Hi Hal) as [?|Hc]; [by left|right]. auto.
  - intros t Ht. pose proof (switched_waiting_inv _ _ _ Hsw Ht) as Ht0.
    destruct (sy_blocked s Hok t Ht0) as [Hin|?]; [|by right].
    destruct (Hsl2 t Hin) as [?|Hc]; [by left|].
    exfalso. rewrite Hrun in Ht; [done|done|]. intros ->.
    apply (so_idle_out _ Hs). apply elem_of_app. by right.
  - intros c Hc. rewrite Hidle. by apply (sw_running _ _ Hsw).
Qed.

(** The scheduler state may change in fields that the invariant does not read. *)
Lemma sync_inv_sc s k f :
  sync_inv s → sched_ok k → restatus (sc s) k f → (∀ t, st k t = st (sc s) t) →
  curr_thread k = curr_thread (sc s) → runnable_threads k = runnable_threads (sc s) →
  sleeping_threads k = sleeping_threads (sc s) → sync_inv (set_sc k s).
Proof.
  intros Hok Hk Hf Hst Ec Er Es. pose proof (rs_idle _ _ _ Hf) as Hi. destruct Hok.
  split; cbn; rewrite ?Ec, ?Er, ?Es, ?Hi; try done; intros *; rewrite ?Hst; try done.
  - apply sy_waiting0.
  - intros Hm Hv Hw. destruct (sy_woken0 _ _ Hm Hv Hw) as (r & Hr & Hal). exists r. by rewrite Hst.
  - apply sy_blocked0.
Qed.

Lemma sync_inv_if b s : sync_inv s → sync_inv (set_sc (set_if b (sc s)) s).
Proof.
  intros Hok. apply (sync_inv_sc _ _ (λ _ o, o)); try done.
  apply sched_ok_if, Hok.
Qed.

Lemma tick_ok s : sync_ok s → ∃ s', tick s = Ok tt s' ∧ sync_ok s'.
Proof.
  intros [Hok _ _]. destruct (timer_tick_ok (sc s) (sy_sched s Hok)) as (k & Hrun & Hsw).
  exists (set_sc k s). split; [by apply sched_do_ok|].
  assert (sync_inv (set_sc (set_tick (u32 (ticks (sc s) + 1)) (sc s)) s)) as Hok1.
  { destruct Hok. split; try done. by apply sched_ok_tick. }
  apply (sync_ok_switch _ k Hok1 Hsw).
Qed.

(** ** Operations *)
Lemma ops_of_set s c l t :
  ops_of (set_todo (<[c := l]> (todo s)) s) t = if decide (t = c) then l else ops_of s t.
Proof.
  unfold ops_of. cbn. case_decide; subst; [by rewrite lookup_insert_eq|by rewrite lookup_insert_ne].
Qed.

Definition drop_op (c : Z) (ops : list op) (s : sync) : sync := set_todo (<[c := ops]> (todo s)) s.

(** An operation on no mutex is done. *)
Lemma sync_inv_done s c o rest :
  sync_inv s → ops_of s c = o :: rest → acquires o = None → releases o = None →
  (∀ m mx, mutexes s !! m = Some mx → c ∉ waiting mx) →
  sync_inv (drop_op c rest s).
Proof.
  intros Hok Hc Ha Hr Hnw. pose proof (ops_of_set s c rest) as E.
  assert (∀ b m t, brackets b m (ops_of (drop_op c rest s) t) ↔ brackets b m (ops_of s t)) as Eb.
  { intros b m t. unfold drop_op. rewrite E. case_decide; subst; [|done].
    rewrite Hc. cbn. by rewrite Ha, Hr, !decide_False. }
  assert (∀ t m, t ≠ c → retrying s t m → retrying (drop_op c rest s) t m) as Hret.
  { intros t m Hne (o' & r & Ho & Hp). exists o', r. unfold drop_op. by rewrite E, decide_False. }
  split; cbn; try apply Hok.
  - unfold drop_op. rewrite E. case_decide as Hd; [|apply (sy_idle s Hok)].
    pose proof (sy_idle s Hok) as Hi. rewrite Hd, Hc in Hi. done.
  - intros t. unfold drop_op. rewrite E. case_decide; [|apply (sy_ops s Hok)].
    pose proof (sy_ops s Hok c) as Ho. rewrite Hc in Ho. by inversion Ho.
  - intros t o' m. unfold drop_op. rewrite E. case_decide; [|apply (sy_known s Hok)].
    intros Hin. apply (sy_known s Hok c). rewrite Hc. by right.
  - intros m mx Hm. unfold holds. destruct (sy_value s Hok m mx Hm) as [[Hv (t & Ht & Hu)]|[Hv Hu]].
    + left. split; [done|]. exists t. split; [by apply Eb|]. intros u Hne. apply Eb. by apply Hu.
    + right. split; [done|]. intros u. by apply Eb.
  - intros m mx t Hm Ht. destruct (sy_waiting s Hok m mx t Hm Ht) as (H1 & H2 & H3).
    split_and!; [done..|]. apply Hret; [|done]. intros ->. by apply (Hnw m mx Hm).
  - intros m mx Hm Hv Hw. destruct (sy_woken s Hok m mx Hm Hv Hw) as (r & Hre & Hal).
    exists r. split; [|done]. apply Hret; [|done]. intros ->. destruct Hre as (o' & r' & Eo & Hp).
    rewrite Hc in Eo. injection Eo as <- <-. destruct o; done.
Qed.

(** The running thread waits for no mutex. *)
Lemma running_not_waiting s c m mx :
  sync_inv s → st (sc s) c = Some RUNNING → mutexes s !! m = Some mx → c ∉ waiting mx.
Proof.
  intros Hok Hr Hm Hin. destruct (sy_waiting s Hok m mx c Hm Hin) as (Hw & _). by rewrite Hr in Hw.
Qed.

Lemma brackets_skip b m m' o rest :
  m' ≠ m → (acquires o = Some m ∨ releases o = Some m) →
  brackets b m' (o :: rest) ↔ brackets b m' rest.
Proof.
  intros Hne Ho. cbn. rewrite !decide_False; [done| |]; destruct o; naive_solver congruence.
Qed.

Lemma brackets_acquire b m o rest : acquires o = Some m →
  brackets b m (o :: rest) ↔ b = false ∧ brackets true m rest.
Proof. intros Ho. cbn. by rewrite decide_True. Qed.

Lemma brackets_release b m o rest : releases o = Some m →
  brackets b m (o :: rest) ↔ b = true ∧ brackets false m rest.
Proof.
  intros Ho. cbn. rewrite decide_False, decide_True; [done|done|]. by destruct o.
Qed.

(** The lock is taken. *)
Lemma sync_inv_lock s c o rest m mx :
  sync_inv s → st (sc s) c = Some RUNNING → ops_of s c = o :: rest → acquires o = Some m →
  mutexes s !! m = Some mx → value mx ≠ 0 →
  sync_inv (drop_op c rest (set_mutexes (<[m := mk_mutex 0 (waiting mx)]> (mutexes s)) s)) .
Proof.
  intros Hok Hr Hc Ha Hm Hv. set (s1 := set_mutexes _ s).
  assert (∀ t, ops_of (drop_op c rest s1) t = if decide (t = c) then rest else ops_of s t) as E
    by (intros t; exact (ops_of_set s1 c rest t)).
  destruct (sy_value s Hok m mx Hm) as [[? _]|[_ Hfree]]; [done|].
  assert (∀ t m', t ≠ c → retrying s t m' → retrying (drop_op c rest s1) t m') as Hret.
  { intros t m' Hne (o' & r & Ho & Hp). exists o', r. by rewrite E, decide_False. }
  assert (∀ m' mx', mutexes s1 !! m' = Some mx' →
    ∃ old, mutexes s !! m' = Some old ∧ waiting mx' = waiting old ∧
      (m' = m ∧ value mx' = 0 ∨ m' ≠ m ∧ mx' = old)) as Hmx.
  { intros m' mx' Hl. cbn in Hl. destruct (decide (m' = m)) as [->|].
    - rewrite lookup_insert_eq in Hl. injection Hl as <-. exists mx. by split_and!; [| |left].
    - rewrite lookup_insert_ne in Hl by done. exists mx'. by split_and!; [| |right]. }
  split; cbn [sc drop_op s1 set_todo set_mutexes enable]; try apply Hok.
  - rewrite E. case_decide as Hd; [|apply (sy_idle s Hok)].
    pose proof (sy_idle s Hok) as Hi. rewrite Hd, Hc in Hi. done.
  - intros t. rewrite E. case_decide; [|apply (sy_ops s Hok)].
    pose proof (sy_ops s Hok c) as Ho. rewrite Hc in Ho. by inversion Ho.
  - intros t o' m' Hin Hac. assert (is_Some (mutexes s !! m')) as [y Hy].
    { rewrite E in Hin. case_decide; [apply (sy_known s Hok c o')|by apply (sy_known s Hok t o')];
        [rewrite Hc; by right|done]. }
    cbn. destruct (decide (m' = m)) as [->|]; [by rewrite lookup_insert_eq|].
    by rewrite lookup_insert_ne.
  - intros m' mx' Hl. destruct (Hmx m' mx' Hl) as (old & Hold & _ & [[-> Hz]|[Hne ->]]).
    + left. split; [done|]. exists c. unfold holds. split.
      * rewrite E, decide_True by done. pose proof (Hfree c) as Hb. rewrite Hc in Hb.
        by apply (brackets_acquire false) in Hb as [_ ?].
      * intros u Hu. by rewrite E, decide_False.
    + assert (∀ b t, brackets b m' (ops_of (drop_op c rest s1) t) ↔ brackets b m' (ops_of s t)) as Eb.
      { intros b t. rewrite E. case_decide; subst; [|done]. rewrite Hc. symmetry.
        apply (brackets_skip b m); [done|by left]. }
      destruct (sy_value s Hok m' old Hold) as [[Hz (t & Ht & Hu)]|[Hz Hu]].
      * left. split; [done|]. exists t. unfold holds. split; [by apply Eb|].
        intros u Hne'. apply Eb. by apply Hu.
      * right. split; [done|]. intros u. by apply Eb.
  - intros m' mx' t Hl Ht. destruct (Hmx m' mx' Hl) as (old & Hold & Ew & _). rewrite Ew in Ht.
    destruct (sy_waiting s Hok m' old t Hold Ht) as (H1 & H2 & H3). split_and!; [done..|].
    apply Hret; [|done]. intros ->. by rewrite Hr in H1.
  - intros m' mx' Hl. destruct (Hmx m' mx' Hl) as (old & Hold & -> & _). by apply (sy_nodup s Hok m').
  - intros m' mx' Hl Hv' Hw. destruct (Hmx m' mx' Hl) as (old & Hold & Ew & [[_ Hz]|[Hne ->]]); [done|].
    destruct (sy_woken s Hok m' old Hold Hv' Hw) as (r & Hre & Hal). exists r. split; [|done].
    apply Hret; [|done]. intros ->. destruct Hre as (o' & r' & Eo & Hp).
    rewrite Hc in Eo. injection Eo as <- <-. destruct o; naive_solver congruence.
  - intros t Ht. destruct (sy_blocked s Hok t Ht) as [?|(m' & old & Hold & Hin)]; [by left|right].
    destruct (decide (m' = m)) as [->|].
    + rewrite Hm in Hold. injection Hold as <-. exists m. eexists. cbn. by rewrite lookup_insert_eq.
    + exists m', old. cbn. by rewrite lookup_insert_ne.
Qed.

(** The lock is held: the thread queues up and is about to switch. *)
Lemma sync_inv_queue s c o again rest m mx k :
  sync_inv s → curr_thread (sc s) = Some c → st (sc s) c = Some RUNNING → c ≠ idle_thread (sc s) →
  ops_of s c = o :: rest → acquires o = Some m → mutex_op again = true → retries again = Some m →
  mutexes s !! m = Some mx → value mx = 0 →
  restatus (sc s) k (put c WAITING) → curr_thread k = curr_thread (sc s) →
  runnable_threads k = runnable_threads (sc s) → sleeping_threads k = sleeping_threads (sc s) →
  sync_inv (drop_op c (again :: rest)
    (set_sc k (set_mutexes (<[m := mk_mutex (value mx) (waiting mx ++ [c])]> (mutexes s)) s))).
Proof.
  intros Hok Hcur Hr Hci Hc Ha Hag Hret Hm Hv Hk Ek1 Ek2 Ek3. set (s1 := set_sc k _).
  assert (acquires again = Some m) as Haa by (destruct again; naive_solver).
  assert (∀ t, ops_of (drop_op c (again :: rest) s1) t =
    if decide (t = c) then again :: rest else ops_of s t) as E
    by (intros t; exact (ops_of_set s1 c (again :: rest) t)).
  assert (∀ t, st k t = put c WAITING t (st (sc s) t)) as Est by apply (rs_st _ _ _ Hk).
  assert (∀ b m' t, brackets b m' (ops_of (drop_op c (again :: rest) s1) t) ↔
    brackets b m' (ops_of s t)) as Eb.
  { intros b m' t. rewrite E. case_decide; subst; [|done]. rewrite Hc.
    destruct (decide (m' = m)) as [->|]; [by rewrite !brackets_acquire|].
    rewrite !(brackets_skip b m) by (done || by left). done. }
  assert (∀ t m', t ≠ c → retrying s t m' → retrying (drop_op c (again :: rest) s1) t m') as Hold.
  { intros t m' Hne (o' & r & Ho & Hp). exists o', r. by rewrite E, decide_False. }
  assert (c ∉ sleeping_threads (sc s)) as Hns.
  { intros Hin. apply (so_sleep _ (sy_sched s Hok)) in Hin. by rewrite Hr in Hin. }
  assert (∀ m' mx', mutexes s1 !! m' = Some mx' →
    ∃ old, mutexes s !! m' = Some old ∧ value mx' = value old ∧
      (m' = m ∧ waiting mx' = waiting old ++ [c] ∨ m' ≠ m ∧ mx' = old)) as Hmx.
  { intros m' mx' Hl. cbn in Hl. destruct (decide (m' = m)) as [->|].
    - rewrite lookup_insert_eq in Hl. injection Hl as <-. exists mx. by split_and!; [| |left].
    - rewrite lookup_insert_ne in Hl by done. exists mx'. by split_and!; [| |right]. }
  pose proof (rs_idle _ _ _ Hk) as Hidle.
  split; cbn [sc drop_op s1 set_todo set_mutexes set_sc enable]; rewrite ?Ek1, ?Ek3; try apply Hok.
  - apply (sched_ok_wait (sc s) k c); try done; [apply Hok|].
    intros Hin. apply (so_runq _ (sy_sched s Hok)) in Hin. by rewrite Hr in Hin.
  - rewrite Hidle, E, decide_False by done. apply (sy_idle s Hok).
  - intros t. rewrite E. case_decide; [|apply (sy_ops s Hok)].
    pose proof (sy_ops s Hok c) as Ho. rewrite Hc in Ho. inversion Ho. by constructor.
  - intros t o' m' Hin Hac. assert (is_Some (mutexes s !! m')) as [y Hy].
    { rewrite E in Hin. case_decide; [|by apply (sy_known s Hok t o')].
      apply elem_of_cons in Hin as [->|Hin].
      - apply (sy_known s Hok c o); [rewrite Hc; left|]. rewrite Haa in Hac. destruct again; naive_solver.
      - apply (sy_known s Hok c o'); [rewrite Hc; by right|done]. }
    cbn. destruct (decide (m' = m)) as [->|]; [by rewrite lookup_insert_eq|].
    by rewrite lookup_insert_ne.
  - intros m' mx' Hl. destruct (Hmx m' mx' Hl) as (old & Ho & -> & _). unfold holds.
    destruct (sy_value s Hok m' old Ho) as [[Hz (t & Ht & Hu)]|[Hz Hu]].
    + left. split; [done|]. exists t. split; [by apply Eb|]. intros u Hne. apply Eb. by apply Hu.
    + right. split; [done|]. intros u. by apply Eb.
  - intros m' mx' t Hl Ht. destruct (Hmx m' mx' Hl) as (old & Ho & _ & Hw).
    destruct (decide (t = c)) as [->|Hne].
    + rewrite Est. unfold put. rewrite decide_True by done. split_and!; [done..|].
      destruct Hw as [[-> _]|[_ ->]].
      * exists again, rest. by rewrite E, decide_True.
      * by destruct (running_not_waiting s c m' old Hok Hr Ho).
    + assert (t ∈ waiting old) as Hin.
      { destruct Hw as [[_ Ew]|[_ ->]]; [|done]. rewrite Ew, elem_of_app, list_elem_of_singleton in Ht. tauto. }
      destruct (sy_waiting s Hok m' old t Ho Hin) as (H1 & H2 & H3).
      rewrite Est. unfold put. rewrite decide_False by done. split_and!; [done..|]. by apply Hold.
  - intros m' mx' Hl. destruct (Hmx m' mx' Hl) as (old & Ho & _ & [[-> ->]|[_ ->]]);
      [|by apply (sy_nodup s Hok m')].
    apply NoDup_app. split_and!; [by apply (sy_nodup s Hok m)| |apply NoDup_singleton].
    intros x Hx Hx'. apply list_elem_of_singleton in Hx' as ->.
    by destruct (running_not_waiting s c m old Hok Hr Ho).
  - intros m' mx' Hl Hv' Hw. destruct (Hmx m' mx' Hl) as (old & Ho & Ev & [[-> _]|[Hne ->]]).
    + rewrite Hm in Ho. injection Ho as <-. congruence.
    + destruct (sy_woken s Hok m' old Ho Hv' Hw) as (r & Hre & Hal). exists r.
      assert (r ≠ c) as Hrc.
      { intros ->. destruct Hre as (o' & r' & Eo & Hp). rewrite Hc in Eo. injection Eo as <- <-.
        destruct o; naive_solver congruence. }
      split; [by apply Hold|]. rewrite Ek2, Est. unfold put. by rewrite decide_False.
  - intros t. rewrite Est. unfold put. case_decide as Hd.
    + intros _. right. subst t. exists m. eexists. cbn. rewrite lookup_insert_eq. split; [done|].
      cbn. rewrite elem_of_app. right. by apply list_elem_of_singleton.
    + intros Ht. destruct (sy_blocked s Hok t Ht) as [?|(m' & old & Ho & Hin)]; [by left|right].
      destruct (decide (m' = m)) as [->|].
      * rewrite Hm in Ho. injection Ho as <-. exists m. eexists. cbn. rewrite lookup_insert_eq.
        split; [done|]. cbn. rewrite elem_of_app. by left.
      * exists m', old. cbn. by rewrite lookup_insert_ne.
Qed.

(** Only the holder unlocks, and it finds the mutex taken. *)
Lemma unlock_held s c o rest m mx :
  sync_inv s → ops_of s c = o :: rest → releases o = Some m → mutexes s !! m = Some mx →
  value mx = 0 ∧ ∀ u, u ≠ c → brackets false m (ops_of s u).
Proof.
  intros Hok Hc Ho Hm. assert (¬ brackets false m (ops_of s c)) as Hn.
  { rewrite Hc, brackets_release by done. by intros [? _]. }
  destruct (sy_value s Hok m mx Hm) as [[Hv (t & Ht & Hu)]|[_ Hu]]; [|by destruct Hn].
  split; [done|]. destruct (decide (t = c)) as [->|Hne]; [done|]. by destruct Hn; apply Hu.
Qed.

(** The first waiter is woken. *)
Definition woken (s : sync) (w : option Z) (k : sched) : Prop :=
  match w with
  | None => k = sc s
  | Some w => restatus (sc s) k (put w RUNNABLE) ∧ curr_thread k = curr_thread (sc s) ∧
      runnable_threads k = runnable_threads (sc s) ++ [w] ∧
      sleeping_threads k = sleeping_threads (sc s)
  end.

Lemma woken_sched s m mx k :
  sync_inv s → mutexes s !! m = Some mx → woken s (head (waiting mx)) k →
  sched_ok k ∧ idle_thread k = idle_thread (sc s) ∧ curr_thread k = curr_thread (sc s) ∧
  sleeping_threads k = sleeping_threads (sc s) ∧
  runnable_threads k = runnable_threads (sc s) ++ take 1 (waiting mx) ∧
  ∀ t, st k t = if decide (Some t = head (waiting mx)) then Some RUNNABLE else st (sc s) t.
Proof.
  intros Hok Hm. destruct (waiting mx) as [|w q] eqn:Ew; cbn.
  - intros ->. rewrite app_nil_r. split_and!; try done. apply Hok.
  - intros (Hk & E1 & E2 & E3).
    destruct (sy_waiting s Hok m mx w Hm) as (H1 & H2 & H3); [rewrite Ew; left|].
    split_and!; try done.
    + eapply (sched_ok_wake (sc s) k w); try done; [apply Hok|]. by eapply retrying_not_idle.
    + by rewrite (rs_idle _ _ _ Hk).
    + intros t. rewrite (rs_st _ _ _ Hk). unfold put.
      destruct (decide (t = w)) as [->|]; [by rewrite decide_True|]. rewrite decide_False; [done|congruence].
Qed.

Lemma sync_inv_unlock s c o rest m mx k :
  sync_inv s → curr_thread (sc s) = Some c → st (sc s) c = Some RUNNING →
  ops_of s c = o :: rest → releases o = Some m → mutexes s !! m = Some mx →
  woken s (head (waiting mx)) k →
  sync_inv (drop_op c rest
    (set_mutexes (<[m := mk_mutex 1 (tail (waiting mx))]> (mutexes s)) (set_sc k s))).
Proof.
  intros Hok Hcur Hr Hc Ho Hm Hk. set (s1 := set_mutexes _ _).
  destruct (unlock_held s c o rest m mx Hok Hc Ho Hm) as [Hv Hothers].
  destruct (woken_sched s m mx k Hok Hm Hk) as (Hkok & Eid & Ec & Esl & Erq & Est).
  assert (∀ t, ops_of (drop_op c rest s1) t = if decide (t = c) then rest else ops_of s t) as E
    by (intros t; exact (ops_of_set s1 c rest t)).
  assert (∀ t m', t ≠ c → retrying s t m' → retrying (drop_op c rest s1) t m') as Hret.
  { intros t m' Hne (o' & r & Ho' & Hp). exists o', r. by rewrite E, decide_False. }
  assert (∀ t m', retrying s t m' → t ≠ c) as Hnc.
  { intros t m' (o' & r & Eo & Hp) ->. rewrite Hc in Eo. injection Eo as <- <-.
    destruct o; naive_solver congruence. }
  assert (∀ m' mx', mutexes s1 !! m' = Some mx' →
    ∃ old, mutexes s !! m' = Some old ∧
      (m' = m ∧ mx' = mk_mutex 1 (tail (waiting old)) ∨ m' ≠ m ∧ mx' = old)) as Hmx.
  { intros m' mx' Hl. cbn in Hl. destruct (decide (m' = m)) as [->|].
    - rewrite lookup_insert_eq in Hl. injection Hl as <-. exists mx. by split; [|left].
    - rewrite lookup_insert_ne in Hl by done. exists mx'. by split; [|right]. }
  assert (∀ m' old t, mutexes s !! m' = Some old → t ∈ waiting old → m' ≠ m →
    Some t ≠ head (waiting mx)) as Hother.
  { intros m' old t Hold Ht Hne Eh. destruct (waiting mx) as [|w q] eqn:Ew; [done|].
    injection Eh as ->. apply Hne.
    destruct (sy_waiting s Hok m' old w Hold Ht) as (_ & _ & R1).
    destruct (sy_waiting s Hok m mx w Hm) as (_ & _ & R2); [rewrite Ew; left|].
    by apply (retrying_inj s w). }
  split; cbn [sc drop_op s1 set_todo set_mutexes set_sc enable]; rewrite ?Ec, ?Esl, ?Eid; try apply Hok.
  - done.
  - rewrite E. case_decide as Hd; [|apply (sy_idle s Hok)].
    pose proof (sy_idle s Hok) as Hi. rewrite Hd, Hc in Hi. done.
  - intros t. rewrite E. case_decide; [|apply (sy_ops s Hok)].
    pose proof (sy_ops s Hok c) as Hops. rewrite Hc in Hops. by inversion Hops.
  - intros t o' m' Hin Hac. assert (is_Some (mutexes s !! m')) as [y Hy].
    { rewrite E in Hin. case_decide; [apply (sy_known s Hok c o')|by apply (sy_known s Hok t o')];
        [rewrite Hc; by right|done]. }
    cbn. destruct (decide (m' = m)) as [->|]; [by rewrite lookup_insert_eq|].
    by rewrite lookup_insert_ne.
  - intros m' mx' Hl. destruct (Hmx m' mx' Hl) as (old & Hold & [[-> ->]|[Hne ->]]).
    + right. split; [done|]. intros u. rewrite E. case_decide; [|by apply Hothers].
      assert (holds s c m) as Hh.
      { destruct (sy_value s Hok m mx Hm) as [[_ (t & Ht & Hu)]|[Hv' _]]; [|congruence].
        destruct (decide (t = c)) as [->|Hne]; [done|]. exfalso.
        apply (brackets_excl m (ops_of s t)); [done|]. by apply Hothers. }
      unfold holds in Hh. rewrite Hc in Hh. by apply (brackets_release true) in Hh as [_ ?].
    + assert (∀ b t, brackets b m' (ops_of (drop_op c rest s1) t) ↔ brackets b m' (ops_of s t)) as Eb.
      { intros b t. rewrite E. case_decide; subst; [|done]. rewrite Hc. symmetry.
        apply (brackets_skip b m); [done|by right]. }
      unfold holds. destruct (sy_value s Hok m' old Hold) as [[Hz (t & Ht & Hu)]|[Hz Hu]].
      * left. split; [done|]. exists t. split; [by apply Eb|]. intros u Hne'. apply Eb. by apply Hu.
      * right. split; [done|]. intros u. by apply Eb.
  - intros m' mx' t Hl Ht. destruct (Hmx m' mx' Hl) as (old & Hold & Hw).
    assert (t ∈ waiting old ∧ Some t ≠ head (waiting mx)) as [Hin Hnh].
    { destruct Hw as [[-> ->]|[Hne ->]]; [|split; [done|by apply (Hother m' old)]].
      rewrite Hm in Hold. injection Hold as <-. cbn in Ht.
      pose proof (sy_nodup s Hok m mx Hm) as Hnd. destruct (waiting mx) as [|w q]; [done|].
      cbn in Ht. apply NoDup_cons in Hnd as [Hn _]. split; [by right|]. intros [= ->]. done. }
    destruct (sy_waiting s Hok m' old t Hold Hin) as (H1 & H2 & H3).
    rewrite Est, decide_False by done. split_and!; [done..|]. apply Hret; [|done]. by eapply Hnc.
  - intros m' mx' Hl. destruct (Hmx m' mx' Hl) as (old & Hold & [[-> ->]|[Hne ->]]);
      [|by apply (sy_nodup s Hok m')].
    pose proof (sy_nodup s Hok m old Hold) as Hnd. cbn. destruct (waiting old); [done|].
    by apply NoDup_cons in Hnd as [_ ?].
  - intros m' mx' Hl Hv' Hw. rewrite Erq. destruct (Hmx m' mx' Hl) as (old & Hold & [[-> ->]|[Hne ->]]).
    + rewrite Hm in Hold. injection Hold as <-. cbn in Hw.
      destruct (waiting mx) as [|w q] eqn:Ew; [done|].
      destruct (sy_waiting s Hok m mx w Hm) as (_ & _ & Hre); [rewrite Ew; left|].
      exists w. split; [apply Hret; [by eapply Hnc|done]|]. left. cbn.
      rewrite elem_of_app, list_elem_of_singleton. by right.
    + destruct (sy_woken s Hok m' old Hold Hv' Hw) as (r & Hre & Hal). exists r.
      split; [apply Hret; [by eapply Hnc|done]|]. rewrite elem_of_app. destruct Hal as [?|[Hcr Hrr]]; [by left; left|].
      exfalso. apply (Hnc r m' Hre). congruence.
  - intros t. rewrite Est. case_decide as Hd; [done|]. intros Ht.
    destruct (sy_blocked s Hok t Ht) as [?|(m' & old & Hold & Hin)]; [by left|right].
    destruct (decide (m' = m)) as [->|].
    + rewrite Hm in Hold. injection Hold as <-. exists m. eexists. cbn. rewrite lookup_insert_eq.
      split; [done|]. cbn. destruct (waiting mx) as [|w q]; [done|]. cbn in *.
      apply elem_of_cons in Hin as [->|?]; done.
    + exists m', old. cbn. by rewrite lookup_insert_ne.
Qed.

(** ** Every operation of a bracketed program runs *)
Definition running (s : sync) (c : Z) : Prop :=
  curr_thread (sc s) = Some c ∧ st (sc s) c = Some RUNNING ∧ c ≠ idle_thread (sc s).

Lemma not_linked s c : sync_inv s → st (sc s) c = Some RUNNING → mutex_linked s c = false.
Proof.
  intros Hok Hr. apply bool_decide_false. intros (m & mx & Hm & Hin).
  by destruct (running_not_waiting s c m mx Hok Hr Hm).
Qed.

Lemma sync_ok_enable s :
  sync_inv s → (∀ c, curr_thread (sc s) = Some c → c = idle_thread (sc s) ∨ st (sc s) c = Some RUNNING) →
  sync_ok (set_sc (set_if true (sc s)) s).
Proof. intros Hok Hr. split; [by apply sync_inv_if|done|done]. Qed.

Lemma lock_loop_ok s c o again rest m mx :
  sync_inv s → running s c → ops_of s c = o :: rest → acquires o = Some m →
  mutex_op again = true → retries again = Some m → mutexes s !! m = Some mx →
  ∃ more s', lock_loop m true again s = Ok more s' ∧ sync_ok (drop_op c (more ++ rest) s').
Proof.
  intros Hok (Hcur & Hr & Hci) Hc Ha Hag Hre Hm. unfold lock_loop.
  rewrite (bind_ok _ _ _ _ _ (the_mutex_ok s m mx Hm)).
  destruct (decide (value mx = 0)) as [Hv|Hv].
  - destruct (set_status_ok c WAITING (sc s)) as (k & Hrun & Hk & E1 & E2 & E3 & _); [by rewrite Hr|].
    pose proof (sync_inv_queue s c o again rest m mx k Hok Hcur Hr Hci Hc Ha Hag Hre Hm Hv Hk E1 E2 E3)
      as Hok1.
    set (s1 := set_sc k (set_mutexes (<[m := mk_mutex (value mx) (waiting mx ++ [c])]> (mutexes s)) s)) in *.
    destruct (context_switch_ok k (sy_sched _ Hok1)) as (k2 & Hsw & Hsw2).
    exists [again], (set_sc k2 s1).
    split; [|by apply (sync_ok_switch (drop_op c (again :: rest) s1))].
    unfold wait_on. erewrite bind_ok; [done|].
    rewrite (bind_ok _ _ _ _ _ (me_ok s c Hcur)).
    erewrite bind_ok by (apply sched_do_ok; exact Hrun). rewrite bind_get.
    erewrite bind_ok by (apply the_mutex_ok; exact Hm).
    assert (mutex_linked (set_sc k s) c = false) as ->.
    { change (mutex_linked s c = false). by apply not_linked. }
    unfold put_mutex. rewrite bind_modify. by apply sched_do_ok.
  - eexists [], _. split.
    + unfold put_mutex. rewrite bind_modify. erewrite bind_ok; [done|].
      unfold enable_interrupts_mutex. rewrite bind_get. cbn. rewrite (sy_enable s Hok). by apply sched_do_ok.
    + pose proof (sync_inv_lock s c o rest m mx Hok Hr Hc Ha Hm Hv) as Hok1.
      apply (sync_ok_enable _ Hok1). cbn. intros d. rewrite Hcur. intros [= <-]. by right.
Qed.

Lemma disable_ok s :
  sync_inv s → disable_interrupts_mutex s = Ok tt (set_sc (set_if false (sc s)) s).
Proof.
  intros Hok. unfold disable_interrupts_mutex. rewrite bind_get, (sy_enable s Hok). by apply sched_do_ok.
Qed.

Lemma not_invalid s m mx : sync_inv s → mutexes s !! m = Some mx → value mx ≠ MUTEX_INVALID.
Proof.
  intros Hok Hm. unfold MUTEX_INVALID.
  destruct (sy_value s Hok m mx Hm) as [[-> _]|[-> _]]; lia.
Qed.

Lemma bind_thread_assert {S B} (b : bool) (k : unit → M S B) s :
  b = true → (thread_assert b ≫= k) s = k tt s.
Proof. by intros ->. Qed.

Lemma exec_lock s c o rest m :
  sync_ok s → running s c → ops_of s c = o :: rest → mutex_op o = true → acquires o = Some m →
  ∃ more s', exec o s = Ok more s' ∧ sync_ok (drop_op c (more ++ rest) s').
Proof.
  intros [Hok Hif _] Hrun Hc Hop Ha.
  destruct (sy_known s Hok c o m) as [mx Hm]; [rewrite Hc; left|by left|].
  pose proof (sync_inv_if false s Hok) as Hok1. pose proof (not_invalid s m mx Hok Hm) as Hni.
  destruct o; try discriminate; injection Ha as ->; cbn [exec];
    unfold mutex_lock, mutex_lock_again, mutex_lock_int_save, mutex_lock_int_save_again.
  1,3: rewrite (bind_ok _ _ _ _ _ (the_mutex_ok s m mx Hm));
    rewrite bind_thread_assert by (by apply bool_decide_true).
  2: unfold int_flag; rewrite bind_gets, Hif.
  all: rewrite (bind_ok _ _ _ _ _ (disable_ok s Hok)).
  - by eapply lock_loop_ok.
  - by eapply (lock_loop_ok (set_sc (set_if false (sc s)) s) c (MLockSave m)).
  - by eapply (lock_loop_ok (set_sc (set_if false (sc s)) s) c (MRetry m)).
  - destruct int_flag0; [|done].
    by eapply (lock_loop_ok (set_sc (set_if false (sc s)) s) c (MRetrySave m true)).
Qed.

Lemma release_ok s m mx :
  sync_inv s → mutexes s !! m = Some mx →
  ∃ k, release m s = Ok tt (set_mutexes (<[m := mk_mutex 1 (tail (waiting mx))]> (mutexes s))
      (set_sc k s)) ∧ woken s (head (waiting mx)) k.
Proof.
  intros Hok Hm. unfold release. rewrite (bind_ok _ _ _ _ _ (the_mutex_ok s m mx Hm)).
  destruct (waiting mx) as [|w q] eqn:Ew.
  - exists (sc s). rewrite set_sc_id. by split.
  - destruct (sy_waiting s Hok m mx w Hm) as (H1 & H2 & H3); [rewrite Ew; left|].
    destruct (set_status_ok w RUNNABLE (sc s)) as (k & Hrun & Hk & E1 & E2 & E3 & _); [by rewrite H1|].
    erewrite bind_ok by (apply sched_do_ok; exact Hrun).
    unfold runq_add_thread_interruptible, runq_enqueue. erewrite bind_ok; last first.
    { apply sched_do_ok. rewrite bind_get, decide_False; [done|]. cbn. rewrite E2. intros Hin.
      apply (so_runq _ (sy_sched s Hok)) in Hin. by rewrite H1 in Hin. }
    eexists. split; [done|]. cbn. split_and!; cbn; [|done|by rewrite E2|done].
    destruct Hk. by split.
Qed.

Lemma exec_unlock s c o rest m :
  sync_ok s → running s c → ops_of s c = o :: rest → releases o = Some m →
  ∃ more s', exec o s = Ok more s' ∧ sync_ok (drop_op c (more ++ rest) s').
Proof.
  intros [Hok Hif _] (Hcur & Hr & Hci) Hc Ho.
  destruct (sy_known s Hok c o m) as [mx Hm]; [rewrite Hc; left|by right|].
  pose proof (sync_inv_if false s Hok) as Hok1. pose proof (not_invalid s m mx Hok Hm) as Hni.
  set (s1 := set_sc (set_if false (sc s)) s) in *.
  destruct (release_ok s1 m mx Hok1 Hm) as (k & Hrel & Hk).
  set (s2 := set_mutexes _ _) in Hrel.
  assert (enable_interrupts_mutex s2 = Ok tt (set_sc (set_if true k) s2)) as Hen.
  { unfold enable_interrupts_mutex. rewrite bind_get. cbn. rewrite (sy_enable s Hok). by apply sched_do_ok. }
  exists [], (set_sc (set_if true k) s2). split.
  - destruct o; try discriminate; injection Ho as ->; cbn [exec]; unfold mutex_unlock, mutex_unlock_int_save;
      rewrite (bind_ok _ _ _ _ _ (the_mutex_ok s m mx Hm));
      rewrite bind_thread_assert by (by apply bool_decide_true);
      [|unfold int_flag; rewrite bind_gets, Hif];
      rewrite (bind_ok _ _ _ _ _ (disable_ok s Hok)), (bind_ok _ _ _ _ _ Hrel);
      by rewrite (bind_ok _ _ _ _ _ Hen).
  - pose proof (sync_inv_unlock s1 c o rest m mx k Hok1 Hcur Hr Hc Ho Hm Hk) as Hok2.
    apply (sync_ok_enable _ Hok2). cbn. intros d.
    destruct (woken_sched s1 m mx k Hok1 Hm Hk) as (_ & _ & -> & _ & _ & Est). cbn.
    rewrite Hcur. intros [= <-]. right. rewrite Est. rewrite decide_False; [done|].
    intros Eh. destruct (waiting mx) as [|w q] eqn:Ew; [done|]. injection Eh as ->.
    destruct (sy_waiting s Hok m mx w Hm) as (Hw & _); [rewrite Ew; left|]. by rewrite Hr in Hw.
Qed.

Lemma run_op_ok s : sync_ok s → ∃ s', run_op s = Ok tt s' ∧ sync_ok s'.
Proof.
  intros Hok. pose proof (sy_inv s Hok) as Hinv. destruct (sy_curr s Hinv) as [c Hcur].
  unfold run_op. rewrite (bind_ok _ _ _ _ _ (me_ok s c Hcur)), bind_get.
  destruct (ops_of s c) as [|o rest] eqn:Hc; [by exists s|].
  assert (running s c) as Hrun.
  { destruct (sy_running s Hok c Hcur) as [->|Hr]; [by rewrite (sy_idle s Hinv) in Hc|].
    split_and!; [done..|]. intros ->. by rewrite (sy_idle s Hinv) in Hc. }
  pose proof (sy_ops s Hinv c) as Hops. rewrite Hc in Hops. inversion Hops as [|? ? Hop _]; subst.
  assert (∃ more s', exec o s = Ok more s' ∧ sync_ok (drop_op c (more ++ rest) s')) as (more & s' & He & Hok').
  { destruct (acquires o) as [m|] eqn:Ea; [by eapply exec_lock|].
    destruct (releases o) as [m|] eqn:Er; [by eapply exec_unlock|].
    assert (sync_inv (drop_op c rest s)) as Hinv1.
    { apply (sync_inv_done s c o rest); try done. intros m mx Hm.
      apply (running_not_waiting s c m mx Hinv); [apply Hrun|done]. }
    destruct o; try discriminate; cbn [exec].
    - exists [], s. split; [done|]. split; [done|apply Hok|apply Hok].
    - destruct (context_switch_ok (sc s) (sy_sched s Hinv)) as (k & Hsw & Hsw2).
      exists [], (set_sc k s). split; [by rewrite (bind_ok _ _ _ _ _ (sched_do_ok _ s _ _ Hsw))|].
      by apply (sync_ok_switch (drop_op c rest s)). }
  rewrite (bind_ok _ _ _ _ _ He). eexists. split; [done|]. exact Hok'.
Qed.

Lemma step_sync_ok s s' : sync_ok s → step s s' → sync_ok s'.
Proof.
  intros Hok [Hrun|_ Ht].
  - destruct (run_op_ok s Hok) as (s1 & E & ?). rewrite Hrun in E. injection E as <-. done.
  - destruct (tick_ok s Hok) as (s1 & E & ?). rewrite Ht in E. injection E as <-. done.
Qed.

Lemma reachable_sync_ok s0 s : sync_ok s0 → reachable s0 s → sync_ok s.
Proof. intros H0. induction 1; [done|]. by eapply step_sync_ok. Qed.

Lemma brackets_mention m ops : brackets true m ops → ∃ o, o ∈ ops ∧ releases o = Some m.
Proof.
  induction ops as [|o ops IH]; cbn; [done|]. case_decide; [by intros [? _]|].
  case_decide; [intros _; exists o; split; [left|done]|].
  intros (o' & Hin & Ho)%IH. exists o'. split; [by right|done].
Qed.

(** ** Runs of a given schedule *)

(** [true] is an operation of the running thread, [false] a timer tick. *)
Fixpoint play (sch : list bool) (s : sync) : option sync :=
  match sch with
  | [] => Some s
  | b :: rest =>
      match (if b then run_op s else if interrupts (sc s) then tick s else Stop BadAccess) with
      | Ok _ s' => play rest s'
      | Stop _ => None
      end
  end.

Lemma play_reachable sch s0 s s' : reachable s0 s → play sch s = Some s' → reachable s0 s'.
Proof.
  revert s. induction sch as [|b sch IH]; intros s Hr; cbn; [by intros [= <-]|].
  destruct b.
  - destruct (run_op s) as [[] s1|] eqn:E; [|done]. apply IH. eapply reach_step; [done|by apply step_op].
  - destruct (interrupts (sc s)) eqn:Ei; [|done]. destruct (tick s) as [[] s1|] eqn:E; [|done].
    apply IH. eapply reach_step; [done|by apply step_tick].
Qed.

(** A mutex and a condition variable. Thread 2 holds mutex 10 and is about to
    wait on 20, thread 3 is about to signal 20 without taking mutex 10. *)
Definition demo_race : sync :=
  mk_sync demo_sched {[10 := held_mutex; 21 := free_mutex]}
    {[20 := mk_condvar COND_VAR_VALID [] 21]} ∅
    {[2 := cond_wait_ops 20 21 10 WAITING; 3 := cond_signal_ops 20 21]} true.

(** Two threads that each lock and unlock mutex 10. *)
Definition demo_locks : sync :=
  mk_sync demo_sched {[10 := free_mutex]} ∅ ∅
    {[2 := [MLock 10; Work; MUnlock 10]; 3 := [MLock 10; MUnlock 10]]} true.

(** ** Properties *)

(** C9. Mutual exclusion: in every interleaving of threads that bracket their
    mutexes, at most one thread is between the lock and the unlock of a mutex. *)
Theorem mutual_exclusion s0 s m t1 t2 :
  sync_ok s0 → reachable s0 s → holds s t1 m → holds s t2 m → t1 = t2.
Proof.
  intros H0 Hr H1 H2. pose proof (sy_inv _ (reachable_sync_ok s0 s H0 Hr)) as Hok.
  destruct (brackets_mention _ _ H1) as (o & Hin & Ho).
  destruct (sy_known s Hok t1 o m Hin) as [mx Hm]; [by right|].
  destruct (sy_value s Hok m mx Hm) as [[_ (t & _ & Hu)]|[_ Hu]].
  - destruct (decide (t1 = t)) as [->|N1], (decide (t2 = t)) as [->|N2]; try done; exfalso;
      (eapply brackets_excl; [|by apply Hu]); done.
  - exfalso. by eapply brackets_excl; [|apply Hu].
Qed.

(** C17. No wake-up is lost: whenever a mutex is free and threads wait for it,
    a thread that is about to retry its lock is running or in the run queue;
    and every waiting thread is either asleep or queued on a mutex. *)
Theorem no_lost_wakeup s0 s m mx :
  sync_ok s0 → reachable s0 s → mutexes s !! m = Some mx →
  (value mx ≠ 0 → waiting mx ≠ [] → ∃ r, retrying s r m ∧
     (r ∈ runnable_threads (sc s) ∨ curr_thread (sc s) = Some r)) ∧
  (∀ t, t ∈ waiting mx → st (sc s) t = Some WAITING ∧ retrying s t m) ∧
  (∀ t, st (sc s) t = Some WAITING → t ∈ sleeping_threads (sc s) ∨
     ∃ m' mx', mutexes s !! m' = Some mx' ∧ t ∈ waiting mx').
Proof.
  intros H0 Hr Hm. pose proof (sy_inv _ (reachable_sync_ok s0 s H0 Hr)) as Hok. split_and!.
  - intros Hv Hw. destruct (sy_woken s Hok m mx Hm Hv Hw) as (r & Hre & Hal).
    exists r. split; [done|]. tauto.
  - intros t Ht. destruct (sy_waiting s Hok m mx t Hm Ht) as (? & _ & ?). done.
  - apply (sy_blocked s Hok).
Qed.

(** In every reachable state of a bracketed program the next operation and
    the next timer tick succeed: no assertion fails, no thread is put into a
    queue it is already in, and interrupts are on again afterwards. *)
Theorem mutex_operations_never_fail s0 s :
  sync_ok s0 → reachable s0 s →
  (∃ s', run_op s = Ok tt s' ∧ interrupts (sc s') = true) ∧
  (∃ s', tick s = Ok tt s' ∧ interrupts (sc s') = true).
Proof.
  intros H0 Hr. pose proof (reachable_sync_ok s0 s H0 Hr) as Hok. split.
  - destruct (run_op_ok s Hok) as (s' & Hrun & Hok'). exists s'. split; [done|apply Hok'].
  - destruct (tick_ok s Hok) as (s' & Hrun & Hok'). exists s'. split; [done|apply Hok'].
Qed.

(** A signal sent without holding the mutex of the waiter, as the keyboard
    interrupt does, can find the waiter already in the run queue: it was
    preempted between joining the queue of the condition variable and
    blocking; [cond_signal] then links it into the run queue a second time. *)
Theorem signal_without_mutex_corrupts_runq :
  ∃ s, reachable demo_race s ∧ 2 ∈ runnable_threads (sc s) ∧ run_op s = Stop BadAccess.
Proof.
  destruct (play [true; true; true; false; true] demo_race) as [s|] eqn:E;
    [|vm_compute in E; discriminate].
  exists s. split; [by eapply play_reachable; [apply reach_refl|]|].
  vm_compute in E. injection E as <-. split; [|by vm_compute].
  cbn. apply elem_of_cons. right. apply list_elem_of_singleton. done.
Qed.

(** ** Instances *)
Lemma demo_ops t : ops_of demo_locks t =
  if decide (t = 2) then [MLock 10; Work; MUnlock 10]
  else if decide (t = 3) then [MLock 10; MUnlock 10] else [].
Proof.
  unfold ops_of, demo_locks, todo. destruct (decide (t = 2)) as [->|]; [by rewrite lookup_insert_eq|].
  rewrite lookup_insert_ne by done. destruct (decide (t = 3)) as [->|]; [by rewrite lookup_singleton_eq|].
  by rewrite lookup_singleton_ne.
Qed.

Lemma demo_mutex m mx : mutexes demo_locks !! m = Some mx → m = 10 ∧ mx = free_mutex.
Proof. cbn. intros H. apply lookup_singleton_Some in H. naive_solver. Qed.

Lemma demo_locks_ok : sync_ok demo_locks.
Proof.
  split; [split|done|]; cbn.
  - apply demo_sched_ok.
  - done.
  - by eexists.
  - by rewrite demo_ops.
  - intros t. rewrite demo_ops. repeat case_decide; repeat constructor.
  - intros t o m. rewrite demo_ops. intros Hin Ho.
    assert (m = 10) as ->.
    { repeat case_decide; rewrite ?elem_of_cons, elem_of_nil in Hin; naive_solver. }
    rewrite lookup_singleton_eq. by eexists.
  - intros m mx [-> ->]%demo_mutex. right. split; [done|]. intros u. rewrite demo_ops.
    repeat case_decide; cbn; repeat (rewrite decide_True by done || rewrite decide_False by done); done.
  - intros m mx t [-> ->]%demo_mutex Ht. by apply elem_of_nil in Ht.
  - intros m mx [-> ->]%demo_mutex. constructor.
  - by intros m mx [-> ->]%demo_mutex.
  - intros t Ht. left. destruct (st_Some _ _ _ Ht) as (x & Hx & Hw).
    destruct (demo_threads t x Hx) as [E|[E|[E|[E|E]]]]; subst t; vm_compute in Ht; try discriminate.
    by apply list_elem_of_singleton.
  - intros c [= <-]. by right.
Qed.

(** Thread 2 has taken the mutex, thread 3 waits for it. *)
Definition demo_contended : list bool := [true; false; true].

Lemma mutual_exclusion_witness : ∃ s, reachable demo_locks s ∧ holds s 2 10 ∧
  ∀ t, holds s t 10 → t = 2.
Proof.
  destruct (play demo_contended demo_locks) as [s|] eqn:E; [|vm_compute in E; discriminate E].
  assert (reachable demo_locks s) as Hr by exact (play_reachable _ _ _ _ (reach_refl _) E).
  assert (holds s 2 10) as H2.
  { vm_compute in E. injection E as <-. vm_compute. split; reflexivity. }
  exists s. split; [exact Hr|]. split; [exact H2|]. intros t Ht.
  exact (mutual_exclusion demo_locks s 10 t 2 demo_locks_ok Hr Ht H2).
Defined.

Lemma no_lost_wakeup_witness : ∃ s mx, reachable demo_locks s ∧ mutexes s !! 10 = Some mx ∧
  waiting mx = [3] ∧ st (sc s) 3 = Some WAITING.
Proof.
  destruct (play demo_contended demo_locks) as [s|] eqn:E; [|vm_compute in E; discriminate E].
  assert (reachable demo_locks s) as Hr by exact (play_reachable _ _ _ _ (reach_refl _) E).
  assert (∃ mx, mutexes s !! 10 = Some mx ∧ waiting mx = [3]) as (mx & Hm & Hw).
  { vm_compute in E. injection E as <-. eexists. split; reflexivity. }
  exists s, mx. split; [exact Hr|]. split; [exact Hm|]. split; [exact Hw|].
  destruct (no_lost_wakeup demo_locks s 10 mx demo_locks_ok Hr Hm) as (_ & H2 & _).
  apply H2. rewrite Hw. left.
Defined.

Lemma mutex_operations_never_fail_witness : ∃ s', run_op demo_locks = Ok tt s'.
Proof.
  destruct (mutex_operations_never_fail demo_locks demo_locks demo_locks_ok (reach_refl _))
    as [(s' & Hrun & _) _]. exists s'. exact Hrun.
Defined.
