(* ===== verification/CString.v ===== *)
(** * C strings (410kern/string/)

    The string functions the kernel calls, on the contents of the buffers they
    are given: a buffer is the list of its bytes, [None] the result of reading
    past its end.  [le] and [le4] are words as their
    bytes in memory.  [text l t] says that [l] holds the terminated string [t]. *)

From S2P Require Import Prelude.

(** A byte read as a [char], which is signed. *)
Definition char_of (b : Z) : Z := (b + 128) mod 256 - 128.

Definition byte (b : Z) : Prop := 0 ≤ b < 256.

(** The value of bytes in memory, and the bytes of a word. *)
Fixpoint le (l : list Z) : Z := match l with [] => 0 | b :: l' => b + 256 * le l' end.
Definition le4 (x : Z) : list Z := [x mod 256; x / 256 mod 256; x / 65536 mod 256; x / 16777216 mod 256].

Lemma le_le4 x : word x → le (le4 x) = x.
Proof. unfold word. intros Hx. cbn. dlia. Qed.

Lemma le_nonneg l : Forall byte l → 0 ≤ le l.
Proof. induction 1 as [|b l Hb _ IH]; cbn; [lia|]. unfold byte in Hb. lia. Qed.

Fixpoint strlen (s : list Z) : option Z :=
  match s with
  | [] => None
  | c :: s' => if decide (c = 0) then Some 0 else n ← strlen s'; Some (n + 1)
  end.

Fixpoint strcmp (s1 s2 : list Z) : option Z :=
  match s1, s2 with
  | a :: s1', b :: s2' =>
      if decide (a ≠ 0 ∧ b ≠ 0) then if decide (a ≠ b) then Some (a - b) else strcmp s1' s2'
      else Some (a - b)
  | _, _ => None
  end.

Fixpoint strncmp (s1 s2 : list Z) (n : nat) : option Z :=
  match n with
  | O => Some 0
  | S n' =>
      match s1, s2 with
      | a :: s1', b :: s2' =>
          if decide (a ≠ b) then Some (char_of a - char_of b)
          else if decide (a = 0) then Some 0
          else strncmp s1' s2' n'
      | _, _ => None
      end
  end.

(** The characters are converted to [unsigned int], so that the difference is
    taken modulo 2^32 and read as an [int]. *)
Fixpoint memcmp (s1 s2 : list Z) (size : nat) : option Z :=
  match size with
  | O => Some 0
  | S n' =>
      match s1, s2 with
      | a :: s1', b :: s2' =>
          if decide (a ≠ b) then Some (s32 (u32 (char_of a) - u32 (char_of b)))
          else memcmp s1' s2' n'
      | _, _ => None
      end
  end.

(** The bytes written to the start of [to]. *)
Fixpoint strcpy (from : list Z) : option (list Z) :=
  match from with
  | [] => None
  | c :: from' => if decide (c = 0) then Some [0] else l ← strcpy from'; Some (c :: l)
  end.

Definition memset (c : Z) (len : nat) : list Z := replicate len (c mod 256).

(** [memcpy(to, from, length from)]: the new contents of the buffer [to]. *)
Definition copy_over (to from : list Z) : option (list Z) :=
  if decide (length from ≤ length to)%nat then Some (from ++ drop (length from) to) else None.

(** ** What they compute *)
Definition text (l t : list Z) : Prop :=
  Forall (λ b, 0 < b < 256) t ∧ ∃ r, l = t ++ 0 :: r.

Lemma text_cons b l t : 0 < b < 256 → text (b :: l) (b :: t) ↔ text l t.
Proof.
  intros Hb. split.
  - intros [Ht%Forall_cons_1 (r & E)]. injection E as E. split; [apply Ht|by exists r].
  - intros [Ht (r & ->)]. split; [by apply Forall_cons|by exists r].
Qed.

Lemma text_nil l : text (0 :: l) [].
Proof. split; [done|by exists l]. Qed.

(** Induction on a string in its buffer. *)
Lemma text_ind (P : list Z → list Z → Prop) :
  (∀ l, P (0 :: l) []) →
  (∀ b l t, 0 < b < 256 → text l t → P l t → P (b :: l) (b :: t)) →
  ∀ l t, text l t → P l t.
Proof.
  intros H0 H1 l t [Ht (r & ->)]. induction Ht as [|b t Hb Ht IH]; [apply H0|].
  apply H1; [done|by split; [|eexists]|done].
Qed.

Lemma text_inj l t t' : text l t → text l t' → t = t'.
Proof.
  intros Ht. revert t'. induction Ht as [l|b l t Hb Ht IH] using text_ind;
    intros [|b' t'] [Hf (r & E)]; injection E; intros; subst; try done.
  - apply Forall_cons in Hf as [? _]. lia.
  - lia.
  - f_equal. apply IH. apply Forall_cons in Hf as [_ Hf]. split; [done|by eexists].
Qed.

Lemma strlen_ok l t : text l t → strlen l = Some (Z.of_nat (length t)).
Proof.
  induction 1 as [l|b l t Hb Ht IH] using text_ind; [done|]. cbn.
  rewrite decide_False by lia. rewrite IH. cbn. f_equal. lia.
Qed.

Lemma strcpy_ok l t : text l t → strcpy l = Some (t ++ [0]).
Proof.
  induction 1 as [l|b l t Hb Ht IH] using text_ind; [done|]. cbn.
  rewrite decide_False by lia. by rewrite IH.
Qed.

(** [strcmp] is total on terminated strings and 0 exactly on equal ones. *)
Lemma strcmp_ok l1 t1 l2 t2 :
  text l1 t1 → text l2 t2 → ∃ r, strcmp l1 l2 = Some r ∧ (r = 0 ↔ t1 = t2).
Proof.
  intros Ht1. revert l2 t2. induction Ht1 as [l1|a l1 t1 Ha Ht1 IH] using text_ind;
    intros l2 t2 Ht2; induction Ht2 as [l2|b l2 t2 Hb Ht2 _] using text_ind; cbn.
  - rewrite decide_False by lia. by exists 0.
  - rewrite decide_False by lia. exists (0 - b). split; [done|]. split; [lia|done].
  - rewrite decide_False by lia. exists (a - 0). split; [done|]. split; [lia|done].
  - rewrite decide_True by lia. case_decide as E.
    + exists (a - b). split; [done|]. split; [lia|by intros [= -> _]].
    + destruct (IH l2 t2 Ht2) as (r & -> & Hr). exists r. split; [done|].
      rewrite Hr. split; [intros ->; f_equal; lia|by intros [= _ ->]].
Qed.

(** Comparing a string of at most [n] bytes with a buffer of [n] bytes never
    reads past the end of the buffer, terminated or not. *)
Lemma strcmp_window l1 t1 l2 :
  text l1 t1 → Forall byte l2 → (length t1 < length l2)%nat →
  ∃ r, strcmp l1 l2 = Some r ∧ (r = 0 ↔ t1 ++ [0] `prefix_of` l2).
Proof.
  intros Ht1. revert l2. induction Ht1 as [l1|a l1 t1 Ha Ht1 IH] using text_ind;
    intros [|b l2] Hb Hlen; cbn in *; try lia; apply Forall_cons in Hb as [Hb Hl2]; unfold byte in Hb.
  - rewrite decide_False by lia. exists (0 - b). split; [done|]. split.
    + intros E. replace b with 0 by lia. by exists l2.
    + intros [k E]. injection E. lia.
  - destruct (decide (b = 0)) as [->|Hb0].
    { rewrite decide_False by lia. exists (a - 0). split; [done|]. split; [lia|].
      intros [k E]. injection E. lia. }
    rewrite decide_True by lia. case_decide as E.
    + exists (a - b). split; [done|]. split; [lia|]. intros [k E']. injection E'. lia.
    + destruct (IH l2) as (r & -> & Hr); [done|lia|]. exists r. split; [done|]. rewrite Hr.
      replace b with a by lia. split; [by apply prefix_cons|by apply prefix_cons_inv_2].
Qed.

Lemma char_of_inj a b : byte a → byte b → char_of a = char_of b → a = b.
Proof. unfold byte, char_of. intros. dlia. Qed.

(** With room for the terminators, [strncmp] is 0 exactly on equal strings. *)
Lemma strncmp_ok l1 t1 l2 t2 n :
  text l1 t1 → text l2 t2 → (length t1 < n)%nat →
  ∃ r, strncmp l1 l2 n = Some r ∧ (r = 0 ↔ t1 = t2).
Proof.
  intros Ht1. revert l2 t2 n. induction Ht1 as [l1|a l1 t1 Ha Ht1 IH] using text_ind;
    intros l2 t2 [|n] Ht2 Hn; cbn in Hn; try lia;
    induction Ht2 as [l2|b l2 t2 Hb Ht2 _] using text_ind; cbn.
  - by exists 0.
  - rewrite decide_True by lia. exists (char_of 0 - char_of b). split; [done|].
    split; [|done]. intros E. assert (0 = b); [|lia]. apply char_of_inj; unfold byte; lia.
  - rewrite decide_True by lia. exists (char_of a - char_of 0). split; [done|].
    split; [|done]. intros E. assert (a = 0); [|lia]. apply char_of_inj; unfold byte; lia.
  - case_decide as E.
    + eexists. split; [done|]. split; [|by intros [= -> _]]. intros E'. destruct E.
      apply char_of_inj; unfold byte; lia.
    + rewrite decide_False by lia. destruct (IH l2 t2 n Ht2) as (r & -> & Hr); [lia|].
      exists r. split; [done|]. rewrite Hr. split; [intros ->; f_equal; lia|by intros [= _ ->]].
Qed.

(** Comparing the first [n] bytes of two buffers that have them. *)
Lemma memcmp_ok l1 l2 n :
  Forall byte l1 → Forall byte l2 → (n ≤ length l1)%nat → (n ≤ length l2)%nat →
  ∃ r, memcmp l1 l2 n = Some r ∧ (r = 0 ↔ take n l1 = take n l2).
Proof.
  revert l1 l2. induction n as [|n IH]; intros [|a l1] [|b l2] H1 H2; cbn; try (exists 0; done); try lia.
  intros Hn1 Hn2. apply Forall_cons in H1 as [Ha H1], H2 as [Hb H2]. case_decide as E.
  - eexists. split; [done|]. split; [|by intros [= -> _]]. intros E'. destruct E.
    apply char_of_inj; try done. unfold byte, char_of, u32, s32 in *. dlia.
  - destruct (IH l1 l2) as (r & -> & Hr); [done|done|lia|lia|]. exists r. split; [done|].
    rewrite Hr. split; [intros ->; f_equal; lia|by intros [= _ ->]].
Qed.
