(* ===== verification/UserMem.v ===== *)
(** * User memory as the kernel accesses it (kern/syscalls/syscall_util.c)

    The kernel reads and writes user memory through the page directory in %cr3
    ([read_user], [write_user]): an address that is not mapped is a page fault
    in the kernel ([BadAccess]), and so is, for this model, one below
    [USER_MEM_START], where kernel objects live that are not modelled as bytes.
    CR0.WP is clear, so kernel writes ignore the write-enable bit.  The file
    holds [is_pointer_valid] and [copy_user_data], and shows that in an address
    space whose frames are mapped once ([private]) a write changes one byte. *)

From S2P Require Import Prelude Locks FrameAlloc Paging VM VMInv VMPages VMMap VMFault VMQuery VMTheorems CString.

Section user_memory.
Context {H : Type} `{KernelHeap H}.
Implicit Types (s : vm H).

Definition is_user (va : Z) : bool := bool_decide (USER_MEM_START ≤ va < W32).

Definition read_user (va : Z) : M (vm H) Z :=
  if is_user va then
    s ← get;
    deref (read_byte s (cr3 s) va)
  else halt BadAccess.

Definition put_byte (f off b : Z) (s : vm H) : vm H :=
  set_phys (<[f := <[off := b]> (frame_data s f)]> (phys s)) s.

Definition write_user (va b : Z) : M (vm H) unit :=
  if is_user va then
    s ← get;
    f ← deref (translate s (cr3 s) va);
    modify (put_byte f (va mod 4096) b)
  else halt BadAccess.

(** [memcpy(va, l, length l)]. *)
Fixpoint write_bytes (va : Z) (l : list Z) : M (vm H) unit :=
  match l with
  | [] => mret tt
  | b :: l' => write_user va b ;; write_bytes (va + 1) l'
  end.

(** An [int] in user memory. *)
Definition read_word (va : Z) : M (vm H) Z :=
  b0 ← read_user va; b1 ← read_user (u32 (va + 1)); b2 ← read_user (u32 (va + 2));
  b3 ← read_user (u32 (va + 3));
  mret (le [b0; b1; b2; b3]).

Definition write_word (va v : Z) : M (vm H) unit := write_bytes va (le4 v).

(** ** kern/syscalls/syscall_util.c *)
Definition is_pointer_valid (ptr bytes : Z) : M (vm H) Z :=
  if decide (ptr < USER_MEM_START) then mret ERR_INVAL
  else
    r ← is_memory_range_mapped ptr bytes;
    mret (if decide (r = MEMORY_REGION_UNMAPPED) then ERR_INVAL else 0).

(** The loop of [copy_user_data] with [n] bytes of [buf] left: the status (the
    index of the terminator, [max_size] or [ERR_INVAL]) and the bytes copied. *)
Fixpoint copy_loop (n : nat) (ptr count : Z) : M (vm H) (Z * list Z) :=
  match n with
  | O => mret (count, [])
  | Datatypes.S n' =>
      r ← is_pointer_valid (u32 (ptr + count)) 1;
      if decide (r < 0) then mret (ERR_INVAL, [])
      else
        b ← read_user (u32 (ptr + count));
        if decide (b = 0) then mret (count, [b])
        else
          '(rc, l) ← copy_loop n' ptr (count + 1);
          mret (rc, b :: l)
  end.

(** The result and what is written to the start of the kernel buffer (which is
    not NULL). *)
Definition copy_user_data (ptr max_size : Z) : M (vm H) (Z * list Z) :=
  if decide (ptr = NULL ∨ max_size ≤ 0) then mret (ERR_INVAL, [])
  else
    '(count, l) ← copy_loop (Z.to_nat max_size) ptr 0;
    if decide (count < 0) then mret (count, l)
    else if decide (count = max_size) then mret (ERR_BIG, l)
    else mret (count + 1, l).

End user_memory.

Section user_memory_facts.
Context {H : Type} `{KernelHeapSpec H}.
Implicit Types (s : vm H) (own : gmap Z (Z * Z)) (pds : gset Z) (fs : list Z).

Lemma is_user_true va : is_user va = true ↔ USER_MEM_START ≤ va < W32.
Proof. apply bool_decide_eq_true. Qed.

Lemma user_word va : is_user va = true → word va ∧ USER_MEM_START ≤ va.
Proof. rewrite is_user_true. unfold word, USER_MEM_START. lia. Qed.

(** ** Address spaces whose frames are mapped once *)
Definition private s own (pd : Z) : Prop :=
  ∀ va f, is_user va = true → translate s pd va = Some f → refs s own f = 1.

Lemma translate_pte s pd va f :
  translate s pd va = Some f → ∃ e, pte_at s pd va = Some e ∧ f = GET_ADDR_FROM_ENTRY e.
Proof. unfold translate. intros (e & -> & ?)%fmap_Some. by exists e. Qed.

Lemma translate_mapped s pd va : is_Some (pte_at s pd va) ↔ is_Some (translate s pd va).
Proof. unfold translate. by rewrite fmap_is_Some. Qed.

Lemma single_inj x s own pds fs pd va va' f :
  vm_wf x s own pds fs → pd ∈ pds → refs s own f = 1 →
  is_user va = true → is_user va' = true →
  translate s pd va = Some f → translate s pd va' = Some f → page_of va = page_of va'.
Proof.
  intros Hwf Hpd Href [Hva Hu]%user_word [Hva' Hu']%user_word Ht Ht'.
  apply translate_pte in Ht as (e & He & Ef), Ht' as (e' & He' & Ef').
  destruct (pte_at_inv _ _ _ _ _ _ _ _ Hwf Hpd Hva Hu He) as (d & Hd & Ho & Hj & _).
  destruct (pte_at_inv _ _ _ _ _ _ _ _ Hwf Hpd Hva' Hu' He') as (d' & Hd' & Ho' & Hj' & _).
  destruct (decide (page_of va = page_of va')) as [|Hne]; [done|exfalso].
  assert (2 ≤ refs s own (GET_ADDR_FROM_ENTRY e)); [|rewrite <- Ef in *; lia].
  apply (refs_two s own (GET_ADDR_FROM_ENTRY d) (GET_PT_INDEX va) e
           (GET_ADDR_FROM_ENTRY d') (GET_PT_INDEX va') e'); [by eauto|done|by eauto|done|congruence|].
  intros [= E1 E2]. apply Hne. rewrite E1, Ho' in Ho. injection Ho as E3.
  unfold page_of. rewrite !pd_index_eq, !pt_index_eq in * by done. unfold word in *. dlia.
Qed.

Lemma grows_private s own fs s' own' fs' pds pd :
  vm_wf none s own pds fs → grows s own fs s' own' fs' pds pd → pd ∈ pds →
  private s own pd → private s' own' pd.
Proof.
  intros Hwf Hgr Hpd Hpriv va f0 Hu Ht. destruct (user_word va Hu) as [Hva Hvu].
  apply translate_pte in Ht as (e & He & ->).
  destruct (pte_at_inv _ _ _ _ _ _ _ _ (gr_wf _ _ _ _ _ _ _ _ Hgr) Hpd Hva Hvu He)
    as (d & _ & _ & _ & _ & _ & _ & Hf).
  apply (is_frame_machine _ (fa s)) in Hf; [|by rewrite (gr_machine _ _ _ _ _ _ _ _ Hgr)].
  rewrite (gr_refs _ _ _ _ _ _ _ _ Hgr) by done.
  destruct (gr_pte _ _ _ _ _ _ _ _ Hgr pd va Hpd Hva)
    as [Heq|(_ & _ & _ & f & fl & Hfl & Hin & Hnin & Hp & _)].
  - rewrite He in Heq. assert (translate s pd va = Some (GET_ADDR_FROM_ENTRY e)) as Ht
      by (unfold translate; by rewrite <- Heq).
    rewrite (Hpriv va _ Hu Ht), decide_False; [done|]. intros [Hin _].
    apply (wf_free _ _ _ _ _ Hwf _ Hf) in Hin. rewrite (Hpriv va _ Hu Ht) in Hin.
    unfold none in Hin. lia.
  - rewrite He in Hp. injection Hp as ->.
    pose proof (fs_frames _ _ (wf_alloc _ _ _ _ _ Hwf)) as Hall.
    eapply Forall_forall in Hall; [|exact Hin]. pose proof Hall as [Hm Hr].
    pose proof (wf_machine _ _ _ _ _ Hwf) as Hmach.
    rewrite addr_of_entry in * by (done || unfold machine_ok, USER_MEM_START, PAGE_SIZE in *;
      rewrite FREE_FRAMES_COUNT_eq in Hr; lia).
    apply (wf_free _ _ _ _ _ Hwf f Hall) in Hin as Hz. unfold none in Hz.
    rewrite decide_True by done. lia.
Qed.

(** ** Writing bytes *)

(** The contents at [va'] after [l] was written at [va]. *)
Definition overlay (va : Z) (l : list Z) (va' : Z) (old : option Z) : option Z :=
  if decide (va ≤ va' < va + Z.of_nat (length l)) then l !! Z.to_nat (va' - va) else old.

(** [s'] is [s] after [l] was written at [va] in the address space of [pd]. *)
Record wrote s (pd va : Z) (l : list Z) s' : Prop := {
  wr_shape : ∃ ph, s' = set_phys ph s;
  wr_bytes : ∀ va', is_user va' = true →
    read_byte s' pd va' = overlay va l va' (read_byte s pd va');
  wr_other : ∀ f, (∀ va', is_user va' = true → translate s pd va' ≠ Some f) →
    phys s' !! f = phys s !! f;
}.

Lemma read_byte_put x s own pds fs pd va f b va' :
  vm_wf x s own pds fs → pd ∈ pds → refs s own f = 1 →
  is_user va = true → is_user va' = true → translate s pd va = Some f →
  read_byte (put_byte f (va mod 4096) b s) pd va' =
  if decide (va = va') then Some b else read_byte s pd va'.
Proof.
  intros Hwf Hpd Href Hva Hva' Ht. unfold read_byte.
  change (translate (put_byte f (va mod 4096) b s)) with (translate s).
  case_decide as E.
  { subst va'. rewrite Ht. cbn. unfold frame_data, put_byte. cbn.
    by rewrite lookup_insert_eq; cbn; rewrite lookup_insert_eq. }
  destruct (translate s pd va') as [f'|] eqn:Ht'; [|done]. cbn. f_equal.
  unfold frame_data, put_byte. cbn. destruct (decide (f = f')) as [<-|Hf].
  - rewrite lookup_insert_eq. cbn. rewrite lookup_insert_ne; [done|]. intros E'.
    pose proof (single_inj x s own pds fs pd va va' f Hwf Hpd Href Hva Hva' Ht Ht') as Hp.
    unfold page_of in Hp. apply E. lia.
  - by rewrite lookup_insert_ne.
Qed.

(** Writing to frames that are mapped once. *)
Lemma write_range_ok x s own pds fs pd va l :
  vm_wf x s own pds fs → pd ∈ pds → cr3 s = pd →
  (∀ va', va ≤ va' < va + Z.of_nat (length l) →
     is_user va' = true ∧ ∃ f, translate s pd va' = Some f ∧ refs s own f = 1) →
  ∃ s', write_bytes va l s = Ok tt s' ∧ wrote s pd va l s'.
Proof.
  revert s va. induction l as [|b l IH]; intros s va Hwf Hpd Hcr Hall.
  { exists s. split; [done|]. split; [by exists (phys s); destruct s| |done].
    intros va' Hu. unfold overlay. rewrite decide_False; [done|]. cbn. lia. }
  destruct (Hall va) as (Hu & f & Hf & Href); [cbn [length]; lia|]. cbn [write_bytes].
  set (s1 := put_byte f (va mod 4096) b s).
  assert (write_user va b s = Ok tt s1) as Hw.
  { unfold write_user. rewrite Hu, bind_get, Hcr, Hf. done. }
  rewrite (bind_ok _ _ _ _ _ Hw).
  destruct (IH s1 (va + 1)) as (s' & Hrun & [[ph ->] Hb Ho]); try done.
  { by destruct Hwf. }
  { intros va' Hr. apply (Hall va'). cbn [length]. lia. }
  eexists. split; [done|]. split; [by exists ph| |].
  - intros va' Hu'. rewrite Hb by done.
    unfold s1. rewrite (read_byte_put x s own pds fs pd va f b va') by done. unfold overlay. cbn [length].
    destruct (decide (va = va')) as [<-|Hne].
    + rewrite decide_False, decide_True by lia. by rewrite Z.sub_diag.
    + destruct (decide (va + 1 ≤ va' < va + 1 + Z.of_nat (length l))).
      * rewrite decide_True by lia. by replace (Z.to_nat (va' - va)) with
          (Datatypes.S (Z.to_nat (va' - (va + 1)))) by lia.
      * by rewrite decide_False by lia.
  - intros g Hg. rewrite Ho by done. cbn. rewrite lookup_insert_ne; [done|].
    intros ->. by apply (Hg va).
Qed.

Lemma write_bytes_ok x s own pds fs pd va l :
  vm_wf x s own pds fs → pd ∈ pds → cr3 s = pd → private s own pd →
  (∀ va', va ≤ va' < va + Z.of_nat (length l) → is_user va' = true ∧ is_Some (pte_at s pd va')) →
  ∃ s', write_bytes va l s = Ok tt s' ∧ wrote s pd va l s'.
Proof.
  intros Hwf Hpd Hcr Hpriv Hall. apply (write_range_ok x s own pds fs); try done.
  intros va' Hr. destruct (Hall va' Hr) as [Hu [f Hf]%translate_mapped]. split; [done|].
  exists f. split; [done|]. by apply (Hpriv va').
Qed.

(** A page that can be written is mapped once. *)
Lemma writable_single s own pds fs pd va e :
  vm_wf none s own pds fs → cow_ok s own → pd ∈ pds → is_user va = true →
  pte_at s pd va = Some e → writable e = true →
  ∃ f, translate s pd va = Some f ∧ refs s own f = 1.
Proof.
  intros Hwf Hcow Hpd [Hva Hu]%user_word Hpte Hw. exists (GET_ADDR_FROM_ENTRY e).
  split; [unfold translate; by rewrite Hpte|].
  destruct (pte_at_inv _ _ _ _ _ _ _ _ Hwf Hpd Hva Hu Hpte) as (d & _ & Ho & He & _ & Hne & _).
  by eapply Hcow.
Qed.

(** What [vm_wf] and [private] say does not depend on the contents of memory. *)
Lemma wrote_wf x s own pds fs pd va l s' :
  wrote s pd va l s' → vm_wf x s own pds fs → vm_wf x s' own pds fs.
Proof. intros [[ph ->] _ _]. by intros []. Qed.

Lemma wrote_cow s own pd va l s' : wrote s pd va l s' → cow_ok s own → cow_ok s' own.
Proof. by intros [[ph ->] _ _]. Qed.

Lemma wrote_private s own pd va l s' : wrote s pd va l s' → private s own pd → private s' own pd.
Proof. by intros [[ph ->] _ _]. Qed.

Lemma wrote_pte s pd va l s' pd' va' : wrote s pd va l s' → pte_at s' pd' va' = pte_at s pd' va'.
Proof. by intros [[ph ->] _ _]. Qed.

Lemma wrote_cr3 s pd va l s' : wrote s pd va l s' → cr3 s' = cr3 s.
Proof. by intros [[ph ->] _ _]. Qed.

(** ** Reading what was written *)
Definition bytes_at s (va : Z) (l : list Z) : Prop :=
  ∀ i b, l !! i = Some b →
    is_user (va + Z.of_nat i) = true ∧ read_byte s (cr3 s) (va + Z.of_nat i) = Some b.

Definition word_at s (va v : Z) : Prop := bytes_at s va (le4 v).

Lemma read_user_ok s va b :
  is_user va = true → read_byte s (cr3 s) va = Some b → read_user va s = Ok b s.
Proof. intros Hu Hb. unfold read_user. by rewrite Hu, bind_get, Hb. Qed.

Lemma read_word_ok s va v : word v → word_at s va v → read_word va s = Ok v s.
Proof.
  intros Hv Hat.
  destruct (Hat 0%nat _ eq_refl) as [U0 R0], (Hat 1%nat _ eq_refl) as [U1 R1],
    (Hat 2%nat _ eq_refl) as [U2 R2], (Hat 3%nat _ eq_refl) as [U3 R3].
  change (va + Z.of_nat 1) with (va + 1) in *. change (va + Z.of_nat 2) with (va + 2) in *.
  change (va + Z.of_nat 3) with (va + 3) in *. rewrite Z.add_0_r in *.
  apply is_user_true in U1 as V1, U2 as V2, U3 as V3. unfold USER_MEM_START in *.
  unfold read_word. rewrite !u32_small by (unfold word; lia).
  rewrite (bind_ok _ _ _ _ _ (read_user_ok s va _ U0 R0)).
  rewrite (bind_ok _ _ _ _ _ (read_user_ok s _ _ U1 R1)).
  rewrite (bind_ok _ _ _ _ _ (read_user_ok s _ _ U2 R2)).
  rewrite (bind_ok _ _ _ _ _ (read_user_ok s _ _ U3 R3)).
  change (Ok (le (le4 v)) s = Ok v s). by rewrite le_le4.
Qed.

Lemma wrote_bytes_at s pd va l s' :
  wrote s pd va l s' → cr3 s = pd → (∀ i, (i < length l)%nat → is_user (va + Z.of_nat i) = true) →
  bytes_at s' va l.
Proof.
  intros Hw Hcr Hu i b Hi. pose proof (lookup_lt_Some _ _ _ Hi) as Hlt.
  split; [by apply Hu|]. rewrite (wrote_cr3 _ _ _ _ _ Hw), Hcr.
  rewrite (wr_bytes _ _ _ _ _ Hw) by (by apply Hu). unfold overlay.
  rewrite decide_True by lia. by replace (Z.to_nat (va + Z.of_nat i - va)) with i by lia.
Qed.

(** Bytes outside the written range stay. *)
Lemma wrote_bytes_away s pd va l s' a l' :
  wrote s pd va l s' → cr3 s = pd → bytes_at s a l' →
  (a + Z.of_nat (length l') ≤ va ∨ va + Z.of_nat (length l) ≤ a) → bytes_at s' a l'.
Proof.
  intros Hw Hcr Hat Haway i b Hi. destruct (Hat i b Hi) as [Hu Hr].
  pose proof (lookup_lt_Some _ _ _ Hi) as Hlt. split; [done|].
  rewrite (wrote_cr3 _ _ _ _ _ Hw), Hcr in *. rewrite (wr_bytes _ _ _ _ _ Hw) by done.
  unfold overlay. by rewrite decide_False by lia.
Qed.

(** ** Reading strings *)
Lemma pte_at_page s pd va va' :
  word va → word va' → page_of va = page_of va' → pte_at s pd va = pte_at s pd va'.
Proof.
  intros Hva Hva' Hp. unfold pte_at. rewrite !pd_index_eq, !pt_index_eq by done.
  unfold page_of in Hp. by replace (va / 4194304) with (va' / 4194304) by dlia;
    replace ((va / 4096) `mod` 1024) with ((va' / 4096) `mod` 1024) by dlia.
Qed.

Lemma read_byte_mapped s pd va : is_Some (read_byte s pd va) ↔ is_Some (pte_at s pd va).
Proof.
  rewrite translate_mapped. unfold read_byte. destruct (translate s pd va); cbn; [|done].
  split; intros; by eexists.
Qed.

Definition mapped s (va : Z) : Prop := is_Some (pte_at s (cr3 s) va).

(** The query looks at the page of the byte and at the page of the next byte. *)
Lemma is_pointer_valid_one s own pds fs a :
  vm_wf none s own pds fs → cr3 s ∈ pds → USER_MEM_START ≤ a → a + 1 < 0xFFFFF000 →
  ∃ r, is_pointer_valid a 1 s = Ok r s ∧
    (r = 0 ∧ (mapped s a ∨ mapped s (a + 1)) ∨ r = ERR_INVAL ∧ ¬ mapped s a ∧ ¬ mapped s (a + 1)).
Proof.
  intros Hwf Hpd Ha He. unfold is_pointer_valid. rewrite decide_False by lia.
  unfold USER_MEM_START in Ha.
  destruct (is_memory_range_mapped_ok s own pds fs a 1) as (r & Hrun & Hr);
    [done|done|unfold query_range, USER_MEM_START; lia|].
  rewrite (bind_ok _ _ _ _ _ Hrun). eexists. split; [done|].
  destruct Hr as [(-> & va & Hva & Hp & Hm)|[-> Hn]].
  - left. split; [done|]. unfold mapped. unfold page_of in Hp.
    destruct (decide (va / 4096 = a / 4096)) as [E|E]; [left|right];
      (erewrite pte_at_page; [exact Hm|unfold word; lia|done|unfold page_of; dlia]).
  - right. split; [done|]. unfold mapped, page_of in *.
    split; intros Hm; rewrite Hn in Hm by (unfold word in *; dlia); by destruct Hm.
Qed.

(** The bytes [l] are readable at [ptr], none of them zero. *)
Definition nonzero_at s (ptr : Z) (l : list Z) : Prop :=
  ∀ i b, l !! i = Some b → b ≠ 0 ∧ read_byte s (cr3 s) (ptr + Z.of_nat i) = Some b.

Lemma nonzero_at_cons s ptr b l :
  nonzero_at s ptr (b :: l) ↔
  b ≠ 0 ∧ read_byte s (cr3 s) ptr = Some b ∧ nonzero_at s (ptr + 1) l.
Proof.
  split.
  - intros Hl. destruct (Hl 0%nat b eq_refl) as [? Hb]. rewrite Z.add_0_r in Hb.
    split_and!; [done..|]. intros i c Hc. destruct (Hl (S i) c Hc). split; [done|].
    by replace (ptr + 1 + Z.of_nat i) with (ptr + Z.of_nat (S i)) by lia.
  - intros (? & Hb & Hl) [|i] c Hc; [injection Hc as <-; by rewrite Z.add_0_r|].
    destruct (Hl i c Hc). split; [done|].
    by replace (ptr + Z.of_nat (S i)) with (ptr + 1 + Z.of_nat i) by lia.
Qed.

Lemma copy_step s own pds fs n ptr count :
  vm_wf none s own pds fs → cr3 s ∈ pds →
  USER_MEM_START ≤ ptr + count → ptr + count + 1 < 0xFFFFF000 →
  copy_loop (S n) ptr count s =
  match read_byte s (cr3 s) (ptr + count) with
  | Some b => if decide (b = 0) then Ok (count, [b]) s
              else ('(rc, l) ← copy_loop n ptr (count + 1); mret (rc, b :: l)) s
  | None => if decide (mapped s (ptr + count + 1)) then Stop BadAccess else Ok (ERR_INVAL, []) s
  end.
Proof.
  intros Hwf Hpd Ha He. cbn [copy_loop].
  rewrite u32_small by (unfold word, USER_MEM_START in *; lia).
  destruct (is_pointer_valid_one s own pds fs (ptr + count)) as (r & Hrun & Hr); [done..|].
  rewrite (bind_ok _ _ _ _ _ Hrun).
  assert (is_user (ptr + count) = true) as Hu by (apply is_user_true; lia).
  destruct (read_byte s (cr3 s) (ptr + count)) as [b|] eqn:Hb.
  - assert (mapped s (ptr + count)) as Hm by (apply read_byte_mapped; by eexists).
    destruct Hr as [[-> _]|(_ & ? & _)]; [|done]. rewrite decide_False by lia.
    unfold read_user. rewrite Hu. rewrite (bind_ok _ _ _ b s) by (by rewrite bind_get, Hb).
    by case_decide.
  - assert (¬ mapped s (ptr + count)) as Hm.
    { unfold mapped. rewrite <- read_byte_mapped, Hb. by intros []. }
    destruct Hr as [[-> [?|Hn]]|(-> & _ & Hn)]; [done| |].
    + rewrite decide_False, decide_True by (done || lia). unfold read_user. rewrite Hu.
      unfold mbind, M_bind, get. by rewrite Hb.
    + rewrite decide_True, decide_False by done. done.
Qed.

(** The loop copies the nonzero bytes [l] and goes on behind them. *)
Lemma copy_loop_prefix s own pds fs n ptr count l :
  vm_wf none s own pds fs → cr3 s ∈ pds →
  USER_MEM_START ≤ ptr + count → ptr + count + Z.of_nat (length l) < 0xFFFFF000 →
  nonzero_at s (ptr + count) l →
  copy_loop (length l + n) ptr count s =
  ('(rc, t) ← copy_loop n ptr (count + Z.of_nat (length l)); mret (rc, l ++ t)) s.
Proof.
  intros Hwf Hpd. revert count. induction l as [|b l IH]; intros count Ha He Hl.
  { cbn. rewrite Z.add_0_r. unfold mbind, M_bind. by destruct (copy_loop n ptr count s) as [[]|]. }
  apply nonzero_at_cons in Hl as (Hb & Hr & Hl). cbn [length] in *.
  rewrite Nat.add_succ_l, (copy_step s own pds fs), Hr, decide_False by (done || lia).
  unfold mbind at 1, M_bind at 1. rewrite IH; [|lia|lia|by rewrite Z.add_assoc].
  replace (count + 1 + Z.of_nat (length l)) with (count + Z.of_nat (S (length l))) by lia.
  unfold mbind, M_bind. by destruct (copy_loop n ptr _ s) as [[]|].
Qed.

(** C37. [copy_user_data] reads exactly the user's string: with the bytes [l],
    none of them zero, readable at [ptr] it returns the length with the
    terminator and the terminated string when a zero byte follows within
    [max_size] bytes, [ERR_BIG] and the first [max_size] bytes when there is no
    room, and [ERR_INVAL] when the byte after [l] and its successor are not
    mapped.  When only the byte itself is not mapped (the last byte before a
    mapped page) the check passes and the kernel faults. *)
Theorem copy_user_data_correct s own pds fs ptr max l :
  vm_wf none s own pds fs → cr3 s ∈ pds →
  USER_MEM_START ≤ ptr → 0 < max → ptr + max < 0xFFFFF000 →
  nonzero_at s ptr l →
  let next := ptr + Z.of_nat (length l) in
  (max = Z.of_nat (length l) → copy_user_data ptr max s = Ok (ERR_BIG, l) s) ∧
  (Z.of_nat (length l) < max →
     (read_byte s (cr3 s) next = Some 0 →
        copy_user_data ptr max s = Ok (Z.of_nat (length l) + 1, l ++ [0]) s) ∧
     (¬ mapped s next → ¬ mapped s (next + 1) →
        copy_user_data ptr max s = Ok (ERR_INVAL, l) s) ∧
     (¬ mapped s next → mapped s (next + 1) →
        copy_user_data ptr max s = Stop BadAccess)).
Proof.
  intros Hwf Hpd Hptr Hmax Hend Hl next. unfold USER_MEM_START in Hptr.
  assert (∀ n, Z.of_nat (length l) + Z.of_nat n = max →
    copy_user_data ptr max s =
    ('(count, t) ← copy_loop n ptr (Z.of_nat (length l));
     if decide (count < 0) then mret (count, l ++ t)
     else if decide (count = max) then mret (ERR_BIG, l ++ t)
     else mret (count + 1, l ++ t)) s) as Hrun.
  { intros n Hn. unfold copy_user_data. rewrite decide_False by (unfold NULL; lia).
    replace (Z.to_nat max) with (length l + n)%nat by lia.
    unfold mbind, M_bind. rewrite (copy_loop_prefix s own pds fs);
      [|done|done|unfold USER_MEM_START; lia|lia|by rewrite Z.add_0_r].
    unfold mbind, M_bind. rewrite Z.add_0_l. by destruct (copy_loop n ptr _ s) as [[]|]. }
  split.
  { intros ->. rewrite (Hrun 0%nat) by lia. cbn [copy_loop]. rewrite bind_mret.
    cbv beta iota. rewrite decide_False, decide_True by lia. by rewrite app_nil_r. }
  intros Hlt. set (n := Z.to_nat (max - Z.of_nat (length l) - 1)).
  rewrite (Hrun (S n)) by lia. unfold mbind at 1 2 3, M_bind at 1 2 3.
  rewrite (copy_step s own pds fs); [|done|done|unfold USER_MEM_START; lia|lia].
  fold next. assert (¬ mapped s next → read_byte s (cr3 s) next = None) as Hnone.
  { unfold mapped. rewrite <- read_byte_mapped. intros Hn. by apply eq_None_not_Some. }
  split_and!.
  - intros ->. rewrite decide_True by done. cbv beta iota.
    by rewrite !decide_False by lia.
  - intros Hn Hn'. rewrite Hnone, decide_False by done. cbv beta iota.
    rewrite decide_True by done. by rewrite app_nil_r.
  - intros Hn Hn'. by rewrite Hnone, decide_True by done.
Qed.

End user_memory_facts.

(** ** An instance: the empty string at the start of the page of [demo_ro] *)
Lemma demo_ro_zero : read_byte demo_ro demo_pd 0x1000000 = Some 0.
Proof. vm_compute. reflexivity. Qed.

Lemma copy_user_data_correct_witness :
  copy_user_data 0x1000000 255 demo_ro = Ok (1, [0]) demo_ro.
Proof.
  destruct demo_ro_wf as (own & fs & Hwf & _ & Hcr).
  assert (cr3 demo_ro ∈ ({[demo_pd]} : gset Z)) as Hpd by (rewrite Hcr; by apply elem_of_singleton).
  assert (nonzero_at demo_ro 0x1000000 []) as Hnz by (intros i b Hi; rewrite lookup_nil in Hi; congruence).
  pose proof demo_ro_zero as Hz. rewrite <- Hcr in Hz.
  exact (proj1 (proj2 (copy_user_data_correct demo_ro own {[demo_pd]} fs 0x1000000 255 [] Hwf Hpd
    (Z.le_refl _) eq_refl eq_refl Hnz) eq_refl) Hz).
Defined.
