(* ===== verification/Loader.v ===== *)
(** * The program loader (kern/loader/loader.c)

    User programs are byte arrays compiled into the kernel and listed in a
    table of contents, which is generated: [exec2obj_userapp_TOC] is a
    parameter of the model ([Ramdisk]).  [getbytes] reads from it,
    [elf_check_header], [elf_load_helper] and [check_program] parse the ELF
    headers, and [load_program] copies the segments into the address space of
    %cr3.  Reading outside an array is a bad access; the messages sent to the
    simulator are left out. *)

From S2P Require Import Prelude Locks FrameAlloc Paging VM VMInv VMPages VMMap VMFault VMQuery VMTheorems UserMem CString.

Definition MAX_SECTION_NAME_LEN : Z := 10.
Definition MAX_EXECNAME_LEN : Z := 256.
Definition ELF_NOTELF : Z := -1.
Definition ELF_SUCCESS : Z := 0.
Definition PROG_PRESENT_VALID : Z := 0.
Definition PROG_ABSENT_INVALID : Z := 1.
Definition ELFMAG : list Z := [0x7f; 69; 76; 70].
Definition SELFMAG : Z := 4.
Definition ET_EXEC : Z := 2.
Definition EM_386 : Z := 3.
Definition EV_CURRENT : Z := 1.
Definition SHN_UNDEF : Z := 0.

(** ** The table of contents (410kern/inc/exec2obj.h) *)
Record exec2obj_userapp_TOC_entry : Type := mk_entry {
  execname : list Z;
  execbytes : list Z;
  execlen : Z;
}.

Class Ramdisk : Type := { exec2obj_userapp_TOC : list exec2obj_userapp_TOC_entry }.

(** ** ELF structures (410kern/elf/elf32.h), little endian *)
(** The field of [n] bytes at offset [o]. *)
Definition field (l : list Z) (o n : nat) : Z := le (take n (drop o l)).

Record Elf32_Ehdr : Type := mk_ehdr {
  e_ident : list Z;
  e_type : Z; e_machine : Z; e_version : Z; e_entry : Z; e_phoff : Z; e_shoff : Z;
  e_flags : Z; e_ehsize : Z; e_phentsize : Z; e_phnum : Z; e_shentsize : Z;
  e_shnum : Z; e_shstrndx : Z;
}.
Definition sizeof_Ehdr : Z := 52.

Definition read_ehdr (l : list Z) : Elf32_Ehdr :=
  mk_ehdr (take 16 l) (field l 16 2) (field l 18 2) (field l 20 4) (field l 24 4)
    (field l 28 4) (field l 32 4) (field l 36 4) (field l 40 2) (field l 42 2)
    (field l 44 2) (field l 46 2) (field l 48 2) (field l 50 2).

Record Elf32_Shdr : Type := mk_shdr {
  sh_name : Z; sh_type : Z; sh_flags : Z; sh_addr : Z; sh_offset : Z; sh_size : Z;
  sh_link : Z; sh_info : Z; sh_addralign : Z; sh_entsize : Z;
}.
Definition sizeof_Shdr : Z := 40.

Definition read_shdr (l : list Z) : Elf32_Shdr :=
  mk_shdr (field l 0 4) (field l 4 4) (field l 8 4) (field l 12 4) (field l 16 4)
    (field l 20 4) (field l 24 4) (field l 28 4) (field l 32 4) (field l 36 4).

(** [simple_elf_t] (410kern/elf/elf_410.h). *)
Record simple_elf : Type := mk_elf {
  e_fname : option (list Z);
  se_entry : Z;
  e_txtoff : Z; e_datoff : Z; e_rodatoff : Z;
  se_segments : segments;
}.

Definition no_segments : segments := mk_segments 0 0 0 0 0 0 0 0.
(** [memset(se_hdr, 0, sizeof(simple_elf_t))]. *)
Definition zero_elf : simple_elf := mk_elf None 0 0 0 0 no_segments.

Definition set_text (off len start : Z) (h : simple_elf) : simple_elf :=
  let g := se_segments h in
  mk_elf (e_fname h) (se_entry h) off (e_datoff h) (e_rodatoff h)
    (mk_segments start len (e_datstart g) (e_datlen g) (e_rodatstart g) (e_rodatlen g)
       (e_bssstart g) (e_bsslen g)).
Definition set_rodata (off len start : Z) (h : simple_elf) : simple_elf :=
  let g := se_segments h in
  mk_elf (e_fname h) (se_entry h) (e_txtoff h) (e_datoff h) off
    (mk_segments (e_txtstart g) (e_txtlen g) (e_datstart g) (e_datlen g) start len
       (e_bssstart g) (e_bsslen g)).
Definition set_data (off len start : Z) (h : simple_elf) : simple_elf :=
  let g := se_segments h in
  mk_elf (e_fname h) (se_entry h) (e_txtoff h) off (e_rodatoff h)
    (mk_segments (e_txtstart g) (e_txtlen g) start len (e_rodatstart g) (e_rodatlen g)
       (e_bssstart g) (e_bsslen g)).
Definition set_bss (len start : Z) (h : simple_elf) : simple_elf :=
  let g := se_segments h in
  mk_elf (e_fname h) (se_entry h) (e_txtoff h) (e_datoff h) (e_rodatoff h)
    (mk_segments (e_txtstart g) (e_txtlen g) (e_datstart g) (e_datlen g) (e_rodatstart g)
       (e_rodatlen g) start len).

(** The names, terminated. *)
Definition str_text : list Z := [46; 116; 101; 120; 116; 0].
Definition str_rodata : list Z := [46; 114; 111; 100; 97; 116; 97; 0].
Definition str_data : list Z := [46; 100; 97; 116; 97; 0].
Definition str_bss : list Z := [46; 98; 115; 115; 0].

Section loader.
Context `{RD : Ramdisk} {S : Type}.

(** ** kern/loader/loader.c *)

(** The first entry of the table whose name is [filename]. *)
Fixpoint find_entry (filename : list Z) (toc : list exec2obj_userapp_TOC_entry) :
    M S (option exec2obj_userapp_TOC_entry) :=
  match toc with
  | [] => mret None
  | e :: toc' =>
      r ← deref (strncmp filename (execname e) (Z.to_nat MAX_EXECNAME_LEN));
      if decide (r = 0) then mret (Some e) else find_entry filename toc'
  end.

(** The result and the new contents of the buffer; [None] is a NULL pointer. *)
Definition getbytes (filename : option (list Z)) (offset size : Z) (buf : list Z) :
    M S (Z * list Z) :=
  match filename with
  | None => mret (ERR_FAILURE, buf)
  | Some name =>
      if decide (size < 0 ∨ offset < 0 ∨ size < 4) then mret (ERR_FAILURE, buf)
      else
        e ← find_entry name exec2obj_userapp_TOC;
        match e with
        | None => mret (ERR_FAILURE, buf)
        | Some e =>
            let size := if decide (s32 (offset + size) ≤ execlen e) then size
                        else execlen e - offset in
            if decide (size ≤ 0) then mret (ERR_FAILURE, buf)
            else if decide (offset + size ≤ Z.of_nat (length (execbytes e))) then
              buf' ← deref (copy_over buf (take (Z.to_nat size) (drop (Z.to_nat offset) (execbytes e))));
              mret (size, buf')
            else halt BadAccess
        end
  end.

(** What [elf_load_helper] does with the section [sec] whose name begins with
    the bytes [name]; the names it knows but ignores only suppress a message. *)
Definition use_section (sec : Elf32_Shdr) (name : list Z) (h : simple_elf) : M S simple_elf :=
  t ← deref (strcmp str_text name);
  if decide (t = 0) then mret (set_text (sh_offset sec) (sh_size sec) (sh_addr sec) h)
  else
    t ← deref (strcmp str_rodata name);
    if decide (t = 0) then mret (set_rodata (sh_offset sec) (sh_size sec) (sh_addr sec) h)
    else
      t ← deref (strcmp str_data name);
      if decide (t = 0) then mret (set_data (sh_offset sec) (sh_size sec) (sh_addr sec) h)
      else
        t ← deref (strcmp str_bss name);
        if decide (t = 0) then mret (set_bss (sh_size sec) (sh_addr sec) h)
        else mret h.

(** The loop over the section headers from index [i] on, [n] of them left. *)
Fixpoint read_sections (n : nat) (i : Z) (fname : option (list Z)) (elf_hdr : Elf32_Ehdr)
    (string_offset : Z) (h : simple_elf) : M S (Z * simple_elf) :=
  match n with
  | O => mret (ELF_SUCCESS, h)
  | Datatypes.S n' =>
      '(ret, l) ← getbytes fname (s32 (e_shoff elf_hdr + i * sizeof_Shdr)) sizeof_Shdr
                    (replicate (Z.to_nat sizeof_Shdr) 0);
      if decide (ret ≠ sizeof_Shdr) then mret (ELF_NOTELF, h)
      else
        let sec := read_shdr l in
        if decide (sh_name sec = SHN_UNDEF) then
          read_sections n' (i + 1) fname elf_hdr string_offset h
        else
          '(ret, name) ← getbytes fname (s32 (string_offset + sh_name sec)) MAX_SECTION_NAME_LEN
                           (replicate (Z.to_nat MAX_SECTION_NAME_LEN) 0);
          if decide (ret < 0) then mret (ELF_NOTELF, h)
          else
            h' ← use_section sec name h;
            read_sections n' (i + 1) fname elf_hdr string_offset h'
  end.

(** The result and what is left in [se_hdr]. *)
Definition elf_load_helper (fname : option (list Z)) : M S (Z * simple_elf) :=
  '(ret, l) ← getbytes fname 0 sizeof_Ehdr (replicate (Z.to_nat sizeof_Ehdr) 0);
  if decide (ret ≠ sizeof_Ehdr) then mret (ELF_NOTELF, zero_elf)
  else
    let elf_hdr := read_ehdr l in
    let h := mk_elf fname (e_entry elf_hdr) 0 0 0 no_segments in
    '(ret, l) ← getbytes fname (s32 (e_shoff elf_hdr + e_shstrndx elf_hdr * sizeof_Shdr))
                  sizeof_Shdr (replicate (Z.to_nat sizeof_Shdr) 0);
    if decide (ret ≠ sizeof_Shdr) then mret (ELF_NOTELF, h)
    else
      read_sections (Z.to_nat (e_shnum elf_hdr)) 0 fname elf_hdr (sh_offset (read_shdr l)) h.

Definition elf_check_header (fname : option (list Z)) : M S Z :=
  '(ret, l) ← getbytes fname 0 sizeof_Ehdr (replicate (Z.to_nat sizeof_Ehdr) 0);
  if decide (ret ≠ sizeof_Ehdr) then mret ELF_NOTELF
  else
    let elf_hdr := read_ehdr l in
    m ← deref (memcmp (e_ident elf_hdr) ELFMAG (Z.to_nat SELFMAG));
    mret (if decide (m ≠ 0) then ELF_NOTELF
          else if decide (e_type elf_hdr ≠ ET_EXEC) then ELF_NOTELF
          else if decide (e_machine elf_hdr ≠ EM_386) then ELF_NOTELF
          else if decide (e_version elf_hdr ≠ EV_CURRENT) then ELF_NOTELF
          else ELF_SUCCESS).

Fixpoint check_entries (prog_name : list Z) (toc : list exec2obj_userapp_TOC_entry) : M S Z :=
  match toc with
  | [] => mret PROG_ABSENT_INVALID
  | e :: toc' =>
      r ← deref (strncmp prog_name (execname e) (Z.to_nat MAX_EXECNAME_LEN));
      ok ← (if decide (r = 0) then
              c ← elf_check_header (Some prog_name); mret (bool_decide (c = ELF_SUCCESS))
            else mret false);
      if ok : bool then mret PROG_PRESENT_VALID else check_entries prog_name toc'
  end.

Definition check_program (prog_name : list Z) : M S Z :=
  check_entries prog_name exec2obj_userapp_TOC.

End loader.

Section load_program.
Context `{RD : Ramdisk} {H : Type} `{KernelHeap H}.

(** [len] and [offset] are converted to [int]. *)
Definition load_segment (filename : option (list Z)) (start len offset : Z) : M (vm H) Z :=
  let len := s32 len in
  if decide (len > 0) then
    s ← get;
    buf ← smalloc len;
    if decide (buf = NULL) then mret ERR_NOMEM
    else
      '(ret, data) ← getbytes filename (s32 offset) len (kh_data (kheap s) buf len);
      if decide (ret < 0) then sfree buf len ;; mret ret
      else
        write_bytes start data ;;
        sfree buf len ;;
        mret 0
  else mret 0.

Definition load_program (se_hdr : simple_elf) : M (vm H) Z :=
  let g := se_segments se_hdr in
  retval ← load_segment (e_fname se_hdr) (e_txtstart g) (e_txtlen g) (e_txtoff se_hdr);
  if decide (retval < 0) then mret retval
  else
    retval ← load_segment (e_fname se_hdr) (e_datstart g) (e_datlen g) (e_datoff se_hdr);
    if decide (retval < 0) then mret retval
    else
      retval ← load_segment (e_fname se_hdr) (e_rodatstart g) (e_rodatlen g) (e_rodatoff se_hdr);
      if decide (retval < 0) then mret retval
      else
        write_bytes (e_bssstart g) (memset 0 (Z.to_nat (e_bsslen g))) ;;
        mret retval.

End load_program.

(** ** The files as the loader sees them *)

(** The string in a buffer. *)
Fixpoint cname (l : list Z) : list Z :=
  match l with [] => [] | b :: l' => if decide (b = 0) then [] else b :: cname l' end.

Lemma cname_text l t : text l t → cname l = t.
Proof.
  induction 1 as [l|b l t Hb Ht IH] using text_ind; [done|]. cbn.
  rewrite decide_False by lia. by rewrite IH.
Qed.

(** What the generator of the table guarantees: names are terminated, lengths
    are right, and files end well below 2 GB. *)
Record entry_ok (e : exec2obj_userapp_TOC_entry) : Prop := {
  eo_name : ∃ t, text (execname e) t ∧ (length t < 256)%nat;
  eo_len : execlen e = Z.of_nat (length (execbytes e));
  eo_small : execlen e < 2147483648 - 4096;
  eo_bytes : Forall byte (execbytes e);
}.

(** A file name the kernel passes: a terminated string shorter than the names
    of the table may be. *)
Definition file_name (buf t : list Z) : Prop := text buf t ∧ (length t < 256)%nat.

Section files.
Context `{RD : Ramdisk}.

Definition entry_named (t : list Z) (toc : list exec2obj_userapp_TOC_entry) :
    option exec2obj_userapp_TOC_entry :=
  head (filter (λ e, cname (execname e) = t) toc).

(** The contents of the file called [t]. *)
Definition file (t : list Z) : option (list Z) :=
  execbytes <$> entry_named t exec2obj_userapp_TOC.

Definition disk_ok : Prop := Forall entry_ok exec2obj_userapp_TOC.

Lemma entry_named_ok t toc e : Forall entry_ok toc → entry_named t toc = Some e → entry_ok e.
Proof.
  intros Hall He. apply head_Some_elem_of in He. apply list_elem_of_filter in He as [_ He].
  by eapply Forall_forall in Hall.
Qed.

Lemma file_entry t f :
  disk_ok → file t = Some f →
  ∃ e, entry_named t exec2obj_userapp_TOC = Some e ∧ execbytes e = f ∧
    execlen e = Z.of_nat (length f) ∧ Z.of_nat (length f) < 2147483648 - 4096 ∧ Forall byte f.
Proof.
  intros Hd (e & He & ->)%fmap_Some. exists e. destruct (entry_named_ok _ _ _ Hd He) as [_ Hl Hs Hb].
  split_and!; [done..|lia|done].
Qed.

Lemma find_entry_ok {S} name t toc (s : S) :
  file_name name t → Forall entry_ok toc →
  find_entry name toc s = Ok (entry_named t toc) s.
Proof.
  intros [Ht Hlen] Hall. induction Hall as [|e toc [(u & Hu & Hul) _ _ _] _ IH]; [done|].
  cbn [find_entry]. destruct (strncmp_ok name t (execname e) u (Z.to_nat MAX_EXECNAME_LEN) Ht Hu)
    as (r & Hr & Hr0); [done|].
  rewrite (bind_ok _ _ _ r s) by (by rewrite Hr). unfold entry_named. rewrite filter_cons.
  rewrite (cname_text _ _ Hu). destruct (decide (r = 0)) as [E|E].
  - by rewrite decide_True by (symmetry; by apply Hr0).
  - rewrite (decide_False (P := u = t)) by (intros ->; by apply E, Hr0). apply IH.
Qed.

(** What [getbytes] copies to the start of the buffer. *)
Definition slice (f : list Z) (offset size : Z) : list Z :=
  take (Z.to_nat size) (drop (Z.to_nat offset) f).

Lemma getbytes_ok {S} name t f offset size buf (s : S) :
  disk_ok → file_name name t → file t = Some f →
  0 ≤ offset < 2147483648 → 4 ≤ size < 2147483648 → (Z.to_nat size ≤ length buf)%nat →
  let n := Z.min size (Z.of_nat (length f) - offset) in
  getbytes (Some name) offset size buf s =
  if decide (2147483648 ≤ offset + size) then Stop BadAccess
  else if decide (n ≤ 0) then Ok (ERR_FAILURE, buf) s
  else Ok (n, slice f offset n ++ drop (Z.to_nat n) buf) s.
Proof.
  intros Hd Hn Hf Ho Hs Hb n. destruct (file_entry t f Hd Hf) as (e & He & <- & Hl & Hsm & _).
  unfold getbytes. rewrite decide_False by lia.
  rewrite (bind_ok _ _ _ _ s) by (by apply (find_entry_ok name t)). rewrite He.
  cbv beta iota zeta. destruct (decide (2147483648 ≤ offset + size)) as [Ew|Ew].
  { rewrite s32_wrap by lia.
    rewrite (decide_True (P := offset + size - W32 ≤ execlen e)) by lia.
    rewrite !decide_False by lia. done. }
  rewrite s32_small by lia. set (m := if decide (offset + size ≤ execlen e) then size
    else execlen e - offset).
  assert (m = n) as -> by (unfold m, n; case_decide; lia).
  destruct (decide (n ≤ 0)) as [En|En]; [done|]. rewrite decide_True by lia.
  assert (length (slice (execbytes e) offset n) = Z.to_nat n) as Hsl.
  { unfold slice. rewrite length_take, length_drop. lia. }
  fold (slice (execbytes e) offset n). unfold copy_over. rewrite Hsl.
  rewrite decide_True by lia. done.
Qed.

Lemma getbytes_absent {S} name t offset size buf (s : S) :
  disk_ok → file_name name t → file t = None →
  getbytes (Some name) offset size buf s = Ok (ERR_FAILURE, buf) s.
Proof.
  intros Hd Hn Hf. unfold getbytes. case_decide; [done|].
  rewrite (bind_ok _ _ _ _ s) by (by apply (find_entry_ok name t)).
  unfold file in Hf. by apply fmap_None in Hf as ->.
Qed.

(** [getbytes] reads [size] bytes of a file, or as many as there are from
    [offset] to its end, and leaves the rest of the buffer alone; it fails for
    a file that is not there, an offset at or past the end, a negative
    argument and a size below four.  When [offset + size] overflows an [int]
    the end of the file is not noticed and it reads past the file. *)
Theorem getbytes_correct {S} name t offset size buf (s : S) :
  disk_ok → file_name name t → (Z.to_nat size ≤ length buf)%nat →
  offset < 2147483648 → size < 2147483648 →
  getbytes (Some name) offset size buf s =
  match file t with
  | None => Ok (ERR_FAILURE, buf) s
  | Some f =>
      let n := Z.min size (Z.of_nat (length f) - offset) in
      if decide (size < 4 ∨ offset < 0) then Ok (ERR_FAILURE, buf) s
      else if decide (2147483648 ≤ offset + size) then Stop BadAccess
      else if decide (n ≤ 0) then Ok (ERR_FAILURE, buf) s
      else Ok (n, slice f offset n ++ drop (Z.to_nat n) buf) s
  end.
Proof.
  intros Hd Hn Hb Ho Hs. destruct (file t) as [f|] eqn:Hf; [|by apply (getbytes_absent name t)].
  destruct (decide (size < 4 ∨ offset < 0)).
  - unfold getbytes. by rewrite decide_True by lia.
  - apply (getbytes_ok name t f); try done; lia.
Qed.

End files.

(** ** The section table, read by position *)
Definition zeros (n : nat) : list Z := replicate n 0.

(** The [n] bytes at [offset], padded with zeros past the end of the file. *)
Definition window (f : list Z) (offset n : Z) : list Z :=
  slice f offset n ++ zeros (Z.to_nat n - length (slice f offset n)).

Definition file_ehdr (f : list Z) : Elf32_Ehdr := read_ehdr (slice f 0 sizeof_Ehdr).
Definition section_at (f : list Z) (i : Z) : Elf32_Shdr :=
  read_shdr (slice f (e_shoff (file_ehdr f) + i * sizeof_Shdr) sizeof_Shdr).
Definition sections (f : list Z) : list Elf32_Shdr :=
  section_at f <$> seqZ 0 (e_shnum (file_ehdr f)).
Definition names_at (f : list Z) : Z := sh_offset (section_at f (e_shstrndx (file_ehdr f))).
Definition section_name (f : list Z) (sec : Elf32_Shdr) : list Z :=
  window f (names_at f + sh_name sec) MAX_SECTION_NAME_LEN.

(** The section has the (terminated) name [nm]. *)
Definition is_named (f nm : list Z) (sec : Elf32_Shdr) : Prop :=
  sh_name sec ≠ SHN_UNDEF ∧ nm `prefix_of` section_name f sec.

#[export] Instance is_named_dec f nm sec : Decision (is_named f nm sec).
Proof. unfold is_named. apply _. Defined.

(** A field of the last section with that name, 0 when there is none. *)
Definition of_last (f nm : list Z) (g : Elf32_Shdr → Z) (secs : list Elf32_Shdr) : Z :=
  default 0 (g <$> last (filter (is_named f nm) secs)).

Definition summary (name f : list Z) (secs : list Elf32_Shdr) : simple_elf :=
  mk_elf (Some name) (e_entry (file_ehdr f))
    (of_last f str_text sh_offset secs) (of_last f str_data sh_offset secs)
    (of_last f str_rodata sh_offset secs)
    (mk_segments (of_last f str_text sh_addr secs) (of_last f str_text sh_size secs)
       (of_last f str_data sh_addr secs) (of_last f str_data sh_size secs)
       (of_last f str_rodata sh_addr secs) (of_last f str_rodata sh_size secs)
       (of_last f str_bss sh_addr secs) (of_last f str_bss sh_size secs)).

(** The headers and the names the loader looks at lie inside the file. *)
Record elf_file (f : list Z) : Prop := {
  ef_header : sizeof_Ehdr ≤ Z.of_nat (length f);
  ef_sections : ∀ i, 0 ≤ i < e_shnum (file_ehdr f) ∨ i = e_shstrndx (file_ehdr f) →
    e_shoff (file_ehdr f) + (i + 1) * sizeof_Shdr ≤ Z.of_nat (length f);
  ef_names : ∀ sec, sec ∈ sections f → sh_name sec ≠ SHN_UNDEF →
    names_at f + sh_name sec < Z.of_nat (length f);
}.

Lemma of_last_snoc f nm g secs sec :
  of_last f nm g (secs ++ [sec]) = if decide (is_named f nm sec) then g sec else of_last f nm g secs.
Proof.
  unfold of_last. rewrite filter_app, filter_cons, filter_nil.
  case_decide; [by rewrite last_snoc|by rewrite app_nil_r].
Qed.

Lemma field_nonneg l o n : Forall byte l → 0 ≤ field l o n.
Proof. intros Hl. by apply le_nonneg, Forall_take, Forall_drop. Qed.

Lemma slice_bytes f o n : Forall byte f → Forall byte (slice f o n).
Proof. intros Hf. by apply Forall_take, Forall_drop. Qed.

Lemma window_bytes f o n : Forall byte f → Forall byte (window f o n).
Proof.
  intros Hf. apply Forall_app. split; [by apply slice_bytes|].
  apply Forall_replicate. unfold byte. lia.
Qed.

Lemma window_length f o n : length (window f o n) = Z.to_nat n.
Proof.
  unfold window, zeros. rewrite length_app, length_replicate. unfold slice at 1 2.
  rewrite length_take. lia.
Qed.

(** The names are not prefixes of one another. *)
Lemma names_disjoint w nm nm' :
  nm `prefix_of` w → nm' `prefix_of` w → nm ∈ [str_text; str_rodata; str_data; str_bss] →
  nm' ∈ [str_text; str_rodata; str_data; str_bss] → nm = nm'.
Proof.
  intros Hp Hp' Hn Hn'. assert (nm `prefix_of` nm' ∨ nm' `prefix_of` nm) as Hc
    by (by eapply prefix_weak_total).
  set_unfold in Hn. set_unfold in Hn'.
  destruct Hn as [->|[->|[->|[->|[]]]]], Hn' as [->|[->|[->|[->|[]]]]]; try done;
    destruct Hc as [[k E]|[k E]]; discriminate.
Qed.

Lemma text_of nm : Forall (λ b, 0 < b < 256) nm → text (nm ++ [0]) nm.
Proof. intros Hn. split; [done|by exists []]. Qed.

Lemma strcmp_name {S} nm w (s : S) :
  Forall (λ b, 0 < b < 256) nm → Forall byte w → (length nm < length w)%nat →
  ∃ r, (∀ B (k : Z → M S B), (deref (strcmp (nm ++ [0]) w) ≫= k) s = k r s) ∧
    (r = 0 ↔ nm ++ [0] `prefix_of` w).
Proof.
  intros Hn Hw Hl. destruct (strcmp_window (nm ++ [0]) nm w) as (r & Hr & Hr0);
    [by apply text_of|done|done|]. exists r. split; [|done]. intros B k. by rewrite Hr.
Qed.

Section elf.
Context `{RD : Ramdisk}.

Lemma use_section_ok {S} f sec name secs (s : S) :
  Forall byte f → sh_name sec ≠ SHN_UNDEF →
  use_section sec (section_name f sec) (summary name f secs) s =
  Ok (summary name f (secs ++ [sec])) s.
Proof.
  intros Hf Hn. set (w := section_name f sec).
  assert (Forall byte w ∧ length w = 10%nat) as [Hw Hl].
  { split; [by apply window_bytes|apply window_length]. }
  assert (∀ nm, is_named f nm sec ↔ nm `prefix_of` w) as Hiff.
  { intros nm. unfold is_named. fold w. tauto. }
  assert (∀ nm nm', nm `prefix_of` w → nm ∈ [str_text; str_rodata; str_data; str_bss] →
    nm' ∈ [str_text; str_rodata; str_data; str_bss] → nm ≠ nm' →
    ∀ A (x y : A), (if decide (is_named f nm' sec) then x else y) = y) as Hother.
  { intros nm nm' Hp Hin Hin' Hne A x y. rewrite decide_False; [done|]. intros Hp'.
    apply Hiff in Hp'. by apply Hne, (names_disjoint w). }
  unfold use_section, summary. rewrite !of_last_snoc.
  destruct (strcmp_name [46; 116; 101; 120; 116] w s) as (r1 & Hb1 & Hr1);
    [by repeat constructor|done|cbn; lia|].
  rewrite Hb1. case_decide as E1.
  { apply Hr1 in E1. rewrite !(decide_True (P := is_named f str_text sec)) by (by apply Hiff).
    rewrite !(Hother str_text str_rodata) by first [done | repeat constructor].
    rewrite !(Hother str_text str_data) by first [done | repeat constructor].
    rewrite !(Hother str_text str_bss) by first [done | repeat constructor].
    done. }
  rewrite !(decide_False (P := is_named f str_text sec)) by (rewrite Hiff; tauto).
  destruct (strcmp_name [46; 114; 111; 100; 97; 116; 97] w s) as (r2 & Hb2 & Hr2);
    [by repeat constructor|done|cbn; lia|].
  rewrite Hb2. case_decide as E2.
  { apply Hr2 in E2. rewrite !(decide_True (P := is_named f str_rodata sec)) by (by apply Hiff).
    rewrite !(Hother str_rodata str_data) by first [done | repeat constructor].
    rewrite !(Hother str_rodata str_bss) by first [done | repeat constructor].
    done. }
  rewrite !(decide_False (P := is_named f str_rodata sec)) by (rewrite Hiff; tauto).
  destruct (strcmp_name [46; 100; 97; 116; 97] w s) as (r3 & Hb3 & Hr3);
    [by repeat constructor|done|cbn; lia|].
  rewrite Hb3. case_decide as E3.
  { apply Hr3 in E3. rewrite !(decide_True (P := is_named f str_data sec)) by (by apply Hiff).
    rewrite !(Hother str_data str_bss) by first [done | repeat constructor].
    done. }
  rewrite !(decide_False (P := is_named f str_data sec)) by (rewrite Hiff; tauto).
  destruct (strcmp_name [46; 98; 115; 115] w s) as (r4 & Hb4 & Hr4);
    [by repeat constructor|done|cbn; lia|].
  rewrite Hb4. case_decide as E4.
  - apply Hr4 in E4. by rewrite !(decide_True (P := is_named f str_bss sec)) by (by apply Hiff).
  - by rewrite !(decide_False (P := is_named f str_bss sec)) by (rewrite Hiff; tauto).
Qed.

Lemma summary_skip name f secs sec :
  sh_name sec = SHN_UNDEF → summary name f (secs ++ [sec]) = summary name f secs.
Proof.
  intros Hs. unfold summary. rewrite !of_last_snoc.
  by rewrite !decide_False by (unfold is_named; tauto).
Qed.

(** A read that lies inside the file. *)
Lemma getbytes_inside {S} name t f offset size (s : S) :
  disk_ok → file_name name t → file t = Some f → 0 ≤ offset → 4 ≤ size ≤ 4096 →
  offset + size ≤ Z.of_nat (length f) →
  getbytes (Some name) offset size (replicate (Z.to_nat size) 0) s =
  Ok (size, slice f offset size) s.
Proof.
  intros Hd Hn Hf Ho Hs Hi. destruct (file_entry t f Hd Hf) as (_ & _ & _ & _ & Hsm & _).
  rewrite (getbytes_ok name t f) by (done || lia || (rewrite length_replicate; lia)).
  rewrite decide_False by lia. rewrite Z.min_l by lia. rewrite decide_False by lia.
  rewrite drop_ge, app_nil_r by (rewrite length_replicate; lia). done.
Qed.

(** A name window, cut short or not by the end of the file. *)
Lemma getbytes_window {S} name t f offset (s : S) :
  disk_ok → file_name name t → file t = Some f →
  0 ≤ offset < Z.of_nat (length f) →
  ∃ n, 0 < n ∧ getbytes (Some name) offset MAX_SECTION_NAME_LEN
    (replicate (Z.to_nat MAX_SECTION_NAME_LEN) 0) s =
    Ok (n, window f offset MAX_SECTION_NAME_LEN) s.
Proof.
  intros Hd Hn Hf Ho. destruct (file_entry t f Hd Hf) as (_ & _ & _ & _ & Hsm & _).
  change MAX_SECTION_NAME_LEN with 10. set (n := Z.min 10 (Z.of_nat (length f) - offset)).
  exists n. split; [lia|].
  rewrite (getbytes_ok name t f) by (done || lia || (rewrite length_replicate; lia)).
  rewrite decide_False by lia. fold n. rewrite decide_False by lia. do 2 f_equal.
  assert (slice f offset n = slice f offset 10) as ->.
  { unfold slice. destruct (decide (10 ≤ Z.of_nat (length f) - offset)).
    - by replace n with 10 by lia.
    - rewrite !take_ge by (rewrite length_drop; lia). done. }
  unfold window, zeros. f_equal. rewrite drop_replicate. f_equal.
  unfold slice. rewrite length_take, length_drop. lia.
Qed.

Lemma read_sections_ok {S} name t f n (s : S) :
  disk_ok → file_name name t → file t = Some f → elf_file f →
  ∀ i, 0 ≤ i → i + Z.of_nat n = e_shnum (file_ehdr f) →
  read_sections n i (Some name) (file_ehdr f) (names_at f)
    (summary name f (section_at f <$> seqZ 0 i)) s =
  Ok (ELF_SUCCESS, summary name f (sections f)) s.
Proof.
  intros Hd Hn Hf He. destruct (file_entry t f Hd Hf) as (_ & _ & _ & _ & Hsm & Hby).
  induction n as [|n IH]; intros i Hi Hni.
  { cbn [read_sections]. unfold sections. by replace i with (e_shnum (file_ehdr f)) by lia. }
  cbn [read_sections]. pose proof (ef_sections _ He i ltac:(lia)) as Hr.
  assert (0 ≤ e_shoff (file_ehdr f)) as Hsh by (apply field_nonneg, slice_bytes, Hby).
  unfold sizeof_Shdr in *. rewrite s32_small by lia.
  rewrite (bind_ok _ _ _ _ s) by (apply (getbytes_inside name t f); done || lia).
  cbv beta iota. rewrite decide_False by naive_solver. fold sizeof_Shdr.
  change (read_shdr (slice f _ sizeof_Shdr)) with (section_at f i). cbv zeta.
  set (sec := section_at f i).
  assert ((section_at f <$> seqZ 0 (i + 1)) = (section_at f <$> seqZ 0 i) ++ [sec]) as Hsnoc.
  { rewrite seqZ_app, fmap_app by lia. by rewrite Z.add_0_l. }
  specialize (IH (i + 1) ltac:(lia) ltac:(lia)). rewrite Hsnoc in IH.
  case_decide as Eu.
  { by rewrite summary_skip in IH by done. }
  assert (sec ∈ sections f) as Hin.
  { apply list_elem_of_fmap. exists i. split; [done|]. apply elem_of_seqZ. lia. }
  pose proof (ef_names _ He sec Hin Eu) as Hname.
  assert (0 ≤ names_at f ∧ 0 ≤ sh_name sec) as [Hna Hsn]
    by (split; apply field_nonneg, slice_bytes, Hby).
  rewrite s32_small by lia.
  destruct (getbytes_window name t f (names_at f + sh_name sec) s) as (m & Hm & Hrun); [done..|lia|].
  rewrite (bind_ok _ _ _ _ s Hrun). cbv beta iota. rewrite decide_False by lia.
  fold (section_name f sec). rewrite (bind_ok _ _ _ _ s (use_section_ok f sec name _ s Hby Eu)).
  exact IH.
Qed.

Lemma elf_load_helper_ok {S} name t (s : S) :
  disk_ok → file_name name t →
  (∀ f, file t = Some f → elf_file f →
     elf_load_helper (Some name) s = Ok (ELF_SUCCESS, summary name f (sections f)) s) ∧
  (file t = None → elf_load_helper (Some name) s = Ok (ELF_NOTELF, zero_elf) s).
Proof.
  intros Hd Hn. split; last first.
  { intros Hf. unfold elf_load_helper.
    by rewrite (bind_ok _ _ _ _ s (getbytes_absent name t 0 sizeof_Ehdr _ s Hd Hn Hf)). }
  intros f Hf He. destruct (file_entry t f Hd Hf) as (_ & _ & _ & _ & Hsm & Hby).
  pose proof (ef_header _ He) as Hh. unfold sizeof_Ehdr in Hh.
  unfold elf_load_helper.
  rewrite (bind_ok _ _ _ _ s) by (apply (getbytes_inside name t f); done || unfold sizeof_Ehdr; lia).
  cbv beta iota. rewrite decide_False by naive_solver. cbv zeta.
  change (read_ehdr (slice f 0 sizeof_Ehdr)) with (file_ehdr f).
  assert (0 ≤ e_shoff (file_ehdr f) ∧ 0 ≤ e_shstrndx (file_ehdr f) ∧ 0 ≤ e_shnum (file_ehdr f))
    as (Hs1 & Hs2 & Hs3) by (split_and!; apply field_nonneg, slice_bytes, Hby).
  pose proof (ef_sections _ He (e_shstrndx (file_ehdr f)) ltac:(by right)) as Hr.
  unfold sizeof_Shdr in *. rewrite s32_small by lia.
  rewrite (bind_ok _ _ _ _ s) by (apply (getbytes_inside name t f); done || lia).
  cbv beta iota. rewrite decide_False by naive_solver.
  change (sh_offset (read_shdr _)) with (names_at f).
  apply (read_sections_ok name t f); try done. lia.
Qed.

(** C36. For a file whose headers lie inside it, [elf_load_helper] succeeds and
    its summary is the one read off the section table: for each of .text,
    .data, .rodata and .bss the address, size and file offset of the last
    section with that name, zeros when there is none, whether or not the name
    is cut short by the end of the file; a file that is not there gives
    [ELF_NOTELF] and a zeroed summary. *)
Theorem elf_load_helper_correct {S} name t (s : S) :
  disk_ok → file_name name t →
  (∀ f, file t = Some f → elf_file f →
     elf_load_helper (Some name) s = Ok (ELF_SUCCESS, summary name f (sections f)) s) ∧
  (file t = None → elf_load_helper (Some name) s = Ok (ELF_NOTELF, zero_elf) s).
Proof. apply elf_load_helper_ok. Qed.

(** ** Which programs [exec] accepts *)
Definition exec_header (f : list Z) : bool :=
  bool_decide (sizeof_Ehdr ≤ Z.of_nat (length f)) &&
  bool_decide (take 4 f = ELFMAG) &&
  bool_decide (e_type (file_ehdr f) = ET_EXEC) &&
  bool_decide (e_machine (file_ehdr f) = EM_386) &&
  bool_decide (e_version (file_ehdr f) = EV_CURRENT).

Lemma elf_check_header_ok {S} name t f (s : S) :
  disk_ok → file_name name t → file t = Some f →
  elf_check_header (Some name) s = Ok (if exec_header f then ELF_SUCCESS else ELF_NOTELF) s.
Proof.
  intros Hd Hn Hf. destruct (file_entry t f Hd Hf) as (_ & _ & _ & _ & Hsm & Hby).
  unfold elf_check_header, exec_header. destruct (decide (sizeof_Ehdr ≤ Z.of_nat (length f))) as [Hl|Hl];
    unfold sizeof_Ehdr in *; last first.
  { rewrite (bool_decide_false (52 ≤ _)) by done. cbn [andb].
    assert (∃ m l, getbytes (Some name) 0 52 (replicate (Z.to_nat 52) 0) s = Ok (m, l) s ∧ m ≠ 52)
      as (m & l & Hrun & Hm).
    { rewrite (getbytes_ok name t f) by (done || lia || (rewrite length_replicate; lia)).
      rewrite decide_False by lia. case_decide; eexists _, _; (split; [done|]);
        unfold ERR_FAILURE; lia. }
    rewrite (bind_ok _ _ _ _ s Hrun). cbv beta iota. by rewrite decide_True. }
  rewrite (bool_decide_true (52 ≤ _)) by done.
  rewrite (bind_ok _ _ _ _ s) by (apply (getbytes_inside name t f); done || lia).
  cbv beta iota. rewrite decide_False by naive_solver. cbv zeta.
  change (read_ehdr (slice f 0 52)) with (file_ehdr f).
  destruct (memcmp_ok (e_ident (file_ehdr f)) ELFMAG (Z.to_nat SELFMAG)) as (r & Hr & Hr0).
  { by apply Forall_take, slice_bytes. }
  { unfold byte. by repeat constructor. }
  { change (e_ident (file_ehdr f)) with (take 16 (slice f 0 52)). unfold slice.
    rewrite !length_take, length_drop. change SELFMAG with 4. lia. }
  { by vm_compute; lia. }
  rewrite (bind_ok _ _ _ r s) by (by rewrite Hr).
  assert (r = 0 ↔ take 4 f = ELFMAG) as Hmag.
  { rewrite Hr0. change (e_ident (file_ehdr f)) with (take 16 (slice f 0 52)). unfold slice.
    change (Z.to_nat SELFMAG) with 4%nat. rewrite !take_take. done. }
  destruct (decide (r ≠ 0)) as [E|E].
  { by rewrite (bool_decide_false (take 4 f = _)) by tauto. }
  rewrite (bool_decide_true (take 4 f = _)) by (apply Hmag; lia).
  repeat (case_decide; [by rewrite bool_decide_false|rewrite bool_decide_true by lia]). done.
Qed.

Lemma elf_check_header_absent {S} name t (s : S) :
  disk_ok → file_name name t → file t = None → elf_check_header (Some name) s = Ok ELF_NOTELF s.
Proof.
  intros Hd Hn Hf. unfold elf_check_header.
  by rewrite (bind_ok _ _ _ _ s (getbytes_absent name t 0 sizeof_Ehdr _ s Hd Hn Hf)).
Qed.

Lemma check_entries_ok {S} name t c toc (s : S) :
  file_name name t → Forall entry_ok toc → elf_check_header (Some name) s = Ok c s →
  check_entries name toc s =
  Ok (if decide (c = ELF_SUCCESS ∧ is_Some (entry_named t toc)) then PROG_PRESENT_VALID
      else PROG_ABSENT_INVALID) s.
Proof.
  intros [Ht Hlen] Hall Hc. induction Hall as [|e toc [(u & Hu & Hul) _ _ _] _ IH].
  { rewrite decide_False; [done|]. by intros [_ []]. }
  cbn [check_entries]. destruct (strncmp_ok name t (execname e) u (Z.to_nat MAX_EXECNAME_LEN) Ht Hu)
    as (r & Hr & Hr0); [done|].
  rewrite (bind_ok _ _ _ r s) by (by rewrite Hr). unfold entry_named. rewrite filter_cons.
  rewrite (cname_text _ _ Hu). destruct (decide (r = 0)) as [E|E].
  - rewrite (decide_True (P := u = t)) by (symmetry; by apply Hr0).
    rewrite (bind_ok _ _ _ (bool_decide (c = ELF_SUCCESS)) s) by (by rewrite (bind_ok _ _ _ _ _ Hc)).
    case_bool_decide as Ec; [by rewrite decide_True|].
    rewrite IH, !decide_False by tauto. done.
  - rewrite (decide_False (P := u = t)) by (intros ->; by apply E, Hr0).
    rewrite bind_mret. apply IH.
Qed.

(** [check_program] accepts exactly the names of files on the ram disk whose
    header is that of a 32-bit x86 executable, and always returns. *)
Theorem check_program_correct {S} name t (s : S) :
  disk_ok → file_name name t →
  check_program name s =
  Ok (if default false (exec_header <$> file t) then PROG_PRESENT_VALID else PROG_ABSENT_INVALID) s.
Proof.
  intros Hd Hn. unfold check_program. destruct (file t) as [f|] eqn:Hf.
  - rewrite (check_entries_ok name t _ _ _ Hn Hd (elf_check_header_ok name t f s Hd Hn Hf)).
    assert (is_Some (entry_named t exec2obj_userapp_TOC)) as Hs
      by (by apply fmap_Some in Hf as (e & -> & _)).
    cbn. destruct (exec_header f); [by rewrite decide_True|].
    rewrite decide_False; [done|]. by intros [? _].
  - rewrite (check_entries_ok name t _ _ _ Hn Hd (elf_check_header_absent name t s Hd Hn Hf)).
    cbn. rewrite decide_False; [done|]. by intros [? _].
Qed.

End elf.

(** ** Copying the segments *)
Section load.
Context `{RD : Ramdisk} {H : Type} `{KernelHeapSpec H}.
Implicit Types (s : vm H) (own : gmap Z (Z * Z)) (pds : gset Z) (fs : list Z).

(** [s'] is [s] with the memory of [pd] changed to [g] of what it was: kernel
    structures other than the heap, and frames of other address spaces, are
    as they were. *)
Record updated s (pd : Z) (g : Z → option Z → option Z) s' : Prop := {
  up_shape : ∃ h ph, s' = set_kheap h (set_phys ph s) ∧ kh_pages h = kh_pages (kheap s);
  up_bytes : ∀ va, is_user va = true → read_byte s' pd va = g va (read_byte s pd va);
  up_other : ∀ f, (∀ va, is_user va = true → translate s pd va ≠ Some f) →
    phys s' !! f = phys s !! f;
}.

Lemma updated_ext s pd g g' s' :
  (∀ va o, is_user va = true → g va o = g' va o) → updated s pd g s' → updated s pd g' s'.
Proof. intros Hg [Hs Hb Ho]. split; [done| |done]. intros va Hu. by rewrite Hb, Hg. Qed.

Lemma updated_same s pd h :
  kh_pages h = kh_pages (kheap s) → updated s pd (λ _ o, o) (set_kheap h s).
Proof. intros Hh. split; [exists h, (phys s); by destruct s|done..]. Qed.

Lemma updated_trans s pd g s1 g' s2 :
  updated s pd g s1 → updated s1 pd g' s2 → updated s pd (λ va o, g' va (g va o)) s2.
Proof.
  intros [(h & ph & -> & Hh) Hb Ho] [(h' & ph' & -> & Hh') Hb' Ho']. split.
  - exists h', ph'. split; [done|]. by rewrite Hh'.
  - intros va Hu. by rewrite Hb', Hb.
  - intros f Hf. rewrite Ho' by done. by apply Ho.
Qed.

Lemma wrote_updated s pd va l s' : wrote s pd va l s' → updated s pd (overlay va l) s'.
Proof.
  intros [[ph ->] Hb Ho]. split; [|done|done].
  exists (kheap s), ph. by destruct s.
Qed.

Lemma updated_wf s pd g s' own pds fs :
  updated s pd g s' → vm_wf none s own pds fs → vm_wf none s' own pds fs.
Proof.
  intros [(h & ph & -> & Hh) _ _] Hwf.
  assert (vm_wf none (set_kheap h (set_kmem (kmem s) s)) own pds fs) as Hwf'.
  { apply wf_kmem; [done| |].
    - intros p Hp. split; [|done]. rewrite Hh. by eapply in_use_page.
    - intros p Hp. rewrite Hh in Hp. by apply (wf_page _ _ _ _ _ Hwf). }
  by destruct Hwf'.
Qed.

Lemma updated_cow s pd g s' own : updated s pd g s' → cow_ok s own → cow_ok s' own.
Proof. by intros [(h & ph & -> & _) _ _]. Qed.

Lemma updated_private s pd g s' own : updated s pd g s' → private s own pd → private s' own pd.
Proof. by intros [(h & ph & -> & _) _ _]. Qed.

Lemma updated_pte s pd g s' pd' va : updated s pd g s' → pte_at s' pd' va = pte_at s pd' va.
Proof. by intros [(h & ph & -> & _) _ _]. Qed.

Lemma updated_cr3 s pd g s' : updated s pd g s' → cr3 s' = cr3 s.
Proof. by intros [(h & ph & -> & _) _ _]. Qed.

(** An address space without tables has no pages. *)
Lemma private_empty x s own pds fs pd :
  vm_wf x s own pds fs → pd ∈ pds → (∀ pt i, own !! pt ≠ Some (pd, i)) → private s own pd.
Proof.
  intros Hwf Hpd Hno va f Hu Ht. apply translate_pte in Ht as (e & He & _).
  destruct (user_word va Hu) as [Hva Hvu].
  destruct (pte_at_inv _ _ _ _ _ _ _ _ Hwf Hpd Hva Hvu He) as (d & _ & Ho & _).
  by apply Hno in Ho.
Qed.

(** Every address of [lo, hi) is a mapped user address. *)
Definition all_mapped s (pd lo hi : Z) : Prop :=
  ∀ va, lo ≤ va < hi → is_user va = true ∧ is_Some (pte_at s pd va).

Lemma updated_mapped s pd g s' pd' lo hi :
  updated s pd g s' → all_mapped s pd' lo hi → all_mapped s' pd' lo hi.
Proof.
  intros Hu Hm va Hr. destruct (Hm va Hr). split; [done|]. by rewrite (updated_pte _ _ _ _ _ _ Hu).
Qed.

(** What the memory of an address space being loaded must satisfy. *)
Record load_state s own pds fs (pd : Z) : Prop := {
  lo_wf : vm_wf none s own pds fs;
  lo_pd : pd ∈ pds;
  lo_cr3 : cr3 s = pd;
  lo_private : private s own pd;
}.

Lemma load_state_updated s own pds fs pd g s' :
  updated s pd g s' → load_state s own pds fs pd → load_state s' own pds fs pd.
Proof.
  intros Hu [Hwf Hpd Hcr Hp]. split; [by eapply updated_wf|done| |by eapply updated_private].
  by rewrite (updated_cr3 _ _ _ _ Hu).
Qed.

(** Mapping a segment keeps an address space fit for loading. *)
Lemma map_segment_load s own pds fs pd start len flags :
  vm_wf none s own pds fs → cow_ok s own → pd ∈ pds →
  USER_MEM_START ≤ start → 0 ≤ len → start + len ≤ 0xFFFFF000 →
  0 ≤ flags < 4096 → present flags = true → private s own pd →
  ∃ rc s' own' fs', map_segment start len pd flags s = Ok rc s' ∧ load_state s' own' pds fs' pd.
Proof.
  intros Hwf Hcow Hpd Hst Hlen Hend Hfl Hflp Hp.
  destruct (map_segment_ok s own pds fs pd start len flags) as
    (rc & s' & own' & fs' & Hrun & Hex & _); [done..|].
  exists rc, s', own', fs'. split; [done|]. split; [apply Hex|done|apply Hex|].
  apply (grows_private s own fs s' own' fs' pds pd Hwf); [|done|done].
  eapply extends_grows; [exact Hex| |done]. unfold USER_MEM_START, page_of in *. dlia.
Qed.

(** Segments the loader can read: empty, or at least four bytes in the file. *)
Definition in_file (f : list Z) (off len : Z) : Prop :=
  len = 0 ∨ 4 ≤ len ∧ 0 ≤ off ∧ off + len ≤ Z.of_nat (length f).

(** The kernel heap can run out of memory. *)
Definition heap_may_fail : Prop := ∃ (h : H) n, (kh_smalloc h n).1 = NULL.

Lemma smalloc_ok s n :
  ∃ a h, smalloc n s = Ok a (set_kheap h s) ∧ kh_pages h = kh_pages (kheap s) ∧
    (a = NULL → heap_may_fail) ∧ (a ≠ NULL → a ∉ kh_pages h).
Proof.
  unfold smalloc. rewrite bind_get. destruct (kh_smalloc (kheap s) n) as [a h] eqn:E.
  exists a, h. pose proof (kh_smalloc_pages (kheap s) n) as Hp. rewrite E in Hp. cbn in Hp.
  split_and!; [done|done| |].
  - intros ->. exists (kheap s), n. by rewrite E.
  - intros Hne. rewrite Hp. by eapply kh_smalloc_fresh.
Qed.

Lemma load_segment_ok s own pds fs pd name t f start len off :
  load_state s own pds fs pd → disk_ok → file_name name t → file t = Some f →
  in_file f off len → all_mapped s pd start (start + len) →
  ∃ rc s', load_segment (Some name) start len off s = Ok rc s' ∧
    (rc = ERR_NOMEM ∧ heap_may_fail ∧ updated s pd (λ _ o, o) s' ∨
     rc = 0 ∧ updated s pd (overlay start (slice f off len)) s').
Proof.
  intros Hlo Hd Hn Hf Hin Hmap. destruct (file_entry t f Hd Hf) as (_ & _ & _ & _ & Hsm & _).
  unfold load_segment. destruct Hin as [->|(Hl4 & Hof & Hend)].
  { exists 0, s. split; [done|right; split; [done|]].
    apply (updated_ext _ _ (λ _ o, o)); [|by destruct s; apply updated_same].
    intros va o _. unfold overlay. rewrite decide_False; [done|].
    change (slice f off 0) with (@nil Z). cbn [length]. lia. }
  rewrite (s32_small len) by lia. cbv zeta. rewrite decide_True, bind_get by lia.
  destruct (smalloc_ok s len) as (buf & h & Hrun & Hh & Hnull & Hfresh).
  rewrite (bind_ok _ _ _ _ _ Hrun). case_decide as Eb.
  { exists ERR_NOMEM, (set_kheap h s). split; [done|left].
    split_and!; [done|by apply Hnull|by apply updated_same]. }
  rewrite (s32_small off) by lia. set (data := kh_data (kheap s) buf len).
  assert (length data = Z.to_nat len) as Hdl by apply kh_data_length.
  assert (getbytes (Some name) off len data (set_kheap h s) =
          Ok (len, slice f off len) (set_kheap h s)) as Hget.
  { rewrite (getbytes_ok name t f) by (done || lia). rewrite decide_False by lia.
    rewrite Z.min_l by lia. rewrite decide_False by lia.
    rewrite (drop_ge data) by lia. by rewrite app_nil_r. }
  rewrite (bind_ok _ _ _ _ _ Hget). cbv beta iota. rewrite decide_False by lia.
  pose proof (updated_same s pd h Hh) as Hu1.
  pose proof (load_state_updated _ _ _ _ _ _ _ Hu1 Hlo) as [Hwf1 Hpd Hcr1 Hp1].
  destruct (write_bytes_ok none (set_kheap h s) own pds fs pd start (slice f off len))
    as (s2 & Hw & Hwr); [done..| |].
  { intros va Hr. apply (Hmap va). unfold slice in Hr. rewrite length_take, length_drop in Hr. lia. }
  rewrite (bind_ok _ _ _ _ _ Hw). unfold sfree. rewrite bind_modify.
  exists 0. eexists. split; [done|right; split; [done|]].
  apply (updated_trans _ _ (overlay start (slice f off len)) s2 (λ _ o, o)).
  - apply (updated_trans _ _ (λ _ o, o) (set_kheap h s) (overlay start (slice f off len)));
      [done|by apply wrote_updated].
  - apply updated_same, kh_sfree_block. destruct Hwr as [[ph ->] _ _]. cbn. by apply Hfresh.
Qed.

Lemma load_program_ok s own pds fs pd name t f h :
  load_state s own pds fs pd → disk_ok → file_name name t → file t = Some f →
  e_fname h = Some name →
  let g := se_segments h in
  in_file f (e_txtoff h) (e_txtlen g) → in_file f (e_datoff h) (e_datlen g) →
  in_file f (e_rodatoff h) (e_rodatlen g) → 0 ≤ e_bsslen g →
  all_mapped s pd (e_txtstart g) (e_txtstart g + e_txtlen g) →
  all_mapped s pd (e_datstart g) (e_datstart g + e_datlen g) →
  all_mapped s pd (e_rodatstart g) (e_rodatstart g + e_rodatlen g) →
  all_mapped s pd (e_bssstart g) (e_bssstart g + e_bsslen g) →
  ∃ rc s', load_program h s = Ok rc s' ∧
    (rc = ERR_NOMEM ∧ heap_may_fail ∨
     rc = 0 ∧ updated s pd (λ va o,
       overlay (e_bssstart g) (zeros (Z.to_nat (e_bsslen g))) va
         (overlay (e_rodatstart g) (slice f (e_rodatoff h) (e_rodatlen g)) va
           (overlay (e_datstart g) (slice f (e_datoff h) (e_datlen g)) va
             (overlay (e_txtstart g) (slice f (e_txtoff h) (e_txtlen g)) va o)))) s').
Proof.
  intros Hlo Hd Hn Hf Hname g Ht Hda Hro Hbs Mt Md Mr Mb. unfold load_program. cbv zeta. rewrite Hname.
  fold g.
  destruct (load_segment_ok s own pds fs pd name t f (e_txtstart g) (e_txtlen g) (e_txtoff h))
    as (rc & s1 & Hrun & [(-> & ? & _)|[-> Hu1]]); [done..| |].
  { exists ERR_NOMEM, s1. rewrite (bind_ok _ _ _ _ _ Hrun). split; [done|by left]. }
  rewrite (bind_ok _ _ _ _ _ Hrun), decide_False by lia. clear Hrun.
  pose proof (load_state_updated _ _ _ _ _ _ _ Hu1 Hlo) as Hlo1.
  destruct (load_segment_ok s1 own pds fs pd name t f (e_datstart g) (e_datlen g) (e_datoff h))
    as (rc & s2 & Hrun & [(-> & ? & _)|[-> Hu2]]); [done..|by eapply updated_mapped| |].
  { exists ERR_NOMEM, s2. rewrite (bind_ok _ _ _ _ _ Hrun). split; [done|by left]. }
  rewrite (bind_ok _ _ _ _ _ Hrun), decide_False by lia. clear Hrun.
  pose proof (load_state_updated _ _ _ _ _ _ _ Hu2 Hlo1) as Hlo2.
  pose proof (updated_trans _ _ _ _ _ _ Hu1 Hu2) as Hu12.
  destruct (load_segment_ok s2 own pds fs pd name t f (e_rodatstart g) (e_rodatlen g) (e_rodatoff h))
    as (rc & s3 & Hrun & [(-> & ? & _)|[-> Hu3]]); [done..|by eapply updated_mapped| |].
  { exists ERR_NOMEM, s3. rewrite (bind_ok _ _ _ _ _ Hrun). split; [done|by left]. }
  rewrite (bind_ok _ _ _ _ _ Hrun), decide_False by lia. clear Hrun.
  pose proof (load_state_updated _ _ _ _ _ _ _ Hu3 Hlo2) as [Hwf3 Hpd Hcr3 Hp3].
  pose proof (updated_trans _ _ _ _ _ _ Hu12 Hu3) as Hu13.
  change (memset 0 (Z.to_nat (e_bsslen g))) with (zeros (Z.to_nat (e_bsslen g))).
  destruct (write_bytes_ok none s3 own pds fs pd (e_bssstart g) (zeros (Z.to_nat (e_bsslen g))))
    as (s4 & Hrun & Hw); [done..| |].
  { intros va Hr. apply (updated_mapped _ _ _ _ _ _ _ Hu13 Mb).
    unfold zeros in Hr. rewrite length_replicate in Hr. lia. }
  rewrite (bind_ok _ _ _ _ _ Hrun). exists 0, s4. split; [done|right; split; [done|]].
  exact (updated_trans _ _ _ _ _ _ Hu13 (wrote_updated _ _ _ _ _ Hw)).
Qed.

(** C35. [load_program] copies an executable into the address space it was set up
    for: when every segment lies in the file (and is empty or has at least four
    bytes) and its addresses are mapped, it returns 0, and then each byte of the
    user's memory is the byte of the last of .text, .data, .rodata and .bss
    (zeros) that covers its address, or what it was; or it returns [ERR_NOMEM],
    only when the kernel heap is out of memory.  Kernel structures and frames of
    other address spaces are untouched. *)
Theorem load_program_correct s own pds fs pd name t f h :
  load_state s own pds fs pd → disk_ok → file_name name t → file t = Some f →
  e_fname h = Some name →
  let g := se_segments h in
  in_file f (e_txtoff h) (e_txtlen g) → in_file f (e_datoff h) (e_datlen g) →
  in_file f (e_rodatoff h) (e_rodatlen g) → 0 ≤ e_bsslen g →
  all_mapped s pd (e_txtstart g) (e_txtstart g + e_txtlen g) →
  all_mapped s pd (e_datstart g) (e_datstart g + e_datlen g) →
  all_mapped s pd (e_rodatstart g) (e_rodatstart g + e_rodatlen g) →
  all_mapped s pd (e_bssstart g) (e_bssstart g + e_bsslen g) →
  ∃ rc s', load_program h s = Ok rc s' ∧
    (rc = ERR_NOMEM ∧ heap_may_fail ∨
     rc = 0 ∧ updated s pd (λ va o,
       overlay (e_bssstart g) (zeros (Z.to_nat (e_bsslen g))) va
         (overlay (e_rodatstart g) (slice f (e_rodatoff h) (e_rodatlen g)) va
           (overlay (e_datstart g) (slice f (e_datoff h) (e_datlen g)) va
             (overlay (e_txtstart g) (slice f (e_txtoff h) (e_txtlen g)) va o)))) s').
Proof. apply load_program_ok. Qed.

End load.

(** ** Instances: a program of four bytes of text *)
Definition le2 (x : Z) : list Z := [x mod 256; x / 256 mod 256].

(** A section header with the fields the loader reads. *)
Definition shdr_bytes (name addr offset size : Z) : list Z :=
  le4 name ++ zeros 8 ++ le4 addr ++ le4 offset ++ le4 size ++ zeros 16.

Definition demo_text : list Z := [0xB8; 1; 0; 0].
Definition demo_names : list Z := [0] ++ str_text ++ [46; 115; 104; 115; 116; 114; 116; 97; 98; 0].

Definition demo_elf : list Z :=
  (ELFMAG ++ zeros 12) ++ le2 ET_EXEC ++ le2 EM_386 ++ le4 EV_CURRENT ++ le4 0x1000000 ++ zeros 4 ++
  le4 73 ++ zeros 10 ++ zeros 2 ++ le2 3 ++ le2 2 ++ zeros 0 ++
  demo_text ++ demo_names ++
  shdr_bytes 0 0 0 0 ++ shdr_bytes 1 0x1000000 52 4 ++ shdr_bytes 7 0 56 17.

Definition demo_name : list Z := [97; 0].

#[local] Instance demo_disk : Ramdisk :=
  {| exec2obj_userapp_TOC := [mk_entry (97 :: zeros 255) demo_elf (Z.of_nat (length demo_elf))] |}.

Definition demo_se : simple_elf :=
  mk_elf (Some demo_name) 0x1000000 52 0 0 (mk_segments 0x1000000 4 0 0 0 0 0 0).

Example demo_load : elf_load_helper (S := unit) (Some demo_name) tt =
  Ok (ELF_SUCCESS, demo_se) tt.
Proof. vm_compute. reflexivity. Qed.

Lemma demo_disk_ok : disk_ok ∧ file_name demo_name [97] ∧ file [97] = Some demo_elf.
Proof.
  split_and!; [|split; [split; [by repeat constructor|by exists []]|cbn; lia]|vm_compute; reflexivity].
  apply Forall_singleton. split.
  - exists [97]. split; [split; [by repeat constructor|by exists (zeros 254)]|cbn; lia].
  - done.
  - vm_compute. reflexivity.
  - apply (bool_decide_unpack (Forall (λ b, 0 ≤ b < 256) demo_elf)). vm_compute. exact I.
Qed.

Lemma demo_elf_file : elf_file demo_elf.
Proof.
  split.
  - vm_compute. discriminate.
  - change (e_shnum (file_ehdr demo_elf)) with 3. change (e_shstrndx (file_ehdr demo_elf)) with 2.
    change (e_shoff (file_ehdr demo_elf)) with 73. change (Z.of_nat (length demo_elf)) with 193.
    unfold sizeof_Shdr. lia.
  - assert (Forall (λ sec, names_at demo_elf + sh_name sec < 193) (sections demo_elf)) as Hall
      by (apply (bool_decide_unpack _); vm_compute; exact I).
    intros sec Hin _. change (Z.of_nat (length demo_elf)) with 193.
    by eapply Forall_forall in Hall.
Qed.

Lemma getbytes_correct_witness :
  getbytes (S := unit) (Some demo_name) 52 8 (zeros 10) tt =
  Ok (8, demo_text ++ take 4 demo_names ++ [0; 0]) tt.
Proof.
  destruct demo_disk_ok as (Hd & Hn & Hf).
  rewrite (getbytes_correct demo_name [97] 52 8 (zeros 10) tt Hd Hn);
    [|cbn; lia|lia|lia]. by rewrite Hf.
Defined.

Lemma elf_load_helper_correct_witness :
  elf_load_helper (S := unit) (Some demo_name) tt =
  Ok (ELF_SUCCESS, summary demo_name demo_elf (sections demo_elf)) tt.
Proof.
  destruct demo_disk_ok as (Hd & Hn & Hf).
  apply (proj1 (elf_load_helper_correct demo_name [97] tt Hd Hn) demo_elf Hf demo_elf_file).
Defined.

Lemma check_program_correct_witness :
  check_program (S := unit) demo_name tt = Ok PROG_PRESENT_VALID tt.
Proof.
  destruct demo_disk_ok as (Hd & Hn & Hf).
  rewrite (check_program_correct demo_name [97] tt Hd Hn), Hf. reflexivity.
Defined.

(** The address space of [demo_ro] has one page, for the text. *)
Lemma demo_ro_load : ∃ own fs, load_state demo_ro own {[demo_pd]} fs demo_pd.
Proof.
  destruct demo_wf as [Hwf Hcow]. unfold demo_ro.
  destruct (map_segment_load demo ∅ {[demo_pd]} (all_frames demo_fa) demo_pd 0x1000000 100
    (Z.lor PAGE_ENTRY_PRESENT USER_MODE) Hwf Hcow) as (rc & s & own & fs & -> & Hlo);
    [by apply elem_of_singleton|unfold USER_MEM_START; lia|lia|lia|split; vm_compute; [discriminate|done]|done| |by exists own, fs].
  apply (private_empty none _ _ {[demo_pd]} (all_frames demo_fa)); [exact Hwf|by apply elem_of_singleton|].
  intros pt i. by rewrite lookup_empty.
Qed.

Lemma demo_ro_mapped va : 0x1000000 ≤ va < 0x1001000 → is_Some (pte_at demo_ro demo_pd va).
Proof.
  intros Hr. rewrite (pte_at_page demo_ro demo_pd va 0x1000000);
    [|unfold word; lia|unfold word; lia|unfold page_of; dlia].
  rewrite demo_ro_pte. by eexists.
Qed.

Lemma load_program_correct_witness :
  ∃ rc s', load_program demo_se demo_ro = Ok rc s'.
Proof.
  destruct demo_disk_ok as (Hd & Hn & Hf). destruct demo_ro_load as (own & fs & Hlo).
  destruct (load_program_correct demo_ro own {[demo_pd]} fs demo_pd demo_name [97] demo_elf demo_se
    Hlo Hd Hn Hf eq_refl) as (rc & s' & Hrun & _); [| | | | | | | |by exists rc, s'].
  - right. change (Z.of_nat (length demo_elf)) with 193. cbn. lia.
  - by left.
  - by left.
  - done.
  - intros va Hr. cbn in Hr. split; [apply is_user_true; unfold USER_MEM_START; lia|].
    apply demo_ro_mapped. lia.
  - intros va Hr. cbn in Hr. lia.
  - intros va Hr. cbn in Hr. lia.
  - intros va Hr. cbn in Hr. lia.
Defined.
