(* ===== verification/Regs.v ===== *)
(** * Kernel entry and exit, faults and software exception handlers
    (kern/interrupts/fault_handlers.c, kern/syscalls/syscall_util.c, the entry
    stubs of the .S files, swexn in kern/syscalls/thread_syscalls.c)

    A thread's kernel stack is the list of its words counted down from
    [k_stack_base]: word [i] of the list is [*((int * )k_stack_base - i - 1)].
    An interrupt from user mode pushes the user's context, the stub saves the
    general registers, C code changes saved words, and the stub restores the
    registers and returns with [iret].  Faults are passed to the task's
    software exception handler by building a [ureg] on a user stack. *)

From S2P Require Import Prelude Locks FrameAlloc Paging VM VMInv VMPages VMMap VMFault VMQuery VMTheorems UserMem CString.

(** ** Registers and stubs *)

(** The user's registers. *)
Record context : Type := mk_context {
  eax : Z; ecx : Z; edx : Z; ebx : Z; ebp : Z; esi : Z; edi : Z;
  eip : Z; cs : Z; eflags : Z; esp : Z; ss : Z;
}.

(** The processor in kernel mode: the general registers (the fields of a
    context that [iret] loads are unused), the kernel stack, its base and the
    number of words on it. *)
Record cpu : Type := mk_cpu { regs : context; kst : list Z; base : Z; depth : nat }.

Definition set_regs r c := mk_cpu r (kst c) (base c) (depth c).
Definition set_kst k c := mk_cpu (regs c) k (base c) (depth c).
Definition set_depth d c := mk_cpu (regs c) (kst c) (base c) d.

Definition set_eax v r := mk_context v (ecx r) (edx r) (ebx r) (ebp r) (esi r) (edi r)
  (eip r) (cs r) (eflags r) (esp r) (ss r).
Definition set_ecx v r := mk_context (eax r) v (edx r) (ebx r) (ebp r) (esi r) (edi r)
  (eip r) (cs r) (eflags r) (esp r) (ss r).
Definition set_edx v r := mk_context (eax r) (ecx r) v (ebx r) (ebp r) (esi r) (edi r)
  (eip r) (cs r) (eflags r) (esp r) (ss r).
Definition set_ebx v r := mk_context (eax r) (ecx r) (edx r) v (ebp r) (esi r) (edi r)
  (eip r) (cs r) (eflags r) (esp r) (ss r).
Definition set_ebp v r := mk_context (eax r) (ecx r) (edx r) (ebx r) v (esi r) (edi r)
  (eip r) (cs r) (eflags r) (esp r) (ss r).
Definition set_esi v r := mk_context (eax r) (ecx r) (edx r) (ebx r) (ebp r) v (edi r)
  (eip r) (cs r) (eflags r) (esp r) (ss r).
Definition set_edi v r := mk_context (eax r) (ecx r) (edx r) (ebx r) (ebp r) (esi r) v
  (eip r) (cs r) (eflags r) (esp r) (ss r).

Definition push (v : Z) : M cpu unit :=
  c ← get;
  deref (kst c !! depth c) ;;
  modify (set_kst (<[depth c := v]> (kst c))) ;;
  modify (set_depth (S (depth c))).

(** Popping the empty stack would read above its base. *)
Definition pop : M cpu Z :=
  c ← get;
  match depth c with
  | O => halt BadAccess
  | S d => v ← deref (kst c !! d); modify (set_depth d) ;; mret v
  end.

Definition reg (f : context → Z) : M cpu Z := gets (λ c, f (regs c)).
Definition load (f : Z → context → context) (v : Z) : M cpu unit :=
  modify (λ c, set_regs (f v (regs c)) c).
Definition push_reg (f : context → Z) : M cpu unit := v ← reg f; push v.
Definition pop_reg (f : Z → context → context) : M cpu unit := v ← pop; load f v.

(** [pushl %esp] and [popl %esp]. *)
Definition push_esp : M cpu unit := c ← get; push (base c - 4 * Z.of_nat (depth c)).
Definition pop_esp : M cpu unit :=
  v ← pop; modify (λ c, set_depth (Z.to_nat ((base c - v) / 4)) c).

Definition pusha : M cpu unit :=
  c ← get;
  push_reg eax ;; push_reg ecx ;; push_reg edx ;; push_reg ebx ;;
  push (base c - 4 * Z.of_nat (depth c)) ;; push_reg ebp ;; push_reg esi ;; push_reg edi.

Definition popa : M cpu unit :=
  pop_reg set_edi ;; pop_reg set_esi ;; pop_reg set_ebp ;; pop ;;
  pop_reg set_ebx ;; pop_reg set_edx ;; pop_reg set_ecx ;; pop_reg set_eax.

(** inc/syscalls/syscall_util_asm.h *)
Definition SAVE_REGS : M cpu unit :=
  push_reg ecx ;; push_reg eax ;; push_reg edx ;; push_reg ebx ;;
  push_esp ;; push_reg ebp ;; push_reg edi ;; push_reg esi.

Definition RESTORE_REGS : M cpu unit :=
  pop_reg set_esi ;; pop_reg set_edi ;; pop_reg set_ebp ;; pop_esp ;;
  pop_reg set_ebx ;; pop_reg set_edx ;; pop_reg set_ecx ;; pop_reg set_ecx.

(** The processor enters the kernel from user context [u]: the stack is empty,
    five words are pushed and, for some faults, an error code. *)
Definition enter (u : context) (err : option Z) : M cpu unit :=
  modify (λ c, set_depth 0 (set_regs u c)) ;;
  push (ss u) ;; push (esp u) ;; push (eflags u) ;; push (cs u) ;; push (eip u) ;;
  match err with Some e => push e | None => mret tt end.

(** [iret] to user mode: the context the user goes on with. *)
Definition iret : M cpu context :=
  ip ← pop; c ← pop; f ← pop; sp ← pop; s ← pop;
  r ← gets regs;
  mret (mk_context (eax r) (ecx r) (edx r) (ebx r) (ebp r) (esi r) (edi r) ip c f sp s).

(** A C function called by a stub: it changes the words of the stack that are
    in use and returns a value in %eax; %ecx and %edx are its own. *)
Definition call (body : list Z → outcome (list Z) Z) (junk : Z * Z) : M cpu unit :=
  λ c, match body (kst c) with
       | Ok v k => Ok tt (set_regs (set_edx junk.2 (set_ecx junk.1 (set_eax v (regs c)))) (set_kst k c))
       | Stop w => Stop w
       end.

(** A system call: [handler: SAVE_REGS; call handler_c; RESTORE_REGS; iret]. *)
Definition syscall_stub (body : list Z → outcome (list Z) Z) junk (u : context) : M cpu context :=
  enter u None ;; SAVE_REGS ;; call body junk ;; RESTORE_REGS ;; iret.

(** A fault: [handler: pusha; call handler_c; popa; popl %ecx; iret]. *)
Definition fault_stub (body : list Z → outcome (list Z) Z) junk (u : context) (err : option Z) :
    M cpu context :=
  enter u err ;; pusha ;; call body junk ;; popa ;; pop_reg set_ecx ;; iret.

(** [iret_fun], where a new thread starts (kern/asm/asm.S), from the stack
    pointer [k_stack_base - DEFAULT_STACK_OFFSET]: the switch pops the address of
    [iret_fun] itself. *)
Definition DEFAULT_STACK_OFFSET : Z := 56.
Definition iret_fun : M cpu context :=
  modify (set_depth (Z.to_nat (DEFAULT_STACK_OFFSET / 4))) ;;
  pop ;; popa ;; load set_eax 0 ;; iret.

(** ** spec/ureg.h *)
Record ureg : Type := mk_ureg {
  u_cause : Z; u_cr2 : Z; u_ds : Z; u_es : Z; u_fs : Z; u_gs : Z;
  u_edi : Z; u_esi : Z; u_ebp : Z; u_zero : Z; u_ebx : Z; u_edx : Z; u_ecx : Z; u_eax : Z;
  u_error_code : Z; u_eip : Z; u_cs : Z; u_eflags : Z; u_esp : Z; u_ss : Z;
}.
Definition sizeof_ureg : Z := 80.

Definition ureg_words (u : ureg) : list Z :=
  [u_cause u; u_cr2 u; u_ds u; u_es u; u_fs u; u_gs u; u_edi u; u_esi u; u_ebp u; u_zero u;
   u_ebx u; u_edx u; u_ecx u; u_eax u; u_error_code u; u_eip u; u_cs u; u_eflags u; u_esp u; u_ss u].

Definition SEGSEL_USER_CS : Z := 0x23.
Definition SEGSEL_USER_DS : Z := 0x2b.
Definition ERR_CODE_AVAIL : Z := 1.
Definition ERR_CODE_ABSENT : Z := 0.
Definition EFLAGS_IOPL : Z := 0x3000.
Definition EFLAGS_IF : Z := 0x200.

Definition SWEXN_CAUSE_PAGEFAULT : Z := 0x0E.
Definition THREAD_KILL_EXIT_STATUS : Z := -2.

(** ** kern/syscalls/syscall_util.c, on the words of the kernel stack *)

(** [*((int * )kernel_stack_base - i)]. *)
Definition kword (i : nat) : M (list Z) Z := k ← get; deref (k !! pred i).
Definition set_kword (i : nat) (v : Z) : M (list Z) unit :=
  k ← get; deref (k !! pred i) ;; modify <[pred i := v]>.

Definition validate_uregs (u : ureg) : Z :=
  if decide (Z.land (u_eflags u) EFLAGS_IOPL = EFLAGS_IOPL) then ERR_INVAL
  else if decide (Z.land (u_eflags u) EFLAGS_IF ≠ EFLAGS_IF) then ERR_INVAL
  else 0.

Definition setup_kernel_stack (u : ureg) : M (list Z) Z :=
  let retval := validate_uregs u in
  if decide (retval < 0) then mret retval
  else
    set_kword 1 (u_ds u) ;; set_kword 2 (u_esp u) ;; set_kword 3 (u_eflags u) ;;
    set_kword 4 (u_cs u) ;; set_kword 5 (u_eip u) ;;
    set_kword 6 (u_ecx u) ;; set_kword 7 (u_eax u) ;; set_kword 8 (u_edx u) ;;
    set_kword 9 (u_ebx u) ;; set_kword 11 (u_ebp u) ;; set_kword 12 (u_edi u) ;;
    set_kword 13 (u_esi u) ;;
    mret 0.

(** With the [cause] and [cr2] that the caller sets. *)
Definition populate_ureg (cause cr2 err_code_avail : Z) : M (list Z) ureg :=
  let a := Z.to_nat err_code_avail in
  vax ← kword (6 + a); vcx ← kword (7 + a); vdx ← kword (8 + a); vbx ← kword (9 + a);
  vbp ← kword (11 + a); vsi ← kword (12 + a); vdi ← kword (13 + a);
  code ← (if decide (err_code_avail = ERR_CODE_AVAIL) then kword 6 else mret 0);
  ip ← kword 5; c ← kword 4; f ← kword 3; sp ← kword 2; s ← kword 1;
  mret (mk_ureg cause cr2 SEGSEL_USER_DS SEGSEL_USER_DS SEGSEL_USER_DS SEGSEL_USER_DS
          vdi vsi vbp 0 vbx vdx vcx vax code ip c f sp s).

(** kern/interrupts/fault_handlers.c *)
Definition update_fault_stack (sp ip : Z) : M (list Z) unit :=
  set_kword 2 sp ;; set_kword 5 ip.

(** ** What the stubs do *)

(** A stack with room for an entry frame. *)
Definition room (k : list Z) : Prop := (16 ≤ length k)%nat.

Lemma room_cells k : room k →
  ∃ a b c d e f g h i j l m n o p q r,
    k = a :: b :: c :: d :: e :: f :: g :: h :: i :: j :: l :: m :: n :: o :: p :: q :: r.
Proof.
  unfold room. intros Hk. do 16 (destruct k as [|? k]; [cbn in Hk; lia|]). by do 17 eexists.
Qed.

Ltac open_stack Hk := apply room_cells in Hk as (?&?&?&?&?&?&?&?&?&?&?&?&?&?&?&?&?&->).

(** The frame that [SAVE_REGS] leaves below the context of a system call. *)
Definition syscall_frame (u : context) (b : Z) : list Z :=
  [ss u; esp u; eflags u; cs u; eip u; ecx u; eax u; edx u; ebx u; b - 36; ebp u; edi u; esi u].

(** The frame that [pusha] leaves for a fault with error code [e]. *)
Definition fault_frame (u : context) (b e : Z) : list Z :=
  [ss u; esp u; eflags u; cs u; eip u; e; eax u; ecx u; edx u; ebx u; b - 24; ebp u; esi u; edi u].

(** The same without one. *)
Definition bare_fault_frame (u : context) (b : Z) : list Z :=
  [ss u; esp u; eflags u; cs u; eip u; eax u; ecx u; edx u; ebx u; b - 20; ebp u; esi u; edi u].

Definition under (frame k : list Z) : list Z := frame ++ drop (length frame) k.

Lemma enter_save u r k b d :
  room k →
  (enter u None ;; SAVE_REGS) (mk_cpu r k b d) = Ok tt (mk_cpu u (under (syscall_frame u b) k) b 13).
Proof. intros Hk. open_stack Hk. reflexivity. Qed.

Lemma enter_pusha u e r k b d :
  room k →
  (enter u (Some e) ;; pusha) (mk_cpu r k b d) = Ok tt (mk_cpu u (under (fault_frame u b e) k) b 14).
Proof. intros Hk. open_stack Hk. reflexivity. Qed.

Lemma enter_pusha_bare u r k b d :
  room k →
  (enter u None ;; pusha) (mk_cpu r k b d) = Ok tt (mk_cpu u (under (bare_fault_frame u b) k) b 13).
Proof. intros Hk. open_stack Hk. reflexivity. Qed.

Lemma pop_ok r k b d v : k !! d = Some v → pop (mk_cpu r k b (S d)) = Ok v (mk_cpu r k b d).
Proof. intros Hv. unfold pop. rewrite bind_get. cbn [depth kst]. by rewrite Hv. Qed.

Lemma pop_reg_ok f r k b d v :
  k !! d = Some v → pop_reg f (mk_cpu r k b (S d)) = Ok tt (mk_cpu (f v r) k b d).
Proof. intros Hv. unfold pop_reg. by rewrite (bind_ok _ _ _ _ _ (pop_ok r k b d v Hv)). Qed.

Lemma load_ok f v r k b d : load f v (mk_cpu r k b d) = Ok tt (mk_cpu (f v r) k b d).
Proof. done. Qed.

(** Pop the saved registers of a stack that is written out. *)
Ltac pops :=
  repeat first
    [ rewrite bind_assoc
    | erewrite bind_ok by (apply pop_reg_ok; reflexivity)
    | erewrite bind_ok by (apply pop_ok; reflexivity)
    | rewrite (bind_ok _ _ _ _ _ (load_ok _ _ _ _ _ _)) ].

Lemma iret_ok r w1 w2 w3 w4 w5 k b :
  iret (mk_cpu r (w1 :: w2 :: w3 :: w4 :: w5 :: k) b 5) =
  Ok (mk_context (eax r) (ecx r) (edx r) (ebx r) (ebp r) (esi r) (edi r) w5 w4 w3 w2 w1)
     (mk_cpu r (w1 :: w2 :: w3 :: w4 :: w5 :: k) b 0).
Proof. unfold iret. pops. done. Qed.

Lemma pop_esp_ok r k b d v n :
  k !! d = Some v → v = b - 4 * Z.of_nat n → pop_esp (mk_cpu r k b (S d)) = Ok tt (mk_cpu r k b n).
Proof.
  intros Hv ->. unfold pop_esp. rewrite (bind_ok _ _ _ _ _ (pop_ok r k b d _ Hv)).
  unfold modify, set_depth. cbn [regs kst base depth].
  replace (b - (b - 4 * Z.of_nat n)) with (Z.of_nat n * 4) by lia. by rewrite Z.div_mul, Nat2Z.id.
Qed.

(** Returning from a system call, from whatever the frame holds then. *)
Lemma restore_iret r b w1 w2 w3 w4 w5 w6 w7 w8 w9 w11 w12 w13 k :
  ∃ c, (RESTORE_REGS ;; iret)
         (mk_cpu r (w1 :: w2 :: w3 :: w4 :: w5 :: w6 :: w7 :: w8 :: w9 :: b - 36 :: w11 :: w12 :: w13 :: k) b 13) =
       Ok (mk_context (eax r) w6 w8 w9 w11 w13 w12 w5 w4 w3 w2 w1) c.
Proof.
  unfold RESTORE_REGS. pops.
  erewrite bind_ok by (eapply (pop_esp_ok _ _ b _ _ 9); [reflexivity|lia]). pops.
  eexists. rewrite iret_ok. by destruct r.
Qed.

(** Returning from a fault. *)
Lemma popa_iret r b w1 w2 w3 w4 w5 w6 w7 w8 w9 w10 w11 w12 w13 w14 k :
  ∃ c, (popa ;; pop_reg set_ecx ;; iret)
         (mk_cpu r (w1 :: w2 :: w3 :: w4 :: w5 :: w6 :: w7 :: w8 :: w9 :: w10 :: w11 :: w12 :: w13 :: w14 :: k) b 14) =
       Ok (mk_context w7 w6 w9 w10 w12 w13 w14 w5 w4 w3 w2 w1) c.
Proof. unfold popa. pops. eexists. rewrite iret_ok. by destruct r. Qed.

(** C code that works on a kernel stack leaves the first [n] words alone. *)
Definition keeps (n : nat) (body : list Z → outcome (list Z) Z) (v : Z) : Prop :=
  ∀ k, (n ≤ length k)%nat → ∃ k', body k = Ok v k' ∧ take n k' = take n k.

Lemma take_cells (n : nat) (f k k' : list Z) :
  length f = n → take n k' = take n (f ++ k) → ∃ t, k' = f ++ t.
Proof.
  intros Hf Ht. exists (drop n k'). rewrite <- (take_drop n k') at 1. f_equal.
  rewrite Ht. subst n. by rewrite take_app_length.
Qed.

Lemma call_ok body junk r k k' v b d :
  body k = Ok v k' →
  call body junk (mk_cpu r k b d) =
  Ok tt (mk_cpu (set_edx junk.2 (set_ecx junk.1 (set_eax v r))) k' b d).
Proof. intros Hb. unfold call. cbn. by rewrite Hb. Qed.

(** The body's result for a frame it does not keep. *)
Lemma syscall_stub_run body junk u r k b d v w1 w2 w3 w4 w5 w6 w7 w8 w9 w11 w12 w13 t :
  room k →
  body (under (syscall_frame u b) k) =
    Ok v (w1 :: w2 :: w3 :: w4 :: w5 :: w6 :: w7 :: w8 :: w9 :: b - 36 :: w11 :: w12 :: w13 :: t) →
  ∃ c, syscall_stub body junk u (mk_cpu r k b d) =
       Ok (mk_context v w6 w8 w9 w11 w13 w12 w5 w4 w3 w2 w1) c.
Proof.
  intros Hk Hb. unfold syscall_stub. rewrite (bind_ok2 _ _ _ _ _ _ (enter_save u r k b d Hk)).
  rewrite (bind_ok _ _ _ _ _ (call_ok _ _ _ _ _ _ _ _ Hb)). apply restore_iret.
Qed.

(** C38. The system call stubs give the user back every register, with the result
    in %eax, when the C handler leaves the entry frame alone.  The fault stub
    does the same for faults with an error code except that %ecx holds the
    error code afterwards: a copy-on-write fault changes %ecx.  For a fault
    without an error code the stub pops one word too many and [iret] runs off
    the base of the stack. *)
Theorem stubs_restore_registers u r k b d v :
  room k →
  (∀ body junk, keeps 13 body v →
     ∃ c, syscall_stub body junk u (mk_cpu r k b d) = Ok (set_eax v u) c) ∧
  (∀ body junk e, keeps 14 body v →
     ∃ c, fault_stub body junk u (Some e) (mk_cpu r k b d) = Ok (set_ecx e u) c) ∧
  (∀ body junk, keeps 13 body v →
     fault_stub body junk u None (mk_cpu r k b d) = Stop BadAccess).
Proof.
  intros Hk. split_and!.
  - intros body junk Hb.
    assert (13 ≤ length (under (syscall_frame u b) k))%nat as Hlen by (cbn; lia).
    destruct (Hb _ Hlen) as (k' & Hrun & Ht).
    apply (take_cells 13 (syscall_frame u b)) in Ht as [t ->]; [|done].
    destruct (syscall_stub_run body junk u r k b d v _ _ _ _ _ _ _ _ _ _ _ _ t Hk Hrun) as [c ->].
    exists c. by destruct u.
  - intros body junk e Hb. unfold fault_stub.
    rewrite (bind_ok2 _ _ _ _ _ _ (enter_pusha u e r k b d Hk)).
    destruct (Hb (under (fault_frame u b e) k)) as (k' & Hrun & Ht); [cbn; lia|].
    apply (take_cells 14 (fault_frame u b e)) in Ht as [t ->]; [|done].
    rewrite (bind_ok _ _ _ _ _ (call_ok _ _ _ _ _ _ _ _ Hrun)).
    edestruct popa_iret as [c Hc]. exists c. etransitivity; [exact Hc|]. by destruct u.
  - intros body junk Hb. unfold fault_stub.
    rewrite (bind_ok2 _ _ _ _ _ _ (enter_pusha_bare u r k b d Hk)).
    destruct (Hb (under (bare_fault_frame u b) k)) as (k' & Hrun & Ht); [cbn; lia|].
    apply (take_cells 13 (bare_fault_frame u b)) in Ht as [t ->]; [|done].
    by rewrite (bind_ok _ _ _ _ _ (call_ok _ _ _ _ _ _ _ _ Hrun)).
Qed.

(** A forked child starts where the parent called [fork], on the parent's
    user stack, with 0 in %eax, but not with the parent's other registers: the
    stack is saved by [SAVE_REGS] and restored by [popa], which expects another
    order, so that %esi and %edi are exchanged and %ecx is the parent's %eax. *)
Theorem fork_child_registers u r b b' d w t :
  ∃ c, iret_fun (mk_cpu r (syscall_frame u b ++ w :: t) b' d) =
       Ok (mk_context 0 (eax u) (edx u) (ebx u) (ebp u) (edi u) (esi u)
             (eip u) (cs u) (eflags u) (esp u) (ss u)) c.
Proof.
  unfold iret_fun. change (Z.to_nat (DEFAULT_STACK_OFFSET / 4)) with 14%nat.
  rewrite bind_modify. unfold set_depth. cbn [regs kst base].
  unfold syscall_frame. cbn [app]. unfold popa. pops. eexists. rewrite iret_ok. by destruct r.
Qed.

(** ** Software exceptions *)

(** The registers a handler is told, for user context [u]. *)
Definition ureg_of (cause cr2 e : Z) (u : context) : ureg :=
  mk_ureg cause cr2 SEGSEL_USER_DS SEGSEL_USER_DS SEGSEL_USER_DS SEGSEL_USER_DS
    (edi u) (esi u) (ebp u) 0 (ebx u) (edx u) (ecx u) (eax u) e
    (eip u) (cs u) (eflags u) (esp u) (ss u).

Lemma populate_ok cause cr2 u b e k :
  populate_ureg cause cr2 ERR_CODE_AVAIL (under (fault_frame u b e) k) =
  Ok (ureg_of cause cr2 e u) (under (fault_frame u b e) k).
Proof. reflexivity. Qed.

(** Flags a user may set: interrupts on, and not the privilege level 3. *)
Definition flags_ok (f : Z) : Prop :=
  Z.land f EFLAGS_IOPL ≠ EFLAGS_IOPL ∧ Z.land f EFLAGS_IF = EFLAGS_IF.

Lemma validate_ok u : flags_ok (u_eflags u) ↔ validate_uregs u = 0.
Proof.
  unfold flags_ok, validate_uregs, ERR_INVAL. destruct (decide _); [|destruct (decide _)]; split; try tauto; lia.
Qed.

Lemma validate_bad u : ¬ flags_ok (u_eflags u) → validate_uregs u = ERR_INVAL.
Proof.
  unfold flags_ok, validate_uregs. intros Hn. case_decide as E1; [done|].
  case_decide as E2; [done|]. destruct Hn. split; [done|]. by destruct (decide (Z.land (u_eflags u) EFLAGS_IF = EFLAGS_IF)).
Qed.

Lemma setup_ok u v b k :
  flags_ok (u_eflags v) →
  setup_kernel_stack v (under (syscall_frame u b) k) =
  Ok 0 (under [u_ds v; u_esp v; u_eflags v; u_cs v; u_eip v; u_ecx v; u_eax v; u_edx v; u_ebx v;
               b - 36; u_ebp v; u_edi v; u_esi v] k).
Proof.
  intros Hv. unfold setup_kernel_stack. apply validate_ok in Hv. rewrite Hv. reflexivity.
Qed.

(** What [swexn] does with a new register set: install it, or fail and leave the
    stack alone. *)
Definition adopt (v : ureg) : M (list Z) Z :=
  retval ← setup_kernel_stack v;
  if decide (retval < 0) then mret ERR_FAILURE else mret (u_eax v).

(** Handing a fault to a handler and resuming loses nothing: the [ureg] built
    from the kernel stack at a fault in user context [u], passed back to
    [swexn] from any context, resumes exactly [u], when [u] runs on the user
    data segment with flags a user may have; a register set with other flags is
    refused and the caller goes on with [ERR_FAILURE]. *)
Lemma swexn_round_trip u w b b' e k k' cause cr2 r d junk :
  room k → room k' →
  ∃ v, populate_ureg cause cr2 ERR_CODE_AVAIL (under (fault_frame u b e) k) =
         Ok v (under (fault_frame u b e) k) ∧
  (flags_ok (eflags u) → ss u = SEGSEL_USER_DS →
     ∃ c, syscall_stub (adopt v) junk w (mk_cpu r k' b' d) = Ok u c) ∧
  (¬ flags_ok (eflags u) →
     ∃ c, syscall_stub (adopt v) junk w (mk_cpu r k' b' d) = Ok (set_eax ERR_FAILURE w) c).
Proof.
  intros Hk Hk'. exists (ureg_of cause cr2 e u). split; [apply populate_ok|]. split.
  - intros Hf Hs.
    assert (adopt (ureg_of cause cr2 e u) (under (syscall_frame w b') k') = Ok (eax u)
      (SEGSEL_USER_DS :: esp u :: eflags u :: cs u :: eip u :: ecx u :: eax u :: edx u :: ebx u :: b' - 36 ::
       ebp u :: edi u :: esi u :: drop 13 k')) as Hrun
      by (unfold adopt; rewrite (bind_ok _ _ _ _ _ (setup_ok w (ureg_of cause cr2 e u) b' k' Hf)); reflexivity).
    destruct (syscall_stub_run _ junk w r k' b' d _ _ _ _ _ _ _ _ _ _ _ _ _ _ Hk' Hrun) as [c Hc].
    exists c. rewrite Hc. rewrite <- Hs. by destruct u.
  - intros Hf.
    assert (adopt (ureg_of cause cr2 e u) (under (syscall_frame w b') k') =
      Ok ERR_FAILURE (under (syscall_frame w b') k')) as Hrun.
    { unfold adopt, setup_kernel_stack. by rewrite validate_bad. }
    destruct (syscall_stub_run _ junk w r k' b' d _ _ _ _ _ _ _ _ _ _ _ _ _ _ Hk' Hrun) as [c Hc].
    exists c. rewrite Hc. by destruct w.
Qed.

(** ** An instance *)
Definition demo_context : context :=
  mk_context 1 2 3 4 5 6 7 0x1000010 SEGSEL_USER_CS 0x202 0x1000F00 SEGSEL_USER_DS.

Lemma stubs_restore_registers_witness :
  ∃ c, fault_stub (λ k, Ok 0 k) (0, 0) demo_context (Some 7)
         (mk_cpu demo_context (replicate 16 0) 0x200000 0) = Ok (set_ecx 7 demo_context) c.
Proof.
  apply (proj1 (proj2 (stubs_restore_registers demo_context demo_context (replicate 16 0) 0x200000 0 0
    (Nat.le_refl 16)))).
  intros k _. by exists k.
Defined.
