(* ===== verification/Swexn.v ===== *)
(** * Faults and the swexn system call (kern/interrupts/fault_handlers.c,
    swexn_handler_c of kern/syscalls/thread_syscalls.c)

    The state is what these handlers touch of the current thread and its task:
    virtual memory, the kernel stack (Regs.v) and the software exception handler
    registered with the task.  A fault either resumes the thread, possibly in
    the handler, or kills it: [kill_current_thread] prints, sets the exit status
    and vanishes, which the result [Kill] stands for. *)

From S2P Require Import Prelude Locks FrameAlloc Paging VM VMInv VMPages VMMap VMFault VMQuery VMTheorems CString UserMem Loader Idt Regs.

Inductive fault_result : Type := Resume | Kill (cause exit_status : Z).

(** ** Causes (spec/ureg.h) *)
Definition SWEXN_CAUSE_DIVIDE : Z := 0x00.
Definition SWEXN_CAUSE_DEBUG : Z := 0x01.
Definition SWEXN_CAUSE_BREAKPOINT : Z := 0x03.
Definition SWEXN_CAUSE_OVERFLOW : Z := 0x04.
Definition SWEXN_CAUSE_BOUNDCHECK : Z := 0x05.
Definition SWEXN_CAUSE_OPCODE : Z := 0x06.
Definition SWEXN_CAUSE_SEGFAULT : Z := 0x0B.
Definition SWEXN_CAUSE_STACKFAULT : Z := 0x0C.
Definition SWEXN_CAUSE_PROTFAULT : Z := 0x0D.
Definition SWEXN_CAUSE_FPUFAULT : Z := 0x10.
Definition SWEXN_CAUSE_ALIGNFAULT : Z := 0x11.

Section swexn.
Context {H : Type} `{KernelHeap H}.

Record proc : Type := mk_proc {
  pmem : vm H;
  pstk : list Z;
  sw_eip : Z;
  sw_args : Z;
  sw_esp : Z;
}.

Definition set_pmem m p := mk_proc m (pstk p) (sw_eip p) (sw_args p) (sw_esp p).
Definition set_pstk k p := mk_proc (pmem p) k (sw_eip p) (sw_args p) (sw_esp p).
Definition set_handler ip args sp p := mk_proc (pmem p) (pstk p) ip args sp.

Definition in_mem {A} (m : M (vm H) A) : M proc A := zoom pmem set_pmem m.
Definition in_stack {A} (m : M (list Z) A) : M proc A := zoom pstk set_pstk m.

(** ** kern/interrupts/fault_handlers.c *)
Definition setup_swexn_stack (esp3 : Z) (u : ureg) (arg : Z) : M (vm H) Z :=
  let stack_bottom := u32 (esp3 - sizeof_ureg) in
  write_bytes stack_bottom (concat (le4 <$> ureg_words u)) ;;
  write_word (u32 (stack_bottom - 4)) stack_bottom ;;
  write_word (u32 (stack_bottom - 8)) arg ;;
  write_word (u32 (stack_bottom - 12)) (u_eip u) ;;
  mret (u32 (stack_bottom - 12)).

(** [cr2] is the register %cr2. *)
Definition invoke_swexn_handler (cause cr2 : Z) : M proc Z :=
  p ← get;
  if decide (sw_eip p = NULL) then mret ERR_FAILURE
  else
    u ← in_stack (populate_ureg cause cr2 ERR_CODE_AVAIL);
    stack_bottom ← in_mem (setup_swexn_stack (sw_esp p) u (sw_args p));
    in_stack (update_fault_stack stack_bottom (sw_eip p)) ;;
    modify (λ p, set_handler NULL (sw_args p) (sw_esp p) p) ;;
    mret 0.

(** The console output of [kill_current_thread] reads the same [ureg]. *)
Definition kill_current_thread (cause : Z) : M proc fault_result :=
  in_stack (populate_ureg 0 0 ERR_CODE_AVAIL) ;;
  mret (Kill cause THREAD_KILL_EXIT_STATUS).

Definition handle_fault (cause cr2 : Z) : M proc fault_result :=
  r ← invoke_swexn_handler cause cr2;
  if decide (r = 0) then mret Resume else kill_current_thread cause.

Definition page_fault_handler_c (cr2 : Z) : M proc fault_result :=
  cow ← in_mem (is_addr_cow cr2);
  if cow : bool then
    r ← in_mem (handle_cow cr2);
    if decide (r < 0) then kill_current_thread SWEXN_CAUSE_PAGEFAULT else mret Resume
  else handle_fault SWEXN_CAUSE_PAGEFAULT cr2.

Definition divide_error_handler_c := handle_fault SWEXN_CAUSE_DIVIDE.
Definition debug_exception_handler_c := handle_fault SWEXN_CAUSE_DEBUG.
Definition non_maskable_interrupt_handler_c := kill_current_thread IDT_NMI.
Definition breakpoint_handler_c := handle_fault SWEXN_CAUSE_BREAKPOINT.
Definition overflow_handler_c := handle_fault SWEXN_CAUSE_OVERFLOW.
Definition bound_range_handler_c := handle_fault SWEXN_CAUSE_BOUNDCHECK.
Definition undefined_opcode_handler_c := handle_fault SWEXN_CAUSE_OPCODE.
Definition no_math_coprocessor_handler_c := kill_current_thread IDT_NM.
Definition cso_handler_c := kill_current_thread IDT_CSO.
Definition invalid_tss_handler_c := kill_current_thread IDT_TS.
Definition snp_handler_c := handle_fault SWEXN_CAUSE_SEGFAULT.
Definition ssf_handler_c := handle_fault SWEXN_CAUSE_STACKFAULT.
Definition gpf_handler_c := handle_fault SWEXN_CAUSE_PROTFAULT.
Definition math_fault_handler_c := kill_current_thread IDT_MF.
Definition alignment_check_handler_c := handle_fault SWEXN_CAUSE_ALIGNFAULT.
Definition machine_check_handler_c := kill_current_thread IDT_MC.
Definition floating_point_exp_handler_c := handle_fault SWEXN_CAUSE_FPUFAULT.

(** ** kern/syscalls/thread_syscalls.c *)

(** The fields of the user's [ureg_t] that [setup_kernel_stack] reads. *)
Definition read_ureg (p : Z) : M (vm H) ureg :=
  vds ← read_word (u32 (p + 8));
  vdi ← read_word (u32 (p + 24)); vsi ← read_word (u32 (p + 28)); vbp ← read_word (u32 (p + 32));
  vbx ← read_word (u32 (p + 40)); vdx ← read_word (u32 (p + 44)); vcx ← read_word (u32 (p + 48));
  vax ← read_word (u32 (p + 52)); ip ← read_word (u32 (p + 60)); c ← read_word (u32 (p + 64));
  f ← read_word (u32 (p + 68)); sp ← read_word (u32 (p + 72));
  mret (mk_ureg 0 0 vds 0 0 0 vdi vsi vbp 0 vbx vdx vcx vax 0 ip c f sp 0).

(** The flags are looked at before the other fields. *)
Definition adopt_from (newureg : Z) : M proc Z :=
  f ← in_mem (read_word (u32 (newureg + 68)));
  if decide (validate_uregs (mk_ureg 0 0 0 0 0 0 0 0 0 0 0 0 0 0 0 0 0 f 0 0) < 0) then mret ERR_FAILURE
  else
    u ← in_mem (read_ureg newureg);
    in_stack (adopt u).

(** [p != NULL && is_pointer_valid(p, 4) < 0]. *)
Definition bad_pointer (p : Z) : M proc bool :=
  if decide (p = NULL) then mret false
  else r ← in_mem (is_pointer_valid p 4); mret (bool_decide (r < 0)).

Definition swexn_handler_c (arg_packet : Z) : M proc Z :=
  esp3 ← in_mem (read_word arg_packet);
  bad ← bad_pointer esp3;
  bad ← (if bad : bool then mret true
         else if decide (esp3 = NULL) then mret false
         else w ← in_mem (is_memory_writable esp3 4); mret (bool_decide (w < 0)));
  if bad : bool then mret ERR_INVAL
  else
    ip ← in_mem (read_word (u32 (arg_packet + 4)));
    bad ← bad_pointer ip;
    if bad : bool then mret ERR_INVAL
    else
      arg ← in_mem (read_word (u32 (arg_packet + 8)));
      newureg ← in_mem (read_word (u32 (arg_packet + 12)));
      bad ← bad_pointer newureg;
      if bad : bool then mret ERR_INVAL
      else if decide (esp3 = NULL ∨ ip = NULL) then
        modify (λ p, set_handler NULL (sw_args p) (sw_esp p) p) ;;
        mret 0
      else
        modify (set_handler ip arg esp3) ;;
        if decide (newureg ≠ NULL) then adopt_from newureg else mret 0.

End swexn.

(** ** From the fault to the handler and back *)
Section round_trip.
Context {H : Type} `{KernelHeapSpec H}.
Implicit Types (s : vm H) (own : gmap Z (Z * Z)) (pds : gset Z) (fs : list Z) (p q : @proc H).

Definition words (ws : list Z) : list Z := concat (le4 <$> ws).

Lemma words_lookup ws i w j :
  ws !! i = Some w → (j < 4)%nat → words ws !! (4 * i + j)%nat = le4 w !! j.
Proof.
  revert i. induction ws as [|x ws IH]; intros [|i] Hi Hj; [done|done| |].
  - injection Hi as ->. change (words (w :: ws)) with (le4 w ++ words ws).
    rewrite Nat.mul_0_r, Nat.add_0_l. by apply lookup_app_l.
  - change (words (x :: ws)) with (le4 x ++ words ws).
    rewrite lookup_app_r by (change (length (le4 x)) with 4%nat; lia).
    change (length (le4 x)) with 4%nat.
    replace (4 * S i + j - 4)%nat with (4 * i + j)%nat by lia. by apply IH.
Qed.

Lemma words_length ws : length (words ws) = (4 * length ws)%nat.
Proof.
  induction ws as [|x ws IH]; [done|]. change (words (x :: ws)) with (le4 x ++ words ws).
  rewrite length_app, IH. change (length (le4 x)) with 4%nat. cbn [length]. lia.
Qed.

Lemma words_at s a ws i w :
  bytes_at s a (words ws) → ws !! i = Some w → word_at s (a + 4 * Z.of_nat i) w.
Proof.
  intros Hat Hi j b Hj. assert (j < 4)%nat as Hlt by (by apply lookup_lt_Some in Hj).
  replace (a + 4 * Z.of_nat i + Z.of_nat j) with (a + Z.of_nat (4 * i + j)) by lia.
  apply Hat. by rewrite (words_lookup ws i w).
Qed.

(** Reading word [i] of the words stored at [a]. *)
Lemma read_nth s a ws i w :
  bytes_at s a (words ws) → ws !! i = Some w → word w →
  read_word (u32 (a + 4 * Z.of_nat i)) s = Ok w s.
Proof.
  intros Hat Hi Hw. pose proof (words_at _ _ _ _ _ Hat Hi) as Hwa.
  destruct (Hwa 0%nat _ eq_refl) as [Hu _]. rewrite Z.add_0_r in Hu. apply is_user_true in Hu.
  rewrite u32_small by (unfold word, USER_MEM_START in *; lia). by apply read_word_ok.
Qed.

(** The fields that [read_ureg] reads. *)
Definition strip (v : ureg) : ureg :=
  mk_ureg 0 0 (u_ds v) 0 0 0 (u_edi v) (u_esi v) (u_ebp v) 0 (u_ebx v) (u_edx v) (u_ecx v) (u_eax v)
    0 (u_eip v) (u_cs v) (u_eflags v) (u_esp v) 0.

Lemma read_ureg_ok s a v :
  bytes_at s a (words (ureg_words v)) → Forall word (ureg_words v) → read_ureg a s = Ok (strip v) s.
Proof.
  intros Hat Hw. unfold read_ureg.
  assert (∀ (i : nat) (w : Z), ureg_words v !! i = Some w →
    read_word (u32 (a + 4 * Z.of_nat i)) s = Ok w s) as Hr.
  { intros i w Hi. apply (read_nth s a (ureg_words v)); [done..|]. by eapply Forall_lookup_1. }
  rewrite (bind_ok _ _ _ _ _ (Hr 2%nat _ eq_refl)). rewrite (bind_ok _ _ _ _ _ (Hr 6%nat _ eq_refl)).
  rewrite (bind_ok _ _ _ _ _ (Hr 7%nat _ eq_refl)). rewrite (bind_ok _ _ _ _ _ (Hr 8%nat _ eq_refl)).
  rewrite (bind_ok _ _ _ _ _ (Hr 10%nat _ eq_refl)). rewrite (bind_ok _ _ _ _ _ (Hr 11%nat _ eq_refl)).
  rewrite (bind_ok _ _ _ _ _ (Hr 12%nat _ eq_refl)). rewrite (bind_ok _ _ _ _ _ (Hr 13%nat _ eq_refl)).
  rewrite (bind_ok _ _ _ _ _ (Hr 15%nat _ eq_refl)). rewrite (bind_ok _ _ _ _ _ (Hr 16%nat _ eq_refl)).
  rewrite (bind_ok _ _ _ _ _ (Hr 17%nat _ eq_refl)). rewrite (bind_ok _ _ _ _ _ (Hr 18%nat _ eq_refl)).
  done.
Qed.

(** Every register is a machine word. *)
Definition context_ok (u : context) : Prop :=
  Forall word [eax u; ecx u; edx u; ebx u; ebp u; esi u; edi u; eip u; cs u; eflags u; esp u; ss u].

Definition set_user (sp ip : Z) (u : context) : context :=
  mk_context (eax u) (ecx u) (edx u) (ebx u) (ebp u) (esi u) (edi u) ip (cs u) (eflags u) sp (ss u).

Lemma ureg_of_words cause cr2 e u :
  context_ok u → word cause → word cr2 → word e → Forall word (ureg_words (ureg_of cause cr2 e u)).
Proof.
  intros Hu. unfold context_ok in Hu. rewrite !Forall_cons in Hu.
  intros. unfold ureg_words, ureg_of, SEGSEL_USER_DS; cbn -[Z.lt Z.le].
  assert (word 0 ∧ word 43) as [? ?] by (unfold word; lia).
  repeat (apply Forall_cons; split); try apply Forall_nil; try tauto.
Qed.

(** One write into a mapped range [lo, hi). *)
Lemma write_in_range s own pds fs pd lo hi va l :
  load_state s own pds fs pd → all_mapped s pd lo hi → lo ≤ va → va + Z.of_nat (length l) ≤ hi →
  ∃ s1, write_bytes va l s = Ok tt s1 ∧ wrote s pd va l s1 ∧ load_state s1 own pds fs pd ∧
    all_mapped s1 pd lo hi ∧ bytes_at s1 va l.
Proof.
  intros Hlo Hm Hva Hl. pose proof Hlo as [Hwf Hpd Hcr Hp].
  destruct (write_bytes_ok none s own pds fs pd va l) as (s1 & Hrun & Hw); [done..| |].
  { intros va' Hr. apply Hm. lia. }
  pose proof (wrote_updated _ _ _ _ _ Hw) as Hu.
  exists s1. split_and!; [done|done|by eapply load_state_updated|by eapply updated_mapped|].
  apply (wrote_bytes_at s pd); [done|done|]. intros i Hi. apply Hm. lia.
Qed.

Lemma setup_swexn_stack_ok s own pds fs pd sp v arg :
  load_state s own pds fs pd → all_mapped s pd (sp - 92) sp → word sp →
  ∃ s', setup_swexn_stack sp v arg s = Ok (sp - 92) s' ∧
    load_state s' own pds fs pd ∧
    word_at s' (sp - 92) (u_eip v) ∧ word_at s' (sp - 88) arg ∧ word_at s' (sp - 84) (sp - 80) ∧
    bytes_at s' (sp - 80) (words (ureg_words v)) ∧
    (∀ pd' va, pte_at s' pd' va = pte_at s pd' va) ∧
    ∀ va, is_user va = true → va < sp - 92 ∨ sp ≤ va → read_byte s' pd va = read_byte s pd va.
Proof.
  intros Hlo Hmap Hsp. unfold setup_swexn_stack, write_word.
  assert (16777308 ≤ sp) as Hbig.
  { destruct (Hmap (sp - 92)) as [Hu _]; [lia|]. apply is_user_true in Hu. unfold USER_MEM_START in Hu. lia. }
  unfold sizeof_ureg, word in *.
  rewrite !(u32_small (sp - 80)) by (unfold word; lia).
  rewrite !u32_small by (unfold word; lia). fold (words (ureg_words v)).
  assert (length (words (ureg_words v)) = 80%nat) as Hl by apply words_length.
  assert (∀ x, length (le4 x) = 4%nat) as Hl4 by done.
  destruct (write_in_range s own pds fs pd (sp - 92) sp (sp - 80) (words (ureg_words v)))
    as (s1 & R1 & W1 & L1 & M1 & B1); [done|done|lia|lia|].
  destruct (write_in_range s1 own pds fs pd (sp - 92) sp (sp - 80 - 4) (le4 (sp - 80)))
    as (s2 & R2 & W2 & L2 & M2 & B2); [done|done|lia|rewrite Hl4; lia|].
  destruct (write_in_range s2 own pds fs pd (sp - 92) sp (sp - 80 - 8) (le4 arg))
    as (s3 & R3 & W3 & L3 & M3 & B3); [done|done|lia|rewrite Hl4; lia|].
  destruct (write_in_range s3 own pds fs pd (sp - 92) sp (sp - 80 - 12) (le4 (u_eip v)))
    as (s4 & R4 & W4 & L4 & M4 & B4); [done|done|lia|rewrite Hl4; lia|].
  rewrite (bind_ok _ _ _ _ _ R1), (bind_ok _ _ _ _ _ R2), (bind_ok _ _ _ _ _ R3), (bind_ok _ _ _ _ _ R4).
  replace (sp - 92) with (sp - 80 - 12) by lia. replace (sp - 88) with (sp - 80 - 8) by lia.
  replace (sp - 84) with (sp - 80 - 4) by lia.
  exists s4. split_and!; [done|done|exact B4| | | | |].
  - apply (wrote_bytes_away s3 pd _ _ _ _ _ W4); [apply L3|done|rewrite !Hl4; lia].
  - apply (wrote_bytes_away s3 pd _ _ _ _ _ W4); [apply L3| |rewrite !Hl4; lia].
    apply (wrote_bytes_away s2 pd _ _ _ _ _ W3); [apply L2|done|rewrite !Hl4; lia].
  - apply (wrote_bytes_away s3 pd _ _ _ _ _ W4); [apply L3| |rewrite Hl4, Hl; lia].
    apply (wrote_bytes_away s2 pd _ _ _ _ _ W3); [apply L2| |rewrite Hl4, Hl; lia].
    apply (wrote_bytes_away s1 pd _ _ _ _ _ W2); [apply L1|done|rewrite Hl4, Hl; lia].
  - intros pd' va. by rewrite (wrote_pte _ _ _ _ _ _ _ W4), (wrote_pte _ _ _ _ _ _ _ W3),
      (wrote_pte _ _ _ _ _ _ _ W2), (wrote_pte _ _ _ _ _ _ _ W1).
  - intros va Hu Ho. rewrite (wr_bytes _ _ _ _ _ W4), (wr_bytes _ _ _ _ _ W3),
      (wr_bytes _ _ _ _ _ W2), (wr_bytes _ _ _ _ _ W1) by done. unfold overlay.
    rewrite !Hl4, Hl. by rewrite !decide_False by lia.
Qed.

(** The faults for which the processor pushes an error code; the kernel's stubs and
    [invoke_swexn_handler] treat every fault as one of them. *)
Definition pushes_error_code (cause : Z) : bool :=
  bool_decide (cause ∈ [SWEXN_CAUSE_SEGFAULT; SWEXN_CAUSE_STACKFAULT; SWEXN_CAUSE_PROTFAULT;
                        SWEXN_CAUSE_PAGEFAULT; SWEXN_CAUSE_ALIGNFAULT]).

(** For the other faults the handler is told the wrong registers: each general
    register but %eax is found one word too low, and %eax is taken for the error
    code. *)
Lemma populate_bare cause cr2 u b x k :
  populate_ureg cause cr2 ERR_CODE_AVAIL (bare_fault_frame u b ++ x :: k) =
  Ok (mk_ureg cause cr2 SEGSEL_USER_DS SEGSEL_USER_DS SEGSEL_USER_DS SEGSEL_USER_DS
        x (edi u) (esi u) 0 (b - 20) (ebx u) (edx u) (ecx u) (eax u)
        (eip u) (cs u) (eflags u) (esp u) (ss u)) (bare_fault_frame u b ++ x :: k).
Proof. reflexivity. Qed.

(** The handler of [swexn] as the body of its stub. *)
Definition swexn_body (a : Z) (q : @proc H) (stk : list Z) : outcome (list Z) Z :=
  match swexn_handler_c a (set_pstk stk q) with
  | Ok rc q' => Ok rc (pstk q')
  | Stop w => Stop w
  end.

Lemma in_mem_ok {A} (m : M (vm H) A) q (x : A) : m (pmem q) = Ok x (pmem q) → in_mem m q = Ok x q.
Proof. intros Hm. unfold in_mem, zoom. rewrite Hm. by destruct q. Qed.

Lemma adopt_from_ok q a v w b k :
  bytes_at (pmem q) a (words (ureg_words v)) → Forall word (ureg_words v) → flags_ok (u_eflags v) →
  pstk q = under (syscall_frame w b) k →
  adopt_from a q =
  Ok (u_eax v) (set_pstk (under [u_ds v; u_esp v; u_eflags v; u_cs v; u_eip v; u_ecx v; u_eax v; u_edx v; u_ebx v;
                       b - 36; u_ebp v; u_edi v; u_esi v] k) q).
Proof.
  intros Hat Hw Hf Hk. unfold adopt_from.
  assert (word (u_eflags v)) as Hwf by (by apply (Forall_lookup_1 _ _ 17 _ Hw)).
  rewrite (bind_ok _ _ q (u_eflags v) q).
  2:{ apply in_mem_ok. exact (read_nth (pmem q) a (ureg_words v) 17 (u_eflags v) Hat eq_refl Hwf). }
  rewrite decide_False.
  2:{ set (f := mk_ureg _ _ _ _ _ _ _ _ _ _ _ _ _ _ _ _ _ _ _ _).
      rewrite (proj1 (validate_ok f) Hf). lia. }
  rewrite (bind_ok _ _ q (strip v) q) by (by apply in_mem_ok, read_ureg_ok).
  unfold in_stack, zoom. rewrite Hk.
  unfold adopt. erewrite bind_ok by (by apply (setup_ok w (strip v))).
  rewrite decide_False by lia. done.
Qed.

(** A pointer that [swexn] accepts: mapped, in the range of the query. *)
Definition good_pointer s (x : Z) : Prop := USER_MEM_START ≤ x ∧ x + 4 < 0xFFFFF000 ∧ mapped s x.

Lemma good_pointer_ok s own pds fs x :
  vm_wf none s own pds fs → cr3 s ∈ pds → good_pointer s x → is_pointer_valid x 4 s = Ok 0 s.
Proof.
  intros Hwf Hpd (Hu & He & Hm). unfold is_pointer_valid. rewrite decide_False by lia.
  destruct (is_memory_range_mapped_ok s own pds fs x 4 Hwf Hpd) as (r & Hrun & Hr); [unfold query_range; lia|].
  rewrite (bind_ok _ _ _ _ _ Hrun). destruct Hr as [[-> _]|[-> Hn]]; [done|].
  destruct Hm as [e Hm]. unfold USER_MEM_START in Hu.
  rewrite Hn in Hm; [done|unfold word; lia|unfold page_of; dlia].
Qed.

Lemma bad_pointer_ok q own pds fs x :
  vm_wf none (pmem q) own pds fs → cr3 (pmem q) ∈ pds → x = NULL ∨ good_pointer (pmem q) x →
  bad_pointer x q = Ok false q.
Proof.
  intros Hwf Hpd Hx. unfold bad_pointer. case_decide as En; [done|]. destruct Hx as [?|Hg]; [done|].
  rewrite (bind_ok _ _ q 0 q) by (eapply in_mem_ok, good_pointer_ok; done).
  by rewrite bool_decide_false by lia.
Qed.

(** A call of [swexn] whose arguments, at address [a], pass the checks. *)
Record swexn_call q (a esp3 ip arg newureg : Z) : Prop := {
  sc_args : bytes_at (pmem q) a (words [esp3; ip; arg; newureg]);
  sc_words : Forall word [esp3; ip; arg; newureg];
  sc_esp3 : esp3 = NULL ∨ good_pointer (pmem q) esp3 ∧
    ∃ e, pte_at (pmem q) (cr3 (pmem q)) esp3 = Some e ∧ writable e = true;
  sc_ip : ip = NULL ∨ good_pointer (pmem q) ip;
  sc_ureg : newureg = NULL ∨ good_pointer (pmem q) newureg;
}.

(** Up to the assignment to the task. *)
Lemma swexn_checked q own pds fs a esp3 ip arg newureg :
  vm_wf none (pmem q) own pds fs → cr3 (pmem q) ∈ pds → swexn_call q a esp3 ip arg newureg →
  swexn_handler_c a q =
    if decide (esp3 = NULL ∨ ip = NULL) then Ok 0 (set_handler NULL (sw_args q) (sw_esp q) q)
    else (if decide (newureg ≠ NULL) then adopt_from newureg else mret 0) (set_handler ip arg esp3 q).
Proof.
  intros Hwf Hpd [Hat Hw Hsp Hip Hur]. unfold swexn_handler_c.
  assert (∀ (i : nat) (w : Z), [esp3; ip; arg; newureg] !! i = Some w →
    in_mem (read_word (u32 (a + 4 * Z.of_nat i))) q = Ok w q) as Hr.
  { intros i w Hi. apply in_mem_ok, (read_nth _ a [esp3; ip; arg; newureg]); [done..|]. by eapply Forall_lookup_1. }
  assert (in_mem (read_word a) q = Ok esp3 q) as Hr0.
  { apply in_mem_ok, read_word_ok; [by apply (Forall_lookup_1 _ _ 0 _ Hw)|].
    pose proof (words_at _ _ _ 0 _ Hat eq_refl) as Ha. by rewrite Z.add_0_r in Ha. }
  rewrite (bind_ok _ _ _ _ _ Hr0).
  rewrite (bind_ok _ _ _ _ _ (bad_pointer_ok q own pds fs esp3 Hwf Hpd ltac:(tauto))).
  rewrite (bind_ok _ _ q false q).
  2:{ case_decide as En; [done|]. destruct Hsp as [?|((Hu & He & _) & e & Hpte & Hwr)]; [done|].
      rewrite (bind_ok _ _ q 0 q); [by rewrite bool_decide_false by lia|]. apply in_mem_ok.
      rewrite (is_memory_writable_ok _ own pds fs) by (done || unfold word, USER_MEM_START in *; lia).
      by rewrite Hpte, Hwr. }
  rewrite (bind_ok _ _ _ _ _ (Hr 1%nat _ eq_refl)).
  rewrite (bind_ok _ _ _ _ _ (bad_pointer_ok q own pds fs ip Hwf Hpd Hip)).
  rewrite (bind_ok _ _ _ _ _ (Hr 2%nat _ eq_refl)), (bind_ok _ _ _ _ _ (Hr 3%nat _ eq_refl)).
  rewrite (bind_ok _ _ _ _ _ (bad_pointer_ok q own pds fs newureg Hwf Hpd Hur)).
  by destruct (decide (esp3 = NULL ∨ ip = NULL)).
Qed.

(** The fault half, from the stack it builds. *)
Lemma handle_fault_ok p u b e k cause cr2 s' :
  pstk p = under (fault_frame u b e) k → sw_eip p ≠ NULL →
  setup_swexn_stack (sw_esp p) (ureg_of cause cr2 e u) (sw_args p) (pmem p) = Ok (sw_esp p - 92) s' →
  handle_fault cause cr2 p = Ok Resume
    (mk_proc s' (under (fault_frame (set_user (sw_esp p - 92) (sw_eip p) u) b e) k) NULL (sw_args p) (sw_esp p)).
Proof.
  intros Hk Hip Hrun. unfold handle_fault. rewrite (bind_ok _ _ _ 0
    (mk_proc s' (under (fault_frame (set_user (sw_esp p - 92) (sw_eip p) u) b e) k) NULL
       (sw_args p) (sw_esp p))); [by rewrite decide_True|].
  unfold invoke_swexn_handler. rewrite bind_get, decide_False by done.
  rewrite (bind_ok _ _ _ (ureg_of cause cr2 e u) p); last first.
  { unfold in_stack, zoom. rewrite Hk, populate_ok, <- Hk. by destruct p. }
  rewrite (bind_ok _ _ _ (sw_esp p - 92) (set_pmem s' p)); last first.
  { unfold in_mem, zoom. by rewrite Hrun. }
  rewrite (bind_ok _ _ _ tt (set_pstk (under (fault_frame (set_user (sw_esp p - 92) (sw_eip p) u) b e) k)
    (set_pmem s' p))); last first.
  { unfold in_stack, zoom. change (pstk (set_pmem s' p)) with (pstk p). by rewrite Hk. }
  done.
Qed.


End round_trip.

(** ** An instance: a page fault of a thread with one writable page, which holds
    its exception stack and the arguments of the handler's [swexn] *)
Lemma demo_rw_load : ∃ own fs, load_state demo_rw own {[demo_pd]} fs demo_pd.
Proof.
  destruct demo_wf as [Hwf Hcow]. unfold demo_rw.
  destruct (map_segment_load demo ∅ {[demo_pd]} (all_frames demo_fa) demo_pd 0x1000000 100 7 Hwf Hcow)
    as (rc & s & own & fs & -> & Hlo);
    [by apply elem_of_singleton|unfold USER_MEM_START; lia|lia|lia|lia|done| |by exists own, fs].
  apply (private_empty none _ _ {[demo_pd]} (all_frames demo_fa)); [exact Hwf|by apply elem_of_singleton|].
  intros pt i. by rewrite lookup_empty.
Qed.

Lemma demo_rw_page va : 0x1000000 ≤ va < 0x1001000 → pte_at demo_rw demo_pd va = Some 0x1000007.
Proof. intros Hr. apply demo_rw_pte; [unfold page_of; dlia|unfold word; lia]. Qed.

Lemma demo_rw_mapped lo hi : 0x1000000 ≤ lo → hi ≤ 0x1001000 → all_mapped demo_rw demo_pd lo hi.
Proof.
  intros Hlo Hhi va Hr. split; [apply is_user_true; unfold USER_MEM_START; lia|].
  rewrite demo_rw_page by lia. by eexists.
Qed.

Definition demo_args : list Z := [0x1000800; 0x1000020; 9; 0x10007B0].

Lemma demo_rw_args : ∃ s own fs, load_state s own {[demo_pd]} fs demo_pd ∧
  (∀ va, 0x1000000 ≤ va < 0x1001000 → pte_at s demo_pd va = Some 0x1000007) ∧ bytes_at s 0x1000100 (words demo_args).
Proof.
  destruct demo_rw_load as (own & fs & Hlo).
  destruct (write_in_range demo_rw own {[demo_pd]} fs demo_pd 0x1000100 0x1000110 0x1000100 (words demo_args))
    as (s & _ & Hw & Hs & _ & Hat); [done|by apply demo_rw_mapped|lia|by rewrite words_length|].
  exists s, own, fs. split_and!; [done| |done]. intros va Hr. rewrite (wrote_pte _ _ _ _ _ _ _ Hw). by apply demo_rw_page.
Qed.

