(* ===== verification/ThreadMap.v ===== *)
(** * The thread table (kern/core/thread.c): a hash map from ids to threads

    Buckets are the sequences of thread structs that their lists hold (DList.v);
    linking a thread that is already in the bucket would corrupt the list and is
    a bad access here.  The ids are read from the thread structs, [tids].  The
    abstract state is a finite map from ids to threads. *)

From S2P Require Import Prelude Locks.

Definition HASHMAP_SIZE : Z := 8192.

Record tmap : Type := mk_tmap { buckets : list (list Z); map_mutex : mutex_t }.

Definition set_buckets b m := mk_tmap b (map_mutex m).
Definition set_map_mutex x m := mk_tmap (buckets m) x.

Section thread_map.
Variable tids : gmap Z Z.

Definition with_map_mutex (op : M mutex_t unit) : M tmap unit := zoom map_mutex set_map_mutex op.

(** The buckets hold anything before. *)
Definition init_thread_map : M tmap unit :=
  for_loop (Z.to_nat HASHMAP_SIZE) 0 (λ i,
    m ← get; b ← aset (buckets m) i []; modify (set_buckets b)) ;;
  modify (set_map_mutex mutex_init).

Definition thread_id (thr : Z) : M tmap Z := deref (tids !! thr).

Definition add_thread_to_map (thr : Z) : M tmap unit :=
  id ← thread_id thr;
  let index := Z.rem id HASHMAP_SIZE in
  with_map_mutex mutex_lock ;;
  m ← get;
  l ← aget (buckets m) index;
  (if decide (thr ∈ l) then halt BadAccess else mret tt) ;;
  b ← aset (buckets m) index (l ++ [thr]);
  modify (set_buckets b) ;;
  with_map_mutex mutex_unlock.

(** The walk along a bucket. *)
Fixpoint find_thread (thr_id : Z) (l : list Z) : M tmap (option Z) :=
  match l with
  | [] => mret None
  | thr :: l' =>
      id ← thread_id thr;
      if decide (id = thr_id) then mret (Some thr) else find_thread thr_id l'
  end.

Definition get_thread_from_id (thr_id : Z) : M tmap (option Z) :=
  let index := Z.rem thr_id HASHMAP_SIZE in
  m ← get;
  l ← aget (buckets m) index;
  with_map_mutex mutex_lock ;;
  r ← find_thread thr_id l;
  with_map_mutex mutex_unlock ;;
  mret r.

Definition remove_thread_from_map (thr_id : Z) : M tmap unit :=
  let index := Z.rem thr_id HASHMAP_SIZE in
  m ← get;
  l ← aget (buckets m) index;
  with_map_mutex mutex_lock ;;
  r ← find_thread thr_id l;
  (match r with
   | None => mret tt
   | Some thr =>
       b ← aset (buckets m) index (filter (λ x, x ≠ thr) l);
       modify (set_buckets b)
   end) ;;
  with_map_mutex mutex_unlock.

(** ** The finite map it implements *)
Definition bucket_of (id : Z) : nat := Z.to_nat (Z.rem id HASHMAP_SIZE).

Record tm_ok (m : tmap) (abs : gmap Z Z) : Prop := {
  tm_length : length (buckets m) = Z.to_nat HASHMAP_SIZE;
  tm_mutex : map_mutex m = free_mutex;
  tm_nonneg : ∀ id thr, abs !! id = Some thr → 0 ≤ id;
  tm_abs : ∀ id thr, 0 ≤ id →
    abs !! id = Some thr ↔
    tids !! thr = Some id ∧ ∃ l, buckets m !! bucket_of id = Some l ∧ thr ∈ l;
  tm_place : ∀ i l thr, buckets m !! i = Some l → thr ∈ l →
    ∃ id, tids !! thr = Some id ∧ 0 ≤ id ∧ bucket_of id = i;
}.

Lemma bucket_range id : 0 ≤ id → 0 ≤ Z.rem id HASHMAP_SIZE < 8192.
Proof. intros Hid. unfold HASHMAP_SIZE. rewrite Z.rem_mod_nonneg by lia. apply Z.mod_pos_bound. lia. Qed.

Lemma bucket_lookup m abs id :
  tm_ok m abs → 0 ≤ id →
  ∃ l, buckets m !! bucket_of id = Some l ∧ ∀ s : tmap, aget (buckets m) (Z.rem id HASHMAP_SIZE) s = Ok l s.
Proof.
  intros Hok Hid. pose proof (bucket_range id Hid). destruct (lookup_Z (buckets m) (Z.rem id HASHMAP_SIZE)) as [l Hl].
  { rewrite (tm_length _ _ Hok). unfold HASHMAP_SIZE in *. lia. }
  exists l. split; [done|]. intros s. apply aget_ok; [lia|done].
Qed.

(** The walk finds the thread with the id, if one of the bucket has it. *)
Lemma find_thread_ok id l (s : tmap) :
  (∀ thr, thr ∈ l → is_Some (tids !! thr)) →
  ∃ r, find_thread id l s = Ok r s ∧
    match r with
    | Some thr => thr ∈ l ∧ tids !! thr = Some id
    | None => ∀ thr, thr ∈ l → tids !! thr ≠ Some id
    end.
Proof.
  induction l as [|x l IH]; intros Hl.
  { exists None. split; [done|]. intros thr Hin. by apply elem_of_nil in Hin. }
  destruct (Hl x) as [i Hi]; [by left|]. cbn [find_thread].
  rewrite (bind_ok _ _ _ i s) by (unfold thread_id; by rewrite Hi). case_decide as E.
  { exists (Some x). split; [done|]. subst. split; [by left|done]. }
  destruct IH as (r & Hrun & Hr); [intros thr Hin; apply Hl; by right|].
  exists r. split; [done|]. destruct r as [thr|].
  - destruct Hr. split; [by right|done].
  - intros thr [->|Hin]%elem_of_cons; [congruence|by apply Hr].
Qed.

Lemma lock_map m abs :
  tm_ok m abs → with_map_mutex mutex_lock m = Ok tt (set_map_mutex held_mutex m).
Proof. intros Hok. unfold with_map_mutex. apply zoom_ok. rewrite (tm_mutex _ _ Hok). done. Qed.

Lemma unlock_map b :
  with_map_mutex mutex_unlock (mk_tmap b held_mutex) = Ok tt (mk_tmap b free_mutex).
Proof. done. Qed.

Lemma tm_eta m abs : tm_ok m abs → m = mk_tmap (buckets m) free_mutex.
Proof. intros Hok. rewrite <- (tm_mutex _ _ Hok). by destruct m. Qed.

Lemma find_abs m abs id l (s : tmap) :
  tm_ok m abs → 0 ≤ id → buckets m !! bucket_of id = Some l →
  find_thread id l s = Ok (abs !! id) s.
Proof.
  intros Hok Hid Hl. destruct (find_thread_ok id l s) as (r & Hrun & Hr).
  { intros thr Hin. destruct (tm_place _ _ Hok _ _ _ Hl Hin) as (i & Hi & _). by eexists. }
  rewrite Hrun. f_equal. destruct r as [thr|].
  - symmetry. apply (tm_abs _ _ Hok); [done|]. split; [apply Hr|]. exists l. split; [done|apply Hr].
  - symmetry. apply eq_None_not_Some. intros [thr Ht].
    apply (tm_abs _ _ Hok) in Ht as (Ht & l' & Hl' & Hin); [|done].
    rewrite Hl in Hl'. injection Hl' as <-. by apply (Hr thr).
Qed.

Lemma get_thread_ok m abs id :
  tm_ok m abs → 0 ≤ id → get_thread_from_id id m = Ok (abs !! id) m.
Proof.
  intros Hok Hid. destruct (bucket_lookup m abs id Hok Hid) as (l & Hl & Hget).
  unfold get_thread_from_id. rewrite bind_get, (bind_ok _ _ _ _ _ (Hget m)).
  rewrite (bind_ok _ _ _ _ _ (lock_map m abs Hok)).
  rewrite (bind_ok _ _ _ _ _ (find_abs m abs id l _ Hok Hid Hl)).
  rewrite (bind_ok _ _ _ _ _ (unlock_map (buckets m))). by rewrite <- (tm_eta m abs Hok).
Qed.

Lemma rem_nat id : 0 ≤ id → Z.of_nat (bucket_of id) = Z.rem id HASHMAP_SIZE.
Proof. intros Hid. pose proof (bucket_range id Hid). unfold bucket_of. lia. Qed.

Lemma set_bucket_ok m abs id l (s : tmap) :
  tm_ok m abs → 0 ≤ id →
  aset (buckets m) (Z.rem id HASHMAP_SIZE) l s = Ok (<[bucket_of id := l]> (buckets m)) s.
Proof.
  intros Hok Hid. pose proof (bucket_range id Hid). apply aset_ok.
  rewrite (tm_length _ _ Hok). unfold HASHMAP_SIZE in *. lia.
Qed.

Lemma add_thread_ok m abs thr id :
  tm_ok m abs → tids !! thr = Some id → 0 ≤ id → abs !! id = None →
  ∃ m', add_thread_to_map thr m = Ok tt m' ∧ tm_ok m' (<[id := thr]> abs).
Proof.
  intros Hok Ht Hid Hnew. destruct (bucket_lookup m abs id Hok Hid) as (l & Hl & Hget).
  assert (thr ∉ l) as Hnin.
  { intros Hin. assert (abs !! id = Some thr) as E; [|by rewrite Hnew in E].
    apply (tm_abs _ _ Hok); [done|]. split; [done|by exists l]. }
  set (b := <[bucket_of id := l ++ [thr]]> (buckets m)).
  assert (bucket_of id < length (buckets m))%nat as Hlt by (by eapply lookup_lt_Some).
  exists (mk_tmap b free_mutex). split.
  { unfold add_thread_to_map. rewrite (bind_ok _ _ _ id m) by (unfold thread_id; by rewrite Ht).
    cbv zeta. rewrite (bind_ok _ _ _ _ _ (lock_map m abs Hok)), bind_get.
    change (buckets (set_map_mutex held_mutex m)) with (buckets m).
    rewrite (bind_ok _ _ _ _ _ (Hget _)), decide_False, bind_mret by done.
    rewrite (bind_ok _ _ _ _ _ (set_bucket_ok m abs id (l ++ [thr]) _ Hok Hid)). done. }
  assert (∀ i l', b !! i = Some l' → ∀ x, x ∈ l' ↔
    (∃ l0, buckets m !! i = Some l0 ∧ x ∈ l0) ∨ (x = thr ∧ i = bucket_of id)) as Hmem.
  { intros i l' Hi x. unfold b in Hi. destruct (decide (i = bucket_of id)) as [->|Hne].
    - rewrite list_lookup_insert_eq in Hi by done. injection Hi as <-. rewrite elem_of_app, list_elem_of_singleton.
      split; [intros [?| ->]; [left; by exists l|by right]|].
      intros [(l0 & E & ?)|[-> _]]; [rewrite Hl in E; injection E as <-; by left|by right].
    - rewrite list_lookup_insert_ne in Hi by done. split; [intros; left; by exists l'|].
      intros [(l0 & E & ?)|[_ ?]]; [by rewrite Hi in E; injection E as <-|done]. }
  split.
  - unfold b. cbn. rewrite length_insert. apply (tm_length _ _ Hok).
  - done.
  - intros i x. rewrite lookup_insert. case_decide as E; [intros _; by subst|apply (tm_nonneg _ _ Hok)].
  - intros i x Hi. cbn. rewrite lookup_insert. case_decide as E.
    + subst i. split.
      * intros [= ->]. split; [done|]. exists (l ++ [x]). split; [by apply list_lookup_insert_eq|].
        apply elem_of_app. right. by apply list_elem_of_singleton.
      * intros (Hx & l' & Hl' & Hin). apply (Hmem _ _ Hl') in Hin as [Hin|[-> _]]; [|done].
        assert (abs !! id = Some x) as Ea by (apply (tm_abs _ _ Hok); done). by rewrite Hnew in Ea.
    + rewrite (tm_abs _ _ Hok) by done. destruct (lookup_lt_is_Some_2 b (bucket_of i)) as [l' Hl'].
      { unfold b. rewrite length_insert, (tm_length _ _ Hok). pose proof (bucket_range i Hi).
        unfold bucket_of, HASHMAP_SIZE in *. lia. }
      split; intros (Hx & l0 & Hl0 & Hin); (split; [done|]).
      * exists l'. split; [done|]. apply (Hmem _ _ Hl'). left. by exists l0.
      * apply (Hmem _ _ Hl0) in Hin as [Hin|[-> _]]; [done|congruence].
  - intros i l' x Hi Hin. apply (Hmem _ _ Hi) in Hin as [(l0 & H0 & Hin)|[-> ->]].
    + by apply (tm_place _ _ Hok i l0).
    + by exists id.
Qed.

Lemma remove_thread_ok m abs id :
  tm_ok m abs → 0 ≤ id →
  ∃ m', remove_thread_from_map id m = Ok tt m' ∧ tm_ok m' (delete id abs).
Proof.
  intros Hok Hid. destruct (bucket_lookup m abs id Hok Hid) as (l & Hl & Hget).
  unfold remove_thread_from_map. rewrite bind_get, (bind_ok _ _ _ _ _ (Hget m)).
  rewrite (bind_ok _ _ _ _ _ (lock_map m abs Hok)).
  rewrite (bind_ok _ _ _ _ _ (find_abs m abs id l _ Hok Hid Hl)).
  destruct (abs !! id) as [thr|] eqn:Ha; last first.
  { rewrite bind_mret, delete_id by done. exists m. split; [|done].
    by rewrite (tm_eta m abs Hok) at 2. }
  pose proof Ha as (Ht & _)%(tm_abs _ _ Hok); [|done].
  rewrite bind_assoc.
  rewrite (bind_ok _ _ _ _ _ (set_bucket_ok m abs id (filter (λ x, x ≠ thr) l) _ Hok Hid)).
  set (b := <[bucket_of id := filter (λ x, x ≠ thr) l]> (buckets m)).
  assert (bucket_of id < length (buckets m))%nat as Hlt by (by eapply lookup_lt_Some).
  exists (mk_tmap b free_mutex). split; [done|].
  assert (∀ i l', b !! i = Some l' → ∃ l0, buckets m !! i = Some l0 ∧
    ∀ x, x ∈ l' ↔ x ∈ l0 ∧ ¬ (i = bucket_of id ∧ x = thr)) as Hmem.
  { intros i l' Hi. unfold b in Hi. destruct (decide (i = bucket_of id)) as [->|Hne].
    - rewrite list_lookup_insert_eq in Hi by done. injection Hi as <-. exists l. split; [done|].
      intros x. rewrite list_elem_of_filter. tauto.
    - rewrite list_lookup_insert_ne in Hi by done. exists l'. split; [done|]. tauto. }
  assert (∀ i l0, buckets m !! i = Some l0 → is_Some (b !! i)) as Hdom.
  { intros i l0 Hi. apply lookup_lt_is_Some_2. unfold b. rewrite length_insert. by eapply lookup_lt_Some. }
  split.
  - unfold b. cbn. rewrite length_insert. apply (tm_length _ _ Hok).
  - done.
  - intros i x. rewrite lookup_delete. case_decide; [done|apply (tm_nonneg _ _ Hok)].
  - intros i x Hi. cbn. rewrite lookup_delete. case_decide as E.
    + subst i. split; [done|]. intros (Hx & l' & Hl' & Hin).
      destruct (Hmem _ _ Hl') as (l0 & H0 & Hiff). destruct (proj1 (Hiff x) Hin) as [Hin0 Hn].
      assert (abs !! id = Some x) as Ea by (apply (tm_abs _ _ Hok); [done|split; [done|by exists l0]]).
      rewrite Ha in Ea. injection Ea as ->. by destruct Hn.
    + rewrite (tm_abs _ _ Hok) by done. split; intros (Hx & l0 & Hl0 & Hin); (split; [done|]).
      * destruct (Hdom _ _ Hl0) as [l' Hl']. exists l'. split; [done|].
        destruct (Hmem _ _ Hl') as (l1 & H1 & Hiff). apply Hiff.
        rewrite Hl0 in H1. injection H1 as <-. split; [done|]. intros [_ ->]. congruence.
      * destruct (Hmem _ _ Hl0) as (l1 & H1 & Hiff). exists l1. split; [done|]. by apply Hiff.
  - intros i l' x Hi Hin. destruct (Hmem _ _ Hi) as (l0 & H0 & Hiff).
    apply (tm_place _ _ Hok i l0); [done|]. by apply Hiff.
Qed.

Lemma init_thread_map_ok m :
  length (buckets m) = Z.to_nat HASHMAP_SIZE →
  ∃ m', init_thread_map m = Ok tt m' ∧ tm_ok m' ∅.
Proof.
  intros Hlen. unfold init_thread_map.
  destruct (for_loop_ok (λ i (x : tmap), length (buckets x) = Z.to_nat HASHMAP_SIZE ∧
      ∀ j l, Z.of_nat j < i → buckets x !! j = Some l → l = [])
    (λ i, m ← get; b ← aset (buckets m) i []; modify (set_buckets b))
    (Z.to_nat HASHMAP_SIZE) 0 m) as (m1 & Hrun & Hl1 & Hempty).
  { split; [done|]. intros j l Hj. lia. }
  { intros i x Hi [Hlx Hx]. rewrite bind_get.
    rewrite (bind_ok _ _ _ _ _ (aset_ok (buckets x) i [] x ltac:(lia))).
    eexists. split; [done|]. cbn. split; [by rewrite length_insert|].
    intros j l Hj. destruct (decide (j = Z.to_nat i)) as [->|Hne].
    - rewrite list_lookup_insert_eq by lia. by intros [= <-].
    - rewrite list_lookup_insert_ne by done. apply Hx. lia. }
  rewrite (bind_ok _ _ _ _ _ Hrun). eexists. split; [done|].
  assert (∀ i l, buckets m1 !! i = Some l → l = []) as Hnil.
  { intros i l Hi. apply (Hempty i l); [|done]. apply lookup_lt_Some in Hi. lia. }
  split.
  - done.
  - done.
  - intros id thr. by rewrite lookup_empty.
  - intros id thr _. rewrite lookup_empty. split; [done|]. intros (_ & l & Hl & Hin). cbn in Hl.
    apply Hnil in Hl as ->. by apply elem_of_nil in Hin.
  - intros i l thr Hi Hin. cbn in Hi. apply Hnil in Hi as ->. by apply elem_of_nil in Hin.
Qed.

(** A negative id: a multiple of the table's size is looked for in bucket 0 and
    not found, any other one indexes the table out of range. *)
Lemma get_thread_negative m abs id :
  tm_ok m abs → id < 0 →
  get_thread_from_id id m = if decide (Z.rem id HASHMAP_SIZE = 0) then Ok None m else Stop BadAccess.
Proof.
  intros Hok Hid. pose proof (Z.rem_nonpos id HASHMAP_SIZE ltac:(done) ltac:(lia)).
  unfold get_thread_from_id. rewrite bind_get. case_decide as E.
  2:{ unfold mbind, M_bind, aget. by rewrite decide_False by lia. }
  rewrite E. destruct (bucket_lookup m abs 0 Hok ltac:(done)) as (l & Hl & Hget). change (Z.rem 0 HASHMAP_SIZE) with 0 in Hget.
  rewrite (bind_ok _ _ _ _ _ (Hget m)), (bind_ok _ _ _ _ _ (lock_map m abs Hok)).
  assert (∀ thr, thr ∈ l → ∃ i, tids !! thr = Some i ∧ 0 ≤ i) as Hpl.
  { intros thr Hin. destruct (tm_place _ _ Hok _ _ _ Hl Hin) as (i & ? & ? & _). by exists i. }
  edestruct (find_thread_ok id l) as (r & Hrun & Hr).
  { intros thr Hin. destruct (Hpl thr Hin) as (i & ? & _). by exists i. }
  rewrite (bind_ok _ _ _ _ _ Hrun), (bind_ok _ _ _ _ _ (unlock_map (buckets m))), <- (tm_eta m abs Hok).
  destruct r as [thr|]; [|done]. destruct Hr as [Hin Ht]. destruct (Hpl thr Hin) as (i & Hi & Hi0).
  rewrite Ht in Hi. injection Hi as ->. lia.
Qed.

(** C39. The hash table of threads is the finite map from ids to threads: it is
    empty after [init_thread_map]; with ids that are not negative a look-up
    returns the thread with that id or NULL, adding a thread under a new id
    inserts it and removing an id deletes it, whatever ids share a bucket; a
    negative id is not found when it is a multiple of the table's size, and
    indexes the table out of range otherwise. *)
Theorem thread_map_refines :
  (∀ m, length (buckets m) = Z.to_nat HASHMAP_SIZE → ∃ m', init_thread_map m = Ok tt m' ∧ tm_ok m' ∅) ∧
  ∀ m abs, tm_ok m abs →
    (∀ id, 0 ≤ id → get_thread_from_id id m = Ok (abs !! id) m) ∧
    (∀ thr id, tids !! thr = Some id → 0 ≤ id → abs !! id = None →
       ∃ m', add_thread_to_map thr m = Ok tt m' ∧ tm_ok m' (<[id := thr]> abs)) ∧
    (∀ id, 0 ≤ id → ∃ m', remove_thread_from_map id m = Ok tt m' ∧ tm_ok m' (delete id abs)) ∧
    (∀ id, id < 0 → get_thread_from_id id m =
       if decide (Z.rem id HASHMAP_SIZE = 0) then Ok None m else Stop BadAccess).
Proof.
  split; [intros; by apply init_thread_map_ok|]. intros m abs Hok. split_and!.
  - intros. by apply get_thread_ok.
  - intros. by apply add_thread_ok.
  - intros. by apply remove_thread_ok.
  - intros. by eapply get_thread_negative.
Qed.

End thread_map.

(** The table does not depend on the ids of threads that are not in it. *)
Lemma tm_ok_tids tids tids' m abs :
  tm_ok tids m abs →
  (∀ i l thr, buckets m !! i = Some l → thr ∈ l → tids' !! thr = tids !! thr) →
  tm_ok tids' m abs.
Proof.
  intros Hok Hsame. split; [apply Hok..| |].
  - intros id thr Hid. rewrite (tm_abs _ _ _ Hok) by done.
    split; intros (Hx & l & Hl & Hin); (split; [|by exists l]).
    + by rewrite (Hsame _ _ _ Hl Hin).
    + by rewrite <- (Hsame _ _ _ Hl Hin).
  - intros i l thr Hi Hin. rewrite (Hsame _ _ _ Hi Hin). by apply (tm_place _ _ _ Hok i l).
Qed.

(** ** An instance: two threads in one bucket *)
Definition demo_tids : gmap Z Z := {[100 := 5; 200 := 8197]}.
Definition demo_map : tmap := mk_tmap (<[5%nat := [100; 200]]> (replicate (Z.to_nat HASHMAP_SIZE) [])) free_mutex.

Lemma demo_map_ok : tm_ok demo_tids demo_map {[5 := 100; 8197 := 200]}.
Proof.
  assert (∀ i l, buckets demo_map !! i = Some l → l = [] ∨ i = 5%nat ∧ l = [100; 200]) as Hb.
  { intros i l. unfold demo_map. cbn [buckets]. destruct (decide (i = 5%nat)) as [->|Hne].
    - rewrite list_lookup_insert_eq by (rewrite length_replicate; unfold HASHMAP_SIZE; lia). intros [= <-]. by right.
    - rewrite list_lookup_insert_ne by done. intros [-> _]%lookup_replicate. by left. }
  assert (buckets demo_map !! 5%nat = Some [100; 200]) as H5
    by (apply list_lookup_insert_eq; rewrite length_replicate; unfold HASHMAP_SIZE; lia).
  split.
  - unfold demo_map. cbn [buckets]. by rewrite length_insert, length_replicate.
  - done.
  - intros id thr. rewrite lookup_insert_Some, lookup_singleton_Some. lia.
  - intros id thr Hid. rewrite lookup_insert_Some, lookup_singleton_Some. unfold demo_tids.
    rewrite lookup_insert_Some, lookup_singleton_Some. split.
    + assert (bucket_of 5 = 5%nat) as E1 by reflexivity.
      assert (bucket_of 8197 = 5%nat) as E2 by reflexivity. clear Hb.
      revert H5. generalize (buckets demo_map). intros bm H5.
      intros [[<- <-]|[? [<- <-]]].
      * split; [by left|]. exists [100; 200]. rewrite E1. split; [exact H5|by left].
      * split; [by right|]. exists [100; 200]. rewrite E2. split; [exact H5|by right; left].
    + intros (Ht & _). lia.
  - intros i l thr Hi Hin. destruct (Hb i l Hi) as [->|[-> ->]]; [by apply elem_of_nil in Hin|].
    apply elem_of_cons in Hin as [->|Hin]; [by exists 5|].
    apply list_elem_of_singleton in Hin as ->. by exists 8197.
Qed.

Lemma thread_map_refines_witness : get_thread_from_id demo_tids 8197 demo_map = Ok (Some 200) demo_map.
Proof. apply (proj1 (proj2 (thread_map_refines demo_tids) demo_map _ demo_map_ok) 8197). lia. Defined.
