(* ===== verification/Tasks.v ===== *)
(** * Tasks and threads: creation, fork, wait and vanish
    (kern/core/thread.c, task.c, fork.c, wait_vanish.c, lifecycle_syscalls.c)

    Task and thread structs are named by their addresses, which come from the
    kernel heap ([BlockHeap]).  The lists of threads, live children and dead
    children of a task are the sequences their list heads hold (DList.v).  Every
    system call runs from entry to return or to the point where it blocks; the
    mutexes it takes must be free, or it stops with [WouldBlock] (Sync.v is
    about their contended use).  A thread that blocks in [wait] runs the rest of
    the call, [wait_loop], when it is woken. *)

From S2P Require Import Prelude Locks FrameAlloc Paging VM VMQuery CString UserMem Regs ThreadMap.

(** ** Memory for the structs: the blocks of [smalloc] and [sfree]

    [bh_live] is the set of blocks in use, [bh_word b a o] the word that a fresh
    block at [a] holds at offset [o]. *)
Class BlockHeap (B : Type) : Type := {
  bh_smalloc : B → Z → Z * B;
  bh_sfree : B → Z → Z → B;
  bh_live : B → gset Z;
  bh_word : B → Z → Z → Z;
}.

Class BlockHeapSpec (B : Type) `{BlockHeap B} : Prop := {
  bh_fresh b n a b' : bh_smalloc b n = (a, b') → a ≠ NULL →
    a ∉ bh_live b ∧ bh_live b' = {[a]} ∪ bh_live b;
  bh_null b n b' : bh_smalloc b n = (NULL, b') → bh_live b' = bh_live b;
  bh_free b a n : bh_live (bh_sfree b a n) = bh_live b ∖ {[a]};
}.

(** A heap that satisfies the interface. *)
#[export] Instance set_heap : BlockHeap (gset Z) := {
  bh_smalloc s _ := let a := fresh ({[NULL]} ∪ s) in (a, {[a]} ∪ s);
  bh_sfree s a _ := s ∖ {[a]};
  bh_live s := s;
  bh_word _ _ _ := 0xCC;
}.

#[export] Instance set_heap_spec : BlockHeapSpec (gset Z).
Proof.
  assert (∀ s : gset Z, fresh ({[NULL]} ∪ s) ∉ {[NULL]} ∪ s) as Hf by (intros; apply is_fresh).
  split; cbn; intros; simplify_eq; try specialize (Hf b); set_solver.
Qed.

(** ** inc/core/task.h and thread.h *)
Definition RUNNING : Z := 0.
Definition RUNNABLE : Z := 1.
Definition WAITING : Z := 2.
Definition DESCHEDULED : Z := 4.
Definition KERNEL_STACK_SIZE : Z := 12288.
Definition IRET_FUN_OFFSET : Z := 14.
Definition sizeof_task_struct : Z := 156.
Definition sizeof_thread_struct : Z := 12400.

Record task : Type := mk_task {
  t_id : Z;
  pdbr : Z;
  thr : Z;
  thread_head : list Z;
  exit_status : Z;
  parent : Z;
  child_task_head : list Z;
  dead_child_head : list Z;
  t_eip : Z;
  t_swexn_args : Z;
  t_swexn_esp : Z;
  exit_cond_var : cond_t;
  child_list_mutex : mutex_t;
  thread_list_mutex : mutex_t;
  vanish_mutex : mutex_t;
  fork_mutex : mutex_t;
  exec_mutex : mutex_t;
}.

(** [k_stack] holds the words of the kernel stack counted down from its base. *)
Record thread : Type := mk_thread {
  id : Z;
  parent_task : Z;
  k_stack : list Z;
  k_stack_base : Z;
  cur_esp : Z;
  cur_ebp : Z;
  status : Z;
  deschedule_mutex : mutex_t;
  deschedule_cond_var : cond_t;
}.

(** Field updates. *)
Definition set_pdbr v t := mk_task (t_id t) v (thr t) (thread_head t) (exit_status t) (parent t)
  (child_task_head t) (dead_child_head t) (t_eip t) (t_swexn_args t) (t_swexn_esp t)
  (exit_cond_var t) (child_list_mutex t) (thread_list_mutex t) (vanish_mutex t) (fork_mutex t) (exec_mutex t).
Definition set_thr i v t := mk_task i (pdbr t) v (thread_head t) (exit_status t) (parent t)
  (child_task_head t) (dead_child_head t) (t_eip t) (t_swexn_args t) (t_swexn_esp t)
  (exit_cond_var t) (child_list_mutex t) (thread_list_mutex t) (vanish_mutex t) (fork_mutex t) (exec_mutex t).
Definition set_thread_head v t := mk_task (t_id t) (pdbr t) (thr t) v (exit_status t) (parent t)
  (child_task_head t) (dead_child_head t) (t_eip t) (t_swexn_args t) (t_swexn_esp t)
  (exit_cond_var t) (child_list_mutex t) (thread_list_mutex t) (vanish_mutex t) (fork_mutex t) (exec_mutex t).
Definition set_exit_status v t := mk_task (t_id t) (pdbr t) (thr t) (thread_head t) v (parent t)
  (child_task_head t) (dead_child_head t) (t_eip t) (t_swexn_args t) (t_swexn_esp t)
  (exit_cond_var t) (child_list_mutex t) (thread_list_mutex t) (vanish_mutex t) (fork_mutex t) (exec_mutex t).
Definition set_parent v t := mk_task (t_id t) (pdbr t) (thr t) (thread_head t) (exit_status t) v
  (child_task_head t) (dead_child_head t) (t_eip t) (t_swexn_args t) (t_swexn_esp t)
  (exit_cond_var t) (child_list_mutex t) (thread_list_mutex t) (vanish_mutex t) (fork_mutex t) (exec_mutex t).
Definition set_children l d t := mk_task (t_id t) (pdbr t) (thr t) (thread_head t) (exit_status t) (parent t)
  l d (t_eip t) (t_swexn_args t) (t_swexn_esp t)
  (exit_cond_var t) (child_list_mutex t) (thread_list_mutex t) (vanish_mutex t) (fork_mutex t) (exec_mutex t).
Definition set_swexn e a s t := mk_task (t_id t) (pdbr t) (thr t) (thread_head t) (exit_status t) (parent t)
  (child_task_head t) (dead_child_head t) e a s
  (exit_cond_var t) (child_list_mutex t) (thread_list_mutex t) (vanish_mutex t) (fork_mutex t) (exec_mutex t).
Definition set_exit_cond v t := mk_task (t_id t) (pdbr t) (thr t) (thread_head t) (exit_status t) (parent t)
  (child_task_head t) (dead_child_head t) (t_eip t) (t_swexn_args t) (t_swexn_esp t)
  v (child_list_mutex t) (thread_list_mutex t) (vanish_mutex t) (fork_mutex t) (exec_mutex t).
Definition set_mutexes c l v f e t := mk_task (t_id t) (pdbr t) (thr t) (thread_head t) (exit_status t) (parent t)
  (child_task_head t) (dead_child_head t) (t_eip t) (t_swexn_args t) (t_swexn_esp t)
  (exit_cond_var t) c l v f e.

Definition set_status v x := mk_thread (id x) (parent_task x) (k_stack x) (k_stack_base x) (cur_esp x)
  (cur_ebp x) v (deschedule_mutex x) (deschedule_cond_var x).
Definition set_k_stack k e x := mk_thread (id x) (parent_task x) k (k_stack_base x) e
  (cur_ebp x) (status x) (deschedule_mutex x) (deschedule_cond_var x).
Definition set_deschedule m c x := mk_thread (id x) (parent_task x) (k_stack x) (k_stack_base x) (cur_esp x)
  (cur_ebp x) (status x) m c.

(** The mutexes of a task. *)
Record mutex_field : Type := mk_field { fget : task → mutex_t; fput : mutex_t → task → task }.
Definition child_list : mutex_field := mk_field child_list_mutex (λ m t,
  set_mutexes m (thread_list_mutex t) (vanish_mutex t) (fork_mutex t) (exec_mutex t) t).
Definition thread_list : mutex_field := mk_field thread_list_mutex (λ m t,
  set_mutexes (child_list_mutex t) m (vanish_mutex t) (fork_mutex t) (exec_mutex t) t).
Definition vanishing : mutex_field := mk_field vanish_mutex (λ m t,
  set_mutexes (child_list_mutex t) (thread_list_mutex t) m (fork_mutex t) (exec_mutex t) t).
Definition forking : mutex_field := mk_field fork_mutex (λ m t,
  set_mutexes (child_list_mutex t) (thread_list_mutex t) (vanish_mutex t) m (exec_mutex t) t).
Definition execing : mutex_field := mk_field exec_mutex (λ m t,
  set_mutexes (child_list_mutex t) (thread_list_mutex t) (vanish_mutex t) (fork_mutex t) m t).
Definition exit_queue : mutex_field := mk_field (λ t, queue_mutex (exit_cond_var t)) (λ m t,
  set_exit_cond (mk_cond (cv_status (exit_cond_var t)) (cv_waiting (exit_cond_var t)) m) t).

Section tasks.
Context {H : Type} `{KernelHeap H} {B : Type} `{BlockHeap B}.
(** The address of [iret_fun]. *)
Variable iret_fun_addr : Z.

(** ** The kernel state these calls use *)
Record kern : Type := mk_kern {
  kvm : vm H;
  blocks : B;
  tasks : gmap Z task;
  threads : gmap Z thread;
  next_tid : Z;
  tid_mutex : mutex_t;
  thread_map : tmap;
  runnable_threads : list Z;
  curr_thread : option Z;
  init_task : Z;
}.

Definition set_kvm v k := mk_kern v (blocks k) (tasks k) (threads k) (next_tid k) (tid_mutex k)
  (thread_map k) (runnable_threads k) (curr_thread k) (init_task k).
Definition set_blocks v k := mk_kern (kvm k) v (tasks k) (threads k) (next_tid k) (tid_mutex k)
  (thread_map k) (runnable_threads k) (curr_thread k) (init_task k).
Definition set_tasks v k := mk_kern (kvm k) (blocks k) v (threads k) (next_tid k) (tid_mutex k)
  (thread_map k) (runnable_threads k) (curr_thread k) (init_task k).
Definition set_threads v k := mk_kern (kvm k) (blocks k) (tasks k) v (next_tid k) (tid_mutex k)
  (thread_map k) (runnable_threads k) (curr_thread k) (init_task k).
Definition set_next_tid v k := mk_kern (kvm k) (blocks k) (tasks k) (threads k) v (tid_mutex k)
  (thread_map k) (runnable_threads k) (curr_thread k) (init_task k).
Definition set_tid_mutex v k := mk_kern (kvm k) (blocks k) (tasks k) (threads k) (next_tid k) v
  (thread_map k) (runnable_threads k) (curr_thread k) (init_task k).
Definition set_thread_map v k := mk_kern (kvm k) (blocks k) (tasks k) (threads k) (next_tid k) (tid_mutex k)
  v (runnable_threads k) (curr_thread k) (init_task k).
Definition set_runq v k := mk_kern (kvm k) (blocks k) (tasks k) (threads k) (next_tid k) (tid_mutex k)
  (thread_map k) v (curr_thread k) (init_task k).
Definition set_curr v k := mk_kern (kvm k) (blocks k) (tasks k) (threads k) (next_tid k) (tid_mutex k)
  (thread_map k) (runnable_threads k) v (init_task k).

Definition in_vm {A} (m : M (vm H) A) : M kern A := zoom kvm set_kvm m.

(** The ids in the thread structs, for the hash map. *)
Definition ids (k : kern) : gmap Z Z := id <$> threads k.
Definition in_map {A} (m : gmap Z Z → M tmap A) : M kern A := λ k,
  match m (ids k) (thread_map k) with
  | Ok a tm => Ok a (set_thread_map tm k)
  | Stop w => Stop w
  end.

Definition the_task (t : Z) : M kern task := k ← get; deref (tasks k !! t).
Definition the_thread (t : Z) : M kern thread := k ← get; deref (threads k !! t).
Definition put_task (t : Z) (tk : task) : M kern unit := modify (λ k, set_tasks (<[t := tk]> (tasks k)) k).
Definition put_thread (t : Z) (x : thread) : M kern unit :=
  modify (λ k, set_threads (<[t := x]> (threads k)) k).
Definition upd_task (t : Z) (f : task → task) : M kern unit := tk ← the_task t; put_task t (f tk).
Definition upd_thread (t : Z) (f : thread → thread) : M kern unit := x ← the_thread t; put_thread t (f x).

Definition task_mutex (t : Z) (f : mutex_field) (op : M mutex_t unit) : M kern unit :=
  tk ← the_task t;
  match op (fget f tk) with
  | Ok _ m => put_task t (fput f m tk)
  | Stop w => halt w
  end.
Definition lock (t : Z) (f : mutex_field) : M kern unit := task_mutex t f mutex_lock.
Definition unlock (t : Z) (f : mutex_field) : M kern unit := task_mutex t f mutex_unlock.

Definition smalloc (size : Z) : M kern Z :=
  k ← get;
  let '(a, b) := bh_smalloc (blocks k) size in
  modify (set_blocks b) ;; mret a.
Definition sfree (a size : Z) : M kern unit := modify (λ k, set_blocks (bh_sfree (blocks k) a size) k).

Definition get_curr_thread : M kern Z := k ← get; deref (curr_thread k).
Definition get_curr_task : M kern Z := t ← get_curr_thread; x ← the_thread t; mret (parent_task x).

(** Linking a thread twice would corrupt the queue. *)
Definition runq_add_thread (t : Z) : M kern unit :=
  k ← get;
  if decide (t ∈ runnable_threads k) then halt BadAccess
  else modify (set_runq (runnable_threads k ++ [t])).

(** ** kern/core/thread.c *)
Definition kernel_threads_init : M kern unit :=
  modify (set_next_tid 0) ;;
  modify (set_tid_mutex mutex_init) ;;
  in_map (λ _, init_thread_map).

(** What the stack of a new thread struct holds, counted down from its base. *)
Definition fresh_stack (b : B) (a : Z) : list Z :=
  (λ i, bh_word b a (8 + KERNEL_STACK_SIZE - 4 * (i + 1))) <$> seqZ 0 (KERNEL_STACK_SIZE / 4).

Definition create_thread (t : Z) : M kern Z :=
  if decide (t = NULL) then mret NULL
  else
    k ← get;
    a ← smalloc sizeof_thread_struct;
    if decide (a = NULL) then mret NULL
    else
      zoom tid_mutex set_tid_mutex mutex_lock ;;
      modify (λ k, set_next_tid (s32 (next_tid k + 1)) k) ;;
      n ← gets next_tid;
      let base := a + 8 + KERNEL_STACK_SIZE in
      put_thread a (mk_thread n t (fresh_stack (blocks k) a) base base base RUNNABLE
                      mutex_init (mk_cond COND_VAR_VALID [] mutex_init)) ;;
      upd_task t (λ tk, set_thread_head (thread_head tk ++ [a]) tk) ;;
      zoom tid_mutex set_tid_mutex mutex_unlock ;;
      in_map (λ tids, add_thread_to_map tids a) ;;
      mret a.

(** ** kern/core/task.c *)

(** The struct after the assignment of [parent] and [init_task_structures]; the
    other fields hold what the block held. *)
Definition init_task_structures (b : B) (t p : Z) : task :=
  mk_task (bh_word b t 0) (bh_word b t 4) (bh_word b t 8) [] (bh_word b t 20) p [] [] NULL NULL
    (bh_word b t 68) (mk_cond COND_VAR_VALID [] mutex_init)
    mutex_init mutex_init mutex_init mutex_init mutex_init.

Definition create_task (p : Z) : M kern Z :=
  k ← get;
  t ← smalloc sizeof_task_struct;
  if decide (t = NULL) then mret NULL
  else
    put_task t (init_task_structures (blocks k) t p) ;;
    th ← create_thread t;
    if decide (th = NULL) then
      modify (λ k, set_tasks (delete t (tasks k)) k) ;;
      sfree t sizeof_task_struct ;;
      mret NULL
    else
      x ← the_thread th;
      upd_task t (set_thr (id x) th) ;;
      mret t.

(** ** kern/core/fork.c *)
Definition thread_free_resources (t : Z) : M kern unit :=
  x ← the_thread t;
  (match mutex_destroy (deschedule_mutex x), cond_destroy (deschedule_cond_var x) with
   | Ok _ _, Ok _ _ => mret tt
   | _, _ => halt ThreadPanic
   end) ;;
  modify (λ k, set_threads (delete t (threads k)) k) ;;
  sfree t sizeof_thread_struct.

(** [memcpy] of the kernel stack of [from], then the return into [iret_fun]. *)
Definition clone_stack (from child : Z) : M kern unit :=
  x ← the_thread from;
  y ← the_thread child;
  w ← deref (k_stack x !! Z.to_nat (IRET_FUN_OFFSET - 1));
  put_thread child (set_k_stack (<[Z.to_nat (IRET_FUN_OFFSET - 1) := iret_fun_addr]> (k_stack x))
                      (k_stack_base y - DEFAULT_STACK_OFFSET) y).

Definition do_fork : M kern Z :=
  curr_task ← get_curr_task;
  lock curr_task forking ;;
  child_task ← create_task curr_task;
  if decide (child_task = NULL) then unlock curr_task forking ;; mret ERR_NOMEM
  else
    lock curr_task vanishing ;;
    upd_task curr_task (λ tk, set_children (child_task_head tk ++ [child_task]) (dead_child_head tk) tk) ;;
    unlock curr_task vanishing ;;
    tk ← the_task curr_task;
    new_pd_addr ← in_vm (clone_paging_info (pdbr tk));
    if decide (new_pd_addr = NULL) then
      ck ← the_task child_task;
      thread_free_resources (thr ck) ;;
      modify (λ k, set_tasks (delete child_task (tasks k)) k) ;;
      sfree child_task sizeof_task_struct ;;
      unlock curr_task forking ;;
      mret ERR_FAILURE
    else
      upd_task child_task (set_pdbr new_pd_addr) ;;
      tk ← the_task curr_task;
      upd_task child_task (set_swexn (t_eip tk) (t_swexn_args tk) (t_swexn_esp tk)) ;;
      ck ← the_task child_task;
      clone_stack (thr tk) (thr ck) ;;
      runq_add_thread (thr ck) ;;
      in_vm (set_cur_pd (pdbr tk)) ;;
      unlock curr_task forking ;;
      mret (t_id ck).

Definition do_thread_fork : M kern Z :=
  curr_task ← get_curr_task;
  curr ← get_curr_thread;
  child ← create_thread curr_task;
  if decide (child = NULL) then mret ERR_FAILURE
  else
    clone_stack curr child ;;
    runq_add_thread child ;;
    y ← the_thread child;
    mret (id y).

(** ** kern/core/wait_vanish.c *)

(** [cond_signal] and [cond_broadcast] on the exit condition of a task. *)
Definition wake (t : Z) : M kern unit := upd_thread t (set_status RUNNABLE) ;; runq_add_thread t.
Fixpoint wake_all (l : list Z) : M kern unit :=
  match l with [] => mret tt | t :: l' => wake t ;; wake_all l' end.

Definition set_waiting (l : list Z) (tk : task) : task :=
  set_exit_cond (mk_cond (cv_status (exit_cond_var tk)) l (queue_mutex (exit_cond_var tk))) tk.

Definition cond_signal (p : Z) : M kern unit :=
  tk ← the_task p;
  thread_assert (bool_decide (cv_status (exit_cond_var tk) ≠ COND_VAR_INVALID)) ;;
  lock p exit_queue ;;
  (match cv_waiting (exit_cond_var tk) with
   | [] => mret tt
   | t :: l => wake t ;; upd_task p (set_waiting l)
   end) ;;
  unlock p exit_queue.

Definition cond_broadcast (p : Z) : M kern unit :=
  tk ← the_task p;
  thread_assert (bool_decide (cv_status (exit_cond_var tk) ≠ COND_VAR_INVALID)) ;;
  lock p exit_queue ;;
  wake_all (cv_waiting (exit_cond_var tk)) ;;
  upd_task p (set_waiting []) ;;
  unlock p exit_queue.

(** [cond_wait(&exit_cond_var, &child_list_mutex, ..., WAITING)] up to the switch. *)
Definition cond_wait (p : Z) : M kern unit :=
  tk ← the_task p;
  thread_assert (bool_decide (cv_status (exit_cond_var tk) ≠ COND_VAR_INVALID)) ;;
  lock p exit_queue ;;
  t ← get_curr_thread;
  upd_task p (set_waiting (cv_waiting (exit_cond_var tk) ++ [t])) ;;
  unlock p exit_queue ;;
  upd_thread t (set_status WAITING) ;;
  unlock p child_list.

(** The end of a dead task: its locks and the struct. *)
Definition destroy_task (d : Z) : M kern unit :=
  task_mutex d child_list mutex_destroy ;;
  task_mutex d thread_list mutex_destroy ;;
  task_mutex d vanishing mutex_destroy ;;
  task_mutex d forking mutex_destroy ;;
  task_mutex d execing mutex_destroy ;;
  tk ← the_task d;
  (match cond_destroy (exit_cond_var tk) with
   | Ok _ c => put_task d (set_exit_cond c tk)
   | Stop w => halt w
   end) ;;
  modify (λ k, set_tasks (delete d (tasks k)) k) ;;
  sfree d sizeof_task_struct.

(** With [child_list_mutex] held; [None] when the thread has to sleep. *)
Definition wait_loop (status_ptr : Z) : M kern (option Z) :=
  curr_task ← get_curr_task;
  tk ← the_task curr_task;
  match dead_child_head tk with
  | d :: dead =>
      upd_task curr_task (λ tk, set_children (child_task_head tk) dead tk) ;;
      unlock curr_task child_list ;;
      dk ← the_task d;
      (if decide (status_ptr ≠ NULL) then in_vm (write_word status_ptr (u32 (exit_status dk))) else mret tt) ;;
      destroy_task d ;;
      mret (Some (t_id dk))
  | [] =>
      match child_task_head tk with
      | _ :: _ => cond_wait curr_task ;; mret None
      | [] => unlock curr_task child_list ;; mret (Some ERR_FAILURE)
      end
  end.

Definition do_wait (status_ptr : Z) : M kern (option Z) :=
  bad ← (if decide (status_ptr = NULL) then mret false
         else
           v ← in_vm (is_pointer_valid status_ptr 4);
           if decide (v < 0) then mret true
           else w ← in_vm (is_memory_writable status_ptr 4); mret (bool_decide (w < 0)));
  if bad : bool then mret (Some ERR_INVAL)
  else
    curr_task ← get_curr_task;
    lock curr_task child_list ;;
    wait_loop status_ptr.

(** The woken thread takes the mutex again and goes on. *)
Definition wait_again (status_ptr : Z) : M kern (option Z) :=
  curr_task ← get_curr_task;
  lock curr_task child_list ;;
  wait_loop status_ptr.

Fixpoint reparent_to_init (l : list Z) (init : Z) : M kern unit :=
  match l with
  | [] => mret tt
  | t :: l' => upd_task t (set_parent init) ;; reparent_to_init l' init
  end.

(** The lists after [concat_lists]: the second head is reset only when the first
    list was empty. *)
Definition concat_lists (l1 l2 : list Z) : list Z * list Z :=
  (l1 ++ l2, match l1 with [] => [] | _ => l2 end).

Definition remove_thread_from_task (t : Z) : M kern unit :=
  x ← the_thread t;
  in_map (λ tids, remove_thread_from_map tids (id x)) ;;
  upd_task (parent_task x) (λ tk, set_thread_head (filter (λ y, y ≠ t) (thread_head tk)) tk).

(** Hand the children over to init, free the address space and report to the
    parent. *)
Definition last_thread_exits (curr_task init : Z) : M kern unit :=
  lock curr_task vanishing ;;
  tk ← the_task curr_task;
  reparent_to_init (child_task_head tk) init ;;
  reparent_to_init (dead_child_head tk) init ;;
  lock init child_list ;;
  tk ← the_task curr_task;
  ik ← the_task init;
  let '(c1, c2) := concat_lists (child_task_head ik) (child_task_head tk) in
  let '(d1, d2) := concat_lists (dead_child_head ik) (dead_child_head tk) in
  upd_task init (set_children c1 d1) ;;
  upd_task curr_task (set_children c2 d2) ;;
  unlock init child_list ;;
  unlock curr_task vanishing ;;
  tk ← the_task curr_task;
  kpd ← in_vm get_kernel_pd;
  upd_task curr_task (set_pdbr kpd) ;;
  in_vm set_kernel_pd ;;
  in_vm (free_paging_info (pdbr tk)) ;;
  upd_task (parent tk) (λ pk, set_children (filter (λ c, c ≠ curr_task) (child_task_head pk))
                                 (dead_child_head pk ++ [curr_task]) pk) ;;
  pk ← the_task (parent tk);
  match child_task_head pk with
  | [] => cond_broadcast (parent tk)
  | _ :: _ => cond_signal (parent tk)
  end.

Definition do_vanish : M kern unit :=
  curr_task ← get_curr_task;
  curr ← get_curr_thread;
  init ← gets init_task;
  lock curr_task thread_list ;;
  remove_thread_from_task curr ;;
  tk ← the_task curr_task;
  unlock curr_task thread_list ;;
  (match thread_head tk with
   | [] => last_thread_exits curr_task init
   | _ :: _ => mret tt
   end) ;;
  thread_free_resources curr ;;
  modify (set_curr None).

(** ** kern/syscalls/lifecycle_syscalls.c *)
Definition set_status_handler_c (v : Z) : M kern unit :=
  curr_task ← get_curr_task;
  upd_task curr_task (set_exit_status v).
Definition gettid_handler_c : M kern Z := t ← get_curr_thread; x ← the_thread t; mret (id x).

(** ** kern/syscalls/thread_syscalls.c; [None] when the thread gives up the
    processor (it returns 0 when it runs again) *)
Definition yield_handler_c (tid : Z) : M kern (option Z) :=
  if decide (tid = -1) then mret None
  else
    thr ← in_map (λ tids, get_thread_from_id tids tid);
    match thr with
    | None => mret (Some ERR_INVAL)
    | Some t =>
        x ← the_thread t;
        if decide (status x = WAITING ∨ status x = DESCHEDULED) then mret (Some ERR_FAILURE)
        else mret None
    end.

(** An operation on the mutex, and on the queue mutex of the condition variable,
    of a thread. *)
Definition thread_mutex (t : Z) (op : M mutex_t unit) : M kern unit :=
  x ← the_thread t;
  match op (deschedule_mutex x) with
  | Ok _ m => put_thread t (set_deschedule m (deschedule_cond_var x) x)
  | Stop w => halt w
  end.
Definition thread_queue (t : Z) (op : M mutex_t unit) : M kern unit :=
  x ← the_thread t;
  let c := deschedule_cond_var x in
  match op (queue_mutex c) with
  | Ok _ m => put_thread t (set_deschedule (deschedule_mutex x) (mk_cond (cv_status c) (cv_waiting c) m) x)
  | Stop w => halt w
  end.
Definition set_sleepers (l : list Z) (x : thread) : thread :=
  set_deschedule (deschedule_mutex x)
    (mk_cond (cv_status (deschedule_cond_var x)) l (queue_mutex (deschedule_cond_var x))) x.

Definition deschedule_handler_c (reject : Z) : M kern (option Z) :=
  v ← in_vm (is_pointer_valid reject 4);
  if decide (v < 0) then mret (Some ERR_INVAL)
  else
    t ← get_curr_thread;
    thread_mutex t mutex_lock ;;
    r ← in_vm (read_word reject);
    if decide (r ≠ 0) then thread_mutex t mutex_unlock ;; mret (Some 0)
    else
      x ← the_thread t;
      thread_assert (bool_decide (cv_status (deschedule_cond_var x) ≠ COND_VAR_INVALID)) ;;
      thread_queue t mutex_lock ;;
      upd_thread t (λ x, set_sleepers (cv_waiting (deschedule_cond_var x) ++ [t]) x) ;;
      thread_queue t mutex_unlock ;;
      upd_thread t (set_status DESCHEDULED) ;;
      thread_mutex t mutex_unlock ;;
      mret None.

Definition make_runnable_handler_c (tid : Z) : M kern Z :=
  if decide (tid < 0) then mret ERR_INVAL
  else
    thr ← in_map (λ tids, get_thread_from_id tids tid);
    match thr with
    | None => mret ERR_INVAL
    | Some t =>
        thread_mutex t mutex_lock ;;
        x ← the_thread t;
        if decide (status x ≠ DESCHEDULED) then thread_mutex t mutex_unlock ;; mret ERR_INVAL
        else
          thread_assert (bool_decide (cv_status (deschedule_cond_var x) ≠ COND_VAR_INVALID)) ;;
          thread_queue t mutex_lock ;;
          (match cv_waiting (deschedule_cond_var x) with
           | [] => mret tt
           | w :: l => wake w ;; upd_thread t (set_sleepers l)
           end) ;;
          thread_queue t mutex_unlock ;;
          thread_mutex t mutex_unlock ;;
          mret 0
    end.

End tasks.
