(* ===== verification/Family.v ===== *)
(** * The family tree of tasks

    The invariant [family_ok] that the child lists, the dead-child lists and the
    parent pointers of all tasks satisfy between system calls, and how the four
    changes that system calls make to the tree preserve it: a field the tree
    does not see ([family_ok_upd]), a new child ([family_ok_fork]), a dead child
    that is reaped ([family_ok_reap]) and a task that dies and hands its
    children to init ([family_ok_exit], [exited]). *)

From S2P Require Import Prelude Locks FrameAlloc Paging VM VMInv VMPages VMMap VMCow VMFault VMQuery VMTheorems CString UserMem Regs ThreadMap Tasks.

(** ** Tasks at rest *)
Definition alive (tk : task) : Prop := thread_head tk ≠ [].

#[export] Instance alive_dec tk : Decision (alive tk).
Proof. unfold alive. apply _. Defined.

(** Between system calls nobody holds a lock of a task. *)
Record unlocked_task (tk : task) : Prop := {
  ut_child : child_list_mutex tk = free_mutex;
  ut_threads : thread_list_mutex tk = free_mutex;
  ut_vanish : vanish_mutex tk = free_mutex;
  ut_fork : fork_mutex tk = free_mutex;
  ut_exec : exec_mutex tk = free_mutex;
  ut_cond : cv_status (exit_cond_var tk) = COND_VAR_VALID;
  ut_queue : queue_mutex (exit_cond_var tk) = free_mutex;
}.

(** ** The family tree: the child lists of a living task are its living and dead
    children, the parent of every child is alive, the dead have a parent. *)
Record family_ok (ts : gmap Z task) (init : Z) : Prop := {
  fo_null : ts !! NULL = None;
  fo_locks : ∀ t tk, ts !! t = Some tk → unlocked_task tk;
  fo_children : ∀ p pk c, ts !! p = Some pk → alive pk →
    c ∈ child_task_head pk ↔ ∃ ck, ts !! c = Some ck ∧ parent ck = p ∧ alive ck;
  fo_dead : ∀ p pk c, ts !! p = Some pk → alive pk →
    c ∈ dead_child_head pk ↔ ∃ ck, ts !! c = Some ck ∧ parent ck = p ∧ ¬ alive ck;
  fo_nodup : ∀ p pk, ts !! p = Some pk → alive pk →
    NoDup (child_task_head pk) ∧ NoDup (dead_child_head pk);
  fo_parent : ∀ c ck, ts !! c = Some ck → parent ck ≠ NULL →
    parent ck ≠ c ∧ ∃ pk, ts !! parent ck = Some pk ∧ alive pk;
  fo_zombie : ∀ c ck, ts !! c = Some ck → ¬ alive ck → parent ck ≠ NULL;
  fo_init : ∃ ik, ts !! init = Some ik ∧ alive ik ∧ parent ik = NULL;
}.

(** What the family tree does not see. *)
Record same_family (tk tk' : task) : Prop := {
  sf_locks : unlocked_task tk → unlocked_task tk';
  sf_alive : alive tk ↔ alive tk';
  sf_parent : parent tk' = parent tk;
  sf_children : child_task_head tk' = child_task_head tk;
  sf_dead : dead_child_head tk' = dead_child_head tk;
}.

Lemma lookup_insert_cases {A} (m : gmap Z A) i x j y :
  <[i := x]> m !! j = Some y → i = j ∧ x = y ∨ i ≠ j ∧ m !! j = Some y.
Proof. rewrite lookup_insert_Some. naive_solver. Qed.

Lemma family_ok_upd ts init t tk tk' :
  family_ok ts init → ts !! t = Some tk → same_family tk tk' → family_ok (<[t := tk']> ts) init.
Proof.
  intros Hf Ht [Hl Ha Hp Hc Hd].
  assert (∀ x xk', <[t := tk']> ts !! x = Some xk' → ∃ xk, ts !! x = Some xk ∧ same_family xk xk') as Hback.
  { intros x xk' [(<- & <-)|(Hne & Hx)]%lookup_insert_cases; [by exists tk|].
    exists xk'. split; [done|]. by split. }
  assert (∀ x xk, ts !! x = Some xk → ∃ xk', <[t := tk']> ts !! x = Some xk' ∧ same_family xk xk') as Hforth.
  { intros x xk Hx. destruct (decide (t = x)) as [<-|Hne].
    - rewrite lookup_insert_eq. simplify_eq. by exists tk'.
    - rewrite lookup_insert_ne by done. exists xk. split; [done|]. by split. }
  split.
  - rewrite lookup_insert_ne; [by apply Hf|]. intros ->. by rewrite (fo_null _ _ Hf) in Ht.
  - intros x xk' (xk & Hx & [Hl' _])%Hback. by eapply Hl', fo_locks.
  - intros p pk' c (pk & Hpk & [_ Ha' _ -> _])%Hback Hal. apply Ha' in Hal.
    rewrite (fo_children _ _ Hf p pk c Hpk Hal). split.
    + intros (ck & (ck' & ? & [])%Hforth & ? & ?). exists ck'. naive_solver.
    + intros (ck' & (ck & ? & [])%Hback & ? & ?). exists ck. naive_solver congruence.
  - intros p pk' c (pk & Hpk & [_ Ha' _ _ ->])%Hback Hal. apply Ha' in Hal.
    rewrite (fo_dead _ _ Hf p pk c Hpk Hal). split.
    + intros (ck & (ck' & ? & [])%Hforth & ? & ?). exists ck'. naive_solver.
    + intros (ck' & (ck & ? & [])%Hback & ? & ?). exists ck. naive_solver congruence.
  - intros p pk' (pk & Hpk & [_ Ha' _ -> ->])%Hback Hal. apply Ha' in Hal. by apply (fo_nodup _ _ Hf p).
  - intros c ck' (ck & Hck & [_ _ -> _ _])%Hback Hn.
    destruct (fo_parent _ _ Hf c ck Hck Hn) as (? & pk & (pk' & ? & [])%Hforth & ?). naive_solver.
  - intros c ck' (ck & Hck & [_ Ha' -> _ _])%Hback Hn. apply (fo_zombie _ _ Hf c ck Hck). naive_solver.
  - destruct (fo_init _ _ Hf) as (ik & (ik' & ? & [])%Hforth & ? & ?). exists ik'. naive_solver congruence.
Qed.

(** A new living task without children joins its parent's list. *)
Lemma family_ok_fork ts init p pk c ck :
  family_ok ts init → ts !! p = Some pk → alive pk → ts !! c = None → c ≠ NULL →
  unlocked_task ck → alive ck → parent ck = p → child_task_head ck = [] → dead_child_head ck = [] →
  family_ok (<[c := ck]> (<[p := set_children (child_task_head pk ++ [c]) (dead_child_head pk) pk]> ts)) init.
Proof.
  intros Hf Hp Hal Hc Hcn Hul Hac Hpar Hch Hdh.
  assert (c ≠ p) as Hcp by congruence.
  assert (p ≠ NULL) as Hpn by (intros ->; by rewrite (fo_null _ _ Hf) in Hp).
  set (pk' := set_children (child_task_head pk ++ [c]) (dead_child_head pk) pk).
  assert (∀ x xk, ts !! x = Some xk → x ≠ c ∧ parent xk ≠ c) as Hnc.
  { intros x xk Hx. split; [congruence|]. intros E.
    destruct (fo_parent _ _ Hf x xk Hx) as (_ & ? & ? & _); congruence. }
  assert (∀ x xk', <[c := ck]> (<[p := pk']> ts) !! x = Some xk' →
     (x = c ∧ xk' = ck) ∨ (x ≠ c ∧ ∃ xk, ts !! x = Some xk ∧ (alive xk ↔ alive xk') ∧ parent xk' = parent xk ∧
       (unlocked_task xk → unlocked_task xk') ∧
       child_task_head xk' = (if decide (x = p) then child_task_head xk ++ [c] else child_task_head xk) ∧
       dead_child_head xk' = dead_child_head xk)) as Hback.
  { intros x xk' [(<- & <-)|(Hne & Hx)]%lookup_insert_cases; [by left|right]. split; [done|].
    apply lookup_insert_cases in Hx as [(<- & <-)|(Hne' & Hx)].
    - exists pk. rewrite decide_True by done. split_and!; try done. by intros [].
    - exists xk'. rewrite decide_False by done. by split_and!. }
  assert (∀ x xk, ts !! x = Some xk → ∃ xk', <[c := ck]> (<[p := pk']> ts) !! x = Some xk' ∧
     (alive xk ↔ alive xk') ∧ parent xk' = parent xk) as Hforth.
  { intros x xk Hx. rewrite lookup_insert_ne by (by intros ->; apply Hnc in Hx as [? _]).
    destruct (decide (p = x)) as [<-|Hne].
    - rewrite lookup_insert_eq. simplify_eq. by exists pk'.
    - rewrite lookup_insert_ne by done. by exists xk. }
  split.
  - rewrite !lookup_insert_ne by done. apply Hf.
  - intros x xk' [[-> ->]|(_ & xk & Hx & _ & _ & Hl & _)]%Hback; [done|]. by eapply Hl, fo_locks.
  - intros q qk' x [[-> ->]|(Hqc & qk & Hq & Ha & _ & _ & -> & _)]%Hback Hqa.
    + rewrite Hch. split; [by intros ?%elem_of_nil|]. intros (xk' & [[-> ->]|(_ & xk & Hx & _ & E & _)]%Hback & Hp' & _); [congruence|].
      destruct (Hnc _ _ Hx). congruence.
    + apply Ha in Hqa. assert (x ∈ child_task_head qk ↔ ∃ ck, ts !! x = Some ck ∧ parent ck = q ∧ alive ck) as Hold by (by apply Hf).
      split.
      * intros Hin. case_decide as E; [apply elem_of_app in Hin as [Hin| ->%list_elem_of_singleton]|];
          try (apply Hold in Hin as (xk & (xk' & ? & ? & ?)%Hforth & ? & ?); exists xk'; naive_solver congruence).
        exists ck. rewrite lookup_insert_eq. naive_solver.
      * intros (xk' & [[-> ->]|(_ & xk & Hx & Ha' & E & _)]%Hback & Hp' & Hxa).
        { rewrite decide_True by congruence. apply elem_of_app. right. by apply list_elem_of_singleton. }
        assert (x ∈ child_task_head qk) by (apply Hold; exists xk; naive_solver congruence).
        case_decide; [apply elem_of_app; by left|done].
  - intros q qk' x [[-> ->]|(Hqc & qk & Hq & Ha & _ & _ & _ & ->)]%Hback Hqa.
    + rewrite Hdh. split; [by intros ?%elem_of_nil|]. intros (xk' & [[-> ->]|(_ & xk & Hx & _ & E & _)]%Hback & Hp' & _); [congruence|].
      destruct (Hnc _ _ Hx). congruence.
    + apply Ha in Hqa. rewrite (fo_dead _ _ Hf q qk x Hq Hqa). split.
      * intros (xk & (xk' & ? & ? & ?)%Hforth & ? & ?). exists xk'. naive_solver congruence.
      * intros (xk' & [[-> ->]|(_ & xk & Hx & Ha' & E & _)]%Hback & Hp' & Hxa); [done|].
        exists xk. naive_solver congruence.
  - intros q qk' [[-> ->]|(Hqc & qk & Hq & Ha & _ & _ & -> & ->)]%Hback Hqa.
    + rewrite Hch, Hdh. split; constructor.
    + apply Ha in Hqa. destruct (fo_nodup _ _ Hf q qk Hq Hqa) as [Hn Hd]. split; [|done].
      case_decide; [|done]. apply NoDup_app. split_and!; [done| |by apply NoDup_singleton].
      intros x Hin Hx%list_elem_of_singleton. subst x.
      apply (fo_children _ _ Hf q qk c Hq Hqa) in Hin as (? & ? & _). congruence.
  - intros x xk' [[-> ->]|(_ & xk & Hx & _ & -> & _)]%Hback Hn.
    + rewrite Hpar. split; [done|]. destruct (Hforth p pk Hp) as (? & ? & ? & _). naive_solver.
    + destruct (fo_parent _ _ Hf x xk Hx Hn) as (? & qk & (qk' & ? & ? & _)%Hforth & ?). naive_solver.
  - intros x xk' [[-> ->]|(_ & xk & Hx & Ha & -> & _)]%Hback Hn; [done|].
    apply (fo_zombie _ _ Hf x xk Hx). naive_solver.
  - destruct (fo_init _ _ Hf) as (ik & (ik' & ? & ? & ?)%Hforth & ? & ?). exists ik'. naive_solver congruence.
Qed.

(** Reaping the first dead child. *)
Lemma family_ok_reap ts init p pk d dead :
  family_ok ts init → ts !! p = Some pk → alive pk → dead_child_head pk = d :: dead →
  family_ok (delete d (<[p := set_children (child_task_head pk) dead pk]> ts)) init.
Proof.
  intros Hf Hp Hal Hd.
  destruct (proj1 (fo_dead _ _ Hf p pk d Hp Hal)) as (dk & Hdk & Hdp & Hda).
  { rewrite Hd. left. }
  destruct (fo_nodup _ _ Hf p pk Hp Hal) as [Hnc Hnd]. rewrite Hd in Hnd. apply NoDup_cons in Hnd as [Hdn Hnd].
  set (pk' := set_children (child_task_head pk) dead pk).
  assert (∀ x xk, ts !! x = Some xk → alive xk → x ≠ d) as Hnal by (intros x xk Hx Ha ->; by simplify_eq).
  assert (∀ x xk, ts !! x = Some xk → parent xk ≠ d) as Hnpar.
  { intros x xk Hx E. destruct (decide (d = NULL)) as [->|Hn]; [by rewrite (fo_null _ _ Hf) in Hdk|].
    destruct (fo_parent _ _ Hf x xk Hx) as (_ & yk & Hy & Ha); [congruence|].
    subst d. by simplify_eq. }
  set (ts' := delete d (<[p := pk']> ts)).
  assert (∀ x xk', ts' !! x = Some xk' → x ≠ d ∧ ∃ xk, ts !! x = Some xk ∧ (alive xk ↔ alive xk') ∧
     parent xk' = parent xk ∧ (unlocked_task xk → unlocked_task xk') ∧
     child_task_head xk' = child_task_head xk ∧
     dead_child_head xk' = (if decide (x = p) then dead else dead_child_head xk)) as Hback.
  { intros x xk' [Hne [(<- & <-)|(Hne' & Hx)]%lookup_insert_cases]%lookup_delete_Some; (split; [done|]).
    - exists pk. rewrite decide_True by done. split_and!; try done. by intros [].
    - exists xk'. rewrite decide_False by done. by split_and!. }
  assert (∀ x xk, ts !! x = Some xk → x ≠ d → ∃ xk', ts' !! x = Some xk' ∧
     (alive xk ↔ alive xk') ∧ parent xk' = parent xk) as Hforth.
  { intros x xk Hx Hne. unfold ts'. rewrite lookup_delete_ne by done.
    destruct (decide (p = x)) as [<-|Hne'].
    - rewrite lookup_insert_eq. simplify_eq. by exists pk'.
    - rewrite lookup_insert_ne by done. by exists xk. }
  split.
  - destruct (ts' !! NULL) as [xk|] eqn:E; [|done]. apply Hback in E as (_ & ? & E & _).
    by rewrite (fo_null _ _ Hf) in E.
  - intros x xk' (_ & xk & Hx & _ & _ & Hl & _)%Hback. by eapply Hl, fo_locks.
  - intros q qk' x (_ & qk & Hq & Ha & _ & _ & -> & _)%Hback Hqa. apply Ha in Hqa.
    rewrite (fo_children _ _ Hf q qk x Hq Hqa). split.
    + intros (xk & Hx & ? & Hxa). destruct (Hforth x xk Hx (Hnal _ _ Hx Hxa)) as (xk' & ? & ? & ?).
      exists xk'. naive_solver congruence.
    + intros (xk' & (_ & xk & Hx & Ha' & E & _)%Hback & ? & ?). exists xk. naive_solver congruence.
  - intros q qk' x (_ & qk & Hq & Ha & _ & _ & _ & ->)%Hback Hqa. apply Ha in Hqa.
    assert (x ∈ (if decide (q = p) then dead else dead_child_head qk) ↔ x ∈ dead_child_head qk ∧ x ≠ d) as ->.
    { case_decide as E.
      - subst q. simplify_eq. rewrite Hd, elem_of_cons. naive_solver.
      - split; [|naive_solver]. intros Hin. split; [done|]. intros ->.
        apply (fo_dead _ _ Hf q qk d Hq Hqa) in Hin as (? & ? & ? & _). congruence. }
    rewrite (fo_dead _ _ Hf q qk x Hq Hqa). split.
    + intros ((xk & Hx & ? & Hxa) & Hne). destruct (Hforth x xk Hx Hne) as (xk' & ? & ? & ?).
      exists xk'. naive_solver congruence.
    + intros (xk' & (Hne & xk & Hx & Ha' & E & _)%Hback & ? & ?). split; [|done].
      exists xk. naive_solver congruence.
  - intros q qk' (_ & qk & Hq & Ha & _ & _ & -> & ->)%Hback Hqa. apply Ha in Hqa.
    destruct (fo_nodup _ _ Hf q qk Hq Hqa). split; [done|]. by case_decide.
  - intros x xk' (_ & xk & Hx & _ & -> & _)%Hback Hn.
    destruct (fo_parent _ _ Hf x xk Hx Hn) as (? & yk & Hy & ?). split; [done|].
    destruct (Hforth _ yk Hy) as (? & ? & ? & _); [by eapply Hnpar|]. naive_solver.
  - intros x xk' (_ & xk & Hx & Ha & -> & _)%Hback Hn. apply (fo_zombie _ _ Hf x xk Hx). naive_solver.
  - destruct (fo_init _ _ Hf) as (ik & Hi & Hia & ?).
    destruct (Hforth init ik Hi (Hnal _ _ Hi Hia)) as (ik' & ? & ? & ?). exists ik'. naive_solver congruence.
Qed.

(** The task table [ts'] after the last thread of [t] vanished: its children
    belong to [init], its parent has it in the list of the dead. *)
Record exited (ts : gmap Z task) (init t : Z) (tk : task) (ts' : gmap Z task) : Prop := {
  ex_self : ∃ tk', ts' !! t = Some tk' ∧ unlocked_task tk' ∧ ¬ alive tk' ∧ parent tk' = parent tk;
  ex_none : ∀ x, ts !! x = None → ts' !! x = None;
  ex_other : ∀ x xk, x ≠ t → ts !! x = Some xk → ∃ xk', ts' !! x = Some xk' ∧
    unlocked_task xk' ∧ (alive xk ↔ alive xk') ∧
    parent xk' = (if decide (x ∈ child_task_head tk ∨ x ∈ dead_child_head tk) then init else parent xk) ∧
    (∀ c, c ∈ child_task_head xk' ↔
       (c ∈ child_task_head xk ∨ x = init ∧ c ∈ child_task_head tk) ∧ (x = parent tk → c ≠ t)) ∧
    (∀ c, c ∈ dead_child_head xk' ↔
       c ∈ dead_child_head xk ∨ x = init ∧ c ∈ dead_child_head tk ∨ x = parent tk ∧ c = t) ∧
    (alive xk → NoDup (child_task_head xk') ∧ NoDup (dead_child_head xk'));
}.

Lemma family_ok_exit ts init t tk ts' :
  family_ok ts init → ts !! t = Some tk → alive tk → parent tk ≠ NULL →
  exited ts init t tk ts' → family_ok ts' init.
Proof.
  intros Hf Ht Hal Hpn [(tk' & Ht' & Htl & Hta & Htp) Hnone Hother].
  destruct (fo_init _ _ Hf) as (ik & Hi & Hia & Hip).
  assert (init ≠ t) as Hit by congruence.
  assert (t ≠ NULL) as Htn by (intros ->; by rewrite (fo_null _ _ Hf) in Ht).
  assert (∀ x, (x ∈ child_task_head tk ∨ x ∈ dead_child_head tk) ↔ ∃ xk, ts !! x = Some xk ∧ parent xk = t) as Hkids.
  { intros x. rewrite (fo_children _ _ Hf t tk x Ht Hal), (fo_dead _ _ Hf t tk x Ht Hal).
    split; [naive_solver|]. intros (xk & Hx & E). destruct (decide (alive xk)); naive_solver. }
  assert (∀ x xk', ts' !! x = Some xk' → x ≠ t → ∃ xk, ts !! x = Some xk) as Hback.
  { intros x xk' Hx _. destruct (ts !! x) as [xk|] eqn:E; [by exists xk|]. rewrite (Hnone x E) in Hx. done. }
  assert (∀ x xk, ts !! x = Some xk → ∃ xk', ts' !! x = Some xk' ∧ (x ≠ t → alive xk → alive xk')) as Hforth.
  { intros x xk Hx. destruct (decide (x = t)) as [->|Hne]; [by exists tk'|].
    destruct (Hother x xk Hne Hx) as (xk' & ? & _ & ? & _). exists xk'. naive_solver. }
  split.
  - apply Hnone, Hf.
  - intros x xk' Hx. destruct (decide (x = t)) as [->|Hne]; [by simplify_eq|].
    destruct (Hback x xk' Hx Hne) as (xk & Hx0). destruct (Hother x xk Hne Hx0) as (? & ? & ? & _). congruence.
  - intros q qk' x Hq Hqa. destruct (decide (q = t)) as [->|Hne]; [by simplify_eq|].
    destruct (Hback q qk' Hq Hne) as (qk & Hq0).
    destruct (Hother q qk Hne Hq0) as (? & Hq1 & _ & Ha & _ & Hc & _). rewrite Hq in Hq1. injection Hq1 as <-.
    apply Ha in Hqa. rewrite Hc, (fo_children _ _ Hf q qk x Hq0 Hqa), (fo_children _ _ Hf t tk x Ht Hal). split.
    + intros [Hin Hxt]. assert (∃ xk, ts !! x = Some xk ∧ alive xk ∧ (parent xk = q ∨ q = init ∧ parent xk = t)) as
        (xk & Hx & Hxa & Hor) by naive_solver.
      assert (x ≠ t) as Hxt'.
      { intros ->. simplify_eq. destruct Hor as [E|[_ E]]; [by apply Hxt|].
        by destruct (fo_parent _ _ Hf t tk Ht Hpn) as [? _]. }
      destruct (Hother x xk Hxt' Hx) as (xk' & ? & _ & ? & Hpar & _). exists xk'. split_and!; [done| |naive_solver].
      rewrite Hpar. case_decide as E; destruct Hor as [Ep|[-> Ep]]; try done.
      * apply Hkids in E as (? & ? & ?). congruence.
      * destruct E. apply Hkids. by exists xk.
    + intros (xk' & Hx' & Hpar' & Hxa'). destruct (decide (x = t)) as [->|Hxt]; [by simplify_eq|].
      destruct (Hback x xk' Hx' Hxt) as (xk & Hx).
      destruct (Hother x xk Hxt Hx) as (? & Hx1 & _ & Ha' & Hpar & _). rewrite Hx' in Hx1. injection Hx1 as <-.
      split; [|done]. rewrite Hpar in Hpar'. case_decide as E.
      * right. split; [done|]. apply Hkids in E as (? & ? & ?). exists xk. naive_solver congruence.
      * left. exists xk. naive_solver.
  - intros q qk' x Hq Hqa. destruct (decide (q = t)) as [->|Hne]; [by simplify_eq|].
    destruct (Hback q qk' Hq Hne) as (qk & Hq0).
    destruct (Hother q qk Hne Hq0) as (? & Hq1 & _ & Ha & _ & _ & Hd & _). rewrite Hq in Hq1. injection Hq1 as <-.
    apply Ha in Hqa. rewrite Hd, (fo_dead _ _ Hf q qk x Hq0 Hqa), (fo_dead _ _ Hf t tk x Ht Hal). split.
    + intros Hin. destruct (decide (x = t)) as [->|Hxt].
      { exists tk'. split_and!; [done| |done]. rewrite Htp. destruct Hin as [(? & ? & ? & ?)|[(_ & ? & ? & ? & ?)|[-> _]]]; by simplify_eq. }
      assert (∃ xk, ts !! x = Some xk ∧ ¬ alive xk ∧ (parent xk = q ∨ q = init ∧ parent xk = t)) as
        (xk & Hx & Hxa & Hor) by naive_solver.
      destruct (Hother x xk Hxt Hx) as (xk' & ? & _ & ? & Hpar & _). exists xk'. split_and!; [done| |naive_solver].
      rewrite Hpar. case_decide as E; destruct Hor as [Ep|[-> Ep]]; try done.
      * apply Hkids in E as (? & ? & ?). congruence.
      * destruct E. apply Hkids. by exists xk.
    + intros (xk' & Hx' & Hpar' & Hxa'). destruct (decide (x = t)) as [->|Hxt].
      { right; right. split; [congruence|done]. }
      destruct (Hback x xk' Hx' Hxt) as (xk & Hx).
      destruct (Hother x xk Hxt Hx) as (? & Hx1 & _ & Ha' & Hpar & _). rewrite Hx' in Hx1. injection Hx1 as <-.
      rewrite Hpar in Hpar'. case_decide as E.
      * right; left. split; [done|]. apply Hkids in E as (? & ? & ?). exists xk. naive_solver congruence.
      * left. exists xk. naive_solver.
  - intros q qk' Hq Hqa. destruct (decide (q = t)) as [->|Hne]; [by simplify_eq|].
    destruct (Hback q qk' Hq Hne) as (qk & Hq0).
    destruct (Hother q qk Hne Hq0) as (? & Hq1 & _ & Ha & _ & _ & _ & Hn). rewrite Hq in Hq1. injection Hq1 as <-.
    by apply Hn, Ha.
  - intros x xk' Hx' Hn. destruct (decide (x = t)) as [->|Hxt].
    + simplify_eq. rewrite Htp. destruct (fo_parent _ _ Hf t tk Ht Hpn) as (? & pk & Hp & ?).
      destruct (Hforth _ _ Hp) as (? & ? & ?). naive_solver.
    + destruct (Hback x xk' Hx' Hxt) as (xk & Hx).
      destruct (Hother x xk Hxt Hx) as (? & Hx1 & _ & Ha' & Hpar & _). rewrite Hx' in Hx1. injection Hx1 as <-.
      rewrite Hpar in *. case_decide as E.
      * apply Hkids in E as (? & ? & ?). split; [congruence|]. destruct (Hforth _ _ Hi) as (? & ? & ?). naive_solver.
      * destruct (fo_parent _ _ Hf x xk Hx Hn) as (? & pk & Hp & ?). split; [done|].
        destruct (Hforth _ _ Hp) as (pk' & ? & Hpa). exists pk'. split; [done|]. apply Hpa; [|done].
        intros Et. apply E, Hkids. by exists xk.
  - intros x xk' Hx' Hn. destruct (decide (x = t)) as [->|Hxt]; [congruence|].
    destruct (Hback x xk' Hx' Hxt) as (xk & Hx).
    destruct (Hother x xk Hxt Hx) as (? & Hx1 & _ & Ha' & Hpar & _). rewrite Hx' in Hx1. injection Hx1 as <-.
    rewrite Hpar. case_decide; [intros ->; by rewrite (fo_null _ _ Hf) in Hi|].
    apply (fo_zombie _ _ Hf x xk Hx). naive_solver.
  - destruct (Hother init ik Hit Hi) as (ik' & ? & _ & ? & Hpar & _). exists ik'. split_and!; [done|naive_solver|].
    rewrite Hpar. case_decide as E; [|done]. apply Hkids in E as (? & ? & ?). congruence.
Qed.
