(* ===== verification/TaskRun.v ===== *)
(** * The kernel invariant and the steps of a system call

    One lemma per primitive of Tasks.v ([..._run]) that says what it returns and
    to what state it leads, the creation of threads and tasks
    ([create_thread_ok], [create_task_ok]), and [kern_ok], the invariant of the
    kernel between system calls, with the lemmas for how its parts change. *)

From S2P Require Import Prelude Locks FrameAlloc Paging VM VMInv VMPages VMMap VMCow VMFault VMQuery VMTheorems CString UserMem Regs ThreadMap Tasks Family.

(** Run the next statement of a call with the lemma for it. *)
Ltac kred := cbv [set_kvm set_blocks set_tasks set_threads set_next_tid set_tid_mutex set_thread_map
  set_runq set_curr];
  cbn [kvm blocks tasks threads next_tid tid_mutex thread_map runnable_threads curr_thread init_task].
Ltac klook := kred; repeat (rewrite lookup_insert_ne by done); first [apply lookup_insert_eq | eassumption].
Tactic Notation "krun" uconstr(L) := erewrite bind_ok; [|eapply L; first [klook | done]]; kred.

Section run.
Context {H : Type} `{KernelHeapSpec H} {B : Type} `{BlockHeapSpec B}.
Variable iret_fun_addr : Z.
Implicit Types (k : @kern H B) (ts : gmap Z task) (ths : gmap Z thread).

(** ** One step of a system call *)
Lemma the_task_run k t tk : tasks k !! t = Some tk → the_task t k = Ok tk k.
Proof. intros Ht. unfold the_task. by rewrite bind_get, Ht. Qed.

Lemma the_thread_run k x y : threads k !! x = Some y → the_thread x k = Ok y k.
Proof. intros Hx. unfold the_thread. by rewrite bind_get, Hx. Qed.

Lemma upd_task_run k t f tk :
  tasks k !! t = Some tk → upd_task t f k = Ok tt (set_tasks (<[t := f tk]> (tasks k)) k).
Proof. intros Ht. unfold upd_task. by rewrite (bind_ok _ _ _ _ _ (the_task_run _ _ _ Ht)). Qed.

Lemma upd_thread_run k x f y :
  threads k !! x = Some y → upd_thread x f k = Ok tt (set_threads (<[x := f y]> (threads k)) k).
Proof. intros Hx. unfold upd_thread. by rewrite (bind_ok _ _ _ _ _ (the_thread_run _ _ _ Hx)). Qed.

Lemma lock_run k t f tk :
  tasks k !! t = Some tk → fget f tk = free_mutex →
  lock t f k = Ok tt (set_tasks (<[t := fput f held_mutex tk]> (tasks k)) k).
Proof.
  intros Ht Hf. unfold lock, task_mutex. rewrite (bind_ok _ _ _ _ _ (the_task_run _ _ _ Ht)).
  by rewrite Hf.
Qed.

Lemma unlock_run k t f tk :
  tasks k !! t = Some tk → fget f tk = held_mutex →
  unlock t f k = Ok tt (set_tasks (<[t := fput f free_mutex tk]> (tasks k)) k).
Proof.
  intros Ht Hf. unfold unlock, task_mutex. rewrite (bind_ok _ _ _ _ _ (the_task_run _ _ _ Ht)).
  by rewrite Hf.
Qed.

Lemma in_vm_run {A} (m : M (vm H) A) k a v :
  m (kvm k) = Ok a v → in_vm m k = Ok a (set_kvm v k).
Proof. intros Hm. unfold in_vm, zoom. by rewrite Hm. Qed.

Lemma in_map_run {A} (m : gmap Z Z → M tmap A) k a mp :
  m (ids k) (thread_map k) = Ok a mp → in_map m k = Ok a (set_thread_map mp k).
Proof. intros Hm. unfold in_map. by rewrite Hm. Qed.

Lemma curr_task_run k x y :
  curr_thread k = Some x → threads k !! x = Some y → get_curr_task k = Ok (parent_task y) k.
Proof.
  intros Hc Hx. unfold get_curr_task, get_curr_thread. unfold mbind, M_bind, get. rewrite Hc. cbn.
  unfold the_thread, mbind, M_bind, get. by rewrite Hx.
Qed.

Lemma curr_thread_run k x : curr_thread k = Some x → get_curr_thread k = Ok x k.
Proof. intros Hc. unfold get_curr_thread. by rewrite bind_get, Hc. Qed.

Lemma runq_add_run k x :
  x ∉ runnable_threads k → runq_add_thread x k = Ok tt (set_runq (runnable_threads k ++ [x]) k).
Proof. intros Hx. unfold runq_add_thread. by rewrite bind_get, decide_False. Qed.

Lemma tid_lock_run k :
  tid_mutex k = free_mutex → zoom tid_mutex set_tid_mutex mutex_lock k = Ok tt (set_tid_mutex held_mutex k).
Proof. intros Hk. apply (zoom_ok tid_mutex). by rewrite Hk. Qed.

Lemma tid_unlock_run k :
  tid_mutex k = held_mutex → zoom tid_mutex set_tid_mutex mutex_unlock k = Ok tt (set_tid_mutex free_mutex k).
Proof. intros Hk. apply (zoom_ok tid_mutex). by rewrite Hk. Qed.

(** ** The thread map of the kernel: every thread under its id *)
Record ids_ok (ths : gmap Z thread) (mp : tmap) (n : Z) : Prop := {
  io_map : ∃ abs, tm_ok (id <$> ths) mp abs ∧ ∀ i x, abs !! i = Some x ↔ (id <$> ths) !! x = Some i;
  io_range : ∀ x y, ths !! x = Some y → 0 < id y ≤ n;
  io_next : 0 ≤ n;
}.

Definition blocks_ok (b : B) ts ths : Prop :=
  (∀ a, is_Some (ts !! a) → a ∈ bh_live b ∧ ths !! a = None) ∧ (∀ a, is_Some (ths !! a) → a ∈ bh_live b).

Definition new_thread (b : B) (x i t : Z) : thread :=
  let base := x + 8 + KERNEL_STACK_SIZE in
  mk_thread i t (fresh_stack b x) base base base RUNNABLE mutex_init (mk_cond COND_VAR_VALID [] mutex_init).

Lemma block_alloc_run n v b ts ths nt tm mp rq cur it :
  smalloc n (mk_kern v b ts ths nt tm mp rq cur it : @kern H B) =
  Ok (fst (bh_smalloc b n)) (mk_kern v (snd (bh_smalloc b n)) ts ths nt tm mp rq cur it).
Proof. unfold smalloc, mbind, M_bind, get. cbn. by destruct (bh_smalloc b n). Qed.

Lemma add_id ths mp n x y :
  ids_ok ths mp n → ths !! x = None → id y = n + 1 →
  ∃ mp', add_thread_to_map (id <$> <[x := y]> ths) x mp = Ok tt mp' ∧ ids_ok (<[x := y]> ths) mp' (n + 1).
Proof.
  intros [(abs & Hok & Habs) Hr Hn] Hx Hy.
  assert (∀ x' i, (id <$> ths) !! x' = Some i → x' ≠ x ∧ i ≤ n) as Hold.
  { intros x' i. rewrite lookup_fmap. intros (y' & Hy' & ->)%fmap_Some. split; [congruence|]. by apply (Hr x'). }
  assert (tm_ok (id <$> <[x := y]> ths) mp abs) as Hok'.
  { eapply tm_ok_tids; [done|]. intros i l thr Hl Hin.
    destruct (tm_place _ _ _ Hok i l thr Hl Hin) as (j & Hj & _). destruct (Hold _ _ Hj).
    rewrite !lookup_fmap, lookup_insert_ne by done. done. }
  assert (abs !! (n + 1) = None) as Hnew.
  { apply eq_None_not_Some. intros [z Hz%Habs]. destruct (Hold _ _ Hz). lia. }
  destruct (add_thread_ok _ mp abs x (n + 1) Hok') as (mp' & Hrun & Hok2);
    [by rewrite lookup_fmap, lookup_insert_eq; cbn; rewrite Hy|lia|done|].
  exists mp'. split; [done|]. split; [|intros x' y' [(<- & <-)|(Hne & Hy')]%lookup_insert_cases|lia].
  - exists (<[n + 1 := x]> abs). split; [done|]. intros i x'. rewrite lookup_fmap.
    destruct (decide (i = n + 1)) as [->|Hi].
    + rewrite lookup_insert_eq. split.
      * intros [= <-]. rewrite lookup_insert_eq. cbn. by rewrite Hy.
      * intros (y' & [(<- & <-)|(Hne & Hy')]%lookup_insert_cases & E)%fmap_Some; [done|].
        specialize (Hr _ _ Hy'). lia.
    + rewrite lookup_insert_ne, Habs, lookup_fmap by done. destruct (decide (x = x')) as [<-|Hne].
      * rewrite Hx, lookup_insert_eq. cbn. naive_solver congruence.
      * by rewrite lookup_insert_ne.
  - lia.
  - specialize (Hr _ _ Hy'). lia.
Qed.

Lemma create_thread_ok t tk v b ts ths n mp rq cur it :
  t ≠ NULL → ts !! t = Some tk → ids_ok ths mp n → n < 2147483647 → blocks_ok b ts ths →
  ∃ b', (create_thread t (mk_kern v b ts ths n free_mutex mp rq cur it : @kern H B) =
           Ok NULL (mk_kern v b' ts ths n free_mutex mp rq cur it) ∧ bh_live b' = bh_live b) ∨
  ∃ x mp', create_thread t (mk_kern v b ts ths n free_mutex mp rq cur it : @kern H B) =
      Ok x (mk_kern v b' (<[t := set_thread_head (thread_head tk ++ [x]) tk]> ts)
              (<[x := new_thread b x (n + 1) t]> ths) (n + 1) free_mutex mp' rq cur it) ∧
    x ≠ NULL ∧ x ∉ bh_live b ∧ bh_live b' = {[x]} ∪ bh_live b ∧
    ids_ok (<[x := new_thread b x (n + 1) t]> ths) mp' (n + 1).
Proof.
  intros Ht Htk Hids Hn [_ Hb]. exists (snd (bh_smalloc b sizeof_thread_struct)).
  unfold create_thread. rewrite decide_False, bind_get by done.
  rewrite (bind_ok _ _ _ _ _ (block_alloc_run _ _ _ _ _ _ _ _ _ _ _)).
  destruct (bh_smalloc b sizeof_thread_struct) as [x b'] eqn:E. cbn [fst snd].
  case_decide as Hx; [left; subst; split; [done|by eapply bh_null]|right].
  destruct (bh_fresh _ _ _ _ E Hx) as [Hf Hl].
  assert (ths !! x = None) as Hnew by (apply eq_None_not_Some; intros Hs; by apply Hf, Hb).
  destruct (add_id ths mp n x (new_thread b x (n + 1) t) Hids Hnew eq_refl) as (mp' & Hadd & Hids').
  exists x, mp'. split; [|done].
  krun tid_lock_run.
  rewrite bind_modify, bind_gets. kred. rewrite (s32_small (n + 1)) by (destruct Hids; lia).
  fold (new_thread b x (n + 1) t). unfold put_thread. rewrite bind_modify. kred.
  krun upd_task_run.
  krun tid_unlock_run.
  krun in_map_run. done.
Qed.

(** The struct of a task that was just created. *)
Definition new_task (b : B) (t p x i : Z) : task :=
  set_thr i x (set_thread_head [x] (init_task_structures b t p)).

Lemma create_task_ok p v b ts ths n mp rq cur it :
  ids_ok ths mp n → n < 2147483647 → blocks_ok b ts ths → ts !! NULL = None →
  ∃ b', (create_task p (mk_kern v b ts ths n free_mutex mp rq cur it : @kern H B) =
           Ok NULL (mk_kern v b' ts ths n free_mutex mp rq cur it) ∧ bh_live b' = bh_live b) ∨
  ∃ t x b1 mp', create_task p (mk_kern v b ts ths n free_mutex mp rq cur it : @kern H B) =
      Ok t (mk_kern v b' (<[t := new_task b t p x (n + 1)]> ts)
              (<[x := new_thread b1 x (n + 1) t]> ths) (n + 1) free_mutex mp' rq cur it) ∧
    t ≠ NULL ∧ x ≠ NULL ∧ x ≠ t ∧ t ∉ bh_live b ∧ x ∉ bh_live b ∧ bh_live b' = {[x]} ∪ ({[t]} ∪ bh_live b) ∧
    ids_ok (<[x := new_thread b1 x (n + 1) t]> ths) mp' (n + 1).
Proof.
  intros Hids Hn Hb Hnull.
  unfold create_task. rewrite bind_get.
  rewrite (bind_ok _ _ _ _ _ (block_alloc_run _ _ _ _ _ _ _ _ _ _ _)).
  destruct (bh_smalloc b sizeof_task_struct) as [t b1] eqn:E. cbn [fst snd].
  case_decide as Ht; [exists b1; left; subst; split; [done|by eapply bh_null]|].
  destruct (bh_fresh _ _ _ _ E Ht) as [Hf Hl].
  assert (ts !! t = None) as Hnew by (apply eq_None_not_Some; intros Hs; by apply Hf, (proj1 Hb)).
  assert (ths !! t = None) as Hnewt by (apply eq_None_not_Some; intros Hs; by apply Hf, (proj2 Hb)).
  unfold put_task. rewrite bind_modify. kred.
  destruct (create_thread_ok t (init_task_structures b t p) v b1 (<[t := init_task_structures b t p]> ts) ths n mp rq cur it)
    as (b' & [(Hrun & Hl')|(x & mp' & Hrun & Hx & Hfx & Hl' & Hids')]); [done|by rewrite lookup_insert_eq|done|done| | |].
  { split; intros a Ha; rewrite Hl; [|apply elem_of_union_r; by apply Hb].
    destruct (decide (t = a)) as [<-|Hne]; [split; [set_solver|done]|].
    rewrite lookup_insert_ne in Ha by done. destruct (proj1 Hb a Ha). split; [set_solver|done]. }
  - rewrite (bind_ok _ _ _ _ _ Hrun), decide_True by done. exists (bh_sfree b' t sizeof_task_struct). left.
    unfold sfree, mbind, M_bind, modify. cbn. rewrite delete_insert_id by done.
    split; [done|]. rewrite bh_free, Hl', Hl. set_solver.
  - rewrite (bind_ok _ _ _ _ _ Hrun), decide_False by done. exists b'. right. exists t, x, b1, mp'.
    rewrite Hl in Hfx. split; [|set_solver].
    erewrite bind_ok; [|apply the_thread_run, lookup_insert_eq].
    erewrite bind_ok; [|apply upd_task_run, lookup_insert_eq]. kred. by rewrite !insert_insert_eq.
Qed.

(** ** The invariant of the kernel between system calls *)
Record threads_ok ts ths (rq : list Z) (cur : option Z) : Prop := {
  th_members : ∀ t tk x, ts !! t = Some tk →
    x ∈ thread_head tk ↔ ∃ y, ths !! x = Some y ∧ parent_task y = t;
  th_nodup : ∀ t tk, ts !! t = Some tk → NoDup (thread_head tk);
  th_task : ∀ x y, ths !! x = Some y → is_Some (ts !! parent_task y);
  th_locks : ∀ x y, ths !! x = Some y →
    deschedule_mutex y = free_mutex ∧ cv_status (deschedule_cond_var y) = COND_VAR_VALID ∧
    queue_mutex (deschedule_cond_var y) = free_mutex;
  th_stack : ∀ x y, ths !! x = Some y → length (k_stack y) = Z.to_nat (KERNEL_STACK_SIZE / 4);
  th_runq : ∀ x, x ∈ rq → ∃ y, ths !! x = Some y ∧ status y = RUNNABLE;
  th_runq_nodup : NoDup rq;
  th_waiting : ∀ t tk x, ts !! t = Some tk → x ∈ cv_waiting (exit_cond_var tk) →
    ∃ y, ths !! x = Some y ∧ parent_task y = t ∧ status y = WAITING;
  th_waiting_nodup : ∀ t tk, ts !! t = Some tk → NoDup (cv_waiting (exit_cond_var tk));
  th_cur : ∀ x, cur = Some x → ∃ y, ths !! x = Some y ∧ status y = RUNNING;
}.

(** Every living task has an address space of its own. *)
Definition mem_ok (v : vm H) ts : Prop :=
  ∃ own pds fs, vm_wf none v own pds fs ∧ cow_ok v own ∧
    (∀ t tk, ts !! t = Some tk → alive tk → pdbr tk ∈ pds) ∧
    (∀ t tk t' tk', ts !! t = Some tk → alive tk → ts !! t' = Some tk' → alive tk' →
       pdbr tk = pdbr tk' → t = t').

Record kern_ok k : Prop := {
  ko_family : family_ok (tasks k) (init_task k);
  ko_threads : threads_ok (tasks k) (threads k) (runnable_threads k) (curr_thread k);
  ko_ids : ids_ok (threads k) (thread_map k) (next_tid k);
  ko_tid_mutex : tid_mutex k = free_mutex;
  ko_blocks : blocks_ok (blocks k) (tasks k) (threads k);
  ko_mem : mem_ok (kvm k) (tasks k);
  ko_cr3 : ∀ x y tk, curr_thread k = Some x → threads k !! x = Some y →
    tasks k !! parent_task y = Some tk → cr3 (kvm k) = pdbr tk;
}.

(** The thread that runs, its task, and that task is alive. *)
Record running k (x : Z) (y : thread) (pk : task) : Prop := {
  rn_cur : curr_thread k = Some x;
  rn_thread : threads k !! x = Some y;
  rn_task : tasks k !! parent_task y = Some pk;
}.

Lemma running_alive k x y pk : kern_ok k → running k x y pk → alive pk.
Proof.
  intros Hk [_ Hx Hp] Hnil. assert (x ∈ thread_head pk) as Hin; [|rewrite Hnil in Hin; by apply elem_of_nil in Hin].
  apply (th_members _ _ _ _ (ko_threads _ Hk) _ _ _ Hp). by exists y.
Qed.

Lemma running_not_null k x y pk : kern_ok k → running k x y pk → parent_task y ≠ NULL.
Proof. intros Hk [_ _ Hp] E. rewrite E in Hp. by rewrite (fo_null _ _ (ko_family _ Hk)) in Hp. Qed.

(** ** fork *)
Definition forked_task (b : B) (c p x i new : Z) (pk : task) : task :=
  set_swexn (t_eip pk) (t_swexn_args pk) (t_swexn_esp pk) (set_pdbr new (new_task b c p x i)).

Definition forked_thread (b : B) (x i c : Z) (stack : list Z) : thread :=
  set_k_stack (<[13%nat := iret_fun_addr]> stack)
    (x + 8 + KERNEL_STACK_SIZE - DEFAULT_STACK_OFFSET) (new_thread b x i c).

Definition add_child (c : Z) (pk : task) : task :=
  set_children (child_task_head pk ++ [c]) (dead_child_head pk) pk.

Lemma clone_stack_run k from y x z :
  threads k !! from = Some y → threads k !! x = Some z → length (k_stack y) = Z.to_nat (KERNEL_STACK_SIZE / 4) →
  clone_stack iret_fun_addr from x k =
  Ok tt (set_threads (<[x := set_k_stack (<[13%nat := iret_fun_addr]> (k_stack y))
           (k_stack_base z - DEFAULT_STACK_OFFSET) z]> (threads k)) k).
Proof.
  intros Hf Hx Hl. unfold clone_stack. krun the_thread_run. krun the_thread_run.
  destruct (lookup_lt_is_Some_2 (k_stack y) 13) as [w Hw]; [rewrite Hl; vm_compute; lia|].
  change (Z.to_nat (IRET_FUN_OFFSET - 1)) with 13%nat. by rewrite Hw.
Qed.

Lemma fresh_stack_length b x : length (fresh_stack b x) = Z.to_nat (KERNEL_STACK_SIZE / 4).
Proof. unfold fresh_stack. by rewrite length_fmap, length_seqZ. Qed.

Lemma clone_stack_stops k from x : threads k !! from = None → clone_stack iret_fun_addr from x k = Stop BadAccess.
Proof. intros Hf. unfold clone_stack, the_thread, mbind, M_bind, get, deref. by rewrite Hf. Qed.

Lemma thread_free_run k x y :
  threads k !! x = Some y →
  deschedule_mutex y = free_mutex ∧ cv_status (deschedule_cond_var y) = COND_VAR_VALID ∧
    queue_mutex (deschedule_cond_var y) = free_mutex →
  thread_free_resources x k =
  Ok tt (set_blocks (bh_sfree (blocks k) x sizeof_thread_struct) (set_threads (delete x (threads k)) k)).
Proof.
  intros Hx (Hm & Hc & Hq). unfold thread_free_resources. krun the_thread_run.
  destruct (deschedule_cond_var y) as [cs cw cq]. cbn in Hc, Hq. subst cs cq. by rewrite Hm.
Qed.

Lemma blocks_ok_upd b ts ths t tk tk' :
  blocks_ok b ts ths → ts !! t = Some tk → blocks_ok b (<[t := tk']> ts) ths.
Proof.
  intros [Hb1 Hb2] Ht. split; [|done]. intros a [xk [(<- & <-)|(Hne & Ha)]%lookup_insert_cases]; apply Hb1; eauto.
Qed.

(** ** How the parts of the invariant change *)
Lemma ids_ok_upd ths mp n x y y' :
  ids_ok ths mp n → ths !! x = Some y → id y' = id y → ids_ok (<[x := y']> ths) mp n.
Proof.
  intros [Hm Hr Hn] Hx Hid. assert (id <$> <[x := y']> ths = id <$> ths) as E.
  { rewrite fmap_insert, insert_id; [done|]. by rewrite lookup_fmap, Hx, Hid. }
  split; [by rewrite E| |done]. intros x' z [(<- & <-)|(_ & Hz)]%lookup_insert_cases; [|by eapply Hr].
  rewrite Hid. by eapply Hr.
Qed.

Lemma threads_ok_upd_task ts ths rq cur t tk tk' :
  threads_ok ts ths rq cur → ts !! t = Some tk → thread_head tk' = thread_head tk →
  cv_waiting (exit_cond_var tk') = cv_waiting (exit_cond_var tk) → threads_ok (<[t := tk']> ts) ths rq cur.
Proof.
  intros Ho Ht Hh Hw. split; try apply Ho.
  - intros t' uk x [(<- & <-)|(_ & ?)]%lookup_insert_cases; [rewrite Hh|]; by apply Ho.
  - intros t' uk [(<- & <-)|(_ & ?)]%lookup_insert_cases; [rewrite Hh|]; by eapply th_nodup.
  - intros x y Hx. destruct (decide (t = parent_task y)) as [<-|]; [by rewrite lookup_insert_eq|].
    rewrite lookup_insert_ne by done. by eapply th_task.
  - intros t' uk x [(<- & <-)|(_ & ?)]%lookup_insert_cases; [rewrite Hw|]; by eapply th_waiting.
  - intros t' uk [(<- & <-)|(_ & ?)]%lookup_insert_cases; [rewrite Hw|]; by eapply th_waiting_nodup.
Qed.

Lemma threads_ok_new_task ts ths rq cur t tk :
  threads_ok ts ths rq cur → ts !! t = None → thread_head tk = [] →
  cv_waiting (exit_cond_var tk) = [] → threads_ok (<[t := tk]> ts) ths rq cur.
Proof.
  intros Ho Ht Hh Hw. split; try apply Ho.
  - intros t' uk x [(<- & <-)|(_ & ?)]%lookup_insert_cases; [rewrite Hh|by apply Ho].
    split; [by intros ?%elem_of_nil|]. intros (y & Hy & <-).
    destruct (th_task _ _ _ _ Ho _ _ Hy). congruence.
  - intros t' uk [(<- & <-)|(_ & ?)]%lookup_insert_cases; [rewrite Hh; constructor|by eapply th_nodup].
  - intros x y Hx. destruct (decide (t = parent_task y)) as [<-|]; [by rewrite lookup_insert_eq|].
    rewrite lookup_insert_ne by done. by eapply th_task.
  - intros t' uk x [(<- & <-)|(_ & ?)]%lookup_insert_cases; [rewrite Hw; by intros ?%elem_of_nil|by eapply th_waiting].
  - intros t' uk [(<- & <-)|(_ & ?)]%lookup_insert_cases; [rewrite Hw; constructor|by eapply th_waiting_nodup].
Qed.

(** A runnable thread joins a task and the run queue. *)
Lemma threads_ok_new_thread ts ths rq cur t tk tk' x y :
  threads_ok ts ths rq cur → ts !! t = Some tk → ths !! x = None →
  thread_head tk' = thread_head tk ++ [x] → exit_cond_var tk' = exit_cond_var tk →
  parent_task y = t → status y = RUNNABLE → length (k_stack y) = Z.to_nat (KERNEL_STACK_SIZE / 4) →
  deschedule_mutex y = free_mutex ∧ cv_status (deschedule_cond_var y) = COND_VAR_VALID ∧
    queue_mutex (deschedule_cond_var y) = free_mutex →
  threads_ok (<[t := tk']> ts) (<[x := y]> ths) (rq ++ [x]) cur.
Proof.
  intros Ho Ht Hx Hh Hw Hp Hst Hlen Hl.
  assert (∀ z w, ths !! z = Some w → <[x := y]> ths !! z = Some w) as Hold.
  { intros z w Hz. rewrite lookup_insert_ne; [done|congruence]. }
  assert (∀ t' uk z, ts !! t' = Some uk → z ∈ thread_head uk → z ≠ x) as Hfresh.
  { intros t' uk z Huk (w & Hw' & _)%(th_members _ _ _ _ Ho _ _ _ Huk) ->. congruence. }
  split.
  - intros t' uk z [(<- & <-)|(Hne & Huk)]%lookup_insert_cases.
    + rewrite Hh, elem_of_app, list_elem_of_singleton, (th_members _ _ _ _ Ho _ _ _ Ht). split.
      * intros [(w & Hz & ?)| ->]; [exists w; split; [by apply Hold|done]|]. exists y. by rewrite lookup_insert_eq.
      * intros (w & [(<- & <-)|(_ & Hz)]%lookup_insert_cases & E); [by right|left]. by exists w.
    + rewrite (th_members _ _ _ _ Ho _ _ _ Huk). split.
      * intros (w & Hz & ?). exists w. split; [by apply Hold|done].
      * intros (w & [(<- & <-)|(_ & Hz)]%lookup_insert_cases & E); [congruence|]. by exists w.
  - intros t' uk [(<- & <-)|(Hne & Huk)]%lookup_insert_cases; [|by eapply th_nodup].
    rewrite Hh. apply NoDup_app. split_and!; [by eapply th_nodup| |by apply NoDup_singleton].
    intros z Hz ->%list_elem_of_singleton. by eapply Hfresh in Hz.
  - intros z w Hz. assert (is_Some (ts !! parent_task w)) as [wk Hwk].
    { apply lookup_insert_cases in Hz as [(<- & <-)|(_ & Hz)]; [rewrite Hp; by eexists|by eapply th_task]. }
    destruct (decide (t = parent_task w)) as [<-|]; [by rewrite lookup_insert_eq|]. rewrite lookup_insert_ne by done. by eexists.
  - intros z w [(<- & <-)|(_ & Hz)]%lookup_insert_cases; [done|by eapply th_locks].
  - intros z w [(<- & <-)|(_ & Hz)]%lookup_insert_cases; [done|by eapply th_stack].
  - intros z [Hz| ->%list_elem_of_singleton]%elem_of_app.
    + destruct (th_runq _ _ _ _ Ho z Hz) as (w & ? & ?). exists w. split; [by apply Hold|done].
    + exists y. by rewrite lookup_insert_eq.
  - apply NoDup_app. split_and!; [by eapply th_runq_nodup| |by apply NoDup_singleton].
    intros z Hz ->%list_elem_of_singleton. destruct (th_runq _ _ _ _ Ho x Hz) as (w & ? & _). congruence.
  - intros t' uk z Huk Hz. assert (∃ uk0, ts !! t' = Some uk0 ∧ z ∈ cv_waiting (exit_cond_var uk0)) as (uk0 & Hk0 & Hz0).
    { apply lookup_insert_cases in Huk as [(<- & <-)|(_ & Huk)]; [rewrite Hw in Hz; by exists tk|by exists uk]. }
    destruct (th_waiting _ _ _ _ Ho t' uk0 z Hk0 Hz0) as (w & ? & ?). exists w. split; [by apply Hold|done].
  - intros t' uk [(<- & <-)|(_ & Huk)]%lookup_insert_cases; [rewrite Hw|]; by eapply th_waiting_nodup.
  - intros z Hz. destruct (th_cur _ _ _ _ Ho z Hz) as (w & ? & ?). exists w. split; [by apply Hold|done].
Qed.

Lemma mem_ok_upd v ts t tk tk' :
  mem_ok v ts → ts !! t = Some tk → pdbr tk' = pdbr tk → (alive tk' → alive tk) → mem_ok v (<[t := tk']> ts).
Proof.
  intros (own & pds & fs & Hwf & Hcow & Hin & Hinj) Ht Hp Ha. exists own, pds, fs.
  assert (∀ x xk, <[t := tk']> ts !! x = Some xk → alive xk → ∃ xk0, ts !! x = Some xk0 ∧ alive xk0 ∧ pdbr xk = pdbr xk0) as Hb.
  { intros x xk [(<- & <-)|(_ & Hx)]%lookup_insert_cases Hxa; [exists tk|exists xk]; naive_solver. }
  split_and!; [done|done| |].
  - intros x xk Hx Hxa. destruct (Hb x xk Hx Hxa) as (xk0 & ? & ? & ->). by eapply Hin.
  - intros x xk x' xk' Hx Hxa Hx' Hxa' E. destruct (Hb x xk Hx Hxa) as (xk0 & ? & ? & E1).
    destruct (Hb x' xk' Hx' Hxa') as (xk0' & ? & ? & E2). eapply (Hinj x xk0 x' xk0'); congruence.
Qed.

(** A new task with a page directory of its own. *)
Lemma mem_ok_add v v' ts own pds fs own' fs' t tk :
  (∀ x xk, ts !! x = Some xk → alive xk → pdbr xk ∈ pds) →
  (∀ x xk x' xk', ts !! x = Some xk → alive xk → ts !! x' = Some xk' → alive xk' → pdbr xk = pdbr xk' → x = x') →
  vm_wf none v own pds fs → vm_wf none v' own' ({[pdbr tk]} ∪ pds) fs' → cow_ok v' own' → pdbr tk ∉ pds →
  mem_ok v' (<[t := tk]> ts).
Proof.
  intros Hin Hinj Hwf Hwf' Hcow Hnew. exists own', ({[pdbr tk]} ∪ pds), fs'. split_and!; [done|done| |].
  - intros x xk [(<- & <-)|(_ & Hx)]%lookup_insert_cases Hxa; [set_solver|].
    apply elem_of_union_r. by eapply Hin.
  - intros x xk x' xk' [(<- & <-)|(_ & Hx)]%lookup_insert_cases Hxa [(<- & <-)|(_ & Hx')]%lookup_insert_cases Hxa' E;
      [done| | |by eapply Hinj].
    + destruct Hnew. rewrite E. by eapply Hin.
    + destruct Hnew. rewrite <- E. by eapply Hin.
Qed.

End run.
