(* ===== verification/Fork.v ===== *)
(** * fork and thread_fork: they return, with which state, and keep the invariant *)

From S2P Require Import Prelude Locks FrameAlloc Paging VM VMInv VMPages VMMap VMCow VMFault VMQuery VMTheorems CString UserMem Regs ThreadMap Tasks Family TaskRun.

Section fork.
Context {H : Type} `{KernelHeapSpec H} {B : Type} `{BlockHeapSpec B}.
Variable iret_fun_addr : Z.
Implicit Types (k : @kern H B) (ts : gmap Z task) (ths : gmap Z thread).

(** The state after a successful fork: only the child and its thread are new. *)
Definition fork_state k (b : B) (v : vm H) (mp : tmap) (c x : Z) (b1 : B) (p new : Z) (pk : task) (z : thread) : @kern H B :=
  let i := next_tid k + 1 in
  mk_kern v b
    (<[c := forked_task (blocks k) c p x i new pk]> (<[p := add_child c pk]> (tasks k)))
    (<[x := forked_thread iret_fun_addr b1 x i c (k_stack z)]> (threads k))
    i free_mutex mp (runnable_threads k ++ [x]) (curr_thread k) (init_task k).

Definition fork_failed k (b : B) (v : vm H) (mp : tmap) (c p : Z) (pk : task) : @kern H B :=
  mk_kern v b (<[p := add_child c pk]> (tasks k)) (threads k)
    (next_tid k + 1) free_mutex mp (runnable_threads k) (curr_thread k) (init_task k).

(** [memcpy] reads the stack of the task's first thread: the fork stops when that
    struct is gone, unless the new thread was allocated in its place. *)
Lemma do_fork_run k x0 y0 pk own pds fs :
  kern_ok k → running k x0 y0 pk → next_tid k < 2147483647 →
  vm_wf none (kvm k) own pds fs → cow_ok (kvm k) own → pdbr pk ∈ pds →
  let p := parent_task y0 in
  (∃ b', do_fork iret_fun_addr k = Ok ERR_NOMEM (set_blocks b' k) ∧ bh_live b' = bh_live (blocks k)) ∨
  ∃ c x b' b1 mp v new,
    c ≠ NULL ∧ x ≠ NULL ∧ x ≠ c ∧ c ∉ bh_live (blocks k) ∧ x ∉ bh_live (blocks k) ∧
    clone_paging_info (pdbr pk) (kvm k) = Ok new v ∧
    ids_ok (<[x := new_thread b1 x (next_tid k + 1) c]> (threads k)) mp (next_tid k + 1) ∧
    (new = NULL ∧ do_fork iret_fun_addr k = Ok ERR_FAILURE (fork_failed k b' v mp c p pk) ∨
     new ≠ NULL ∧ bh_live b' = {[x]} ∪ ({[c]} ∪ bh_live (blocks k)) ∧
     match <[x := new_thread b1 x (next_tid k + 1) c]> (threads k) !! thr pk with
     | Some z => do_fork iret_fun_addr k =
         Ok (next_tid k + 1) (fork_state k b' (set_cr3 (pdbr pk) v) mp c x b1 p new pk z)
     | None => do_fork iret_fun_addr k = Stop BadAccess
     end).
Proof.
  intros Hk Hr Hn Hwf Hcow Hpd p. pose proof (running_not_null _ _ _ _ Hk Hr) as Hpn. fold p in Hpn.
  destruct Hr as [Hc Hy Hp]. fold p in Hp.
  destruct (fo_locks _ _ (ko_family _ Hk) _ _ Hp) as [_ _ Hlv Hlf _ _ _].
  pose proof (ko_tid_mutex _ Hk) as Htm. pose proof (ko_blocks _ Hk) as Hb. pose proof (ko_ids _ Hk) as Hids.
  pose proof (fo_null _ _ (ko_family _ Hk)) as Hnull.
  pose proof (th_stack _ _ _ _ (ko_threads _ Hk)) as Hlen.
  pose proof (th_locks _ _ _ _ (ko_threads _ Hk)) as Hlocks.
  pose proof (λ x, th_runq _ _ _ _ (ko_threads _ Hk) x) as Hrq.
  destruct (clone_paging_info_ok _ _ _ _ _ Hwf Hcow Hpd) as (new & v' & Hclone & _).
  destruct k as [v b ts ths n tm mp rq cur it]. cbn in *. subst tm cur.
  unfold do_fork. krun curr_task_run. fold p. krun lock_run.
  set (pk1 := fput forking held_mutex pk).
  destruct (create_task_ok p v b (<[p := pk1]> ts) ths n mp rq (Some x0) it Hids Hn) as
    (b' & [(Hrun & Hl)|(c & x & b1 & mp' & Hrun & Hcn & Hxn & Hxc & Hcb & Hxb & Hl & Hids')]).
  { by eapply blocks_ok_upd. }
  { by rewrite lookup_insert_ne. }
  - left. exists b'. rewrite (bind_ok _ _ _ _ _ Hrun), decide_True by done.
    krun unlock_run. split; [|done].
    rewrite insert_insert_eq, insert_id; [done|]. rewrite Hp. f_equal. subst pk1. destruct pk. cbn in *. by subst.
  - right. assert (ts !! c = None) as Hcnew.
    { apply eq_None_not_Some. intros Hs. by apply Hcb, (proj1 Hb). }
    assert (ths !! x = None) as Hxnew.
    { apply eq_None_not_Some. intros Hs. by apply Hxb, (proj2 Hb). }
    assert (c ≠ p) as Hcp by congruence.
    rewrite (bind_ok _ _ _ _ _ Hrun), decide_False by done.
    krun lock_run.
    krun upd_task_run.
    krun unlock_run.
    rewrite !insert_insert_eq.
    set (pk2 := fput vanishing free_mutex _).
    krun the_task_run.
    assert (pdbr pk2 = pdbr pk) as -> by done.
    erewrite bind_ok; [|by apply in_vm_run]. kred.
    assert (fput forking free_mutex pk2 = add_child c pk) as Epk.
    { subst pk2 pk1. destruct pk. cbn in *. by subst. }
    destruct (decide (new = NULL)) as [->|Hnew].
    + exists c, x, (bh_sfree (bh_sfree b' x sizeof_thread_struct) c sizeof_task_struct), b1, mp', v', NULL.
      split_and!; try done. left. split; [done|].
      krun the_task_run.
      cbn [thr new_task set_thr].
      erewrite bind_ok; [|eapply thread_free_run; [klook|done]]. kred.
      rewrite bind_modify. kred. unfold sfree. rewrite bind_modify. kred.
      rewrite delete_insert_id by done.
      rewrite delete_insert_ne, delete_insert_id by (done || by rewrite lookup_insert_ne).
      krun unlock_run.
      unfold fork_failed. kred. by rewrite !insert_insert_eq, Epk.
    + exists c, x, b', b1, mp', v', new. split_and!; try done. right. split; [done|]. split; [done|].
      krun upd_task_run.
      krun the_task_run.
      krun upd_task_run.
      krun the_task_run.
      rewrite !insert_insert_eq.
      assert (thr pk2 = thr pk) as -> by done.
      destruct (<[x := new_thread b1 x (n + 1) c]> ths !! thr pk) as [z|] eqn:Hz; [|by apply bind_stop, clone_stack_stops].
      assert (length (k_stack z) = Z.to_nat (KERNEL_STACK_SIZE / 4)) as Hzl.
      { apply lookup_insert_cases in Hz as [(_ & <-)|(_ & Hz)]; [apply fresh_stack_length|by eapply Hlen]. }
      erewrite bind_ok; [|apply (clone_stack_run iret_fun_addr _ (thr pk) z x (new_thread b1 x (n + 1) c));
        [done|kred; apply lookup_insert_eq|done]]. kred.
      erewrite bind_ok; [|apply runq_add_run; kred; intros (? & ? & _)%Hrq; cbn in *; congruence]. kred.
      erewrite bind_ok; [|by apply in_vm_run]. kred.
      krun unlock_run.
      unfold fork_state. cbn [next_tid tasks threads runnable_threads curr_thread init_task blocks].
      unfold mret, M_ret. f_equal. f_equal.
      * rewrite Epk. rewrite (insert_insert_ne _ c p) by done. rewrite !insert_insert_eq.
        rewrite (insert_insert_ne _ c p) by done. rewrite !insert_insert_eq. by rewrite (insert_insert_ne _ c p) by done.
      * by rewrite insert_insert_eq.
Qed.

Lemma fork_state_ok k x0 y0 pk z own pds fs b' b1 mp v c x new own' :
  kern_ok k → running k x0 y0 pk → length (k_stack z) = Z.to_nat (KERNEL_STACK_SIZE / 4) →
  vm_wf none (kvm k) own pds fs → cow_ok (kvm k) own →
  (∀ t tk, tasks k !! t = Some tk → alive tk → pdbr tk ∈ pds) →
  (∀ t tk t' tk', tasks k !! t = Some tk → alive tk → tasks k !! t' = Some tk' → alive tk' →
     pdbr tk = pdbr tk' → t = t') →
  c ≠ NULL → x ≠ c → c ∉ bh_live (blocks k) → x ∉ bh_live (blocks k) →
  ids_ok (<[x := new_thread b1 x (next_tid k + 1) c]> (threads k)) mp (next_tid k + 1) →
  forked (kvm k) own pds fs (pdbr pk) new v own' →
  bh_live b' = {[x]} ∪ ({[c]} ∪ bh_live (blocks k)) →
  kern_ok (fork_state k b' (set_cr3 (pdbr pk) v) mp c x b1 (parent_task y0) new pk z).
Proof.
  intros Hk Hr Hlen Hwf Hcow Hin Hinj Hcn Hxc Hcb Hxb Hids Hfk Hl.
  pose proof (running_alive _ _ _ _ Hk Hr) as Hal. destruct Hr as [Hc Hy Hp].
  assert (tasks k !! c = None) as Hcnew.
  { apply eq_None_not_Some. intros Hs. by apply Hcb, (proj1 (ko_blocks _ Hk)). }
  assert (threads k !! x = None) as Hxnew.
  { apply eq_None_not_Some. intros Hs. by apply Hxb, (proj2 (ko_blocks _ Hk)). }
  assert (c ≠ parent_task y0) as Hcp by congruence.
  unfold fork_state. split; kred.
  - apply family_ok_fork; try done. by apply Hk.
  - change (forked_task (blocks k) c (parent_task y0) x (next_tid k + 1) new pk) with
      (set_swexn (t_eip pk) (t_swexn_args pk) (t_swexn_esp pk) (set_pdbr new
         (new_task (blocks k) c (parent_task y0) x (next_tid k + 1)))).
    rewrite <- (insert_insert_eq _ c _ (init_task_structures (blocks k) c (parent_task y0))).
    eapply threads_ok_new_thread; [|by rewrite lookup_insert_eq|done..|unfold forked_thread; cbn [k_stack set_k_stack]; by rewrite length_insert|done].
    apply threads_ok_new_task; [|by rewrite lookup_insert_ne|done..].
    eapply threads_ok_upd_task; [by apply Hk|done..].
  - rewrite <- (insert_insert_eq _ x _ (new_thread b1 x (next_tid k + 1) c)).
    eapply ids_ok_upd; [done|by rewrite lookup_insert_eq|done].
  - done.
  - destruct (ko_blocks _ Hk) as [Hb1 Hb2].
    split; rewrite Hl; intros a [ak [(<- & <-)|(Hne & Ha)]%lookup_insert_cases].
    + split; [apply elem_of_union_r, elem_of_union_l, elem_of_singleton; done|].
      rewrite lookup_insert_ne by done. apply eq_None_not_Some. intros Hs. by apply Hcb, Hb2.
    + assert (is_Some (tasks k !! a)) as Hs by (apply lookup_insert_cases in Ha as [(<- & <-)|(_ & ?)]; eauto).
      apply Hb1 in Hs as [Ha' Hn]. split; [by apply elem_of_union_r, elem_of_union_r|].
      rewrite lookup_insert_ne; [done|]. intros ->. done.
    + by apply elem_of_union_l, elem_of_singleton.
    + apply elem_of_union_r, elem_of_union_r, Hb2. by exists ak.
  - assert (mem_ok (kvm k) (<[parent_task y0 := add_child c pk]> (tasks k))) as Hm.
    { eapply mem_ok_upd; [by apply Hk|done..]. }
    assert (∀ t tk, <[parent_task y0 := add_child c pk]> (tasks k) !! t = Some tk → alive tk →
      ∃ tk0, tasks k !! t = Some tk0 ∧ alive tk0 ∧ pdbr tk = pdbr tk0) as Hback.
    { intros t tk [(<- & <-)|(_ & Ht)]%lookup_insert_cases Ha; [by exists pk|by exists tk]. }
    eapply (mem_ok_add (kvm k) _ _ own pds fs own'); [| |done| | |].
    + intros t tk Ht Ha. destruct (Hback t tk Ht Ha) as (? & ? & ? & ->). by eapply Hin.
    + intros t tk t' tk' Ht Ha Ht' Ha' E. destruct (Hback t tk Ht Ha) as (? & ? & ? & E1).
      destruct (Hback t' tk' Ht' Ha') as (? & ? & ? & E2). eapply Hinj; [done|done|done|done|congruence].
    + apply wf_set_cr3. apply Hfk.
    + apply Hfk.
    + apply Hfk.
  - intros x1 y1 tk Hx1 [(<- & <-)|(_ & Hy1)]%lookup_insert_cases; [congruence|].
    rewrite Hc in Hx1. injection Hx1 as <-. rewrite Hy in Hy1. injection Hy1 as <-.
    rewrite lookup_insert_ne, lookup_insert_eq by done. by intros [= <-].
Qed.

Lemma kern_ok_blocks k b : kern_ok k → bh_live b = bh_live (blocks k) → kern_ok (set_blocks b k).
Proof. intros [? ? ? ? [] ? ?] E. split; try done. split; cbn; by rewrite E. Qed.

(** A fork that returns: out of memory, with a child, or failed half-way. *)
Lemma fork_cases k x y pk :
  kern_ok k → running k x y pk → next_tid k < 2147483647 →
  (∃ b, do_fork iret_fun_addr k = Ok ERR_NOMEM (set_blocks b k) ∧ kern_ok (set_blocks b k)) ∨
  (∃ c x' b' b1 mp v new own pds fs own',
     tasks k !! c = None ∧ threads k !! x' = None ∧ c ≠ NULL ∧ forked (kvm k) own pds fs (pdbr pk) new v own' ∧
     match <[x' := new_thread b1 x' (next_tid k + 1) c]> (threads k) !! thr pk with
     | Some z =>
         let k' := fork_state k b' (set_cr3 (pdbr pk) v) mp c x' b1 (parent_task y) new pk z in
         do_fork iret_fun_addr k = Ok (next_tid k + 1) k' ∧ kern_ok k'
     | None => do_fork iret_fun_addr k = Stop BadAccess
     end) ∨
  (∃ c b mp v, tasks k !! c = None ∧ c ≠ NULL ∧
     do_fork iret_fun_addr k = Ok ERR_FAILURE (fork_failed k b v mp c (parent_task y) pk)).
Proof.
  intros Hk Hr Hn. pose proof (running_alive _ _ _ _ Hk Hr) as Hal.
  destruct (ko_mem _ Hk) as (own & pds & fs & Hwf & Hcow & Hin & Hinj).
  pose proof (Hin _ _ (rn_task _ _ _ _ Hr) Hal) as Hpd.
  destruct (do_fork_run k x y pk own pds fs Hk Hr Hn Hwf Hcow Hpd) as
    [(b & Hrun & Hl)|(c & x' & b' & b1 & mp & v & new & Hcn & Hxn & Hxc & Hcb & Hxb & Hcl & Hids & Hor)].
  { left. exists b. split; [done|]. by apply kern_ok_blocks. }
  right. assert (tasks k !! c = None) as Hcnew.
  { apply eq_None_not_Some. intros Hs. by apply Hcb, (proj1 (ko_blocks _ Hk)). }
  assert (threads k !! x' = None) as Hxnew.
  { apply eq_None_not_Some. intros Hs. by apply Hxb, (proj2 (ko_blocks _ Hk)). }
  destruct (clone_paging_info_ok _ _ _ _ _ Hwf Hcow Hpd) as (new' & v' & Hcl' & Hcase).
  rewrite Hcl in Hcl'. injection Hcl' as <- <-.
  destruct Hor as [(-> & Hrun)|(Hnew & Hl & Hrun)]; [right; by eexists c, _, _, _|left].
  destruct Hcase as [[? _]|(_ & own' & Hfk)]; [done|].
  exists c, x', b', b1, mp, v, new, own, pds, fs, own'. split_and!; try done.
  destruct (_ !! thr pk) as [z|] eqn:Hz; [|done]. split; [done|].
  eapply fork_state_ok; try done.
  apply lookup_insert_cases in Hz as [(_ & <-)|(_ & Hz)]; [apply fresh_stack_length|].
  by eapply (th_stack _ _ _ _ (ko_threads _ Hk)).
Qed.

Lemma fork_ok k x y pk z :
  kern_ok k → running k x y pk → threads k !! thr pk = Some z → next_tid k < 2147483647 →
  (∃ b, do_fork iret_fun_addr k = Ok ERR_NOMEM (set_blocks b k) ∧ kern_ok (set_blocks b k)) ∨
  (∃ c ck x' xk k', do_fork iret_fun_addr k = Ok (t_id ck) k' ∧ kern_ok k' ∧
     tasks k !! c = None ∧ threads k !! x' = None ∧
     tasks k' = <[c := ck]> (<[parent_task y := add_child c pk]> (tasks k)) ∧
     threads k' = <[x' := xk]> (threads k) ∧ runnable_threads k' = runnable_threads k ++ [x'] ∧
     parent ck = parent_task y ∧ thread_head ck = [x'] ∧ parent_task xk = c ∧
     t_id ck = id xk ∧ (∀ w wy, threads k !! w = Some wy → id wy ≠ t_id ck) ∧
     (t_eip ck, t_swexn_args ck, t_swexn_esp ck) = (t_eip pk, t_swexn_args pk, t_swexn_esp pk) ∧
     k_stack xk = <[13%nat := iret_fun_addr]> (k_stack z) ∧
     cur_esp xk = k_stack_base xk - DEFAULT_STACK_OFFSET ∧
     phys (kvm k') = phys (kvm k) ∧
     ∀ va, word va → USER_MEM_START ≤ va →
       pte_at (kvm k') (pdbr ck) va = cow_entry <$> pte_at (kvm k) (pdbr pk) va ∧
       pte_at (kvm k') (pdbr pk) va = cow_entry <$> pte_at (kvm k) (pdbr pk) va) ∨
  (∃ c k', do_fork iret_fun_addr k = Ok ERR_FAILURE k' ∧ tasks k' !! c = None ∧
     tasks k' !! parent_task y = Some (add_child c pk)).
Proof.
  intros Hk Hr Hz Hn.
  destruct (fork_cases k x y pk Hk Hr Hn) as
    [?|[(c & x' & b' & b1 & mp & v & new & own & pds & fs & own' & Hcnew & Hxnew & Hcn & Hfk & Hrun)|
        (c & b & mp & v & Hcnew & _ & Hrun)]]; [by left|right; left|right; right].
  - rewrite lookup_insert_ne, Hz in Hrun by congruence. destruct Hrun as [Hrun Hok].
    exists c, (forked_task (blocks k) c (parent_task y) x' (next_tid k + 1) new pk), x'. eexists _, _.
    split; [exact Hrun|]. split; [done|].
    unfold fork_state. kred. split_and!; try done.
    + intros w wy Hw. cbn. pose proof (io_range _ _ _ (ko_ids _ Hk) _ _ Hw). lia.
    + apply Hfk.
    + intros va Hva Hu. split; [by apply (fk_child _ _ _ _ _ _ _ _ Hfk)|by apply (fk_parent _ _ _ _ _ _ _ _ Hfk)].
  - eexists c, _. split; [done|]. unfold fork_failed. kred.
    rewrite lookup_insert_eq, lookup_insert_ne; [done|]. intros <-. by rewrite (rn_task _ _ _ _ Hr) in Hcnew.
Qed.

(** A failed fork breaks the family tree: the parent keeps a child that is gone. *)
Lemma fork_failed_broken k x y pk c b v mp :
  kern_ok k → running k x y pk → tasks k !! c = None →
  ¬ kern_ok (fork_failed k b v mp c (parent_task y) pk).
Proof.
  intros Hk Hr Hc Hk'. pose proof (rn_task _ _ _ _ Hr) as Hp.
  pose proof (running_alive _ _ _ _ Hk Hr) as Hal.
  destruct (proj1 (fo_children _ _ (ko_family _ Hk') (parent_task y) (add_child c pk) c
    (lookup_insert_eq _ _ _) Hal)) as (ck & Hck & _).
  { cbn. apply elem_of_app. right. by apply list_elem_of_singleton. }
  cbn in Hck. rewrite lookup_insert_ne in Hck by congruence. by rewrite Hc in Hck.
Qed.

Lemma thread_fork_ok k x y pk :
  kern_ok k → running k x y pk → next_tid k < 2147483647 →
  (∃ b, do_thread_fork iret_fun_addr k = Ok ERR_FAILURE (set_blocks b k) ∧ kern_ok (set_blocks b k)) ∨
  (∃ x' xk k', do_thread_fork iret_fun_addr k = Ok (id xk) k' ∧ kern_ok k' ∧
     threads k !! x' = None ∧ threads k' = <[x' := xk]> (threads k) ∧
     runnable_threads k' = runnable_threads k ++ [x'] ∧ id xk = next_tid k + 1 ∧ parent_task xk = parent_task y ∧
     k_stack xk = <[13%nat := iret_fun_addr]> (k_stack y) ∧
     tasks k' = <[parent_task y := set_thread_head (thread_head pk ++ [x']) pk]> (tasks k)).
Proof.
  intros Hk Hr Hn. pose proof (running_not_null _ _ _ _ Hk Hr) as Hpn. destruct Hr as [Hc Hy Hp].
  pose proof (ko_tid_mutex _ Hk) as Htm. pose proof (ko_blocks _ Hk) as Hb.
  pose proof (th_stack _ _ _ _ (ko_threads _ Hk) _ _ Hy) as Hlen.
  unfold do_thread_fork. krun curr_task_run. krun curr_thread_run.
  assert (k = mk_kern (kvm k) (blocks k) (tasks k) (threads k) (next_tid k) free_mutex (thread_map k)
                (runnable_threads k) (curr_thread k) (init_task k)) as Ek by (destruct k; cbn in *; by subst).
  destruct (create_thread_ok (parent_task y) pk (kvm k) (blocks k) (tasks k) (threads k) (next_tid k) (thread_map k)
    (runnable_threads k) (curr_thread k) (init_task k) Hpn Hp (ko_ids _ Hk) Hn Hb)
    as (b' & [(Hrun & Hl)|(x' & mp & Hrun & Hxn & Hxb & Hl & Hids)]);
    rewrite <- Ek in Hrun; rewrite (bind_ok _ _ _ _ _ Hrun); clear Ek.
  - left. exists b'. rewrite decide_True by done. split; [|by apply kern_ok_blocks]. unfold set_blocks. by rewrite Htm.
  - right. rewrite decide_False by done.
    assert (threads k !! x' = None) as Hxnew by (apply eq_None_not_Some; intros Hs; by apply Hxb, (proj2 Hb)).
    assert (x ≠ x') as Hne by congruence.
    erewrite bind_ok; [|eapply clone_stack_run; [klook|klook|done]]. kred.
    erewrite bind_ok; [|apply runq_add_run; kred; intros (? & ? & _)%(th_runq _ _ _ _ (ko_threads _ Hk)); congruence]. kred.
    krun the_thread_run. eexists x', _, _. split; [done|]. rewrite !insert_insert_eq. kred. split; [|done].
    split; kred.
    + eapply family_ok_upd; [by apply Hk|done|]. split; try done; [by intros []|].
      split; intros _; [by intros [_ ?]%app_eq_nil|eapply running_alive; [done|by split]].
    + eapply threads_ok_new_thread; [by apply Hk|done..| |done]. cbn [k_stack set_k_stack]. by rewrite length_insert.
    + rewrite <- (insert_insert_eq _ x' _ (new_thread (blocks k) x' (next_tid k + 1) (parent_task y))).
      eapply ids_ok_upd; [done|by rewrite lookup_insert_eq|done].
    + done.
    + destruct Hb as [Hb1 Hb2]. split; rewrite Hl.
      * intros a [ak Ha]. assert (is_Some (tasks k !! a)) as [Ha' Hn']%Hb1.
        { apply lookup_insert_cases in Ha as [(<- & <-)|(_ & ?)]; eauto. }
        split; [by apply elem_of_union_r|]. rewrite lookup_insert_ne; [done|]. by intros ->.
      * intros a [ak [(<- & <-)|(_ & Ha)]%lookup_insert_cases]; [by apply elem_of_union_l, elem_of_singleton|].
        apply elem_of_union_r, Hb2. by exists ak.
    + eapply mem_ok_upd; [by apply Hk|done..|]. intros _. eapply running_alive; [done|by split].
    + intros x1 y1 tk Hx1 [(<- & <-)|(_ & Hy1)]%lookup_insert_cases; [congruence|].
      rewrite Hc in Hx1. injection Hx1 as <-. rewrite Hy in Hy1. injection Hy1 as <-.
      rewrite lookup_insert_eq. intros [= <-]. by apply (ko_cr3 _ Hk x y pk).
Qed.
End fork.
