(* ===== verification/Vanish.v ===== *)
(** * vanish: removing a thread, waking waiters, handing children to init

    [vanish_not_last] and [vanish_last] give the outcome of [do_vanish] for a
    thread with siblings and for the last thread of a task. *)

From S2P Require Import Prelude Locks FrameAlloc Paging VM VMInv VMPages VMMap VMCow VMFault VMQuery VMTheorems CString UserMem Regs ThreadMap Tasks Family TaskRun.

Section vanish.
Context {H : Type} `{KernelHeapSpec H} {B : Type} `{BlockHeapSpec B}.
Implicit Types (k : @kern H B) (ts : gmap Z task) (ths : gmap Z thread).

(** ** Threads that end *)
Lemma remove_id ths mp n x y :
  ids_ok ths mp n → ths !! x = Some y →
  ∃ mp', remove_thread_from_map (id <$> ths) (id y) mp = Ok tt mp' ∧ ids_ok (delete x ths) mp' n.
Proof.
  intros [(abs & Hok & Habs) Hr Hn] Hx. pose proof (Hr _ _ Hx) as Hid.
  destruct (remove_thread_ok _ mp abs (id y) Hok) as (mp' & Hrun & Hok'); [lia|].
  exists mp'. split; [done|].
  assert (abs !! id y = Some x) as Hax by (apply Habs; by rewrite lookup_fmap, Hx).
  split; [|intros x' y' [_ Hx']%lookup_delete_Some; by eapply Hr|done].
  exists (delete (id y) abs). split.
  - eapply tm_ok_tids; [done|]. intros i l z Hl Hz.
    destruct (tm_place _ _ _ Hok' i l z Hl Hz) as (j & Hj & Hjn & Hb).
    rewrite !lookup_fmap, lookup_delete_ne; [done|]. intros <-.
    assert (delete (id y) abs !! j = Some x) as [Hne Hj']%lookup_delete_Some.
    { apply (tm_abs _ _ _ Hok' _ _ Hjn). split; [done|]. exists l. by rewrite Hb. }
    rewrite lookup_fmap, Hx in Hj. cbn in Hj. congruence.
  - intros i z. rewrite lookup_delete_Some, Habs, !lookup_fmap. destruct (decide (x = z)) as [<-|Hne].
    + rewrite lookup_delete_eq, Hx. cbn. naive_solver.
    + rewrite lookup_delete_ne by done. split; [naive_solver|]. intros Hz. split; [|done].
      intros <-. apply Hne. assert (abs !! id y = Some z) as E; [|congruence]. apply Habs. by rewrite lookup_fmap.
Qed.

Lemma threads_ok_remove ts ths rq x y t tk tk' :
  threads_ok ts ths rq (Some x) → ts !! t = Some tk → ths !! x = Some y → parent_task y = t →
  thread_head tk' = filter (λ z, z ≠ x) (thread_head tk) →
  cv_waiting (exit_cond_var tk') = cv_waiting (exit_cond_var tk) →
  threads_ok (<[t := tk']> ts) (delete x ths) rq None.
Proof.
  intros Ho Ht Hx Hp Hh Hw.
  destruct (th_cur _ _ _ _ Ho x eq_refl) as (y' & Hx' & Hrun). rewrite Hx in Hx'. injection Hx' as <-.
  assert (∀ z w, ths !! z = Some w → status w ≠ RUNNING → delete x ths !! z = Some w) as Hkeep.
  { intros z w Hz Hs. rewrite lookup_delete_ne; [done|]. intros <-. congruence. }
  split; try done.
  - intros t' uk z [(<- & <-)|(Hne & Huk)]%lookup_insert_cases.
    + rewrite Hh, list_elem_of_filter, (th_members _ _ _ _ Ho _ _ _ Ht). split.
      * intros (Hzx & w & Hz & ?). exists w. by rewrite lookup_delete_ne.
      * intros (w & [Hzx Hz]%lookup_delete_Some & ?). split; [done|by exists w].
    + rewrite (th_members _ _ _ _ Ho _ _ _ Huk). split.
      * intros (w & Hz & ?). exists w. rewrite lookup_delete_ne; [done|]. intros <-. congruence.
      * intros (w & [Hzx Hz]%lookup_delete_Some & ?). by exists w.
  - intros t' uk [(<- & <-)|(Hne & Huk)]%lookup_insert_cases; [|by eapply th_nodup].
    rewrite Hh. apply NoDup_filter. by eapply th_nodup.
  - intros z w [_ Hz]%lookup_delete_Some. destruct (decide (t = parent_task w)) as [<-|]; [by rewrite lookup_insert_eq|].
    rewrite lookup_insert_ne by done. by eapply th_task.
  - intros z w [_ Hz]%lookup_delete_Some. by eapply th_locks.
  - intros z w [_ Hz]%lookup_delete_Some. by eapply th_stack.
  - intros z Hz. destruct (th_runq _ _ _ _ Ho z Hz) as (w & Hw' & Hs). exists w. split; [|done].
    apply Hkeep; [done|by rewrite Hs].
  - by eapply th_runq_nodup.
  - intros t' uk z Huk Hz. assert (∃ uk0, ts !! t' = Some uk0 ∧ z ∈ cv_waiting (exit_cond_var uk0)) as (uk0 & Huk0 & Hz0).
    { apply lookup_insert_cases in Huk as [(<- & <-)|(_ & Huk)]; [rewrite Hw in Hz; by exists tk|by exists uk]. }
    destruct (th_waiting _ _ _ _ Ho t' uk0 z Huk0 Hz0) as (w & Hw' & ? & Hs). exists w. split; [|done].
    apply Hkeep; [done|by rewrite Hs].
  - intros t' uk [(<- & <-)|(_ & Huk)]%lookup_insert_cases; [rewrite Hw|]; by eapply th_waiting_nodup.
Qed.

(** What [threads_ok] sees of a task. *)
Definition thread_view (tk : task) : list Z * list Z := (thread_head tk, cv_waiting (exit_cond_var tk)).

Lemma threads_ok_ext ts ts' ths rq cur :
  threads_ok ts ths rq cur → (∀ t, thread_view <$> ts' !! t = thread_view <$> ts !! t) → threads_ok ts' ths rq cur.
Proof.
  intros Ho Hv.
  assert (∀ t tk, ts' !! t = Some tk → ∃ tk0, ts !! t = Some tk0 ∧ thread_head tk = thread_head tk0 ∧
    cv_waiting (exit_cond_var tk) = cv_waiting (exit_cond_var tk0)) as Hb.
  { intros t tk Ht. specialize (Hv t). rewrite Ht in Hv. symmetry in Hv.
    apply fmap_Some in Hv as (tk0 & ? & E). exists tk0. unfold thread_view in E. by injection E. }
  split; try apply Ho.
  - intros t tk x (tk0 & ? & -> & _)%Hb. by apply Ho.
  - intros t tk (tk0 & ? & -> & _)%Hb. by eapply th_nodup.
  - intros x y [tk Hx]%(th_task _ _ _ _ Ho). specialize (Hv (parent_task y)). rewrite Hx in Hv.
    apply fmap_Some in Hv as (? & ? & _). by eexists.
  - intros t tk x (tk0 & ? & _ & ->)%Hb. by eapply th_waiting.
  - intros t tk (tk0 & ? & _ & ->)%Hb. by eapply th_waiting_nodup.
Qed.

(** ** Waking threads *)
Definition set_runnable (ws : list Z) ths : gmap Z thread :=
  map_imap (λ x y, Some (if decide (x ∈ ws) then set_status RUNNABLE y else y)) ths.

Lemma set_runnable_lookup ws ths x :
  set_runnable ws ths !! x = (λ y, if decide (x ∈ ws) then set_status RUNNABLE y else y) <$> ths !! x.
Proof. unfold set_runnable. rewrite map_lookup_imap. by destruct (ths !! x). Qed.

Lemma set_runnable_insert w ws ths y :
  ths !! w = Some y → w ∉ ws →
  set_runnable ws (<[w := set_status RUNNABLE y]> ths) = set_runnable (w :: ws) ths.
Proof.
  intros Hw Hn. apply map_eq. intros i. rewrite !set_runnable_lookup. destruct (decide (w = i)) as [<-|Hne].
  - rewrite lookup_insert_eq, Hw. cbn. rewrite decide_False by done. by rewrite decide_True by left.
  - rewrite lookup_insert_ne by done. destruct (ths !! i); [|done]. cbn. f_equal.
    destruct (decide (i ∈ ws)); [rewrite decide_True by (by right)|
      rewrite decide_False by (rewrite elem_of_cons; naive_solver)]; done.
Qed.

Lemma set_runnable_nil ths : set_runnable [] ths = ths.
Proof.
  apply map_eq. intros i. rewrite set_runnable_lookup. destruct (ths !! i); [|done]. cbn.
  by rewrite decide_False by apply not_elem_of_nil.
Qed.

Lemma set_runnable_delete ws ths x : set_runnable ws (delete x ths) = delete x (set_runnable ws ths).
Proof.
  apply map_eq. intros i. rewrite set_runnable_lookup. destruct (decide (x = i)) as [<-|Hne].
  - by rewrite !lookup_delete_eq.
  - by rewrite !lookup_delete_ne, set_runnable_lookup by done.
Qed.

Lemma wake_run k w y :
  threads k !! w = Some y → w ∉ runnable_threads k →
  wake w k = Ok tt (set_runq (runnable_threads k ++ [w]) (set_threads (<[w := set_status RUNNABLE y]> (threads k)) k)).
Proof. intros Hw Hn. unfold wake. krun upd_thread_run. by rewrite runq_add_run. Qed.

Lemma wake_all_run ws k :
  NoDup ws → (∀ w, w ∈ ws → is_Some (threads k !! w) ∧ w ∉ runnable_threads k) →
  wake_all ws k = Ok tt (set_runq (runnable_threads k ++ ws) (set_threads (set_runnable ws (threads k)) k)).
Proof.
  revert k. induction ws as [|w ws IH]; intros k Hnd Hin.
  { cbn. rewrite set_runnable_nil, app_nil_r. by destruct k. }
  apply NoDup_cons in Hnd as [Hw Hnd]. cbn [wake_all]. destruct (Hin w ltac:(left)) as [[y Hy] Hn].
  rewrite (bind_ok _ _ _ _ _ (wake_run k w y Hy Hn)). rewrite IH; [|done|].
  - kred. by rewrite set_runnable_insert, <- app_assoc by done.
  - intros z Hz. kred. destruct (Hin z ltac:(by right)) as [? ?]. assert (w ≠ z) by congruence.
    rewrite lookup_insert_ne by done. split; [done|]. rewrite elem_of_app, list_elem_of_singleton. naive_solver.
Qed.

Lemma cond_signal_run k q qk :
  tasks k !! q = Some qk → unlocked_task qk → NoDup (cv_waiting (exit_cond_var qk)) →
  (∀ w, w ∈ cv_waiting (exit_cond_var qk) → is_Some (threads k !! w) ∧ w ∉ runnable_threads k) →
  ∃ ws rest, cv_waiting (exit_cond_var qk) = ws ++ rest ∧ (ws = [] → rest = []) ∧
    cond_signal q k = Ok tt (set_runq (runnable_threads k ++ ws) (set_threads (set_runnable ws (threads k))
      (set_tasks (<[q := set_waiting rest qk]> (tasks k)) k))).
Proof.
  intros Hq [_ _ _ _ _ Hv Hm] Hnd Hin. unfold cond_signal. krun the_task_run.
  erewrite bind_ok; [|apply thread_assert_true; apply bool_decide_true; by rewrite Hv].
  krun lock_run. destruct (cv_waiting (exit_cond_var qk)) as [|w l] eqn:E.
  - exists [], []. split; [done|]. split; [done|]. rewrite bind_mret.
    erewrite unlock_run; [|klook|done]. kred. rewrite insert_insert_eq, set_runnable_nil, app_nil_r.
    repeat f_equal. destruct qk as [??????????? [cs cw cq] ?????]. cbn in *. by subst.
  - exists [w], l. split; [done|]. split; [done|]. destruct (Hin w ltac:(left)) as [[y Hy] Hn].
    rewrite bind_assoc. erewrite bind_ok; [|by apply wake_run]. kred.
    krun upd_task_run. erewrite unlock_run; [|klook|done]. kred. rewrite !insert_insert_eq. repeat f_equal.
    + destruct qk as [??????????? [cs cw cq] ?????]. cbn in *. by subst.
    + rewrite <- (set_runnable_nil (<[w := _]> _)). by apply set_runnable_insert, not_elem_of_nil.
Qed.

Lemma cond_broadcast_run k q qk :
  tasks k !! q = Some qk → unlocked_task qk → NoDup (cv_waiting (exit_cond_var qk)) →
  (∀ w, w ∈ cv_waiting (exit_cond_var qk) → is_Some (threads k !! w) ∧ w ∉ runnable_threads k) →
  cond_broadcast q k = Ok tt (set_runq (runnable_threads k ++ cv_waiting (exit_cond_var qk))
    (set_threads (set_runnable (cv_waiting (exit_cond_var qk)) (threads k))
      (set_tasks (<[q := set_waiting [] qk]> (tasks k)) k))).
Proof.
  intros Hq [_ _ _ _ _ Hv Hm] Hnd Hin. unfold cond_broadcast. krun the_task_run.
  erewrite bind_ok; [|apply thread_assert_true; apply bool_decide_true; by rewrite Hv].
  krun lock_run. erewrite bind_ok; [|by apply wake_all_run]. kred.
  krun upd_task_run. erewrite unlock_run; [|klook|done]. kred. rewrite !insert_insert_eq.
  repeat f_equal. destruct qk as [??????????? [cs cw cq] ?????]. cbn in *. by subst.
Qed.

(** The waiters that are woken are runnable afterwards. *)
Lemma threads_ok_wake ts ths rq cur q qk ws rest :
  threads_ok ts ths rq cur → ts !! q = Some qk → cv_waiting (exit_cond_var qk) = ws ++ rest →
  threads_ok (<[q := set_waiting rest qk]> ts) (set_runnable ws ths) (rq ++ ws) cur.
Proof.
  intros Ho Hq Hws.
  pose proof (th_waiting_nodup _ _ _ _ Ho _ _ Hq) as Hnd. rewrite Hws in Hnd.
  apply NoDup_app in Hnd as (Hnw & Hdisj & Hnr).
  assert (∀ w, w ∈ ws → ∃ y, ths !! w = Some y ∧ parent_task y = q ∧ status y = WAITING) as Hw.
  { intros w Hw. apply (th_waiting _ _ _ _ Ho q qk w Hq). rewrite Hws. apply elem_of_app. by left. }
  assert (∀ z y', set_runnable ws ths !! z = Some y' → ∃ y, ths !! z = Some y ∧ parent_task y' = parent_task y ∧
    deschedule_mutex y' = deschedule_mutex y ∧ deschedule_cond_var y' = deschedule_cond_var y ∧ k_stack y' = k_stack y) as Hb.
  { intros z y'. rewrite set_runnable_lookup. intros (y & Hy & ->)%fmap_Some. exists y. by case_decide. }
  assert (∀ z y, ths !! z = Some y → ∃ y', set_runnable ws ths !! z = Some y' ∧ parent_task y' = parent_task y) as Hf.
  { intros z y Hz. rewrite set_runnable_lookup, Hz. eexists. split; [done|]. by case_decide. }
  assert (∀ z y, ths !! z = Some y → status y ≠ WAITING ∨ z ∉ ws → set_runnable ws ths !! z = Some y) as Hsame.
  { intros z y Hz Hor. rewrite set_runnable_lookup, Hz. cbn. rewrite decide_False; [done|].
    intros Hin. destruct Hor as [Hs|Hs]; [|done]. destruct (Hw z Hin) as (? & ? & _ & ?). congruence. }
  split.
  - intros t tk z Ht. assert (∃ tk0, ts !! t = Some tk0 ∧ thread_head tk = thread_head tk0) as (tk0 & Ht0 & ->).
    { apply lookup_insert_cases in Ht as [(<- & <-)|(_ & ?)]; [by exists qk|by exists tk]. }
    rewrite (th_members _ _ _ _ Ho t tk0 z Ht0). split.
    + intros (y & (y' & ? & ?)%Hf & ?). exists y'. split; [done|congruence].
    + intros (y' & (y & ? & ? & _)%Hb & ?). exists y. split; [done|congruence].
  - intros t tk [(<- & <-)|(_ & ?)]%lookup_insert_cases; [exact (th_nodup _ _ _ _ Ho _ _ Hq)|by eapply th_nodup].
  - intros z y' (y & Hz & -> & _)%Hb. destruct (th_task _ _ _ _ Ho z y Hz) as [tk Ht].
    destruct (decide (q = parent_task y)) as [<-|]; [by rewrite lookup_insert_eq|]. rewrite lookup_insert_ne by done. by eexists.
  - intros z y' (y & Hz & _ & -> & -> & _)%Hb. by eapply th_locks.
  - intros z y' (y & Hz & _ & _ & _ & ->)%Hb. by eapply th_stack.
  - intros z [Hz|Hz]%elem_of_app.
    + destruct (th_runq _ _ _ _ Ho z Hz) as (y & Hy & Hs). exists y. split; [|done]. apply Hsame; [done|]. left. by rewrite Hs.
    + destruct (Hw z Hz) as (y & Hy & _). exists (set_status RUNNABLE y). rewrite set_runnable_lookup, Hy. cbn.
      by rewrite decide_True.
  - apply NoDup_app. split_and!; [by eapply th_runq_nodup| |done].
    intros z (y & Hy & Hs)%(th_runq _ _ _ _ Ho) (y' & Hy' & _ & Hs')%Hw. rewrite Hy in Hy'. injection Hy' as <-.
    rewrite Hs in Hs'. done.
  - intros t tk z Ht Hz. assert (∃ tk0, ts !! t = Some tk0 ∧ z ∈ cv_waiting (exit_cond_var tk0) ∧ (t = q → z ∉ ws)) as
      (tk0 & Ht0 & Hz0 & Hzw).
    { apply lookup_insert_cases in Ht as [(<- & <-)|(Hne & ?)].
      - exists qk. split; [done|]. cbn in Hz. rewrite Hws, elem_of_app. split; [by right|]. intros _ Hin. by apply (Hdisj z).
      - exists tk. split; [done|]. split; [done|]. congruence. }
    destruct (th_waiting _ _ _ _ Ho t tk0 z Ht0 Hz0) as (y & Hy & Hp & Hs). exists y. split; [|done].
    apply Hsame; [done|]. right. intros Hin. destruct (Hw z Hin) as (y' & Hy' & Hp' & _).
    apply Hzw; [|done]. congruence.
  - intros t tk [(<- & <-)|(_ & ?)]%lookup_insert_cases; [done|by eapply th_waiting_nodup].
  - intros z Hz. destruct (th_cur _ _ _ _ Ho z Hz) as (y & Hy & Hs). exists y. split; [|done]. apply Hsame; [done|].
    left. by rewrite Hs.
Qed.

(** ** Memory *)
Lemma cow_ok_free (s s' : vm H) own pds fs pd :
  vm_wf none s own pds fs → cow_ok s own →
  (∀ p, in_use s (disown_dir s pd own) (pds ∖ {[pd]}) p → kmem s' !! p = kmem s !! p) → pd ∈ pds →
  cow_ok s' (disown_dir s pd own).
Proof.
  intros Hwf Hcow Hk Hpd pt j e [w Hw] He Hd Hwr.
  rewrite (refs_ext s s') by (intros p Hp; apply Hk; by left).
  rewrite (entry_at_ext s s') in He by (apply Hk; left; by eexists).
  assert (dir_owns s pd 4 own) as Hdo by (intros i e' Hi; by apply (wf_dir _ _ _ _ _ Hwf)).
  pose proof (disown_refs s pd own (GET_ADDR_FROM_ENTRY e) user_entries 4 ltac:(lia) ltac:(by rewrite user_entries_Z) Hdo) as Hr.
  fold (disown_dir s pd own) in Hr.
  pose proof (dir_refs_nonneg s pd (GET_ADDR_FROM_ENTRY e) user_entries 4).
  pose proof (refs_pos s (disown_dir s pd own) pt j e ltac:(by eexists) He).
  assert (refs s own (GET_ADDR_FROM_ENTRY e) = 1); [|lia].
  apply (Hcow pt j e); try done. exists w. by eapply disown_dir_sub.
Qed.

(** ** The last thread of a task *)
Definition reparented (init : Z) (l : list Z) ts : gmap Z task :=
  map_imap (λ x xk, Some (if decide (x ∈ l) then set_parent init xk else xk)) ts.

Lemma reparented_lookup init l ts x :
  reparented init l ts !! x = (λ xk, if decide (x ∈ l) then set_parent init xk else xk) <$> ts !! x.
Proof. unfold reparented. rewrite map_lookup_imap. by destruct (ts !! x). Qed.

Lemma reparented_insert init l ts t tk :
  t ∉ l → reparented init l (<[t := tk]> ts) = <[t := tk]> (reparented init l ts).
Proof.
  intros Ht. apply map_eq. intros i. rewrite reparented_lookup. destruct (decide (t = i)) as [<-|Hne].
  - rewrite !lookup_insert_eq. cbn. by rewrite decide_False.
  - by rewrite !lookup_insert_ne, reparented_lookup by done.
Qed.

Lemma reparent_run l init k :
  (∀ c, c ∈ l → is_Some (tasks k !! c)) →
  reparent_to_init l init k = Ok tt (set_tasks (reparented init l (tasks k)) k).
Proof.
  revert k. induction l as [|c l IH]; intros k Hin; cbn [reparent_to_init].
  - assert (reparented init [] (tasks k) = tasks k) as ->; [|by destruct k].
    apply map_eq. intros i. rewrite reparented_lookup. destruct (tasks k !! i); [|done]. cbn.
    by rewrite decide_False by apply not_elem_of_nil.
  - destruct (Hin c ltac:(left)) as [ck Hc]. rewrite (bind_ok _ _ _ _ _ (upd_task_run k c _ ck Hc)). rewrite IH.
    + kred. do 2 f_equal. apply map_eq. intros i. rewrite !reparented_lookup. destruct (decide (c = i)) as [<-|Hne].
      * rewrite lookup_insert_eq, Hc. cbn. rewrite (decide_True (P := c ∈ c :: l)) by left. by case_decide.
      * rewrite lookup_insert_ne by done. destruct (tasks k !! i); [|done]. cbn. f_equal.
        destruct (decide (i ∈ l)); [by rewrite decide_True by (by right)|].
        rewrite decide_False; [done|]. rewrite elem_of_cons. naive_solver.
    + intros d Hd. kred. destruct (decide (c = d)) as [<-|Hne]; [by rewrite lookup_insert_eq|].
      rewrite lookup_insert_ne by done. apply Hin. by right.
Qed.

(** The tasks after the handover of the children of [t] to [init]. *)
Definition handed_over (kpd t init : Z) (tk ik : task) ts : gmap Z task :=
  let cl := child_task_head tk in
  let dl := dead_child_head tk in
  <[t := set_pdbr kpd (set_children (snd (concat_lists (child_task_head ik) cl))
           (snd (concat_lists (dead_child_head ik) dl)) tk)]>
  (<[init := set_children (child_task_head ik ++ cl) (dead_child_head ik ++ dl) ik]>
     (reparented init dl (reparented init cl ts))).

(** [t] moves from the living to the dead children. *)
Definition bury (t : Z) (pk : task) : task :=
  set_children (filter (λ c, c ≠ t) (child_task_head pk)) (dead_child_head pk ++ [t]) pk.

Lemma last_exits_run k t init tk ik v' qk :
  tasks k !! t = Some tk → unlocked_task tk → tasks k !! init = Some ik → unlocked_task ik → init ≠ t →
  (∀ c, c ∈ child_task_head tk ∨ c ∈ dead_child_head tk → is_Some (tasks k !! c) ∧ c ≠ t ∧ c ≠ init) →
  free_paging_info (pdbr tk) (set_cr3 (kernel_pd (kvm k)) (kvm k)) = Ok tt v' →
  let U := handed_over (kernel_pd (kvm k)) t init tk ik (tasks k) in
  U !! parent tk = Some qk → unlocked_task qk → NoDup (cv_waiting (exit_cond_var qk)) →
  (∀ w, w ∈ cv_waiting (exit_cond_var qk) → is_Some (threads k !! w) ∧ w ∉ runnable_threads k) →
  ∃ ws rest, cv_waiting (exit_cond_var qk) = ws ++ rest ∧ (ws = [] → rest = []) ∧
    (filter (λ c, c ≠ t) (child_task_head qk) = [] → rest = []) ∧
    last_thread_exits t init k = Ok tt (set_runq (runnable_threads k ++ ws)
      (set_threads (set_runnable ws (threads k))
        (set_tasks (<[parent tk := set_waiting rest (bury t qk)]> U) (set_kvm v' k)))).
Proof.
  intros Ht Hut Hi Hui Hit Hkids Hfree U Hq Huq Hnd Hw.
  destruct Hut as [_ _ Hutv _ _ _ _]. destruct Hui as [Huic _ _ _ _ _ _].
  assert (t ∉ child_task_head tk ∧ t ∉ dead_child_head tk) as [Htc Htd].
  { split; intros Hin; by destruct (Hkids t) as (_ & ? & _); [naive_solver|]. }
  assert (init ∉ child_task_head tk ∧ init ∉ dead_child_head tk) as [Hic Hid].
  { split; intros Hin; by destruct (Hkids init) as (_ & _ & ?); [naive_solver|]. }
  set (R := reparented init (dead_child_head tk) (reparented init (child_task_head tk) (tasks k))).
  assert (R !! init = Some ik) as HRi.
  { unfold R. rewrite !reparented_lookup, Hi. cbn. by rewrite !decide_False. }
  unfold last_thread_exits. krun lock_run. krun the_task_run.
  erewrite bind_ok; [|apply reparent_run; intros c Hc; kred].
  2:{ destruct (Hkids c) as ([ck Hck] & Hne & _); [by left|]. rewrite lookup_insert_ne by done. by exists ck. }
  kred. cbn [child_task_head fput set_mutexes vanishing dead_child_head].
  rewrite reparented_insert by done.
  erewrite bind_ok; [|apply reparent_run; intros c Hc; kred].
  2:{ destruct (Hkids c) as ([ck Hck] & Hne & _); [by right|]. rewrite lookup_insert_ne by done.
      rewrite reparented_lookup, Hck. by eexists. }
  kred. rewrite reparented_insert by done. fold R.
  krun lock_run. krun the_task_run. krun the_task_run.
  unfold concat_lists at 1 2. cbv beta iota zeta.
  krun upd_task_run. krun upd_task_run. krun unlock_run. krun unlock_run. krun the_task_run.
  erewrite bind_ok; [|by apply in_vm_run]. kred. krun upd_task_run.
  erewrite bind_ok; [|by apply in_vm_run]. kred.
  erewrite bind_ok; [|apply in_vm_run; exact Hfree]. kred.
  match goal with |- context [mk_kern _ _ ?T] => assert (T = U) as -> end.
  { unfold U, handed_over. fold R. apply map_eq. intros j.
    destruct (decide (t = j)) as [<-|Hjt]; [|destruct (decide (init = j)) as [<-|Hji]];
      repeat first [rewrite lookup_insert_eq | rewrite lookup_insert_ne by done]; try done; f_equal.
    - destruct tk. cbn in *. by subst.
    - destruct ik. cbn in *. by subst. }
  krun upd_task_run. krun the_task_run. fold (bury t qk).
  assert (unlocked_task (bury t qk)) as Hub by (by destruct Huq).
  change (child_task_head (bury t qk)) with (filter (λ c, c ≠ t) (child_task_head qk)).
  set (k1 := mk_kern _ _ _ _ _ _ _ _ _ _).
  assert (tasks k1 !! parent tk = Some (bury t qk)) as Hq1 by apply lookup_insert_eq.
  destruct (filter _ (child_task_head qk)) as [|c l] eqn:Ef.
  - exists (cv_waiting (exit_cond_var qk)), []. rewrite app_nil_r. split_and!; [done|done|done|].
    erewrite cond_broadcast_run; [|exact Hq1|done..]. subst k1. kred. rewrite insert_insert_eq. done.
  - destruct (cond_signal_run k1 (parent tk) (bury t qk) Hq1 Hub Hnd Hw) as (ws & rest & E & Hnil & Hrun).
    exists ws, rest. split_and!; [done|done|done|]. etransitivity; [exact Hrun|].
    subst k1. kred. by rewrite insert_insert_eq.
Qed.

(** Tasks other than [t] after the handover. *)
Record handed (init : Z) (tk : task) (x : Z) (xk uk : task) : Prop := {
  hd_view : thread_view uk = thread_view xk;
  hd_pdbr : pdbr uk = pdbr xk;
  hd_locks : unlocked_task xk → unlocked_task uk;
  hd_parent : parent uk = if decide (x ∈ child_task_head tk ∨ x ∈ dead_child_head tk) then init else parent xk;
  hd_child : child_task_head uk = child_task_head xk ++ (if decide (x = init) then child_task_head tk else []);
  hd_dead : dead_child_head uk = dead_child_head xk ++ (if decide (x = init) then dead_child_head tk else []);
}.

Lemma handed_over_lookup kpd t init tk ik ts x xk :
  ts !! init = Some ik → x ≠ t → ts !! x = Some xk →
  init ∉ child_task_head tk → init ∉ dead_child_head tk →
  ∃ uk, handed_over kpd t init tk ik ts !! x = Some uk ∧ handed init tk x xk uk.
Proof.
  intros Hi Hne Hx Hc Hd. unfold handed_over. rewrite lookup_insert_ne by done.
  destruct (decide (init = x)) as [<-|Hxi].
  - rewrite lookup_insert_eq. eexists. split; [done|]. rewrite Hi in Hx. injection Hx as <-.
    split; cbn; try done; [by intros []| | |].
    + rewrite decide_False by naive_solver. done.
    + by rewrite decide_True.
    + by rewrite decide_True.
  - rewrite lookup_insert_ne, !reparented_lookup, Hx by done. cbn. eexists. split; [done|].
    split; try (destruct (decide (x ∈ dead_child_head tk)), (decide (x ∈ child_task_head tk)); done).
    + by destruct (decide (x ∈ dead_child_head tk)), (decide (x ∈ child_task_head tk)); intros [].
    + destruct (decide (x ∈ dead_child_head tk)), (decide (x ∈ child_task_head tk));
        repeat case_decide; naive_solver.
    + rewrite (decide_False (P := x = init)), app_nil_r by done.
      by destruct (decide (x ∈ dead_child_head tk)), (decide (x ∈ child_task_head tk)).
    + rewrite (decide_False (P := x = init)), app_nil_r by done.
      by destruct (decide (x ∈ dead_child_head tk)), (decide (x ∈ child_task_head tk)).
Qed.

Lemma handed_over_none kpd t init tk ik ts x :
  x ≠ t → x ≠ init → ts !! x = None → handed_over kpd t init tk ik ts !! x = None.
Proof.
  intros Ht Hi Hx. unfold handed_over. by rewrite !lookup_insert_ne, !reparented_lookup, Hx by done.
Qed.

Lemma family_handed kpd t init tk ik ts x xk :
  family_ok ts init → ts !! t = Some tk → alive tk → parent tk ≠ NULL → ts !! init = Some ik →
  x ≠ t → ts !! x = Some xk →
  ∃ uk, handed_over kpd t init (set_thread_head [] tk) ik (<[t := set_thread_head [] tk]> ts) !! x = Some uk ∧
    handed init tk x xk uk.
Proof.
  intros Hf Ht Hal Hpn Hi Hne Hx.
  destruct (fo_init _ _ Hf) as (ik' & Hi' & Hia & Hip). rewrite Hi in Hi'. injection Hi' as <-.
  assert (init ≠ t) as Hit by congruence.
  assert (t ≠ NULL) as Htn by (intros ->; by rewrite (fo_null _ _ Hf) in Ht).
  destruct (handed_over_lookup kpd t init (set_thread_head [] tk) ik (<[t := set_thread_head [] tk]> ts) x xk) as (uk & ? & []);
    [by rewrite lookup_insert_ne|done|by rewrite lookup_insert_ne| | |exists uk; split; [done|by split]].
  - intros (? & ? & ? & _)%(fo_children _ _ Hf t tk init Ht Hal). congruence.
  - intros (? & ? & ? & _)%(fo_dead _ _ Hf t tk init Ht Hal). congruence.
Qed.

(** The task table after the last thread of [t] vanished. *)
Definition exit_tasks (kpd t init : Z) (tk ik qk : task) (rest : list Z) ts : gmap Z task :=
  <[parent tk := set_waiting rest (bury t qk)]> (handed_over kpd t init (set_thread_head [] tk) ik
    (<[t := set_thread_head [] tk]> ts)).

Lemma exit_tasks_exited kpd t init tk ik qk rest ts :
  family_ok ts init → ts !! t = Some tk → alive tk → parent tk ≠ NULL → ts !! init = Some ik →
  handed_over kpd t init (set_thread_head [] tk) ik (<[t := set_thread_head [] tk]> ts) !! parent tk = Some qk →
  exited ts init t tk (exit_tasks kpd t init tk ik qk rest ts).
Proof.
  intros Hf Ht Hal Hpn Hi Hq.
  destruct (fo_parent _ _ Hf t tk Ht Hpn) as (Hqt & pk & Hpk & Hpa).
  destruct (fo_init _ _ Hf) as (ik' & Hi' & Hia & Hip). rewrite Hi in Hi'. injection Hi' as <-.
  assert (init ≠ t) as Hit by congruence.
  pose proof (fo_locks _ _ Hf) as Hul.
  pose proof (λ x xk, family_handed kpd t init tk ik ts x xk Hf Ht Hal Hpn Hi) as Hand.
  unfold exit_tasks. split.
  - eexists. rewrite lookup_insert_ne by done. unfold handed_over. rewrite lookup_insert_eq. split; [done|].
    specialize (Hul t tk Ht). split_and!; [by destruct Hul|by intros ?|done].
  - intros x Hx. rewrite lookup_insert_ne by congruence. apply handed_over_none; [congruence|congruence|].
    rewrite lookup_insert_ne; [done|congruence].
  - intros x xk Hne Hx. destruct (Hand x xk Hne Hx) as (uk & Hux & Hh).
    assert (∃ uk', (<[parent tk := set_waiting rest (bury t qk)]> (handed_over kpd t init (set_thread_head [] tk) ik
        (<[t := set_thread_head [] tk]> ts))) !! x = Some uk' ∧ (unlocked_task uk → unlocked_task uk') ∧
        (alive uk ↔ alive uk') ∧ parent uk' = parent uk ∧
        child_task_head uk' = (if decide (x = parent tk) then filter (λ c, c ≠ t) (child_task_head uk) else child_task_head uk) ∧
        dead_child_head uk' = (if decide (x = parent tk) then dead_child_head uk ++ [t] else dead_child_head uk)) as
      (uk' & Hx' & Hl & Ha & Hp' & Hc & Hd).
    { destruct (decide (x = parent tk)) as [->|Hxp].
      - rewrite lookup_insert_eq. eexists. split; [done|]. rewrite Hq in Hux. injection Hux as ->.
        split_and!; try done. by intros [].
      - rewrite lookup_insert_ne by done. by exists uk. }
    assert (alive xk ↔ alive uk) as Ha'.
    { unfold alive. pose proof (hd_view _ _ _ _ _ Hh) as E. unfold thread_view in E. injection E as -> _. done. }
    exists uk'. split_and!; [done|by apply Hl, (hd_locks _ _ _ _ _ Hh), (Hul x)|naive_solver|by rewrite Hp', (hd_parent _ _ _ _ _ Hh)| | |].
    + intros c. rewrite Hc, (hd_child _ _ _ _ _ Hh). destruct (decide (x = parent tk)), (decide (x = init));
        rewrite ?list_elem_of_filter, elem_of_app, ?elem_of_nil; naive_solver.
    + intros c. rewrite Hd, (hd_dead _ _ _ _ _ Hh). destruct (decide (x = parent tk)), (decide (x = init));
        rewrite !elem_of_app, ?elem_of_nil, ?list_elem_of_singleton; naive_solver.
    + intros Hxa. destruct (fo_nodup _ _ Hf x xk Hx Hxa) as [Hn1 Hn2]. destruct (fo_nodup _ _ Hf t tk Ht Hal) as [Hm1 Hm2].
      assert (NoDup (child_task_head uk)) as Hnc.
      { rewrite (hd_child _ _ _ _ _ Hh). destruct (decide (x = init)); [|by rewrite app_nil_r]. apply NoDup_app. split_and!; [done| |done].
        intros c (? & ? & ? & _)%(fo_children _ _ Hf x xk c Hx Hxa) (? & ? & ? & _)%(fo_children _ _ Hf t tk c Ht Hal). congruence. }
      assert (NoDup (dead_child_head uk) ∧ t ∉ dead_child_head uk) as [Hndd Htd].
      { rewrite (hd_dead _ _ _ _ _ Hh). split.
        - destruct (decide (x = init)); [|by rewrite app_nil_r]. apply NoDup_app. split_and!; [done| |done].
          intros c (? & ? & ? & _)%(fo_dead _ _ Hf x xk c Hx Hxa) (? & ? & ? & _)%(fo_dead _ _ Hf t tk c Ht Hal). congruence.
        - intros [(? & ? & _ & ?)%(fo_dead _ _ Hf x xk t Hx Hxa)|Hin]%elem_of_app; [by simplify_eq|].
          destruct (decide (x = init)); [|by apply elem_of_nil in Hin].
          apply (fo_dead _ _ Hf t tk t Ht Hal) in Hin as (? & ? & _ & ?). by simplify_eq. }
      rewrite Hc, Hd. destruct (decide (x = parent tk)); (split; [|]); try done; [by apply NoDup_filter|].
      apply NoDup_app. split_and!; [done| |by apply NoDup_singleton]. by intros c Hin ->%list_elem_of_singleton.
Qed.

(** Every task but [t] keeps its threads and its memory. *)
Lemma exit_tasks_back kpd t init tk ik qk rest ts x uk :
  family_ok ts init → ts !! t = Some tk → alive tk → parent tk ≠ NULL → ts !! init = Some ik →
  handed_over kpd t init (set_thread_head [] tk) ik (<[t := set_thread_head [] tk]> ts) !! parent tk = Some qk →
  x ≠ t → exit_tasks kpd t init tk ik qk rest ts !! x = Some uk →
  ∃ xk, ts !! x = Some xk ∧ pdbr uk = pdbr xk ∧ (alive uk ↔ alive xk).
Proof.
  intros Hf Ht Hal Hpn Hi Hq Hne Hx.
  destruct (fo_parent _ _ Hf t tk Ht Hpn) as (Hqt & pk & Hpk & Hpa).
  destruct (ts !! x) as [xk|] eqn:E.
  2:{ exfalso. pose proof (ex_none _ _ _ _ _ (exit_tasks_exited kpd t init tk ik qk rest ts Hf Ht Hal Hpn Hi Hq) x E). congruence. }
  destruct (family_handed kpd t init tk ik ts x xk Hf Ht Hal Hpn Hi Hne E) as (uk0 & Hu & Hh).
  exists xk. split; [done|]. assert (pdbr uk = pdbr uk0 ∧ thread_head uk = thread_head uk0) as [-> Eh].
  { unfold exit_tasks in Hx. apply lookup_insert_cases in Hx as [(<- & <-)|(_ & Hx)]; [|by rewrite Hu in Hx; simplify_eq].
    rewrite Hq in Hu. by injection Hu as ->. }
  split; [apply Hh|]. pose proof (hd_view _ _ _ _ _ Hh) as Ev. unfold thread_view in Ev. injection Ev as Ev _.
  unfold alive. by rewrite Eh, Ev.
Qed.

Lemma ids_ok_runnable ths mp n ws : ids_ok ths mp n → ids_ok (set_runnable ws ths) mp n.
Proof.
  assert (id <$> set_runnable ws ths = id <$> ths) as E.
  { apply map_eq. intros i. rewrite !lookup_fmap, set_runnable_lookup. destruct (ths !! i); [|done]. cbn. by case_decide. }
  intros [Hm Hr Hn]. split; [by rewrite E| |done]. intros x y Hx.
  assert ((id <$> set_runnable ws ths) !! x = Some (id y)) as Hi by (by rewrite lookup_fmap, Hx).
  rewrite E, lookup_fmap in Hi. apply fmap_Some in Hi as (y' & Hy' & ->). by eapply Hr.
Qed.

(** ** vanish *)
Lemma vanish_prefix k x y tk mp :
  kern_ok k → running k x y tk → remove_thread_from_map (ids k) (id y) (thread_map k) = Ok tt mp →
  let hd := filter (λ z, z ≠ x) (thread_head tk) in
  do_vanish k =
  ((match hd with [] => last_thread_exits (parent_task y) (init_task k) | _ :: _ => mret tt end) ;;
   thread_free_resources x ;; modify (set_curr None))
  (set_tasks (<[parent_task y := set_thread_head hd tk]> (tasks k)) (set_thread_map mp k)).
Proof.
  intros Hk [Hc Hx Ht] Hrm hd. destruct (fo_locks _ _ (ko_family _ Hk) _ _ Ht) as [_ Hl _ _ _ _ _].
  unfold do_vanish. krun curr_task_run. krun curr_thread_run. rewrite bind_gets. krun lock_run.
  unfold remove_thread_from_task. rewrite bind_assoc. krun the_thread_run.
  rewrite bind_assoc. erewrite bind_ok; [|apply in_map_run; exact Hrm]. kred.
  krun upd_task_run. krun the_task_run. krun unlock_run. rewrite !insert_insert_eq.
  assert (fput thread_list free_mutex (set_thread_head hd (fput thread_list held_mutex tk)) = set_thread_head hd tk) as <-.
  { destruct tk. cbn in *. by subst. }
  done.
Qed.

Lemma blocks_ok_remove b ts ts' ths x y n :
  blocks_ok b ts ths → ths !! x = Some y → (∀ a, is_Some (ts' !! a) → is_Some (ts !! a)) →
  blocks_ok (bh_sfree b x n) ts' (delete x ths).
Proof.
  intros [Hb1 Hb2] Hx Hts. split; intros a Ha; rewrite bh_free, elem_of_difference, elem_of_singleton.
  - destruct (Hb1 a (Hts a Ha)) as [? Hn]. assert (a ≠ x) by congruence. split_and!; [done|done|].
    by rewrite lookup_delete_ne.
  - destruct Ha as [w [Hne Ha]%lookup_delete_Some]. split; [|done]. apply Hb2. by eexists.
Qed.

Lemma vanish_not_last k x y tk :
  kern_ok k → running k x y tk → filter (λ z, z ≠ x) (thread_head tk) ≠ [] →
  ∃ k', do_vanish k = Ok tt k' ∧ kern_ok k' ∧ curr_thread k' = None ∧ threads k' = delete x (threads k) ∧
    runnable_threads k' = runnable_threads k ∧ kvm k' = kvm k ∧
    tasks k' = <[parent_task y := set_thread_head (filter (λ z, z ≠ x) (thread_head tk)) tk]> (tasks k).
Proof.
  intros Hk Hr Hhd. pose proof (running_alive _ _ _ _ Hk Hr) as Hal.
  destruct (remove_id _ _ _ _ _ (ko_ids _ Hk) (rn_thread _ _ _ _ Hr)) as (mp & Hrm & Hids).
  rewrite (vanish_prefix k x y tk mp Hk Hr Hrm). set (hd := filter _ _) in *. destruct Hr as [Hc Hx Ht].
  assert (∃ k1, (match hd with [] => last_thread_exits (parent_task y) (init_task k) | _ :: _ => mret tt end)
     (set_tasks (<[parent_task y := set_thread_head hd tk]> (tasks k)) (set_thread_map mp k)) = Ok tt k1 ∧
     k1 = set_tasks (<[parent_task y := set_thread_head hd tk]> (tasks k)) (set_thread_map mp k)) as (k1 & Hrun & ->).
  { destruct hd; [done|]. by eexists. }
  rewrite (bind_ok _ _ _ _ _ Hrun). clear Hrun. kred.
  erewrite bind_ok; [|eapply thread_free_run; [klook|by apply (th_locks _ _ _ _ (ko_threads _ Hk) x)]]. kred.
  eexists. split; [done|]. kred. split; [|done]. split; kred; try done.
  - eapply family_ok_upd; [by apply Hk|done|]. split; try done. by intros [].
  - pose proof (ko_threads _ Hk) as Ho. rewrite Hc in Ho. by eapply threads_ok_remove.
  - by apply Hk.
  - eapply blocks_ok_remove; [by apply Hk|done|]. intros a [ak [(<- & <-)|(_ & Ha)]%lookup_insert_cases]; by eexists.
  - by eapply mem_ok_upd; [apply Hk|..].
Qed.

Lemma vanish_last k x y tk :
  kern_ok k → running k x y tk → filter (λ z, z ≠ x) (thread_head tk) = [] → parent tk ≠ NULL →
  ∃ k' ik qk ws rest, do_vanish k = Ok tt k' ∧ kern_ok k' ∧ curr_thread k' = None ∧
    tasks k !! init_task k = Some ik ∧
    handed_over (kernel_pd (kvm k)) (parent_task y) (init_task k) (set_thread_head [] tk) ik
      (<[parent_task y := set_thread_head [] tk]> (tasks k)) !! parent tk = Some qk ∧
    cv_waiting (exit_cond_var qk) = ws ++ rest ∧ (ws = [] → rest = []) ∧
    (filter (λ c, c ≠ parent_task y) (child_task_head qk) = [] → rest = []) ∧
    threads k' = delete x (set_runnable ws (threads k)) ∧ runnable_threads k' = runnable_threads k ++ ws ∧
    tasks k' = exit_tasks (kernel_pd (kvm k)) (parent_task y) (init_task k) tk ik qk rest (tasks k).
Proof.
  intros Hk Hr Hhd Hpn. pose proof (running_alive _ _ _ _ Hk Hr) as Hal.
  pose proof (ko_family _ Hk) as Hf. pose proof (ko_threads _ Hk) as Ho.
  destruct (remove_id _ _ _ _ _ (ko_ids _ Hk) (rn_thread _ _ _ _ Hr)) as (mp & Hrm & Hids).
  rewrite (vanish_prefix k x y tk mp Hk Hr Hrm), Hhd. destruct Hr as [Hc Hx Ht].
  set (t := parent_task y) in *. set (init := init_task k) in *.
  destruct (fo_init _ _ Hf) as (ik & Hi & Hia & Hip).
  assert (init ≠ t) as Hit by congruence.
  assert (t ≠ NULL) as Htn by (intros E; rewrite E in Ht; by rewrite (fo_null _ _ Hf) in Ht).
  destruct (fo_parent _ _ Hf t tk Ht Hpn) as (Hqt & pk & Hpk & Hpa).
  destruct (ko_mem _ Hk) as (own & pds & fs & Hwf & Hcow & Hin & Hinj).
  pose proof (Hin t tk Ht Hal) as Hpd.
  set (v1 := set_cr3 (kernel_pd (kvm k)) (kvm k)).
  assert (vm_wf none v1 own pds fs) as Hwf1 by (by apply wf_set_cr3).
  destruct (free_paging_info_ok v1 own pds fs (pdbr tk) Hwf1 Hpd) as (v' & fs' & Hfree & Hwf' & _ & _ & _ & _ & Hkm & _).
  assert (cow_ok v' (disown_dir v1 (pdbr tk) own)) as Hcow' by (by eapply cow_ok_free).
  destruct (family_handed (kernel_pd (kvm k)) t init tk ik (tasks k) (parent tk) pk Hf Ht Hal Hpn Hi Hqt Hpk) as (qk & Hq & Hh).
  assert (thread_view qk = thread_view pk) as Ev by apply Hh. unfold thread_view in Ev. injection Ev as Eh Ew.
  set (k1 := set_tasks (<[t := set_thread_head [] tk]> (tasks k)) (set_thread_map mp k)).
  destruct (last_exits_run k1 t init (set_thread_head [] tk) ik v' qk) as (ws & rest & Hws & Hnil & Hbc & Hrun);
    [by apply lookup_insert_eq|by destruct (fo_locks _ _ Hf t tk Ht)|by unfold k1; kred; rewrite lookup_insert_ne|
     by eapply fo_locks|done| |done|done|by eapply Hh, fo_locks|rewrite Ew; by eapply th_waiting_nodup| |].
  { intros c Hor. assert (∃ ck, tasks k !! c = Some ck ∧ parent ck = t) as (ck & Hck & Hcp).
    { destruct Hor as [(? & ? & ? & _)%(fo_children _ _ Hf t tk c Ht Hal)|(? & ? & ? & _)%(fo_dead _ _ Hf t tk c Ht Hal)]; eauto. }
    assert (c ≠ t). { intros ->. destruct (fo_parent _ _ Hf t ck Hck) as [? _]; congruence. }
    unfold k1. kred. rewrite lookup_insert_ne by done. split_and!; [by eexists|done|congruence]. }
  { rewrite Ew. intros w Hw. destruct (th_waiting _ _ _ _ Ho _ _ _ Hpk Hw) as (wy & Hwy & _ & Hst).
    split; [by eexists|]. intros (wy' & Hwy' & Hst')%(th_runq _ _ _ _ Ho). rewrite Hwy in Hwy'. injection Hwy' as <-.
    rewrite Hst in Hst'. done. }
  rewrite (bind_ok _ _ _ _ _ Hrun). clear Hrun. unfold k1. kred.
  assert (∃ y', set_runnable ws (threads k) !! x = Some y' ∧ deschedule_mutex y' = deschedule_mutex y ∧
    deschedule_cond_var y' = deschedule_cond_var y) as (y' & Hy' & Hm' & Hc').
  { rewrite set_runnable_lookup, Hx. cbn. eexists. split; [done|]. by case_decide. }
  erewrite bind_ok; [|eapply thread_free_run; [klook|rewrite Hm', Hc'; by apply (th_locks _ _ _ _ Ho x)]]. kred.
  eexists _, ik, qk, ws, rest. split; [done|]. kred. split; [|done].
  match goal with |- kern_ok (mk_kern _ _ ?F _ _ _ _ _ _ _) =>
    change F with (exit_tasks (kernel_pd (kvm k)) t init tk ik qk rest (tasks k)) end.
  fold init.
  pose proof (exit_tasks_exited (kernel_pd (kvm k)) t init tk ik qk rest (tasks k) Hf Ht Hal Hpn Hi Hq) as Hex.
  split; kred; try done.
  - eapply family_ok_exit; [exact Hf|exact Ht|exact Hal|exact Hpn|exact Hex].
  - rewrite <- set_runnable_delete. unfold exit_tasks.
    rewrite <- (insert_insert_eq _ (parent tk) _ (bury t qk)). apply threads_ok_wake; [|by rewrite lookup_insert_eq|done].
    rewrite Hc in Ho. eapply threads_ok_ext; [eapply (threads_ok_remove _ _ _ _ _ t tk (set_thread_head [] tk)); [exact Ho|done|done|done|by rewrite Hhd|done]|].
    intros z. destruct (decide (z = t)) as [->|Hzt].
    + rewrite lookup_insert_ne by done. unfold handed_over. by rewrite !lookup_insert_eq.
    + rewrite (lookup_insert_ne _ t z) by done. destruct (decide (parent tk = z)) as [<-|Hzq].
      * rewrite lookup_insert_eq, Hpk. apply (f_equal Some). exact (hd_view _ _ _ _ _ Hh).
      * rewrite lookup_insert_ne by done. destruct (tasks k !! z) as [zk|] eqn:Hz.
        -- destruct (family_handed (kernel_pd (kvm k)) t init tk ik (tasks k) z zk Hf Ht Hal Hpn Hi Hzt Hz) as (uk & -> & Hzh).
           apply (f_equal Some). exact (hd_view _ _ _ _ _ Hzh).
        -- rewrite handed_over_none; [done|done|congruence|by rewrite lookup_insert_ne].
  - rewrite <- set_runnable_delete. by apply ids_ok_runnable.
  - by apply Hk.
  - rewrite <- set_runnable_delete. assert (blocks_ok (bh_sfree (blocks k) x sizeof_thread_struct)
      (exit_tasks (kernel_pd (kvm k)) t init tk ik qk rest (tasks k)) (delete x (threads k))) as [Hb1 Hb2].
    { eapply blocks_ok_remove; [by apply Hk|done|]. intros a Ha. destruct (tasks k !! a) eqn:E; [done|].
      rewrite (ex_none _ _ _ _ _ Hex a E) in Ha. by destruct Ha. }
    split; intros a Ha.
    + destruct (Hb1 a Ha) as [? E]. split; [done|]. by rewrite set_runnable_lookup, E.
    + apply Hb2. rewrite set_runnable_lookup in Ha. by destruct (delete x (threads k) !! a).
  - exists (disown_dir v1 (pdbr tk) own), (pds ∖ {[pdbr tk]}), fs'.
    assert (∀ z zk, exit_tasks (kernel_pd (kvm k)) t init tk ik qk rest (tasks k) !! z = Some zk → alive zk →
      z ≠ t ∧ ∃ zk0, tasks k !! z = Some zk0 ∧ alive zk0 ∧ pdbr zk = pdbr zk0) as Hback.
    { intros z zk Hz Hza. destruct (ex_self _ _ _ _ _ Hex) as (tk' & Ht' & _ & Hna & _).
      assert (z ≠ t) as Hzt by (intros ->; by simplify_eq). split; [done|].
      destruct (exit_tasks_back (kernel_pd (kvm k)) t init tk ik qk rest (tasks k) z zk) as (zk0 & ? & ? & ?); try done. naive_solver. }
    split_and!; [done|done| |].
    + intros z zk Hz Hza. destruct (Hback z zk Hz Hza) as (Hzt & zk0 & ? & ? & ->).
      apply elem_of_difference. split; [by eapply Hin|]. rewrite elem_of_singleton. intros E. by apply Hzt, (Hinj z zk0 t tk).
    + intros z zk z' zk' Hz Hza Hz' Hza' E. destruct (Hback z zk Hz Hza) as (_ & zk0 & ? & ? & E1).
      destruct (Hback z' zk' Hz' Hza') as (_ & zk0' & ? & ? & E2). eapply (Hinj z zk0 z' zk0'); congruence.
Qed.
End vanish.
