(* ===== verification/Wait.v ===== *)
(** * wait: reaping a dead child, failing, or going to sleep *)

From S2P Require Import Prelude Locks FrameAlloc Paging VM VMInv VMPages VMMap VMCow VMFault VMQuery VMTheorems CString UserMem Regs ThreadMap Tasks Family TaskRun Fork Vanish.

Section wait.
Context {H : Type} `{KernelHeapSpec H} {B : Type} `{BlockHeapSpec B}.
Variable iret_fun_addr : Z.
Implicit Types (k : @kern H B) (ts : gmap Z task) (ths : gmap Z thread).

(** ** The status pointer of wait *)

(** A store to user memory changes bytes of frames and nothing else. *)
Lemma write_bytes_shape (v v' : vm H) va l : write_bytes va l v = Ok tt v' → ∃ ph, v' = set_phys ph v.
Proof.
  revert va v. induction l as [|b l IH]; intros va v Hw; cbn in Hw.
  { injection Hw as <-. exists (phys v). by destruct v. }
  apply bind_inv in Hw as ([] & v1 & H1' & H2'). apply IH in H2' as [ph ->].
  unfold write_user in H1'. destruct (is_user va); [|done].
  rewrite bind_get in H1'. destruct (translate v (cr3 v) va); [|done]. injection H1' as <-. by eexists.
Qed.

Lemma write_bytes_total (v : vm H) va l :
  (∀ a, va ≤ a < va + Z.of_nat (length l) → is_user a = true ∧ is_Some (pte_at v (cr3 v) a)) →
  ∃ v', write_bytes va l v = Ok tt v'.
Proof.
  revert va v. induction l as [|b l IH]; intros va v Hall; [by eexists|].
  destruct (Hall va) as [Hu Hp]; [cbn; lia|]. apply translate_mapped in Hp as [f Hf].
  cbn [write_bytes]. unfold write_user at 1. rewrite Hu.
  rewrite bind_assoc, bind_get, Hf. cbn.
  destruct (IH (va + 1) (put_byte f (va mod 4096) b v)) as [v' Hv'].
  { intros a Ha. apply Hall. cbn. lia. }
  exists v'. exact Hv'.
Qed.

(** The pointer is NULL or points to a writable word. *)
Definition status_target (v : vm H) (ptr : Z) : Prop :=
  ptr = NULL ∨
  query_range ptr 4 ∧ (∃ e, pte_at v (cr3 v) ptr = Some e ∧ writable e = true) ∧
  ∀ a, ptr ≤ a < ptr + 4 → is_Some (pte_at v (cr3 v) a).

Lemma wait_guard_ok k x y pk ptr :
  kern_ok k → running k x y pk → status_target (kvm k) ptr →
  (if decide (ptr = NULL) then mret false
   else
     v ← in_vm (is_pointer_valid ptr 4);
     if decide (v < 0) then mret true
     else w ← in_vm (is_memory_writable ptr 4); mret (bool_decide (w < 0))) k = Ok false k.
Proof.
  intros Hk Hr [->|(Hq & (e & He & Hwr) & Hall)]; [done|]. pose proof (running_alive _ _ _ _ Hk Hr) as Hal.
  destruct Hr as [Hc Hx Hp]. destruct (ko_mem _ Hk) as (own & pds & fs & Hwf & _ & Hin & _).
  assert (cr3 (kvm k) ∈ pds) as Hcr by (rewrite (ko_cr3 _ Hk x y pk) by done; by eapply Hin).
  destruct Hq as (Hu & Hlen & Htop). rewrite decide_False by (unfold NULL, USER_MEM_START in *; lia).
  destruct (is_memory_range_mapped_ok _ _ _ _ ptr 4 Hwf Hcr) as (r & Hrun & Hcase); [by split_and!|].
  assert (word ptr) as Hw by (unfold word, USER_MEM_START in *; lia).
  destruct Hcase as [[-> _]|[_ Hno]].
  2:{ rewrite Hno in He; [done|done|]. unfold page_of. pose proof (Z.mod_pos_bound ptr 4096 ltac:(lia)). lia. }
  assert (is_pointer_valid ptr 4 (kvm k) = Ok 0 (kvm k)) as Hv.
  { unfold is_pointer_valid. rewrite decide_False by lia. by rewrite (bind_ok _ _ _ _ _ Hrun). }
  erewrite bind_ok; [|apply in_vm_run; exact Hv]. rewrite decide_False by done.
  erewrite bind_ok; [|apply in_vm_run; kred; by eapply is_memory_writable_ok]. kred.
  rewrite He, Hwr. by destruct k.
Qed.

Lemma status_write k x y pk ptr st :
  kern_ok k → running k x y pk → status_target (kvm k) ptr → ptr ≠ NULL →
  ∃ ph, write_word ptr (u32 st) (kvm k) = Ok tt (set_phys ph (kvm k)).
Proof.
  intros Hk Hr [->|((Hu & _ & Htop) & _ & Hall)] Hn; [done|].
  destruct (write_bytes_total (kvm k) ptr (le4 (u32 st))) as [v' Hv].
  - intros a Ha. assert (ptr ≤ a < ptr + 4) as Ha' by (cbn in Ha; lia).
    split; [apply is_user_true; unfold USER_MEM_START in *; lia|by apply Hall].
  - destruct (write_bytes_shape _ _ _ _ Hv) as [ph ->]. by exists ph.
Qed.

(** ** Reaping *)
Lemma destroy_run k d dk :
  tasks k !! d = Some dk → unlocked_task dk →
  destroy_task d k = Ok tt (set_blocks (bh_sfree (blocks k) d sizeof_task_struct) (set_tasks (delete d (tasks k)) k)).
Proof.
  intros Hd [Hc Ht Hv Hf He Hs Hq].
  assert (∀ f (k1 : @kern H B) dk1, tasks k1 !! d = Some dk1 → fget f dk1 = free_mutex →
    task_mutex d f mutex_destroy k1 =
    Ok tt (set_tasks (<[d := fput f (mk_mutex MUTEX_INVALID []) dk1]> (tasks k1)) k1)) as Hstep.
  { intros f k1 dk1 Hd1 Hf1. unfold task_mutex. rewrite (bind_ok _ _ _ _ _ (the_task_run _ _ _ Hd1)), Hf1. done. }
  unfold destroy_task.
  do 5 (erewrite bind_ok; [|eapply Hstep; [klook|done]]; kred; rewrite ?insert_insert_eq).
  krun the_task_run. destruct dk as [??????????? [cs cw cq] ?????]. cbn in Hs, Hq. subst cs cq.
  assert (cond_destroy (mk_cond COND_VAR_VALID cw free_mutex) =
    Ok tt (mk_cond COND_VAR_INVALID cw (mk_mutex MUTEX_INVALID []))) as Hcd by done.
  cbn [exit_cond_var fput child_list thread_list vanishing forking execing set_mutexes].
  rewrite Hcd. unfold put_task. rewrite bind_modify. kred. rewrite bind_modify. kred.
  unfold sfree, modify. kred. by rewrite !delete_insert_eq.
Qed.

Lemma kern_ok_write k ph : kern_ok k → kern_ok (set_kvm (set_phys ph (kvm k)) k).
Proof.
  intros [? ? ? ? ? (own & pds & fs & Hwf & Hcow & ?) ?]. split; kred; try done.
  exists own, pds, fs. split; [by destruct Hwf|done].
Qed.

Lemma kern_ok_reap k p pk d rest :
  kern_ok k → tasks k !! p = Some pk → alive pk → dead_child_head pk = d :: rest →
  kern_ok (set_blocks (bh_sfree (blocks k) d sizeof_task_struct)
    (set_tasks (delete d (<[p := set_children (child_task_head pk) rest pk]> (tasks k))) k)).
Proof.
  intros Hk Hp Hal Hd. pose proof (ko_family _ Hk) as Hf. pose proof (ko_threads _ Hk) as Ho.
  destruct (proj1 (fo_dead _ _ Hf p pk d Hp Hal)) as (dk & Hdk & Hdp & Hda); [rewrite Hd; left|].
  assert (d ≠ p) as Hdne by (intros ->; by simplify_eq).
  assert (∀ x y, threads k !! x = Some y → parent_task y ≠ d) as Hnt.
  { intros x y Hx <-. apply Hda. intros E. assert (x ∈ thread_head dk) as Hin by (apply (th_members _ _ _ _ Ho _ _ _ Hdk); eauto).
    rewrite E in Hin. by apply elem_of_nil in Hin. }
  assert (∀ t tk, delete d (<[p := set_children (child_task_head pk) rest pk]> (tasks k)) !! t = Some tk →
    t ≠ d ∧ ∃ tk0, tasks k !! t = Some tk0 ∧ thread_head tk = thread_head tk0 ∧ pdbr tk = pdbr tk0 ∧
      exit_cond_var tk = exit_cond_var tk0) as Hb.
  { intros t tk [Hne [(<- & <-)|(_ & Ht)]%lookup_insert_cases]%lookup_delete_Some; (split; [done|]); eauto 10. }
  split; kred; try apply Hk.
  - by apply family_ok_reap.
  - split; try apply Ho.
    + intros t tk x (_ & tk0 & ? & -> & _)%Hb. by apply Ho.
    + intros t tk (_ & tk0 & ? & -> & _)%Hb. by eapply th_nodup.
    + intros x y Hx. rewrite lookup_delete_ne by (symmetry; by eapply Hnt).
      destruct (decide (p = parent_task y)) as [<-|]; [by rewrite lookup_insert_eq|].
      rewrite lookup_insert_ne by done. by eapply th_task.
    + intros t tk x (_ & tk0 & ? & _ & _ & ->)%Hb. by eapply th_waiting.
    + intros t tk (_ & tk0 & ? & _ & _ & ->)%Hb. by eapply th_waiting_nodup.
  - destruct (ko_blocks _ Hk) as [Hb1 Hb2]. split; intros a Ha; rewrite bh_free, elem_of_difference, elem_of_singleton.
    + destruct Ha as [ak (Hne & ak0 & Ha & _)%Hb]. destruct (Hb1 a ltac:(by eexists)). done.
    + split; [by apply Hb2|]. intros ->. destruct (Hb1 d ltac:(by eexists)) as [_ E]. rewrite E in Ha. by destruct Ha.
  - destruct (ko_mem _ Hk) as (own & pds & fs & Hwf & Hcow & Hin & Hinj). exists own, pds, fs. split_and!; [done|done| |].
    + intros t tk (_ & tk0 & ? & Eh & -> & _)%Hb Ha. eapply Hin; [done|]. unfold alive in *. by rewrite <- Eh.
    + intros t tk t' tk' (_ & tk0 & ? & Eh & -> & _)%Hb Ha (_ & tk0' & ? & Eh' & -> & _)%Hb Ha'.
      eapply Hinj; try done; unfold alive in *; congruence.
  - intros x y tk Hx Hy (_ & tk0 & Ht & _ & -> & _)%Hb. by eapply (ko_cr3 _ Hk).
Qed.

Lemma wait_reaps k x y pk ptr d rest :
  kern_ok k → running k x y pk → status_target (kvm k) ptr → dead_child_head pk = d :: rest →
  ∃ dk k', tasks k !! d = Some dk ∧ do_wait ptr k = Ok (Some (t_id dk)) k' ∧ kern_ok k' ∧
    tasks k' = delete d (<[parent_task y := set_children (child_task_head pk) rest pk]> (tasks k)) ∧
    threads k' = threads k ∧ curr_thread k' = curr_thread k ∧
    (if decide (ptr = NULL) then kvm k' = kvm k
     else write_word ptr (u32 (exit_status dk)) (kvm k) = Ok tt (kvm k')).
Proof.
  intros Hk Hr Htgt Hd. pose proof (running_alive _ _ _ _ Hk Hr) as Hal. pose proof (ko_family _ Hk) as Hf.
  pose proof (wait_guard_ok k x y pk ptr Hk Hr Htgt) as Hg.
  destruct (proj1 (fo_dead _ _ Hf _ pk d (rn_task _ _ _ _ Hr) Hal)) as (dk & Hdk & Hdp & Hda); [rewrite Hd; left|].
  assert (∃ ph, (if decide (ptr ≠ NULL) then write_word ptr (u32 (exit_status dk)) else mret tt) (kvm k) =
    Ok tt (set_phys ph (kvm k))) as [ph Hst].
  { destruct (decide (ptr ≠ NULL)); [by apply (status_write k x y pk)|]. exists (phys (kvm k)). by destruct (kvm k). }
  destruct Hr as [Hc Hx Hp]. assert (d ≠ parent_task y) as Hdne by (intros ->; by simplify_eq).
  pose proof (fo_locks _ _ Hf _ _ Hp) as Hul. destruct Hul as [Hlc _ _ _ _ _ _].
  exists dk. eexists. split; [done|]. split.
  { unfold do_wait. rewrite (bind_ok _ _ _ _ _ Hg). krun curr_task_run. krun lock_run.
    unfold wait_loop. krun curr_task_run. krun the_task_run.
    cbn [dead_child_head fput child_list set_mutexes]. rewrite Hd.
    krun upd_task_run. krun unlock_run. krun the_task_run. rewrite !insert_insert_eq.
    assert (∀ m : @kern H B, kvm m = kvm k → (if decide (ptr ≠ NULL) then in_vm (write_word ptr (u32 (exit_status dk))) else mret tt) m =
      Ok tt (set_kvm (set_phys ph (kvm k)) m)) as Hwr.
    { intros m Em. destruct (decide (ptr ≠ NULL)).
      - apply in_vm_run. by rewrite Em.
      - cbn in Hst. injection Hst as <-. rewrite <- Em. by destruct m. }
    erewrite bind_ok; [|by apply Hwr]. kred.
    erewrite bind_ok; [|eapply destroy_run; [klook|by eapply fo_locks]]. kred. done. }
  match goal with |- kern_ok (mk_kern _ _ (delete d (<[parent_task y := ?r]> _)) _ _ _ _ _ _ _) ∧ _ =>
    assert (r = set_children (child_task_head pk) rest pk) as -> end.
  { destruct pk. cbn in *. by subst. }
  split.
  { apply (kern_ok_write _ ph) in Hk. exact (kern_ok_reap _ _ _ _ _ Hk Hp Hal Hd). }
  kred. split_and!; [done|done|done|]. destruct (decide (ptr = NULL)) as [->|Hn].
  - rewrite decide_False in Hst by naive_solver. by injection Hst.
  - by rewrite decide_True in Hst.
Qed.

(** The caller of [wait] joins the queue of the exit condition and sleeps. *)
Definition asleep k (x : Z) (y : thread) (pk : task) : @kern H B :=
  set_threads (<[x := set_status WAITING y]> (threads k))
    (set_tasks (<[parent_task y := set_waiting (cv_waiting (exit_cond_var pk) ++ [x]) pk]> (tasks k)) k).

Lemma wait_sleeps k x y pk ptr :
  kern_ok k → running k x y pk → status_target (kvm k) ptr → dead_child_head pk = [] → child_task_head pk ≠ [] →
  do_wait ptr k = Ok None (asleep k x y pk).
Proof.
  intros Hk Hr Htgt Hd Hch. pose proof (wait_guard_ok k x y pk ptr Hk Hr Htgt) as Hg.
  destruct Hr as [Hc Hx Hp].
  destruct (fo_locks _ _ (ko_family _ Hk) _ _ Hp) as [Hlc _ _ _ _ Hv Hm].
  unfold do_wait. rewrite (bind_ok _ _ _ _ _ Hg). krun curr_task_run. krun lock_run.
  unfold wait_loop. krun curr_task_run. krun the_task_run.
  cbn [dead_child_head child_task_head fput child_list set_mutexes]. rewrite Hd.
  destruct (child_task_head pk) as [|c l] eqn:E; [done|]. unfold cond_wait. rewrite bind_assoc. krun the_task_run.
  rewrite bind_assoc. erewrite bind_ok; [|apply thread_assert_true; apply bool_decide_true; cbn; by rewrite Hv].
  rewrite bind_assoc. krun lock_run. rewrite bind_assoc. krun curr_thread_run. rewrite bind_assoc. krun upd_task_run.
  rewrite bind_assoc. krun unlock_run. rewrite bind_assoc. krun upd_thread_run. krun unlock_run.
  rewrite !insert_insert_eq. unfold asleep. kred. repeat f_equal.
  destruct pk as [??????????? [cs cw cq] ?????]. cbn in *. by subst.
Qed.

Lemma wait_fails k x y pk ptr :
  kern_ok k → running k x y pk → status_target (kvm k) ptr → dead_child_head pk = [] → child_task_head pk = [] →
  do_wait ptr k = Ok (Some ERR_FAILURE) k.
Proof.
  intros Hk Hr Htgt Hd Hch. pose proof (wait_guard_ok k x y pk ptr Hk Hr Htgt) as Hg.
  destruct Hr as [Hc Hx Hp]. destruct (fo_locks _ _ (ko_family _ Hk) _ _ Hp) as [Hlc _ _ _ _ Hv Hm].
  unfold do_wait. rewrite (bind_ok _ _ _ _ _ Hg). krun curr_task_run. krun lock_run.
  unfold wait_loop. krun curr_task_run. krun the_task_run.
  cbn [dead_child_head child_task_head fput child_list set_mutexes]. rewrite Hd, Hch.
  krun unlock_run. rewrite insert_insert_eq, insert_id; [by destruct k|]. rewrite Hp. f_equal.
  destruct pk. cbn in *. by subst.
Qed.
End wait.
