(* ===== verification/Lifecycle.v ===== *)
(** * The life cycle of tasks: theorems about fork, vanish, wait and the kernel invariant

    [kstep] is one step of the kernel as seen by its processes: a system call of
    the running thread, its preemption or the dispatch of a runnable thread.
    The file ends with a concrete kernel, init with two threads and a dead
    child, at which the theorems are applied. *)

From S2P Require Import Prelude Locks FrameAlloc Paging VM VMInv VMPages VMMap VMCow VMFault VMQuery VMTheorems CString UserMem Regs ThreadMap Tasks Family TaskRun Fork Vanish Wait.

Section lifecycle.
Context {H : Type} `{KernelHeapSpec H} {B : Type} `{BlockHeapSpec B}.
Variable iret_fun_addr : Z.
Implicit Types (k : @kern H B) (ts : gmap Z task) (ths : gmap Z thread).

(** ** The status of one thread changes *)
Lemma kern_ok_status k x y st rq cur ts' v :
  kern_ok k → threads k !! x = Some y →
  threads_ok ts' (<[x := set_status st y]> (threads k)) rq cur →
  family_ok ts' (init_task k) → mem_ok v ts' →
  (∀ a, is_Some (ts' !! a) → is_Some (tasks k !! a)) →
  (∀ x' y' tk, cur = Some x' → <[x := set_status st y]> (threads k) !! x' = Some y' →
     ts' !! parent_task y' = Some tk → cr3 v = pdbr tk) →
  kern_ok (set_kvm v (set_curr cur (set_runq rq (set_threads (<[x := set_status st y]> (threads k)) (set_tasks ts' k))))).
Proof.
  intros Hk Hx Ho Hf Hm Hd Hcr. split; kred; try done.
  - eapply ids_ok_upd; [by apply Hk|done|done].
  - by apply Hk.
  - destruct (ko_blocks _ Hk) as [Hb1 Hb2]. split; intros a Ha.
    + destruct (Hb1 a (Hd a Ha)) as [? E]. split; [done|]. rewrite lookup_insert_ne; [done|congruence].
    + apply Hb2. destruct Ha as [ay [(<- & <-)|(_ & Ha)]%lookup_insert_cases]; by eexists.
Qed.

Lemma threads_ok_status ts ts' ths rq rq' cur cur' x y st :
  threads_ok ts ths rq cur → ths !! x = Some y →
  (∀ t, thread_head <$> ts' !! t = thread_head <$> ts !! t) →
  (∀ t tk' z, ts' !! t = Some tk' → z ∈ cv_waiting (exit_cond_var tk') →
     (z ≠ x ∧ ∃ tk, ts !! t = Some tk ∧ z ∈ cv_waiting (exit_cond_var tk)) ∨
     (z = x ∧ st = WAITING ∧ parent_task y = t)) →
  (∀ t tk', ts' !! t = Some tk' → NoDup (cv_waiting (exit_cond_var tk'))) →
  (∀ z, z ∈ rq' → z ≠ x ∧ z ∈ rq ∨ z = x ∧ st = RUNNABLE) → NoDup rq' →
  (∀ z, cur' = Some z → z = x ∧ st = RUNNING) →
  threads_ok ts' (<[x := set_status st y]> ths) rq' cur'.
Proof.
  intros Ho Hx Hh Hw Hwn Hrq Hrqn Hcur.
  assert (∀ t tk', ts' !! t = Some tk' → ∃ tk, ts !! t = Some tk ∧ thread_head tk' = thread_head tk) as Hb.
  { intros t tk' Ht. specialize (Hh t). rewrite Ht in Hh. symmetry in Hh. apply fmap_Some in Hh as (tk & ? & ?). eauto. }
  assert (∀ z w', <[x := set_status st y]> ths !! z = Some w' → ∃ w, ths !! z = Some w ∧ parent_task w' = parent_task w ∧
    deschedule_mutex w' = deschedule_mutex w ∧ deschedule_cond_var w' = deschedule_cond_var w ∧ k_stack w' = k_stack w) as Hy.
  { intros z w' [(<- & <-)|(_ & Hz)]%lookup_insert_cases; [by exists y|by exists w']. }
  assert (∀ z w, ths !! z = Some w → ∃ w', <[x := set_status st y]> ths !! z = Some w' ∧ parent_task w' = parent_task w) as Hf.
  { intros z w Hz. destruct (decide (x = z)) as [<-|Hne].
    - rewrite lookup_insert_eq. eexists. split; [done|]. by simplify_eq.
    - rewrite lookup_insert_ne by done. eauto. }
  split; try done.
  - intros t tk' z (tk & Ht & ->)%Hb. rewrite (th_members _ _ _ _ Ho t tk z Ht). split.
    + intros (w & (w' & ? & ?)%Hf & ?). exists w'. split; [done|congruence].
    + intros (w' & (w & ? & ? & _)%Hy & ?). exists w. split; [done|congruence].
  - intros t tk' (tk & Ht & ->)%Hb. by eapply th_nodup.
  - intros z w' (w & Hz & -> & _)%Hy. destruct (th_task _ _ _ _ Ho z w Hz) as [tk Ht].
    specialize (Hh (parent_task w)). rewrite Ht in Hh. apply fmap_Some in Hh as (? & ? & _). by eexists.
  - intros z w' (w & Hz & _ & -> & -> & _)%Hy. by eapply th_locks.
  - intros z w' (w & Hz & _ & _ & _ & ->)%Hy. by eapply th_stack.
  - intros z [(Hne & Hz)|(-> & ->)]%Hrq.
    + rewrite lookup_insert_ne by done. by apply Ho.
    + exists (set_status RUNNABLE y). by rewrite lookup_insert_eq.
  - intros t tk' z Ht Hz. destruct (Hw t tk' z Ht Hz) as [(Hne & tk & Htk & Hin)|(-> & -> & Hp)].
    + rewrite lookup_insert_ne by done. by eapply th_waiting.
    + exists (set_status WAITING y). by rewrite lookup_insert_eq.
  - intros z (-> & ->)%Hcur. exists (set_status RUNNING y). by rewrite lookup_insert_eq.
Qed.

(** The running thread is in no queue. *)
Lemma running_not_queued k x y pk :
  kern_ok k → running k x y pk → x ∉ runnable_threads k ∧
  ∀ t tk, tasks k !! t = Some tk → x ∉ cv_waiting (exit_cond_var tk).
Proof.
  intros Hk [Hc Hx Hp]. pose proof (ko_threads _ Hk) as Ho.
  destruct (th_cur _ _ _ _ Ho x Hc) as (y' & Hx' & Hs). rewrite Hx in Hx'. injection Hx' as <-. split.
  - intros (y' & Hx' & Hs')%(th_runq _ _ _ _ Ho). rewrite Hx in Hx'. injection Hx' as <-. by rewrite Hs in Hs'.
  - intros t tk Ht (y' & Hx' & _ & Hs')%(th_waiting _ _ _ _ Ho t tk x Ht). rewrite Hx in Hx'. injection Hx' as <-.
    by rewrite Hs in Hs'.
Qed.

(** Once the processor is given to somebody else, a sleeping caller of [wait] is
    in the queue of its task. *)
Lemma asleep_kern_ok k x y pk : kern_ok k → running k x y pk → kern_ok (set_curr None (asleep k x y pk)).
Proof.
  intros Hk Hr. destruct (running_not_queued _ _ _ _ Hk Hr) as [Hnq Hnw]. destruct Hr as [Hc Hx Hp].
  pose proof (ko_threads _ Hk) as Ho.
  set (ts := tasks k) in *.
  set (ts' := <[parent_task y := set_waiting (cv_waiting (exit_cond_var pk) ++ [x]) pk]> ts).
  refine (kern_ok_status k x y WAITING (runnable_threads k) None ts' (kvm k) Hk Hx _ _ _ _ _); try done; subst ts' ts.
  - eapply threads_ok_status; [done|done| | | | |by eapply th_runq_nodup|done].
    + intros t. destruct (decide (parent_task y = t)) as [<-|Hne]; [by rewrite lookup_insert_eq, Hp|by rewrite lookup_insert_ne].
    + intros t tk' z [(<- & <-)|(_ & Ht)]%lookup_insert_cases.
      * cbn. intros [Hz| ->%list_elem_of_singleton]%elem_of_app; [left|by right].
        split; [|by eauto]. intros ->. by eapply Hnw in Hz.
      * intros Hz. left. split; [|by eauto]. intros ->. by eapply Hnw in Hz.
    + intros t tk' [(<- & <-)|(_ & Ht)]%lookup_insert_cases; [|by eapply th_waiting_nodup].
      cbn. apply NoDup_app. split_and!; [by eapply th_waiting_nodup| |by apply NoDup_singleton].
      intros z Hz ->%list_elem_of_singleton. by eapply Hnw in Hz.
    + intros z Hz. left. split; [congruence|done].
  - eapply family_ok_upd; [by apply Hk|done|]. split; try done. by intros [].
  - eapply mem_ok_upd; [by apply Hk|done..].
  - intros a [ak [(<- & <-)|(_ & Ha)]%lookup_insert_cases]; by eexists.
Qed.

(** ** The processor changes hands (Sched.v has the scheduler itself) *)
Definition dispatched k (x : Z) (y : thread) (tk : task) : @kern H B :=
  set_kvm (set_cr3 (pdbr tk) (kvm k)) (set_curr (Some x) (set_runq (filter (λ z, z ≠ x) (runnable_threads k))
    (set_threads (<[x := set_status RUNNING y]> (threads k)) (set_tasks (tasks k) k)))).

Definition preempted k (x : Z) (y : thread) : @kern H B :=
  set_kvm (kvm k) (set_curr None (set_runq (runnable_threads k ++ [x])
    (set_threads (<[x := set_status RUNNABLE y]> (threads k)) (set_tasks (tasks k) k)))).

Lemma dispatched_ok k x y tk :
  kern_ok k → x ∈ runnable_threads k → threads k !! x = Some y → tasks k !! parent_task y = Some tk →
  kern_ok (dispatched k x y tk).
Proof.
  intros Hk Hin Hx Ht. pose proof (ko_threads _ Hk) as Ho. unfold dispatched.
  destruct (th_runq _ _ _ _ Ho x Hin) as (y' & Hx' & Hs). rewrite Hx in Hx'. injection Hx' as <-.
  apply kern_ok_status; try done.
  - eapply threads_ok_status; [done|done|done| | | | |naive_solver].
    + intros t uk z Huk Hz. left. split; [|by eauto]. intros ->.
      destruct (th_waiting _ _ _ _ Ho t uk x Huk Hz) as (y' & Hx' & _ & Hs'). rewrite Hx in Hx'. injection Hx' as <-.
      by rewrite Hs in Hs'.
    + intros t uk Huk. by eapply th_waiting_nodup.
    + intros z [Hne Hz]%list_elem_of_filter. by left.
    + apply NoDup_filter. by eapply th_runq_nodup.
  - by apply Hk.
  - destruct (ko_mem _ Hk) as (own & pds & fs & Hwf & Hcow & ?). exists own, pds, fs.
    split; [by apply wf_set_cr3|done].
  - intros x' y' uk [= <-]. rewrite lookup_insert_eq. intros [= <-]. cbn. congruence.
Qed.

Lemma preempted_ok k x y pk : kern_ok k → running k x y pk → kern_ok (preempted k x y).
Proof.
  intros Hk Hr. destruct (running_not_queued _ _ _ _ Hk Hr) as [Hnq Hnw]. destruct Hr as [Hc Hx Hp].
  pose proof (ko_threads _ Hk) as Ho. apply kern_ok_status; try done; [| |by apply Hk].
  - eapply threads_ok_status; [done|done|done| | | | |done].
    + intros t uk z Huk Hz. left. split; [|by eauto]. intros ->. by eapply Hnw in Hz.
    + intros t uk Huk. by eapply th_waiting_nodup.
    + intros z [Hz| ->%list_elem_of_singleton]%elem_of_app; [left|by right]. split; [congruence|done].
    + apply NoDup_app. split_and!; [by eapply th_runq_nodup| |by apply NoDup_singleton].
      by intros z Hz ->%list_elem_of_singleton.
  - by apply Hk.
Qed.

Lemma status_syscall_ok k x y pk v :
  kern_ok k → running k x y pk →
  ∃ k', set_status_handler_c v k = Ok tt k' ∧ kern_ok k' ∧
    k' = set_tasks (<[parent_task y := set_exit_status v pk]> (tasks k)) k.
Proof.
  intros Hk [Hc Hx Hp]. eexists. split.
  { unfold set_status_handler_c. krun curr_task_run. by apply upd_task_run. }
  split; [|done]. split; kred; try by apply Hk.
  - eapply family_ok_upd; [by apply Hk|done|]. split; try done. by intros [].
  - by eapply threads_ok_upd_task; [apply Hk|..].
  - eapply blocks_ok_upd; [by apply Hk|done].
  - by eapply mem_ok_upd; [apply Hk|..].
  - intros x' y' uk Hc' Hx' [(Ep & <-)|(_ & Hu)]%lookup_insert_cases; [|by eapply (ko_cr3 _ Hk)].
    eapply (ko_cr3 _ Hk x' y' pk); [done|done|congruence].
Qed.

(** ** The life of the kernel: system calls, preemption and dispatch

    Steps are system calls that return (or put the caller to sleep), whatever
    they return.  Three guards exclude calls the kernel does not survive: the
    thread counter must not wrap, the status pointer of [wait] is one
    [wait_correct] covers, and the last thread of init does not vanish. *)
Inductive kstep : @kern H B → @kern H B → Prop :=
  | step_fork k x y pk r k' :
      running k x y pk → next_tid k < 2147483647 → do_fork iret_fun_addr k = Ok r k' → kstep k k'
  | step_thread_fork k x y pk r k' :
      running k x y pk → next_tid k < 2147483647 → do_thread_fork iret_fun_addr k = Ok r k' → kstep k k'
  | step_wait k x y pk ptr r k' :
      running k x y pk → status_target (kvm k) ptr → do_wait ptr k = Ok (Some r) k' → kstep k k'
  | step_sleep k x y pk ptr k' :
      running k x y pk → status_target (kvm k) ptr → do_wait ptr k = Ok None k' → kstep k (set_curr None k')
  | step_vanish k x y pk k' :
      running k x y pk → (thread_head pk = [x] → parent pk ≠ NULL) → do_vanish k = Ok tt k' → kstep k k'
  | step_set_status k x y pk v k' :
      running k x y pk → set_status_handler_c v k = Ok tt k' → kstep k k'
  | step_preempt k x y pk : running k x y pk → kstep k (preempted k x y)
  | step_dispatch k x y tk :
      curr_thread k = None → x ∈ runnable_threads k → threads k !! x = Some y →
      tasks k !! parent_task y = Some tk → kstep k (dispatched k x y tk).

Lemma only_thread k x y pk :
  kern_ok k → running k x y pk → filter (λ z, z ≠ x) (thread_head pk) = [] ↔ thread_head pk = [x].
Proof.
  intros Hk [Hc Hx Hp]. pose proof (ko_threads _ Hk) as Ho.
  assert (x ∈ thread_head pk) as Hin by (apply (th_members _ _ _ _ Ho _ _ _ Hp); eauto).
  pose proof (th_nodup _ _ _ _ Ho _ _ Hp) as Hnd. split.
  - intros Hnil. assert (∀ z, z ∈ thread_head pk → z = x) as Hall.
    { intros z Hz. destruct (decide (z = x)); [done|]. assert (z ∈ filter (λ z, z ≠ x) (thread_head pk)) as Hf.
      { by apply list_elem_of_filter. } rewrite Hnil in Hf. by apply elem_of_nil in Hf. }
    destruct (thread_head pk) as [|a [|a' l]]; [by apply elem_of_nil in Hin|by rewrite (Hall a) by left|].
    apply NoDup_cons in Hnd as [Ha _]. destruct Ha. rewrite (Hall a) by left. rewrite (Hall a') by (right; left). left.
  - intros ->. rewrite filter_cons_False by naive_solver. done.
Qed.

(** The one step that breaks the invariant: a fork that could not copy the
    caller's address space. *)
Definition broken_fork k k2 : Prop :=
  ∃ x y pk, running k x y pk ∧ do_fork iret_fun_addr k = Ok ERR_FAILURE k2 ∧ ¬ kern_ok k2.

Lemma kstep_ok k k' : kern_ok k → kstep k k' → kern_ok k' ∨ broken_fork k k'.
Proof.
  intros Hk Hs. destruct Hs as [k x y pk r k' Hr Hn Hrun|k x y pk r k' Hr Hn Hrun|
    k x y pk ptr r k' Hr Htg Hrun|k x y pk ptr k' Hr Htg Hrun|k x y pk k' Hr Hpn Hrun|k x y pk v k' Hr Hrun|k x y pk Hr|
    k x y tk Hc Hin Hx Ht].
  - destruct (fork_cases iret_fun_addr k x y pk Hk Hr Hn) as
      [(b & Hrun' & Hok)|[(c & x' & b' & b1 & mp & v & new & own & pds & fs & own' & _ & _ & _ & _ & Hrun')|
        (c & b & mp & v & Hc & _ & Hrun')]].
    + left. rewrite Hrun in Hrun'. by simplify_eq.
    + left. destruct (_ !! thr pk) as [z|]; [destruct Hrun' as [Hrun' Hok]|]; rewrite Hrun in Hrun'; by simplify_eq.
    + right. rewrite Hrun in Hrun'. injection Hrun' as -> ->. exists x, y, pk. split_and!; [done..|].
      by eapply fork_failed_broken.
  - left. destruct (thread_fork_ok iret_fun_addr k x y pk Hk Hr Hn) as [(b & Hrun' & Hok)|(x' & xk & k1 & Hrun' & Hok & _)];
      rewrite Hrun in Hrun'; by simplify_eq.
  - left. destruct (dead_child_head pk) as [|d rest] eqn:Hd.
    + destruct (child_task_head pk) as [|c l] eqn:Hch.
      * rewrite (wait_fails k x y pk ptr) in Hrun by done. by simplify_eq.
      * rewrite (wait_sleeps k x y pk ptr) in Hrun by (done || by rewrite Hch). done.
    + destruct (wait_reaps k x y pk ptr d rest Hk Hr Htg Hd) as (dk & k1 & _ & Hrun' & Hok & _).
      rewrite Hrun in Hrun'. by simplify_eq.
  - left. destruct (dead_child_head pk) as [|d rest] eqn:Hd.
    + destruct (child_task_head pk) as [|c l] eqn:Hch.
      * rewrite (wait_fails k x y pk ptr) in Hrun by done. done.
      * rewrite (wait_sleeps k x y pk ptr) in Hrun by (done || by rewrite Hch). injection Hrun as <-. by apply asleep_kern_ok.
    + destruct (wait_reaps k x y pk ptr d rest Hk Hr Htg Hd) as (dk & k1 & _ & Hrun' & _).
      rewrite Hrun in Hrun'. done.
  - left. destruct (decide (filter (λ z, z ≠ x) (thread_head pk) = [])) as [E|E].
    + destruct (vanish_last k x y pk Hk Hr E) as (k1 & ik & qk & ws & rest & Hrun' & Hok & _).
      { apply Hpn. by eapply only_thread. } rewrite Hrun in Hrun'. by simplify_eq.
    + destruct (vanish_not_last k x y pk Hk Hr E) as (k1 & Hrun' & Hok & _). rewrite Hrun in Hrun'. by simplify_eq.
  - left. destruct (status_syscall_ok k x y pk v Hk Hr) as (k1 & Hrun' & Hok & _). rewrite Hrun in Hrun'. by simplify_eq.
  - left. by eapply preempted_ok.
  - left. by apply dispatched_ok.
Qed.

(** ** What the system calls promise *)

(** C1. [fork] of a task whose first thread still exists always returns.  Without
    memory for the structs nothing changes.  Otherwise the new task has the
    caller's task as its parent, is in its list of children, has the id that is
    returned (no other thread has it), one runnable thread with the kernel stack
    of the task's first thread that starts in [iret_fun], the caller's software
    exception handler and a copy-on-write copy of its memory; and the kernel
    invariant holds.  When the address space cannot be copied, the call fails
    and leaves the freed child in the parent's list of children. *)
Theorem fork_correct k x y pk z :
  kern_ok k → running k x y pk → threads k !! thr pk = Some z → next_tid k < 2147483647 →
  (∃ b, do_fork iret_fun_addr k = Ok ERR_NOMEM (set_blocks b k) ∧ kern_ok (set_blocks b k)) ∨
  (∃ c ck x' xk k', do_fork iret_fun_addr k = Ok (t_id ck) k' ∧ kern_ok k' ∧
     tasks k !! c = None ∧ threads k !! x' = None ∧
     tasks k' = <[c := ck]> (<[parent_task y := add_child c pk]> (tasks k)) ∧
     threads k' = <[x' := xk]> (threads k) ∧ runnable_threads k' = runnable_threads k ++ [x'] ∧
     parent ck = parent_task y ∧ thread_head ck = [x'] ∧ parent_task xk = c ∧
     t_id ck = id xk ∧ (∀ w wy, threads k !! w = Some wy → id wy ≠ t_id ck) ∧
     (t_eip ck, t_swexn_args ck, t_swexn_esp ck) = (t_eip pk, t_swexn_args pk, t_swexn_esp pk) ∧
     k_stack xk = <[13%nat := iret_fun_addr]> (k_stack z) ∧
     cur_esp xk = k_stack_base xk - DEFAULT_STACK_OFFSET ∧
     phys (kvm k') = phys (kvm k) ∧
     ∀ va, word va → USER_MEM_START ≤ va →
       pte_at (kvm k') (pdbr ck) va = cow_entry <$> pte_at (kvm k) (pdbr pk) va ∧
       pte_at (kvm k') (pdbr pk) va = cow_entry <$> pte_at (kvm k) (pdbr pk) va) ∨
  (∃ c k', do_fork iret_fun_addr k = Ok ERR_FAILURE k' ∧ tasks k' !! c = None ∧
     tasks k' !! parent_task y = Some (add_child c pk)).
Proof. apply fork_ok. Qed.

(** C3. [vanish] always returns, keeps the kernel invariant and frees the
    thread.  When the task has other threads, only the thread leaves it.  When
    it was the last one, the task is dead with its exit status, moves from the
    living to the end of the dead children of its parent, a thread that waits
    there becomes runnable, and its own children, living and dead, belong to
    init. *)
Theorem vanish_correct k x y tk :
  kern_ok k → running k x y tk → (thread_head tk = [x] → parent tk ≠ NULL) →
  let t := parent_task y in
  ∃ k', do_vanish k = Ok tt k' ∧ kern_ok k' ∧ curr_thread k' = None ∧ threads k' !! x = None ∧
    (thread_head tk ≠ [x] →
       tasks k' = <[t := set_thread_head (filter (λ z, z ≠ x) (thread_head tk)) tk]> (tasks k)) ∧
    (thread_head tk = [x] →
       (∃ tk', tasks k' !! t = Some tk' ∧ ¬ alive tk' ∧ t_id tk' = t_id tk ∧
          exit_status tk' = exit_status tk ∧ parent tk' = parent tk) ∧
       (∃ pk pk', tasks k !! parent tk = Some pk ∧ tasks k' !! parent tk = Some pk' ∧
          t ∉ child_task_head pk' ∧ last (dead_child_head pk') = Some t ∧
          ∀ w l, cv_waiting (exit_cond_var pk) = w :: l → w ∈ runnable_threads k') ∧
       (∀ c ck, tasks k !! c = Some ck → parent ck = t →
          ∃ ck', tasks k' !! c = Some ck' ∧ parent ck' = init_task k ∧ (alive ck' ↔ alive ck))).
Proof.
  intros Hk Hr Hpn t. pose proof (running_alive _ _ _ _ Hk Hr) as Hal. pose proof (ko_family _ Hk) as Hf.
  pose proof (only_thread _ _ _ _ Hk Hr) as Hone.
  destruct (decide (filter (λ z, z ≠ x) (thread_head tk) = [])) as [E|E].
  2:{ destruct (vanish_not_last k x y tk Hk Hr E) as (k' & Hrun & Hok & Hc & Hth & _ & _ & Hts).
      exists k'. rewrite Hth, lookup_delete_eq. split_and!; try done. intros Hx%Hone. done. }
  apply Hone in E as Hx. specialize (Hpn Hx). pose proof (rn_task _ _ _ _ Hr) as Ht.
  destruct (vanish_last k x y tk Hk Hr E Hpn) as
    (k' & ik & qk & ws & rest & Hrun & Hok & Hc & Hi & Hq & Hw & Hnil & _ & Hth & Hrq & Hts).
  destruct (fo_parent _ _ Hf _ _ Ht Hpn) as (Hqt & pk & Hpk & Hpa).
  pose proof (exit_tasks_exited _ _ _ tk ik qk rest _ Hf Ht Hal Hpn Hi Hq) as Hex. rewrite <- Hts in Hex.
  exists k'. rewrite Hth, lookup_delete_eq. split_and!; try done. intros _. split_and!.
  - exists (set_pdbr (kernel_pd (kvm k)) (set_children (snd (concat_lists (child_task_head ik) (child_task_head tk)))
      (snd (concat_lists (dead_child_head ik) (dead_child_head tk))) (set_thread_head [] tk))).
    rewrite Hts. unfold exit_tasks. rewrite lookup_insert_ne by done. unfold handed_over. rewrite lookup_insert_eq.
    split_and!; try done. by intros Ha.
  - exists pk, (set_waiting rest (bury t qk)). split; [done|].
    rewrite Hts. unfold exit_tasks. rewrite lookup_insert_eq. split_and!; [done| | |].
    + cbn. rewrite list_elem_of_filter. naive_solver.
    + cbn. apply last_snoc.
    + intros w l Hpw. rewrite Hrq. apply elem_of_app. right.
      destruct (family_handed (kernel_pd (kvm k)) t (init_task k) tk ik _ _ pk Hf Ht Hal Hpn Hi Hqt Hpk) as (uk & Hu & Hh).
      assert (uk = qk) as -> by (unfold t in Hu; rewrite Hq in Hu; by injection Hu). pose proof (hd_view _ _ _ _ _ Hh) as Ev. unfold thread_view in Ev.
      injection Ev as _ Ev. rewrite Hw, Hpw in Ev. destruct ws as [|a ws]; [by rewrite (Hnil eq_refl) in Ev|].
      injection Ev as -> _. left.
  - intros c ck Hck Hcp. assert (c ≠ t) as Hne.
    { intros ->. destruct (fo_parent _ _ Hf t ck Hck) as [? _]; [|done]. rewrite Hcp.
      intros En. unfold t in En. rewrite En in Ht. by rewrite (fo_null _ _ Hf) in Ht. }
    destruct (ex_other _ _ _ _ _ Hex c ck Hne Hck) as (ck' & Hck' & _ & Ha & Hp' & _). exists ck'. split; [done|].
    rewrite Hp', decide_True; [naive_solver|].
    rewrite (fo_children _ _ Hf t tk c Ht Hal), (fo_dead _ _ Hf t tk c Ht Hal).
    destruct (decide (alive ck)); [left|right]; by exists ck.
Qed.

(** C6. [wait] with a status pointer that is NULL or points to a writable word
    always returns or sleeps.  With dead children it takes the one that died
    first, returns its id, stores its exit status at the pointer and frees the
    task: no later [wait] sees it.  With neither living nor dead children it
    fails and changes nothing.  Otherwise the caller goes to sleep in the queue
    of the task's exit condition.  The kernel invariant is kept. *)
Theorem wait_correct k x y pk ptr :
  kern_ok k → running k x y pk → status_target (kvm k) ptr →
  match dead_child_head pk, child_task_head pk with
  | d :: rest, children => ∃ dk k',
      tasks k !! d = Some dk ∧ do_wait ptr k = Ok (Some (t_id dk)) k' ∧ kern_ok k' ∧
      tasks k' = delete d (<[parent_task y := set_children children rest pk]> (tasks k)) ∧
      threads k' = threads k ∧ curr_thread k' = curr_thread k ∧
      (if decide (ptr = NULL) then kvm k' = kvm k
       else write_word ptr (u32 (exit_status dk)) (kvm k) = Ok tt (kvm k'))
  | [], [] => do_wait ptr k = Ok (Some ERR_FAILURE) k
  | [], _ :: _ => do_wait ptr k = Ok None (asleep k x y pk) ∧ kern_ok (set_curr None (asleep k x y pk))
  end.
Proof.
  intros Hk Hr Ht. destruct (dead_child_head pk) as [|d rest] eqn:Hd; [|by apply (wait_reaps k x y pk)].
  destruct (child_task_head pk) as [|c l] eqn:Hc; [by apply (wait_fails k x y pk)|].
  split; [apply wait_sleeps; try done; by rewrite Hc|by apply asleep_kern_ok].
Qed.

(** C5. The kernel invariant (family tree, threads and queues, thread map, locks,
    struct memory, one address space per living task) holds in every state that
    fork, thread_fork, wait, vanish, set_status, preemption and dispatch reach
    from a state that satisfies it, for as long as no fork fails half-way: either
    the invariant holds at the end, or some reachable state satisfied it and the
    fork called there failed to copy the caller's address space and broke it.
    The steps carry the guards of [kstep]: the thread counter has not reached its
    end at a fork, the status pointer of [wait] is NULL or good, and the last
    thread of init does not vanish. *)
Theorem kernel_invariant k k' :
  kern_ok k → rtc kstep k k' →
  kern_ok k' ∨ ∃ k1 k2, rtc kstep k k1 ∧ kern_ok k1 ∧ broken_fork k1 k2 ∧ rtc kstep k2 k'.
Proof.
  intros Hk Hs. induction Hs as [k|k k1 k' Hs Hss IH]; [by left|].
  destruct (kstep_ok k k1 Hk Hs) as [Hk1|Hb]; [|right; by exists k, k1; split_and!; [constructor|..]].
  destruct (IH Hk1) as [?|(k2 & k3 & H12 & ?)]; [by left|right].
  exists k2, k3. split; [by eapply rtc_l|done].
Qed.
End lifecycle.

(** ** An instance: init with two threads and a dead child *)
Definition demo_task (i pd : Z) (threads dead : list Z) (status p : Z) : task :=
  mk_task i pd 100 threads status p [] dead NULL NULL 0 (mk_cond COND_VAR_VALID [] free_mutex)
    free_mutex free_mutex free_mutex free_mutex free_mutex.

Definition demo_thread (i st : Z) : thread :=
  mk_thread i 300 (replicate (Z.to_nat (KERNEL_STACK_SIZE / 4)) 0) 0x12000 0x12000 0x12000 st
    free_mutex (mk_cond COND_VAR_VALID [] free_mutex).

Definition demo_tasks : gmap Z task := {[300 := demo_task 5 demo_pd [100; 200] [400] 0 NULL;
                                        400 := demo_task 3 0 [] [] 7 300]}.
Definition demo_threads : gmap Z thread := {[100 := demo_thread 5 RUNNING; 200 := demo_thread 8197 RUNNABLE]}.
Definition demo_kern : @kern bump (gset Z) :=
  mk_kern demo_ro {[100; 200; 300; 400]} demo_tasks demo_threads 8197 free_mutex demo_map [200] (Some 100) 300.

Lemma demo_tasks_cases t tk :
  demo_tasks !! t = Some tk →
  t = 300 ∧ tk = demo_task 5 demo_pd [100; 200] [400] 0 NULL ∨ t = 400 ∧ tk = demo_task 3 0 [] [] 7 300.
Proof. unfold demo_tasks. rewrite lookup_insert_Some, lookup_singleton_Some. naive_solver. Qed.

Lemma demo_threads_cases x y :
  demo_threads !! x = Some y →
  x = 100 ∧ y = demo_thread 5 RUNNING ∨ x = 200 ∧ y = demo_thread 8197 RUNNABLE.
Proof. unfold demo_threads. rewrite lookup_insert_Some, lookup_singleton_Some. naive_solver. Qed.

Lemma demo_family : family_ok demo_tasks 300.
Proof.
  assert (demo_tasks !! 300 = Some (demo_task 5 demo_pd [100; 200] [400] 0 NULL)) as H300 by done.
  assert (demo_tasks !! 400 = Some (demo_task 3 0 [] [] 7 300)) as H400 by done.
  split; try done.
  - by intros t tk [[-> ->]|[-> ->]]%demo_tasks_cases.
  - intros p pk c [[-> ->]|[-> ->]]%demo_tasks_cases Ha; [|by destruct Ha]. split; [by intros ?%elem_of_nil|].
    intros (ck & [[-> ->]|[-> ->]]%demo_tasks_cases & Hp & Ha'); [done|by destruct Ha'].
  - intros p pk c [[-> ->]|[-> ->]]%demo_tasks_cases Ha; [|by destruct Ha]. cbn. rewrite list_elem_of_singleton. split.
    + intros ->. eexists. split_and!; [exact H400|done|by intros Ha'].
    + by intros (ck & [[-> ->]|[-> ->]]%demo_tasks_cases & Hp & Ha').
  - intros p pk [[-> ->]|[-> ->]]%demo_tasks_cases Ha; [|by destruct Ha].
    split; [constructor|apply NoDup_singleton].
  - intros c ck [[-> ->]|[-> ->]]%demo_tasks_cases Hn; [done|]. split; [done|]. eexists. by split; [exact H300|].
  - intros c ck [[-> ->]|[-> ->]]%demo_tasks_cases Hn; [by destruct Hn|done].
  - eexists. by split_and!; [exact H300|..].
Qed.

Lemma demo_threads_ok : threads_ok demo_tasks demo_threads [200] (Some 100).
Proof.
  assert (demo_threads !! 100 = Some (demo_thread 5 RUNNING)) as H100 by done.
  assert (demo_threads !! 200 = Some (demo_thread 8197 RUNNABLE)) as H200 by done.
  split.
  - intros t tk x [[-> ->]|[-> ->]]%demo_tasks_cases.
    + cbn [thread_head demo_task]. rewrite elem_of_cons, list_elem_of_singleton. split.
      * intros [->| ->]; eexists; (split; [done|]); done.
      * intros (y & [[-> ->]|[-> ->]]%demo_threads_cases & _); [by left|by right].
    + split; [by intros ?%elem_of_nil|]. by intros (y & [[-> ->]|[-> ->]]%demo_threads_cases & ?).
  - intros t tk [[-> ->]|[-> ->]]%demo_tasks_cases; [|constructor].
    cbn [thread_head demo_task]. apply NoDup_cons. split; [by rewrite list_elem_of_singleton|apply NoDup_singleton].
  - intros x y [[-> ->]|[-> ->]]%demo_threads_cases; by eexists.
  - intros x y [[-> ->]|[-> ->]]%demo_threads_cases; split_and!; reflexivity.
  - intros x y [[-> ->]|[-> ->]]%demo_threads_cases; apply length_replicate.
  - intros x ->%list_elem_of_singleton. eexists. by split; [exact H200|].
  - apply NoDup_singleton.
  - intros t tk x [[-> ->]|[-> ->]]%demo_tasks_cases; by intros ?%elem_of_nil.
  - intros t tk [[-> ->]|[-> ->]]%demo_tasks_cases; constructor.
  - intros x [= <-]. eexists. by split; [exact H100|].
Qed.

Lemma demo_kern_ok : kern_ok demo_kern.
Proof.
  split; cbn [demo_kern kvm blocks tasks threads next_tid tid_mutex thread_map runnable_threads curr_thread init_task].
  - apply demo_family.
  - apply demo_threads_ok.
  - split; [|by intros x y [[-> ->]|[-> ->]]%demo_threads_cases|done].
    assert (id <$> demo_threads = demo_tids) as -> by done.
    exists {[5 := 100; 8197 := 200]}. split; [apply demo_map_ok|]. intros i x. unfold demo_tids.
    rewrite !lookup_insert_Some, !lookup_singleton_Some. lia.
  - done.
  - split; cbn.
    + intros a [tk [[-> ->]|[-> ->]]%demo_tasks_cases]; (split; [set_solver|done]).
    + intros a [y [[-> ->]|[-> ->]]%demo_threads_cases]; set_solver.
  - destruct demo_ro_wf as (own & fs & Hwf & Hcow & _). exists own, {[demo_pd]}, fs. split_and!; [done|done| |].
    + intros t tk [[-> ->]|[-> ->]]%demo_tasks_cases Ha; [by apply elem_of_singleton|by destruct Ha].
    + intros t tk t' tk' [[-> ->]|[-> ->]]%demo_tasks_cases Ha [[-> ->]|[-> ->]]%demo_tasks_cases Ha' _;
        first [done|by destruct Ha|by destruct Ha'].
  - destruct demo_ro_wf as (own & fs & _ & _ & Hcr). rewrite Hcr. clear own fs Hcr.
    intros x y tk Hx Hy Ht. injection Hx as <-.
    destruct (demo_threads_cases _ _ Hy) as [[_ ->]|[? _]]; [|lia].
    destruct (demo_tasks_cases _ _ Ht) as [[_ ->]|[E _]]; [reflexivity|]. cbn in E. lia.
Qed.

Lemma demo_running : running demo_kern 100 (demo_thread 5 RUNNING) (demo_task 5 demo_pd [100; 200] [400] 0 NULL).
Proof. by split. Qed.

Lemma fork_correct_witness : ∃ r k', do_fork 0x100500 demo_kern = Ok r k'.
Proof.
  destruct (fork_correct 0x100500 demo_kern 100 (demo_thread 5 RUNNING)
    (demo_task 5 demo_pd [100; 200] [400] 0 NULL) (demo_thread 5 RUNNING) demo_kern_ok demo_running eq_refl eq_refl)
    as [(b & Hrun & _)|[(c & ck & x' & xk & k' & Hrun & _)|(c & k' & Hrun & _)]]; eauto.
Defined.

Lemma vanish_correct_witness : ∃ k', do_vanish demo_kern = Ok tt k' ∧ kern_ok k' ∧ curr_thread k' = None.
Proof.
  destruct (vanish_correct demo_kern 100 (demo_thread 5 RUNNING)
    (demo_task 5 demo_pd [100; 200] [400] 0 NULL) demo_kern_ok demo_running) as (k' & ? & ? & ? & _); [discriminate|eauto].
Defined.

Lemma wait_correct_witness : ∃ k', do_wait NULL demo_kern = Ok (Some 3) k' ∧ tasks k' !! 400 = None.
Proof.
  destruct (wait_correct demo_kern 100 (demo_thread 5 RUNNING)
    (demo_task 5 demo_pd [100; 200] [400] 0 NULL) NULL demo_kern_ok demo_running (or_introl eq_refl))
    as (dk & k' & [= <-] & Hrun & _ & Hts & _).
  exists k'. split; [exact Hrun|]. rewrite Hts. apply lookup_delete_eq.
Defined.

Lemma kernel_invariant_witness :
  let k' := preempted demo_kern 100 (demo_thread 5 RUNNING) in
  kern_ok k' ∨ ∃ k1 k2, rtc (kstep 0x100500) demo_kern k1 ∧ kern_ok k1 ∧ broken_fork 0x100500 k1 k2 ∧ rtc (kstep 0x100500) k2 k'.
Proof.
  apply (kernel_invariant 0x100500 demo_kern _ demo_kern_ok).
  apply rtc_once. exact (step_preempt _ _ _ _ _ demo_running).
Defined.
