(* ===== verification/Exec.v ===== *)
(** * exec and the first tasks (kern/core/exec.c, kern/core/task.c)

    Loading a program into a task: the address space, the image, the arguments
    on the user stack and the kernel stack from which the thread starts.  The
    flags register that [get_eflags] reads and the address of [iret_fun] are
    parameters. *)

From S2P Require Import Prelude Locks FrameAlloc Paging VM VMInv VMPages VMMap VMCow VMFault VMQuery VMTheorems CString UserMem Loader Regs Swexn ThreadMap Tasks.

(** ** inc/core/task.h and the flags of task.c *)
Definition DS_OFFSET : nat := 1.
Definition STACK_OFFSET : nat := 2.
Definition EFLAGS_OFFSET : nat := 3.
Definition CS_OFFSET : nat := 4.
Definition EIP_OFFSET : nat := 5.
Definition PUSHA_OFFSET : nat := 13.
Definition PUSHA_SIZE : Z := 32.
Definition STACK_END : Z := STACK_START - DEFAULT_STACK_SIZE.
Definition EXECNAME_MAX : Z := 255.
Definition NUM_ARGS_MAX : Z := 16.
Definition ARGNAME_MAX : Z := 255.
Definition EFLAGS_RESERVED : Z := 0x2.
Definition TASK_EFLAGS_IOPL : Z := 0.
Definition EFLAGS_ALIGNMENT_CHECK : Z := 0xFFFBFFFF.

(** ** The first kernel stack of a program *)
Section start.
Variable iret_fun_addr : Z.
Variable cpu_eflags : Z.

Definition setup_user_eflags : Z :=
  Z.land (Z.lor (Z.lor (Z.lor cpu_eflags EFLAGS_RESERVED) TASK_EFLAGS_IOPL) EFLAGS_IF) EFLAGS_ALIGNMENT_CHECK.

(** [memset] of [n] words, from the [i]-th below the base upwards. *)
Fixpoint clear_words (n i : nat) : M (list Z) unit :=
  match n with
  | O => mret tt
  | S n' => set_kword i 0 ;; clear_words n' (pred i)
  end.

Definition set_task_stack (entry_addr user_stack_top : Z) : M (list Z) unit :=
  set_kword DS_OFFSET SEGSEL_USER_DS ;;
  set_kword STACK_OFFSET user_stack_top ;;
  set_kword EFLAGS_OFFSET setup_user_eflags ;;
  set_kword CS_OFFSET SEGSEL_USER_CS ;;
  set_kword EIP_OFFSET entry_addr ;;
  clear_words (Z.to_nat (PUSHA_SIZE / 4)) PUSHA_OFFSET ;;
  set_kword (Z.to_nat IRET_FUN_OFFSET) iret_fun_addr.
End start.

(** Strings in kernel memory: the block of the vector, its entries, and the
    buffers of all entries but the last. *)
Record kargs : Type := mk_kargs { vec : Z; ptrs : list Z; strs : list (list Z) }.

Section exec.
Context `{RD : Ramdisk} {H : Type} `{KernelHeap H} {B : Type} `{BlockHeap B}.
Variable iret_fun_addr : Z.
Variable cpu_eflags : Z.

Abbreviation kern := (@kern H B).

(** ** copy_user_args (task.c) *)

(** The strings one below the other, under [top]: the new top and the addresses. *)
Fixpoint push_strings (l : list (list Z)) (top : Z) : M kern (Z * list Z) :=
  match l with
  | [] => mret (top, [])
  | s :: l' =>
      n ← deref (strlen s);
      let top := top - (n + 1) in
      c ← deref (strcpy s);
      in_vm (write_bytes top c) ;;
      '(t, ps) ← push_strings l' top;
      mret (t, top :: ps)
  end.

Definition copy_user_args (num_args : Z) (argvec : list (list Z)) : M kern Z :=
  copy ← smalloc ((num_args + 1) * 4);
  if decide (copy = NULL) then mret NULL
  else
    '(top, ps) ← push_strings argvec STACK_START;
    let top := top - 1 in
    in_vm (write_user top 0) ;;
    let argvec_copy := ps ++ [top] in
    let top := top - (num_args + 1) * 4 in
    in_vm (write_bytes top (words argvec_copy)) ;;
    let argvec_usr := top in
    let top := top - 4 in
    in_vm (write_word top STACK_END) ;;
    let top := top - 4 in
    in_vm (write_word top STACK_START) ;;
    let top := top - 4 in
    in_vm (write_word top argvec_usr) ;;
    let top := top - 4 in
    in_vm (write_user top (num_args mod 256)) ;;
    let top := top - 4 in
    in_vm (write_user top 0) ;;
    sfree copy ((num_args + 1) * 4) ;;
    mret top.

(** ** load_task (task.c) *)
Definition load_task (prog_name : option (list Z)) (num_args : Z) (argvec : list (list Z)) (t : Z) : M kern Z :=
  pd_addr ← in_vm create_page_directory;
  if decide (pd_addr = NULL) then mret ERR_NOMEM
  else
    in_vm (set_cur_pd pd_addr) ;;
    upd_task t (set_pdbr pd_addr) ;;
    '(_, se_hdr) ← elf_load_helper prog_name;
    retval ← in_vm (setup_page_table (Some (se_segments se_hdr)) pd_addr);
    if decide (retval < 0) then mret retval
    else
      retval ← in_vm (load_program se_hdr);
      if decide (retval < 0) then mret retval
      else
        user_stack_top ← copy_user_args num_args argvec;
        if decide (user_stack_top = NULL) then mret ERR_FAILURE
        else
          tk ← the_task t;
          x ← the_thread (thr tk);
          match set_task_stack iret_fun_addr cpu_eflags (se_entry se_hdr) user_stack_top (k_stack x) with
          | Ok _ stk => put_thread (thr tk) (set_k_stack stk (k_stack_base x - DEFAULT_STACK_OFFSET) x) ;; mret 0
          | Stop w => halt w
          end.

(** ** exec.c *)
Fixpoint count_args (fuel : nat) (argvec count : Z) : M kern Z :=
  match fuel with
  | O => halt OutOfFuel
  | S n =>
      p ← in_vm (read_word (u32 (argvec + 4 * count)));
      r ← in_vm (is_pointer_valid p 4);
      if decide (r = 0 ∧ p ≠ 0) then
        let count := count + 1 in
        if decide (count > NUM_ARGS_MAX) then mret ERR_BIG else count_args n argvec count
      else mret count
  end.

(** At most [NUM_ARGS_MAX + 1] rounds. *)
Definition get_num_args (argvec : Z) : M kern Z :=
  r ← in_vm (is_pointer_valid argvec 4);
  if decide (r < 0) then mret ERR_INVAL
  else count_args (Z.to_nat (NUM_ARGS_MAX + 1)) argvec 0.

Fixpoint free_each (l : list Z) (size : Z) : M kern unit :=
  match l with
  | [] => mret tt
  | a :: l' => sfree a size ;; free_each l' size
  end.

(** [argvec] holds at least [num_args + 1] words. *)
Definition free_args (argvec : Z) (entries : list Z) (num_args : Z) : M kern unit :=
  free_each (take (Z.to_nat num_args) entries) ARGNAME_MAX ;;
  a ← deref (entries !! Z.to_nat num_args);
  sfree a 1 ;;
  sfree argvec ((num_args + 1) * 4).

(** [n] arguments are still to be copied; [ps] and [ss] are done, [junk i] is what
    the vector holds at index [i] before it is written. *)
Fixpoint copy_args_loop (n : nat) (i argvec v : Z) (junk : Z → Z) (ps : list Z) (ss : list (list Z)) :
    M kern (option (list Z * list (list Z))) :=
  match n with
  | O => mret (Some (ps, ss))
  | S n' =>
      arg ← smalloc ARGNAME_MAX;
      if decide (arg = NULL) then free_args v (ps ++ [junk i]) i ;; mret None
      else
        p ← in_vm (read_word (u32 (argvec + 4 * i)));
        '(rc, l) ← in_vm (copy_user_data p ARGNAME_MAX);
        if decide (rc < 0) then free_args v (ps ++ [junk i]) i ;; mret None
        else copy_args_loop n' (i + 1) argvec v junk (ps ++ [arg]) (ss ++ [l])
  end.

Definition copy_args (num_args argvec : Z) : M kern (option kargs) :=
  k ← get;
  v ← smalloc ((num_args + 1) * 4);
  if decide (v = NULL) then mret None
  else
    let junk i := bh_word (blocks k) v (4 * i) in
    r ← copy_args_loop (Z.to_nat num_args) 0 argvec v junk [] [];
    match r with
    | None => mret None
    | Some (ps, ss) =>
        arg ← smalloc 1;
        if decide (arg = NULL) then free_args v (ps ++ [junk num_args]) num_args ;; mret None
        else mret (Some (mk_kargs v (ps ++ [arg]) ss))
    end.

Definition do_exec (arg_packet : Z) : M kern Z :=
  t ← get_curr_task;
  lock t execing ;;
  execname ← in_vm (read_word arg_packet);
  argvec ← in_vm (read_word (u32 (arg_packet + 4)));
  '(rc, execname_kern) ← in_vm (copy_user_data execname EXECNAME_MAX);
  if decide (rc < 0) then unlock t execing ;; mret ERR_INVAL
  else
    retval ← check_program execname_kern;
    if decide (retval = PROG_ABSENT_INVALID) then unlock t execing ;; mret ERR_FAILURE
    else
      num_args ← get_num_args argvec;
      if decide (num_args < 0) then unlock t execing ;; mret ERR_FAILURE
      else
        old_pd ← gets (λ k, cr3 (kvm k));
        argvec_kern ← copy_args num_args argvec;
        match argvec_kern with
        | None => unlock t execing ;; mret ERR_FAILURE
        | Some a =>
            retval ← load_task (Some execname_kern) num_args (strs a) t;
            if decide (retval < 0) then
              free_args (vec a) (ptrs a) num_args ;;
              in_vm (set_cur_pd old_pd) ;;
              unlock t execing ;;
              mret retval
            else
              in_vm (free_paging_info old_pd) ;;
              free_args (vec a) (ptrs a) num_args ;;
              unlock t execing ;;
              mret 0
        end.

(** ** The first two tasks (task.c); [init_task] and [idle_task] are set by them *)
Definition set_init t (k : kern) : kern :=
  mk_kern (kvm k) (blocks k) (tasks k) (threads k) (next_tid k) (tid_mutex k) (thread_map k)
    (runnable_threads k) (curr_thread k) t.

Definition load_init_task (prog_name : list Z) : M kern unit :=
  t ← create_task NULL;
  kernel_assert (bool_decide (t ≠ NULL)) ;;
  retval ← load_task (Some prog_name) 1 [prog_name] t;
  kernel_assert (bool_decide (retval = 0)) ;;
  modify (set_init t) ;;
  tk ← the_task t;
  runq_add_thread (thr tk).

(** The idle task, and the flags and entry point given to [call_iret]. *)
Definition load_bootstrap_task (prog_name : list Z) : M kern (Z * Z * Z) :=
  pd_addr ← in_vm create_page_directory;
  kernel_assert (bool_decide (pd_addr ≠ NULL)) ;;
  in_vm (set_cur_pd pd_addr) ;;
  t ← create_task NULL;
  kernel_assert (bool_decide (t ≠ NULL)) ;;
  upd_task t (set_pdbr pd_addr) ;;
  '(_, se_hdr) ← elf_load_helper (Some prog_name);
  retval ← in_vm (setup_page_table (Some (se_segments se_hdr)) pd_addr);
  kernel_assert (bool_decide (retval = 0)) ;;
  retval ← in_vm (load_program se_hdr);
  kernel_assert (bool_decide (retval = 0)) ;;
  tk ← the_task t;
  modify (set_curr (Some (thr tk))) ;;
  upd_thread (thr tk) (set_status RUNNING) ;;
  mret (t, setup_user_eflags cpu_eflags, se_entry se_hdr).

End exec.
