(* ===== verification/ExecArgs.v ===== *)
(** * The arguments of a new program (copy_user_args) and its first registers (set_task_stack) *)

From S2P Require Import Prelude Locks FrameAlloc Paging VM VMInv VMPages VMMap VMCow VMFault VMQuery VMTheorems CString UserMem Loader Regs Swexn ThreadMap Tasks Family TaskRun Exec.

Section args.
Context {H : Type} `{KernelHeapSpec H} {B : Type} `{BlockHeapSpec B}.
Implicit Types (s : vm H) (own : gmap Z (Z * Z)) (pds : gset Z) (fs : list Z) (k : @kern H B).

(** Only user memory changed, and only in [lo, hi). *)
Definition same_outside s s' (pd lo hi : Z) : Prop :=
  (∃ ph, s' = set_phys ph s) ∧
  ∀ va, is_user va = true → va < lo ∨ hi ≤ va → read_byte s' pd va = read_byte s pd va.

Lemma same_outside_trans s s1 s2 pd lo1 hi1 lo2 hi2 lo hi :
  same_outside s s1 pd lo1 hi1 → same_outside s1 s2 pd lo2 hi2 →
  lo ≤ lo1 → lo ≤ lo2 → hi1 ≤ hi → hi2 ≤ hi → same_outside s s2 pd lo hi.
Proof.
  intros [[ph1 ->] H1'] [[ph2 ->] H2'] ? ? ? ?. split; [by exists ph2|]. intros va Hu Hva.
  rewrite H2', H1'; [done|done|lia|done|lia].
Qed.

Lemma bytes_at_same s s' pd lo hi a l :
  bytes_at s a l → same_outside s s' pd lo hi → cr3 s = pd → cr3 s' = pd →
  a + Z.of_nat (length l) ≤ lo ∨ hi ≤ a → bytes_at s' a l.
Proof.
  intros Hb [_ Hs] Hc Hc' Hr i b Hi. destruct (Hb i b Hi) as [Hu Hv]. split; [done|].
  apply lookup_lt_Some in Hi. rewrite Hc', Hs; [by rewrite <- Hc|done|lia].
Qed.

(** One write into a mapped range. *)
Lemma write_step s own pds fs pd lo hi va l :
  load_state s own pds fs pd → all_mapped s pd lo hi → lo ≤ va → va + Z.of_nat (length l) ≤ hi →
  ∃ s', write_bytes va l s = Ok tt s' ∧ load_state s' own pds fs pd ∧ all_mapped s' pd lo hi ∧
    bytes_at s' va l ∧ same_outside s s' pd va (va + Z.of_nat (length l)).
Proof.
  intros Hlo Hm Hva Hl. destruct (write_in_range s own pds fs pd lo hi va l) as (s1 & Hrun & Hw & L1 & M1 & B1); [done..|].
  exists s1. split_and!; [done|done|done|done|]. split; [apply Hw|]. intros a Hu Ha. rewrite (wr_bytes _ _ _ _ _ Hw) by done.
  unfold overlay. by rewrite decide_False by lia.
Qed.

(** ** Strings on the stack *)
Fixpoint str_bottom (ts : list (list Z)) (top : Z) : Z :=
  match ts with [] => top | t :: ts' => str_bottom ts' (top - (Z.of_nat (length t) + 1)) end.
Fixpoint str_addrs (ts : list (list Z)) (top : Z) : list Z :=
  match ts with
  | [] => []
  | t :: ts' => let a := top - (Z.of_nat (length t) + 1) in a :: str_addrs ts' a
  end.

Lemma str_bottom_le ts top : str_bottom ts top ≤ top.
Proof. revert top. induction ts as [|t ts IH]; intros top; cbn; [lia|]. etransitivity; [apply IH|lia]. Qed.

Lemma str_addrs_length ts top : length (str_addrs ts top) = length ts.
Proof. revert top. induction ts as [|t ts IH]; intros top; cbn; [done|]. by rewrite IH. Qed.

Lemma push_strings_ok bufs ts k own pds fs pd lo hi top :
  load_state (kvm k) own pds fs pd → all_mapped (kvm k) pd lo hi → Forall2 text bufs ts →
  lo ≤ str_bottom ts top → top ≤ hi →
  ∃ v, push_strings bufs top k = Ok (str_bottom ts top, str_addrs ts top) (set_kvm v k) ∧
    load_state v own pds fs pd ∧ all_mapped v pd lo hi ∧ same_outside (kvm k) v pd (str_bottom ts top) top ∧
    ∀ i t, ts !! i = Some t → ∃ a, str_addrs ts top !! i = Some a ∧ str_bottom ts top ≤ a ∧ bytes_at v a (t ++ [0]).
Proof.
  intros Hlo Hm Hts. revert k top Hlo Hm. induction Hts as [|l t bufs ts Ht _ IH]; intros k top Hlo Hm Hbot Htop.
  { exists (kvm k). split_and!; [by destruct k|done|done| |done]. split; [|done]. exists (phys (kvm k)). by destruct (kvm k). }
  cbn [push_strings str_bottom str_addrs]. set (a := top - (Z.of_nat (length t) + 1)) in *.
  pose proof (str_bottom_le ts a) as Hle. cbn in Hbot. fold a in Hbot.
  rewrite (strlen_ok l t Ht), (strcpy_ok l t Ht). cbn [deref]. rewrite bind_mret. fold a. rewrite bind_mret.
  assert (Z.of_nat (length (t ++ [0])) = Z.of_nat (length t) + 1) as Hlen by (rewrite length_app; cbn; lia).
  destruct (write_step (kvm k) own pds fs pd lo hi a (t ++ [0])) as (v1 & R1 & L1 & M1 & B1 & S1); [done|done|lia|lia|].
  erewrite bind_ok; [|apply in_vm_run; exact R1].
  destruct (IH (set_kvm v1 k) a) as (v & R & L & M' & S' & Hall); [done|done|done|lia|].
  erewrite bind_ok; [|exact R]. cbv beta iota. exists v. split; [done|]. split_and!; [done|done| |].
  - eapply same_outside_trans; [exact S1|exact S'|lia|lia|lia|lia].
  - intros [|i] t' Hi.
    + injection Hi as <-. exists a. split_and!; [done|done|].
      eapply (bytes_at_same v1); [exact B1|exact S'|apply L1|apply L|by right].
    + destruct (Hall i t' Hi) as (a' & ? & ? & ?). by exists a'.
Qed.

Lemma zero_bytes s s' pd lo hi a n :
  (∀ va, a ≤ va < a + Z.of_nat n → is_user va = true ∧ read_byte s pd va = Some 0) →
  same_outside s s' pd lo hi → cr3 s' = pd → a + Z.of_nat n ≤ lo ∨ hi ≤ a → bytes_at s' a (replicate n 0).
Proof.
  intros Hz [_ Hs] Hc Hr i b [-> Hi]%lookup_replicate. destruct (Hz (a + Z.of_nat i)) as [Hu Hv]; [lia|].
  split; [done|]. rewrite Hc, Hs; [done|done|lia].
Qed.

Lemma bytes_at_app s a l l' : bytes_at s a l → bytes_at s (a + Z.of_nat (length l)) l' → bytes_at s a (l ++ l').
Proof.
  intros H1' H2' i b. destruct (decide (i < length l)%nat) as [Hi|Hi].
  - rewrite lookup_app_l by done. apply H1'.
  - rewrite lookup_app_r by lia. intros Hb. apply H2' in Hb.
    replace (a + Z.of_nat (length l) + Z.of_nat (i - length l)) with (a + Z.of_nat i) in Hb by lia. done.
Qed.

Lemma write_user_step s own pds fs pd lo hi va b :
  load_state s own pds fs pd → all_mapped s pd lo hi → lo ≤ va → va + 1 ≤ hi →
  ∃ s', write_user va b s = Ok tt s' ∧ load_state s' own pds fs pd ∧ all_mapped s' pd lo hi ∧
    bytes_at s' va [b] ∧ same_outside s s' pd va (va + 1).
Proof.
  intros Hlo Hm Hva Hl. destruct (write_step s own pds fs pd lo hi va [b]) as (s1 & Hrun & ? & ? & ? & ?); [done..|].
  exists s1. split; [|done]. cbn in Hrun. apply bind_inv in Hrun as ([] & s2 & Hrun & E). by injection E as <-.
Qed.

(** The seven pieces below the strings: the byte that ends the last (empty)
    string, the vector, and the frame of [_main]. *)
Lemma push_frame s own pds fs pd lo hi top ps n :
  load_state s own pds fs pd → all_mapped s pd lo hi → n = Z.of_nat (length ps) →
  let p0 := top - 1 in
  let argv := p0 - (n + 1) * 4 in
  let sp := argv - 20 in
  lo ≤ sp → top ≤ hi →
  ∃ s1 s2 s3 s4 s5 s6 s7,
    write_user p0 0 s = Ok tt s1 ∧ write_bytes argv (words (ps ++ [p0])) s1 = Ok tt s2 ∧
    write_word (argv - 4) STACK_END s2 = Ok tt s3 ∧ write_word (argv - 4 - 4) STACK_START s3 = Ok tt s4 ∧
    write_word (argv - 4 - 4 - 4) argv s4 = Ok tt s5 ∧ write_user (argv - 4 - 4 - 4 - 4) (n mod 256) s5 = Ok tt s6 ∧
    write_user (argv - 4 - 4 - 4 - 4 - 4) 0 s6 = Ok tt s7 ∧
    load_state s7 own pds fs pd ∧ same_outside s s7 pd sp top ∧
    bytes_at s7 p0 [0] ∧ bytes_at s7 argv (words (ps ++ [p0])) ∧ word_at s7 (sp + 16) STACK_END ∧
    word_at s7 (sp + 12) STACK_START ∧ word_at s7 (sp + 8) argv ∧ bytes_at s7 (sp + 4) [n mod 256] ∧ bytes_at s7 sp [0] ∧
    ∀ a m, (∀ va, a ≤ va < a + Z.of_nat m → is_user va = true ∧ read_byte s pd va = Some 0) →
      sp < a → a + Z.of_nat m ≤ sp + 4 ∨ sp + 4 < a ∧ a + Z.of_nat m ≤ sp + 8 → bytes_at s7 a (replicate m 0).
Proof.
  intros Hlo Hm Hn p0 argv sp Hsp Htop. subst p0 argv sp. set (p0 := top - 1) in *. set (argv := p0 - (n + 1) * 4) in *.
  assert (argv + (n + 1) * 4 = p0 ∧ p0 + 1 = top ∧ 0 ≤ n) as (Hargv & Hp0 & Hn0) by (unfold argv, p0; lia).
  assert (Z.of_nat (length (words (ps ++ [p0]))) = (n + 1) * 4) as Hlen.
  { rewrite words_length, length_app. cbn. lia. }
  destruct (write_user_step s own pds fs pd lo hi p0 0) as (s1 & R1 & L1 & M1 & B1 & O1); [done|done|lia|lia|].
  destruct (write_step s1 own pds fs pd lo hi argv (words (ps ++ [p0]))) as (s2 & R2 & L2 & M2 & B2 & O2); [done|done|lia|lia|].
  destruct (write_step s2 own pds fs pd lo hi (argv - 4) (le4 STACK_END)) as (s3 & R3 & L3 & M3 & B3 & O3); [done|done|lia|cbn; lia|].
  destruct (write_step s3 own pds fs pd lo hi (argv - 4 - 4) (le4 STACK_START)) as (s4 & R4 & L4 & M4 & B4 & O4); [done|done|lia|cbn; lia|].
  destruct (write_step s4 own pds fs pd lo hi (argv - 4 - 4 - 4) (le4 argv)) as (s5 & R5 & L5 & M5 & B5 & O5); [done|done|lia|cbn; lia|].
  destruct (write_user_step s5 own pds fs pd lo hi (argv - 4 - 4 - 4 - 4) (n mod 256)) as (s6 & R6 & L6 & M6 & B6 & O6); [done|done|lia|lia|].
  destruct (write_user_step s6 own pds fs pd lo hi (argv - 4 - 4 - 4 - 4 - 4) 0) as (s7 & R7 & L7 & M7 & B7 & O7); [done|done|lia|lia|].
  change (Z.of_nat (length (le4 _))) with 4 in *. rewrite Hlen in O2.
  assert (same_outside s5 s7 pd (argv - 20) (argv - 15)) as P5 by (eapply same_outside_trans; [exact O6|exact O7|lia..]).
  assert (same_outside s4 s7 pd (argv - 20) (argv - 8)) as P4 by (eapply same_outside_trans; [exact O5|exact P5|lia..]).
  assert (same_outside s3 s7 pd (argv - 20) (argv - 4)) as P3 by (eapply same_outside_trans; [exact O4|exact P4|lia..]).
  assert (same_outside s2 s7 pd (argv - 20) argv) as P2 by (eapply same_outside_trans; [exact O3|exact P3|lia..]).
  assert (same_outside s1 s7 pd (argv - 20) p0) as P1 by (eapply same_outside_trans; [exact O2|exact P2|lia..]).
  assert (same_outside s s7 pd (argv - 20) top) as P0 by (eapply same_outside_trans; [exact O1|exact P1|lia..]).
  assert (∀ x, load_state x own pds fs pd → cr3 x = pd) as Hcr by (by intros x []).
  exists s1, s2, s3, s4, s5, s6, s7. unfold word_at, write_word.
  replace (argv - 20 + 16) with (argv - 4) by lia. replace (argv - 20 + 12) with (argv - 4 - 4) by lia.
  replace (argv - 20 + 8) with (argv - 4 - 4 - 4) by lia. replace (argv - 20 + 4) with (argv - 4 - 4 - 4 - 4) by lia.
  split_and!; try done.
  - eapply bytes_at_same; [exact B1|exact P1|by apply Hcr|by apply Hcr|right; lia].
  - eapply bytes_at_same; [exact B2|exact P2|by apply Hcr|by apply Hcr|right; lia].
  - eapply bytes_at_same; [exact B3|exact P3|by apply Hcr|by apply Hcr|right; lia].
  - eapply bytes_at_same; [exact B4|exact P4|by apply Hcr|by apply Hcr|right; lia].
  - eapply bytes_at_same; [exact B5|exact P5|by apply Hcr|by apply Hcr|right; lia].
  - eapply bytes_at_same; [exact B6|exact O7|by apply Hcr|by apply Hcr|right; lia].
  - replace (argv - 20) with (argv - 4 - 4 - 4 - 4 - 4) by lia. exact B7.
  - intros a m Hz Ha Hor.
    assert (same_outside s s2 pd argv top) as Q2 by (eapply same_outside_trans; [exact O1|exact O2|lia..]).
    assert (same_outside s s3 pd (argv - 4) top) as Q3 by (eapply same_outside_trans; [exact Q2|exact O3|lia..]).
    assert (same_outside s s4 pd (argv - 8) top) as Q4 by (eapply same_outside_trans; [exact Q3|exact O4|lia..]).
    assert (same_outside s s5 pd (argv - 12) top) as Q5 by (eapply same_outside_trans; [exact Q4|exact O5|lia..]).
    eapply (bytes_at_same s6 s7); [|exact O7|by apply Hcr|by apply Hcr|right; lia].
    eapply (bytes_at_same s5 s6); [|exact O6|by apply Hcr|by apply Hcr|rewrite length_replicate; lia].
    eapply zero_bytes; [exact Hz|exact Q5|by apply Hcr|left; lia].
Qed.

(** Where the stack of a program with arguments [ts] begins. *)
Definition args_top (ts : list (list Z)) : Z := str_bottom ts STACK_START - 1 - (Z.of_nat (length ts) + 1) * 4 - 20.

(** The frame of [_main] at [sp]: the return address, the number of arguments,
    their vector and the ends of the stack; the vector ends with a pointer to
    an empty string. *)
Record main_frame s (sp : Z) (ts : list (list Z)) : Prop := {
  mf_ret : word_at s sp 0;
  mf_argc : word_at s (sp + 4) (Z.of_nat (length ts));
  mf_argv : word_at s (sp + 8) (sp + 20);
  mf_high : word_at s (sp + 12) STACK_START;
  mf_low : word_at s (sp + 16) STACK_END;
  mf_args : ∀ i t, ts !! i = Some t →
    ∃ a, word_at s (sp + 20 + 4 * Z.of_nat i) a ∧ bytes_at s a (t ++ [0]);
  mf_last : ∃ a, word_at s (sp + 20 + 4 * Z.of_nat (length ts)) a ∧ bytes_at s a [0];
}.

Lemma copy_user_args_ok k own pds fs pd bufs ts :
  load_state (kvm k) own pds fs pd → Forall2 text bufs ts → Z.of_nat (length ts) < 256 →
  all_mapped (kvm k) pd (args_top ts) STACK_START →
  (∀ va, args_top ts ≤ va < STACK_START → read_byte (kvm k) pd va = Some 0) →
  ∃ b, (copy_user_args (Z.of_nat (length ts)) bufs k = Ok NULL (set_blocks b k) ∨
    ∃ v, copy_user_args (Z.of_nat (length ts)) bufs k = Ok (args_top ts) (set_blocks b (set_kvm v k)) ∧
      load_state v own pds fs pd ∧ main_frame v (args_top ts) ts ∧
      same_outside (kvm k) v pd (args_top ts) STACK_START) ∧ bh_live b = bh_live (blocks k).
Proof.
  intros Hlo Hts Hn Hm Hz. set (n := Z.of_nat (length ts)) in *.
  unfold copy_user_args. destruct k as [v0 b0 tk th nt tm mp rq cu it]. cbn [kvm blocks] in *.
  rewrite (bind_ok _ _ _ _ _ (block_alloc_run _ _ _ _ _ _ _ _ _ _ _)).
  destruct (bh_smalloc b0 ((n + 1) * 4)) as [copy b1] eqn:E. cbn [fst snd].
  case_decide as Hc; [exists b1; split; [by left|subst; by eapply bh_null]|].
  destruct (bh_fresh _ _ _ _ E Hc) as [Hf Hl]. exists (bh_sfree b1 copy ((n + 1) * 4)).
  split; [right|rewrite bh_free, Hl; set_solver].
  pose proof (str_bottom_le ts STACK_START) as Hle.
  assert (args_top ts + 21 + (n + 1) * 4 = str_bottom ts STACK_START) as Htop by (unfold args_top; fold n; lia).
  destruct (push_strings_ok bufs ts (mk_kern v0 b1 tk th nt tm mp rq cu it) own pds fs pd (args_top ts) STACK_START STACK_START)
    as (v1 & R & L & M & S1 & Hstr); [done|done|done|lia|lia|].
  erewrite bind_ok; [|exact R]. cbv beta iota zeta. kred.
  destruct (push_frame v1 own pds fs pd (args_top ts) STACK_START (str_bottom ts STACK_START) (str_addrs ts STACK_START) n)
    as (s1 & s2 & s3 & s4 & s5 & s6 & s7 & R1 & R2 & R3 & R4 & R5 & R6 & R7 & L7 & O7 & B0 & Bv & Be & Bs & Ba & Bn & Br & Hzero);
    [done|done|by rewrite str_addrs_length|lia|lia|].
  set (bot := str_bottom ts STACK_START) in *.
  replace (bot - 1 - (n + 1) * 4 - 20) with (args_top ts) in * by lia.
  do 7 (erewrite bind_ok; [|apply in_vm_run; kred; eassumption]; kred).
  unfold sfree. rewrite bind_modify. kred. exists s7.
  assert (cr3 v1 = pd ∧ cr3 s7 = pd) as [Hcr1 Hcr7] by (split; [apply L|apply L7]).
  assert (∀ a m, args_top ts < a → a + Z.of_nat m ≤ args_top ts + 4 ∨ args_top ts + 4 < a ∧ a + Z.of_nat m ≤ args_top ts + 8 →
    bytes_at s7 a (replicate m 0)) as Hzero'.
  { intros a m Ha Hr. apply Hzero; [|done|done]. intros va Hva. destruct (Hm va) as [Hu _]; [unfold STACK_START in *; lia|].
    split; [done|]. rewrite (proj2 S1); [|done|left; lia]. apply Hz. lia. }
  split; [|split; [done|split]].
  - unfold mret, M_ret. f_equal. lia.
  - replace (bot - 1 - (n + 1) * 4) with (args_top ts + 20) in * by lia.
    assert (∀ i a, (str_addrs ts STACK_START ++ [bot - 1]) !! i = Some a → word_at s7 (args_top ts + 20 + 4 * Z.of_nat i) a) as Hw
      by (intros i a Hi; by eapply words_at).
    split; [| |done|done|done| |].
    + unfold word_at. change (le4 0) with ([0] ++ replicate 3 0). apply bytes_at_app; [done|]. apply Hzero'; cbn; lia.
    + unfold word_at. fold n. assert (le4 n = [n mod 256] ++ replicate 3 0) as ->.
      { unfold le4. cbn. f_equal. rewrite !Z.div_small by lia. done. }
      apply bytes_at_app; [done|]. apply Hzero'; cbn; lia.
    + intros i t Hi. destruct (Hstr i t Hi) as (a & Ha & Hge & Hb). exists a. split.
      * apply Hw. apply lookup_app_l_Some. done.
      * eapply bytes_at_same; [exact Hb|exact O7|done|done|right; lia].
    + exists (bot - 1). split; [|done]. apply Hw. rewrite <- (str_addrs_length ts STACK_START). by apply list_lookup_middle.
  - eapply same_outside_trans; [exact S1|exact O7|lia..].
Qed.

End args.
