(* ===== verification/ExecLoad.v ===== *)
(** * Loading a program into a task (load_task): image, arguments and first registers *)

From S2P Require Import Prelude Locks FrameAlloc Paging VM VMInv VMPages VMMap VMCow VMFault VMQuery VMTheorems CString UserMem Loader Regs Swexn ThreadMap Tasks Family TaskRun Fork Vanish Wait Lifecycle Exec ExecArgs.

(** ** The first registers *)
Definition start_context (flags entry sp : Z) : context :=
  mk_context 0 0 0 0 0 0 0 entry SEGSEL_USER_CS flags sp SEGSEL_USER_DS.

Lemma set_task_stack_ok iret_addr fl entry sp (k : list Z) :
  room k → ∃ k', set_task_stack iret_addr fl entry sp k = Ok tt k' ∧ length k' = length k ∧
    ∀ r b d, ∃ c, iret_fun (mk_cpu r k' b d) = Ok (start_context (setup_user_eflags fl) entry sp) c.
Proof.
  intros Hk. apply room_cells in Hk as (?&?&?&?&?&?&?&?&?&?&?&?&?&?&p&q&rest&->).
  exists (SEGSEL_USER_DS :: sp :: setup_user_eflags fl :: SEGSEL_USER_CS :: entry ::
    0 :: 0 :: 0 :: 0 :: 0 :: 0 :: 0 :: 0 :: iret_addr :: p :: q :: rest).
  split; [reflexivity|]. split; [done|].
  intros r b d. unfold iret_fun. change (Z.to_nat (DEFAULT_STACK_OFFSET / 4)) with 14%nat.
  rewrite bind_modify. unfold set_depth. cbn [regs kst base].
  unfold popa. pops. eexists. rewrite iret_ok. by destruct r.
Qed.

(** Interrupts are on, alignment checks off; the I/O privilege level is that of
    the flags the kernel runs with. *)
Lemma user_eflags_bits fl :
  Z.testbit (setup_user_eflags fl) 9 = true ∧ Z.testbit (setup_user_eflags fl) 18 = false ∧
  Z.testbit (setup_user_eflags fl) 12 = Z.testbit fl 12 ∧ Z.testbit (setup_user_eflags fl) 13 = Z.testbit fl 13.
Proof.
  unfold setup_user_eflags. rewrite !Z.land_spec, !Z.lor_spec.
  unfold EFLAGS_RESERVED, TASK_EFLAGS_IOPL, EFLAGS_IF, EFLAGS_ALIGNMENT_CHECK. cbn.
  rewrite ?orb_true_r, ?orb_false_r, ?andb_true_r, ?andb_false_r. done.
Qed.

(** ** The image of a program *)
Definition image (h : simple_elf) (f : list Z) (va : Z) (o : option Z) : option Z :=
  let g := se_segments h in
  overlay (e_bssstart g) (zeros (Z.to_nat (e_bsslen g))) va
    (overlay (e_rodatstart g) (slice f (e_rodatoff h) (e_rodatlen g)) va
      (overlay (e_datstart g) (slice f (e_datoff h) (e_datlen g)) va
        (overlay (e_txtstart g) (slice f (e_txtoff h) (e_txtlen g)) va o))).

Lemma image_some h f va b o : image h f va None = Some b → image h f va o = Some b.
Proof. unfold image, overlay. repeat case_decide; done. Qed.

Lemma overlay_outside a l va o : va < a ∨ a + Z.of_nat (length l) ≤ va → overlay a l va o = o.
Proof. intros Hr. unfold overlay. by rewrite decide_False by lia. Qed.

(** A program the kernel can load: its file is on the disk, its headers are in the
    file, its segments lie in the file and in user memory below the stack. *)
Record good_program `{RD : Ramdisk} (name t f : list Z) (h : simple_elf) : Prop := {
  gp_disk : disk_ok;
  gp_name : file_name name t;
  gp_file : file t = Some f;
  gp_elf : elf_file f;
  gp_sum : h = summary name f (sections f);
  gp_segs : segments_ok (se_segments h);
  gp_txt : in_file f (e_txtoff h) (e_txtlen (se_segments h));
  gp_dat : in_file f (e_datoff h) (e_datlen (se_segments h));
  gp_ro : in_file f (e_rodatoff h) (e_rodatlen (se_segments h));
  gp_low : e_txtstart (se_segments h) + e_txtlen (se_segments h) ≤ STACK_END ∧
    e_datstart (se_segments h) + e_datlen (se_segments h) ≤ STACK_END ∧
    e_rodatstart (se_segments h) + e_rodatlen (se_segments h) ≤ STACK_END ∧
    e_bssstart (se_segments h) + e_bsslen (se_segments h) ≤ STACK_END;
}.

Section load_task.
Context `{RD : Ramdisk} {H : Type} `{KernelHeapSpec H} {B : Type} `{BlockHeapSpec B}.
Variable iret_fun_addr : Z.
Variable cpu_eflags : Z.
Implicit Types (s : vm H) (own : gmap Z (Z * Z)) (pds : gset Z) (fs : list Z) (k : @kern H B).

(** ** A fresh directory *)
Lemma fresh_directory s own pds fs :
  vm_wf none s own pds fs → cow_ok s own →
  ∃ a s', create_page_directory s = Ok a s' ∧
    (a = NULL ∨ a ≠ NULL ∧ a ∉ pds ∧ vm_wf none (set_cr3 a s') own ({[a]} ∪ pds) fs ∧ cow_ok (set_cr3 a s') own ∧
       private (set_cr3 a s') own a ∧ phys s' = phys s ∧
       (∀ va, word va → USER_MEM_START ≤ va → pte_at s' a va = None) ∧
       (∀ pd va, pd ∈ pds → word va → pte_at s' pd va = pte_at s pd va)).
Proof.
  intros Hwf Hcow. destruct (create_page_directory_ok none s own pds fs Hwf) as (a & s' & Hrun & Hcase).
  exists a, s'. split; [done|]. destruct Hcase as [(-> & _)|(l & Hnp & Hwf' & Hdef)]; [by left|right].
  destruct (np_shape _ _ _ _ _ _ Hnp) as (h & km & Es). pose proof (np_fresh _ _ _ _ _ _ Hnp) as Hfr.
  assert (a ∉ pds) as Hnew by (intros Hn; apply Hfr; by apply (wf_pds _ _ _ _ _ Hwf)).
  assert (∀ p, in_use s own pds p → kmem s' !! p = kmem s !! p) as Hk.
  { intros p Hp. rewrite (np_kmem _ _ _ _ _ _ Hnp), lookup_insert_ne; [done|]. intros ->.
    by apply Hfr, (in_use_page _ _ _ _ _ _ Hwf). }
  split_and!; [apply Hnp|done|by apply wf_set_cr3| | |by rewrite Es| |].
  - eapply (cow_ext s); [|done]. intros p Hp. apply Hk. by left.
  - eapply private_empty; [by apply wf_set_cr3|set_solver|]. intros pt i Hpt.
    by destruct (wf_own _ _ _ _ _ Hwf _ _ _ Hpt) as (_ & ? & _).
  - intros va Hva Hu. unfold pte_at. rewrite Hdef; [done|].
    pose proof (pd_index_range va Hva). apply pd_index_user in Hu; [|done]. change KERNEL_MAP_NUM_ENTRIES with 4 in Hu. lia.
  - intros pd va Hpd Hva. by eapply pte_at_same.
Qed.

(** New pages read as zeros. *)
Lemma grows_zero s own fs s' own' fs' pds pd va :
  vm_wf none s own pds fs → grows s own fs s' own' fs' pds pd → pd ∈ pds → word va →
  pte_at s pd va = None → is_Some (pte_at s' pd va) → read_byte s' pd va = Some 0.
Proof.
  intros Hwf Hgr Hpd Hva Hnone Hsome.
  destruct (gr_pte _ _ _ _ _ _ _ _ Hgr pd va Hpd Hva) as [E|(_ & _ & _ & f & fl & Hfl & Hin & _ & Hp & Hd)].
  { rewrite E, Hnone in Hsome. by destruct Hsome. }
  pose proof (fs_frames _ _ (wf_alloc _ _ _ _ _ Hwf)) as Hall.
  eapply Forall_forall in Hall; [|exact Hin]. destruct Hall as [Hm Hr].
  pose proof (wf_machine _ _ _ _ _ Hwf) as Hmach.
  unfold read_byte, translate. rewrite Hp. cbn. rewrite addr_of_entry, Hd by
    (done || unfold machine_ok, USER_MEM_START, PAGE_SIZE in *; rewrite FREE_FRAMES_COUNT_eq in Hr; lia).
  by rewrite lookup_empty.
Qed.

Lemma segment_mapped s pd start len :
  segment_ok start len → (∀ va, word va → in_segment va start len → is_Some (pte_at s pd va)) →
  all_mapped s pd start (start + len).
Proof.
  intros (Hu & Hl & He) Hm va Hva. assert (USER_MEM_START ≤ va < W32) as Hr by (unfold USER_MEM_START in *; lia).
  split; [by apply is_user_true|]. apply Hm; [unfold word; unfold USER_MEM_START in *; lia|done].
Qed.

Lemma slice_length f off len : in_file f off len → Z.of_nat (length (slice f off len)) = len.
Proof.
  unfold in_file, slice. intros [->|(? & ? & ?)]; [by rewrite take_0|].
  rewrite length_take, length_drop. lia.
Qed.

Lemma image_outside `{RD' : Ramdisk} name t f h va o :
  good_program name t f h → STACK_END ≤ va → image h f va o = o.
Proof.
  intros Hg Hva. destruct (gp_low _ _ _ _ Hg) as (L1 & L2 & L3 & L4). destruct (gp_segs _ _ _ _ Hg) as (_ & _ & _ & (_ & Hb & _)).
  unfold image. rewrite !overlay_outside; [done|..]; right.
  - rewrite (slice_length f) by apply Hg. lia.
  - rewrite (slice_length f) by apply Hg. lia.
  - rewrite (slice_length f) by apply Hg. lia.
  - unfold zeros. rewrite length_replicate. lia.
Qed.

(** Memory after [setup_page_table] and [load_program] in a fresh directory. *)
Lemma load_image s own pds fs a name t f h :
  good_program name t f h → vm_wf none s own pds fs → cow_ok s own → a ∈ pds → cr3 s = a → private s own a →
  (∀ va, word va → USER_MEM_START ≤ va → pte_at s a va = None) →
  ∃ rc s1 own' fs', setup_page_table (Some (se_segments h)) a s = Ok rc s1 ∧
    (rc = ERR_NOMEM ∨
     rc = 0 ∧ ∃ rc' s2, load_program h s1 = Ok rc' s2 ∧
       (rc' = ERR_NOMEM ∨
        rc' = 0 ∧ load_state s2 own' pds fs' a ∧ cow_ok s2 own' ∧
          all_mapped s2 a (STACK_END + 1) STACK_START ∧
          (∀ va, STACK_END < va < STACK_START → read_byte s2 a va = Some 0) ∧
          (∀ va b, is_user va = true → image h f va None = Some b → read_byte s2 a va = Some b) ∧
          (∀ pd va, pd ∈ pds → pd ≠ a → word va → pte_at s2 pd va = pte_at s pd va))).
Proof.
  intros Hg Hwf Hcow Ha Hcr Hpriv Hempty. pose proof (gp_segs _ _ _ _ Hg) as Hsegs.
  destruct (setup_page_table_ok s own pds fs a (se_segments h) Hwf Hcow Ha Hsegs) as (rc & s1 & own' & fs' & Hrun & Hgr & Hrc).
  exists rc, s1, own', fs'. split; [done|]. destruct Hrc as [->|[-> Hmap]]; [by left|right]. split; [done|].
  assert (load_state s1 own' pds fs' a) as Hlo.
  { split; [apply Hgr|done|by apply (gr_cr3 _ _ _ _ _ _ _ _ Hgr)|by eapply grows_private]. }
  destruct Hsegs as (S1 & S2 & S3 & S4).
  destruct (load_program_ok s1 own' pds fs' a name t f h) as (rc' & s2 & Hrun2 & Hrc2);
    [done|apply Hg|apply Hg|apply Hg|rewrite (gp_sum _ _ _ _ Hg); done|apply Hg|apply Hg|apply Hg|apply S4|
     apply segment_mapped; [done|]; intros va Hva Hin; apply Hmap; tauto ..|].
  exists rc', s2. split; [done|]. destruct Hrc2 as [(-> & _)|(-> & Hup)]; [by left|right]. split; [done|].
  assert (all_mapped s1 a (STACK_END + 1) STACK_START) as Hst.
  { intros va Hva. assert (USER_MEM_START ≤ va < W32) as Hr by (unfold STACK_END, STACK_START, DEFAULT_STACK_SIZE, USER_MEM_START in *; lia).
    split; [by apply is_user_true|]. apply Hmap; [unfold word, USER_MEM_START in *; lia|]. do 4 right.
    unfold in_segment, STACK_END in *. lia. }
  split_and!.
  - by eapply load_state_updated.
  - eapply updated_cow; [done|apply Hgr].
  - by eapply updated_mapped.
  - intros va Hva. destruct (Hst va) as [Hu Hs]; [lia|]. destruct (user_word va Hu) as [Hw Hvu].
    rewrite (up_bytes _ _ _ _ Hup) by done. fold (image h f va (read_byte s1 a va)).
    erewrite image_outside; [|exact Hg|lia]. eapply grows_zero; try done. by apply Hempty.
  - intros va b Hu Hi. rewrite (up_bytes _ _ _ _ Hup) by done. by apply image_some.
  - intros pd va Hpd Hne Hva. rewrite (updated_pte _ _ _ _ _ _ Hup).
    destruct (gr_pte _ _ _ _ _ _ _ _ Hgr pd va Hpd Hva) as [E|(-> & _)]; done.
Qed.

(** ** load_task *)
Record loaded k k' pds (t : Z) (tk : task) (f : list Z) (h : simple_elf)
    (ts : list (list Z)) : Prop := {
  ld_space : ∃ pd own' fs', pd ∉ pds ∧ tasks k' = <[t := set_pdbr pd tk]> (tasks k) ∧
    load_state (kvm k') own' ({[pd]} ∪ pds) fs' pd ∧ cow_ok (kvm k') own' ∧
    (∀ va b, is_user va = true → va ≤ STACK_END → image h f va None = Some b → read_byte (kvm k') pd va = Some b);
  ld_frame : main_frame (kvm k') (args_top ts) ts;
  ld_other : ∀ pd va, pd ∈ pds → word va → pte_at (kvm k') pd va = pte_at (kvm k) pd va;
  ld_thread : ∃ y', threads k' = <[thr tk := y']> (threads k) ∧
    cur_esp y' = k_stack_base y' - DEFAULT_STACK_OFFSET ∧
    ∀ r b d, ∃ c, iret_fun (mk_cpu r (k_stack y') b d) =
      Ok (start_context (setup_user_eflags cpu_eflags) (se_entry h) (args_top ts)) c;
  ld_blocks : bh_live (blocks k') = bh_live (blocks k);
}.

Lemma load_task_ok k own pds fs t tk y name tname f h bufs ts :
  good_program name tname f h → vm_wf none (kvm k) own pds fs → cow_ok (kvm k) own →
  tasks k !! t = Some tk → threads k !! thr tk = Some y → room (k_stack y) →
  Forall2 text bufs ts → Z.of_nat (length ts) < 256 → STACK_END < args_top ts →
  ∃ rc k', load_task iret_fun_addr cpu_eflags (Some name) (Z.of_nat (length ts)) bufs t k = Ok rc k' ∧
    (rc < 0 ∧ (tasks k' = tasks k ∨ ∃ pd, pd ∉ pds ∧ tasks k' = <[t := set_pdbr pd tk]> (tasks k)) ∨
     rc = 0 ∧ loaded k k' pds t tk f h ts).
Proof.
  intros Hg Hwf Hcow Ht Hy Hroom Hts Hn Htop.
  destruct (fresh_directory (kvm k) own pds fs Hwf Hcow) as (a & s1 & Hdir & Hcase).
  unfold load_task. erewrite bind_ok; [|apply in_vm_run; exact Hdir].
  destruct Hcase as [->|(Hnn & Hnew & Hwf1 & Hcow1 & Hpriv & Hph & Hempty & Hsame)].
  { rewrite decide_True by done. eexists _, _. split; [done|]. left. split; [done|]. by left. }
  rewrite decide_False by done. kred. erewrite bind_ok; [|by apply in_vm_run]. kred. krun upd_task_run.
  erewrite bind_ok; [|apply (proj1 (elf_load_helper_ok name tname _ (gp_disk _ _ _ _ Hg) (gp_name _ _ _ _ Hg)) f
    (gp_file _ _ _ _ Hg) (gp_elf _ _ _ _ Hg))]. rewrite <- (gp_sum _ _ _ _ Hg). cbv beta iota.
  destruct (load_image (set_cr3 a s1) own ({[a]} ∪ pds) fs a name tname f h) as (rc & s2 & own' & fs' & Hset & Hcase);
    [done|done|done|set_solver|done|done|done|].
  erewrite bind_ok; [|apply in_vm_run; exact Hset]. kred.
  assert (∀ k', tasks k' = <[t := set_pdbr a tk]> (tasks k) →
    tasks k' = tasks k ∨ ∃ pd, pd ∉ pds ∧ tasks k' = <[t := set_pdbr pd tk]> (tasks k)) as Herr by (intros k' E; right; by exists a).
  destruct Hcase as [->|(-> & rc' & s3 & Hload & Hcase)].
  { rewrite decide_True by done. eexists _, _. split; [done|]. left. split; [done|]. by apply Herr. }
  rewrite decide_False by lia. erewrite bind_ok; [|apply in_vm_run; exact Hload]. kred.
  destruct Hcase as [->|(-> & Hlo & Hcow3 & Hst & Hzero & Himg & Hoth)].
  { rewrite decide_True by done. eexists _, _. split; [done|]. left. split; [done|]. by apply Herr. }
  rewrite decide_False by lia. set (k3 := mk_kern s3 _ _ _ _ _ _ _ _ _).
  assert (args_top ts < STACK_START) as Hlt by (pose proof (str_bottom_le ts STACK_START); unfold args_top; lia).
  destruct (copy_user_args_ok k3 own' ({[a]} ∪ pds) fs' a bufs ts) as (b & Hargs & Hlive);
    [done|done|done|intros va Hva; apply Hst; lia|intros va Hva; apply Hzero; lia|].
  destruct Hargs as [Hargs|(v & Hargs & Hlov & Hmf & [Hsh Hout])]; (erewrite bind_ok; [|exact Hargs]).
  { rewrite decide_True by done. eexists _, _. split; [done|]. left. split; [done|]. by apply Herr. }
  rewrite decide_False by (unfold STACK_END, STACK_START, DEFAULT_STACK_SIZE, NULL in *; lia).
  unfold k3. kred. krun the_task_run. krun the_thread_run. cbn [thr set_pdbr].
  destruct (set_task_stack_ok iret_fun_addr cpu_eflags (se_entry h) (args_top ts) (k_stack y) Hroom) as (stk & Hstk & Hlen & Hstart).
  rewrite Hstk. unfold put_thread. rewrite bind_modify. kred. eexists 0, _. split; [done|]. right. split; [done|].
  destruct Hsh as [ph ->]. split; kred.
  - exists a, own', fs'. split_and!; [done|done|done|by destruct Hlov|].
    intros va bt Hu Hva Hi. rewrite Hout; [by eapply Himg|done|left; lia].
  - done.
  - intros pd va Hpd Hva. rewrite <- (Hsame pd va) by done.
    change (pte_at (set_phys ph (kvm k3)) pd va) with (pte_at s3 pd va).
    rewrite Hoth; [done|set_solver|congruence|done].
  - eexists. split; [done|]. done.
  - exact Hlive.
Qed.

(** C7. Loading a program into a task always returns.  On success the task has a
    fresh address space that holds the program's image and, at the top of the
    stack, the frame of [_main] with the arguments; the other address spaces
    are unchanged; and the task's thread starts through [iret_fun] at the entry
    point with that stack, cleared registers, interrupts on and alignment
    checks off.  On failure the task may be left with the new, unfinished
    address space as its own. *)
Theorem load_task_correct k own pds fs t tk y name tname f h bufs ts :
  good_program name tname f h → vm_wf none (kvm k) own pds fs → cow_ok (kvm k) own →
  tasks k !! t = Some tk → threads k !! thr tk = Some y → room (k_stack y) →
  Forall2 text bufs ts → Z.of_nat (length ts) < 256 → STACK_END < args_top ts →
  (∃ rc k', load_task iret_fun_addr cpu_eflags (Some name) (Z.of_nat (length ts)) bufs t k = Ok rc k' ∧
     (rc < 0 ∧ (tasks k' = tasks k ∨ ∃ pd, pd ∉ pds ∧ tasks k' = <[t := set_pdbr pd tk]> (tasks k)) ∨
      rc = 0 ∧ loaded k k' pds t tk f h ts)) ∧
  Z.testbit (setup_user_eflags cpu_eflags) 9 = true ∧ Z.testbit (setup_user_eflags cpu_eflags) 18 = false.
Proof.
  intros. split; [by eapply load_task_ok|]. by destruct (user_eflags_bits cpu_eflags) as (? & ? & _).
Qed.
End load_task.

(** ** An instance: a program with four segments, loaded into the task of [demo_kern] *)
Definition demo_strtab : list Z := [0] ++ str_text ++ str_data ++ str_rodata ++ str_bss ++ [46; 115; 0].

Definition demo_program : list Z :=
  (ELFMAG ++ zeros 12) ++ le2 ET_EXEC ++ le2 EM_386 ++ le4 EV_CURRENT ++ le4 0x1000000 ++ zeros 4 ++
  le4 (56 + Z.of_nat (length demo_strtab)) ++ zeros 10 ++ zeros 2 ++ le2 6 ++ le2 5 ++
  demo_text ++ demo_strtab ++
  shdr_bytes 0 0 0 0 ++ shdr_bytes 1 0x1000000 52 4 ++ shdr_bytes 7 0x1001000 52 4 ++
  shdr_bytes 13 0x1002000 52 4 ++ shdr_bytes 21 0x1003000 0 8 ++ shdr_bytes 26 0 56 29.

#[local] Instance program_disk : Ramdisk :=
  {| exec2obj_userapp_TOC := [mk_entry (97 :: zeros 255) demo_program (Z.of_nat (length demo_program))] |}.

Definition demo_summary : simple_elf :=
  mk_elf (Some demo_name) 0x1000000 52 52 52 (mk_segments 0x1000000 4 0x1001000 4 0x1002000 4 0x1003000 8).

Lemma demo_good_program : good_program demo_name [97] demo_program demo_summary.
Proof.
  split.
  - apply Forall_singleton. split.
    + exists [97]. split; [split; [by repeat constructor|by exists (zeros 254)]|cbn; lia].
    + done.
    + vm_compute. reflexivity.
    + apply (bool_decide_unpack (Forall (λ b, 0 ≤ b < 256) demo_program)). vm_compute. exact I.
  - split; [split; [by repeat constructor|by exists []]|cbn; lia].
  - vm_compute. reflexivity.
  - split.
    + vm_compute. discriminate.
    + change (e_shnum (file_ehdr demo_program)) with 6. change (e_shstrndx (file_ehdr demo_program)) with 5.
      change (e_shoff (file_ehdr demo_program)) with 85. change (Z.of_nat (length demo_program)) with 325.
      unfold sizeof_Shdr. lia.
    + assert (Forall (λ sec, names_at demo_program + sh_name sec < 325) (sections demo_program)) as Hall
        by (apply (bool_decide_unpack _); vm_compute; exact I).
      intros sec Hin _. change (Z.of_nat (length demo_program)) with 325.
      by eapply Forall_forall in Hall.
  - vm_compute. reflexivity.
  - unfold segments_ok, segment_ok, USER_MEM_START. cbn. lia.
  - right. cbn. change (Z.of_nat (length demo_program)) with 325. lia.
  - right. cbn. change (Z.of_nat (length demo_program)) with 325. lia.
  - right. cbn. change (Z.of_nat (length demo_program)) with 325. lia.
  - unfold STACK_END, STACK_START, DEFAULT_STACK_SIZE. cbn. lia.
Qed.

Lemma load_task_correct_witness :
  ∃ rc k', load_task 0x100500 0x202 (Some demo_name) 1 [demo_name] 300 demo_kern = Ok rc k'.
Proof.
  destruct demo_ro_wf as (own & fs & Hwf & Hcow & _).
  assert (room (k_stack (demo_thread 5 RUNNING))) as Hroom by (apply Nat.leb_le; vm_compute; reflexivity).
  assert (Forall2 text [demo_name] [[97]]) as Htext.
  { constructor; [|constructor]. split; [by repeat constructor|by exists []]. }
  destruct (load_task_correct 0x100500 0x202 demo_kern own {[demo_pd]} fs 300 (demo_task 5 demo_pd [100; 200] [400] 0 NULL)
    (demo_thread 5 RUNNING) demo_name [97] demo_program demo_summary [demo_name] [[97]] demo_good_program Hwf Hcow eq_refl eq_refl Hroom Htext)
    as ((rc & k' & Hrun & _) & _); [reflexivity|reflexivity|].
  exists rc, k'. exact Hrun.
Defined.
