(* ===== verification/NewPages.v ===== *)
(** * The memory system calls (kern/syscalls/memory_syscalls.c)

    [new_pages] and [remove_pages] on the pages of the calling task, and the
    round trip between them: removing a region that was just added gives back
    its frames and leaves every address space as it was. *)

From S2P Require Import Prelude Locks FrameAlloc Paging VM VMInv VMPages VMMap VMCow VMFault VMQuery VMTheorems CString UserMem.

Section handlers.
Context {H : Type} `{KernelHeap H}.

Definition new_pages_handler_c (arg_packet : Z) : M (vm H) Z :=
  base ← read_word arg_packet;
  w ← read_word (u32 (arg_packet + 4));
  let len := s32 w in
  if decide (len ≤ 0 ∨ Z.rem len PAGE_SIZE ≠ 0 ∨ Z.rem (s32 base) PAGE_SIZE ≠ 0) then mret ERR_INVAL
  else
    r ← is_memory_range_mapped base len;
    if decide (r ≠ MEMORY_REGION_UNMAPPED) then mret ERR_INVAL
    else map_new_pages base len.

Definition remove_pages_handler_c (fuel : nat) (base : Z) : M (vm H) Z :=
  if decide (Z.rem (s32 base) PAGE_SIZE ≠ 0) then mret ERR_INVAL
  else unmap_new_pages fuel base.
End handlers.

(** ** The marks in the entries *)
Lemma mark_addr e m : m = NEWPAGE_START ∨ m = NEWPAGE_END →
  GET_ADDR_FROM_ENTRY (Z.lor (Z.land e 0xfffff3ff) m) = GET_ADDR_FROM_ENTRY e.
Proof.
  intros Hm. unfold GET_ADDR_FROM_ENTRY. rewrite Z.land_lor_distr_l, <- Z.land_assoc.
  by destruct Hm as [-> | ->]; rewrite Z.lor_0_r.
Qed.

Lemma mark_test e m mask : m = NEWPAGE_START ∨ m = NEWPAGE_END → 0 ≤ mask < 1024 →
  test (Z.lor (Z.land e 0xfffff3ff) m) mask = test e mask.
Proof.
  intros Hm Hk. assert (Z.land mask 0xfffff3ff = mask ∧ Z.land m mask = 0) as [E1 E2].
  { assert (Z.land mask 1023 = mask) as Ek by (change 1023 with (Z.ones 10); rewrite Z.land_ones by done; by apply Z.mod_small).
    rewrite <- Ek. split; [by rewrite <- !Z.land_assoc|].
    rewrite (Z.land_comm mask), Z.land_assoc. by destruct Hm as [-> | ->]. }
  unfold test. rewrite Z.land_lor_distr_l, E2, Z.lor_0_r, <- Z.land_assoc, (Z.land_comm 0xfffff3ff), E1. done.
Qed.

Lemma mark_flags e m : m = NEWPAGE_START ∨ m = NEWPAGE_END →
  GET_NEWPAGE_FLAGS (Z.lor (Z.land e 0xfffff3ff) m) = m.
Proof.
  intros Hm. unfold GET_NEWPAGE_FLAGS. rewrite Z.land_lor_distr_l, <- Z.land_assoc.
  change (Z.land 0xfffff3ff 0xc00) with 0. rewrite Z.land_0_r, Z.lor_0_l. by destruct Hm as [-> | ->].
Qed.

Lemma new_entry_flags f : f mod 4096 = 0 → 0 ≤ f →
  GET_NEWPAGE_FLAGS (Z.lor f (Z.lor (Z.lor (Z.lor PAGE_ENTRY_PRESENT READ_WRITE_ENABLE) USER_MODE) NEWPAGE_PAGE)) = NEWPAGE_PAGE.
Proof.
  intros Hf H0. unfold GET_NEWPAGE_FLAGS. rewrite Z.land_lor_distr_l.
  replace (Z.land f 0xc00) with 0; [done|]. symmetry.
  change 0xc00 with (Z.land 4095 0xc00). change 4095 with (Z.ones 12).
  rewrite Z.land_assoc, Z.land_ones by done. change (2 ^ 12) with 4096. by rewrite Hf.
Qed.

Section new_pages.
Context {H : Type} `{KernelHeapSpec H}.
Implicit Types (s : vm H) (own : gmap Z (Z * Z)) (pds : gset Z) (fs : list Z).

(** ** Free frames are the frames no address space maps *)
Lemma sumf_pos g own : sumf g own ≠ 0 → ∃ pt x, own !! pt = Some x ∧ g pt ≠ 0.
Proof.
  unfold sumf. induction own as [|pt x own Hn IH] using map_ind; [by rewrite map_fold_empty|].
  intros Hs. destruct (decide (g pt = 0)) as [E|]; [|exists pt, x; by rewrite lookup_insert_eq].
  change (sumf g (<[pt := x]> own) ≠ 0) in Hs. rewrite sumf_insert, E in Hs by done.
  destruct IH as (pt' & x' & Ho & Hg); [exact Hs|].
  exists pt', x'. split; [|done]. rewrite lookup_insert_ne; [done|]. congruence.
Qed.

Lemma free_iff_unmapped s own pds fs f :
  vm_wf none s own pds fs → is_frame (fa s) f →
  f ∈ fs ↔ ∀ pd va, pd ∈ pds → word va → USER_MEM_START ≤ va → translate s pd va ≠ Some f.
Proof.
  intros Hwf Hf. rewrite (wf_free _ _ _ _ _ Hwf f Hf). unfold none. rewrite Z.add_0_r. split.
  - intros Hz pd va Hpd Hva Hu (e & Hpte & ->)%translate_pte.
    destruct (pte_at_inv _ _ _ _ _ _ _ _ Hwf Hpd Hva Hu Hpte) as (d & _ & Ho & He & _).
    pose proof (refs_pos s own _ _ e (mk_is_Some _ _ Ho) He). lia.
  - intros Hun. destruct (decide (refs s own f = 0)) as [|Hne]; [done|exfalso].
    destruct (sumf_pos _ _ Hne) as (pt & [pd i] & Ho & Hc).
    destruct (cnt_pos_inv f (page s pt)) as (j & e & Hj & He).
    { pose proof (cnt_nonneg f (page s pt)). lia. }
    destruct (wf_own _ _ _ _ _ Hwf _ _ _ Ho) as (Hpt & Hpd & Hi & d & Hd & _ & _ & Hdp & Hda).
    destruct (wf_page _ _ _ _ _ Hwf pt Hpt) as (_ & _ & l & Hl & Hlen).
    assert (page s pt = l) as Epg by (unfold page; by rewrite Hl). rewrite Epg in Hj.
    pose proof (lookup_lt_Some _ _ _ Hj) as Hlt.
    assert (entry_at s pt (Z.of_nat j) = Some e) as Hej
      by (eapply page_entry_at; [done|lia|by rewrite Nat2Z.id]).
    destruct (wf_tab _ _ _ _ _ Hwf pt _ e (mk_is_Some _ _ Ho) Hej) as [->|(_ & Hp & _)].
    { rewrite addr_default in He. subst f. destruct Hf as [_ Hf]. unfold USER_MEM_START in Hf. lia. }
    set (va := i * 4194304 + Z.of_nat j * 4096).
    assert (word va) as Hva by (unfold va, word; lia).
    apply (Hun pd va Hpd Hva); [unfold va, USER_MEM_START; lia|].
    unfold translate, pte_at. rewrite pd_index_eq, pt_index_eq by done.
    replace (va / 4194304) with i by (unfold va; dlia). replace (va / 4096 mod 1024) with (Z.of_nat j) by (unfold va; dlia).
    rewrite Hd. cbn. rewrite Hdp, Hda, Hej. cbn. by rewrite Hp, <- He.
Qed.

Lemma same_free s1 own1 s2 own2 pds fs1 fs2 :
  vm_wf none s1 own1 pds fs1 → vm_wf none s2 own2 pds fs2 →
  machine_phys_frames (fa s1) = machine_phys_frames (fa s2) →
  (∀ pd va, pd ∈ pds → word va → pte_at s1 pd va = pte_at s2 pd va) → fs1 ≡ₚ fs2.
Proof.
  intros Hwf1 Hwf2 Hm Hpte.
  apply NoDup_Permutation; [apply (fs_nodup _ _ (wf_alloc _ _ _ _ _ Hwf1))|apply (fs_nodup _ _ (wf_alloc _ _ _ _ _ Hwf2))|].
  assert (∀ f, is_frame (fa s1) f ↔ is_frame (fa s2) f) as Hfr by (intros f; by apply is_frame_machine).
  assert (∀ f, is_frame (fa s1) f → f ∈ fs1 ↔ f ∈ fs2) as Hiff.
  { intros f Hf. rewrite (free_iff_unmapped s1), (free_iff_unmapped s2) by (done || by apply Hfr).
    unfold translate. split; intros Hn pd va Hpd Hva; [rewrite <- Hpte|rewrite Hpte]; auto. }
  pose proof (fs_frames _ _ (wf_alloc _ _ _ _ _ Hwf1)) as Hin1. pose proof (fs_frames _ _ (wf_alloc _ _ _ _ _ Hwf2)) as Hin2.
  intros f. split; intros Hin.
  - apply Hiff; [|done]. by eapply Forall_forall in Hin1.
  - apply Hiff; [|done]. apply Hfr. by eapply Forall_forall in Hin2.
Qed.

(** ** Marking and unmapping one page *)
Lemma mark_entry_ok s own pds fs va e m :
  vm_wf none s own pds fs → cow_ok s own → cr3 s ∈ pds → word va → USER_MEM_START ≤ va →
  pte_at s (cr3 s) va = Some e → writable e = true → m = NEWPAGE_START ∨ m = NEWPAGE_END →
  let v := Z.lor (Z.land e 0xfffff3ff) m in
  ∃ s', mark_entry (cr3 s) va (λ e, Z.lor (Z.land e 0xfffff3ff) m) s = Ok tt s' ∧
    vm_wf none s' own pds fs ∧ cow_ok s' own ∧ cr3 s' = cr3 s ∧ phys s' = phys s ∧ fa s' = fa s ∧
    ∀ pd va', pd ∈ pds → word va' →
      pte_at s' pd va' = if decide (pd = cr3 s ∧ page_of va' = page_of va) then Some v else pte_at s pd va'.
Proof.
  intros Hwf Hcow Hpd Hva Hu Hpte Hwr Hm v.
  destruct (pte_at_inv _ _ _ _ _ _ _ _ Hwf Hpd Hva Hu Hpte) as (d & Hd & Ho & He & Hp & Hne & Hw & Hf).
  assert (present v = true) as Hvp by (unfold present, v; by rewrite mark_test).
  assert (GET_ADDR_FROM_ENTRY v = GET_ADDR_FROM_ENTRY e) as Hva' by (by apply mark_addr).
  unfold mark_entry. rewrite (bind_ok _ _ _ _ _ (kread_ok _ _ _ _ Hd)), (bind_ok _ _ _ _ _ (kread_ok _ _ _ _ He)).
  fold v. rewrite kwrite_ok by eauto. eexists. split; [done|].
  assert (good_pte s v) as Hg.
  { right. split_and!; [|done|by rewrite Hva']. unfold v. apply word_lor; [by apply word_land|].
    destruct Hm as [-> | ->]; done. }
  split_and!; try done.
  - eapply wf_ext; [eapply (wf_write_pte none s own pds fs _ _ e v); [done|by eauto|done|by apply pt_index_range|done]|].
    intros f _. unfold moved, none. rewrite Hva'. case_decide; lia.
  - eapply cow_replace; [exact Hcow|by eauto|exact He|done|]. rewrite (refs_upd_own _ _ _ _ _ e) by (done || by eauto).
    rewrite Hva'. rewrite (Hcow _ _ e (mk_is_Some _ _ Ho) He) by done. rewrite decide_True by done. lia.
  - intros pd va' Hpd' Hva''. by apply (pte_write s own pds fs va e v d).
Qed.

Lemma unmap_step s own pds fs va e :
  vm_wf none s own pds fs → cow_ok s own → cr3 s ∈ pds → word va → USER_MEM_START ≤ va →
  pte_at s (cr3 s) va = Some e →
  ∃ d s' fs', entry_at s (cr3 s) (GET_PD_INDEX va) = Some d ∧
    entry_at s (GET_ADDR_FROM_ENTRY d) (GET_PT_INDEX va) = Some e ∧
    (drop_frame false (GET_ADDR_FROM_ENTRY e) ;;
     kwrite (GET_ADDR_FROM_ENTRY d) (GET_PT_INDEX va) PAGE_TABLE_ENTRY_DEFAULT) s = Ok tt s' ∧
    vm_wf none s' own pds fs' ∧ cow_ok s' own ∧ cr3 s' = cr3 s ∧
    machine_phys_frames (fa s') = machine_phys_frames (fa s) ∧ kmem s' !! 0 = kmem s !! 0 ∧
    (∀ i, entry_at s' (cr3 s) i = entry_at s (cr3 s) i) ∧
    ∀ pd va', pd ∈ pds → word va' →
      pte_at s' pd va' = if decide (pd = cr3 s ∧ page_of va' = page_of va) then None else pte_at s pd va'.
Proof.
  intros Hwf Hcow Hpd Hva Hu Hpte.
  destruct (pte_at_inv _ _ _ _ _ _ _ _ Hwf Hpd Hva Hu Hpte) as (d & Hd & Ho & He & Hp & Hne & Hw & Hf).
  set (f := GET_ADDR_FROM_ENTRY e) in *. set (pt := GET_ADDR_FROM_ENTRY d) in *. set (j := GET_PT_INDEX va) in *.
  pose proof (refs_pos s own pt j e (mk_is_Some _ _ Ho) He) as Hpos. fold f in Hpos.
  assert (f ≠ 0) as Hf0 by (destruct Hf as [_ Hf]; unfold USER_MEM_START in Hf; lia).
  destruct (drop_frame_ok none s own pds fs false f Hwf Hf) as (r & a & Hrun & Ha & Hwf1); [unfold none; lia|].
  set (fs1 := if decide _ then _ else _) in Hwf1. set (s1 := recount r a s) in *.
  assert (entry_at s1 pt j = Some e) as He1 by done.
  exists d, (upd_entry pt j PAGE_TABLE_ENTRY_DEFAULT s1), fs1. split_and!; try done.
  - rewrite (bind_ok _ _ _ _ _ Hrun). by apply kwrite_ok; eauto.
  - eapply wf_ext; [eapply (wf_write_pte _ s1 own pds fs1 pt j e); [done|by eauto|done|by apply pt_index_range|by left]|].
    intros g Hg. unfold moved, bump_at, none. fold f. rewrite addr_default.
    assert (g ≠ 0) by (destruct Hg as [_ Hg]; unfold USER_MEM_START in Hg; lia).
    repeat case_decide; congruence || lia.
  - intros p i e' Hp' Hi Hd' Hwr. pose proof Hi as Hi0. rewrite entry_at_upd in Hi by eauto.
    case_decide as E; [by injection Hi as <-|].
    pose proof (refs_pos _ own p i e' Hp' Hi0) as Hpos'. rewrite (refs_upd_own _ _ _ _ _ e) in * by (done || by eauto).
    change (refs s1 own (GET_ADDR_FROM_ENTRY e')) with (refs s own (GET_ADDR_FROM_ENTRY e')) in *.
    rewrite (Hcow p i e' Hp' Hi Hd' Hwr) in *. rewrite addr_default in *.
    destruct (wf_tab _ _ _ _ _ Hwf p i e' Hp' Hi) as [?|(_ & _ & [_ Hfr])]; [done|].
    rewrite (decide_False (P := 0 = _)) in * by (unfold USER_MEM_START in Hfr; lia). case_decide; lia.
  - apply lookup_insert_ne. destruct (wf_own _ _ _ _ _ Hwf _ _ _ Ho) as (Hk & _).
    destruct (wf_page _ _ _ _ _ Hwf _ Hk) as (_ & ? & _). lia.
  - intros i. rewrite entry_at_upd by eauto. rewrite decide_False; [done|]. intros [E _].
    destruct (wf_pds _ _ _ _ _ Hwf _ Hpd) as [_ Hn]. rewrite E, Ho in Hn. done.
  - intros pd va' Hpd' Hva'. change (pte_at s pd va') with (pte_at s1 pd va').
    rewrite (pte_at_upd _ s1 own pds fs1 pt (cr3 s) (GET_PD_INDEX va) j _ e) by done.
    change (present PAGE_TABLE_ENTRY_DEFAULT) with false.
    assert (page_of va' = page_of va ↔ GET_PD_INDEX va' = GET_PD_INDEX va ∧ GET_PT_INDEX va' = j) as Hs.
    { assert (word (page_of va)) as Hwp by (unfold word, page_of in *; dlia).
      rewrite <- (same_page va' (page_of va)) by (done || unfold page_of; dlia).
      destruct (proj2 (indices_page va (page_of va) Hva Hwp)) as [E1 E2]; [unfold page_of; dlia|].
      by rewrite <- E1, <- E2. }
    case_decide; case_decide; naive_solver.
Qed.

(** ** The loop *)
Lemma unmap_pages_ok n : ∀ fuel s own pds fs va,
  vm_wf none s own pds fs → cow_ok s own → cr3 s ∈ pds →
  va mod 4096 = 0 → USER_MEM_START ≤ va → va + Z.of_nat n * 4096 ≤ 0xFFFFF000 → (n < fuel)%nat →
  (∀ i, 0 ≤ i < Z.of_nat n → ∃ e, pte_at s (cr3 s) (va + i * 4096) = Some e ∧
     (GET_NEWPAGE_FLAGS e = NEWPAGE_PAGE ∨ GET_NEWPAGE_FLAGS e = NEWPAGE_END)) →
  pte_at s (cr3 s) (va + Z.of_nat n * 4096) = None →
  (∃ d, entry_at s (cr3 s) (GET_PD_INDEX (va + Z.of_nat n * 4096)) = Some d ∧ d ≠ PAGE_DIR_ENTRY_DEFAULT) →
  ∃ s' fs', unmap_pages fuel (cr3 s) va s = Ok tt s' ∧ vm_wf none s' own pds fs' ∧ cow_ok s' own ∧
    cr3 s' = cr3 s ∧ machine_phys_frames (fa s') = machine_phys_frames (fa s) ∧
    ∀ pd va', pd ∈ pds → word va' →
      pte_at s' pd va' = if decide (pd = cr3 s ∧ va ≤ va' < va + Z.of_nat n * 4096) then None else pte_at s pd va'.
Proof.
  induction n as [|n IH]; intros [|fuel] s own pds fs va Hwf Hcow Hpd Hal Hu Hend Hfuel Hmap Hnone (d & Hd & Hdn); [lia| |lia|].
  - replace (va + Z.of_nat 0 * 4096) with va in * by lia. assert (word va) as Hva by (unfold word, USER_MEM_START in *; lia).
    destruct (user_entry s own pds fs (cr3 s) va Hwf Hpd Hva Hu) as (d' & Hd' & [[-> _]|[_ (e & He & He')]]); [congruence|].
    assert (e = PAGE_TABLE_ENTRY_DEFAULT) as -> by (destruct He' as [[? _]|[_ ?]]; congruence).
    exists s, fs. cbn [unmap_pages]. rewrite (bind_ok _ _ _ _ _ (kread_ok _ _ _ _ Hd')), (bind_ok _ _ _ _ _ (kread_ok _ _ _ _ He)).
    rewrite decide_False by (by intros [?|?]). split_and!; try done.
    intros pd va' _ _. rewrite decide_False; [done|lia].
  - assert (word va) as Hva by (unfold word, USER_MEM_START in *; lia).
    destruct (Hmap 0) as (e & He & Hfl); [lia|]. replace (va + 0 * 4096) with va in He by lia.
    destruct (unmap_step s own pds fs va e Hwf Hcow Hpd Hva Hu He) as
      (d0 & s1 & fs1 & Hd0 & He0 & Hrun & Hwf1 & Hcow1 & Hcr1 & Hm1 & _ & Hdir & Hpte).
    assert (u32 (va + PAGE_SIZE) = va + 4096) as Enext by (apply u32_small; unfold word, USER_MEM_START, PAGE_SIZE in *; lia).
    destruct (IH fuel s1 own pds fs1 (va + 4096)) as (s2 & fs2 & Hrun2 & Hwf2 & Hcow2 & Hcr2 & Hm2 & Hpte2);
      rewrite ?Hcr1; try done; try lia; try dlia.
    { intros i Hi. destruct (Hmap (i + 1)) as (e' & He' & Hfl'); [lia|]. exists e'. split; [|done].
      rewrite Hpte, decide_False by (done || unfold word, USER_MEM_START, page_of in *; dlia).
      rewrite <- He'. f_equal. lia. }
    { rewrite Hpte, decide_False by (done || unfold word, USER_MEM_START, page_of in *; dlia).
      rewrite <- Hnone. f_equal. lia. }
    { exists d. rewrite Hdir. replace (va + 4096 + Z.of_nat n * 4096) with (va + Z.of_nat (S n) * 4096) by lia. done. }
    exists s2, fs2. cbn [unmap_pages].
    rewrite (bind_ok _ _ _ _ _ (kread_ok _ _ _ _ Hd0)), (bind_ok _ _ _ _ _ (kread_ok _ _ _ _ He0)), decide_True by done.
    rewrite <- bind_assoc, (bind_ok _ _ _ _ _ Hrun), Enext, <- Hcr1. split_and!; try done; [congruence..|].
    intros pd va' Hpd' Hva'. rewrite Hpte2, Hpte, Hcr1 by done. unfold page_of.
    destruct (decide (pd = cr3 s)) as [->|Hne]; [|by rewrite !decide_False by naive_solver].
    repeat case_decide; try done; exfalso; dlia.
Qed.

(** ** Adding a region *)
Definition new_page_flags : Z :=
  Z.lor (Z.lor (Z.lor PAGE_ENTRY_PRESENT READ_WRITE_ENABLE) USER_MODE) NEWPAGE_PAGE.

(** Page [va] of the running task is a writable, zero-filled frame that was free,
    with the mark [m]. *)
Definition fresh_page s fs (va m : Z) : Prop :=
  ∃ e, pte_at s (cr3 s) va = Some e ∧ GET_ADDR_FROM_ENTRY e ∈ fs ∧ writable e = true ∧
    GET_NEWPAGE_FLAGS e = m ∧ frame_data s (GET_ADDR_FROM_ENTRY e) = ∅.

(** The mark of page [i] of a region of [n] pages. *)
Definition region_mark (n i : Z) : Z :=
  if decide (i = 0) then NEWPAGE_START else if decide (i = n - 1) then NEWPAGE_END else NEWPAGE_PAGE.

Record region_added s own fs s1 own1 fs1 pds (base n : Z) : Prop := {
  ra_wf : vm_wf none s1 own1 pds fs1;
  ra_cow : cow_ok s1 own1;
  ra_cr3 : cr3 s1 = cr3 s;
  ra_machine : machine_phys_frames (fa s1) = machine_phys_frames (fa s);
  ra_new : ∀ i, 0 ≤ i < n → fresh_page s1 fs (base + i * 4096) (region_mark n i);
  ra_old : ∀ pd va, pd ∈ pds → word va → (pd = cr3 s → ¬ base ≤ va < base + n * 4096) →
    pte_at s1 pd va = pte_at s pd va;
}.

Lemma fresh_frame_entry s own pds fs f :
  vm_wf none s own pds fs → f ∈ fs →
  writable (Z.lor f new_page_flags) = true ∧ GET_ADDR_FROM_ENTRY (Z.lor f new_page_flags) = f ∧
  GET_NEWPAGE_FLAGS (Z.lor f new_page_flags) = NEWPAGE_PAGE.
Proof.
  intros Hwf Hf. pose proof (wf_machine _ _ _ _ _ Hwf) as Hm.
  pose proof (fs_frames _ _ (wf_alloc _ _ _ _ _ Hwf)) as Hall. eapply Forall_forall in Hall; [|exact Hf].
  destruct (frame_entry (fa s) f new_page_flags Hm Hall) as (_ & _ & _ & Ha); [done..|].
  destruct Hall as [Hal [Hlo _]]. unfold USER_MEM_START in Hlo. split_and!; [|done|apply new_entry_flags; [done|lia]].
  unfold writable, test. apply bool_decide_true. rewrite Z.land_lor_distr_l. change (Z.land new_page_flags READ_WRITE_ENABLE) with 2.
  intros E%Z.lor_eq_0_iff. lia.
Qed.

(** The two marks, on a region of one page or more. *)
Lemma marks_ok s own pds fs base la eb el :
  vm_wf none s own pds fs → cow_ok s own → cr3 s ∈ pds →
  word base → word la → USER_MEM_START ≤ base → USER_MEM_START ≤ la → base mod 4096 = 0 → la mod 4096 = 0 →
  pte_at s (cr3 s) base = Some eb → pte_at s (cr3 s) la = Some el → writable eb = true → writable el = true →
  ∃ s' v, (mark_entry (cr3 s) la SET_NEWPAGE_END ;; mark_entry (cr3 s) base SET_NEWPAGE_START) s = Ok tt s' ∧
    vm_wf none s' own pds fs ∧ cow_ok s' own ∧ cr3 s' = cr3 s ∧ phys s' = phys s ∧ fa s' = fa s ∧
    GET_ADDR_FROM_ENTRY v = GET_ADDR_FROM_ENTRY eb ∧ writable v = true ∧ GET_NEWPAGE_FLAGS v = NEWPAGE_START ∧
    ∀ pd va, pd ∈ pds → word va →
      pte_at s' pd va = if decide (pd = cr3 s ∧ page_of va = base) then Some v
                        else if decide (pd = cr3 s ∧ page_of va = la) then Some (SET_NEWPAGE_END el)
                        else pte_at s pd va.
Proof.
  intros Hwf Hcow Hpd Hwb Hwl Hub Hul Hab Hal Hpb Hpl Hrb Hrl.
  assert (page_of base = base ∧ page_of la = la) as [Eb El] by (unfold page_of; dlia).
  destruct (mark_entry_ok s own pds fs la el NEWPAGE_END) as
    (s1 & Hrun1 & Hwf1 & Hcow1 & Hcr1 & Hph1 & Hfa1 & Hpte1); try done; [by right|].
  set (e1 := if decide (base = la) then SET_NEWPAGE_END el else eb).
  assert (pte_at s1 (cr3 s1) base = Some e1) as He1.
  { rewrite Hcr1, Hpte1, Eb, El by done. unfold e1. repeat case_decide; naive_solver. }
  assert (GET_ADDR_FROM_ENTRY e1 = GET_ADDR_FROM_ENTRY eb ∧ writable e1 = true) as [Ea1 Ew1].
  { unfold e1. case_decide as E; [|done]. subst la. assert (el = eb) as -> by congruence.
    split; [apply mark_addr; by right|]. unfold writable, SET_NEWPAGE_END. rewrite mark_test; [done|by right|done]. }
  destruct (mark_entry_ok s1 own pds fs base e1 NEWPAGE_START) as
    (s2 & Hrun2 & Hwf2 & Hcow2 & Hcr2 & Hph2 & Hfa2 & Hpte2); try done; [by rewrite Hcr1|by left|].
  exists s2, (SET_NEWPAGE_START e1).
  split. { rewrite (bind_ok _ _ _ _ _ Hrun1), <- Hcr1. exact Hrun2. }
  split_and!; try done; try congruence.
  - rewrite <- Ea1. apply mark_addr. by left.
  - unfold writable, SET_NEWPAGE_START. rewrite mark_test; [done|by left|done].
  - apply mark_flags. by left.
  - intros pd va Hpd' Hva. rewrite Hpte2, Hpte1, Hcr1, Eb, El by done. done.
Qed.

Lemma map_new_pages_ok s own pds fs base n :
  vm_wf none s own pds fs → cow_ok s own → cr3 s ∈ pds →
  USER_MEM_START ≤ base → base mod 4096 = 0 → 0 < n → base + n * 4096 ≤ 0xFFFFF000 →
  (∀ va, word va → base ≤ va < base + n * 4096 → pte_at s (cr3 s) va = None) →
  ∃ rc s1 own1 fs1, map_new_pages base (n * 4096) s = Ok rc s1 ∧
    (rc = ERR_NOMEM ∧ vm_wf none s1 own1 pds fs1 ∧ cow_ok s1 own1 ∧ cr3 s1 = cr3 s ∨
     rc = 0 ∧ region_added s own fs s1 own1 fs1 pds base n).
Proof.
  intros Hwf Hcow Hpd Hu Hal Hn Hend Hfree. pose proof Hu as Hu'. unfold USER_MEM_START in Hu'.
  unfold map_new_pages. rewrite bind_get. fold new_page_flags.
  destruct (map_segment_ok s own pds fs (cr3 s) base (n * 4096) new_page_flags) as
    (rc & s1 & own1 & fs1 & Hrun & Hext & Hrc); [done|done|done|done|lia|lia|done|done|].
  rewrite (bind_ok _ _ _ _ _ Hrun). rewrite set_cr3_id in Hext. destruct Hext as [Hwf1 Hcow1 Hcr1 Hm1 _ _ Hpte _].
  destruct Hrc as [->|[-> Hmapped]].
  { rewrite decide_True by done. eexists _, s1, own1, fs1. split; [done|]. by left. }
  rewrite decide_False by done. assert (page_of base = base) as Epb by (unfold page_of; dlia).
  assert (∀ va, word va → base ≤ va < base + n * 4096 → ∃ f, f ∈ fs ∧
    pte_at s1 (cr3 s) va = Some (Z.lor f new_page_flags) ∧ frame_data s1 f = ∅) as Hnew.
  { intros va Hva Hr. destruct (Hpte (cr3 s) va Hpd Hva) as [E|(_ & _ & _ & f & Hf & _ & Hp & Hz)]; [|by exists f].
    destruct (Hmapped va Hva) as [x Hx]; [rewrite Epb; unfold page_of; dlia|]. by rewrite E, Hfree in Hx. }
  set (la := base + (n - 1) * 4096).
  assert (word base ∧ word la ∧ la mod 4096 = 0) as (Hwb & Hla & Hlal) by (unfold la, word; split_and!; try lia; dlia).
  assert (Z.land (u32 (base + n * 4096 - 1)) PAGE_ROUND_DOWN = la) as ->.
  { rewrite u32_small by (unfold word; lia). rewrite page_of_land by (unfold word; lia). unfold page_of, la. dlia. }
  destruct (Hnew base Hwb) as (fb & Hfb & Hpb & Hzb); [lia|]. destruct (Hnew la Hla) as (fl & Hfl & Hpl & Hzl); [unfold la; lia|].
  destruct (fresh_frame_entry _ _ _ _ fb Hwf Hfb) as (Hwrb & Hab & _), (fresh_frame_entry _ _ _ _ fl Hwf Hfl) as (Hwrl & Hal' & _).
  rewrite <- Hcr1 in *.
  destruct (marks_ok s1 own1 pds fs1 base la _ _ Hwf1 Hcow1 Hpd Hwb Hla Hu ltac:(unfold la, USER_MEM_START; lia) Hal Hlal Hpb Hpl Hwrb Hwrl)
    as (s2 & v & Hrun2 & Hwf2 & Hcow2 & Hcr2 & Hph2 & Hfa2 & Hva & Hvw & Hvf & Hpte2).
  rewrite <- bind_assoc, (bind_ok _ _ _ _ _ Hrun2). unfold set_cur_pd. rewrite bind_modify, <- Hcr2, set_cr3_id.
  eexists 0, s2, own1, fs1. split; [done|]. right. split; [done|].
  split; try done; [congruence|by rewrite Hfa2| |].
  - intros i Hi. unfold fresh_page. rewrite Hcr2. unfold frame_data. rewrite Hph2. fold (frame_data s1).
    assert (word (base + i * 4096)) as Hwi by (unfold word; lia). rewrite Hpte2 by done.
    assert (page_of (base + i * 4096) = base + i * 4096) as -> by (unfold page_of; dlia). unfold region_mark.
    destruct (decide (i = 0)) as [->|Hi0]; [|rewrite decide_False by lia; destruct (decide (i = n - 1)) as [->|Hin]].
    + rewrite decide_True by (split; [done|lia]). exists v. rewrite Hva, Hab. by split_and!.
    + rewrite decide_True by done. exists (SET_NEWPAGE_END (Z.lor fl new_page_flags)). split; [done|].
      unfold SET_NEWPAGE_END, writable. rewrite mark_addr, mark_flags, mark_test, Hal' by (first [by right|done]). done.
    + rewrite decide_False by (unfold la; lia). destruct (Hnew (base + i * 4096) Hwi) as (f & Hf & Hp & Hz); [lia|].
      destruct (fresh_frame_entry _ _ _ _ f Hwf Hf) as (Hw & Ha & Hg). exists (Z.lor f new_page_flags). by rewrite Ha.
  - intros pd va Hpd' Hva' Hout. rewrite <- Hcr1 in Hout. rewrite Hpte2 by done.
    rewrite decide_False by (intros [-> ?]; apply Hout; [done|unfold page_of in *; dlia]).
    rewrite decide_False by (intros [-> ?]; apply Hout; [done|unfold la, page_of in *; dlia]).
    destruct (Hpte pd va Hpd' Hva') as [E|(-> & Hr & _)]; [done|]. exfalso. apply Hout; [done|].
    rewrite Epb in Hr. unfold page_of in Hr. dlia.
Qed.

(** ** Removing it again *)
Lemma remove_region s own fs s1 own1 fs1 pds base n fuel :
  vm_wf none s own pds fs → region_added s own fs s1 own1 fs1 pds base n → cr3 s ∈ pds →
  USER_MEM_START ≤ base → base mod 4096 = 0 → 0 < n → base + n * 4096 < 0xFFFFF000 →
  (∀ va, word va → base ≤ page_of va ≤ base + n * 4096 → pte_at s (cr3 s) va = None) →
  (base + n * 4096) mod 4194304 ≠ 0 → (Z.to_nat n ≤ fuel)%nat →
  ∃ s2 fs2, unmap_new_pages fuel base s1 = Ok 0 s2 ∧ vm_wf none s2 own1 pds fs2 ∧ cow_ok s2 own1 ∧
    cr3 s2 = cr3 s ∧ fs2 ≡ₚ fs ∧ ∀ pd va, pd ∈ pds → word va → pte_at s2 pd va = pte_at s pd va.
Proof.
  intros Hwf [Hwf1 Hcow1 Hcr1 Hm1 Hnew Hold] Hpd Hu Hal Hn Hend Hfree Hlast Hfuel.
  pose proof Hu as Hu'. unfold USER_MEM_START in Hu'. rewrite <- Hcr1 in *.
  assert (word base) as Hwb by (unfold word; lia).
  destruct (Hnew 0) as (e0 & He0 & _ & _ & Hm0 & _); [lia|]. replace (base + 0 * 4096) with base in He0 by lia.
  destruct (unmap_step s1 own1 pds fs1 base e0 Hwf1 Hcow1 Hpd Hwb Hu He0) as
    (d0 & s2 & fs2 & Hd0 & Hp0 & Hrun & Hwf2 & Hcow2 & Hcr2 & Hm2 & _ & Hdir2 & Hpte2).
  set (hi := base + n * 4096). assert (word hi) as Hwhi by (unfold hi, word; lia).
  assert (∃ d, entry_at s1 (cr3 s1) (GET_PD_INDEX hi) = Some d ∧ d ≠ PAGE_DIR_ENTRY_DEFAULT) as (d & Hd & Hdn).
  { set (la := base + (n - 1) * 4096). assert (word la) as Hwla by (unfold la, word; lia).
    destruct (Hnew (n - 1)) as (el & Hel & _); [lia|].
    destruct (user_entry s1 own1 pds fs1 (cr3 s1) la Hwf1 Hpd Hwla) as (d & Hd & Hd');
      [unfold la, USER_MEM_START; lia|]. exists d. fold la in Hel.
    rewrite pd_index_eq in * by done. replace (hi / 4194304) with (la / 4194304) by (unfold la, hi in *; dlia).
    split; [done|]. destruct Hd' as [[_ E]|[? _]]; [congruence|done]. }
  destruct (unmap_pages_ok (Z.to_nat (n - 1)) fuel s2 own1 pds fs2 (base + 4096)) as
    (s3 & fs3 & Hrun3 & Hwf3 & Hcow3 & Hcr3 & Hm3 & Hpte3);
    rewrite ?Hcr2, ?Z2Nat.id, ?Hdir2 by lia; try done; try lia; try dlia.
  - intros i Hi. destruct (Hnew (i + 1)) as (e & He & _ & _ & Hf & _); [lia|]. exists e.
    replace (base + 4096 + i * 4096) with (base + (i + 1) * 4096) by lia.
    rewrite Hpte2, decide_False by (done || unfold word, page_of; dlia). split; [done|].
    rewrite Hf. unfold region_mark. rewrite decide_False by lia. case_decide; [by right|by left].
  - replace (base + 4096 + (n - 1) * 4096) with hi by (unfold hi; lia).
    rewrite Hpte2, decide_False by (done || unfold hi, page_of; dlia).
    rewrite Hold, Hcr1 by (done || unfold hi; lia). rewrite <- Hcr1. apply Hfree; [done|]. unfold hi, page_of. dlia.
  - exists d. replace (base + 4096 + (n - 1) * 4096) with hi by (unfold hi; lia). done.
  - assert (∀ pd va, pd ∈ pds → word va → pte_at s3 pd va = pte_at s pd va) as Hback.
    { intros pd va Hpd' Hva. rewrite Hpte3, Hcr2, Z2Nat.id, Hpte2 by (done || lia).
      destruct (decide (pd = cr3 s1)) as [->|Hne].
      2:{ rewrite !decide_False by naive_solver. apply Hold; [done..|]. intros E. congruence. }
      destruct (decide (base ≤ va < hi)) as [Hin|Hout].
      - rewrite Hfree by (done || unfold hi, page_of in *; dlia).
        repeat case_decide; try done. exfalso. unfold hi, page_of in *. dlia.
      - rewrite !decide_False by (unfold hi, page_of in *; dlia). apply Hold; [done..|]. intros _. exact Hout. }
    exists s3, fs3. split_and!; try done; [| |].
    + unfold unmap_new_pages. rewrite bind_get, (bind_ok _ _ _ _ _ (kread_ok _ _ _ _ Hd0)), (bind_ok _ _ _ _ _ (kread_ok _ _ _ _ Hp0)).
      rewrite decide_False by (rewrite Hm0; intros Hx; by apply Hx). rewrite <- bind_assoc, (bind_ok _ _ _ _ _ Hrun).
      rewrite u32_small by (unfold word, PAGE_SIZE; lia). rewrite <- Hcr2. change PAGE_SIZE with 4096.
      rewrite (bind_ok _ _ _ _ _ Hrun3). unfold set_cur_pd. rewrite bind_modify, <- Hcr3, set_cr3_id. done.
    + congruence.
    + apply (same_free s3 own1 s own pds); try done. congruence.
Qed.

(** C20. [new_pages] with a page-aligned region of user memory either finds a
    mapped page in it (or right after it) and changes nothing, or runs out of
    memory, or maps every page of the region to a writable, zero-filled frame
    that was free, and nothing else.  [remove_pages] then succeeds, gives back
    exactly those frames and leaves every address space as it was before.  The
    page after the region must not start a new page table, because
    [remove_pages] looks at its entry without checking that the table exists. *)
Theorem new_pages_round_trip s own pds fs arg base len fuel :
  vm_wf none s own pds fs → cow_ok s own → cr3 s ∈ pds → word_at s arg base → word_at s (u32 (arg + 4)) len →
  base mod 4096 = 0 → len mod 4096 = 0 → query_range base len →
  (base + len) mod 4194304 ≠ 0 → (Z.to_nat (len / 4096) ≤ fuel)%nat →
  ∃ rc s1 own1 fs1, new_pages_handler_c arg s = Ok rc s1 ∧
    (rc = ERR_INVAL ∧ s1 = s ∧
       (∃ va, word va ∧ base ≤ page_of va ≤ base + len ∧ is_Some (pte_at s (cr3 s) va)) ∨
     rc = ERR_NOMEM ∧ vm_wf none s1 own1 pds fs1 ∧ cow_ok s1 own1 ∨
     rc = 0 ∧ region_added s own fs s1 own1 fs1 pds base (len / 4096) ∧
       ∃ s2 fs2, remove_pages_handler_c fuel base s1 = Ok 0 s2 ∧ vm_wf none s2 own1 pds fs2 ∧ cow_ok s2 own1 ∧
         cr3 s2 = cr3 s ∧ fs2 ≡ₚ fs ∧ ∀ pd va, pd ∈ pds → word va → pte_at s2 pd va = pte_at s pd va).
Proof.
  intros Hwf Hcow Hpd Hbase Hlen Hab Hal Hq Hlast Hfuel. pose proof Hq as (Hu & Hl & He). pose proof Hu as Hu'. unfold USER_MEM_START in Hu'.
  assert (Z.rem (s32 base) PAGE_SIZE = 0) as Hrb.
  { unfold PAGE_SIZE. apply Z.rem_mod_eq_0; [done|]. unfold s32 in *. dlia. }
  assert (len = len / 4096 * 4096) as El by dlia.
  unfold new_pages_handler_c. rewrite (bind_ok _ _ _ _ _ (read_word_ok s arg base ltac:(unfold word; lia) Hbase)).
  rewrite (bind_ok _ _ _ _ _ (read_word_ok s _ len ltac:(unfold word; lia) Hlen)).
  rewrite s32_small by lia. rewrite decide_False; last first.
  { rewrite Hrb. unfold PAGE_SIZE. rewrite Z.rem_mod_nonneg, Hal by lia. lia. }
  destruct (is_memory_range_mapped_ok s own pds fs base len Hwf Hpd Hq) as (r & Hr & Hcase).
  rewrite (bind_ok _ _ _ _ _ Hr). assert (page_of base = base) as Epb by (unfold page_of; dlia). rewrite Epb in Hcase.
  destruct Hcase as [[-> Hm]|[-> Hnone]].
  { rewrite decide_True by done. exists ERR_INVAL, s, own, fs. split; [done|]. by left. }
  rewrite decide_False by (intros E; by apply E). rewrite El in Hnone, Hlast, He |- *.
  replace (len / 4096 * 4096 / 4096) with (len / 4096) by dlia.
  destruct (map_new_pages_ok s own pds fs base (len / 4096)) as (rc & s1 & own1 & fs1 & Hrun & Hres);
    [done..|dlia|lia| |].
  { intros va Hva Hin. apply Hnone; [done|]. unfold page_of. dlia. }
  exists rc, s1, own1, fs1. split; [done|]. right. destruct Hres as [(-> & ? & ? & _)|[-> Hadd]]; [by left|right]. split_and!; [done..|].
  unfold remove_pages_handler_c. rewrite decide_False by (rewrite Hrb; intros E; by apply E).
  apply (remove_region s own fs s1 own1 fs1 pds base (len / 4096)); try done; try lia; dlia.
Qed.
End new_pages.

(** ** An instance: the small machine with a region for [new_pages] in its page *)
Definition demo_packet : vm bump :=
  set_phys {[0x1000000 := {[2 := 64; 3 := 1; 5 := 16]}]} demo_rw.

Lemma demo_packet_words : word_at demo_packet 0x1000000 0x1400000 ∧ word_at demo_packet (u32 (0x1000000 + 4)) 4096.
Proof.
  split; (intros i b Hi; do 4 (destruct i as [|i]; [vm_compute in Hi; injection Hi as <-; split; vm_compute; reflexivity|]));
    by destruct i.
Qed.

Lemma new_pages_round_trip_witness :
  ∃ rc s1, new_pages_handler_c 0x1000000 demo_packet = Ok rc s1.
Proof.
  destruct demo_rw_wf as (own & fs & Hwf & Hcow). destruct demo_packet_words as [Hb Hl].
  assert (vm_wf none demo_packet own {[demo_pd]} fs) as Hwf' by (destruct Hwf; split; assumption).
  assert (cr3 demo_packet ∈ ({[demo_pd]} : gset Z)) as Hpd by (apply elem_of_singleton; vm_compute; reflexivity).
  destruct (new_pages_round_trip demo_packet own {[demo_pd]} fs 0x1000000 0x1400000 4096 1 Hwf' Hcow Hpd Hb Hl)
    as (rc & s1 & _ & _ & Hrun & _);
    [reflexivity|reflexivity|unfold query_range, USER_MEM_START; lia|vm_compute; discriminate|vm_compute; constructor|].
  exists rc, s1. exact Hrun.
Defined.
