(* ===== verification/VMReach.v ===== *)
(** * Address spaces from boot on: isolation and protection of the kernel

    [vm_step] is one operation on the memory of the machine: a call of an
    operation of vm.c with the arguments the kernel gives it, or a store of a
    process to its own memory.  [reachable] are the states that sequences of such
    operations reach from power-on; in all of them the invariant of VMInv.v
    holds, what one process stores no other process sees, and user mode reaches
    nothing but user frames. *)

From S2P Require Import Prelude Locks FrameAlloc Paging VM VMInv VMPages VMMap VMCow VMFault VMQuery VMBoot VMTheorems CString UserMem NewPages.

Section reach.
Context {H : Type} `{KernelHeapSpec H}.
Implicit Types (s : vm H) (own : gmap Z (Z * Z)) (pds : gset Z) (fs : list Z).

(** What the processor lets user mode write. *)
Definition user_writable s (pd va : Z) : bool :=
  user_accessible s pd va && match pte_at s pd va with Some e => writable e | None => false end.

(** A new directory, unless there was no memory for it. *)
Definition add_dir (pd : Z) pds : gset Z := if decide (pd = NULL) then pds else {[pd]} ∪ pds.

(** The memory of the machine and the directories in use.  Where the code looks
    at the table of an address without checking that there is one (the fault
    handler and [remove_pages]), address 0 holds no table. *)
Inductive vm_step : vm H * gset Z → vm H * gset Z → Prop :=
  | step_create s pds pd s' :
      create_page_directory s = Ok pd s' → vm_step (s, pds) (s', add_dir pd pds)
  | step_clone s pds pd new s' :
      pd ∈ pds → clone_paging_info pd s = Ok new s' → vm_step (s, pds) (s', add_dir new pds)
  | step_free s pds pd s' :
      pd ∈ pds → pd ≠ cr3 s → free_paging_info pd s = Ok tt s' → vm_step (s, pds) (s', pds ∖ {[pd]})
  | step_switch s pds pd s' :
      pd ∈ pds → set_cur_pd pd s = Ok tt s' → vm_step (s, pds) (s', pds)
  | step_load s pds se rc s' :
      segments_ok se → setup_page_table (Some se) (cr3 s) s = Ok rc s' → vm_step (s, pds) (s', pds)
  | step_map s pds pd start len flags rc s' :
      pd ∈ pds → segment_ok start len → 0 ≤ flags < 4096 → present flags = true →
      map_segment start len pd flags s = Ok rc s' → vm_step (s, pds) (s', pds)
  | step_fault s pds addr rc s' :
      word addr → kmem s !! 0 = None → is_addr_cow addr s = Ok true s → handle_cow addr s = Ok rc s' →
      vm_step (s, pds) (s', pds)
  | step_new_pages s pds base n rc s' :
      base mod 4096 = 0 → query_range base (n * 4096) →
      is_memory_range_mapped base (n * 4096) s = Ok MEMORY_REGION_UNMAPPED s →
      map_new_pages base (n * 4096) s = Ok rc s' → vm_step (s, pds) (s', pds)
  | step_remove_pages s pds fuel base rc s' :
      word base → kmem s !! 0 = None → remove_pages_handler_c fuel base s = Ok rc s' → vm_step (s, pds) (s', pds)
  | step_store s pds va b s' :
      word va → user_writable s (cr3 s) va = true → write_user va b s = Ok tt s' → vm_step (s, pds) (s', pds).

Definition mem_inv (m : vm H * gset Z) : Prop :=
  ∃ own fs, vm_wf none m.1 own m.2 fs ∧ cow_ok m.1 own ∧ cr3 m.1 ∈ m.2.

(** ** Each operation keeps the invariant *)
Lemma step_create_inv s pds pd s' :
  mem_inv (s, pds) → create_page_directory s = Ok pd s' → mem_inv (s', add_dir pd pds).
Proof.
  intros (own & fs & Hwf & Hcow & Hcr) Hrun. cbn in *.
  destruct (create_page_directory_ok none s own pds fs Hwf) as (a & s1 & Hrun' & Hcase).
  rewrite Hrun in Hrun'. injection Hrun' as <- <-. unfold add_dir. exists own, fs. cbn.
  destruct Hcase as [(-> & (h & -> & _) & Hwf')|(l & Hnp & Hwf' & _)].
  { by rewrite decide_True. }
  rewrite decide_False by apply Hnp. destruct (np_shape _ _ _ _ _ _ Hnp) as (h & km & Es).
  split; [done|]. split; [|by rewrite Es; apply elem_of_union_r].
  eapply (cow_ext s); [|done]. intros p Hp. rewrite (np_kmem _ _ _ _ _ _ Hnp), lookup_insert_ne; [done|]. intros ->.
  eapply (np_fresh _ _ _ _ _ _ Hnp), (in_use_page _ _ _ _ _ _ Hwf). by left.
Qed.

Lemma step_clone_inv s pds pd new s' :
  mem_inv (s, pds) → pd ∈ pds → clone_paging_info pd s = Ok new s' → mem_inv (s', add_dir new pds).
Proof.
  intros (own & fs & Hwf & Hcow & Hcr) Hpd Hrun. cbn in *.
  destruct (clone_paging_info_ok s own pds fs pd Hwf Hcow Hpd) as (new' & s1 & Hrun' & Hcase).
  rewrite Hrun in Hrun'. injection Hrun' as <- <-. unfold add_dir.
  destruct Hcase as [(-> & fs' & Hrb)|(Hn & own' & Hfk)].
  - rewrite decide_True by done. exists own, fs'. cbn. rewrite (rb_cr3 _ _ _ _ _ _ Hrb). by split_and!; [apply Hrb..|].
  - rewrite decide_False by done. exists own', fs. cbn. rewrite (fk_cr3 _ _ _ _ _ _ _ _ Hfk).
    by split_and!; [apply Hfk..|apply elem_of_union_r].
Qed.

Lemma cow_freed s own pds fs pd s' :
  vm_wf none s own pds fs → cow_ok s own → pd ∈ pds →
  (∀ p, in_use s (disown_dir s pd own) (pds ∖ {[pd]}) p → kmem s' !! p = kmem s !! p) →
  cow_ok s' (disown_dir s pd own).
Proof.
  intros Hwf Hcow Hpd Hk pt j e [w Ho] Hj Hd Hw.
  assert (∀ p, is_Some (disown_dir s pd own !! p) → kmem s' !! p = kmem s !! p) as Hk' by (intros p Hp; apply Hk; by left).
  pose proof (refs_pos s' _ pt j e (mk_is_Some _ _ Ho) Hj) as Hpos.
  rewrite (refs_ext s s') in * by done. rewrite (entry_at_ext s s') in Hj by (apply Hk'; eauto).
  pose proof (disown_dir_sub _ _ _ _ _ Ho) as Ho'.
  pose proof (Hcow pt j e (mk_is_Some _ _ Ho') Hj Hd Hw) as Hone.
  assert (dir_owns s pd 4 own) as Hdo by (intros i d Hi; by apply (wf_dir _ _ _ _ _ Hwf)).
  pose proof (disown_refs s pd own (GET_ADDR_FROM_ENTRY e) user_entries 4 ltac:(lia) ltac:(by rewrite user_entries_Z) Hdo) as Hr.
  fold (disown_dir s pd own) in Hr. pose proof (dir_refs_nonneg s pd (GET_ADDR_FROM_ENTRY e) user_entries 4). lia.
Qed.

Lemma step_free_inv s pds pd s' :
  mem_inv (s, pds) → pd ∈ pds → pd ≠ cr3 s → free_paging_info pd s = Ok tt s' → mem_inv (s', pds ∖ {[pd]}).
Proof.
  intros (own & fs & Hwf & Hcow & Hcr) Hpd Hne Hrun. cbn in *.
  destruct (free_paging_info_ok s own pds fs pd Hwf Hpd) as (s1 & fs' & Hrun' & Hwf' & _ & _ & Hcr' & _ & Hk & _).
  rewrite Hrun in Hrun'. injection Hrun' as <-. exists (disown_dir s pd own), fs'. cbn.
  split_and!; [done|by eapply cow_freed|]. rewrite Hcr'. by apply elem_of_difference; rewrite elem_of_singleton.
Qed.

Lemma step_fault_inv s pds addr rc s' :
  mem_inv (s, pds) → word addr → kmem s !! 0 = None → is_addr_cow addr s = Ok true s →
  handle_cow addr s = Ok rc s' → mem_inv (s', pds).
Proof.
  intros (own & fs & Hwf & Hcow & Hcr) Hva Hz Hc Hrun. cbn in *. unfold is_addr_cow in Hc.
  case_decide as Hu; [done|]. rewrite bind_get in Hc. apply Z.nlt_ge in Hu.
  destruct (user_entry s own pds fs (cr3 s) addr Hwf Hcr Hva Hu) as (d & Hd & Hcase).
  rewrite (bind_ok _ _ _ _ _ (kread_ok _ _ _ _ Hd)) in Hc.
  destruct Hcase as [[-> _]|(_ & e & He & Hcase)].
  { by rewrite (bind_stop _ _ _ _ (kread_bad s 0 _ Hz)) in Hc. }
  rewrite (bind_ok _ _ _ _ _ (kread_ok _ _ _ _ He)) in Hc.
  destruct Hcase as [[-> _]|[_ Hpte]]; [by injection Hc|].
  destruct (handle_cow_ok s own pds fs addr e Hwf Hcow Hcr Hva Hu Hpte)
    as [(Hrun' & _)|(s1 & f & fs' & Hrun' & Hrs & _)]; rewrite Hrun in Hrun'; injection Hrun' as -> ->.
  - by exists own, fs.
  - exists own, fs'. cbn. rewrite (rs_cr3 _ _ _ _ _ _ _ _ Hrs). by split_and!; [apply Hrs..|].
Qed.

Lemma step_new_pages_inv s pds base n rc s' :
  mem_inv (s, pds) → base mod 4096 = 0 → query_range base (n * 4096) →
  is_memory_range_mapped base (n * 4096) s = Ok MEMORY_REGION_UNMAPPED s →
  map_new_pages base (n * 4096) s = Ok rc s' → mem_inv (s', pds).
Proof.
  intros (own & fs & Hwf & Hcow & Hcr) Hal Hq Hm Hrun. cbn in *. pose proof Hq as (Hu & Hl & He).
  destruct (is_memory_range_mapped_ok s own pds fs base (n * 4096) Hwf Hcr Hq) as (r & Hr & Hcase).
  rewrite Hm in Hr. injection Hr as <-. destruct Hcase as [[? _]|[_ Hnone]]; [done|].
  destruct (map_new_pages_ok s own pds fs base n Hwf Hcow Hcr Hu Hal) as (rc' & s1 & own1 & fs1 & Hrun' & Hres); [lia|lia| |].
  { intros va Hva Hin. apply Hnone; [done|]. unfold page_of. dlia. }
  rewrite Hrun in Hrun'. injection Hrun' as <- <-. exists own1, fs1. cbn.
  destruct Hres as [(_ & ? & ? & ->)|[_ Hra]]; [done|].
  rewrite (ra_cr3 _ _ _ _ _ _ _ _ _ Hra). by split_and!; [apply Hra..|].
Qed.

Lemma kernel_pte_unmarked i j : 0 ≤ i < 4 → 0 ≤ j < 1024 → GET_NEWPAGE_FLAGS (kernel_pte i j) = 0.
Proof.
  intros Hi Hj. unfold GET_NEWPAGE_FLAGS, kernel_pte. rewrite Z.land_lor_distr_l.
  change (Z.land (Z.lor _ GLOBAL_PAGE_ENTRY) 3072) with 0. rewrite Z.lor_0_r. unfold PAGE_SIZE.
  apply (land_page_flags _ 3072); [by rewrite Z.mod_mul|lia].
Qed.

(** [kread] of the entry of [va]: it is there, and a page whose entry is marked
    is mapped. *)
Lemma walk_entry s own pds fs va :
  vm_wf none s own pds fs → cr3 s ∈ pds → word va → kmem s !! 0 = None →
  ∃ d, entry_at s (cr3 s) (GET_PD_INDEX va) = Some d ∧
    (kread (GET_ADDR_FROM_ENTRY d) (GET_PT_INDEX va) s = Stop BadAccess ∨
     ∃ e, entry_at s (GET_ADDR_FROM_ENTRY d) (GET_PT_INDEX va) = Some e ∧
       (GET_NEWPAGE_FLAGS e = 0 ∨ USER_MEM_START ≤ va ∧ pte_at s (cr3 s) va = Some e)).
Proof.
  intros Hwf Hcr Hva Hz. destruct (decide (USER_MEM_START ≤ va)) as [Hu|Hk].
  - destruct (user_entry s own pds fs (cr3 s) va Hwf Hcr Hva Hu) as (d & Hd & Hcase). exists d. split; [done|].
    destruct Hcase as [[-> _]|(_ & e & He & Hcase)]; [left; by apply kread_bad|right].
    exists e. split; [done|]. destruct Hcase as [[-> _]|[_ ?]]; [by left|by right].
  - pose proof (kernel_pte_at _ _ _ _ _ _ _ Hwf Hcr Hva ltac:(lia)) as Hpte. unfold pte_at in Hpte.
    destruct (entry_at s (cr3 s) (GET_PD_INDEX va)) as [d|]; [|done]. cbn in Hpte.
    destruct (present d); [|done].
    destruct (entry_at s (GET_ADDR_FROM_ENTRY d) (GET_PT_INDEX va)) as [e|] eqn:He; [|done]. cbn in Hpte.
    destruct (present e); [|done]. injection Hpte as ->. exists d. split; [done|]. right. eexists. split; [exact He|left].
    pose proof (pd_index_range va Hva). pose proof (pd_index_user va Hva) as Hiu.
    change KERNEL_MAP_NUM_ENTRIES with 4 in Hiu. apply kernel_pte_unmarked; [lia|by apply pt_index_range].
Qed.

Lemma unmap_pages_inv fuel : ∀ s own pds fs va s',
  vm_wf none s own pds fs → cow_ok s own → cr3 s ∈ pds → word va → kmem s !! 0 = None →
  unmap_pages fuel (cr3 s) va s = Ok tt s' →
  ∃ fs', vm_wf none s' own pds fs' ∧ cow_ok s' own ∧ cr3 s' = cr3 s.
Proof.
  induction fuel as [|fuel IH]; intros s own pds fs va s' Hwf Hcow Hcr Hva Hz Hrun; [done|]. cbn [unmap_pages] in Hrun.
  destruct (walk_entry s own pds fs va Hwf Hcr Hva Hz) as (d & Hd & Hcase).
  rewrite (bind_ok _ _ _ _ _ (kread_ok _ _ _ _ Hd)) in Hrun.
  destruct Hcase as [Hs|(e & He & Hcase)]; [by rewrite (bind_stop _ _ _ _ Hs) in Hrun|].
  rewrite (bind_ok _ _ _ _ _ (kread_ok _ _ _ _ He)) in Hrun.
  destruct (decide (GET_NEWPAGE_FLAGS e = NEWPAGE_PAGE ∨ _)) as [Hf|_]; [|injection Hrun as <-; by exists fs].
  destruct Hcase as [E|[Hu Hpte]]; [rewrite E in Hf; by destruct Hf|].
  destruct (unmap_step s own pds fs va e Hwf Hcow Hcr Hva Hu Hpte) as
    (d' & s1 & fs1 & Hd' & _ & Hstep & Hwf1 & Hcow1 & Hcr1 & _ & Hz1 & _).
  rewrite Hd in Hd'. injection Hd' as <-.
  rewrite <- bind_assoc, (bind_ok _ _ _ _ _ Hstep), <- Hcr1 in Hrun. rewrite <- Hcr1.
  eapply (IH s1 own pds fs1); [done|done|by rewrite Hcr1|apply u32_word|by rewrite Hz1|exact Hrun].
Qed.

Lemma step_remove_pages_inv s pds fuel base rc s' :
  mem_inv (s, pds) → word base → kmem s !! 0 = None → remove_pages_handler_c fuel base s = Ok rc s' →
  mem_inv (s', pds).
Proof.
  intros (own & fs & Hwf & Hcow & Hcr) Hva Hz Hrun. cbn in *. unfold remove_pages_handler_c in Hrun.
  case_decide; [injection Hrun as <- <-; by exists own, fs|].
  unfold unmap_new_pages in Hrun. rewrite bind_get in Hrun.
  destruct (walk_entry s own pds fs base Hwf Hcr Hva Hz) as (d & Hd & Hcase).
  rewrite (bind_ok _ _ _ _ _ (kread_ok _ _ _ _ Hd)) in Hrun.
  destruct Hcase as [Hs|(e & He & Hcase)]; [by rewrite (bind_stop _ _ _ _ Hs) in Hrun|].
  rewrite (bind_ok _ _ _ _ _ (kread_ok _ _ _ _ He)) in Hrun.
  case_decide as Hf; [injection Hrun as <- <-; by exists own, fs|].
  destruct Hcase as [E|[Hu Hpte]]; [by rewrite E in Hf|].
  destruct (unmap_step s own pds fs base e Hwf Hcow Hcr Hva Hu Hpte) as
    (d' & s1 & fs1 & Hd' & _ & Hstep & Hwf1 & Hcow1 & Hcr1 & _ & Hz1 & _).
  rewrite Hd in Hd'. injection Hd' as <-.
  rewrite <- bind_assoc, (bind_ok _ _ _ _ _ Hstep), <- Hcr1 in Hrun.
  destruct (unmap_pages fuel (cr3 s1) (u32 (base + PAGE_SIZE)) s1) as [[] s2|w] eqn:Hloop;
    [rewrite (bind_ok _ _ _ _ _ Hloop) in Hrun|by rewrite (bind_stop _ _ _ _ Hloop) in Hrun].
  destruct (unmap_pages_inv fuel s1 own pds fs1 (u32 (base + PAGE_SIZE)) s2 Hwf1 Hcow1) as (fs2 & Hwf2 & Hcow2 & Hcr2);
    [by rewrite Hcr1|apply u32_word|by rewrite Hz1|exact Hloop|].
  unfold set_cur_pd in Hrun. rewrite bind_modify in Hrun. injection Hrun as <- <-.
  exists own, fs2. cbn. rewrite Hcr1. split_and!; [by apply wf_set_cr3|done|done].
Qed.

Lemma step_store_inv s pds va b s' :
  mem_inv (s, pds) → write_user va b s = Ok tt s' → mem_inv (s', pds).
Proof.
  intros (own & fs & Hwf & Hcow & Hcr) Hrun. unfold write_user in Hrun. destruct (is_user va); [|done].
  rewrite bind_get in Hrun. destruct (translate s (cr3 s) va) as [f|]; [|done]. injection Hrun as <-.
  exists own, fs. by split_and!; [destruct Hwf; split|..].
Qed.

Lemma vm_step_inv m m' : mem_inv m → vm_step m m' → mem_inv m'.
Proof.
  intros Hm Hs. destruct Hs as [s pds pd s' Hr|s pds pd new s' ? Hr|s pds pd s' ? ? Hr|s pds pd s' Hpd Hr|
    s pds se rc s' Hse Hr|s pds pd start len flags rc s' Hpd (? & ? & ?) Hfl Hp Hr|s pds addr rc s' ? ? ? Hr|
    s pds base n rc s' ? ? ? Hr|s pds fuel base rc s' ? ? Hr|s pds va b s' ? ? Hr].
  - by eapply step_create_inv.
  - by eapply step_clone_inv.
  - by eapply step_free_inv.
  - destruct Hm as (own & fs & Hwf & Hcow & _). injection Hr as <-. exists own, fs.
    by split_and!; [apply wf_set_cr3|..].
  - destruct Hm as (own & fs & Hwf & Hcow & Hcr).
    destruct (setup_page_table_ok s own pds fs (cr3 s) se Hwf Hcow Hcr Hse) as (rc' & s1 & own1 & fs1 & Hr' & Hg & _).
    rewrite Hr in Hr'. injection Hr' as <- <-. exists own1, fs1. cbn. rewrite (gr_cr3 _ _ _ _ _ _ _ _ Hg) by done.
    by split_and!; [apply Hg..|].
  - destruct Hm as (own & fs & Hwf & Hcow & Hcr).
    destruct (map_segment_ok s own pds fs pd start len flags Hwf Hcow Hpd) as (rc' & s1 & own1 & fs1 & Hr' & He & _); try done.
    rewrite Hr in Hr'. injection Hr' as <- <-. exists own1, fs1. cbn. rewrite (ex_cr3 _ _ _ _ _ _ _ _ _ _ _ He).
    by split_and!; [apply He..|].
  - by eapply step_fault_inv.
  - by eapply step_new_pages_inv.
  - by eapply step_remove_pages_inv.
  - by eapply step_store_inv.
Qed.

(** ** The states of a running machine *)
Definition reachable (arr : list Z) (locks : list mutex_t) s0 s pds : Prop :=
  ∃ s1, boot_memory arr locks s0 = Ok tt s1 ∧ rtc vm_step (s1, {[kernel_pd s1]}) (s, pds).

Lemma reachable_inv arr locks s0 s pds :
  power_on arr locks s0 → reachable arr locks s0 s pds → mem_inv (s, pds).
Proof.
  intros Hp (s1 & Hb & Hs). assert (mem_inv (s1, {[kernel_pd s1]})) as Hm.
  { destruct (boot_memory_ok arr locks s0 Hp) as [E|(s2 & E & [Hwf Hcow _ Hcr _ _])]; rewrite Hb in E; [done|].
    injection E as <-. exists ∅, (all_frames (fa s1)). cbn. split_and!; [done|done|]. by rewrite Hcr; apply elem_of_singleton. }
  induction Hs as [|m m1 m2 Hs _ IH]; [done|]. apply IH. by eapply vm_step_inv.
Qed.

(** C10. Isolation.  In every state reached from power-on by creating, cloning
    (fork), switching, loading and freeing address spaces, by mapping segments,
    by copy-on-write faults, [new_pages] and [remove_pages], and by stores of the
    processes, a store of the current process to a page it may write always goes
    through, is what the process reads back, and changes no byte that any other
    address space reads, and no byte of its own at another address. *)
Theorem stores_are_private arr locks s0 s pds va b :
  power_on arr locks s0 → reachable arr locks s0 s pds →
  word va → user_writable s (cr3 s) va = true →
  ∃ s', write_user va b s = Ok tt s' ∧ read_byte s' (cr3 s) va = Some b ∧
    ∀ pd va', pd ∈ pds → word va' → (pd, va') ≠ (cr3 s, va) → read_byte s' pd va' = read_byte s pd va'.
Proof.
  intros Hp Hr Hva Hw. destruct (reachable_inv _ _ _ _ _ Hp Hr) as (own & fs & Hwf & Hcow & Hcr). cbn in *.
  unfold user_writable in Hw. apply andb_true_iff in Hw as [Hacc Hw].
  destruct (pte_at s (cr3 s) va) as [e|] eqn:Hpte; [|done].
  assert (USER_MEM_START ≤ va) as Hu.
  { destruct (user_reaches_frames s own pds fs (cr3 s) va Hwf Hcr Hva) as [Hk _].
    destruct (decide (va < USER_MEM_START)) as [Hlow|]; [|lia]. destruct (Hk Hlow) as [E _]. congruence. }
  set (f := GET_ADDR_FROM_ENTRY e). set (s' := put_byte f (va mod 4096) b s).
  assert (translate s (cr3 s) va = Some f) as Hf by (unfold translate; by rewrite Hpte).
  exists s'. split.
  { unfold write_user, is_user. rewrite bool_decide_true by (unfold word in Hva; split; [exact Hu|lia]). by rewrite bind_get, Hf. }
  assert (∀ pd va' g, translate s pd va' = Some g → read_byte s' pd va' =
    Some (if decide (g = f ∧ va' mod 4096 = va mod 4096) then b else default 0 (frame_data s g !! (va' mod 4096)))) as Hrd.
  { intros pd va' g Hg. unfold read_byte. change (translate s' pd va') with (translate s pd va'). rewrite Hg. cbn.
    unfold s', put_byte, frame_data. cbn. destruct (decide (g = f)) as [->|Hne].
    - rewrite lookup_insert_eq. cbn. destruct (decide (va' mod 4096 = va mod 4096)) as [->|Hne].
      + by rewrite lookup_insert_eq, decide_True.
      + rewrite lookup_insert_ne, decide_False by naive_solver. done.
    - rewrite lookup_insert_ne, decide_False by naive_solver. done. }
  split; [rewrite (Hrd _ _ _ Hf); by rewrite decide_True|].
  intros pd va' Hpd Hva' Hne. destruct (translate s pd va') as [g|] eqn:Hg.
  2:{ unfold read_byte. change (translate s' pd va') with (translate s pd va'). by rewrite Hg. }
  rewrite (Hrd _ _ _ Hg). rewrite decide_False; [unfold read_byte; by rewrite Hg|]. intros [-> Eoff].
  unfold translate in Hg. apply fmap_Some in Hg as (e' & Hpte' & Ef).
  destruct (writable_frame_once s own pds fs (cr3 s) va e pd va' e' Hwf Hcow Hcr Hpd Hva Hva' Hu Hpte Hw Hpte' (eq_sym Ef))
    as [-> Epg]. apply Hne. f_equal. unfold page_of in Epg. lia.
Qed.

(** C11. Kernel protection.  In the same states, in every address space: in user
    mode no address below [USER_MEM_START] is accessible, such addresses are
    mapped to themselves, and every address that is accessible is backed by a
    frame of the user frame pool: no user access reaches kernel memory or a page
    table. *)
Theorem kernel_memory_protected arr locks s0 s pds pd va :
  power_on arr locks s0 → reachable arr locks s0 s pds → pd ∈ pds → word va →
  (va < USER_MEM_START → user_accessible s pd va = false ∧ translate s pd va = Some (page_of va)) ∧
  (user_accessible s pd va = true → ∃ f, translate s pd va = Some f ∧ is_frame (fa s) f ∧ f ∉ kh_pages (kheap s)).
Proof.
  intros Hp Hr Hpd Hva. destruct (reachable_inv _ _ _ _ _ Hp Hr) as (own & fs & Hwf & Hcow & Hcr). cbn in *.
  destruct (user_reaches_frames s own pds fs pd va Hwf Hpd Hva) as [Hk Ha]. split; [done|].
  intros (f & Hf & [Hal [Hlo Hhi]])%Ha. exists f. split_and!; try done.
  intros Hin. destruct (wf_page _ _ _ _ _ Hwf f Hin) as (_ & ? & _). lia.
Qed.
End reach.

(** ** An instance: boot, a process with a page, its child after a fork, and a
    copy-on-write fault *)
Definition demo_script : M (vm bump) (Z * Z) :=
  boot_memory (replicate 8 7) (replicate 8 held_mutex) ;;
  pd ← create_page_directory;
  set_cur_pd pd ;;
  map_segment 0x1000000 100 pd 7 ;;
  new ← clone_paging_info pd;
  s ← get;
  kernel_assert (bool_decide (kmem s !! 0 = None)) ;;
  c ← is_addr_cow 0x1000010;
  handle_cow 0x1000010 ;;
  kernel_assert (c && bool_decide (pd ≠ NULL ∧ new ≠ NULL ∧ pd ≠ new)) ;;
  s ← get;
  kernel_assert (user_writable s pd 0x1000010 && bool_decide (cr3 s = pd)) ;;
  mret (pd, new).

Definition returns {S A} (o : outcome S A) : Prop := match o with Ok _ _ => True | Stop _ => False end.

Lemma demo_script_returns : returns (demo_script demo_raw).
Proof. vm_compute. exact I. Qed.

Lemma step_into {S A B} (m : M S A) (k : A → M S B) s :
  returns ((m ≫= k) s) → ∃ a s', m s = Ok a s' ∧ returns (k a s').
Proof. unfold mbind, M_bind. destruct (m s) as [a s'|]; [|done]. by exists a, s'. Qed.

Lemma assert_into {S B} (c : bool) (k : unit → M S B) s :
  returns ((kernel_assert c ≫= k) s) → c = true ∧ returns (k tt s).
Proof. by destruct c. Qed.

Lemma kread_pure {H} `{KernelHeap H} p i (s : vm H) e s' : kread p i s = Ok e s' → s' = s.
Proof.
  unfold kread, aget. rewrite bind_get. destruct (kmem s !! p) as [l|]; [|done]. cbn [deref]. rewrite bind_mret.
  case_decide; [|done]. destruct (l !! Z.to_nat i); [|done]. by intros [= _ ->].
Qed.

Lemma is_addr_cow_pure {H} `{KernelHeap H} a (s : vm H) c s' : is_addr_cow a s = Ok c s' → s' = s.
Proof.
  unfold is_addr_cow. case_decide; [by intros [= _ ->]|]. rewrite bind_get. unfold mbind, M_bind.
  destruct (kread (cr3 s) _ s) as [d s1|] eqn:E1; [|done]. apply kread_pure in E1 as ->.
  destruct (kread _ _ s) as [e s1|] eqn:E2; [|done]. apply kread_pure in E2 as ->. by intros [= _ ->].
Qed.

Lemma script_reaches s0 : returns (demo_script s0) → ∃ s pds new,
  reachable (replicate 8 7) (replicate 8 held_mutex) s0 s pds ∧ cr3 s ∈ pds ∧ new ∈ pds ∧ new ≠ cr3 s ∧
  user_writable s (cr3 s) 0x1000010 = true.
Proof.
  intros Hs. unfold demo_script in Hs.
  apply step_into in Hs as ([] & s1 & H1 & Hs). apply step_into in Hs as (pd & s2 & H2 & Hs).
  apply step_into in Hs as ([] & s3 & H3 & Hs). apply step_into in Hs as (rc & s4 & H4 & Hs).
  apply step_into in Hs as (new & s5 & H5 & Hs). rewrite bind_get in Hs.
  apply assert_into in Hs as [Hz%bool_decide_eq_true Hs].
  apply step_into in Hs as (c & s6 & H6 & Hs). apply step_into in Hs as (rc' & s7 & H7 & Hs).
  apply assert_into in Hs as [[Hc Hd]%andb_true_iff Hs]. apply bool_decide_eq_true in Hd as (Hpd & Hnew & Hne).
  rewrite bind_get in Hs. apply assert_into in Hs as [[Hw Hcr]%andb_true_iff _]. apply bool_decide_eq_true in Hcr.
  subst c. pose proof (is_addr_cow_pure _ _ _ _ H6) as ->. rewrite <- Hcr in *.
  set (pds := {[cr3 s7]} ∪ {[kernel_pd s1]} : gset Z).
  exists s7, ({[new]} ∪ pds), new. split; [|unfold pds; set_solver].
  exists s1. split; [done|].
  assert (cr3 s7 ∈ pds) as Hin by (unfold pds; set_solver).
  eapply rtc_l; [by eapply step_create|]. unfold add_dir at 1. rewrite decide_False by done. fold pds.
  eapply rtc_l; [by eapply step_switch|].
  eapply rtc_l; [eapply (step_map s3 pds (cr3 s7) 0x1000000 100 7); [done| |lia|reflexivity|exact H4]|].
  { unfold segment_ok, USER_MEM_START. lia. }
  eapply rtc_l; [by eapply step_clone|]. unfold add_dir at 1. rewrite (decide_False (P := new = NULL)) by done.
  apply rtc_once. eapply step_fault; [|exact Hz|exact H6|exact H7]. unfold word. lia.
Qed.

(** The child still reads what it read before the parent's store. *)
Lemma stores_are_private_witness : ∃ (s s' : vm bump) (new : Z),
  write_user 0x1000010 65 s = Ok tt s' ∧ new ≠ cr3 s ∧ read_byte s' (cr3 s) 0x1000010 = Some 65 ∧
    read_byte s' new 0x1000010 = read_byte s new 0x1000010.
Proof.
  destruct (script_reaches demo_raw demo_script_returns) as (s & pds & new & Hr & Hcr & Hn & Hne & Hw).
  destruct (stores_are_private _ _ _ s pds 0x1000010 65 demo_power_on Hr ltac:(unfold word; lia) Hw)
    as (s' & Hrun & Hb & Hall).
  exists s, s', new. split_and!; [exact Hrun|exact Hne|exact Hb|].
  apply Hall; [exact Hn|unfold word; lia|]. intros E. apply Hne. by injection E.
Defined.

Lemma kernel_memory_protected_witness : ∃ (s : vm bump) pds,
  reachable (replicate 8 7) (replicate 8 held_mutex) demo_raw s pds ∧
  user_accessible s (cr3 s) 0x5123 = false ∧ translate s (cr3 s) 0x5123 = Some 0x5000.
Proof.
  destruct (script_reaches demo_raw demo_script_returns) as (s & pds & new & Hr & Hcr & _). exists s, pds. split; [exact Hr|].
  destruct (kernel_memory_protected _ _ _ s pds (cr3 s) 0x5123 demo_power_on Hr Hcr ltac:(unfold word; lia)) as [Hk _].
  apply Hk. unfold USER_MEM_START. lia.
Defined.
