(* ===== verification/Syscalls.v ===== *)
(** * The console and file system calls (kern/syscalls/)

    [print], [readline], [getchar], the cursor and colour calls of
    console_syscalls.c, the keyboard interrupt of keyboard.c and [readfile] of
    misc_syscalls.c.  They combine the user memory of the calling task, the
    keyboard buffer with the console behind it, and the lock and condition
    variable of the readers.  A call that has to wait for a line answers [None]
    and goes on with its [_again] part when the thread runs again. *)

From S2P Require Import Prelude Locks Sched FrameAlloc Paging VM VMInv VMPages VMMap VMCow VMFault VMQuery VMTheorems Console Keyboard CString UserMem Loader.

Definition MAX_FILE_NAME : Z := 128.

Section io.
Context `{RD : Ramdisk} {H : Type} `{KernelHeap H}.

(** The parts of the kernel the calls work on: memory, keyboard buffer (with the
    console), [readline_mutex], [readline_cond_var] and the scheduler. *)
Record io : Type := mk_io {
  io_vm : vm H;
  io_kbd : kbd;
  readline_mutex : mutex_t;
  readline_cond_var : cond_t;
  io_sched : sched;
}.

Definition set_io_vm v s := mk_io v (io_kbd s) (readline_mutex s) (readline_cond_var s) (io_sched s).
Definition set_io_kbd v s := mk_io (io_vm s) v (readline_mutex s) (readline_cond_var s) (io_sched s).
Definition set_readline_mutex v s := mk_io (io_vm s) (io_kbd s) v (readline_cond_var s) (io_sched s).
Definition set_readline_cond v s := mk_io (io_vm s) (io_kbd s) (readline_mutex s) v (io_sched s).
Definition set_io_sched v s := mk_io (io_vm s) (io_kbd s) (readline_mutex s) (readline_cond_var s) v.

Definition mem {A} (m : M (vm H) A) : M io A := zoom io_vm set_io_vm m.
Definition keys_do {A} (m : M kbd A) : M io A := zoom io_kbd set_io_kbd m.
Definition sched_do {A} (m : M sched A) : M io A := zoom io_sched set_io_sched m.
Definition screen_do {A} (m : M console A) : M io A := keys_do (zoom screen set_screen m).
Definition readline_lock : M io unit := zoom readline_mutex set_readline_mutex mutex_lock.
Definition readline_unlock : M io unit := zoom readline_mutex set_readline_mutex mutex_unlock.
Definition readline_queue (op : M mutex_t unit) : M io unit :=
  zoom readline_cond_var set_readline_cond
    (zoom queue_mutex (λ m c, mk_cond (cv_status c) (cv_waiting c) m) op).
Definition set_readers (l : list Z) (c : cond_t) : cond_t := mk_cond (cv_status c) l (queue_mutex c).

(** [n] bytes of user memory as [char]s. *)
Fixpoint read_chars (n : nat) (va : Z) : M (vm H) (list Z) :=
  match n with
  | O => mret []
  | S n' => b ← read_user va; l ← read_chars n' (u32 (va + 1)); mret (s8 b :: l)
  end.

(** ** kern/syscalls/console_syscalls.c *)
Definition print_handler_c (arg_packet : Z) : M io Z :=
  w ← mem (read_word arg_packet);
  let len := s32 w in
  buf ← mem (read_word (u32 (arg_packet + 4)));
  v ← mem (is_pointer_valid buf len);
  if decide (v < 0) then mret ERR_INVAL
  else
    l ← mem (read_chars (Z.to_nat len) buf);
    screen_do (putbytes (Some l) len) ;;
    mret 0.

(** [context_switch]: %cr3, which it loads, is the register that memory is
    accessed through. *)
Definition switch_away : M io unit :=
  sched_do context_switch ;;
  s ← get;
  mem (set_cur_pd (pd_reg (io_sched s))).

(** [cond_wait(&readline_cond_var, &readline_mutex, &curr_thread->cond_wait_link,
    WAITING)] up to the point where another thread runs.  What is left, taking
    the mutex again, is the start of the [_again] part. *)
Definition readline_wait : M io unit :=
  s ← get;
  thread_assert (bool_decide (cv_status (readline_cond_var s) ≠ COND_VAR_INVALID)) ;;
  readline_queue mutex_lock ;;
  curr ← sched_do get_curr_thread;
  c ← deref curr;
  modify (λ s, set_readline_cond (set_readers (cv_waiting (readline_cond_var s) ++ [c]) (readline_cond_var s)) s) ;;
  readline_queue mutex_unlock ;;
  sched_do disable_interrupts ;;
  sched_do (set_status c WAITING) ;;
  readline_unlock ;;
  switch_away.

(** [nextline(buf, len)]: the characters go to user memory. *)
Definition nextline (buf len : Z) : M io Z :=
  '(r, l) ← keys_do (get_nextline buf len);
  mem (write_bytes buf ((λ c, c mod 256) <$> l)) ;;
  mret r.

Definition readline_loop (retval : Z) : M io (option Z) :=
  if decide (retval = ERR_NOTAVAIL) then readline_wait ;; mret None
  else readline_unlock ;; mret (Some retval).

Definition readline_again (buf len : Z) : M io (option Z) :=
  readline_lock ;;
  retval ← nextline buf len;
  readline_loop retval.

Definition readline_handler_c (arg_packet : Z) : M io (option Z) :=
  w ← mem (read_word arg_packet);
  let len := s32 w in
  if decide (len ≤ 0) then mret (Some ERR_INVAL)
  else
    buf ← mem (read_word (u32 (arg_packet + 4)));
    v ← mem (is_pointer_valid buf len);
    bad ← (if decide (v < 0) then mret true
           else w ← mem (is_memory_writable buf len); mret (bool_decide (w < 0)));
    if bad : bool then mret (Some ERR_INVAL)
    else
      readline_lock ;;
      retval ← nextline buf len;
      if decide (retval = ERR_INVAL) then readline_unlock ;; mret (Some ERR_INVAL)
      else readline_loop retval.

Definition readchar : M io Z := keys_do get_nextchar.
Definition getchar_loop : M io (option Z) :=
  c ← readchar;
  if decide (c = ERR_NOTAVAIL) then readline_wait ;; mret None
  else readline_unlock ;; mret (Some c).
Definition getchar_handler_c : M io (option Z) := readline_lock ;; getchar_loop.
Definition getchar_again : M io (option Z) := readline_lock ;; getchar_loop.

Definition set_term_color_handler_c (color : Z) : M io Z := screen_do (set_term_color color).
Definition set_cursor_pos_handler_c (arg_packet : Z) : M io Z :=
  row ← mem (read_word arg_packet);
  col ← mem (read_word (u32 (arg_packet + 4)));
  screen_do (set_cursor (s32 row) (s32 col)).

Definition bad_int_pointer (p : Z) : M io bool :=
  v ← mem (is_pointer_valid p 4);
  if decide (v < 0) then mret true
  else w ← mem (is_memory_writable p 4); mret (bool_decide (w < 0)).

Definition get_cursor_pos_handler_c (arg_packet : Z) : M io Z :=
  row ← mem (read_word arg_packet);
  b ← bad_int_pointer row;
  if b : bool then mret ERR_INVAL
  else
    col ← mem (read_word (u32 (arg_packet + 4)));
    b ← bad_int_pointer col;
    if b : bool then mret ERR_INVAL
    else
      '(r, c) ← screen_do get_cursor;
      mem (write_word row (u32 r)) ;;
      mem (write_word col (u32 c)) ;;
      mret 0.

(** ** kern/drivers/keyboard/keyboard.c: the interrupt, from the value that
    [process_scancode] computed from the scan code *)
Definition KH_GETCHAR (k : Z) : Z := Z.land (Z.shiftr k 0) 0x0FF.
Definition KH_HASDATA (k : Z) : bool := bool_decide (Z.land (Z.shiftr k 16) 0x04 ≠ 0).
Definition KH_ISMAKE (k : Z) : bool := bool_decide (Z.land (Z.shiftr k 16) 0x01 ≠ 0).

Definition readline_signal : M io unit :=
  s ← get;
  thread_assert (bool_decide (cv_status (readline_cond_var s) ≠ COND_VAR_INVALID)) ;;
  readline_queue mutex_lock ;;
  (match cv_waiting (readline_cond_var s) with
   | [] => mret tt
   | t :: l =>
       sched_do (set_status t RUNNABLE) ;;
       sched_do (runq_add_thread t) ;;
       modify (λ s, set_readline_cond (set_readers l (readline_cond_var s)) s)
   end) ;;
  readline_queue mutex_unlock.

Definition enqueue_scancode (key : Z) : M io unit :=
  if KH_HASDATA key && negb (KH_ISMAKE key) then
    keys_do (add_keystroke (s8 (KH_GETCHAR key))) ;;
    if decide (s8 (KH_GETCHAR key) = ch_newline) then readline_signal else mret tt
  else mret tt.

(** ** kern/syscalls/misc_syscalls.c *)

(** The bytes of the name up to its terminator, [None] for a bad pointer. *)
Fixpoint file_name_loop (n : nat) (filename count : Z) : M (vm H) (option (Z * list Z)) :=
  match n with
  | O => mret (Some (count, []))
  | S n' =>
      v ← is_pointer_valid (u32 (filename + count)) 1;
      if decide (v < 0) then mret None
      else
        b ← read_user (u32 (filename + count));
        if decide (b = 0) then mret (Some (count, [0]))
        else
          r ← file_name_loop n' filename (count + 1);
          mret ((λ '(c, l), (c, b :: l)) <$> r)
  end.

Definition readfile_handler_c (arg_packet : Z) : M io Z :=
  filename ← mem (read_word arg_packet);
  r ← mem (file_name_loop (Z.to_nat MAX_FILE_NAME) filename 0);
  match r with
  | None => mret ERR_INVAL
  | Some (count, name) =>
      if decide (count = 0 ∨ count = MAX_FILE_NAME) then mret ERR_FAILURE
      else
        buf ← mem (read_word (u32 (arg_packet + 4)));
        size ← mem (read_word (u32 (arg_packet + 8)));
        offset ← mem (read_word (u32 (arg_packet + 12)));
        if decide (buf = NULL) then mret ERR_FAILURE else
        '(bytes_read, l) ← getbytes (Some name) (s32 offset) (s32 size) (replicate (Z.to_nat (s32 size)) 0);
        mem (write_bytes buf (take (Z.to_nat bytes_read) l)) ;;
        mret bytes_read
  end.
End io.
Arguments io : clear implicits.

(** ** Readers and the scheduler *)

(** [c] is the thread that runs, and not the idle thread. *)
Record runs (s : sched) (c : Z) : Prop := {
  rn_ok : sched_ok s;
  rn_curr : curr_thread s = Some c;
  rn_running : st s c = Some RUNNING;
  rn_idle : c ≠ idle_thread s;
}.

(** The threads [ws] of the readers' queue wait and are in no queue of the scheduler. *)
Record readers_queued (s : sched) (ws : list Z) : Prop := {
  rq_nodup : NoDup ws;
  rq_waiting t : t ∈ ws → st s t = Some WAITING;
  rq_awake t : t ∈ ws → t ∉ sleeping_threads s;
  rq_idle t : t ∈ ws → t ≠ idle_thread s;
}.

(** The running thread [c] of [s] waits and another thread runs. *)
Record blocked (c : Z) (s s' : sched) : Prop := {
  bl_switch : ∃ s1, restatus s s1 (put c WAITING) ∧ curr_thread s1 = curr_thread s ∧
    runnable_threads s1 = runnable_threads s ∧ sleeping_threads s1 = sleeping_threads s ∧ switched s1 s';
  bl_status : st s' c = Some WAITING;
  bl_gone : curr_thread s' ≠ Some c;
  bl_queues : c ∉ runnable_threads s' ++ sleeping_threads s';
}.

Lemma runs_unqueued s c : runs s c → c ∉ runnable_threads s ∧ c ∉ sleeping_threads s.
Proof.
  intros [Hok _ Hr _]. split; intros Hin; [apply (so_runq s Hok) in Hin|apply (so_sleep s Hok) in Hin];
    by rewrite Hr in Hin.
Qed.

Lemma block_ok s c :
  runs s c → ∃ s1 s', set_status c WAITING (set_if false s) = Ok tt s1 ∧ context_switch s1 = Ok tt s' ∧ blocked c s s'.
Proof.
  intros Hr. destruct (runs_unqueued s c Hr) as [Hnr Hns]. destruct Hr as [Hok Hc Hrun Hi].
  destruct (set_status_ok c WAITING (set_if false s)) as (s1 & Hst & Hrs & E1 & E2 & E3 & _); [by apply (mk_is_Some _ RUNNING)|].
  assert (restatus s s1 (put c WAITING)) as Hrs1 by (destruct Hrs; by split).
  assert (sched_ok s1) as Hok1 by (by apply (sched_ok_wait s s1 c)).
  destruct (context_switch_ok s1 Hok1) as (s' & Hrun' & Hsw). exists s1, s'. split_and!; [done..|].
  assert (st s1 c = Some WAITING) as Hw1 by (rewrite (rs_st _ _ _ Hrs1); unfold put; by rewrite decide_True).
  assert (st s' c = Some WAITING) as Hw.
  { eapply switched_waiting; try done; [by rewrite E3|by rewrite (rs_idle _ _ _ Hrs1)]. }
  pose proof (sw_ok _ _ Hsw) as Hok'. split; [by exists s1|done| |].
  - intros E. destruct (sw_running _ _ Hsw c E) as [->|E']; [|by rewrite Hw in E']. by rewrite (rs_idle _ _ _ Hrs1) in Hi.
  - intros [Hin|Hin]%elem_of_app; [apply (so_runq s' Hok') in Hin; by rewrite Hw in Hin|].
    destruct (switched_sleepers s1 s' Hok1 Hsw) as [Hsub _]. apply Hsub in Hin. by rewrite E3 in Hin.
Qed.

Lemma blocked_queued s s' c ws :
  runs s c → readers_queued s ws → blocked c s s' → readers_queued s' (ws ++ [c]).
Proof.
  intros Hr [Hnd Hw Hns Hi] [(s1 & Hrs & E1 & E2 & E3 & Hsw) Hst _ Hq].
  destruct (runs_unqueued s c Hr) as [Hnr _]. pose proof Hr as [Hok Hc Hrun Hic].
  assert (c ∉ ws) as Hcw by (intros Hin; apply Hw in Hin; by rewrite Hrun in Hin).
  assert (sched_ok s1) as Hok1 by (by apply (sched_ok_wait s s1 c)).
  destruct (switched_sleepers s1 s' Hok1 Hsw) as [Hsub _]. rewrite E3 in Hsub.
  assert (idle_thread s' = idle_thread s) as Eid.
  { destruct (switched_restatus _ _ Hsw) as [f Hf]. by rewrite (rs_idle _ _ _ Hf), (rs_idle _ _ _ Hrs). }
  split.
  - apply NoDup_app. split_and!; [done| |apply NoDup_singleton]. intros x Hx Hx'.
    by apply list_elem_of_singleton in Hx' as ->.
  - intros t [Ht|Ht]%elem_of_app; [|by apply list_elem_of_singleton in Ht as ->].
    eapply switched_waiting; try done; [rewrite E3; by apply Hns| |rewrite (rs_idle _ _ _ Hrs); by apply Hi].
    rewrite (rs_st _ _ _ Hrs). unfold put. rewrite decide_False by congruence. by apply Hw.
  - intros t [Ht|Ht]%elem_of_app Hin; [by apply (Hns t Ht), Hsub|].
    apply list_elem_of_singleton in Ht as ->. apply Hq, elem_of_app. by right.
  - intros t [Ht|Ht]%elem_of_app; rewrite Eid; [by apply Hi|]. by apply list_elem_of_singleton in Ht as ->.
Qed.

(** The longest waiting reader is made runnable. *)
Lemma wake_reader s w ws :
  sched_ok s → readers_queued s (w :: ws) →
  ∃ s', (set_status w RUNNABLE ;; runq_add_thread w) s = Ok tt s' ∧ sched_ok s' ∧ readers_queued s' ws ∧
    restatus s s' (put w RUNNABLE) ∧ curr_thread s' = curr_thread s ∧
    runnable_threads s' = runnable_threads s ++ [w] ∧ sleeping_threads s' = sleeping_threads s.
Proof.
  intros Hok [Hnd Hw Hns Hi]. apply NoDup_cons in Hnd as [Hnin Hnd].
  assert (st s w = Some WAITING) as Hww by (apply Hw; by left).
  destruct (set_status_ok w RUNNABLE s) as (s1 & Hst & Hrs & E1 & E2 & E3 & _); [by rewrite Hww|].
  assert (w ∉ runnable_threads s) as Hnr by (intros Hin; apply (so_runq s Hok) in Hin; by rewrite Hww in Hin).
  rewrite (bind_ok _ _ _ _ _ Hst). unfold runq_add_thread, disable_interrupts. rewrite bind_modify.
  unfold runq_enqueue. rewrite bind_assoc, bind_get. cbn [runnable_threads set_if].
  rewrite decide_False by (by rewrite E2). rewrite bind_modify. eexists. split; [done|].
  set (s2 := set_if true _). assert (restatus s s2 (put w RUNNABLE)) as Hrs2 by (destruct Hrs; by split).
  assert (runnable_threads s2 = runnable_threads s ++ [w]) as Er by (cbn; by rewrite E2).
  split_and!; try done.
  - apply (sched_ok_wake s s2 w); try done; [apply Hns; by left|apply Hi; by left].
  - split; [done|..]; intros t Ht.
    + rewrite (rs_st _ _ _ Hrs2). unfold put. rewrite decide_False by (by intros ->). apply Hw. by right.
    + cbn. rewrite E3. apply Hns. by right.
    + rewrite (rs_idle _ _ _ Hrs2). apply Hi. by right.
Qed.

(** ** Running the parts *)
Section io_facts.
Context `{RD : Ramdisk} {H : Type} `{KernelHeapSpec H}.
Implicit Types (s : io H) (own : gmap Z (Z * Z)) (pds : gset Z) (fs : list Z).

Lemma mem_run {A} (m : M (vm H) A) s a v : m (io_vm s) = Ok a v → mem m s = Ok a (set_io_vm v s).
Proof. intros E. unfold mem. by apply zoom_ok. Qed.

Lemma mem_id {A} (m : M (vm H) A) s a : m (io_vm s) = Ok a (io_vm s) → mem m s = Ok a s.
Proof. intros E%mem_run. rewrite E. by destruct s. Qed.

Lemma keys_run {A} (m : M kbd A) s a v : m (io_kbd s) = Ok a v → keys_do m s = Ok a (set_io_kbd v s).
Proof. intros E. unfold keys_do. by apply zoom_ok. Qed.

Lemma sched_run {A} (m : M sched A) s a v : m (io_sched s) = Ok a v → sched_do m s = Ok a (set_io_sched v s).
Proof. intros E. unfold sched_do. by apply zoom_ok. Qed.

(** A buffer of the running task that the kernel may write to. *)
Definition user_buffer s (buf len : Z) : Prop :=
  query_range buf len ∧
  ∀ va, buf ≤ va < buf + len → ∃ e, pte_at (io_vm s) (cr3 (io_vm s)) va = Some e ∧ writable e = true.

Lemma user_buffer_checks s own pds fs buf len :
  vm_wf none (io_vm s) own pds fs → cr3 (io_vm s) ∈ pds → user_buffer s buf len →
  is_pointer_valid buf len (io_vm s) = Ok 0 (io_vm s) ∧ is_memory_writable buf len (io_vm s) = Ok 0 (io_vm s).
Proof.
  intros Hwf Hpd [Hq Hw]. pose proof Hq as (Hu & Hl & He). pose proof Hu as Hu'. unfold USER_MEM_START in Hu'.
  destruct (Hw buf) as (e & Hpte & Hwr); [lia|]. assert (word buf) as Hb by (unfold word; lia). split.
  - unfold is_pointer_valid. rewrite decide_False by lia.
    destruct (is_memory_range_mapped_ok _ own pds fs buf len Hwf Hpd Hq) as (r & Hr & Hcase).
    rewrite (bind_ok _ _ _ _ _ Hr). destruct Hcase as [[-> _]|[-> Hn]]; [done|].
    rewrite Hn in Hpte; [done|done|unfold page_of; dlia].
  - rewrite (is_memory_writable_ok _ own pds fs buf len Hwf Hpd Hb Hu), Hpte. by rewrite Hwr.
Qed.

Lemma ed_line_cases len q t :
  ∃ r out q', ed_line len (q, t) = ((r, out), (q', t)) ∧
    (r = ERR_INVAL ∧ out = [] ∨ r = ERR_NOTAVAIL ∧ out = [] ∨ r = Z.of_nat (length out) ∧ Z.of_nat (length out) ≤ Z.max 0 len).
Proof.
  unfold ed_line. case_decide; [eexists _, _, _; split; [done|]; by left|].
  destruct (split_line q) as [[line rest]|]; eexists _, _, _; (split; [done|]); right; [right|by left].
  split; [done|]. rewrite length_fmap, length_take. lia.
Qed.

(** ** [nextline] gives the line editor's line to the task *)
Lemma user_buffer_single s own pds fs buf len :
  vm_wf none (io_vm s) own pds fs → cow_ok (io_vm s) own → cr3 (io_vm s) ∈ pds → user_buffer s buf len →
  ∀ va, buf ≤ va < buf + len →
    is_user va = true ∧ ∃ f, translate (io_vm s) (cr3 (io_vm s)) va = Some f ∧ refs (io_vm s) own f = 1.
Proof.
  intros Hwf Hcow Hpd [(Hu & Hl & He) Hw] va Hva. assert (is_user va = true) as Hus by (apply is_user_true; lia).
  split; [done|]. destruct (Hw va Hva) as (e & Hpte & Hwr). by eapply writable_single.
Qed.

(** What the buffer is after a read: what the line editor keeps, or that with a
    false line. *)
Definition line_left (q : list Z) (k : kbd) (e : editor) : Prop :=
  represents k e ∨ split_line q ≠ None ∧ false_line k e.

Lemma nextline_ok s own pds fs buf len q t r out q' :
  vm_wf none (io_vm s) own pds fs → cow_ok (io_vm s) own → cr3 (io_vm s) ∈ pds →
  user_buffer s buf len → represents (io_kbd s) (q, t) →
  ed_line len (q, t) = ((r, out), (q', t)) → Z.of_nat (length out) ≤ Z.max 0 len →
  ∃ v k, nextline buf len s = Ok r (set_io_kbd k (set_io_vm v s)) ∧ line_left q k (q', t) ∧
    wrote (io_vm s) (cr3 (io_vm s)) buf ((λ c, c mod 256) <$> out) v ∧ (out = [] → v = io_vm s).
Proof.
  intros Hwf Hcow Hpd Hub Hrep Hed Hlen. pose proof Hub as [(Hu & Hl & He) _]. pose proof Hu as Hu'. unfold USER_MEM_START in Hu'.
  destruct (get_nextline_run (io_kbd s) q t buf len Hrep) as (k & Hk & _ & _ & _ & Hrep'); [unfold NULL; lia|].
  rewrite Hed in Hk, Hrep'. cbn in Hk, Hrep'.
  destruct (write_range_ok none (io_vm s) own pds fs (cr3 (io_vm s)) buf ((λ c, c mod 256) <$> out)) as (v & Hv & Hwr); try done.
  { rewrite length_fmap. intros va Hva. apply (user_buffer_single s own pds fs buf len); try done. lia. }
  exists v, k. unfold nextline. rewrite (bind_ok _ _ _ _ _ (keys_run _ _ _ _ Hk)).
  rewrite (bind_ok _ _ _ _ _ (mem_run _ (set_io_kbd k s) _ _ Hv)). split_and!; [done..|].
  intros ->. by injection Hv.
Qed.

(** The lock and the condition variable of the readers between calls. *)
Definition readers_idle s (ws : list Z) : Prop :=
  readline_mutex s = free_mutex ∧ readline_cond_var s = mk_cond COND_VAR_VALID ws free_mutex.

Lemma readline_wait_ok s ws c :
  readline_mutex s = held_mutex → readline_cond_var s = mk_cond COND_VAR_VALID ws free_mutex →
  runs (io_sched s) c →
  ∃ sch, readline_wait s = Ok tt (mk_io (set_cr3 (pd_reg sch) (io_vm s)) (io_kbd s) free_mutex
                                    (mk_cond COND_VAR_VALID (ws ++ [c]) free_mutex) sch) ∧
    blocked c (io_sched s) sch.
Proof.
  destruct s as [v k m cv sch]. cbn [readline_mutex readline_cond_var io_sched]. intros -> -> Hr.
  destruct (block_ok sch c Hr) as (s1 & s2 & Hst & Hsw & Hb). exists s2. split; [|exact Hb].
  unfold readline_wait. rewrite bind_get. erewrite bind_ok by (by apply thread_assert_true).
  erewrite bind_ok by done. erewrite bind_ok by reflexivity.
  cbn [io_sched set_readline_cond]. rewrite (rn_curr _ _ Hr). cbn [deref]. rewrite bind_mret, bind_modify.
  erewrite bind_ok by done. erewrite bind_ok by done.
  erewrite bind_ok by (by apply sched_run). erewrite bind_ok by done.
  unfold switch_away. erewrite bind_ok by (by apply sched_run). done.
Qed.

(** C26. [readline] into a writable buffer of the calling task, whatever other
    tasks share with it copy-on-write, does what the line editor does: it stores
    the first line typed, cut to the buffer's length, at the start of the buffer
    and nothing else, consumes the line and returns the number of characters; it
    fails for a buffer of [KEYBOARD_BUFFER_SIZE] or more; in both cases the
    scheduler is as before.  Without a complete line the calling thread joins the
    end of the readers' queue, its status is [WAITING], the lock is free, memory is
    unchanged and the processor is with the thread that the scheduler chose, in
    whose address space it is.  The ring may have wrapped around: when the scan for
    the next newline then meets an old newline at [end_ptr], the buffer is left
    with a false line ([false_line]), which the next read takes for a line. *)
Theorem readline_correct s own pds fs arg buf len q t ws c :
  vm_wf none (io_vm s) own pds fs → cow_ok (io_vm s) own → cr3 (io_vm s) ∈ pds →
  word_at (io_vm s) arg len → word_at (io_vm s) (u32 (arg + 4)) buf → user_buffer s buf len →
  represents (io_kbd s) (q, t) → readers_idle s ws →
  runs (io_sched s) c → readers_queued (io_sched s) ws →
  let '((r, out), (q', t')) := ed_line len (q, t) in
  ∃ s', readline_handler_c arg s = Ok (if decide (r = ERR_NOTAVAIL) then None else Some r) s' ∧
    line_left q (io_kbd s') (q', t') ∧
    if decide (r = ERR_NOTAVAIL) then
      readers_idle s' (ws ++ [c]) ∧ blocked c (io_sched s) (io_sched s') ∧
      readers_queued (io_sched s') (ws ++ [c]) ∧
      io_vm s' = set_cr3 (pd_reg (io_sched s')) (io_vm s)
    else
      readers_idle s' ws ∧ io_sched s' = io_sched s ∧
      wrote (io_vm s) (cr3 (io_vm s)) buf ((λ c, c mod 256) <$> out) (io_vm s').
Proof.
  intros Hwf Hcow Hpd Hlen Hbuf Hub Hrep [Hmut Hcv] Hruns Hqd. pose proof Hub as [(Hu & Hl & He) _].
  pose proof Hu as Hu'. unfold USER_MEM_START in Hu'.
  destruct (user_buffer_checks s own pds fs buf len Hwf Hpd Hub) as [Hv Hw].
  destruct (ed_line_cases len q t) as (r & out & q' & Hed & Hcase). rewrite Hed.
  unfold readline_handler_c. rewrite (bind_ok _ _ _ _ _ (mem_id _ _ _ (read_word_ok _ _ len ltac:(unfold word; lia) Hlen))).
  rewrite s32_small, decide_False by lia.
  rewrite (bind_ok _ _ _ _ _ (mem_id _ _ _ (read_word_ok _ _ buf ltac:(unfold word; lia) Hbuf))).
  rewrite (bind_ok _ _ _ _ _ (mem_id _ _ _ Hv)).
  rewrite (bind_ok _ _ _ false s); last by rewrite (decide_False (P := 0 < 0)), (bind_ok _ _ _ _ _ (mem_id _ _ _ Hw)) by lia.
  cbv beta iota. set (s1 := set_readline_mutex held_mutex s).
  assert (readline_lock s = Ok tt s1) as Hlock by (unfold readline_lock; apply zoom_ok; by rewrite Hmut).
  rewrite (bind_ok _ _ _ _ _ Hlock).
  destruct (nextline_ok s1 own pds fs buf len q t r out q') as (v & k & Hn & Hrep' & Hwr & Hnil); try done.
  { destruct Hcase as [[_ ->]|[[_ ->]|[_ ?]]]; cbn; lia. }
  rewrite (bind_ok _ _ _ _ _ Hn). set (s2 := set_io_kbd k (set_io_vm v s1)). unfold readline_loop.
  assert (readline_unlock s2 = Ok tt (set_readline_mutex free_mutex s2)) as Hunlock by (unfold readline_unlock; by apply zoom_ok).
  destruct Hcase as [[-> _]|[[-> ->]|[-> _]]].
  - rewrite decide_True, (bind_ok _ _ _ _ _ Hunlock) by done. eexists. split; [done|]. by split_and!.
  - rewrite decide_False, decide_True by done. specialize (Hnil eq_refl). subst v.
    destruct (readline_wait_ok s2 ws c eq_refl Hcv Hruns) as (sch & Hrun & Hb).
    rewrite (bind_ok _ _ _ _ _ Hrun). eexists. split; [done|]. split; [done|].
    split_and!; [done|exact Hb|by eapply blocked_queued|done].
  - rewrite !decide_False by (unfold ERR_INVAL, ERR_NOTAVAIL; lia). rewrite (bind_ok _ _ _ _ _ Hunlock).
    eexists. split; [done|]. split; [done|]. rewrite decide_False by (unfold ERR_NOTAVAIL; lia). by split_and!.
Qed.

(** ** [readfile] *)

(** A file name of the task: [t], not empty, terminated within [MAX_FILE_NAME] bytes. *)
Record user_name s (p : Z) (t : list Z) : Prop := {
  un_chars : Forall (λ b, 0 < b < 256) t;
  un_len : (0 < length t < Z.to_nat MAX_FILE_NAME)%nat;
  un_bytes : bytes_at (io_vm s) p (t ++ [0]);
  un_end : p + MAX_FILE_NAME < 0xFFFFF000;
}.

Lemma name_loop_ok (v : vm H) own pds fs p : ∀ t n count,
  vm_wf none v own pds fs → cr3 v ∈ pds → 0 ≤ count → p + count + Z.of_nat (length t) + 1 < 0xFFFFF000 →
  Forall (λ b, 0 < b < 256) t → (length t < n)%nat → bytes_at v (p + count) (t ++ [0]) →
  file_name_loop n p count v = Ok (Some (count + Z.of_nat (length t), t ++ [0])) v.
Proof.
  assert (∀ count b l, vm_wf none v own pds fs → cr3 v ∈ pds → p + count + 1 < 0xFFFFF000 → bytes_at v (p + count) (b :: l) →
    is_pointer_valid (u32 (p + count)) 1 v = Ok 0 v ∧ read_user (u32 (p + count)) v = Ok b v) as Hone.
  { intros count b l Hwf Hpd He Hb. destruct (Hb 0%nat b eq_refl) as [Hu Hr]. rewrite Z.add_0_r in *.
    destruct (user_word _ Hu) as [Hw Hus]. rewrite u32_small by done. split; [|by apply read_user_ok].
    destruct (is_pointer_valid_one v own pds fs (p + count) Hwf Hpd Hus He) as (r & -> & [[-> _]|(-> & Hn & _)]); [done|].
    exfalso. apply Hn. apply read_byte_mapped. by rewrite Hr. }
  induction t as [|b t IH]; intros [|n] count Hwf Hpd Hc He Hch Hn Hb; cbn [length] in *; try lia.
  - destruct (Hone count 0 [] Hwf Hpd ltac:(lia) Hb) as [Hp1 Hr1]. cbn [file_name_loop].
    rewrite (bind_ok _ _ _ _ _ Hp1), decide_False, (bind_ok _ _ _ _ _ Hr1), decide_True by (done || lia).
    by rewrite Z.add_0_r.
  - destruct (Hone count b (t ++ [0]) Hwf Hpd ltac:(lia) Hb) as [Hp1 Hr1]. apply Forall_cons in Hch as [Hb0 Hch].
    cbn [file_name_loop]. rewrite (bind_ok _ _ _ _ _ Hp1), decide_False, (bind_ok _ _ _ _ _ Hr1), decide_False by lia.
    erewrite bind_ok; [|apply IH; try done; try lia].
    + cbn. do 3 f_equal. lia.
    + intros i x Hi. replace (p + (count + 1) + Z.of_nat i) with (p + count + Z.of_nat (S i)) by lia. by apply (Hb (S i)).
Qed.

(** The checks before the copy. *)
Lemma readfile_start s own pds fs arg p t buf size offset :
  vm_wf none (io_vm s) own pds fs → cr3 (io_vm s) ∈ pds → user_name s p t →
  word_at (io_vm s) arg p → word_at (io_vm s) (u32 (arg + 4)) buf →
  word_at (io_vm s) (u32 (arg + 8)) size → word_at (io_vm s) (u32 (arg + 12)) offset →
  word p → word buf → buf ≠ NULL → 0 ≤ size → 0 ≤ offset → offset + size < 2147483648 →
  readfile_handler_c arg s = ('(bytes_read, l) ← getbytes (Some (t ++ [0])) offset size (replicate (Z.to_nat size) 0);
    mem (write_bytes buf (take (Z.to_nat bytes_read) l)) ;; mret bytes_read) s.
Proof.
  intros Hwf Hpd [Hch Hlt Hbytes Hend] Hp Hbuf Hsize Hoff Hwp Hwb Hnull Hs0 Ho0 Hsum.
  unfold MAX_FILE_NAME in Hend.
  assert (file_name_loop (Z.to_nat MAX_FILE_NAME) p 0 (io_vm s) = Ok (Some (Z.of_nat (length t), t ++ [0])) (io_vm s)) as Hloop.
  { apply (name_loop_ok (io_vm s) own pds fs p t); try done; [|lia|by rewrite Z.add_0_r].
    unfold MAX_FILE_NAME in Hlt. lia. }
  unfold readfile_handler_c. rewrite (bind_ok _ _ _ _ _ (mem_id _ _ _ (read_word_ok _ _ p Hwp Hp))).
  rewrite (bind_ok _ _ _ _ _ (mem_id _ _ _ Hloop)), decide_False by (unfold MAX_FILE_NAME in *; lia).
  rewrite (bind_ok _ _ _ _ _ (mem_id _ _ _ (read_word_ok _ _ buf Hwb Hbuf))).
  rewrite (bind_ok _ _ _ _ _ (mem_id _ _ _ (read_word_ok _ _ size ltac:(unfold word; lia) Hsize))).
  rewrite (bind_ok _ _ _ _ _ (mem_id _ _ _ (read_word_ok _ _ offset ltac:(unfold word; lia) Hoff))).
  by rewrite decide_False, !s32_small by (done || lia).
Qed.

(** C27. [readfile] with a file name and four arguments in the task's memory:
    it fails for a file that is not on the disk, for a size below four and for
    an offset at or past the end of the file; otherwise it returns the number of
    bytes there are from the offset on, or [size] if that is less (a count, where
    the comment above [readfile_handler_c] promises zero), and stores them at the
    start of the buffer and changes nothing else, for a buffer whose frames are
    mapped only once, as those of writable pages are.  The buffer is not checked:
    for one below [USER_MEM_START] the first byte is stored at a kernel address.
    Kernel memory is not modelled as bytes, so the model stops at that store. *)
Theorem readfile_correct s own pds fs arg p t buf size offset f :
  vm_wf none (io_vm s) own pds fs → cr3 (io_vm s) ∈ pds →
  disk_ok → user_name s p t →
  word_at (io_vm s) arg p → word_at (io_vm s) (u32 (arg + 4)) buf →
  word_at (io_vm s) (u32 (arg + 8)) size → word_at (io_vm s) (u32 (arg + 12)) offset →
  word p → word buf → buf ≠ NULL → 0 ≤ size → 0 ≤ offset → offset + size < 2147483648 →
  let n := Z.min size (Z.of_nat (length f) - offset) in
  (file t = None ∨ file t = Some f ∧ (size < 4 ∨ n ≤ 0) → readfile_handler_c arg s = Ok ERR_FAILURE s) ∧
  (file t = Some f → 4 ≤ size → 0 < n →
     (buf < USER_MEM_START → readfile_handler_c arg s = Stop BadAccess) ∧
     ((∀ va, buf ≤ va < buf + n → is_user va = true ∧
         ∃ g, translate (io_vm s) (cr3 (io_vm s)) va = Some g ∧ refs (io_vm s) own g = 1) →
      ∃ v, readfile_handler_c arg s = Ok n (set_io_vm v s) ∧
        wrote (io_vm s) (cr3 (io_vm s)) buf (slice f offset n) v)).
Proof.
  intros Hwf Hpd Hdisk Hname Hp Hbuf Hsize Hoff Hwp Hwb Hnull Hs0 Ho0 Hsum n.
  pose proof Hname as [Hch Hlt _ _].
  assert (file_name (t ++ [0]) t) as Hfn.
  { split; [split; [done|by exists []]|]. unfold MAX_FILE_NAME in Hlt. lia. }
  rewrite (readfile_start s own pds fs arg p t buf size offset) by done.
  assert (∀ l, (mem (write_bytes buf (take (Z.to_nat ERR_FAILURE) l)) ;; mret ERR_FAILURE) s = Ok ERR_FAILURE s) as Hfail
    by (intros l; by destruct s).
  split.
  - intros [Hf|[Hf Hn]].
    + rewrite (bind_ok _ _ _ _ _ (getbytes_absent _ _ _ _ _ s Hdisk Hfn Hf)). apply Hfail.
    + destruct (decide (size < 4)) as [Hs|Hs].
      * rewrite (bind_ok _ _ _ (ERR_FAILURE, replicate (Z.to_nat size) 0) s); [apply Hfail|].
        unfold getbytes. by rewrite decide_True by lia.
      * rewrite (bind_ok _ _ _ (ERR_FAILURE, replicate (Z.to_nat size) 0) s); [apply Hfail|]. rewrite (getbytes_ok _ t f) by (try done; rewrite ?length_replicate; lia).
        rewrite decide_False, decide_True by lia. done.
  - intros Hf Hs Hn.
    rewrite (bind_ok _ _ _ (n, slice f offset n ++ drop (Z.to_nat n) (replicate (Z.to_nat size) 0)) s); last first.
    { rewrite (getbytes_ok _ t f) by (try done; rewrite ?length_replicate; lia). by rewrite !decide_False by lia. }
    assert (length (slice f offset n) = Z.to_nat n) as Hlen by (unfold slice; rewrite length_take, length_drop; lia).
    cbv beta iota. rewrite take_app_length' by done. split.
    + intros Hk. destruct (slice f offset n) as [|b l]; [cbn in Hlen; lia|].
      assert (is_user buf = false) as Hu by (apply bool_decide_false; lia).
      unfold mem, zoom. cbn [write_bytes]. unfold write_user at 1. rewrite Hu. done.
    + intros Hm. destruct (write_range_ok none (io_vm s) own pds fs (cr3 (io_vm s)) buf (slice f offset n)) as (v & Hv & Hwr); try done.
      { rewrite Hlen. intros va Hva. apply Hm. lia. }
      exists v. by rewrite (bind_ok _ _ _ _ _ (mem_run _ _ _ _ Hv)).
Qed.
End io_facts.

(** ** An instance: arguments of a [readline] and of a [readfile] in the one page
    of a task *)
Definition demo_page : gmap Z Z :=
  {[0 := 16; 4 := 64; 7 := 1; 16 := 32; 19 := 1; 20 := 64; 23 := 1; 24 := 16; 32 := 97]}.

Definition demo_io : io bump :=
  mk_io (set_phys {[0x1000000 := demo_page]} demo_rw) (kbd_boot demo_console) free_mutex
    (mk_cond COND_VAR_VALID [] free_mutex) demo_sched.

Lemma wf_phys {H} `{KernelHeapSpec H} (v : vm H) own pds fs ph :
  vm_wf none v own pds fs ∧ cow_ok v own → vm_wf none (set_phys ph v) own pds fs ∧ cow_ok (set_phys ph v) own.
Proof. intros [Hwf Hcow]. split; [by destruct Hwf|exact Hcow]. Qed.

Lemma demo_io_wf : ∃ own fs, vm_wf none (io_vm demo_io) own {[demo_pd]} fs ∧ cow_ok (io_vm demo_io) own.
Proof. destruct demo_rw_wf as (own & fs & Hwf). exists own, fs. apply (wf_phys _ _ _ _ _ Hwf). Qed.

Lemma demo_io_cr3 : cr3 (io_vm demo_io) = demo_pd.
Proof. vm_compute. reflexivity. Qed.

Lemma pte_at_phys {H} (v : vm H) ph pd va : pte_at (set_phys ph v) pd va = pte_at v pd va.
Proof. done. Qed.

Lemma read_byte_phys {H} (v : vm H) ph pd va e :
  pte_at v pd va = Some e →
  read_byte (set_phys ph v) pd va = Some (default 0 (default ∅ (ph !! GET_ADDR_FROM_ENTRY e) !! (va mod 4096))).
Proof. intros E. unfold read_byte, translate. by rewrite pte_at_phys, E. Qed.

Lemma demo_io_pte va : 0x1000000 ≤ va < 0x1001000 → pte_at (io_vm demo_io) demo_pd va = Some 0x1000007.
Proof. intros Hr. unfold demo_io. cbn [io_vm]. rewrite pte_at_phys. apply demo_rw_pte; [unfold page_of; dlia|unfold word; lia]. Qed.

Lemma demo_io_byte k : 0 ≤ k < 4096 →
  is_user (0x1000000 + k) = true ∧ read_byte (io_vm demo_io) demo_pd (0x1000000 + k) = Some (default 0 (demo_page !! k)).
Proof.
  intros Hk. split; [apply bool_decide_true; unfold USER_MEM_START; lia|].
  unfold demo_io. cbn [io_vm]. rewrite (read_byte_phys _ _ _ _ 0x1000007); last first.
  { apply demo_rw_pte; [unfold page_of; dlia|unfold word; lia]. }
  change (GET_ADDR_FROM_ENTRY 0x1000007) with 0x1000000. rewrite lookup_singleton_eq. cbn [default].
  by replace ((0x1000000 + k) mod 4096) with k by dlia.
Qed.

Lemma demo_io_bytes k l :
  0 ≤ k → k + Z.of_nat (length l) ≤ 4096 →
  imap (λ i _, default 0 (demo_page !! (k + Z.of_nat i))) l = l → bytes_at (io_vm demo_io) (0x1000000 + k) l.
Proof.
  intros H0 Hk Hl i b Hi. pose proof (lookup_lt_Some _ _ _ Hi) as Hlt. rewrite demo_io_cr3.
  replace (0x1000000 + k + Z.of_nat i) with (0x1000000 + (k + Z.of_nat i)) by lia.
  destruct (demo_io_byte (k + Z.of_nat i)) as [Hu Hr]; [lia|]. split; [done|]. rewrite Hr.
  pose proof Hi as Hi'. rewrite <- Hl, list_lookup_imap, Hi in Hi'. exact Hi'.
Qed.

Lemma demo_io_pds : cr3 (io_vm demo_io) ∈ ({[demo_pd]} : gset Z).
Proof. rewrite demo_io_cr3. by apply elem_of_singleton. Qed.

Lemma demo_io_buffer : user_buffer demo_io 0x1000040 16.
Proof.
  split; [unfold query_range, USER_MEM_START; lia|]. intros va Hva. exists 0x1000007.
  rewrite demo_io_cr3. split; [apply demo_io_pte; lia|reflexivity].
Qed.

Lemma demo_sched_runs : runs demo_sched 2.
Proof. split; [exact demo_sched_ok|done|done|done]. Qed.

(** Nothing was typed: thread 2 waits and thread 3 runs. *)
Lemma readline_correct_witness :
  ∃ s', readline_handler_c 0x1000000 demo_io = Ok None s' ∧ st (io_sched s') 2 = Some WAITING ∧
    cv_waiting (readline_cond_var s') = [2].
Proof.
  destruct demo_io_wf as (own & fs & Hwf & Hcow).
  pose proof (kbd_boot_lap demo_console demo_term 0 demo_console_ok demo_console_shows ltac:(lia)) as Hfl.
  destruct (readline_correct demo_io own {[demo_pd]} fs 0x1000000 0x1000040 16 [] demo_term [] 2 Hwf Hcow demo_io_pds)
    as (s' & Hrun & _ & [_ Hcv] & Hb & _).
  - apply (demo_io_bytes 0 (le4 16)); [lia|cbn; lia|vm_compute; reflexivity].
  - apply (demo_io_bytes 4 (le4 0x1000040)); [lia|cbn; lia|vm_compute; reflexivity].
  - exact demo_io_buffer.
  - exact (fl_rep _ _ _ Hfl).
  - split; reflexivity.
  - exact demo_sched_runs.
  - split; [apply NoDup_nil_2|intros t Ht; by apply elem_of_nil in Ht..].
  - exists s'. split; [exact Hrun|]. split; [exact (bl_status _ _ _ Hb)|]. by rewrite Hcv.
Defined.

#[local] Existing Instance demo_disk.

Lemma readfile_correct_witness : ∃ v, readfile_handler_c 0x1000010 demo_io = Ok 16 (set_io_vm v demo_io).
Proof.
  destruct demo_io_wf as (own & fs & Hwf & Hcow).
  destruct demo_disk_ok as (Hd & _ & Hf).
  destruct (readfile_correct demo_io own {[demo_pd]} fs 0x1000010 0x1000020 [97] 0x1000040 16 0 demo_elf Hwf demo_io_pds)
    as (_ & Hok).
  - exact Hd.
  - split; [apply Forall_singleton; lia|vm_compute; lia| |unfold MAX_FILE_NAME; lia].
    apply (demo_io_bytes 32 [97; 0]); [lia|cbn; lia|vm_compute; reflexivity].
  - apply (demo_io_bytes 16 (le4 0x1000020)); [lia|cbn; lia|vm_compute; reflexivity].
  - apply (demo_io_bytes 20 (le4 0x1000040)); [lia|cbn; lia|vm_compute; reflexivity].
  - apply (demo_io_bytes 24 (le4 16)); [lia|cbn; lia|vm_compute; reflexivity].
  - apply (demo_io_bytes 28 (le4 0)); [lia|cbn; lia|vm_compute; reflexivity].
  - unfold word. lia.
  - unfold word. lia.
  - unfold NULL. lia.
  - lia.
  - lia.
  - lia.
  - destruct (Hok Hf) as [_ Hgo]; [lia|vm_compute; reflexivity|].
    destruct Hgo as (v & Hrun & _); [|exists v; exact Hrun].
    intros va Hva. change (Z.min 16 _) with 16 in Hva.
    by apply (user_buffer_single demo_io own {[demo_pd]} fs 0x1000040 16 Hwf Hcow demo_io_pds demo_io_buffer).
Defined.
