(* ===== verification/UThread.v ===== *)
(** * The user thread library (user/libthread/)

    Mutexes, condition variables, semaphores, readers-writer locks and threads
    of a multithreaded task.  The threads run interleaved in any order.  What a
    thread still has to do is a list of operations; an operation is one step,
    and a call of the library is replaced by the operations it consists of.  A
    step touches shared data once, or several times under a lock whose holder
    alone touches them.  Structures are named by their addresses, and a mutex or
    condition variable inside a structure by its offset in it.  The system calls
    [deschedule], [make_runnable], [gettid] and [vanish] are steps on the set of
    descheduled threads; [malloc] hands out the addresses that the operations
    carry, 0 when it fails. *)

From S2P Require Import Prelude FrameAlloc.

Definition UMUTEX_VALID : Z := 1.
Definition UMUTEX_INVALID : Z := 0.
Definition UCOND_VAR_VALID : Z := 1.
Definition UCOND_VAR_INVALID : Z := 0.
Definition DESCHEDULE : Z := 0.
Definition RUNNABLE : Z := 1.
Definition RWLOCK_READ : Z := 0.
Definition RWLOCK_WRITE : Z := 1.
Definition RWLOCK_FREE : Z := 2.
Definition RWLOCK_INVALID : Z := -1.
Definition UERR_INVAL : Z := -1.
Definition UERR_NOMEM : Z := -3.

(** ** Addresses inside the structures *)
Definition queue_mutex (cv : Z) : Z := cv + 12.
Definition rw_mutex (r : Z) : Z := r.
Definition rw_readers (r : Z) : Z := r + 12.
Definition rw_writers (r : Z) : Z := r + 36.
Definition sem_mutex (x : Z) : Z := x.
Definition sem_cond (x : Z) : Z := x + 12.
Definition waiting_threads (a : Z) : Z := a + 24.
Definition tcb_mutex (a : Z) : Z := a + 48.

Record ucond : Type := mk_ucond { uc_status : Z; uc_waiting : list Z }.
Record urwlock : Type := mk_urwlock { rw_type : Z; num_writers : Z; curr_readers : Z }.
Record usem : Type := mk_usem { us_count : Z; us_valid : Z }.
Record tcb : Type := mk_tcb { tcb_id : Z; exited : Z; stack_base : Z; tcb_status : Z }.

(** The operations a thread can be at.  [RwUnlock] and [RwRelease] carry the kind
    of lock that the thread holds, which the code does not look at. *)
Inductive op : Type :=
  | Work
  | Lock (m : Z)
  | Unlock (m : Z)
  | CondWait (c m : Z)
  | NewNode
  | Enqueue (c : Z)
  | Deschedule
  | Dequeue (c : Z)
  | Signal (c : Z)
  | SignalFirst (c : Z)
  | Broadcast (c : Z)
  | BroadcastAll (c : Z)
  | WakeAll (ws : list Z)
  | MakeRunnable (t : Z)
  | SemWait (x : Z)
  | SemTest (x : Z)
  | SemSignal (x : Z)
  | SemCount (x : Z)
  | RwLock (r kind : Z)
  | WriterArrives (r : Z)
  | WriterTest (r : Z)
  | ReaderTest (r : Z)
  | RwUnlock (r kind : Z)
  | RwRelease (r kind : Z)
  | RwDowngrade (r : Z)
  | DowngradeTest (r : Z)
  | ThrCreate (stack a tid func : Z)
  | ThrFork (a tid func : Z)
  | ThrJoin (tid : Z)
  | JoinFind (tid : Z)
  | JoinTest (a : Z)
  | JoinRemove (a : Z)
  | ThrExit (status : Z)
  | ExitFind (status : Z)
  | ExitSet (a status : Z)
  | ExitStack (a : Z)
  | Vanish
  | Return (v : Z).

#[export] Instance op_eq_dec : EqDecision op.
Proof. solve_decision. Defined.

Record ust : Type := mk_ust {
  mutexes : gmap Z Z;
  conds : gmap Z ucond;
  nodes : gmap Z Z;
  sems : gmap Z usem;
  rws : gmap Z urwlock;
  tcbs : gmap Z tcb;
  tcb_list : list Z;
  tcb_lock : Z;
  asleep : gset Z;
  rets : gmap Z Z;
  todo : gmap Z (list op);
}.

Definition set_mutexes v s := mk_ust v (conds s) (nodes s) (sems s) (rws s) (tcbs s) (tcb_list s) (tcb_lock s) (asleep s) (rets s) (todo s).
Definition set_conds v s := mk_ust (mutexes s) v (nodes s) (sems s) (rws s) (tcbs s) (tcb_list s) (tcb_lock s) (asleep s) (rets s) (todo s).
Definition set_nodes v s := mk_ust (mutexes s) (conds s) v (sems s) (rws s) (tcbs s) (tcb_list s) (tcb_lock s) (asleep s) (rets s) (todo s).
Definition set_sems v s := mk_ust (mutexes s) (conds s) (nodes s) v (rws s) (tcbs s) (tcb_list s) (tcb_lock s) (asleep s) (rets s) (todo s).
Definition set_rws v s := mk_ust (mutexes s) (conds s) (nodes s) (sems s) v (tcbs s) (tcb_list s) (tcb_lock s) (asleep s) (rets s) (todo s).
Definition set_tcbs v l s := mk_ust (mutexes s) (conds s) (nodes s) (sems s) (rws s) v l (tcb_lock s) (asleep s) (rets s) (todo s).
Definition set_asleep v s := mk_ust (mutexes s) (conds s) (nodes s) (sems s) (rws s) (tcbs s) (tcb_list s) (tcb_lock s) v (rets s) (todo s).
Definition set_rets v s := mk_ust (mutexes s) (conds s) (nodes s) (sems s) (rws s) (tcbs s) (tcb_list s) (tcb_lock s) (asleep s) v (todo s).
Definition set_todo v s := mk_ust (mutexes s) (conds s) (nodes s) (sems s) (rws s) (tcbs s) (tcb_list s) (tcb_lock s) (asleep s) (rets s) v.

Definition the_cond (c : Z) : M ust ucond := s ← get; deref (conds s !! c).
Definition put_cond (c : Z) (v : ucond) : M ust unit := modify (λ s, set_conds (<[c := v]> (conds s)) s).
Definition the_rw (r : Z) : M ust urwlock := s ← get; deref (rws s !! r).
Definition put_rw (r : Z) (v : urwlock) : M ust unit := modify (λ s, set_rws (<[r := v]> (rws s)) s).
Definition the_sem (x : Z) : M ust usem := s ← get; deref (sems s !! x).
Definition put_sem (x : Z) (v : usem) : M ust unit := modify (λ s, set_sems (<[x := v]> (sems s)) s).
Definition the_tcb (a : Z) : M ust tcb := s ← get; deref (tcbs s !! a).
Definition put_tcb (a : Z) (v : tcb) : M ust unit := modify (λ s, set_tcbs (<[a := v]> (tcbs s)) (tcb_list s) s).

(** ** asm.S and mutex.c *)
Definition exchange (m v : Z) : M ust Z :=
  s ← get;
  old ← deref (mutexes s !! m);
  modify (set_mutexes (<[m := v]> (mutexes s))) ;;
  mret old.
Definition test_and_unset (m : Z) : M ust Z := exchange m 0.
Definition test_and_set (m : Z) : M ust Z := exchange m 1.

Definition mutex_init (m : Z) : M ust Z :=
  if decide (m = NULL) then mret UERR_INVAL
  else modify (λ s, set_mutexes (<[m := UMUTEX_VALID]> (mutexes s)) s) ;; mret 0.
Definition mutex_destroy (m : Z) : M ust unit :=
  if decide (m = NULL) then mret tt
  else modify (λ s, set_mutexes (<[m := UMUTEX_INVALID]> (mutexes s)) s).

(** One round of the spinning loop. *)
Definition mutex_lock (m : Z) : M ust (list op) :=
  old ← test_and_unset m;
  mret (if decide (old = 0) then [Lock m] else []).
Definition mutex_unlock (m : Z) : M ust (list op) := test_and_set m ;; mret [].

(** ** cond_var.c *)
Definition cond_init (cv : Z) : M ust Z :=
  if decide (cv = NULL) then mret UERR_INVAL
  else
    put_cond cv (mk_ucond UCOND_VAR_VALID []) ;;
    r ← mutex_init (queue_mutex cv);
    mret (if decide (r < 0) then UERR_INVAL else 0).
Definition cond_destroy (cv : Z) : M ust unit :=
  if decide (cv = NULL) then mret tt
  else
    mutex_destroy (queue_mutex cv) ;;
    c ← the_cond cv;
    put_cond cv (mk_ucond UCOND_VAR_INVALID (uc_waiting c)).

Definition cond_wait_ops (cv mp : Z) : list op :=
  [NewNode; Lock (queue_mutex cv); Enqueue cv; Unlock (queue_mutex cv); Unlock mp; Deschedule;
   Lock mp; Lock (queue_mutex cv); Dequeue cv; Unlock (queue_mutex cv)].
Definition cond_wait (cv mp : Z) : M ust (list op) :=
  c ← the_cond cv;
  mret (if decide (uc_status c = UCOND_VAR_INVALID) then [] else cond_wait_ops cv mp).

Definition new_node (t : Z) : M ust (list op) :=
  modify (λ s, set_nodes (<[t := DESCHEDULE]> (nodes s)) s) ;; mret [].
Definition enqueue (cv t : Z) : M ust (list op) :=
  c ← the_cond cv; put_cond cv (mk_ucond (uc_status c) (uc_waiting c ++ [t])) ;; mret [].
Definition dequeue (cv t : Z) : M ust (list op) :=
  c ← the_cond cv;
  put_cond cv (mk_ucond (uc_status c) (filter (λ w, w ≠ t) (uc_waiting c))) ;;
  modify (λ s, set_nodes (delete t (nodes s)) s) ;;
  mret [].

(** The system call reads the word at the node and sleeps when it is zero. *)
Definition deschedule (t : Z) : M ust (list op) :=
  s ← get;
  reject ← deref (nodes s !! t);
  (if decide (reject ≠ 0) then mret tt else modify (set_asleep ({[t]} ∪ asleep s))) ;;
  mret [].
Definition make_runnable (t : Z) : M ust (list op) :=
  modify (λ s, set_asleep (asleep s ∖ {[t]}) s) ;; mret [].

Definition set_reject (w : Z) : M ust unit :=
  s ← get;
  _ ← deref (nodes s !! w);
  modify (set_nodes (<[w := RUNNABLE]> (nodes s))).

Definition cond_signal (cv : Z) : M ust (list op) :=
  c ← the_cond cv;
  mret (if decide (uc_status c = UCOND_VAR_INVALID) then []
        else [Lock (queue_mutex cv); SignalFirst cv; Unlock (queue_mutex cv)]).
Definition signal_first (cv : Z) : M ust (list op) :=
  c ← the_cond cv;
  match uc_waiting c with
  | [] => mret []
  | w :: _ => set_reject w ;; mret [MakeRunnable w]
  end.

Definition cond_broadcast (cv : Z) : M ust (list op) :=
  c ← the_cond cv;
  mret (if decide (uc_status c = UCOND_VAR_INVALID) then []
        else [Lock (queue_mutex cv); BroadcastAll cv; Unlock (queue_mutex cv)]).
Definition broadcast_all (cv : Z) : M ust (list op) := c ← the_cond cv; mret [WakeAll (uc_waiting c)].
Definition wake_all (ws : list Z) : M ust (list op) :=
  match ws with
  | [] => mret []
  | w :: ws' => set_reject w ;; mret [MakeRunnable w; WakeAll ws']
  end.

(** ** sem.c *)
Definition sem_init (x count : Z) : M ust Z :=
  if decide (x = NULL ∨ count ≤ 0) then mret (-1)
  else
    mutex_init (sem_mutex x) ;;
    cond_init (sem_cond x) ;;
    put_sem x (mk_usem count 1) ;;
    mret 0.
Definition sem_wait (x : Z) : M ust (list op) :=
  if decide (x = NULL) then mret []
  else
    v ← the_sem x;
    mret (if decide (us_valid v = 0) then [] else [Lock (sem_mutex x); SemTest x; Unlock (sem_mutex x)]).
Definition sem_test (x : Z) : M ust (list op) :=
  v ← the_sem x;
  if decide (us_count v = 0) then mret [CondWait (sem_cond x) (sem_mutex x); SemTest x]
  else put_sem x (mk_usem (us_count v - 1) (us_valid v)) ;; mret [].
Definition sem_signal (x : Z) : M ust (list op) :=
  if decide (x = NULL) then mret []
  else
    v ← the_sem x;
    mret (if decide (us_valid v = 0) then [] else [Lock (sem_mutex x); SemCount x; Unlock (sem_mutex x)]).
Definition sem_count (x : Z) : M ust (list op) :=
  v ← the_sem x;
  put_sem x (mk_usem (us_count v + 1) (us_valid v)) ;;
  mret [Signal (sem_cond x)].
Definition sem_destroy (x : Z) : M ust unit := v ← the_sem x; put_sem x (mk_usem (us_count v) 0).

(** ** rwlock.c *)
Definition rwlock_init (r : Z) : M ust Z :=
  mutex_init (rw_mutex r) ;;
  cond_init (rw_readers r) ;;
  cond_init (rw_writers r) ;;
  put_rw r (mk_urwlock RWLOCK_FREE 0 0) ;;
  mret 0.

Definition rwlock_lock (r type : Z) : M ust (list op) :=
  if decide (r = NULL ∨ (type ≠ RWLOCK_READ ∧ type ≠ RWLOCK_WRITE)) then mret []
  else
    mret (Lock (rw_mutex r) ::
          (if decide (type = RWLOCK_WRITE) then [WriterArrives r; WriterTest r] else [ReaderTest r]) ++
          [Unlock (rw_mutex r)]).
Definition writer_arrives (r : Z) : M ust (list op) :=
  v ← the_rw r;
  put_rw r (mk_urwlock (rw_type v) (num_writers v + 1) (curr_readers v)) ;; mret [].
Definition writer_test (r : Z) : M ust (list op) :=
  v ← the_rw r;
  if decide (rw_type v ≠ RWLOCK_FREE ∧ curr_readers v > 0)
  then mret [CondWait (rw_writers r) (rw_mutex r); WriterTest r]
  else put_rw r (mk_urwlock RWLOCK_WRITE (num_writers v) (curr_readers v)) ;; mret [].
Definition reader_test (r : Z) : M ust (list op) :=
  v ← the_rw r;
  if decide (rw_type v = RWLOCK_WRITE ∨ num_writers v > 0)
  then mret [CondWait (rw_readers r) (rw_mutex r); ReaderTest r]
  else put_rw r (mk_urwlock RWLOCK_READ (num_writers v) (curr_readers v + 1)) ;; mret [].

Definition rwlock_unlock (r kind : Z) : M ust (list op) :=
  if decide (r = NULL) then mret []
  else mret [Lock (rw_mutex r); RwRelease r kind; Unlock (rw_mutex r)].
Definition rw_release (r : Z) : M ust (list op) :=
  v ← the_rw r;
  if decide (rw_type v = RWLOCK_WRITE) then
    put_rw r (mk_urwlock RWLOCK_FREE (num_writers v - 1) (curr_readers v)) ;;
    mret [Broadcast (rw_readers r); Signal (rw_writers r)]
  else if decide (rw_type v = RWLOCK_READ) then
    let n := curr_readers v - 1 in
    if decide (n = 0) then
      put_rw r (mk_urwlock RWLOCK_FREE (num_writers v) n) ;;
      mret [Broadcast (rw_readers r); Signal (rw_writers r)]
    else put_rw r (mk_urwlock (rw_type v) (num_writers v) n) ;; mret []
  else mret [].

Definition rwlock_downgrade (r : Z) : M ust (list op) :=
  if decide (r = NULL) then mret []
  else mret [Lock (rw_mutex r); DowngradeTest r; Unlock (rw_mutex r)].
Definition downgrade_test (r : Z) : M ust (list op) :=
  v ← the_rw r;
  if decide (rw_type v ≠ RWLOCK_WRITE) then mret []
  else
    put_rw r (mk_urwlock RWLOCK_READ (num_writers v - 1) (curr_readers v + 1)) ;;
    mret [Broadcast (rw_readers r)].
Definition rwlock_destroy (r : Z) : M ust unit :=
  v ← the_rw r; put_rw r (mk_urwlock RWLOCK_INVALID (num_writers v) (curr_readers v)).

(** ** thread.c *)

(** The new TCB at [a], where [malloc] put it; its id is set when it is added. *)
Definition init_tcb (a stack_base : Z) : M ust Z :=
  if decide (a = NULL) then mret NULL
  else
    put_tcb a (mk_tcb 0 0 stack_base 0) ;;
    c ← cond_init (waiting_threads a);
    m ← mutex_init (tcb_mutex a);
    mret (if decide (c < 0 ∨ m < 0) then NULL else a).
Definition add_tcb (tid a : Z) : M ust unit :=
  t ← the_tcb a;
  put_tcb a (mk_tcb tid (exited t) (stack_base t) (tcb_status t)) ;;
  modify (λ s, set_tcbs (tcbs s) (tcb_list s ++ [a]) s).
Fixpoint find_tcb (l : list Z) (tid : Z) : M ust Z :=
  match l with
  | [] => mret NULL
  | a :: l' => t ← the_tcb a; if decide (tcb_id t = tid) then mret a else find_tcb l' tid
  end.
(** [free] makes the structure and the locks in it inaccessible. *)
Definition remove_tcb (a : Z) : M ust unit :=
  modify (λ s, set_tcbs (tcbs s) (filter (λ x, x ≠ a) (tcb_list s)) s) ;;
  mutex_destroy (tcb_mutex a) ;;
  cond_destroy (waiting_threads a) ;;
  modify (λ s, set_tcbs (delete a (tcbs s)) (tcb_list s) s) ;;
  modify (λ s, set_mutexes (delete (tcb_mutex a) (delete (queue_mutex (waiting_threads a)) (mutexes s))) s) ;;
  modify (λ s, set_conds (delete (waiting_threads a) (conds s)) s).

Definition thr_init (a tid : Z) : M ust Z :=
  s ← get;
  r ← mutex_init (tcb_lock s);
  if decide (r < 0) then mret r
  else
    modify (λ s, set_tcbs (tcbs s) [] s) ;;
    tcb ← init_tcb a NULL;
    if decide (tcb = NULL) then mret UERR_INVAL
    else add_tcb tid tcb ;; mret 0.

Definition thr_create (stack a tid func : Z) : M ust (list op) :=
  if decide (stack = NULL) then mret [Return UERR_NOMEM]
  else
    tcb ← init_tcb a NULL;
    if decide (tcb = NULL) then mret [Return UERR_INVAL]
    else s ← get; mret [Lock (tcb_lock s); ThrFork a tid func; Unlock (tcb_lock s); Return tid].

Definition thr_join (tid : Z) : M ust (list op) :=
  if decide (tid < 0) then mret [Return UERR_INVAL]
  else s ← get; mret [Lock (tcb_lock s); JoinFind tid].
Definition join_find (tid : Z) : M ust (list op) :=
  s ← get;
  a ← find_tcb (tcb_list s) tid;
  mret (Unlock (tcb_lock s) ::
        if decide (a = NULL) then [Return UERR_INVAL]
        else [Lock (tcb_mutex a); JoinTest a; Lock (tcb_lock s); JoinRemove a; Unlock (tcb_lock s)]).
(** The status goes to [*statusp], which is the result here. *)
Definition join_test (a : Z) : M ust (list op) :=
  t ← the_tcb a;
  mret (if decide (exited t ≠ 1) then [CondWait (waiting_threads a) (tcb_mutex a); JoinTest a]
        else [Return (tcb_status t)]).
Definition join_remove (a : Z) : M ust (list op) := remove_tcb a ;; mret [].

Definition thr_exit (status : Z) : M ust (list op) :=
  s ← get; mret [Lock (tcb_lock s); ExitFind status].
Definition exit_find (tid status : Z) : M ust (list op) :=
  s ← get;
  a ← find_tcb (tcb_list s) tid;
  mret (Unlock (tcb_lock s) ::
        if decide (a = NULL) then [Vanish]
        else [Lock (tcb_mutex a); ExitSet a status; Signal (waiting_threads a); Unlock (tcb_mutex a);
              ExitStack a; Vanish]).
Definition exit_set (a status : Z) : M ust (list op) :=
  t ← the_tcb a; put_tcb a (mk_tcb (tcb_id t) 1 (stack_base t) status) ;; mret [].
(** [tcb->stack_base] is NULL for every thread, so that nothing is freed. *)
Definition exit_stack (a : Z) : M ust (list op) := _ ← the_tcb a; mret [].

(** ** One step of a thread *)
Section run.
Variable code : Z → list op.

Definition thr_fork (a tid func : Z) : M ust (list op) :=
  (if decide (tid < 0) then mret tt
   else modify (λ s, set_todo (<[tid := code func]> (todo s)) s)) ;;
  add_tcb tid a ;;
  mret [].

Definition exec (t : Z) (o : op) : M ust (list op) :=
  match o with
  | Work => mret []
  | Lock m => mutex_lock m
  | Unlock m => mutex_unlock m
  | CondWait c m => cond_wait c m
  | NewNode => new_node t
  | Enqueue c => enqueue c t
  | Deschedule => deschedule t
  | Dequeue c => dequeue c t
  | Signal c => cond_signal c
  | SignalFirst c => signal_first c
  | Broadcast c => cond_broadcast c
  | BroadcastAll c => broadcast_all c
  | WakeAll ws => wake_all ws
  | MakeRunnable w => make_runnable w
  | SemWait x => sem_wait x
  | SemTest x => sem_test x
  | SemSignal x => sem_signal x
  | SemCount x => sem_count x
  | RwLock r k => rwlock_lock r k
  | WriterArrives r => writer_arrives r
  | WriterTest r => writer_test r
  | ReaderTest r => reader_test r
  | RwUnlock r k => rwlock_unlock r k
  | RwRelease r _ => rw_release r
  | RwDowngrade r => rwlock_downgrade r
  | DowngradeTest r => downgrade_test r
  | ThrCreate stack a tid func => thr_create stack a tid func
  | ThrFork a tid func => thr_fork a tid func
  | ThrJoin tid => thr_join tid
  | JoinFind tid => join_find tid
  | JoinTest a => join_test a
  | JoinRemove a => join_remove a
  | ThrExit v => thr_exit v
  | ExitFind v => exit_find t v
  | ExitSet a v => exit_set a v
  | ExitStack a => exit_stack a
  | Vanish => mret []
  | Return v => modify (λ s, set_rets (<[t := v]> (rets s)) s) ;; mret []
  end.

(** A thread that is not descheduled does its next operation. *)
Definition run_thread (t : Z) : M ust unit :=
  s ← get;
  if decide (t ∈ asleep s) then mret tt
  else
    match todo s !! t with
    | Some (o :: rest) =>
        modify (set_todo (<[t := rest]> (todo s))) ;;
        more ← exec t o;
        modify (λ s, set_todo (<[t := (match o with Vanish => [] | _ => more ++ rest end)]> (todo s)) s)
    | _ => mret tt
    end.

Inductive step (s s' : ust) : Prop :=
  | step_thread t : run_thread t s = Ok tt s' → step s s'.

Definition reachable : ust → ust → Prop := rtc step.

(** A schedule names the threads in the order they run. *)
Fixpoint play (sch : list Z) : M ust unit :=
  match sch with
  | [] => mret tt
  | t :: sch' => run_thread t ;; play sch'
  end.

Lemma play_reaches sch s s' : play sch s = Ok tt s' → reachable s s'.
Proof.
  revert s. induction sch as [|t sch IH]; intros s; cbn [play]; [intros [= <-]; apply rtc_refl|].
  intros ([] & s1 & H1 & H2)%bind_inv. eapply rtc_l; [by eapply step_thread|by apply IH].
Qed.
End run.

(** ** The threads in a given position *)
Section tally.
Context (P : list op → Prop) `{∀ ops, Decision (P ops)}.

Definition tally (m : gmap Z (list op)) : Z := map_fold (λ _ ops n, (if decide (P ops) then 1 else 0) + n) 0 m.

Lemma tally_set m t ops ops' :
  m !! t = Some ops →
  tally (<[t := ops']> m) = tally m - (if decide (P ops) then 1 else 0) + (if decide (P ops') then 1 else 0).
Proof.
  intros Hm. unfold tally. rewrite <- (insert_delete_id m t ops Hm) at 2. rewrite <- insert_delete_eq.
  rewrite !map_fold_insert_L by (lia || apply lookup_delete_eq). lia.
Qed.

Lemma tally_nonneg m : 0 ≤ tally m.
Proof.
  unfold tally. induction m as [|t ops m Hm IH] using map_ind; [by rewrite map_fold_empty|].
  rewrite map_fold_insert_L by (lia || done). case_decide; lia.
Qed.

Lemma tally_split m t ops : m !! t = Some ops → tally m = (if decide (P ops) then 1 else 0) + tally (delete t m).
Proof.
  intros Hm. unfold tally at 1. rewrite <- (insert_delete_id m t ops Hm) at 1.
  by rewrite map_fold_insert_L by (lia || apply lookup_delete_eq).
Qed.

Lemma tally_pos m t ops : m !! t = Some ops → P ops → 1 ≤ tally m.
Proof.
  intros Hm Hp. rewrite (tally_split _ _ _ Hm), decide_True by done. pose proof (tally_nonneg (delete t m)). lia.
Qed.

Lemma tally_two m t1 t2 ops1 ops2 :
  m !! t1 = Some ops1 → m !! t2 = Some ops2 → t1 ≠ t2 → P ops1 → P ops2 → 2 ≤ tally m.
Proof.
  intros H1 H2 Hne Hp1 Hp2. rewrite (tally_split _ _ _ H1), decide_True by done.
  assert (1 ≤ tally (delete t1 m)); [|lia]. apply (tally_pos _ t2 ops2); [|done]. by rewrite lookup_delete_ne.
Qed.
End tally.

(** Take a run that ended in [Ok] apart, operation by operation. *)
Ltac run_inv H :=
  unfold get, modify, deref, halt in H; unfold mbind, M_bind, mret, M_ret in H;
  repeat (case_match; simplify_eq/=); simplify_eq/=.

Lemma find_tcb_same l tid s a s' : find_tcb l tid s = Ok a s' → s' = s.
Proof.
  induction l as [|x l IH]; cbn [find_tcb]; [by intros [= _ <-]|].
  intros (t & s1 & H1 & H2)%bind_inv. assert (s1 = s) as -> by (clear H2; unfold the_tcb in H1; by run_inv H1).
  case_decide; [unfold mret, M_ret in H2; by simplify_eq|by apply IH].
Qed.

(** The thread [t] is taken to its next operation and its list is put back. *)
Lemma run_thread_inv code t s s' :
  run_thread code t s = Ok tt s' →
  s' = s ∨ ∃ o rest more s2, t ∉ asleep s ∧ todo s !! t = Some (o :: rest) ∧
    exec code t o (set_todo (<[t := rest]> (todo s)) s) = Ok more s2 ∧
    s' = set_todo (<[t := match o with Vanish => [] | _ => more ++ rest end]> (todo s2)) s2.
Proof.
  unfold run_thread. rewrite bind_get. case_decide; [intros [= <-]; by left|].
  destruct (todo s !! t) as [[|o rest]|] eqn:E; [intros [= <-]; by left| |intros [= <-]; by left].
  rewrite bind_modify. intros (more & s2 & H1 & H2)%bind_inv. right. exists o, rest, more, s2.
  split_and!; [done|done|done|]. by injection H2 as <-.
Qed.

(** A state in which the threads that are not descheduled have nothing to do. *)
Definition settled (s : ust) : Prop :=
  map_Forall (λ t ops, match ops with [] => True | _ => t ∈ asleep s end) (todo s).
#[export] Instance settled_dec s : Decision (settled s).
Proof. apply map_Forall_dec. intros t [|o ops]; apply _. Defined.

Lemma settled_forever code s : settled s → ∀ s', reachable code s s' → s' = s.
Proof.
  intros Hs s' Hr. remember s as s0 eqn:E. revert E. induction Hr as [x|x s1 s2 [t Ht] _ IH]; intros ->; [done|].
  assert (s1 = s) as ->; [|by apply IH].
  apply run_thread_inv in Ht as [->|(o & rest & more & s3 & Hn & Hops & _)]; [done|]. by apply Hs in Hops.
Qed.

(** The state after a schedule of threads that start no others. *)
Definition no_code : Z → list op := λ _, [].
Definition after (sch : list Z) (s : ust) : ust := match play no_code sch s with Ok _ s' => s' | Stop _ => s end.
