(* ===== verification/URwLock.v ===== *)
(** * Readers-writer locks of the user thread library (user/libthread/rwlock.c)

    What [rwlock_lock] and [rwlock_unlock] guarantee to threads that use a lock
    in brackets: a reader and a writer never hold it at the same time.  Two
    writers can, and the lock then stays closed to readers. *)

From S2P Require Import Prelude FrameAlloc UThread.

(** ** Where a thread stands with respect to a lock *)
Inductive stance_t : Type := Idle | Queued | Inside (kind : Z).
#[export] Instance stance_eq_dec : EqDecision stance_t.
Proof. solve_decision. Defined.

(** The stance just before an operation on lock [r], and the one after it. *)
Definition marker (r : Z) (o : op) : option (stance_t * stance_t) :=
  match o with
  | RwLock r' k => if decide (r' = r) then Some (Idle, Inside k) else None
  | WriterArrives r' => if decide (r' = r) then Some (Idle, Queued) else None
  | WriterTest r' => if decide (r' = r) then Some (Queued, Inside RWLOCK_WRITE) else None
  | ReaderTest r' => if decide (r' = r) then Some (Idle, Inside RWLOCK_READ) else None
  | RwUnlock r' k => if decide (r' = r) then Some (Inside k, Idle) else None
  | RwRelease r' k => if decide (r' = r) then Some (Inside k, Idle) else None
  | _ => None
  end.

Fixpoint stance (r : Z) (ops : list op) : stance_t :=
  match ops with
  | [] => Idle
  | o :: l => match marker r o with Some (b, _) => b | None => stance r l end
  end.

(** No downgrading of the lock, no new threads, and no exit inside the library. *)
Definition allowed (r : Z) (o : op) : bool :=
  match o with
  | RwLock r' k => bool_decide (r' ≠ r) || bool_decide (k = RWLOCK_READ ∨ k = RWLOCK_WRITE)
  | RwDowngrade r' | DowngradeTest r' => bool_decide (r' ≠ r)
  | RwUnlock r' k | RwRelease r' k => bool_decide (r' ≠ r) || bool_decide (k = RWLOCK_READ ∨ k = RWLOCK_WRITE)
  | ThrCreate _ _ _ _ | ThrFork _ _ _ | ThrExit _ | ExitFind _ | Vanish => false
  | _ => true
  end.

Fixpoint bracketed (r : Z) (ops : list op) : Prop :=
  match ops with
  | [] => True
  | o :: l => allowed r o = true ∧
              match marker r o with Some (_, a) => stance r l = a | None => True end ∧
              bracketed r l
  end.

(** The threads that stand at [x]. *)
Definition count (r : Z) (x : stance_t) (m : gmap Z (list op)) : Z := tally (λ ops, stance r ops = x) m.

Definition reading (s : ust) (t r : Z) : Prop := ∃ ops, todo s !! t = Some ops ∧ stance r ops = Inside RWLOCK_READ.
Definition writing (s : ust) (t r : Z) : Prop := ∃ ops, todo s !! t = Some ops ∧ stance r ops = Inside RWLOCK_WRITE.

Record rw_inv (r : Z) (s : ust) : Prop := {
  ri_bracketed : ∀ t ops, todo s !! t = Some ops → bracketed r ops;
  ri_lock : ∃ v, rws s !! r = Some v ∧
    curr_readers v = count r (Inside RWLOCK_READ) (todo s) ∧
    count r (Inside RWLOCK_WRITE) (todo s) + count r Queued (todo s) ≤ num_writers v ∧
    (0 < curr_readers v → rw_type v = RWLOCK_READ ∧ count r (Inside RWLOCK_WRITE) (todo s) = 0) ∧
    (curr_readers v = 0 → rw_type v ≠ RWLOCK_READ);
}.

(** ** Counting *)
Lemma count_set r x m t ops ops' :
  m !! t = Some ops →
  count r x (<[t := ops']> m) = count r x m
    - (if decide (stance r ops = x) then 1 else 0) + (if decide (stance r ops' = x) then 1 else 0).
Proof. apply tally_set. Qed.

Lemma count_nonneg r x m : 0 ≤ count r x m.
Proof. apply tally_nonneg. Qed.

Lemma count_pos r x m t ops : m !! t = Some ops → stance r ops = x → 1 ≤ count r x m.
Proof. apply (tally_pos (λ ops, stance r ops = x)). Qed.

Lemma stance_app r more rest :
  Forall (λ o, marker r o = None) more → stance r (more ++ rest) = stance r rest.
Proof. induction 1 as [|o l Ho _ IH]; [done|]. cbn. by rewrite Ho. Qed.

Lemma bracketed_app r more rest :
  Forall (λ o, marker r o = None ∧ allowed r o = true) more → bracketed r rest → bracketed r (more ++ rest).
Proof. induction 1 as [|o l [Ho Ha] _ IH]; [done|]. intros Hr. cbn. rewrite Ho. by split_and!; [| |apply IH]. Qed.

(** ** The operations that do not concern the lock *)

Lemma exec_other code r t o s more s' :
  exec code t o s = Ok more s' → marker r o = None → allowed r o = true →
  rws s' !! r = rws s !! r ∧ todo s' = todo s ∧ Forall (λ o, marker r o = None ∧ allowed r o = true) more.
Proof.
  intros Hrun Hm Ha. destruct o; cbn [exec] in Hrun; cbn in Ha; try done.
  all: unfold mutex_lock, mutex_unlock, test_and_unset, test_and_set, exchange, cond_wait, new_node, enqueue, deschedule,
    dequeue, cond_signal, signal_first, set_reject, cond_broadcast, broadcast_all, wake_all, make_runnable, sem_wait, sem_test,
    sem_signal, sem_count, rwlock_lock, writer_arrives, writer_test, reader_test, rwlock_unlock, rw_release, rwlock_downgrade,
    downgrade_test, thr_join, join_find, join_test, join_remove, remove_tcb, thr_exit, exit_find, exit_set, exit_stack,
    mutex_destroy, cond_destroy, the_cond, put_cond, the_rw, put_rw, the_sem, put_sem, the_tcb, put_tcb in Hrun.
  all: cbn in Hm; repeat case_decide; try done.
  all: run_inv Hrun.
  all: try match goal with H : find_tcb _ _ _ = Ok _ _ |- _ => apply find_tcb_same in H as -> end.
  all: try match goal with H : set_reject _ _ = Ok _ _ |- _ => unfold set_reject in H; run_inv H end.
  all: try match goal with H : mutex_destroy _ _ = Ok _ _ |- _ => unfold mutex_destroy in H; run_inv H end.
  all: split_and!; [by rewrite ?lookup_insert_ne by done|done|].
  all: repeat (apply Forall_cons; split); cbn; rewrite ?decide_False, ?bool_decide_true by done; try done; by apply Forall_nil.
Qed.

(** ** The invariant *)
Definition at_stance (r : Z) (ops : list op) (x : stance_t) : Z := if decide (stance r ops = x) then 1 else 0.

(** A step of a thread, seen from the lock: the value of the lock and the stance
    of the thread before and after. *)
Lemma rw_inv_step r s s' t ops ops' v v' :
  rw_inv r s → todo s !! t = Some ops → rws s !! r = Some v →
  todo s' = <[t := ops']> (todo s) → rws s' !! r = Some v' → bracketed r ops' →
  curr_readers v' - curr_readers v =
    at_stance r ops' (Inside RWLOCK_READ) - at_stance r ops (Inside RWLOCK_READ) →
  at_stance r ops' (Inside RWLOCK_WRITE) - at_stance r ops (Inside RWLOCK_WRITE) +
    (at_stance r ops' Queued - at_stance r ops Queued) ≤ num_writers v' - num_writers v →
  (0 < curr_readers v' → rw_type v' = RWLOCK_READ ∧ count r (Inside RWLOCK_WRITE) (todo s') = 0) →
  (curr_readers v' = 0 → rw_type v' ≠ RWLOCK_READ) →
  rw_inv r s'.
Proof.
  intros [Hbr (w & Hw & Hr & Hn & _ & _)] Hops Hv Htodo Hv' Hbr' Hdr Hdw H1 H2.
  rewrite Hv in Hw. injection Hw as <-. split.
  - intros u l. rewrite Htodo, lookup_insert_Some. intros [[_ <-]|[_ Hu]]; [done|by eapply Hbr].
  - exists v'. split_and!; [done| | |done|done]; rewrite Htodo, !(count_set _ _ _ _ ops) by done; unfold at_stance in *; lia.
Qed.

Lemma rw_inv_same r s s' t ops ops' :
  rw_inv r s → todo s !! t = Some ops → todo s' = <[t := ops']> (todo s) → rws s' !! r = rws s !! r →
  bracketed r ops' → stance r ops' = stance r ops → rw_inv r s'.
Proof.
  intros Hinv Hops Htodo Hrw Hbr Hst. pose proof Hinv as [_ (v & Hv & Hr & Hn & H1 & H2)].
  eapply (rw_inv_step r s s' t ops ops' v v); try done; unfold at_stance; rewrite ?Hrw, ?Hst; try done; try lia.
  intros H0. destruct (H1 H0) as [-> E]. split; [done|].
  rewrite Htodo, (count_set _ _ _ _ ops), Hst by done. lia.
Qed.

Lemma exec_lock_call code r k t s rest :
  r ≠ NULL → k = RWLOCK_READ ∨ k = RWLOCK_WRITE → stance r rest = Inside k → bracketed r rest →
  ∃ more, exec code t (RwLock r k) s = Ok more s ∧ bracketed r (more ++ rest) ∧ stance r (more ++ rest) = Idle.
Proof.
  intros Hr Hk Hst Hbr. cbn [exec]. unfold rwlock_lock. rewrite decide_False by naive_solver. eexists. split; [done|].
  case_decide as E; [subst k|destruct Hk as [->|?]; [|done]]; cbn; rewrite !decide_True by done; by split_and!.
Qed.

Lemma exec_unlock_call code r k t s rest :
  r ≠ NULL → k = RWLOCK_READ ∨ k = RWLOCK_WRITE → stance r rest = Idle → bracketed r rest →
  ∃ more, exec code t (RwUnlock r k) s = Ok more s ∧ bracketed r (more ++ rest) ∧ stance r (more ++ rest) = Inside k.
Proof.
  intros Hr Hk Hst Hbr. cbn [exec]. unfold rwlock_unlock. rewrite decide_False by done. eexists. split; [done|].
  cbn. rewrite !decide_True by done. rewrite (bool_decide_true (k = _ ∨ _)), orb_true_r by done. by split_and!.
Qed.

(** [wake]: what the release of the lock tells the waiting threads. *)
Lemma wake_ops_ok r rest :
  bracketed r rest → bracketed r ([Broadcast (rw_readers r); Signal (rw_writers r)] ++ rest) ∧
  stance r ([Broadcast (rw_readers r); Signal (rw_writers r)] ++ rest) = stance r rest.
Proof. intros Hb. by split_and!. Qed.

Section step.
Variable code : Z → list op.
Variable r : Z.
Hypothesis not_null : r ≠ NULL.
Implicit Types (s : ust) (t : Z).

(** The code between the lock and the unlock of the lock's mutex. *)
Ltac run_body Hv := unfold the_rw, put_rw, mbind, M_bind, get, deref, modify, mret, M_ret; cbn; rewrite Hv; cbn.

Ltac stances H1 H2 := unfold at_stance; cbn [app] in *; rewrite ?H1, ?H2; cbn; repeat (case_decide; try done); try lia; auto.

Lemma put_step t s o rest more v v' :
  rw_inv r s → todo s !! t = Some (o :: rest) → rws s !! r = Some v → bracketed r (more ++ rest) →
  curr_readers v' - curr_readers v =
    at_stance r (more ++ rest) (Inside RWLOCK_READ) - at_stance r (o :: rest) (Inside RWLOCK_READ) →
  at_stance r (more ++ rest) (Inside RWLOCK_WRITE) - at_stance r (o :: rest) (Inside RWLOCK_WRITE) +
    (at_stance r (more ++ rest) Queued - at_stance r (o :: rest) Queued) ≤ num_writers v' - num_writers v →
  (0 < curr_readers v' → rw_type v' = RWLOCK_READ ∧
     count r (Inside RWLOCK_WRITE) (todo s) + at_stance r (more ++ rest) (Inside RWLOCK_WRITE)
       - at_stance r (o :: rest) (Inside RWLOCK_WRITE) = 0) →
  (curr_readers v' = 0 → rw_type v' ≠ RWLOCK_READ) →
  rw_inv r (set_todo (<[t := more ++ rest]> (<[t := rest]> (todo s))) (set_rws (<[r := v']> (rws s)) s)).
Proof.
  intros Hinv Hops Hv Hbr Hdr Hdw H1 H2.
  eapply (rw_inv_step r s _ t (o :: rest) (more ++ rest) v v'); try done.
  - apply insert_insert_eq.
  - apply lookup_insert_eq.
  - intros H0. destruct (H1 H0) as [-> E]. split; [done|]. cbn [todo set_todo].
    rewrite insert_insert_eq, (count_set _ _ _ _ (o :: rest)) by done. unfold at_stance in E. lia.
Qed.

Lemma same_step t s o rest more :
  rw_inv r s → todo s !! t = Some (o :: rest) → bracketed r (more ++ rest) →
  stance r (more ++ rest) = stance r (o :: rest) →
  rw_inv r (set_todo (<[t := more ++ rest]> (<[t := rest]> (todo s))) (set_todo (<[t := rest]> (todo s)) s)).
Proof.
  intros Hinv Hops Hbr Hst. eapply (rw_inv_same r s _ t (o :: rest) (more ++ rest)); try done. apply insert_insert_eq.
Qed.

Lemma arrives_step t s rest more s2 v :
  rw_inv r s → todo s !! t = Some (WriterArrives r :: rest) → rws s !! r = Some v →
  stance r rest = Queued → bracketed r rest →
  exec code t (WriterArrives r) (set_todo (<[t := rest]> (todo s)) s) = Ok more s2 →
  rw_inv r (set_todo (<[t := more ++ rest]> (todo s2)) s2).
Proof.
  intros Hinv Hops Hv Hst Hb Hrun. pose proof Hinv as [_ (w & Hw & Hr & Hn & Hrd & Hz)]. rewrite Hv in Hw. injection Hw as <-.
  assert (stance r (WriterArrives r :: rest) = Idle) as Hsk by (cbn; by rewrite decide_True by done).
  cbn [exec] in Hrun. unfold writer_arrives in Hrun. revert Hrun. run_body Hv. intros [= <- <-].
  eapply (put_step t s (WriterArrives r) rest [] v); try done; stances Hsk Hst.
Qed.

Lemma writer_step t s rest more s2 v :
  rw_inv r s → todo s !! t = Some (WriterTest r :: rest) → rws s !! r = Some v →
  stance r rest = Inside RWLOCK_WRITE → bracketed r rest →
  exec code t (WriterTest r) (set_todo (<[t := rest]> (todo s)) s) = Ok more s2 →
  rw_inv r (set_todo (<[t := more ++ rest]> (todo s2)) s2).
Proof.
  intros Hinv Hops Hv Hst Hb Hrun. pose proof Hinv as [_ (w & Hw & Hr & Hn & Hrd & Hz)]. rewrite Hv in Hw. injection Hw as <-.
  assert (stance r (WriterTest r :: rest) = Queued) as Hsk by (cbn; by rewrite decide_True by done).
  cbn [exec] in Hrun. unfold writer_test in Hrun. revert Hrun. run_body Hv.
  pose proof (count_nonneg r (Inside RWLOCK_READ) (todo s)) as Hr0.
  case_decide as E; cbn; intros [= <- <-].
  - apply (same_step t s (WriterTest r) rest [CondWait (rw_writers r) (rw_mutex r); WriterTest r]); try done;
      cbn; rewrite !decide_True by done; by split_and!.
  - assert (curr_readers v = 0) as E0.
    { destruct (decide (0 < curr_readers v)) as [H0|]; [|lia]. destruct (Hrd H0) as [Ht _]. exfalso. apply E.
      rewrite Ht. split; [done|lia]. }
    eapply (put_step t s (WriterTest r) rest [] v); try done; stances Hsk Hst.
Qed.

Lemma reader_step t s rest more s2 v :
  rw_inv r s → todo s !! t = Some (ReaderTest r :: rest) → rws s !! r = Some v →
  stance r rest = Inside RWLOCK_READ → bracketed r rest →
  exec code t (ReaderTest r) (set_todo (<[t := rest]> (todo s)) s) = Ok more s2 →
  rw_inv r (set_todo (<[t := more ++ rest]> (todo s2)) s2).
Proof.
  intros Hinv Hops Hv Hst Hb Hrun. pose proof Hinv as [_ (w & Hw & Hr & Hn & Hrd & Hz)]. rewrite Hv in Hw. injection Hw as <-.
  assert (stance r (ReaderTest r :: rest) = Idle) as Hsk by (cbn; by rewrite decide_True by done).
  cbn [exec] in Hrun. unfold reader_test in Hrun. revert Hrun. run_body Hv.
  pose proof (count_nonneg r (Inside RWLOCK_READ) (todo s)). pose proof (count_nonneg r (Inside RWLOCK_WRITE) (todo s)).
  pose proof (count_nonneg r Queued (todo s)).
  case_decide as E; cbn; intros [= <- <-].
  - apply (same_step t s (ReaderTest r) rest [CondWait (rw_readers r) (rw_mutex r); ReaderTest r]); try done;
      cbn; rewrite !decide_True by done; by split_and!.
  - eapply (put_step t s (ReaderTest r) rest [] v); try done; stances Hsk Hst.

Qed.

Lemma release_step t s k rest more s2 v :
  rw_inv r s → todo s !! t = Some (RwRelease r k :: rest) → rws s !! r = Some v →
  k = RWLOCK_READ ∨ k = RWLOCK_WRITE → stance r rest = Idle → bracketed r rest →
  exec code t (RwRelease r k) (set_todo (<[t := rest]> (todo s)) s) = Ok more s2 →
  rw_inv r (set_todo (<[t := more ++ rest]> (todo s2)) s2).
Proof.
  intros Hinv Hops Hv Hk Hst Hb Hrun. pose proof Hinv as [_ (w & Hw & Hr & Hn & Hrd & Hz)]. rewrite Hv in Hw. injection Hw as <-.
  cbn [exec] in Hrun. unfold rw_release in Hrun. revert Hrun. run_body Hv.
  assert (stance r (RwRelease r k :: rest) = Inside k) as Hsk by (cbn; by rewrite decide_True by done).
  pose proof (count_nonneg r (Inside RWLOCK_READ) (todo s)). pose proof (count_nonneg r Queued (todo s)).
  destruct (wake_ops_ok r rest Hb) as [Hwb Hws]. pose proof (count_pos r _ _ _ _ Hops Hsk) as Hpos.
  destruct Hk as [-> | ->].
  - destruct (Hrd ltac:(lia)) as [Ht Hw0]. rewrite decide_False, decide_True by (by rewrite Ht).
    case_decide as E; cbn; intros [= <- <-].
    + eapply (put_step t s (RwRelease r RWLOCK_READ) rest [Broadcast (rw_readers r); Signal (rw_writers r)] v); try done;
        rewrite ?Hst in Hws; stances Hsk Hws.
    + eapply (put_step t s (RwRelease r RWLOCK_READ) rest [] v); try done;
        stances Hsk Hst.
  - assert (curr_readers v = 0) as E0.
    { destruct (decide (0 < curr_readers v)) as [Hp|]; [|lia]. destruct (Hrd Hp). lia. }
    case_decide as E; cbn; [intros [= <- <-]|rewrite decide_False by auto; intros [= <- <-]].
    + eapply (put_step t s (RwRelease r RWLOCK_WRITE) rest [Broadcast (rw_readers r); Signal (rw_writers r)] v); try done;
        rewrite ?Hst in Hws; stances Hsk Hws.
    + eapply (rw_inv_step r s _ t (RwRelease r RWLOCK_WRITE :: rest) rest v v); try done; [apply insert_insert_eq|..];
        stances Hsk Hst.
Qed.

Lemma allowed_kind k :
  bool_decide (r ≠ r) || bool_decide (k = RWLOCK_READ ∨ k = RWLOCK_WRITE) = true → k = RWLOCK_READ ∨ k = RWLOCK_WRITE.
Proof. by intros [Ha|Ha]%orb_true_iff; apply bool_decide_eq_true in Ha. Qed.

Lemma rw_inv_run t s s' : rw_inv r s → run_thread code t s = Ok tt s' → rw_inv r s'.
Proof.
  intros Hinv [->|(o & rest & more & s2 & _ & Hops & Hrun & ->)]%run_thread_inv; [done|].
  pose proof Hinv as [Hbr (v & Hv & _)]. pose proof (Hbr _ _ Hops) as (Hal & Hst & Hb).
  assert (match o with Vanish => [] | _ => more ++ rest end = more ++ rest) as -> by (by destruct o).
  destruct (marker r o) as [[b a]|] eqn:Hm; last first.
  { destruct (exec_other _ r _ _ _ _ _ Hrun Hm Hal) as (Hrw & Htodo & Hmore).
    eapply (rw_inv_same r s _ t (o :: rest) (more ++ rest)); try done; cbn.
    - rewrite Htodo. apply insert_insert_eq.
    - by apply bracketed_app.
    - rewrite Hm. apply stance_app. eapply Forall_impl; [done|]. by intros ? [??]. }
  destruct o; cbn in Hm; try done; case_decide; simplify_eq/=.
  - apply allowed_kind in Hal.
    destruct (exec_lock_call code r kind t (set_todo (<[t := rest]> (todo s)) s) rest) as (m & E & Hb' & Hs'); try done.
    cbn [exec] in E. rewrite E in Hrun. injection Hrun as <- <-. apply (same_step t s (RwLock r kind)); try done.
    rewrite Hs'. cbn. by rewrite decide_True.
  - by eapply arrives_step.
  - by eapply writer_step.
  - by eapply reader_step.
  - apply allowed_kind in Hal.
    destruct (exec_unlock_call code r kind t (set_todo (<[t := rest]> (todo s)) s) rest) as (m & E & Hb' & Hs'); try done.
    cbn [exec] in E. rewrite E in Hrun. injection Hrun as <- <-. apply (same_step t s (RwUnlock r kind)); try done.
    rewrite Hs'. cbn. by rewrite decide_True.
  - apply allowed_kind in Hal. by eapply release_step.
Qed.

Lemma rw_inv_reachable s s' : rw_inv r s → reachable code s s' → rw_inv r s'.
Proof. intros Hinv Hs. induction Hs as [|s s1 s2 [t Ht] _ IH]; [done|]. apply IH. by eapply rw_inv_run. Qed.

(** C24. A reader and a writer never hold a readers-writer lock at the same time:
    in every state that threads reach which lock and unlock it in brackets (and
    do anything else with the rest of the library but start and end threads),
    starting with the lock free and nobody in it. *)
Theorem readers_exclude_writers s0 s t1 t2 :
  rw_inv r s0 → reachable code s0 s → reading s t1 r → writing s t2 r → False.
Proof.
  intros Hinv Hs (ops1 & H1 & E1) (ops2 & H2 & E2).
  destruct (rw_inv_reachable _ _ Hinv Hs) as [_ (v & _ & Hr & _ & Hrd & _)].
  pose proof (count_pos r _ _ _ _ H1 E1). pose proof (count_pos r _ _ _ _ H2 E2).
  destruct Hrd as [_ Hw]; lia.
Qed.
End step.

(** ** A run with two writers *)
Definition writer : list op := [RwLock 100 RWLOCK_WRITE; Work; RwUnlock 100 RWLOCK_WRITE].
Definition reader : list op := [RwLock 100 RWLOCK_READ; Work; RwUnlock 100 RWLOCK_READ].

Definition fresh_lock (threads : gmap Z (list op)) : ust :=
  match rwlock_init 100 (mk_ust ∅ ∅ ∅ ∅ ∅ ∅ [] 0 ∅ ∅ threads) with
  | Ok _ s => s
  | Stop _ => mk_ust ∅ ∅ ∅ ∅ ∅ ∅ [] 0 ∅ ∅ threads
  end.

Definition demo_threads : gmap Z (list op) := {[1 := writer; 2 := writer; 3 := reader]}.

Lemma demo_lock_inv : rw_inv 100 (fresh_lock demo_threads).
Proof.
  split.
  - intros t ops Hops. change (demo_threads !! t = Some ops) in Hops. unfold demo_threads in Hops.
    rewrite !lookup_insert_Some, lookup_singleton_Some in Hops.
    destruct Hops as [[_ <-]|[_ [[_ <-]|[_ [_ <-]]]]]; vm_compute; tauto.
  - eexists. split; [vm_compute; reflexivity|]. split_and!; vm_compute; congruence.
Qed.

Definition two_writers : ust := after (replicate 5 1 ++ replicate 5 2) (fresh_lock demo_threads).
Definition both_left : ust := after (replicate 30 1 ++ replicate 30 2 ++ replicate 30 3) two_writers.

(** Two writers can hold a readers-writer lock at the same time: the second
    one only waits while there are readers.  When both have released it, the
    lock still counts a writer, and a reader that comes then sleeps for ever. *)
Theorem writers_do_not_exclude :
  reachable no_code (fresh_lock demo_threads) two_writers ∧
  writing two_writers 1 100 ∧ writing two_writers 2 100 ∧
  reachable no_code two_writers both_left ∧
  todo both_left !! 1 = Some [] ∧ todo both_left !! 2 = Some [] ∧
  rws both_left !! 100 = Some (mk_urwlock RWLOCK_FREE 1 0) ∧ 3 ∈ asleep both_left ∧
  ∀ s, reachable no_code both_left s → s = both_left.
Proof.
  split_and!.
  - apply (play_reaches _ (replicate 5 1 ++ replicate 5 2)). vm_compute. reflexivity.
  - eexists. split; vm_compute; reflexivity.
  - eexists. split; vm_compute; reflexivity.
  - apply (play_reaches _ (replicate 30 1 ++ replicate 30 2 ++ replicate 30 3)). vm_compute. reflexivity.
  - vm_compute. reflexivity.
  - vm_compute. reflexivity.
  - vm_compute. reflexivity.
  - apply (bool_decide_unpack _). vm_compute. exact I.
  - apply settled_forever, (bool_decide_unpack _). vm_compute. exact I.
Qed.

Lemma readers_exclude_writers_witness :
  reading (after (replicate 5 3) (fresh_lock demo_threads)) 3 100 ∧
  ¬ writing (after (replicate 5 3) (fresh_lock demo_threads)) 1 100.
Proof.
  assert (reachable no_code (fresh_lock demo_threads) (after (replicate 5 3) (fresh_lock demo_threads))) as Hs
    by (apply (play_reaches _ (replicate 5 3)); vm_compute; reflexivity).
  assert (reading (after (replicate 5 3) (fresh_lock demo_threads)) 3 100) as Hr
    by (eexists; split; vm_compute; reflexivity).
  split; [exact Hr|]. intros Hw.
  refine (readers_exclude_writers no_code 100 _ _ _ 3 1 demo_lock_inv Hs Hr Hw). discriminate.
Defined.
