(* ===== verification/UMutex.v ===== *)
(** * Mutual exclusion in the user thread library (user/libthread/)

    The spinning mutexes of mutex.c under everything the library builds on them:
    a mutex, including those inside condition variables, semaphores and
    readers-writer locks, is never held by two threads.  The accesses to a
    waiting queue, a semaphore's count and the fields of a readers-writer lock
    count as needing their mutex, so that they never interfere.  Two schedules
    show what the library does not guarantee: a signal that finds a thread
    already signalled is lost, and a joining thread can free the control block
    that the exiting thread still reads. *)

From S2P Require Import Prelude FrameAlloc UThread.

(** Whether a thread must hold [m] just before an operation, and whether it does
    just after it. *)
Fixpoint one_of (m : Z) (l : list Z) : bool :=
  match l with [] => false | a :: l' => if decide (a = m) then true else one_of m l' end.
Definition hold_at (m : Z) (locked unlocked : list Z) : option (bool * bool) :=
  if one_of m locked then Some (true, true) else if one_of m unlocked then Some (false, false) else None.

Definition rw_queues (r : Z) : list Z := [queue_mutex (rw_readers r); queue_mutex (rw_writers r)].

Definition needs (m : Z) (o : op) : option (bool * bool) :=
  match o with
  | Lock a => if decide (a = m) then Some (false, true) else None
  | Unlock a => if decide (a = m) then Some (true, false) else None
  | CondWait c a => hold_at m [a] [queue_mutex c]
  | Enqueue c | Dequeue c | SignalFirst c | BroadcastAll c => hold_at m [queue_mutex c] []
  | Signal c | Broadcast c => hold_at m [] [queue_mutex c]
  | SemWait x | SemSignal x => hold_at m [] [sem_mutex x; queue_mutex (sem_cond x)]
  | SemTest x | SemCount x => hold_at m [sem_mutex x] [queue_mutex (sem_cond x)]
  | RwLock r _ | RwUnlock r _ | RwDowngrade r => hold_at m [] (rw_mutex r :: rw_queues r)
  | WriterArrives r | WriterTest r | ReaderTest r | RwRelease r _ | DowngradeTest r => hold_at m [rw_mutex r] (rw_queues r)
  | _ => None
  end.

(** The next operation on the mutex tells whether the thread holds it. *)
Fixpoint holding (m : Z) (ops : list op) : bool :=
  match ops with
  | [] => false
  | o :: l => match needs m o with Some (b, _) => b | None => holding m l end
  end.

(** Not the thread calls, whose locks are in control blocks; and a condition
    variable is not waited on with its own queue mutex. *)
Definition plain (o : op) : bool :=
  match o with
  | ThrCreate _ _ _ _ | ThrFork _ _ _ | ThrJoin _ | JoinFind _ | JoinTest _ | JoinRemove _
  | ThrExit _ | ExitFind _ | ExitSet _ _ | ExitStack _ | Vanish => false
  | CondWait c a => bool_decide (queue_mutex c ≠ a)
  | _ => true
  end.

Fixpoint brackets (m : Z) (ops : list op) : Prop :=
  match ops with
  | [] => True
  | o :: l => plain o = true ∧ match needs m o with Some (_, a) => holding m l = a | None => True end ∧ brackets m l
  end.

Definition holds (s : ust) (t m : Z) : Prop := ∃ ops, todo s !! t = Some ops ∧ holding m ops = true.

Record mutex_inv (m : Z) (s : ust) : Prop := {
  mi_brackets : ∀ t ops, todo s !! t = Some ops → brackets m ops;
  mi_value : mutexes s !! m = Some (1 - tally (λ ops, holding m ops = true) (todo s));
  mi_one : tally (λ ops, holding m ops = true) (todo s) ≤ 1;
}.

(** ** The operations *)

(** What an operation can be replaced by. *)
Definition expands (o : op) (more : list op) : Prop :=
  more = [] ∨
  match o with
  | Lock a => more = [Lock a]
  | CondWait c a => more = cond_wait_ops c a
  | Signal c => more = [Lock (queue_mutex c); SignalFirst c; Unlock (queue_mutex c)]
  | SignalFirst _ => ∃ w, more = [MakeRunnable w]
  | Broadcast c => more = [Lock (queue_mutex c); BroadcastAll c; Unlock (queue_mutex c)]
  | BroadcastAll _ => ∃ ws, more = [WakeAll ws]
  | WakeAll _ => ∃ w ws, more = [MakeRunnable w; WakeAll ws]
  | SemWait x => more = [Lock (sem_mutex x); SemTest x; Unlock (sem_mutex x)]
  | SemTest x => more = [CondWait (sem_cond x) (sem_mutex x); SemTest x]
  | SemSignal x => more = [Lock (sem_mutex x); SemCount x; Unlock (sem_mutex x)]
  | SemCount x => more = [Signal (sem_cond x)]
  | RwLock r _ => more = [Lock (rw_mutex r); WriterArrives r; WriterTest r; Unlock (rw_mutex r)] ∨
                  more = [Lock (rw_mutex r); ReaderTest r; Unlock (rw_mutex r)]
  | WriterTest r => more = [CondWait (rw_writers r) (rw_mutex r); WriterTest r]
  | ReaderTest r => more = [CondWait (rw_readers r) (rw_mutex r); ReaderTest r]
  | RwUnlock r k => more = [Lock (rw_mutex r); RwRelease r k; Unlock (rw_mutex r)]
  | RwRelease r _ => more = [Broadcast (rw_readers r); Signal (rw_writers r)]
  | RwDowngrade r => more = [Lock (rw_mutex r); DowngradeTest r; Unlock (rw_mutex r)]
  | DowngradeTest r => more = [Broadcast (rw_readers r)]
  | _ => False
  end.

Lemma exec_expands code m t o s more s' :
  exec code t o s = Ok more s' → plain o = true → (∀ a, o = Lock a → a ≠ m) → (∀ a, o = Unlock a → a ≠ m) →
  mutexes s' !! m = mutexes s !! m ∧ todo s' = todo s ∧ expands o more.
Proof.
  intros Hrun Hp HL HU. destruct o; cbn [exec] in Hrun; try done; clear Hp.
  all: unfold mutex_lock, mutex_unlock, test_and_unset, test_and_set, exchange, cond_wait, new_node, enqueue, deschedule,
    dequeue, cond_signal, signal_first, set_reject, cond_broadcast, broadcast_all, wake_all, make_runnable, sem_wait, sem_test,
    sem_signal, sem_count, rwlock_lock, writer_arrives, writer_test, reader_test, rwlock_unlock, rw_release, rwlock_downgrade,
    downgrade_test, the_cond, put_cond, the_rw, put_rw, the_sem, put_sem in Hrun.
  all: run_inv Hrun.
  all: try match goal with H : set_reject _ _ = Ok _ _ |- _ => unfold set_reject in H; run_inv H end.
  all: split; [done || (rewrite lookup_insert_ne by first [exact (HL _ eq_refl)|exact (HU _ eq_refl)]; done)|split; [done|]].
  all: unfold expands; eauto 6.
Qed.

Ltac addresses := unfold queue_mutex, rw_mutex, rw_readers, rw_writers, sem_mutex, sem_cond in *.
Ltac fits := repeat (case_decide; cbn in * ); try (exfalso; addresses; lia); try done; rewrite ?bool_decide_true by (addresses; lia); by split_and!.

Lemma expands_fits m o more rest :
  expands o more → brackets m (o :: rest) → (∀ a, o = Lock a → a ≠ m) → (∀ a, o = Unlock a → a ≠ m) →
  brackets m (more ++ rest) ∧ holding m (more ++ rest) = holding m (o :: rest).
Proof.
  intros Hx (Hp & Hn & Hb) HL HU. destruct Hx as [->|Hx].
  - cbn [app]. split; [done|]. cbn [holding]. destruct (needs m o) as [[b a]|] eqn:E; [|done].
    rewrite Hn. destruct o; cbn in E; unfold hold_at in E; repeat case_match; simplify_eq; try done.
    + by destruct (HL m).
    + by destruct (HU m).
  - destruct o; try done; cbn in Hn, Hp.
    all: repeat match goal with H : ∃ _, _ |- _ => destruct H | H : _ ∨ _ |- _ => destruct H end; subst.
    all: try apply bool_decide_eq_true in Hp.
    all: unfold hold_at, cond_wait_ops, rw_queues in *; cbn in *; unfold hold_at, rw_queues in *; cbn in *; fits.
Qed.

(** ** The invariant *)
Section run.
Variable code : Z → list op.
Variable m : Z.
Implicit Types (s : ust) (t : Z).

Definition holders (td : gmap Z (list op)) : Z := tally (λ ops, holding m ops = true) td.

Lemma mutex_inv_set s s' t ops ops' :
  mutex_inv m s → todo s !! t = Some ops → todo s' = <[t := ops']> (todo s) → brackets m ops' →
  mutexes s' !! m = Some (1 - holders (todo s')) → holders (todo s') ≤ 1 → mutex_inv m s'.
Proof.
  intros [Hb _ _] Hops Htodo Hb' Hv Hone. split; [|done|done].
  intros u l. rewrite Htodo, lookup_insert_Some. intros [[_ <-]|[_ Hu]]; [done|by eapply Hb].
Qed.

Lemma holders_set s t ops ops' :
  todo s !! t = Some ops →
  holders (<[t := ops']> (todo s)) = holders (todo s) - (if holding m ops then 1 else 0) + (if holding m ops' then 1 else 0).
Proof.
  intros Hops. unfold holders. rewrite (tally_set _ _ _ _ _ Hops).
  destruct (holding m ops), (holding m ops'); repeat case_decide; try done.
Qed.

Lemma holders_nonneg td : 0 ≤ holders td.
Proof. apply tally_nonneg. Qed.

Ltac run_exchange Hv Hrun :=
  unfold mutex_lock, mutex_unlock, test_and_unset, test_and_set, exchange, mbind, M_bind, get, deref, modify, mret, M_ret in Hrun;
  cbn in Hrun; rewrite Hv in Hrun; cbn in Hrun; injection Hrun as <- <-.

Lemma user_lock_run t s rest more s2 :
  mutex_inv m s → todo s !! t = Some (Lock m :: rest) →
  mutex_lock m (set_todo (<[t := rest]> (todo s)) s) = Ok more s2 →
  mutex_inv m (set_todo (<[t := more ++ rest]> (todo s2)) s2).
Proof.
  intros Hinv Hops Hrun. pose proof Hinv as [Hb Hv Hone]. pose proof (Hb _ _ Hops) as (_ & Hn & Hrest).
  fold (holders (todo s)) in Hv, Hone. cbn in Hn. rewrite decide_True in Hn by done.
  assert (holding m (Lock m :: rest) = false) as Hh by (cbn; by rewrite decide_True).
  run_exchange Hv Hrun. pose proof (holders_nonneg (todo s)).
  assert (holders (<[t := (if decide (1 - holders (todo s) = 0) then [Lock m] else []) ++ rest]> (todo s)) = 1) as E.
  { rewrite (holders_set _ _ _ _ Hops), Hh. case_decide; cbn [app]; [rewrite Hh|rewrite Hn]; lia. }
  eapply (mutex_inv_set s _ t (Lock m :: rest) ((if decide (1 - holders (todo s) = 0) then [Lock m] else []) ++ rest)); try done; cbn [todo set_todo mutexes set_mutexes].
  - apply insert_insert_eq.
  - case_decide; cbn; [by rewrite decide_True|done].
  - by rewrite insert_insert_eq, lookup_insert_eq, E.
  - by rewrite insert_insert_eq, E.
Qed.

Lemma user_unlock_run t s rest more s2 :
  mutex_inv m s → todo s !! t = Some (Unlock m :: rest) →
  mutex_unlock m (set_todo (<[t := rest]> (todo s)) s) = Ok more s2 →
  mutex_inv m (set_todo (<[t := more ++ rest]> (todo s2)) s2).
Proof.
  intros Hinv Hops Hrun. pose proof Hinv as [Hb Hv Hone]. pose proof (Hb _ _ Hops) as (_ & Hn & Hrest).
  fold (holders (todo s)) in Hv, Hone. cbn in Hn. rewrite decide_True in Hn by done.
  assert (holding m (Unlock m :: rest) = true) as Hh by (cbn; by rewrite decide_True).
  pose proof (tally_pos (λ ops, holding m ops = true) _ _ _ Hops Hh) as Hpos. fold (holders (todo s)) in Hpos.
  run_exchange Hv Hrun.
  assert (holders (<[t := rest]> (todo s)) = 0) as E by (rewrite (holders_set _ _ _ _ Hops), Hh, Hn; lia).
  eapply (mutex_inv_set s _ t (Unlock m :: rest) rest); try done; cbn [todo set_todo mutexes set_mutexes app].
  - apply insert_insert_eq.
  - by rewrite insert_insert_eq, lookup_insert_eq, E.
  - by rewrite insert_insert_eq, E.
Qed.

Lemma mutex_inv_run t s s' : mutex_inv m s → run_thread code t s = Ok tt s' → mutex_inv m s'.
Proof.
  intros Hinv [->|(o & rest & more & s2 & _ & Hops & Hrun & ->)]%run_thread_inv; [done|].
  pose proof Hinv as [Hb Hv Hone]. pose proof (Hb _ _ Hops) as Hbr. pose proof Hbr as (Hp & Hn & Hrest).
  fold (holders (todo s)) in Hv, Hone.
  assert (match o with Vanish => [] | _ => more ++ rest end = more ++ rest) as -> by (by destruct o).
  destruct (decide (o = Lock m)) as [->|HL]; [by eapply user_lock_run|].
  destruct (decide (o = Unlock m)) as [->|HU]; [by eapply user_unlock_run|].
  assert (∀ a, o = Lock a → a ≠ m) as HL' by (intros a -> ->; done).
  assert (∀ a, o = Unlock a → a ≠ m) as HU' by (intros a -> ->; done).
  destruct (exec_expands code m t o _ more s2 Hrun Hp HL' HU') as (Hm2 & Ht2 & Hx).
  destruct (expands_fits m o more rest Hx Hbr HL' HU') as [Hb' Hh].
  assert (holders (<[t := more ++ rest]> (todo s)) = holders (todo s)) as E
    by (rewrite (holders_set _ _ _ _ Hops), Hh; lia).
  eapply (mutex_inv_set s _ t (o :: rest) (more ++ rest)); try done; cbn [todo set_todo mutexes]; rewrite Ht2; cbn [todo set_todo].
  - apply insert_insert_eq.
  - by rewrite Hm2, insert_insert_eq, E.
  - by rewrite insert_insert_eq, E.
Qed.

Lemma mutex_inv_reachable s s' : mutex_inv m s → reachable code s s' → mutex_inv m s'.
Proof. intros Hinv Hs. induction Hs as [|s s1 s2 [t Ht] _ IH]; [done|]. apply IH. by eapply mutex_inv_run. Qed.

(** C25. No two threads hold a mutex of the user library at the same time,
    whichever calls on mutexes, condition variables, semaphores and
    readers-writer locks they interleave, as long as they lock and unlock in
    brackets.  This covers the mutexes inside the library's structures: waiting
    queues, counts and lock fields are never touched by two threads at once. *)
Theorem user_mutual_exclusion s0 s t1 t2 :
  mutex_inv m s0 → reachable code s0 s → holds s t1 m → holds s t2 m → t1 = t2.
Proof.
  intros Hinv Hs (ops1 & H1 & E1) (ops2 & H2 & E2). destruct (decide (t1 = t2)) as [|Hne]; [done|exfalso].
  destruct (mutex_inv_reachable _ _ Hinv Hs) as [_ _ Hone].
  pose proof (tally_two (λ ops, holding m ops = true) _ _ _ _ _ H1 H2 Hne E1 E2). lia.
Qed.
End run.

(** ** A lost signal *)
Definition empty_state (threads : gmap Z (list op)) : ust := mk_ust ∅ ∅ ∅ ∅ ∅ ∅ [] 500 ∅ ∅ threads.
Definition start {A} (init : M ust A) (threads : gmap Z (list op)) : ust :=
  match init (empty_state threads) with Ok _ s => s | Stop _ => empty_state threads end.

Definition waiter : list op := [Lock 300; CondWait 200 300; Unlock 300].
Definition signaller : list op := [Lock 300; Signal 200; Signal 200; Unlock 300].
Definition demo_cond : ust := start (mutex_init 300 ;; cond_init 200) {[1 := waiter; 2 := waiter; 3 := signaller]}.
Definition two_asleep : ust := after (replicate 12 1 ++ replicate 12 2) demo_cond.
Definition signalled : ust := after (replicate 14 3 ++ replicate 12 1 ++ replicate 2 3) two_asleep.

(** [cond_signal] does not take the thread it wakes out of the queue: two
    signals sent while two threads wait both go to the first one, and the second
    one sleeps for ever although it was waiting before both signals. *)
Theorem second_signal_is_lost :
  reachable no_code demo_cond two_asleep ∧ asleep two_asleep = {[1; 2]} ∧
  conds two_asleep !! 200 = Some (mk_ucond UCOND_VAR_VALID [1; 2]) ∧ todo two_asleep !! 3 = Some signaller ∧
  reachable no_code two_asleep signalled ∧
  todo signalled !! 3 = Some [] ∧ todo signalled !! 1 = Some [] ∧ asleep signalled = {[2]} ∧
  ∀ s, reachable no_code signalled s → s = signalled.
Proof.
  split_and!.
  - apply (play_reaches _ (replicate 12 1 ++ replicate 12 2)). vm_compute. reflexivity.
  - vm_compute. reflexivity.
  - vm_compute. reflexivity.
  - vm_compute. reflexivity.
  - apply (play_reaches _ (replicate 14 3 ++ replicate 12 1 ++ replicate 2 3)). vm_compute. reflexivity.
  - vm_compute. reflexivity.
  - vm_compute. reflexivity.
  - vm_compute. reflexivity.
  - apply settled_forever, (bool_decide_unpack _). vm_compute. exact I.
Qed.

(** ** A thread that is joined while it exits *)
Definition demo_join : ust :=
  start (mutex_init 500 ;; init_tcb 400 NULL ;; add_tcb 2 400) {[1 := [ThrJoin 2]; 2 := [ThrExit 7]]}.
Definition joined : ust := after (replicate 11 2 ++ replicate 10 1) demo_join.

(** [thr_join] gets the status that the other thread passed to [thr_exit],
    but it frees that thread's control block as soon as the block's mutex is
    released: the exiting thread, which reads the block once more to free its
    stack, then reads freed memory. *)
Theorem join_frees_live_tcb :
  reachable no_code demo_join joined ∧ rets joined !! 1 = Some 7 ∧ todo joined !! 1 = Some [] ∧
  tcbs joined = ∅ ∧ todo joined !! 2 = Some [ExitStack 400; Vanish] ∧
  run_thread no_code 2 joined = Stop BadAccess.
Proof.
  split_and!; [apply (play_reaches _ (replicate 11 2 ++ replicate 10 1))|..]; vm_compute; reflexivity.
Qed.

Lemma demo_cond_inv : mutex_inv 300 demo_cond.
Proof.
  split; [|vm_compute; reflexivity|vm_compute; discriminate].
  intros t ops Hops. assert (({[1 := waiter; 2 := waiter; 3 := signaller]} : gmap Z (list op)) !! t = Some ops) as H' by exact Hops.
  rewrite !lookup_insert_Some, lookup_singleton_Some in H'.
  destruct H' as [[_ <-]|[_ [[_ <-]|[_ [_ <-]]]]]; vm_compute; tauto.
Qed.

Lemma user_mutual_exclusion_witness : holds (after [1] demo_cond) 1 300 ∧ ¬ holds (after [1] demo_cond) 2 300.
Proof.
  assert (reachable no_code demo_cond (after [1] demo_cond)) as Hs
    by (apply (play_reaches _ [1]); vm_compute; reflexivity).
  assert (holds (after [1] demo_cond) 1 300) as H1 by (eexists; split; vm_compute; reflexivity).
  split; [exact H1|]. intros H2.
  discriminate (user_mutual_exclusion no_code 300 _ _ 1 2 demo_cond_inv Hs H1 H2).
Defined.
