(* ===== verification/Lmm.v ===== *)
(** * The list memory manager (410kern/lmm/): operations

    [malloc_lmm] keeps a list of regions and, for every region, a list of free
    blocks in address order.  A free block holds its own list node: the word at
    its first byte is [next], the word after it [size].  The model keeps the
    memory byte by byte, so that nodes are read from and written to the memory
    the allocator hands out, and the region structs as records in the order of
    the list [lmm->regions].  [assert] of 410kern/inc/assert.h panics.

    A loop over nodes is bounded by the number of bytes of memory that have
    been written: the invariant of LmmInv.v shows that a free list never has
    that many nodes.  [lmm_remove_free] takes at most one step for each node of
    each region. *)

From S2P Require Import Prelude CString.

(** ** lmm_types.h *)
Record lmm_region : Type := mk_region {
  r_id : Z;
  r_nodes : Z;
  r_min : Z;
  r_max : Z;
  r_flags : Z;
  r_pri : Z;
  r_free : Z;
}.

Definition ALIGN_SIZE : Z := 8.
Definition ALIGN_MASK : Z := ALIGN_SIZE - 1.

(** The allocator and the memory it manages. *)
Record lmm : Type := mk_lmm { mem : gmap Z Z; regions : list lmm_region }.

Definition set_nodes (v : Z) (r : lmm_region) : lmm_region :=
  mk_region (r_id r) v (r_min r) (r_max r) (r_flags r) (r_pri r) (r_free r).
Definition set_free (v : Z) (r : lmm_region) : lmm_region :=
  mk_region (r_id r) (r_nodes r) (r_min r) (r_max r) (r_flags r) (r_pri r) v.

(** [x & ~ALIGN_MASK] and [(x + ALIGN_MASK) & ~ALIGN_MASK]. *)
Definition align_down (x : Z) : Z := Z.land x (W32 - 1 - ALIGN_MASK).
Definition align_up (x : Z) : Z := align_down (u32 (x + ALIGN_MASK)).

(** ** Words of memory *)
Definition ldw (m : gmap Z Z) (a : Z) : option Z :=
  b0 ← m !! a; b1 ← m !! (a + 1); b2 ← m !! (a + 2); b3 ← m !! (a + 3);
  Some (le [b0; b1; b2; b3]).

Definition stw (m : gmap Z Z) (a v : Z) : gmap Z Z :=
  <[a := v mod 256]> (<[a + 1 := v / 256 mod 256]>
    (<[a + 2 := v / 65536 mod 256]> (<[a + 3 := v / 16777216 mod 256]> m))).

Definition load (a : Z) : M lmm Z := s ← get; deref (ldw (mem s) a).
Definition store (a v : Z) : M lmm unit := modify (λ s, mk_lmm (stw (mem s) a v) (regions s)).

(** The fields of the node at [a]. *)
Definition node_next (a : Z) : M lmm Z := load a.
Definition node_size (a : Z) : M lmm Z := load (u32 (a + 4)).
Definition set_node_next (a v : Z) : M lmm unit := store a v.
Definition set_node_size (a v : Z) : M lmm unit := store (u32 (a + 4)) v.

Definition region (i : nat) : M lmm lmm_region := s ← get; deref (regions s !! i).
Definition upd_region (i : nat) (f : lmm_region → lmm_region) : M lmm unit :=
  modify (λ s, mk_lmm (mem s) (alter f i (regions s))).

(** [*nodep], where [nodep] is [&reg->nodes] or the [next] of a node. *)
Definition get_ptr (i : nat) (nodep : option Z) : M lmm Z :=
  match nodep with None => r ← region i; mret (r_nodes r) | Some p => node_next p end.
Definition put_ptr (i : nat) (nodep : option Z) (v : Z) : M lmm unit :=
  match nodep with None => upd_region i (set_nodes v) | Some p => set_node_next p v end.

Definition fuel : M lmm nat := gets (λ s, S (size (mem s))).

(** ** lmm_init.c, lmm_add_region.c *)
Definition lmm_init : M lmm unit := modify (λ s, mk_lmm (mem s) []).

(** The place of [reg] in the list, with the checks against the regions that
    come before it. *)
Fixpoint insert_region (reg : lmm_region) (rs : list lmm_region) : M lmm (list lmm_region) :=
  match rs with
  | r :: rs' =>
      if decide (r_pri r > r_pri reg ∨
                 (r_pri r = r_pri reg ∧ u32 (r_max r - r_min r) > u32 (r_max reg - r_min reg)))
      then
        kernel_assert (bool_decide (r_id r ≠ r_id reg)) ;;
        kernel_assert (bool_decide (r_max reg ≤ r_min r ∨ r_max r ≤ r_min reg)) ;;
        rs'' ← insert_region reg rs';
        mret (r :: rs'')
      else mret (reg :: rs)
  | [] => mret [reg]
  end.

(** [flags] and [pri] are unsigned, so that a negative priority is a large one. *)
Definition lmm_add_region (reg addr size flags pri : Z) : M lmm unit :=
  let min := align_up addr in
  let max := align_down (u32 (addr + size)) in
  if decide (max ≤ min) then mret tt
  else
    s ← get;
    rs ← insert_region (mk_region reg 0 min max (u32 flags) (u32 pri) 0) (regions s);
    modify (λ s, mk_lmm (mem s) rs).

(** ** lmm_free.c *)
Definition nodes_check (r : lmm_region) : bool :=
  bool_decide ((r_nodes r = 0 ∧ r_free r = 0) ∨ r_min r ≤ r_nodes r).

(** The region that holds [node]. *)
Fixpoint find_region (node : Z) (rs : list lmm_region) : M lmm nat :=
  match rs with
  | [] => halt KernelPanic
  | r :: rs' =>
      kernel_assert (nodes_check r) ;;
      if decide (r_min r ≤ node ∧ node < r_max r) then mret O
      else i ← find_region node rs'; mret (S i)
  end.

Fixpoint find_place (n : nat) (node prevnode nextnode : Z) : M lmm (Z * Z) :=
  match n with
  | O => halt OutOfFuel
  | S n' =>
      if decide (nextnode ≠ 0 ∧ nextnode < node) then
        nn ← node_next nextnode;
        find_place n' node nextnode nn
      else mret (prevnode, nextnode)
  end.

(** Join the new free chunk with the node before it, which ends where the
    chunk starts. *)
Definition grow_prev (prevnode node size nextnode : Z) : M lmm unit :=
  psize ← node_size prevnode;
  kernel_assert (bool_decide (u32 (prevnode + psize) = node)) ;;
  if decide (nextnode ≠ 0 ∧ nextnode ≤ u32 (node + size)) then
    kernel_assert (bool_decide (u32 (node + size) = nextnode)) ;;
    nsize ← node_size nextnode;
    set_node_size prevnode (u32 (psize + u32 (size + nsize))) ;;
    nn ← node_next nextnode;
    set_node_next prevnode nn
  else set_node_size prevnode (u32 (psize + size)).

(** Insert the new free chunk as a node, joined with the next one if it ends
    where that one starts. *)
Definition insert_node (i : nat) (prevnode node size nextnode : Z) : M lmm unit :=
  put_ptr i (if decide (prevnode = 0) then None else Some prevnode) node ;;
  if decide (nextnode ≠ 0 ∧ nextnode ≤ u32 (node + size)) then
    nsize ← node_size nextnode;
    set_node_size node (u32 (size + nsize)) ;;
    nn ← node_next nextnode;
    set_node_next node nn
  else
    set_node_size node size ;;
    set_node_next node nextnode.

Definition lmm_free (block size : Z) : M lmm unit :=
  let node := align_down block in
  kernel_assert (bool_decide (block ≠ 0)) ;;
  kernel_assert (bool_decide (size > 0)) ;;
  let size := align_up (Z.land block ALIGN_MASK + size) in
  s ← get;
  i ← find_region node (regions s);
  upd_region i (λ r, set_free (u32 (r_free r + size)) r) ;;
  r ← region i;
  kernel_assert (bool_decide (r_free r ≤ u32 (r_max r - r_min r))) ;;
  n ← fuel;
  '(prevnode, nextnode) ← find_place n node 0 (r_nodes r);
  joins ← (if decide (prevnode = 0) then mret false
           else psize ← node_size prevnode; mret (bool_decide (node ≤ u32 (prevnode + psize))));
  if joins : bool then grow_prev prevnode node size nextnode
  else insert_node i prevnode node size nextnode.

(** ** lmm_add_free.c *)
Definition add_free_region (min max : Z) (reg : lmm_region) : M lmm unit :=
  kernel_assert (bool_decide (r_min reg < r_max reg)) ;;
  kernel_assert (bool_decide (Z.land (r_min reg) ALIGN_MASK = 0)) ;;
  kernel_assert (bool_decide (Z.land (r_max reg) ALIGN_MASK = 0)) ;;
  if decide (r_min reg < max ∧ min < r_max reg) then
    let new_min := if decide (min < r_min reg) then r_min reg else min in
    let new_max := if decide (r_max reg < max) then r_max reg else max in
    kernel_assert (bool_decide (new_min < new_max)) ;;
    lmm_free new_min (u32 (new_max - new_min))
  else mret tt.

(** The loop over the regions, [n] of them left. *)
Fixpoint add_free_loop (n : nat) (i : nat) (min max : Z) : M lmm unit :=
  match n with
  | O => mret tt
  | S n' => reg ← region i; add_free_region min max reg ;; add_free_loop n' (S i) min max
  end.

Definition lmm_add_free (block size : Z) : M lmm unit :=
  let min := align_up block in
  let max := align_down (u32 (block + size)) in
  kernel_assert (bool_decide (min ≤ max)) ;;
  if decide (max = min) then mret tt
  else s ← get; add_free_loop (length (regions s)) 0 min max.

(** ** lmm_alloc.c *)
Definition region_check (r : lmm_region) : bool :=
  nodes_check r && bool_decide (r_free r ≤ u32 (r_max r - r_min r)).

(** The checks on a node of [reg], in both allocation functions. *)
Definition node_check (reg : lmm_region) (node size next : Z) : bool :=
  bool_decide (Z.land node ALIGN_MASK = 0) && bool_decide (Z.land size ALIGN_MASK = 0) &&
  bool_decide (next = 0 ∨ node < next) && bool_decide (node < r_max reg).

(** Take [size] bytes from the start of the node at [node], to which [nodep]
    points, and from the count of free bytes. *)
Definition take_head (i : nat) (nodep : option Z) (node size : Z) : M lmm unit :=
  nsize ← node_size node;
  (if decide (size < nsize) then
     let newnode := u32 (node + size) in
     nn ← node_next node;
     set_node_next newnode nn ;;
     set_node_size newnode (u32 (nsize - size)) ;;
     put_ptr i nodep newnode
   else
     nn ← node_next node;
     put_ptr i nodep nn) ;;
  r ← region i;
  kernel_assert (bool_decide (size ≤ r_free r)) ;;
  upd_region i (set_free (u32 (r_free r - size))).

Fixpoint alloc_nodes (n : nat) (i : nat) (reg : lmm_region) (size : Z) (nodep : option Z) :
    M lmm (option Z) :=
  match n with
  | O => halt OutOfFuel
  | S n' =>
      node ← get_ptr i nodep;
      if decide (node = 0) then mret None
      else
        nsize ← node_size node;
        next ← node_next node;
        kernel_assert (node_check reg node nsize next) ;;
        if decide (size ≤ nsize) then
          take_head i nodep node size ;;
          mret (Some node)
        else alloc_nodes n' i reg size (Some node)
  end.

(** The region lacks one of [flags]. *)
Definition lacks (flags : Z) (reg : lmm_region) : bool :=
  bool_decide (Z.land flags (W32 - 1 - r_flags reg) ≠ 0).

Fixpoint alloc_regions (k : nat) (i : nat) (size flags : Z) : M lmm Z :=
  match k with
  | O => mret 0
  | S k' =>
      reg ← region i;
      kernel_assert (region_check reg) ;;
      if lacks flags reg then alloc_regions k' (S i) size flags
      else
        n ← fuel;
        r ← alloc_nodes n i reg size None;
        match r with
        | Some node => mret node
        | None => alloc_regions k' (S i) size flags
        end
  end.

Definition lmm_alloc (size flags : Z) : M lmm Z :=
  kernel_assert (bool_decide (size > 0)) ;;
  s ← get;
  alloc_regions (length (regions s)) 0 (align_up size) flags.

(** ** lmm_alloc_gen.c *)

(** Raise [addr] until its [align_bits] low bits are those of [align_ofs]. *)
Fixpoint align_loop (n : nat) (i : Z) (addr align_ofs : Z) : Z :=
  match n with
  | O => addr
  | S n' =>
      let bit := u32 (Z.shiftl 1 i) in
      align_loop n' (i + 1)
        (if decide (Z.land (Z.lxor addr align_ofs) bit ≠ 0) then u32 (addr + bit) else addr)
        align_ofs
  end.

(** Where the chunk would start in the node at [node]. *)
Definition chunk_addr (node in_min align_bits align_ofs : Z) : Z :=
  align_loop (Z.to_nat align_bits) 0 (if decide (node < in_min) then in_min else node) align_ofs.

(** Allocate [size] bytes at [addr] from the node at [node]. *)
Definition carve_chunk (i : nat) (nodep : option Z) (node addr size : Z) : M lmm unit :=
  let anode := align_down addr in
  kernel_assert (bool_decide (node ≤ anode)) ;;
  nodep ← (if decide (node < anode) then
             let split_size := u32 (anode - node) in
             kernel_assert (bool_decide (Z.land split_size ALIGN_MASK = 0)) ;;
             nn ← node_next node;
             set_node_next anode nn ;;
             nsize ← node_size node;
             set_node_size anode (u32 (nsize - split_size)) ;;
             set_node_size node split_size ;;
             mret (Some node)
           else mret nodep);
  take_head i nodep anode (align_up (Z.land addr ALIGN_MASK + size)).

Fixpoint gen_nodes (n : nat) (i : nat) (reg : lmm_region) (size align_bits align_ofs in_min in_max : Z)
    (nodep : option Z) : M lmm (option Z) :=
  match n with
  | O => halt OutOfFuel
  | S n' =>
      node ← get_ptr i nodep;
      if decide (node = 0) then mret None
      else
        nsize ← node_size node;
        next ← node_next node;
        kernel_assert (node_check reg node nsize next) ;;
        let continue := gen_nodes n' i reg size align_bits align_ofs in_min in_max (Some node) in
        if decide (nsize < size) then continue
        else
          let addr := chunk_addr node in_min align_bits align_ofs in
          if decide (nsize < u32 (u32 (addr - node) + size)) then continue
          else if decide (in_max < u32 (addr + size)) then mret None
          else
            carve_chunk i nodep node addr size ;;
            mret (Some addr)
  end.

Fixpoint gen_regions (k : nat) (i : nat) (size flags align_bits align_ofs in_min in_max : Z) : M lmm Z :=
  match k with
  | O => mret 0
  | S k' =>
      reg ← region i;
      kernel_assert (region_check reg) ;;
      let continue := gen_regions k' (S i) size flags align_bits align_ofs in_min in_max in
      if lacks flags reg || bool_decide (in_max ≤ r_min reg) || bool_decide (r_max reg ≤ in_min)
      then continue
      else
        n ← fuel;
        r ← gen_nodes n i reg size align_bits align_ofs in_min in_max None;
        match r with
        | Some addr => mret addr
        | None => continue
        end
  end.

Definition lmm_alloc_gen (size flags align_bits align_ofs in_min in_size : Z) : M lmm Z :=
  let in_max := u32 (in_min + in_size) in
  kernel_assert (bool_decide (size > 0)) ;;
  s ← get;
  gen_regions (length (regions s)) 0 size flags align_bits align_ofs in_min in_max.

(** lmm_alloc_aligned.c, lmm_alloc_page.c and lmm_free_page.c *)
Definition lmm_alloc_aligned (size flags align_bits align_ofs : Z) : M lmm Z :=
  lmm_alloc_gen size flags align_bits align_ofs 0 (u32 (-1)).

Definition lmm_alloc_page (flags : Z) : M lmm Z := lmm_alloc_gen 4096 flags 12 0 0 (u32 (-1)).

Definition lmm_free_page (page : Z) : M lmm unit := lmm_free page 4096.

(** ** lmm_find_free.c

    [lowest] is the address, size and flags found so far. *)
Fixpoint find_nodes (n : nat) (reg : lmm_region) (start_addr node : Z) (lowest : Z * Z * Z) :
    M lmm (Z * Z * Z) :=
  match n with
  | O => halt OutOfFuel
  | S n' =>
      if decide (node = 0) then mret lowest
      else
        kernel_assert (bool_decide (r_min reg ≤ node)) ;;
        kernel_assert (bool_decide (node < r_max reg)) ;;
        if decide (lowest.1.1 ≤ node) then mret lowest
        else
          nsize ← node_size node;
          if decide (start_addr < u32 (node + nsize)) then
            mret (if decide (start_addr < node) then (node, nsize, r_flags reg)
                  else (start_addr, u32 (nsize - u32 (start_addr - node)), r_flags reg))
          else
            next ← node_next node;
            find_nodes n' reg start_addr next lowest
  end.

Fixpoint find_regions (k : nat) (i : nat) (start_addr : Z) (lowest : Z * Z * Z) : M lmm (Z * Z * Z) :=
  match k with
  | O => mret lowest
  | S k' =>
      reg ← region i;
      if decide (r_nodes reg = 0 ∨ r_max reg ≤ start_addr ∨ lowest.1.1 < r_min reg)
      then find_regions k' (S i) start_addr lowest
      else
        n ← fuel;
        lowest ← find_nodes n reg start_addr (r_nodes reg) lowest;
        find_regions k' (S i) start_addr lowest
  end.

Definition lmm_find_free (addr : Z) : M lmm (Z * Z * Z) :=
  s ← get;
  find_regions (length (regions s)) 0 (align_up addr) (u32 (-1), 0, 0).

(** ** lmm_remove_free.c *)
Fixpoint remove_loop (n : nat) (block rstart rend : Z) : M lmm unit :=
  match n with
  | O => halt OutOfFuel
  | S n' =>
      if decide (rstart < rend) then
        '(rstart, size, flags) ← lmm_find_free rstart;
        kernel_assert (bool_decide (block ≤ rstart)) ;;
        if decide (size = 0 ∨ rend ≤ rstart) then mret tt
        else
          let size := if decide (rend < u32 (rstart + size)) then u32 (rend - rstart) else size in
          ptr ← lmm_alloc_gen size flags 0 0 rstart size;
          kernel_assert (bool_decide (ptr = rstart)) ;;
          remove_loop n' block rstart rend
      else mret tt
  end.

Definition lmm_remove_free (block block_size : Z) : M lmm unit :=
  let rend := u32 (block + block_size) in
  kernel_assert (bool_decide (rend > block)) ;;
  s ← get;
  remove_loop (S (length (regions s) * size (mem s))) block block rend.

(** ** lmm_avail.c *)
Fixpoint avail_loop (rs : list lmm_region) (flags count : Z) : M lmm Z :=
  match rs with
  | [] => mret count
  | reg :: rs' =>
      kernel_assert (bool_decide (r_min reg ≤ r_nodes reg)) ;;
      kernel_assert (bool_decide (r_nodes reg < r_max reg)) ;;
      kernel_assert (bool_decide (r_free reg ≤ u32 (r_max reg - r_min reg))) ;;
      avail_loop rs' flags (if lacks flags reg then count else u32 (count + r_free reg))
  end.

Definition lmm_avail (flags : Z) : M lmm Z := s ← get; avail_loop (regions s) flags 0.

(** ** lmm_dump.c, the checks without the printed lines *)
Fixpoint dump_nodes (n : nat) (reg : lmm_region) (node free_check : Z) : M lmm Z :=
  match n with
  | O => halt OutOfFuel
  | S n' =>
      if decide (node = 0) then mret free_check
      else
        nsize ← node_size node;
        next ← node_next node;
        kernel_assert (bool_decide (Z.land node ALIGN_MASK = 0)) ;;
        kernel_assert (bool_decide (Z.land nsize ALIGN_MASK = 0)) ;;
        kernel_assert (bool_decide (8 ≤ nsize)) ;;
        kernel_assert (bool_decide (next = 0 ∨ node < next)) ;;
        kernel_assert (bool_decide (node < r_max reg)) ;;
        dump_nodes n' reg next (u32 (free_check + nsize))
  end.

Fixpoint dump_regions (rs : list lmm_region) : M lmm unit :=
  match rs with
  | [] => mret tt
  | reg :: rs' =>
      kernel_assert (bool_decide (r_nodes reg = 0 ∨ r_min reg ≤ r_nodes reg)) ;;
      kernel_assert (bool_decide (r_nodes reg = 0 ∨ r_nodes reg < r_max reg)) ;;
      kernel_assert (bool_decide (r_free reg ≤ u32 (r_max reg - r_min reg))) ;;
      n ← fuel;
      free_check ← dump_nodes n reg (r_nodes reg) 0;
      kernel_assert (bool_decide (r_free reg = free_check)) ;;
      dump_regions rs'
  end.

Definition lmm_dump : M lmm unit := s ← get; dump_regions (regions s).
