(* ===== verification/LmmInv.v ===== *)
(** * The list memory manager: representation and invariant

    The free list of a region is a list of blocks, an address and a size each.
    [nodes m ns q] says that the nodes of [ns] are in the memory [m], the last
    one pointing to [q]; [blocks_ok lo hi ns] that the blocks are aligned, lie in
    [lo, hi) in address order and do not touch.  [lmm_ok s nss] is the invariant
    of the allocator: [nss] are the free lists of its regions. *)

From S2P Require Import Prelude CString Lmm.

(** ** Alignment *)
Lemma land_7 x : Z.land x ALIGN_MASK = x mod 8.
Proof. change ALIGN_MASK with (Z.ones 3). by rewrite Z.land_ones. Qed.

Lemma align_down_eq x : word x → align_down x = x - x mod 8.
Proof.
  intros Hx. unfold align_down. change (W32 - 1 - ALIGN_MASK) with (Z.shiftl (Z.ones 29) 3).
  replace (x - x mod 8) with (Z.shiftl (Z.shiftr x 3) 3).
  2:{ rewrite Z.shiftl_mul_pow2, Z.shiftr_div_pow2 by lia. change (2 ^ 3) with 8. dlia. }
  apply Z.bits_inj'. intros i Hi. rewrite Z.land_spec, !Z.shiftl_spec by lia.
  destruct (decide (i < 3)).
  { rewrite !(Z.testbit_neg_r _ (i - 3)) by lia. by rewrite andb_false_r. }
  rewrite Z.shiftr_spec, Z.testbit_ones_nonneg by lia. replace (i - 3 + 3) with i by lia.
  destruct (decide (32 ≤ i)); [by rewrite testbit_word_high|].
  rewrite (proj2 (Z.ltb_lt (i - 3) 29)) by lia. by rewrite andb_true_r.
Qed.

(** [x] rounded up to a multiple of 8. *)
Definition up8 (x : Z) : Z := (x + 7) / 8 * 8.

Lemma align_up_eq x : 0 ≤ x ≤ W32 - 8 → align_up x = up8 x.
Proof.
  intros Hx. unfold align_up, up8. change ALIGN_MASK with 7.
  rewrite u32_small, align_down_eq by (unfold word; lia). dlia.
Qed.

Lemma up8_spec x : up8 x mod 8 = 0 ∧ x ≤ up8 x < x + 8.
Proof. unfold up8. dlia. Qed.

Lemma up8_id x : x mod 8 = 0 → up8 x = x.
Proof. unfold up8. intros. dlia. Qed.

(** ** Words of memory *)
Lemma stw_other m a v x : x < a ∨ a + 4 ≤ x → stw m a v !! x = m !! x.
Proof. intros Hx. unfold stw. by rewrite !lookup_insert_ne by lia. Qed.

Lemma ldw_agree m m' a : (∀ x, a ≤ x < a + 4 → m' !! x = m !! x) → ldw m' a = ldw m a.
Proof. intros Hm. unfold ldw. by rewrite !Hm by lia. Qed.

Lemma ldw_stw m a v : word v → ldw (stw m a v) a = Some v.
Proof.
  intros Hv. unfold ldw, stw.
  rewrite lookup_insert_eq, !(lookup_insert_ne _ a), lookup_insert_eq by lia.
  rewrite !(lookup_insert_ne _ (a + 1)), lookup_insert_eq, (lookup_insert_ne _ (a + 2)) by lia.
  rewrite lookup_insert_eq. cbn [mbind option_bind]. f_equal. by apply (le_le4 v).
Qed.

Lemma ldw_stw_ne m a v b : a + 4 ≤ b ∨ b + 4 ≤ a → ldw (stw m a v) b = ldw m b.
Proof. intros Hb. apply ldw_agree. intros x Hx. apply stw_other. lia. Qed.

Lemma ldw_dom m a v : ldw m a = Some v → a ∈ dom m.
Proof. unfold ldw. intros H. apply elem_of_dom. destruct (m !! a); [by eexists|done]. Qed.

(** ** Free lists *)
Abbreviation block := (Z * Z)%type.

Definition in_block (x : Z) (b : block) : Prop := b.1 ≤ x < b.1 + b.2.
Definition free_in (ns : list block) (x : Z) : Prop := ∃ b, b ∈ ns ∧ in_block x b.

(** The first address of a list that ends with a pointer to [q]. *)
Definition first (ns : list block) (q : Z) : Z := match ns with [] => q | b :: _ => b.1 end.

Fixpoint nodes (m : gmap Z Z) (ns : list block) (q : Z) : Prop :=
  match ns with
  | [] => True
  | b :: ns' => ldw m b.1 = Some (first ns' q) ∧ ldw m (b.1 + 4) = Some b.2 ∧ nodes m ns' q
  end.

Definition block_ok (b : block) : Prop := 0 < b.1 ∧ b.1 mod 8 = 0 ∧ 0 < b.2 ∧ b.2 mod 8 = 0.

Fixpoint blocks_ok (lo hi : Z) (ns : list block) : Prop :=
  match ns with
  | [] => True
  | b :: ns' => lo ≤ b.1 ∧ block_ok b ∧ b.1 + b.2 ≤ hi ∧ blocks_ok (b.1 + b.2 + 1) hi ns'
  end.

Fixpoint total (ns : list block) : Z :=
  match ns with [] => 0 | b :: ns' => b.2 + total ns' end.

Lemma free_in_app l1 l2 x : free_in (l1 ++ l2) x ↔ free_in l1 x ∨ free_in l2 x.
Proof. unfold free_in. setoid_rewrite elem_of_app. naive_solver. Qed.

Lemma free_in_cons b l x : free_in (b :: l) x ↔ in_block x b ∨ free_in l x.
Proof. unfold free_in. setoid_rewrite elem_of_cons. naive_solver. Qed.

Lemma free_in_nil x : ¬ free_in [] x.
Proof. intros (b & Hb & _). by apply elem_of_nil in Hb. Qed.

Lemma total_app l1 l2 : total (l1 ++ l2) = total l1 + total l2.
Proof. induction l1 as [|b l1 IH]; cbn; lia. Qed.

Lemma first_app l1 l2 q : first (l1 ++ l2) q = first l1 (first l2 q).
Proof. by destruct l1. Qed.

Lemma nodes_app m l1 l2 q : nodes m (l1 ++ l2) q ↔ nodes m l1 (first l2 q) ∧ nodes m l2 q.
Proof. induction l1 as [|b l1 IH]; cbn; [tauto|]. rewrite IH, first_app. tauto. Qed.

Lemma nodes_agree m m' ns q :
  (∀ b x, b ∈ ns → b.1 ≤ x < b.1 + 8 → m' !! x = m !! x) → nodes m ns q → nodes m' ns q.
Proof.
  induction ns as [|b ns IH]; cbn; [done|]. intros Hm (H1 & H2 & H3). split_and!.
  - rewrite <- H1. apply ldw_agree. intros x Hx. apply (Hm b); [by left|lia].
  - rewrite <- H2. apply ldw_agree. intros x Hx. apply (Hm b); [by left|lia].
  - apply IH; [|done]. intros b' x Hb'. apply Hm. by right.
Qed.

(** *** The order of the blocks *)
Lemma blocks_ok_mono lo lo' hi hi' ns : lo' ≤ lo → hi ≤ hi' → blocks_ok lo hi ns → blocks_ok lo' hi' ns.
Proof.
  revert lo lo'. induction ns as [|b ns IH]; intros lo lo' Hlo Hhi; cbn; [done|].
  intros (H1 & H2 & H3 & H4). split_and!; [lia|done|lia|]. by eapply IH; [..|exact H4]; lia.
Qed.

Lemma blocks_ok_elem lo hi ns b : blocks_ok lo hi ns → b ∈ ns → lo ≤ b.1 ∧ block_ok b ∧ b.1 + b.2 ≤ hi.
Proof.
  revert lo. induction ns as [|c ns IH]; intros lo; cbn; [by intros _ ?%elem_of_nil|].
  intros (H1 & H2 & H3 & H4) [->|Hb]%elem_of_cons; [done|].
  destruct (IH _ H4 Hb) as (? & ? & ?). destruct H2. split_and!; try done; lia.
Qed.

Lemma block_ok_8 b : block_ok b → 8 ≤ b.2.
Proof. unfold block_ok. intros. dlia. Qed.

Lemma blocks_ok_hi lo hi hi' ns :
  blocks_ok lo hi ns → (∀ b, b ∈ ns → b.1 + b.2 ≤ hi') → blocks_ok lo hi' ns.
Proof.
  revert lo. induction ns as [|c ns IH]; intros lo; cbn; [done|].
  intros (H1 & H2 & H3 & H4) Hhi. split_and!; [done|done|apply Hhi; by left|].
  apply IH; [done|]. intros b Hb. apply Hhi. by right.
Qed.

Lemma blocks_ok_lo lo lo' hi ns : blocks_ok lo hi ns → lo' ≤ first ns lo' → blocks_ok lo' hi ns.
Proof. destruct ns; cbn; [done|]. naive_solver lia. Qed.

Lemma blocks_ok_mid lo hi l1 b l2 :
  blocks_ok lo hi (l1 ++ b :: l2) ↔
  blocks_ok lo (b.1 - 1) l1 ∧ lo ≤ b.1 ∧ block_ok b ∧ b.1 + b.2 ≤ hi ∧ blocks_ok (b.1 + b.2 + 1) hi l2.
Proof.
  revert lo. induction l1 as [|c l1 IH]; intros lo; cbn; [tauto|]. rewrite IH. split.
  - intros (H1 & H2 & H3 & H4 & H5 & H6 & H7 & H8). pose proof (block_ok_8 c H2). split_and!; try done; lia.
  - intros ((H1 & H2 & H3 & H4) & H5 & H6 & H7 & H8). pose proof (block_ok_8 c H2).
    destruct H6 as (? & ? & ? & ?). split_and!; try done; try lia.
Qed.

Lemma blocks_ok_app lo hi l1 l2 :
  blocks_ok lo hi (l1 ++ l2) → blocks_ok lo hi l1 ∧ blocks_ok lo hi l2.
Proof.
  revert lo. induction l1 as [|c l1 IH]; intros lo; cbn; [done|].
  intros (H1 & H2 & H3 & [H4 H5]%IH). split_and!; try done.
  pose proof (block_ok_8 c H2). by eapply blocks_ok_mono; [..|exact H5]; lia.
Qed.

(** Blocks before a point and blocks from a later point on. *)
Lemma blocks_ok_gap lo mid mid' hi l1 l2 :
  blocks_ok lo mid l1 → blocks_ok mid' hi l2 → lo ≤ mid' → mid < mid' → mid ≤ hi → blocks_ok lo hi (l1 ++ l2).
Proof.
  revert lo. induction l1 as [|c l1 IH]; intros lo; cbn.
  - intros _ H2 Hlo _ _. by eapply blocks_ok_mono; [..|exact H2]; lia.
  - intros (H1 & H2 & H3 & H4) H5 Hlo Hmid Hhi. split_and!; try done; [lia|]. apply IH; try done. lia.
Qed.

Lemma free_in_bounds lo hi ns x : blocks_ok lo hi ns → free_in ns x → lo ≤ x < hi.
Proof. intros Hns (b & Hb & Hx). destruct (blocks_ok_elem _ _ _ _ Hns Hb) as (? & _ & ?). unfold in_block in Hx. lia. Qed.

Lemma total_bounds lo hi ns : blocks_ok lo hi ns → lo ≤ hi → 0 ≤ total ns ≤ hi - lo ∧ total ns mod 8 = 0.
Proof.
  revert lo. induction ns as [|c ns IH]; intros lo; cbn; [intros _ ?; dlia|].
  intros (Hc & (_ & Ha & Hp & Hs) & Hhi & Hns) Hlo.
  destruct ns as [|d ns].
  - cbn. dlia.
  - assert (c.1 + c.2 + 1 ≤ hi). { cbn in Hns. destruct Hns as (? & (_ & _ & ? & _) & ? & _). lia. }
    destruct (IH _ Hns) as [? ?]; [done|]. dlia.
Qed.

Lemma total_nonneg lo hi ns : blocks_ok lo hi ns → 0 ≤ total ns.
Proof.
  revert lo. induction ns as [|c ns IH]; intros lo; cbn; [done|].
  intros (_ & (_ & _ & ? & _) & _ & ?%IH). lia.
Qed.

(** Distinct nodes lie in memory: a list has fewer nodes than memory has bytes. *)
Lemma blocks_ok_NoDup lo hi ns : blocks_ok lo hi ns → NoDup ns.*1.
Proof.
  revert lo. induction ns as [|c ns IH]; intros lo; cbn; [constructor|].
  intros (H1 & H2 & H3 & H4). constructor; [|by eapply IH].
  intros (b & E & Hb)%list_elem_of_fmap. destruct (blocks_ok_elem _ _ _ _ H4 Hb) as (? & ? & _).
  pose proof (block_ok_8 c H2). lia.
Qed.

Lemma nodes_length lo hi m ns q : blocks_ok lo hi ns → nodes m ns q → (length ns ≤ size m)%nat.
Proof.
  intros Hns Hc.
  assert (list_to_set ns.*1 ⊆ dom m) as Hsub.
  { intros a. rewrite elem_of_list_to_set. clear Hns. revert a.
    induction ns as [|b ns IH]; cbn; [by intros a ?%elem_of_nil|].
    destruct Hc as (H1 & _ & H3). intros a [->|Ha]%elem_of_cons; [by eapply ldw_dom|by apply IH]. }
  apply subseteq_size in Hsub. rewrite size_dom, size_list_to_set in Hsub by (by eapply blocks_ok_NoDup).
  by rewrite length_fmap in Hsub.
Qed.

(** Writes outside the nodes of a list keep it. *)
Lemma nodes_stw_before lo hi m ns q a v : blocks_ok lo hi ns → a + 4 ≤ lo → nodes m ns q → nodes (stw m a v) ns q.
Proof.
  intros Hns Ha. apply nodes_agree. intros b x Hb Hx. apply stw_other.
  destruct (blocks_ok_elem _ _ _ _ Hns Hb) as (? & _). lia.
Qed.

Lemma nodes_stw_after lo hi m ns q a v : blocks_ok lo hi ns → hi ≤ a → nodes m ns q → nodes (stw m a v) ns q.
Proof.
  intros Hns Ha. apply nodes_agree. intros b x Hb Hx. apply stw_other.
  destruct (blocks_ok_elem _ _ _ _ Hns Hb) as (? & ?%block_ok_8 & ?). lia.
Qed.

(** A list is determined by the bytes it covers. *)
Lemma blocks_ok_first lo hi b l x : blocks_ok lo hi (b :: l) → free_in (b :: l) x → b.1 ≤ x.
Proof.
  intros (H1 & H2 & H3 & H4) [Hx|Hx]%free_in_cons; [unfold in_block in Hx; lia|].
  apply (free_in_bounds _ _ _ _ H4) in Hx. pose proof (block_ok_8 b H2). lia.
Qed.

Lemma blocks_ok_canonical lo hi l1 l2 :
  blocks_ok lo hi l1 → blocks_ok lo hi l2 → (∀ x, free_in l1 x ↔ free_in l2 x) → l1 = l2.
Proof.
  assert (∀ c l lo' hi', blocks_ok lo' hi' (c :: l) → ¬ free_in (c :: l) (c.1 + c.2)) as Hgap.
  { intros c l lo' hi' (? & ? & ? & H4). rewrite free_in_cons. intros [Hx|Hx]; [unfold in_block in Hx; lia|].
    apply (free_in_bounds _ _ _ _ H4) in Hx. lia. }
  revert lo l2. induction l1 as [|b l1 IH]; intros lo [|c l2] H1 H2 Hx; [done|..].
  - destruct (free_in_nil c.1). apply Hx, free_in_cons. left. destruct H2 as (_ & (_ & _ & ? & _) & _). unfold in_block. lia.
  - destruct (free_in_nil b.1). apply Hx, free_in_cons. left. destruct H1 as (_ & (_ & _ & ? & _) & _). unfold in_block. lia.
  - pose proof H1 as (H11 & H12 & H13 & H14). pose proof H2 as (H21 & H22 & H23 & H24).
    pose proof (block_ok_8 b H12). pose proof (block_ok_8 c H22).
    assert (c.1 ≤ b.1) as Hcb.
    { eapply blocks_ok_first; [exact H2|]. apply Hx, free_in_cons. left. unfold in_block. lia. }
    assert (b.1 ≤ c.1) as Hbc.
    { eapply blocks_ok_first; [exact H1|]. apply Hx, free_in_cons. left. unfold in_block. lia. }
    assert (b.2 = c.2).
    { destruct (Z.lt_trichotomy b.2 c.2) as [?|[?|?]]; [|done|].
      - destruct (Hgap _ _ _ _ H1). apply Hx, free_in_cons. left. unfold in_block. lia.
      - destruct (Hgap _ _ _ _ H2). apply Hx, free_in_cons. left. unfold in_block. lia. }
    assert (b = c) as <-. { destruct b, c; cbn in *. f_equal; lia. }
    f_equal. apply (IH (b.1 + b.2 + 1)); [done|done|]. intros x. specialize (Hx x). rewrite !free_in_cons in Hx.
    split; intros Hf.
    + apply (free_in_bounds _ _ _ _ H14) in Hf as ?. destruct (proj1 Hx (or_intror Hf)) as [E|]; [|done].
      unfold in_block in E. lia.
    + apply (free_in_bounds _ _ _ _ H24) in Hf as ?. destruct (proj2 Hx (or_intror Hf)) as [E|]; [|done].
      unfold in_block in E. lia.
Qed.

(** ** The invariant *)
Definition bounds_ok (r : lmm_region) : Prop :=
  0 ≤ r_min r < r_max r ∧ r_max r ≤ W32 - 8 ∧ r_min r mod 8 = 0 ∧ r_max r mod 8 = 0 ∧ word (r_flags r).

Definition region_ok (m : gmap Z Z) (r : lmm_region) (ns : list block) : Prop :=
  r_nodes r = first ns 0 ∧ nodes m ns 0 ∧ blocks_ok (r_min r) (r_max r) ns ∧ r_free r = total ns.

Record lmm_ok (s : lmm) (nss : list (list block)) : Prop := {
  lk_regions : Forall2 (region_ok (mem s)) (regions s) nss;
  lk_bounds : Forall bounds_ok (regions s);
  lk_disjoint i j r r' : regions s !! i = Some r → regions s !! j = Some r' → i ≠ j →
    r_max r ≤ r_min r' ∨ r_max r' ≤ r_min r;
}.

(** The bytes of the heap that are free. *)
Definition heap_free (nss : list (list block)) (x : Z) : Prop := ∃ ns, ns ∈ nss ∧ free_in ns x.

(** What no operation on the free lists changes of a region. *)
Definition meta (r : lmm_region) : Z * Z * Z * Z * Z := (r_id r, r_min r, r_max r, r_flags r, r_pri r).

Lemma meta_inv r r' : meta r = meta r' →
  r_id r = r_id r' ∧ r_min r = r_min r' ∧ r_max r = r_max r' ∧ r_flags r = r_flags r' ∧ r_pri r = r_pri r'.
Proof. unfold meta. by intros [= ? ? ? ? ?]. Qed.

Lemma bounds_ok_meta r r' : meta r' = meta r → bounds_ok r → bounds_ok r'.
Proof. intros (_ & E1 & E2 & E3 & _)%meta_inv. unfold bounds_ok. by rewrite E1, E2, E3. Qed.

Lemma lmm_ok_region s nss i r : lmm_ok s nss → regions s !! i = Some r →
  ∃ ns, nss !! i = Some ns ∧ region_ok (mem s) r ns ∧ bounds_ok r.
Proof.
  intros [HF HB _] Hi. destruct (Forall2_lookup_l _ _ _ _ _ HF Hi) as (ns & ? & ?).
  exists ns. split_and!; try done. by eapply Forall_lookup_1.
Qed.

(** Other regions keep their free lists when one region changes. *)
Lemma region_ok_outside m m' r r' ns :
  bounds_ok r → region_ok m r ns → r_max r ≤ r_min r' ∨ r_max r' ≤ r_min r →
  (∀ x, ¬ (r_min r' ≤ x < r_max r') → m' !! x = m !! x) → region_ok m' r ns.
Proof.
  intros Hb (H1 & H2 & H3 & H4) Hd Hm. split_and!; try done.
  apply (nodes_agree m); [|done]. intros b x Hx Hin. apply Hm.
  destruct (blocks_ok_elem _ _ _ _ H3 Hx) as (? & ?%block_ok_8 & ?). lia.
Qed.

Lemma lmm_ok_update s nss i r r' ns' m' :
  lmm_ok s nss → regions s !! i = Some r → meta r' = meta r →
  (∀ x, ¬ (r_min r ≤ x < r_max r) → m' !! x = mem s !! x) → region_ok m' r' ns' →
  lmm_ok (mk_lmm m' (<[i := r']> (regions s))) (<[i := ns']> nss).
Proof.
  intros [HF HB HD] Hi Hmeta Hm Hr'. pose proof (lookup_lt_Some _ _ _ Hi) as Hlt.
  pose proof (meta_inv _ _ Hmeta) as (_ & Emin & Emax & _).
  split; cbn.
  - apply Forall2_same_length_lookup. split.
    { rewrite !length_insert. by eapply Forall2_length. }
    intros j q ns Hj Hns. destruct (decide (i = j)) as [<-|Hij].
    + rewrite list_lookup_insert_eq in Hj by done. rewrite list_lookup_insert_eq in Hns; [by simplify_eq|].
      by rewrite <- (Forall2_length _ _ _ HF).
    + rewrite list_lookup_insert_ne in Hj by done. rewrite list_lookup_insert_ne in Hns by done.
      apply (region_ok_outside (mem s) _ _ r);
        [by eapply Forall_lookup_1|by eapply Forall2_lookup_lr|by eapply HD|done].
  - apply Forall_insert; [done|]. apply (bounds_ok_meta r); [done|by eapply Forall_lookup_1].
  - assert (∀ k q, <[i := r']> (regions s) !! k = Some q →
      ∃ q0, regions s !! k = Some q0 ∧ r_min q = r_min q0 ∧ r_max q = r_max q0) as Hk.
    { intros k q Hq. destruct (decide (i = k)) as [<-|Hne].
      - rewrite list_lookup_insert_eq in Hq by done. simplify_eq. by exists r.
      - rewrite list_lookup_insert_ne in Hq by done. by exists q. }
    intros j k q q' (q0 & Hj & -> & ->)%Hk (q0' & Hk' & -> & ->)%Hk. by apply HD.
Qed.

(** The checks on regions and nodes hold. *)
Lemma nodes_check_ok m r ns : region_ok m r ns → nodes_check r = true.
Proof.
  intros (H1 & _ & H3 & H4). unfold nodes_check. apply bool_decide_true. rewrite H1, H4.
  destruct ns as [|b ns]; [by left|]. right. cbn in *. tauto.
Qed.

Lemma region_check_ok m r ns : bounds_ok r → region_ok m r ns → region_check r = true.
Proof.
  intros (? & ? & _) Hr. unfold region_check. rewrite (nodes_check_ok m r ns Hr). cbn.
  destruct Hr as (_ & _ & H3 & ->). apply bool_decide_true.
  destruct (total_bounds _ _ _ H3) as [? _]; [lia|]. rewrite u32_small by (unfold word; lia). lia.
Qed.

(** Reading the nodes of a list. *)
Section access.
Context (lo hi : Z) (s : lmm) (l1 l2 : list block) (b : block) (q : Z).
Hypothesis Hhi : hi ≤ W32 - 8.
Hypothesis Hok : blocks_ok lo hi (l1 ++ b :: l2).
Hypothesis Hnodes : nodes (mem s) (l1 ++ b :: l2) q.

Lemma node_word : word b.1 ∧ word (b.1 + 4) ∧ word b.2 ∧ word (b.1 + b.2).
Proof.
  apply blocks_ok_mid in Hok as (_ & _ & (? & ? & ? & ?) & ? & _). unfold word. lia.
Qed.

Lemma node_size_ok : node_size b.1 s = Ok b.2 s.
Proof.
  apply nodes_app in Hnodes as (_ & _ & H2 & _). destruct node_word as (_ & ? & _).
  unfold node_size, load. rewrite u32_small by done. rewrite bind_get. by rewrite H2.
Qed.

Lemma node_next_ok : node_next b.1 s = Ok (first l2 q) s.
Proof.
  apply nodes_app in Hnodes as (_ & H1 & _ & _). unfold node_next, load. rewrite bind_get. by rewrite H1.
Qed.

Lemma node_check_ok r : r_max r = hi → q = 0 → node_check r b.1 b.2 (first l2 q) = true.
Proof.
  intros Emax Eq. apply blocks_ok_mid in Hok as (_ & _ & (? & ? & ? & ?) & ? & Hl2).
  unfold node_check. rewrite !andb_true_iff, !bool_decide_eq_true, !land_7.
  split_and!; [done|done| |lia]. destruct l2 as [|c l2']; [by left|right]. cbn in *. lia.
Qed.
End access.

Lemma alter_region {A} (f : A → A) (i : nat) (l : list A) x : l !! i = Some x → alter f i l = <[i := f x]> l.
Proof.
  intros Hi. apply list_eq. intros j. destruct (decide (i = j)) as [<-|].
  - rewrite list_lookup_alter_eq, Hi, list_lookup_insert_eq; [done|by eapply lookup_lt_Some].
  - by rewrite list_lookup_alter_ne, list_lookup_insert_ne.
Qed.

(** *** The pointer to the list after [pre] *)
Definition slot (pre : list block) : option Z := fst <$> last pre.

Lemma get_ptr_ok s i r pre q :
  regions s !! i = Some r → r_nodes r = first pre q → nodes (mem s) pre q →
  get_ptr i (slot pre) s = Ok q s.
Proof.
  intros Hi Hr Hn. destruct pre as [|b pre' _] using rev_ind; unfold slot.
  - unfold get_ptr, region, mbind, M_bind, get, mret, M_ret. cbn. rewrite Hi. cbn in Hr |- *. by rewrite Hr.
  - rewrite last_snoc. cbn [fmap option_fmap option_map get_ptr]. apply nodes_app in Hn as (_ & H1 & _).
    unfold node_next, load. rewrite bind_get. by rewrite H1.
Qed.

Lemma put_ptr_ok m rs i r lo hi pre q v :
  rs !! i = Some r → r_nodes r = first pre q → nodes m pre q → blocks_ok lo hi pre → word v →
  ∃ m' r', put_ptr i (slot pre) v (mk_lmm m rs) = Ok tt (mk_lmm m' (<[i := r']> rs)) ∧
    r' = set_nodes (first pre v) r ∧ nodes m' pre v ∧ (∀ x, ¬ free_in pre x → m' !! x = m !! x).
Proof.
  intros Hi Hr Hn Hok Hv. destruct pre as [|b pre' _] using rev_ind; unfold slot.
  - exists m, (set_nodes v r). split_and!; try done. cbn. unfold upd_region, modify. cbn.
    by rewrite (alter_region _ _ _ _ Hi).
  - rewrite last_snoc. cbn [fmap option_fmap option_map put_ptr].
    pose proof (proj1 (blocks_ok_mid _ _ _ _ _) Hok) as (H1 & _ & H3 & _).
    pose proof (block_ok_8 b H3). apply nodes_app in Hn as (Hn & _ & Hs & _).
    exists (stw m b.1 v), r. split_and!.
    + unfold set_node_next, store, modify. cbn. by rewrite list_insert_id.
    + destruct r. unfold set_nodes. cbn in *. f_equal. rewrite Hr, !first_app. by destruct pre'.
    + apply nodes_app. split; [eapply nodes_stw_after; [exact H1|lia|done]|].
      cbn. rewrite ldw_stw, ldw_stw_ne by (done || lia). done.
    + intros x Hx. apply stw_other. rewrite free_in_app, free_in_cons in Hx. unfold in_block in Hx.
      destruct (decide (x < b.1 ∨ b.1 + 4 ≤ x)); [done|]. destruct Hx. right. left. lia.
Qed.
