(* ===== verification/LmmFree.v ===== *)
(** * The list memory manager: freeing

    [lmm_free] adds the bytes of a block to the free list of its region, joined
    with the free blocks it touches, and writes to free memory only. *)

From S2P Require Import Prelude CString Lmm LmmInv.

(** ** Finding the region and the place *)
Lemma find_region_ok m rs nss i r node (s : lmm) :
  Forall2 (region_ok m) rs nss → rs !! i = Some r → r_min r ≤ node < r_max r →
  (∀ j r', (j < i)%nat → rs !! j = Some r' → r_max r ≤ r_min r' ∨ r_max r' ≤ r_min r) →
  find_region node rs s = Ok i s.
Proof.
  intros HF. revert i. induction HF as [|r0 ns rs nss Hr HF IH]; intros i Hi Hin Hd; [done|].
  cbn [find_region]. rewrite bind_assert by (by eapply nodes_check_ok).
  destruct i as [|i]; cbn in Hi.
  - simplify_eq. by rewrite decide_True by lia.
  - destruct (Hd O r0) as [?|?]; [lia|done|..]; rewrite decide_False by lia.
    all: rewrite (bind_ok _ _ s i s); [done|]; apply IH; try done; intros j r' Hj Hj'; apply (Hd (S j)); [lia|done].
Qed.

Definition prev_of (l : list block) : Z := default 0 (slot l).

Lemma prev_of_snoc l b : prev_of (l ++ [b]) = b.1.
Proof. unfold prev_of, slot. by rewrite last_snoc. Qed.

Lemma find_place_ok lo hi s node post pre : hi ≤ W32 - 8 → ∀ l n,
  blocks_ok lo hi (l ++ pre ++ post) → nodes (mem s) (l ++ pre ++ post) 0 →
  Forall (λ b, b.1 < node) pre → (post = [] ∨ node ≤ first post 0) → (length pre < n)%nat →
  find_place n node (prev_of l) (first (pre ++ post) 0) s = Ok (prev_of (l ++ pre), first post 0) s.
Proof.
  intros Hhi. induction pre as [|b pre IH]; intros l [|n] Hok Hn Hlt Hpost Hfuel; cbn in Hfuel; try lia.
  - rewrite app_nil_r. cbn [app find_place]. rewrite decide_False; [done|].
    destruct Hpost as [->|?]; cbn in *; lia.
  - apply Forall_cons in Hlt as [Hb Hlt]. cbn [app first find_place].
    pose proof (proj1 (blocks_ok_mid _ _ _ _ _) Hok) as (_ & _ & (? & _) & _).
    rewrite decide_True by (split; lia). cbn [app] in Hok, Hn.
    rewrite (bind_ok _ _ _ _ _ (node_next_ok s l (pre ++ post) b 0 Hn)).
    rewrite <- (prev_of_snoc l b), IH; rewrite <- ?(assoc_L (++)); try done. lia.
Qed.

Lemma split_at lo hi ns node : blocks_ok lo hi ns →
  ∃ pre post, ns = pre ++ post ∧ Forall (λ b, b.1 < node) pre ∧ (post = [] ∨ node ≤ first post 0).
Proof.
  revert lo. induction ns as [|b ns IH]; intros lo; [by exists [], []; auto|].
  intros (_ & _ & _ & Hns). destruct (decide (b.1 < node)).
  - destruct (IH _ Hns) as (pre & post & -> & ? & ?). exists (b :: pre), post. by split_and!; [|constructor|].
  - exists [], (b :: ns). split_and!; [done|constructor|right; cbn; lia].
Qed.

(** ** Adding a block to a list *)
Record added (lo hi : Z) (ns : list block) (node size : Z) (ns' : list block) : Prop := {
  ad_ok : blocks_ok lo hi ns';
  ad_total : total ns' = total ns + size;
  ad_free x : free_in ns' x ↔ free_in ns x ∨ node ≤ x < node + size;
}.

Ltac free_tac := intros x; rewrite ?free_in_app, ?free_in_cons, ?free_in_app, ?free_in_cons; unfold in_block; cbn;
  pose proof (free_in_nil x); intuition lia.

(** The block [b] between [pre] and [post], its node written to memory. *)
Lemma mid_ok lo hi m m' pre b post :
  blocks_ok lo (b.1 - 1) pre → nodes m pre b.1 → blocks_ok (b.1 + b.2 + 1) hi post → nodes m post 0 →
  block_ok b → lo ≤ b.1 → b.1 + b.2 ≤ hi →
  ldw m' b.1 = Some (first post 0) → ldw m' (b.1 + 4) = Some b.2 →
  (∀ x, ¬ (b.1 ≤ x < b.1 + 8) → m' !! x = m !! x) →
  blocks_ok lo hi (pre ++ b :: post) ∧ nodes m' (pre ++ b :: post) 0 ∧
  (∀ x, ¬ free_in (pre ++ b :: post) x → m' !! x = m !! x).
Proof.
  intros H1 Hn1 H2 Hn2 Hb Hlo Hhi Hnext Hsize Hm. pose proof (block_ok_8 b Hb). split_and!.
  - by apply blocks_ok_mid.
  - apply nodes_app. cbn. split_and!; try done.
    + apply (nodes_agree m); [|done]. intros c x Hc Hx. apply Hm.
      destruct (blocks_ok_elem _ _ _ _ H1 Hc) as (? & ?%block_ok_8 & ?). lia.
    + apply (nodes_agree m); [|done]. intros c x Hc Hx. apply Hm.
      destruct (blocks_ok_elem _ _ _ _ H2 Hc) as (? & _). lia.
  - intros x Hx. apply Hm. intros ?. apply Hx. rewrite free_in_app, free_in_cons. right. left. unfold in_block. lia.
Qed.

(** The next block starts where the new one ends, or further on. *)
Lemma next_joins e hi post : blocks_ok e hi post → 0 ≤ e →
  (∃ c post', post = c :: post' ∧ c.1 = e ∧ first post 0 ≠ 0 ∧ first post 0 ≤ e) ∨
  (blocks_ok (e + 1) hi post ∧ ¬ (first post 0 ≠ 0 ∧ first post 0 ≤ e)).
Proof.
  intros Hok He. destruct post as [|c post]; [right; cbn; split; [done|lia]|].
  destruct Hok as (H1 & Hc & H3 & H4). pose proof Hc as (? & _). destruct (decide (c.1 = e)) as [E|].
  - left. exists c, post. cbn. split_and!; lia || done.
  - right. cbn. split_and!; try done; lia.
Qed.

Lemma first_word lo hi post : blocks_ok lo hi post → hi ≤ W32 - 8 → word (first post 0).
Proof.
  destruct post as [|c post]; cbn; [unfold word; lia|]. intros (_ & (? & _ & ? & _) & ? & _) ?. unfold word. lia.
Qed.

(** Two fields written one after the other. *)
Lemma put_node m a v w : word v → word w →
  ldw (stw (stw m (a + 4) w) a v) a = Some v ∧ ldw (stw (stw m (a + 4) w) a v) (a + 4) = Some w ∧
  (∀ x, ¬ (a ≤ x < a + 8) → stw (stw m (a + 4) w) a v !! x = m !! x).
Proof.
  intros Hv Hw. rewrite ldw_stw, ldw_stw_ne, ldw_stw by (done || lia). split_and!; try done.
  intros x Hx. rewrite !stw_other by lia. done.
Qed.

Lemma mid_put lo hi m pre b post :
  hi ≤ W32 - 8 → blocks_ok lo (b.1 - 1) pre → nodes m pre b.1 → blocks_ok (b.1 + b.2 + 1) hi post →
  nodes m post 0 → block_ok b → lo ≤ b.1 → b.1 + b.2 ≤ hi →
  let m' := stw (stw m (b.1 + 4) b.2) b.1 (first post 0) in
  blocks_ok lo hi (pre ++ b :: post) ∧ nodes m' (pre ++ b :: post) 0 ∧
  (∀ x, ¬ free_in (pre ++ b :: post) x → m' !! x = m !! x).
Proof.
  intros Hhi H1 Hn1 H2 Hn2 Hb Hlo Hmax m'.
  destruct (put_node m b.1 (first post 0) b.2) as (Hf1 & Hf2 & Hf3).
  { by eapply first_word. }
  { destruct Hb as (? & _ & ? & _). unfold word. lia. }
  by apply mid_ok.
Qed.

Section add.
Context (lo hi node size : Z).
Hypothesis Hhi : hi ≤ W32 - 8.
Hypothesis Hlo : 0 ≤ lo ≤ node.
Hypothesis Hnode : block_ok (node, size).
Hypothesis Hmax : node + size ≤ hi.

Lemma grow_prev_ok m rs pre p post :
  blocks_ok lo hi (pre ++ p :: post) → nodes m (pre ++ p :: post) 0 →
  p.1 + p.2 = node → blocks_ok (node + size) hi post →
  ∃ m' ns', grow_prev p.1 node size (first post 0) (mk_lmm m rs) = Ok tt (mk_lmm m' rs) ∧
    nodes m' ns' 0 ∧ first ns' 0 = first (pre ++ p :: post) 0 ∧ added lo hi (pre ++ p :: post) node size ns' ∧
    (∀ x, ¬ free_in ns' x → m' !! x = m !! x).
Proof.
  intros Hok Hn Ep Hpost. destruct Hnode as (? & Ha & Hs & Hs8). cbn in *.
  pose proof (node_size_ok _ _ (mk_lmm m rs) _ _ _ _ Hhi Hok Hn) as Hps.
  apply nodes_app in Hn as Hn'. destruct Hn' as (Hn1 & Hp1 & Hp2 & Hn2).
  pose proof (proj1 (blocks_ok_mid _ _ _ _ _) Hok) as (H1 & H2 & H3 & H4 & H5). pose proof H3 as (? & ? & ? & ?). pose proof (block_ok_8 p H3).
  unfold grow_prev. rewrite (bind_ok _ _ _ _ _ Hps). rewrite Ep, (u32_small node) by (unfold word; lia).
  rewrite bind_assert by (by apply bool_decide_true). rewrite (u32_small (node + size)) by (unfold word; lia).
  unfold set_node_size, store. rewrite (u32_small (p.1 + 4)) by (unfold word; lia).
  destruct (next_joins _ _ _ Hpost) as [(c & post' & -> & Ec & Hj)|[Hpost' Hj]]; [lia|..].
  - rewrite decide_True by done. cbn [first] in Hj |- *. rewrite bind_assert by (apply bool_decide_true; lia).
    assert (pre ++ p :: c :: post' = (pre ++ [p]) ++ c :: post') as E by (by rewrite <- app_assoc).
    pose proof Hok as Hok1. pose proof Hn as Hn'. rewrite E in Hok1, Hn'.
    rewrite (bind_ok _ _ _ _ _ (node_size_ok _ _ (mk_lmm m rs) _ _ _ _ Hhi Hok1 Hn')). clear Hok1 Hn' E.
    destruct Hpost as (_ & (? & ? & ? & ?) & ? & Hpost'), Hn2 as (Hq1 & _ & Hn2).
    rewrite (u32_small (size + c.2)), (u32_small (p.2 + _)) by (unfold word; lia). rewrite bind_modify.
    rewrite (bind_ok _ _ _ (first post' 0) (mk_lmm (stw m (p.1 + 4) (p.2 + (size + c.2))) rs)).
    2:{ unfold node_next, load. rewrite bind_get. cbn [mem]. rewrite ldw_stw_ne by lia. by rewrite Hq1. }
    destruct (mid_put lo hi m pre (p.1, p.2 + (size + c.2)) post' Hhi H1 Hn1) as (Hok' & Hn' & Hm'); try done.
    { cbn. eapply blocks_ok_mono; [..|exact Hpost']; lia. }
    { unfold block_ok. cbn. split_and!; try done; [lia|dlia]. }
    { cbn. lia. }
    eexists _, _. split_and!; [done|exact Hn'|by rewrite !first_app| |done].
    split; [done|rewrite !total_app; cbn; lia|free_tac].
  - rewrite decide_False by done. rewrite (u32_small (p.2 + size)) by (unfold word; lia).
    destruct (mid_ok lo hi m (stw m (p.1 + 4) (p.2 + size)) pre (p.1, p.2 + size) post H1 Hn1) as (Hok' & Hn' & Hm').
    all: try done; try (cbn; lia).
    { cbn. by replace (p.1 + (p.2 + size) + 1) with (node + size + 1) by lia. }
    { unfold block_ok. cbn. split_and!; try done; [lia|dlia]. }
    { cbn. by rewrite ldw_stw_ne by lia. }
    { cbn. rewrite ldw_stw; [done|unfold word; lia]. }
    { cbn. intros x Hx. apply stw_other. lia. }
    eexists _, _. split_and!; [done|exact Hn'|by rewrite !first_app| |done].
    split; [done|rewrite !total_app; cbn; lia|free_tac].
Qed.

Lemma insert_node_ok m rs i r pre post :
  rs !! i = Some r → r_nodes r = first (pre ++ post) 0 →
  blocks_ok lo (node - 1) pre → nodes m (pre ++ post) 0 → blocks_ok (node + size) hi post →
  ∃ m' r' ns', insert_node i (prev_of pre) node size (first post 0) (mk_lmm m rs) =
      Ok tt (mk_lmm m' (<[i := r']> rs)) ∧
    r' = set_nodes (first ns' 0) r ∧ nodes m' ns' 0 ∧ added lo hi (pre ++ post) node size ns' ∧
    (∀ x, ¬ free_in ns' x → m' !! x = m !! x).
Proof.
  intros Hi Hr Hpre [Hn1 Hn2]%nodes_app Hpost. pose proof (block_ok_8 _ Hnode). destruct Hnode as (? & Ha & Hs & Hs8). cbn in *.
  rewrite first_app in Hr.
  destruct (put_ptr_ok m rs i r lo (node - 1) pre (first post 0) node) as (m1 & r1 & Hput & -> & Hn1' & Hm1);
    [done|done|done|done|unfold word; lia|].
  assert ((if decide (prev_of pre = 0) then None else Some (prev_of pre)) = slot pre) as Eslot.
  { destruct pre as [|b pre' _] using rev_ind; [done|]. rewrite prev_of_snoc. unfold slot. rewrite last_snoc.
    apply blocks_ok_mid in Hpre as (_ & _ & (? & _) & _). by rewrite decide_False by lia. }
  assert (nodes m1 post 0) as Hn2'.
  { apply (nodes_agree m); [|done]. intros b x Hb Hx. apply Hm1. intros ?%(free_in_bounds _ _ _ _ Hpre).
    destruct (blocks_ok_elem _ _ _ _ Hpost Hb) as (? & _). lia. }
  assert (∀ l x, ¬ free_in (pre ++ l) x → m1 !! x = m !! x) as Hm1'.
  { intros l x Hx. apply Hm1. intros ?. apply Hx, free_in_app. by left. }
  unfold insert_node. rewrite Eslot, (bind_ok _ _ _ _ _ Hput), (u32_small (node + size)) by (unfold word; lia).
  unfold set_node_size, set_node_next, store. rewrite (u32_small (node + 4)) by (unfold word; lia).
  destruct (next_joins _ _ _ Hpost) as [(c & post' & -> & Ec & Hj)|[Hpost' Hj]]; [lia|..].
  - rewrite decide_True by done. cbn [first] in Hj |- *.
    rewrite (bind_ok _ _ _ _ _ (node_size_ok _ _ (mk_lmm m1 _) [] _ c 0 Hhi Hpost Hn2')).
    destruct Hpost as (_ & (? & ? & ? & ?) & ? & Hpost'), Hn2' as (Hq1 & _ & Hn2').
    rewrite u32_small by (unfold word; lia). rewrite bind_modify.
    rewrite (bind_ok _ _ _ (first post' 0) (mk_lmm (stw m1 (node + 4) (size + c.2)) (<[i := set_nodes (first pre node) r]> rs))).
    2:{ unfold node_next, load. rewrite bind_get. cbn [mem]. rewrite ldw_stw_ne by lia. by rewrite Hq1. }
    destruct (mid_put lo hi m1 pre (node, size + c.2) post' Hhi Hpre Hn1') as (Hok' & Hn' & Hm'); try done.
    { cbn. eapply blocks_ok_mono; [..|exact Hpost']; lia. }
    { unfold block_ok. cbn. split_and!; try done; [lia|dlia]. }
    { cbn. lia. }
    { cbn. lia. }
    eexists _, _, (pre ++ (node, size + c.2) :: post'). split_and!; [done|by rewrite first_app|exact Hn'| |].
    + split; [done|rewrite !total_app; cbn; lia|free_tac].
    + intros x Hx. rewrite Hm' by done. by eapply Hm1'.
  - rewrite decide_False, bind_modify by done.
    destruct (mid_put lo hi m1 pre (node, size) post Hhi Hpre Hn1') as (Hok' & Hn' & Hm'); try done.
    { cbn. lia. }
    eexists _, _, (pre ++ (node, size) :: post). split_and!; [done|by rewrite first_app|exact Hn'| |].
    + split; [done|rewrite !total_app; cbn; lia|free_tac].
    + intros x Hx. rewrite Hm' by done. by eapply Hm1'.
Qed.
End add.

(** Where a block that is not free lies between the free ones. *)
Lemma split_around lo hi ns node size :
  blocks_ok lo hi ns → 0 < size → (∀ x, free_in ns x → ¬ (node ≤ x < node + size)) →
  ∃ pre post, ns = pre ++ post ∧ Forall (λ b, b.1 < node) pre ∧ (post = [] ∨ node ≤ first post 0) ∧
    blocks_ok lo node pre ∧ blocks_ok (node + size) hi post.
Proof.
  intros Hok Hsize Hfree. destruct (split_at lo hi ns node Hok) as (pre & post & -> & Hpre & Hpost).
  exists pre, post. destruct (blocks_ok_app _ _ _ _ Hok) as [H1 H2]. split_and!; try done.
  - apply (blocks_ok_hi lo hi); [done|]. intros b Hb. destruct (blocks_ok_elem _ _ _ _ H1 Hb) as (_ & ?%block_ok_8 & _).
    pose proof (proj1 (Forall_forall _ _) Hpre b Hb) as Hlt. cbn in Hlt.
    destruct (decide (b.1 + b.2 ≤ node)); [done|]. destruct (Hfree node); [|lia].
    apply free_in_app. left. exists b. split; [done|]. unfold in_block. lia.
  - apply (blocks_ok_lo lo); [done|]. destruct Hpost as [->|Hpost]; [done|]. destruct post as [|c post]; [done|].
    cbn in *. pose proof (block_ok_8 c) as H8. destruct (decide (node + size ≤ c.1)); [done|].
    destruct (Hfree c.1); [|lia]. apply free_in_app. right. apply free_in_cons. left. unfold in_block. naive_solver lia.
Qed.

Lemma total_room lo mid mid' hi pre post :
  blocks_ok lo mid pre → blocks_ok mid' hi post → lo ≤ mid ≤ mid' → mid' ≤ hi →
  total (pre ++ post) ≤ hi - lo - (mid' - mid).
Proof.
  intros H1 H2 ? ?. rewrite total_app. destruct (total_bounds _ _ _ H1), (total_bounds _ _ _ H2); lia.
Qed.

(** The block of memory that [lmm_free] takes back: whole units of 8 bytes. *)
Definition ext_lo (a : Z) : Z := a - a mod 8.
Definition ext_len (a n : Z) : Z := up8 (a mod 8 + n).

Lemma ext_ok a n : word a → 0 < n → 0 < ext_lo a → block_ok (ext_lo a, ext_len a n) ∧ ext_lo a ≤ a ∧ a + n ≤ ext_lo a + ext_len a n.
Proof. unfold ext_lo, ext_len, block_ok, up8, word. cbn. intros. split_and!; dlia. Qed.

(** The choice between the two ways to add a block. *)
Lemma join_or_insert i r m rs r1 node size pre post :
  rs !! i = Some r1 → r_nodes r1 = first (pre ++ post) 0 → bounds_ok r →
  blocks_ok (r_min r) (r_max r) (pre ++ post) → nodes m (pre ++ post) 0 →
  blocks_ok (r_min r) node pre → blocks_ok (node + size) (r_max r) post →
  block_ok (node, size) → r_min r ≤ node → node + size ≤ r_max r →
  ∃ m' r' ns',
    (joins ← (if decide (prev_of pre = 0) then mret false
              else psize ← node_size (prev_of pre); mret (bool_decide (node ≤ u32 (prev_of pre + psize))));
     if joins : bool then grow_prev (prev_of pre) node size (first post 0)
     else insert_node i (prev_of pre) node size (first post 0)) (mk_lmm m rs) =
      Ok tt (mk_lmm m' (<[i := r']> rs)) ∧
    r' = set_nodes (first ns' 0) r1 ∧ nodes m' ns' 0 ∧ added (r_min r) (r_max r) (pre ++ post) node size ns' ∧
    (∀ x, ¬ free_in ns' x → m' !! x = m !! x).
Proof.
  intros Hr1 Enodes Hb Hpp Hn Hpre Hpost Hblk Hmin Hmax. destruct Hb as (? & Hhi & _).
  destruct pre as [|p pre _] using rev_ind.
  { cbn [prev_of slot last fmap option_fmap option_map default]. rewrite decide_True by done. rewrite bind_mret.
    apply (insert_node_ok (r_min r) (r_max r) node size) with (pre := []); try done; lia. }
  rewrite !prev_of_snoc. rewrite <- (app_assoc pre [p] post) in *. cbn [app] in *.
  pose proof (proj1 (blocks_ok_mid _ _ _ _ _) Hpre) as (_ & _ & Hp & Hp2 & _). pose proof Hp as (? & _ & ? & _).
  rewrite decide_False by lia. rewrite bind_assoc.
  rewrite (bind_ok _ _ _ _ _ (node_size_ok _ _ (mk_lmm m rs) _ _ _ _ Hhi Hpp Hn)), bind_mret.
  destruct Hblk as (? & ? & ? & ?). cbn in *. rewrite u32_small by (unfold word; lia).
  case_bool_decide.
  - destruct (grow_prev_ok (r_min r) (r_max r) node size) with (m := m) (rs := rs) (pre := pre) (p := p) (post := post)
      as (m' & ns' & E & ? & Ef & ? & ?); try done; try lia.
    exists m', r1, ns'. rewrite E, (list_insert_id rs i r1 Hr1). split_and!; try done.
    rewrite Ef, <- Enodes. by destruct r1.
  - rewrite <- (prev_of_snoc pre p).
    replace (pre ++ p :: post) with ((pre ++ [p]) ++ post) in * by (by rewrite <- app_assoc).
    apply insert_node_ok; try done; [lia|]. apply (blocks_ok_hi _ node); [done|].
    intros b [Hb| ->%list_elem_of_singleton]%elem_of_app; [|lia].
    apply blocks_ok_mid in Hpre as (Hpre & _). destruct (blocks_ok_elem _ _ _ _ Hpre Hb) as (_ & _ & ?). lia.
Qed.
Section lmm_free.
Context (s : lmm) (nss : list (list block)) (i : nat) (r : lmm_region) (ns : list block).
Hypothesis Hok : lmm_ok s nss.
Hypothesis Hi : regions s !! i = Some r.
Hypothesis Hns : nss !! i = Some ns.

Lemma region_of : region_ok (mem s) r ns ∧ bounds_ok r.
Proof. destruct (lmm_ok_region s nss i r Hok Hi) as (ns' & ? & ? & ?). by simplify_eq. Qed.

Lemma lmm_free_ok blk size :
  word blk → 0 < size → 0 < ext_lo blk → r_min r ≤ ext_lo blk → ext_lo blk + ext_len blk size ≤ r_max r →
  (∀ x, free_in ns x → ¬ (ext_lo blk ≤ x < ext_lo blk + ext_len blk size)) →
  ∃ s' ns', lmm_free blk size s = Ok tt s' ∧ lmm_ok s' (<[i := ns']> nss) ∧
    added (r_min r) (r_max r) ns (ext_lo blk) (ext_len blk size) ns' ∧
    (∀ x, ¬ free_in ns' x → mem s' !! x = mem s !! x) ∧ meta <$> regions s' = meta <$> regions s.
Proof.
  intros Hw Hsize Hpos Hmin Hmax Hfree. destruct region_of as [(En & Hn & Hbs & Et) Hb].
  destruct (ext_ok blk size Hw Hsize Hpos) as (Hblk & ? & ?). pose proof Hblk as (_ & _ & ? & _). cbn in *.
  pose proof Hb as (? & ? & ? & ? & _). unfold lmm_free. rewrite !bind_assert by (apply bool_decide_true; lia).
  rewrite land_7, align_down_eq, align_up_eq by (done || unfold ext_lo, ext_len, up8 in *; dlia).
  fold (ext_lo blk). change (up8 (blk mod 8 + size)) with (ext_len blk size).
  set (node := ext_lo blk) in *. set (sz := ext_len blk size) in *.
  rewrite bind_get, (bind_ok _ _ s i s).
  2:{ eapply find_region_ok; [apply Hok|done|lia|]. intros j r' Hj Hr'. apply or_comm.
      destruct (lk_disjoint _ _ Hok j i r' r) as [?|?]; [done|done|lia|by left|by right]. }
  destruct (split_around _ _ _ _ _ Hbs ltac:(done) Hfree) as (pre & post & -> & Hlt & Hge & Hpre & Hpost).
  pose proof (total_room _ _ _ _ _ _ Hpre Hpost) as Hroom. destruct (total_bounds _ _ _ Hbs) as [? _]; [lia|].
  unfold upd_region. rewrite bind_modify, (alter_region _ _ _ _ Hi), Et, u32_small by (unfold word; lia).
  set (r1 := set_free (total (pre ++ post) + sz) r). set (rs := <[i := r1]> (regions s)).
  assert (rs !! i = Some r1) as Hr1 by (by eapply list_lookup_insert_eq, lookup_lt_Some).
  rewrite (bind_ok _ _ _ r1 (mk_lmm (mem s) rs)).
  2:{ unfold region. rewrite bind_get. cbn [regions]. by rewrite Hr1. }
  rewrite bind_assert by (apply bool_decide_true; cbn; rewrite u32_small by (unfold word; lia); lia).
  unfold fuel. rewrite bind_gets. cbn [mem r1 set_free r_nodes]. rewrite En.
  rewrite (bind_ok _ _ _ _ _ (find_place_ok (r_min r) (r_max r) (mk_lmm (mem s) rs) node post pre ltac:(lia) [] (S (base.size (mem s))) Hbs Hn Hlt Hge
    ltac:(pose proof (nodes_length _ _ _ _ _ Hbs Hn) as Hl; rewrite length_app in Hl; lia))).
  destruct (join_or_insert i r (mem s) rs r1 node sz pre post) as (m' & r' & ns' & E & -> & Hn' & Had & Hm'); try done.
  cbn [app]. rewrite E. unfold rs. rewrite list_insert_insert_eq.
  eexists _, ns'. split_and!; [done| |done|done|].
  - eapply (lmm_ok_update s nss i r); try done.
    + intros x Hx. apply Hm'. intros ?%(free_in_bounds _ _ _ _ (ad_ok _ _ _ _ _ _ Had)). lia.
    + split_and!; try done; [apply Had|]. cbn. by rewrite (ad_total _ _ _ _ _ _ Had).
  - cbn. rewrite list_fmap_insert. apply list_insert_id. by rewrite list_lookup_fmap, Hi.
Qed.
End lmm_free.
