(* ===== verification/LmmAlloc.v ===== *)
(** * The list memory manager: allocation

    [lmm_alloc] takes the first free block that is large enough in the first
    region with the right flags, [lmm_alloc_gen] the first one that holds an
    aligned chunk in the given range.  Both give out bytes that were free, keep
    the rest free and write to free memory only. *)

From S2P Require Import Prelude CString Lmm LmmInv LmmFree.

(** ** Taking a chunk out of a list *)
Record taken (lo hi : Z) (ns : list block) (p n : Z) (ns' : list block) : Prop := {
  tk_ok : blocks_ok lo hi ns';
  tk_total : total ns' = total ns - n;
  tk_free x : free_in ns x ↔ free_in ns' x ∨ p ≤ x < p + n;
  tk_gone x : p ≤ x < p + n → ¬ free_in ns' x;
  tk_at : 0 < p ∧ p mod 8 = 0;
}.

(** The block [b] without the [n] bytes at [p]. *)
Definition cut (b : block) (p n : Z) : list block :=
  (if decide (b.1 < p) then [(b.1, p - b.1)] else []) ++
  (if decide (p + n < b.1 + b.2) then [(p + n, b.1 + b.2 - (p + n))] else []).

Lemma cut_head b n : cut b b.1 n = if decide (n < b.2) then [(b.1 + n, b.2 - n)] else [].
Proof. unfold cut. rewrite decide_False by lia. do 2 case_decide; try lia; cbn; [|done]. do 2 f_equal. lia. Qed.

Section cut.
Context (lo hi : Z) (pre post : list block) (b : block) (p n : Z).
Hypothesis Hpre : blocks_ok lo (b.1 - 1) pre.
Hypothesis Hlo : lo ≤ b.1.
Hypothesis Hb : block_ok b.
Hypothesis Hhi : b.1 + b.2 ≤ hi.
Hypothesis Hpost : blocks_ok (b.1 + b.2 + 1) hi post.
Hypothesis Hp : b.1 ≤ p ∧ p + n ≤ b.1 + b.2 ∧ p mod 8 = 0 ∧ 0 < n ∧ n mod 8 = 0.

Lemma cut_blocks : blocks_ok lo hi (pre ++ cut b p n ++ post).
Proof.
  destruct Hp as (? & ? & ? & ? & ?), Hb as (? & ? & ? & ?). unfold cut, block_ok.
  do 2 case_decide; cbn [app].
  - apply blocks_ok_mid. cbn. unfold block_ok. cbn. split_and!; try done; try lia; try dlia.
    by replace (p + n + (b.1 + b.2 - (p + n)) + 1) with (b.1 + b.2 + 1) by lia.
  - apply blocks_ok_mid. cbn. unfold block_ok. cbn. split_and!; try done; try lia; try dlia.
    by eapply blocks_ok_mono; [..|exact Hpost]; lia.
  - apply blocks_ok_mid. cbn. unfold block_ok. cbn. split_and!; try done; try lia; try dlia.
    + by eapply blocks_ok_mono; [..|exact Hpre]; lia.
    + by replace (p + n + (b.1 + b.2 - (p + n)) + 1) with (b.1 + b.2 + 1) by lia.
  - by eapply blocks_ok_gap; [exact Hpre|exact Hpost|lia..].
Qed.

Lemma cut_taken : taken lo hi (pre ++ b :: post) p n (pre ++ cut b p n ++ post).
Proof.
  destruct Hp as (? & ? & ? & ? & ?), Hb as (? & ? & ? & ?).
  split; [apply cut_blocks|..].
  - rewrite !total_app. cbn. unfold cut. do 2 case_decide; cbn; lia.
  - intros x. rewrite !free_in_app, free_in_cons. unfold cut, in_block. pose proof (free_in_nil x).
    do 2 case_decide; cbn [app]; rewrite ?free_in_cons; unfold in_block; cbn; intuition lia.
  - intros x Hx. rewrite !free_in_app. unfold cut. pose proof (free_in_nil x).
    intros [Hf|[Hf|Hf]].
    + apply (free_in_bounds _ _ _ _ Hpre) in Hf. lia.
    + revert Hf. do 2 case_decide; cbn [app]; rewrite ?free_in_cons; unfold in_block; cbn; intuition lia.
    + apply (free_in_bounds _ _ _ _ Hpost) in Hf. lia.
  - split; [lia|done].
Qed.
End cut.

(** ** The head of a node *)
Lemma node_size_at m rs a v : ldw m (a + 4) = Some v → word (a + 4) → node_size a (mk_lmm m rs) = Ok v (mk_lmm m rs).
Proof. intros Hv Hw. unfold node_size, load. rewrite u32_small, bind_get by done. cbn [mem]. by rewrite Hv. Qed.

Lemma node_next_at m rs a v : ldw m a = Some v → node_next a (mk_lmm m rs) = Ok v (mk_lmm m rs).
Proof. intros Hv. unfold node_next, load. rewrite bind_get. cbn [mem]. by rewrite Hv. Qed.

Lemma put_node_next m a v w : word v → word w →
  ldw (stw (stw m a v) (a + 4) w) a = Some v ∧ ldw (stw (stw m a v) (a + 4) w) (a + 4) = Some w ∧
  (∀ x, ¬ (a ≤ x < a + 8) → stw (stw m a v) (a + 4) w !! x = m !! x).
Proof.
  intros Hv Hw. rewrite ldw_stw_ne, !ldw_stw by (done || lia). split_and!; try done.
  intros x Hx. rewrite !stw_other by lia. done.
Qed.

Section take_head.
Context (m : gmap Z Z) (rs : list lmm_region) (i : nat) (r : lmm_region) (lo hi : Z) (pre post : list block) (b : block) (q : Z).
Hypothesis Hi : rs !! i = Some r.
Hypothesis Hlo : 0 ≤ lo.
Hypothesis Hhi : hi ≤ W32 - 8.
Hypothesis Hpre : blocks_ok lo b.1 pre.
Hypothesis Hb : block_ok b.
Hypothesis Hbhi : b.1 + b.2 ≤ hi.
Hypothesis Hpost : blocks_ok (b.1 + b.2 + 1) hi post.
Hypothesis Hn1 : nodes m pre q.
Hypothesis Hn : nodes m (b :: post) 0.
Hypothesis Hr : r_nodes r = first pre q.

(** Redirect the pointer after [pre] to [v], the start of a list in memory. *)
Lemma redirect l m1 v :
  word v → v = first l 0 → (∀ x, ¬ in_block x b → m1 !! x = m !! x) → nodes m1 l 0 →
  (∀ c x, c ∈ l → c.1 ≤ x < c.1 + 8 → ¬ free_in pre x) →
  ∃ m', put_ptr i (slot pre) v (mk_lmm m1 rs) = Ok tt (mk_lmm m' (<[i := set_nodes (first (pre ++ l) 0) r]> rs)) ∧
    nodes m' (pre ++ l) 0 ∧ (∀ x, ¬ free_in (pre ++ b :: post) x → m' !! x = m !! x).
Proof.
  intros Hv Ev Hm1 Hl Hdis.
  destruct (put_ptr_ok m1 rs i r lo b.1 pre q v) as (m' & r' & E & -> & Hn' & Hm'); try done.
  { apply (nodes_agree m); [|done]. intros c x Hc Hx. apply Hm1. unfold in_block.
    destruct (blocks_ok_elem _ _ _ _ Hpre Hc) as (? & ?%block_ok_8 & ?). lia. }
  exists m'. rewrite E, first_app, <- Ev. split_and!; [done| |].
  - apply nodes_app. rewrite <- Ev. split; [done|]. apply (nodes_agree m1); [|done].
    intros c x Hc Hx. by eapply Hm', Hdis.
  - intros x. rewrite free_in_app, free_in_cons. intros Hx. rewrite Hm' by tauto. apply Hm1. tauto.
Qed.

Context (n : Z).
Hypothesis Hnb : 0 < n ≤ b.2.
Hypothesis Hn8 : n mod 8 = 0.
Let ns' := pre ++ cut b b.1 n ++ post.

(** The count of free bytes. *)
Lemma count_down m' r1 :
  r1 = set_nodes (first ns' 0) r → n ≤ r_free r → word (r_free r) →
  (r ← region i; kernel_assert (bool_decide (n ≤ r_free r)) ;;
   upd_region i (set_free (u32 (r_free r - n)))) (mk_lmm m' (<[i := r1]> rs)) =
  Ok tt (mk_lmm m' (<[i := set_free (r_free r - n) (set_nodes (first ns' 0) r)]> rs)).
Proof.
  intros -> Hfree Hwf. set (r1 := set_nodes _ r). assert (<[i := r1]> rs !! i = Some r1) as Hr1.
  { by eapply list_lookup_insert_eq, lookup_lt_Some. }
  rewrite (bind_ok _ _ _ r1 (mk_lmm m' (<[i := r1]> rs))).
  2:{ unfold region. rewrite bind_get. cbn [regions]. by rewrite Hr1. }
  rewrite bind_assert by (by apply bool_decide_true). unfold upd_region, modify. cbn [mem regions].
  rewrite (alter_region _ _ _ _ Hr1), list_insert_insert_eq. unfold word in Hwf.
  change (r_free r1) with (r_free r). by rewrite u32_small by (unfold word; lia).
Qed.

(** The list without the head of the node. *)
Lemma unlink :
  ∃ m' r', (if decide (n < b.2) then
      nn ← node_next b.1; set_node_next (u32 (b.1 + n)) nn ;; set_node_size (u32 (b.1 + n)) (u32 (b.2 - n)) ;;
      put_ptr i (slot pre) (u32 (b.1 + n))
    else nn ← node_next b.1; put_ptr i (slot pre) nn) (mk_lmm m rs) = Ok tt (mk_lmm m' (<[i := r']> rs)) ∧
    r' = set_nodes (first ns' 0) r ∧ nodes m' ns' 0 ∧
    (∀ x, ¬ free_in (pre ++ b :: post) x → m' !! x = m !! x).
Proof.
  pose proof (block_ok_8 b Hb) as H8. pose proof Hb as (Hb1 & Hb2 & Hb3 & Hb4).
  pose proof Hn as (Hnext & Hsize & Hn2). unfold ns'. rewrite cut_head. case_decide.
  - rewrite (bind_ok _ _ _ _ _ (node_next_at m rs _ _ Hnext)), (u32_small (b.1 + n)), u32_small by (unfold word; lia).
    unfold set_node_next, set_node_size, store. rewrite !bind_modify. cbn [mem regions].
    rewrite (u32_small (b.1 + n + 4)) by (unfold word; dlia).
    edestruct (put_node_next m (b.1 + n) (first post 0) (b.2 - n)) as (Hf1 & Hf2 & Hf3);
      [by eapply first_word|unfold word; lia|].
    destruct (redirect ((b.1 + n, b.2 - n) :: post) (stw (stw m (b.1 + n) (first post 0)) (b.1 + n + 4) (b.2 - n)) (b.1 + n))
      as (m' & E & Hn' & Hm').
    + unfold word. lia.
    + done.
    + intros x Hx. apply Hf3. unfold in_block in Hx. dlia.
    + cbn. split_and!; [done|done|]. apply (nodes_agree m); [|done]. intros c x Hc Hx. apply Hf3.
      destruct (blocks_ok_elem _ _ _ _ Hpost Hc) as (? & _). dlia.
    + intros c x [->|Hc]%elem_of_cons Hx Hf; apply (free_in_bounds _ _ _ _ Hpre) in Hf; cbn in Hx; [lia|].
      destruct (blocks_ok_elem _ _ _ _ Hpost Hc) as (? & _). lia.
    + exists m'. eexists. by split_and!.
  - rewrite (bind_ok _ _ _ _ _ (node_next_at m rs _ _ Hnext)).
    destruct (redirect post m (first post 0)) as (m' & E & Hn' & Hm'); try done; [by eapply first_word| |].
    + intros c x Hc Hx Hf. apply (free_in_bounds _ _ _ _ Hpre) in Hf.
      destruct (blocks_ok_elem _ _ _ _ Hpost Hc) as (? & _). lia.
    + exists m'. eexists. by split_and!.
Qed.

Lemma take_head_ok :
  n ≤ r_free r → word (r_free r) →
  ∃ m' r', take_head i (slot pre) b.1 n (mk_lmm m rs) = Ok tt (mk_lmm m' (<[i := r']> rs)) ∧
    r' = set_free (r_free r - n) (set_nodes (first ns' 0) r) ∧ nodes m' ns' 0 ∧
    (∀ x, ¬ free_in (pre ++ b :: post) x → m' !! x = m !! x).
Proof.
  intros Hfree Hwf. destruct unlink as (m' & r' & E & Er & Hn' & Hm'). pose proof Hb as (? & _ & ? & _).
  pose proof Hn as (_ & Hsize & _).
  unfold take_head. rewrite (bind_ok _ _ _ _ _ (node_size_at m rs b.1 b.2 Hsize ltac:(unfold word; lia))).
  rewrite (u32_small (b.1 + n)) in E |- * by (unfold word; lia).
  exists m'. eexists. rewrite (bind_ok _ _ _ _ _ E), (count_down _ _ Er Hfree Hwf). by split_and!.
Qed.
End take_head.

(** ** lmm_alloc *)

(** [s'] is [s] with the [n] bytes at [p] taken from a region that has [flags]. *)
Definition took (s : lmm) (nss : list (list block)) (flags p n : Z) (s' : lmm) (nss' : list (list block)) : Prop :=
  ∃ j r ns ns', regions s !! j = Some r ∧ nss !! j = Some ns ∧ lacks flags r = false ∧
    nss' = <[j := ns']> nss ∧ lmm_ok s' nss' ∧ taken (r_min r) (r_max r) ns p n ns' ∧
    (∀ x, ¬ free_in ns x → mem s' !! x = mem s !! x) ∧ meta <$> regions s' = meta <$> regions s.

Section alloc_region.
Context (s : lmm) (nss : list (list block)) (i : nat) (r : lmm_region) (ns : list block).
Hypothesis Hok : lmm_ok s nss.
Hypothesis Hi : regions s !! i = Some r.
Hypothesis Hns : nss !! i = Some ns.

Lemma took_intro flags p n ns' m' :
  lacks flags r = false → taken (r_min r) (r_max r) ns p n ns' → nodes m' ns' 0 →
  (∀ x, ¬ free_in ns x → m' !! x = mem s !! x) →
  took s nss flags p n (mk_lmm m' (<[i := set_free (r_free r - n) (set_nodes (first ns' 0) r)]> (regions s)))
    (<[i := ns']> nss).
Proof using All.
  intros Hfl Htk Hn' Hm'. destruct (region_of s nss i r _ Hok Hi Hns) as [(En & Hnd & Hbs & Et) _].
  exists i, r, ns, ns'. split_and!; try done.
  - eapply (lmm_ok_update s nss i r); try done.
    + intros x Hx. apply Hm'. intros ?%(free_in_bounds _ _ _ _ Hbs). lia.
    + split_and!; try done; [apply Htk|]. cbn. rewrite (tk_total _ _ _ _ _ _ Htk). lia.
  - cbn. rewrite list_fmap_insert. apply list_insert_id. by rewrite list_lookup_fmap, Hi.
Qed.

(** A chunk is no larger than the count of free bytes. *)
Lemma free_count pre b post : ns = pre ++ b :: post → b.2 ≤ r_free r ∧ word (r_free r).
Proof using All.
  intros ->. destruct (region_of s nss i r _ Hok Hi Hns) as [(_ & _ & Hbs & Et) (? & ? & _)].
  destruct (total_bounds _ _ _ Hbs) as [? _]; [lia|].
  apply blocks_ok_mid in Hbs as (Hpre & _ & _ & _ & Hpost).
  pose proof (total_nonneg _ _ _ Hpre). pose proof (total_nonneg _ _ _ Hpost).
  rewrite Et, total_app in *. cbn in *. unfold word. lia.
Qed.

Lemma take_head_took pre b post n flags :
  ns = pre ++ b :: post → lacks flags r = false → 0 < n ≤ b.2 → n mod 8 = 0 →
  ∃ s' nss', take_head i (slot pre) b.1 n s = Ok tt s' ∧ took s nss flags b.1 n s' nss'.
Proof using All.
  intros E Hfl Hn Hn8. destruct (region_of s nss i r _ Hok Hi Hns) as [(En & Hnd & Hbs & Et) (Hb1 & Hb2 & Hb3 & Hb4 & _)].
  destruct (free_count pre b post E) as [? ?]. rewrite E in Hbs, Hnd, En.
  pose proof (proj1 (blocks_ok_mid _ _ _ _ _) Hbs) as (Hpre & Hlo & Hb & Hhi & Hpost).
  apply nodes_app in Hnd as [Hnd1 Hnd2]. rewrite first_app in En.
  destruct (take_head_ok (mem s) (regions s) i r (r_min r) (r_max r) pre post b b.1) with (n := n)
    as (m' & r' & Et' & -> & Hn' & Hm'); try done; try lia.
  { by eapply blocks_ok_mono; [..|exact Hpre]; lia. }
  replace (mk_lmm (mem s) (regions s)) with s in Et' by (by destruct s). rewrite Et'.
  eexists _, _. split; [done|]. apply took_intro; [done| |done|by rewrite E]. rewrite E.
  apply cut_taken; try done. destruct Hb as (? & ? & ? & ?). lia.
Qed.

Lemma alloc_nodes_ok size rest : ∀ pre n,
  ns = pre ++ rest → (length rest < n)%nat →
  (alloc_nodes n i r size (slot pre) s = Ok None s ∧ Forall (λ b, b.2 < size) rest) ∨
  ∃ rest1 b rest2, rest = rest1 ++ b :: rest2 ∧ size ≤ b.2 ∧
    alloc_nodes n i r size (slot pre) s = (take_head i (slot (pre ++ rest1)) b.1 size ;; mret (Some b.1)) s.
Proof.
  destruct (region_of s nss i r _ Hok Hi Hns) as [(En & Hnd & Hbs & Et) (Hb1 & Hb2 & Hb3 & Hb4 & _)].
  induction rest as [|b rest IH]; intros pre [|n] E Hlt; cbn in Hlt; try lia; cbn [alloc_nodes]; subst ns.
  - left. rewrite app_nil_r in *. rewrite (bind_ok _ _ _ _ _ (get_ptr_ok s i r pre 0 Hi En Hnd)).
    by rewrite decide_True.
  - pose proof Hnd as Hnd'. apply nodes_app in Hnd' as [Hpre _]. rewrite first_app in En.
    rewrite (bind_ok _ _ _ _ _ (get_ptr_ok s i r pre b.1 Hi En Hpre)).
    pose proof (proj1 (blocks_ok_mid _ _ _ _ _) Hbs) as (_ & _ & (? & _) & _). rewrite decide_False by lia.
    rewrite (bind_ok _ _ _ _ _ (node_size_ok _ _ _ _ _ _ _ Hb2 Hbs Hnd)).
    rewrite (bind_ok _ _ _ _ _ (node_next_ok _ _ _ _ _ Hnd)).
    rewrite bind_assert by (by eapply node_check_ok). case_decide.
    + right. exists [], b, rest. by rewrite app_nil_r.
    + replace (Some b.1) with (slot (pre ++ [b])) by (unfold slot; by rewrite last_snoc).
      destruct (IH (pre ++ [b]) n) as [[E Hs]|(r1 & c & r2 & -> & Hc & E)];
        [by rewrite <- app_assoc|lia|..].
      * left. split; [done|]. constructor; [lia|done].
      * right. exists (b :: r1), c, r2. split_and!; [done|done|]. by rewrite E, <- app_assoc.
Qed.
End alloc_region.

Section alloc.
Context (s : lmm) (nss : list (list block)) (size flags : Z).
Hypothesis Hok : lmm_ok s nss.

(** The region has no block that is large enough, or lacks a flag. *)
Definition no_block (j : nat) : Prop :=
  ∀ r ns b, regions s !! j = Some r → nss !! j = Some ns → lacks flags r = false → b ∈ ns → b.2 < size.

Lemma region_at j : (j < length (regions s))%nat →
  ∃ r ns, regions s !! j = Some r ∧ nss !! j = Some ns ∧ region j s = Ok r s ∧ region_check r = true.
Proof using Hok.
  intros (r & Hr)%lookup_lt_is_Some. destruct (lmm_ok_region s nss j r Hok Hr) as (ns & Hns & Hrok & Hb).
  exists r, ns. split_and!; try done; [|by eapply region_check_ok].
  unfold region. rewrite bind_get. by rewrite Hr.
Qed.

Lemma fuel_enough j r ns : regions s !! j = Some r → nss !! j = Some ns → (length ns < S (base.size (mem s)))%nat.
Proof using Hok.
  intros Hr Hns. destruct (region_of s nss j r ns Hok Hr Hns) as [(_ & Hn & Hbs & _) _].
  pose proof (nodes_length _ _ _ _ _ Hbs Hn). lia.
Qed.

Lemma alloc_regions_ok k j :
  0 < size → size mod 8 = 0 → (j + k = length (regions s))%nat →
  (alloc_regions k j size flags s = Ok 0 s ∧ ∀ j', (j ≤ j' < length (regions s))%nat → no_block j') ∨
  ∃ p s' nss', alloc_regions k j size flags s = Ok p s' ∧ took s nss flags p size s' nss'.
Proof using Hok.
  intros Hs Hs8. revert j. induction k as [|k IH]; intros j Hj; cbn [alloc_regions].
  { left. split; [done|]. intros j' ?. lia. }
  destruct (region_at j) as (r & ns & Hr & Hns & Er & Hchk); [lia|].
  rewrite (bind_ok _ _ _ _ _ Er), bind_assert by done.
  destruct (lacks flags r) eqn:Hl.
  { destruct (IH (S j)) as [[E Hno]|(p & s' & nss' & E & Ht)]; [lia|left|right; naive_solver].
    split; [done|]. intros j' ?. destruct (decide (j' = j)) as [->|]; [|apply Hno; lia].
    intros r' ns' b ? ? ?. simplify_eq. congruence. }
  unfold fuel. rewrite bind_gets.
  destruct (alloc_nodes_ok s nss j r ns Hok Hr Hns size ns [] (S (base.size (mem s))))
    as [[E Hsmall]|(l1 & b & l2 & El & Hb & E)]; [done|by eapply fuel_enough|..].
  - change (slot []) with (@None Z) in E. rewrite (bind_ok _ _ _ _ _ E).
    destruct (IH (S j)) as [[E' Hno]|(p & s' & nss' & E' & Ht)]; [lia|left|right; naive_solver].
    split; [done|]. intros j' ?. destruct (decide (j' = j)) as [->|]; [|apply Hno; lia].
    intros r' ns' b ? ? ?. simplify_eq. rewrite Forall_forall in Hsmall. apply Hsmall.
  - right. destruct (take_head_took s nss j r ns Hok Hr Hns l1 b l2 size flags El Hl ltac:(lia) Hs8) as (s' & nss' & E' & Ht).
    exists b.1, s', nss'. split; [|done]. change (slot []) with (@None Z) in E. cbn [app] in E.
    rewrite (bind_ok _ _ _ (Some b.1) s'); [done|]. rewrite E. by rewrite (bind_ok _ _ _ _ _ E').
Qed.
End alloc.

Lemma took_pos s nss flags p n s' nss' : took s nss flags p n s' nss' → lmm_ok s nss → 0 < n →
  ∃ r ns, r ∈ regions s ∧ ns ∈ nss ∧ r_min r ≤ p ∧ p + n ≤ r_max r ∧ ∀ x, p ≤ x < p + n → free_in ns x.
Proof.
  intros (j & r & ns & ns' & Hr & Hns & _ & _ & _ & Ht & _) Hok Hn.
  destruct (region_of s nss j r ns Hok Hr Hns) as [(_ & _ & Hbs & _) _].
  assert (∀ x, p ≤ x < p + n → free_in ns x) as Hf by (intros x Hx; apply (tk_free _ _ _ _ _ _ Ht); by right).
  exists r, ns. split_and!; [by eapply list_elem_of_lookup_2|by eapply list_elem_of_lookup_2|..|done].
  - apply (free_in_bounds _ _ _ p Hbs), Hf. lia.
  - pose proof (free_in_bounds _ _ _ (p + n - 1) Hbs (Hf (p + n - 1) ltac:(lia))). lia.
Qed.

Lemma lmm_alloc_ok s nss size flags :
  lmm_ok s nss → 0 < size ≤ W32 - 8 →
  (lmm_alloc size flags s = Ok 0 s ∧ ∀ j, no_block s nss (up8 size) flags j) ∨
  ∃ p s' nss', lmm_alloc size flags s = Ok p s' ∧ took s nss flags p (up8 size) s' nss'.
Proof.
  intros Hok Hs. pose proof (up8_spec size) as [? ?]. unfold lmm_alloc.
  rewrite bind_assert by (apply bool_decide_true; lia). rewrite bind_get, align_up_eq by lia.
  destruct (alloc_regions_ok s nss (up8 size) flags Hok (length (regions s)) 0) as [[E Hno]|?]; [lia|done|lia| |by right].
  left. split; [done|]. intros j r ns b Hr. apply (Hno j); [|done]. apply lookup_lt_Some in Hr. lia.
Qed.
