(* ===== verification/LmmGen.v ===== *)
(** * The list memory manager: aligned allocation in a range (lmm_alloc_gen.c) *)

From S2P Require Import Prelude CString Lmm LmmInv LmmFree LmmAlloc.

(** ** The alignment loop *)
Lemma mod_pow_succ x i : 0 ≤ i → x mod 2 ^ (i + 1) = x mod 2 ^ i + 2 ^ i * Z.b2z (Z.testbit x i).
Proof.
  intros Hi. rewrite Z.pow_add_r, Z.pow_1_r by lia.
  rewrite Z.rem_mul_r, <- Z.testbit_spec' by (try apply Z.pow_nonzero; lia). lia.
Qed.

Lemma land_pow x i : 0 ≤ i → Z.land x (2 ^ i) ≠ 0 ↔ Z.testbit x i = true.
Proof.
  intros Hi. split.
  - intros H. destruct (Z.testbit x i) eqn:E; [done|]. destruct H. apply Z.bits_inj'. intros k Hk.
    rewrite Z.land_spec, Z.bits_0, Z.pow2_bits_eqb by done.
    destruct (Z.eqb_spec i k) as [<-|]; [by rewrite E|by rewrite andb_false_r].
  - intros E H. assert (Z.testbit (Z.land x (2 ^ i)) i = false) as Hf by (by rewrite H, Z.bits_0).
    rewrite Z.land_spec, E, Z.pow2_bits_true in Hf by done. done.
Qed.

(** Adding the bit makes one more low bit agree. *)
Lemma align_step addr ofs i : 0 ≤ i → addr mod 2 ^ i = ofs mod 2 ^ i →
  (addr + (if decide (Z.land (Z.lxor addr ofs) (2 ^ i) ≠ 0) then 2 ^ i else 0)) mod 2 ^ (i + 1) = ofs mod 2 ^ (i + 1).
Proof.
  intros Hi E. pose proof (Z.pow_pos_nonneg 2 i ltac:(lia) Hi) as Hpos. rewrite (mod_pow_succ ofs i), <- E by done.
  pose proof (mod_pow_succ addr i Hi) as Ha. rewrite Z.pow_add_r, Z.pow_1_r in * by lia.
  pose proof (Z.mod_pos_bound addr (2 ^ i) ltac:(lia)).
  pose proof (Z.div_mod addr (2 ^ i * 2) ltac:(lia)) as Hd.
  assert (Z.testbit (Z.lxor addr ofs) i = xorb (Z.testbit addr i) (Z.testbit ofs i)) as Hx by apply Z.lxor_spec.
  case_decide as Hx0.
  - apply land_pow in Hx0; [|done]. rewrite Hx in Hx0.
    destruct (Z.testbit addr i), (Z.testbit ofs i); try done; cbn [Z.b2z] in *.
    + symmetry. apply (Z.mod_unique _ _ (addr / (2 ^ i * 2) + 1)); lia.
    + symmetry. apply (Z.mod_unique _ _ (addr / (2 ^ i * 2))); lia.
  - rewrite Z.add_0_r, Ha. assert (xorb (Z.testbit addr i) (Z.testbit ofs i) ≠ true) as Hne.
    { rewrite <- Hx. intros Ht. by apply land_pow in Ht. }
    destruct (Z.testbit addr i), (Z.testbit ofs i); cbn in *; done.
Qed.

Lemma align_loop_ok n i addr ofs :
  0 ≤ i → i + Z.of_nat n ≤ 32 → 0 ≤ addr → addr mod 2 ^ i = ofs mod 2 ^ i →
  addr + 2 ^ (i + Z.of_nat n) - 2 ^ i < W32 →
  align_loop n i addr ofs mod 2 ^ (i + Z.of_nat n) = ofs mod 2 ^ (i + Z.of_nat n) ∧
  addr ≤ align_loop n i addr ofs ≤ addr + 2 ^ (i + Z.of_nat n) - 2 ^ i.
Proof.
  revert i addr. induction n as [|n IH]; intros i addr Hi Hn Ha Hm Hw.
  { cbn [align_loop]. rewrite Z.add_0_r. lia. }
  pose proof (Z.pow_pos_nonneg 2 i ltac:(lia) Hi).
  assert (2 ^ (i + 1) = 2 * 2 ^ i) as Hp by (rewrite Z.pow_add_r; lia).
  replace (i + Z.of_nat (S n)) with (i + 1 + Z.of_nat n) in * by lia.
  assert (2 ^ (i + 1) ≤ 2 ^ (i + 1 + Z.of_nat n)) by (apply Z.pow_le_mono_r; lia).
  cbn [align_loop]. rewrite Z.shiftl_mul_pow2, Z.mul_1_l by done.
  assert (2 ^ i < W32) by (change W32 with (2 ^ 32); apply Z.pow_lt_mono_r; lia).
  rewrite (u32_small (2 ^ i)) by (unfold word; lia).
  set (a := if decide _ then _ else _).
  assert (a = addr + (if decide (Z.land (Z.lxor addr ofs) (2 ^ i) ≠ 0) then 2 ^ i else 0)) as Ea.
  { unfold a. case_decide; [|lia]. apply u32_small. unfold word. lia. }
  assert (addr ≤ a ≤ addr + 2 ^ i) by (rewrite Ea; case_decide; lia).
  destruct (IH (i + 1) a) as [Hr1 Hr2]; [lia|lia|lia| |lia|lia].
  rewrite Ea. by apply align_step.
Qed.

(** ** Chunks that fit *)
Section gen.
Context (size align_bits align_ofs in_min in_max : Z).
Hypothesis Hbits : 0 ≤ align_bits ≤ 31.
Hypothesis Hsize : 0 < size.
Hypothesis Hin : 0 ≤ in_min.
Hypothesis Hroom : in_min + size + 2 ^ align_bits ≤ W32.

(** An aligned chunk at [p] in the block [b] and in the range. *)
Record fits (p : Z) (b : block) : Prop := {
  ft_lo : b.1 ≤ p;
  ft_hi : p + size ≤ b.1 + b.2;
  ft_min : in_min ≤ p;
  ft_max : p + size ≤ in_max;
  ft_align : p mod 2 ^ align_bits = align_ofs mod 2 ^ align_bits;
}.

Definition chunk (b : block) : Z := chunk_addr b.1 in_min align_bits align_ofs.

Lemma chunk_ok b : 0 < b.1 → b.1 + 2 ^ align_bits ≤ W32 →
  chunk b mod 2 ^ align_bits = align_ofs mod 2 ^ align_bits ∧ b.1 ≤ chunk b ∧ in_min ≤ chunk b ∧
  (b.1 + 2 ^ align_bits > chunk b ∨ in_min + 2 ^ align_bits > chunk b) ∧
  (∀ p, b.1 ≤ p → in_min ≤ p → p mod 2 ^ align_bits = align_ofs mod 2 ^ align_bits → chunk b ≤ p).
Proof using Hbits Hin Hroom Hsize.
  intros Hb Hw. unfold chunk, chunk_addr. pose proof (Z.pow_pos_nonneg 2 align_bits ltac:(lia) ltac:(lia)).
  set (a := if decide (b.1 < in_min) then in_min else b.1).
  assert (b.1 ≤ a ∧ in_min ≤ a ∧ 0 ≤ a ∧ (a = b.1 ∨ a = in_min)) as (? & ? & ? & Ha).
  { unfold a. case_decide; lia. }
  destruct (align_loop_ok (Z.to_nat align_bits) 0 a align_ofs) as [E ?]; rewrite ?Z2Nat.id, ?Z.add_0_l, ?Z.pow_0_r, ?Z.mod_1_r in *; try lia.
  split_and!; try done; try lia. intros p Hp1 Hp2 Hp.
  destruct (decide (align_loop (Z.to_nat align_bits) 0 a align_ofs ≤ p)); [done|].
  assert (a ≤ p) by (unfold a; case_decide; lia). rewrite <- E in Hp.
  set (c := align_loop _ _ _ _) in *. remember (2 ^ align_bits) as N eqn:EN. clear EN.
  pose proof (Z.div_mod p N ltac:(lia)). pose proof (Z.div_mod c N ltac:(lia)).
  clearbody c a. assert (N * (c / N - p / N) = c - p) as Hcp by lia.
  destruct (decide (c / N - p / N ≤ 0)); nia.
Qed.

(** What the tests of the loop say of a block. *)
Lemma skip_iff b hi : block_ok b → b.1 + b.2 ≤ hi → hi ≤ W32 - 8 → b.1 + 2 ^ align_bits ≤ W32 →
  (b.2 < size ∨ b.2 < u32 (u32 (chunk b - b.1) + size)) ↔ b.1 + b.2 < chunk b + size.
Proof using Hbits Hin Hroom Hsize.
  intros (? & _ & ? & _) ? ? Hw. destruct (chunk_ok b) as (_ & ? & _ & ? & _); [done|done|].
  rewrite (u32_small (chunk b - b.1)), u32_small by (unfold word; lia). lia.
Qed.

Lemma fits_chunk p b : block_ok b → b.1 + 2 ^ align_bits ≤ W32 → fits p b → chunk b ≤ p ∧ fits (chunk b) b.
Proof using Hbits Hin Hroom Hsize.
  intros (? & _) Hw [? ? ? ? ?]. destruct (chunk_ok b) as (? & ? & ? & _ & Hmin); [done|done|].
  assert (chunk b ≤ p) by (by apply Hmin). split; [done|]. split; try done; lia.
Qed.
End gen.

(** ** Carving a chunk out of a node *)
Lemma ext_in_block p size b : block_ok b → b.1 ≤ p → p + size ≤ b.1 + b.2 → 0 < size →
  b.1 ≤ ext_lo p ∧ ext_lo p + ext_len p size ≤ b.1 + b.2 ∧ ext_lo p mod 8 = 0 ∧ 0 < ext_len p size ∧
  ext_len p size mod 8 = 0 ∧ size ≤ ext_len p size.
Proof. unfold block_ok, ext_lo, ext_len, up8. intros (? & ? & ? & ?) ? ? ?. split_and!; dlia. Qed.

(** The node split at [anode]; the link to the second half is not written. *)
Lemma split_node m anode b q : word q → block_ok b → b.1 + b.2 < W32 → b.1 < anode → anode + 8 ≤ b.1 + b.2 →
  anode mod 8 = 0 → ldw m b.1 = Some q →
  let m' := stw (stw (stw m anode q) (anode + 4) (b.2 - (anode - b.1))) (b.1 + 4) (anode - b.1) in
  ldw m' b.1 = Some q ∧ ldw m' (b.1 + 4) = Some (anode - b.1) ∧
  ldw m' anode = Some q ∧ ldw m' (anode + 4) = Some (b.2 - (anode - b.1)) ∧
  (∀ x, ¬ in_block x b → m' !! x = m !! x).
Proof.
  intros Hq (? & ? & ? & ?) ? ? ? ? Hb m'. unfold m'.
  assert (b.1 + 8 ≤ anode) by dlia. split_and!.
  - by rewrite !ldw_stw_ne by lia.
  - rewrite ldw_stw; [done|unfold word; lia].
  - by rewrite !ldw_stw_ne, ldw_stw by (done || lia).
  - rewrite ldw_stw_ne, ldw_stw by (unfold word; lia). done.
  - unfold in_block. intros x Hx. by rewrite !stw_other by lia.
Qed.

Section carve.
Context (s : lmm) (nss : list (list block)) (i : nat) (r : lmm_region) (ns : list block).
Hypothesis Hok : lmm_ok s nss.
Hypothesis Hi : regions s !! i = Some r.
Hypothesis Hns : nss !! i = Some ns.
Context (pre post : list block) (b : block) (p size flags : Z).
Hypothesis E : ns = pre ++ b :: post.
Hypothesis Hfl : lacks flags r = false.
Hypothesis Hp : b.1 ≤ p.
Hypothesis Hpe : p + size ≤ b.1 + b.2.
Hypothesis Hsize : 0 < size.
Context (anode n : Z).
Hypothesis Ea : anode = ext_lo p.
Hypothesis El : n = ext_len p size.

Lemma anode_ok : block_ok b → b.1 ≤ anode ∧ anode + n ≤ b.1 + b.2 ∧ anode mod 8 = 0 ∧ 0 < n ∧ n mod 8 = 0 ∧ size ≤ n.
Proof using All. rewrite Ea, El. intros. by apply ext_in_block. Qed.

(** The chunk starts inside the node. *)
Lemma split_took : b.1 < anode →
  ∃ s' nss', (nn ← node_next b.1; set_node_next anode nn ;; nsize ← node_size b.1;
      set_node_size anode (u32 (nsize - (anode - b.1))) ;; set_node_size b.1 (anode - b.1) ;;
      take_head i (Some b.1) anode n) s = Ok tt s' ∧ took s nss flags anode n s' nss'.
Proof using All.
  intros Hlt. destruct (region_of s nss i r _ Hok Hi Hns) as [(En & Hnd & Hbs & Et) (Hb1 & Hb2 & Hb3 & Hb4 & _)].
  destruct (free_count s nss i r ns Hok Hi Hns pre b post E) as [? ?]. rewrite E in Hbs, Hnd, En.
  pose proof (proj1 (blocks_ok_mid _ _ _ _ _) Hbs) as (Hpre & Hlo & Hb & Hhi & Hpost). pose proof Hb as (? & ? & ? & ?).
  destruct (anode_ok Hb) as (? & ? & ? & ? & ? & ?).
  rewrite (bind_ok _ _ _ _ _ (node_next_ok s _ _ _ _ Hnd)).
  apply nodes_app in Hnd as (Hnd1 & Hnext & Hbsize & Hnd2). rewrite first_app in En.
  assert (word (first post 0)) by (by eapply first_word).
  unfold set_node_next, set_node_size, store. rewrite bind_modify.
  rewrite (bind_ok _ _ _ b.2 (mk_lmm (stw (mem s) anode (first post 0)) (regions s))).
  2:{ apply node_size_at; [|unfold word; lia]. rewrite ldw_stw_ne; [done|]. dlia. }
  rewrite !bind_modify. cbn [mem regions]. rewrite !u32_small by (unfold word; dlia).
  destruct (split_node (mem s) anode b (first post 0)) as (Hf1 & Hf2 & Hf3 & Hf4 & Hf5); try done; [lia|dlia|].
  set (m1 := stw (stw _ _ _) _ _) in *.
  destruct (take_head_ok m1 (regions s) i r (r_min r) (r_max r) (pre ++ [(b.1, anode - b.1)]) post
    (anode, b.2 - (anode - b.1)) (first post 0)) with (n := n) as (m' & r' & Et' & -> & Hn' & Hm'); try done; cbn; try lia.
  { apply blocks_ok_mid. cbn. unfold block_ok. cbn. split_and!; try done; try lia. dlia. }
  { unfold block_ok. cbn. split_and!; try lia. dlia. }
  { by replace (anode + (b.2 - (anode - b.1)) + 1) with (b.1 + b.2 + 1) by lia. }
  { apply nodes_app. cbn. split_and!; try done. apply (nodes_agree (mem s)); [|done].
    intros c x Hc Hx. apply Hf5. unfold in_block. destruct (blocks_ok_elem _ _ _ _ Hpre Hc) as (? & ?%block_ok_8 & ?). lia. }
  { split_and!; try done. apply (nodes_agree (mem s)); [|done].
    intros c x Hc Hx. apply Hf5. unfold in_block. destruct (blocks_ok_elem _ _ _ _ Hpost Hc) as (? & _). lia. }
  { rewrite En. by destruct pre. }
  rewrite <- app_assoc in Hn', Et'. unfold slot in Et'. rewrite last_snoc in Et'. cbn [fmap option_fmap option_map fst] in Et', Hn'. rewrite Et'.
  assert ([(b.1, anode - b.1)] ++ cut (anode, b.2 - (anode - b.1)) anode n ++ post = cut b anode n ++ post) as Ec.
  { unfold cut. cbn. rewrite decide_False, (decide_True (P := b.1 < anode)) by lia. cbn. f_equal.
    by replace (anode + (b.2 - (anode - b.1))) with (b.1 + b.2) by lia. }
  rewrite Ec in Hn' |- *. eexists _, _. split; [done|]. eapply took_intro; try done.
  - rewrite E. apply cut_taken; done || lia.
  - rewrite E. intros x Hx. rewrite Hm'; [apply Hf5|]; revert Hx.
    all: rewrite ?free_in_app, ?free_in_cons; unfold in_block; cbn; pose proof (free_in_nil x); intuition lia.
Qed.

Lemma carve_chunk_took : word p →
  ∃ s' nss', carve_chunk i (slot pre) b.1 p size s = Ok tt s' ∧ took s nss flags anode n s' nss'.
Proof using All.
  intros Hw. destruct (region_of s nss i r _ Hok Hi Hns) as [(_ & _ & Hbs & _) (? & ? & _)]. rewrite E in Hbs.
  pose proof (proj1 (blocks_ok_mid _ _ _ _ _) Hbs) as (_ & Hlo & Hb & Hhi & _). pose proof Hb as (? & ? & ? & ?).
  destruct (anode_ok Hb) as (? & ? & ? & ? & ? & ?).
  unfold carve_chunk. rewrite land_7, align_down_eq, align_up_eq by (done || (unfold ext_lo, ext_len, up8 in *; dlia)).
  change (p - p mod 8) with (ext_lo p). change (up8 (p mod 8 + size)) with (ext_len p size). rewrite <- Ea, <- El.
  rewrite bind_assert by (apply bool_decide_true; lia). case_decide.
  - rewrite u32_small by (unfold word; lia).
    destruct split_took as (s' & nss' & Es & Ht); [done|]. exists s', nss'. split; [|done].
    rewrite <- Es, bind_assoc, bind_assert by (rewrite land_7; apply bool_decide_true; dlia).
    rewrite !bind_assoc. unfold mbind, M_bind. destruct (node_next b.1 s) as [nn s1|]; [|done].
    destruct (set_node_next anode nn s1) as [[] s2|]; [|done]. destruct (node_size b.1 s2) as [ns2 s3|]; [|done].
    destruct (set_node_size anode _ s3) as [[] s4|]; [|done]. by destruct (set_node_size b.1 _ s4) as [[] s5|].
  - rewrite bind_mret. replace anode with b.1 by lia. eapply take_head_took; try done. lia.
Qed.
End carve.

(** ** The loops *)
Section gen_region.
Context (s : lmm) (nss : list (list block)) (size flags align_bits align_ofs in_min in_max : Z).
Hypothesis Hok : lmm_ok s nss.
Hypothesis Hbits : 0 ≤ align_bits ≤ 31.
Hypothesis Hsize : 0 < size.
Hypothesis Hin : 0 ≤ in_min.
Hypothesis Hroom : in_min + size + 2 ^ align_bits ≤ W32.
(** No free block is so high that aligning its address would wrap around. *)
Hypothesis Hwrap : ∀ ns b, ns ∈ nss → b ∈ ns → b.1 + 2 ^ align_bits ≤ W32.

Abbreviation fits := (LmmGen.fits size align_bits align_ofs in_min in_max).
Abbreviation chunk := (LmmGen.chunk align_bits align_ofs in_min).

Section one_region.
Context (i : nat) (r : lmm_region) (ns : list block).
Hypothesis Hi : regions s !! i = Some r.
Hypothesis Hns : nss !! i = Some ns.

Lemma gen_nodes_ok rest : ∀ pre n,
  ns = pre ++ rest → (length rest < n)%nat →
  (gen_nodes n i r size align_bits align_ofs in_min in_max (slot pre) s = Ok None s ∧ ∀ b p, b ∈ rest → ¬ fits p b) ∨
  ∃ rest1 b rest2 p, rest = rest1 ++ b :: rest2 ∧ fits p b ∧
    gen_nodes n i r size align_bits align_ofs in_min in_max (slot pre) s =
    (carve_chunk i (slot (pre ++ rest1)) b.1 p size ;; mret (Some p)) s.
Proof using All.
  destruct (region_of s nss i r _ Hok Hi Hns) as [(En & Hnd & Hbs & Et) (Hb1 & Hb2 & Hb3 & Hb4 & _)].
  assert (∀ b, b ∈ ns → b.1 + 2 ^ align_bits ≤ W32) as Hwr by (intros b; by eapply Hwrap, list_elem_of_lookup_2).
  induction rest as [|b rest IH]; intros pre [|n] E Hlt; cbn in Hlt; try lia; cbn [gen_nodes]; subst ns.
  { left. rewrite app_nil_r in *. rewrite (bind_ok _ _ _ _ _ (get_ptr_ok s i r pre 0 Hi En Hnd)).
    rewrite decide_True by done. split; [done|]. by intros b p ?%elem_of_nil. }
  specialize (Hwr b ltac:(set_solver)).
  pose proof Hnd as Hnd'. apply nodes_app in Hnd' as [Hpre _]. rewrite first_app in En.
  rewrite (bind_ok _ _ _ _ _ (get_ptr_ok s i r pre b.1 Hi En Hpre)).
  pose proof (proj1 (blocks_ok_mid _ _ _ _ _) Hbs) as (_ & _ & Hb & Hhi & Hrest). rewrite decide_False by (destruct Hb; lia).
  rewrite (bind_ok _ _ _ _ _ (node_size_ok _ _ _ _ _ _ _ Hb2 Hbs Hnd)).
  rewrite (bind_ok _ _ _ _ _ (node_next_ok _ _ _ _ _ Hnd)).
  rewrite bind_assert by (by eapply node_check_ok).
  pose proof (skip_iff size align_bits align_ofs in_min Hbits Hsize Hin Hroom b _ Hb Hhi Hb2 Hwr) as Hskip.
  change (chunk_addr b.1 in_min align_bits align_ofs) with (chunk b).
  set (next := gen_nodes n _ _ _ _ _ _ _ _).
  assert (b.1 + b.2 < chunk b + size → (next s = Ok None s ∧ ∀ c p, c ∈ b :: rest → ¬ fits p c) ∨
    ∃ rest1 c rest2 p, b :: rest = rest1 ++ c :: rest2 ∧ fits p c ∧
      next s = (carve_chunk i (slot (pre ++ rest1)) c.1 p size ;; mret (Some p)) s) as Hnext.
  { intros Hno. unfold next. replace (Some b.1) with (slot (pre ++ [b])) by (unfold slot; by rewrite last_snoc).
    destruct (IH (pre ++ [b]) n) as [[E Hs]|(r1 & c & r2 & p & -> & Hc & E)]; [by rewrite <- app_assoc|lia|left|right].
    - split; [done|]. intros c p [->|Hc]%elem_of_cons Hp; [|by eapply Hs].
      destruct (fits_chunk _ _ _ _ _ Hbits Hsize Hin Hroom p b Hb Hwr Hp) as [_ [? ? ? ? ?]]. lia.
    - exists (b :: r1), c, r2, p. split_and!; [done|done|]. by rewrite E, <- app_assoc. }
  destruct (decide (b.2 < size)); [by apply Hnext; tauto|].
  destruct (decide (b.2 < u32 _)); [by apply Hnext; tauto|].
  assert (chunk b + size ≤ b.1 + b.2) by (destruct Hskip as [? ?]; lia).
  destruct (chunk_ok size align_bits align_ofs in_min Hbits Hsize Hin Hroom b ltac:(destruct Hb; lia) Hwr) as (? & ? & ? & _ & Hmin).
  rewrite (u32_small (chunk b + size)) by (unfold word; lia). case_decide.
  - left. split; [done|]. intros c p Hc [? ? ? ? ?]. assert (chunk b ≤ p); [|lia].
    apply elem_of_cons in Hc as [->|Hc]; [by apply Hmin|]. destruct (blocks_ok_elem _ _ _ _ Hrest Hc) as (? & _). lia.
  - right. exists [], b, rest, (chunk b). rewrite app_nil_r. split_and!; [done| |done]. split; done || lia.
Qed.
End one_region.

(** No chunk fits in the region. *)
Definition no_chunk (j : nat) : Prop :=
  ∀ r ns b p, regions s !! j = Some r → nss !! j = Some ns → lacks flags r = false → b ∈ ns → ¬ fits p b.

Lemma gen_regions_ok k j : (j + k = length (regions s))%nat →
  (gen_regions k j size flags align_bits align_ofs in_min in_max s = Ok 0 s ∧
   ∀ j', (j ≤ j' < length (regions s))%nat → no_chunk j') ∨
  ∃ p b s' nss', gen_regions k j size flags align_bits align_ofs in_min in_max s = Ok p s' ∧
    fits p b ∧ 0 < b.1 ∧ took s nss flags (ext_lo p) (ext_len p size) s' nss'.
Proof using All.
  revert j. induction k as [|k IH]; intros j Hj; cbn [gen_regions].
  { left. split; [done|]. intros j' ?. lia. }
  destruct (region_at s nss Hok j) as (r & ns & Hr & Hns & Er & Hchk); [lia|].
  destruct (region_of s nss j r ns Hok Hr Hns) as [(_ & _ & Hbs & _) (? & ? & _)].
  rewrite (bind_ok _ _ _ _ _ Er), bind_assert by done.
  assert (no_chunk j → gen_regions k (S j) size flags align_bits align_ofs in_min in_max s = Ok 0 s ∧
   (∀ j', (j ≤ j' < length (regions s))%nat → no_chunk j') ∨
   ∃ p b s' nss', gen_regions k (S j) size flags align_bits align_ofs in_min in_max s = Ok p s' ∧
    fits p b ∧ 0 < b.1 ∧ took s nss flags (ext_lo p) (ext_len p size) s' nss') as Hnext.
  { intros Hj0. destruct (IH (S j)) as [[E Hno]|?]; [lia|left|by right].
    split; [done|]. intros j' ?. destruct (decide (j' = j)) as [->|]; [done|apply Hno; lia]. }
  destruct (lacks flags r || _ || _) eqn:Hl.
  { apply Hnext. intros r' ns' b p ? ? Hl' Hb [? ? ? ? ?]. simplify_eq. rewrite Hl' in Hl. cbn in Hl.
    destruct (blocks_ok_elem _ _ _ _ Hbs Hb) as (? & _ & ?).
    apply orb_true_iff in Hl as [?%bool_decide_eq_true|?%bool_decide_eq_true]; lia. }
  apply orb_false_iff in Hl as [[Hl _]%orb_false_iff _].
  unfold fuel. rewrite bind_gets. pose proof (fuel_enough s nss Hok j r ns Hr Hns).
  destruct (gen_nodes_ok j r ns Hr Hns ns [] (S (base.size (mem s))))
    as [[E Hsmall]|(l1 & b & l2 & p & El & Hp & E)]; [done|done|..].
  - change (slot []) with (@None Z) in E. rewrite (bind_ok _ _ _ _ _ E). apply Hnext.
    intros r' ns' b p ? ? ? ?. simplify_eq. by apply Hsmall.
  - right. rewrite El in Hbs. apply blocks_ok_mid in Hbs as (_ & _ & Hb & ? & _). pose proof Hb as (? & _). pose proof Hp as [? ? ? ? ?].
    destruct (carve_chunk_took s nss j r ns Hok Hr Hns l1 l2 b p size flags) with (anode := ext_lo p) (n := ext_len p size)
      as (s' & nss' & Ec & Ht); try done; [unfold word; lia|].
    exists p, b, s', nss'. split_and!; try done. change (slot []) with (@None Z) in E. cbn [app] in E.
    rewrite (bind_ok _ _ _ (Some p) s'); [done|]. rewrite E. by rewrite (bind_ok _ _ _ _ _ Ec).
Qed.
End gen_region.

(** [lmm_alloc_gen] gives out the chunk it is asked for, or there is none. *)
Lemma lmm_alloc_gen_ok s nss size flags align_bits align_ofs in_min in_size :
  lmm_ok s nss → 0 ≤ align_bits ≤ 31 → 0 < size → 0 ≤ in_min → in_min + size + 2 ^ align_bits ≤ W32 →
  (∀ ns b, ns ∈ nss → b ∈ ns → b.1 + 2 ^ align_bits ≤ W32) →
  let in_max := u32 (in_min + in_size) in
  (lmm_alloc_gen size flags align_bits align_ofs in_min in_size s = Ok 0 s ∧
   ∀ j, no_chunk s nss size flags align_bits align_ofs in_min in_max j) ∨
  ∃ p b s' nss', lmm_alloc_gen size flags align_bits align_ofs in_min in_size s = Ok p s' ∧
    fits size align_bits align_ofs in_min in_max p b ∧ 0 < b.1 ∧ took s nss flags (ext_lo p) (ext_len p size) s' nss'.
Proof.
  intros Hok Hbits Hs Hin Hroom Hwrap in_max. unfold lmm_alloc_gen. rewrite bind_assert by (apply bool_decide_true; lia).
  rewrite bind_get. fold in_max.
  destruct (gen_regions_ok s nss size flags align_bits align_ofs in_min in_max Hok Hbits Hs Hin Hroom Hwrap (length (regions s)) 0)
    as [[E Hno]|?]; [lia|left|by right].
  split; [done|]. intros j r ns b p Hr. apply (Hno j); [|done]. apply lookup_lt_Some in Hr. lia.
Qed.
