(* ===== verification/LmmHeap.v ===== *)
(** * The heap as a set of free bytes

    The operations of the allocator as seen by its clients: [heap_free nss] is
    the set of free bytes, [carve nss nss' p n] says that the [n] bytes at [p]
    left it.  Freeing is the inverse of allocating, and because the free lists
    have one form for each set of free bytes, freeing a block restores them. *)

From S2P Require Import Prelude CString Lmm LmmInv LmmFree LmmAlloc LmmGen.

Definition carve (nss nss' : list (list block)) (p n : Z) : Prop :=
  (∀ x, heap_free nss x ↔ heap_free nss' x ∨ p ≤ x < p + n) ∧ (∀ x, p ≤ x < p + n → ¬ heap_free nss' x).

(** An operation that takes the bytes from [p] to [p + n] out of the heap. *)
Record takes (s : lmm) (nss : list (list block)) (p n : Z) (s' : lmm) (nss' : list (list block)) : Prop := {
  tks_ok : lmm_ok s' nss';
  tks_carve : carve nss nss' p n;
  tks_mem x : ¬ heap_free nss x → mem s' !! x = mem s !! x;
  tks_meta : meta <$> regions s' = meta <$> regions s;
  tks_at : 0 < p ∧ p mod 8 = 0;
}.

(** The block lies in one region. *)
Definition in_region (s : lmm) (p n : Z) : Prop := ∃ r, r ∈ regions s ∧ r_min r ≤ p ∧ p + n ≤ r_max r.

Lemma in_region_word s nss p n : lmm_ok s nss → in_region s p n → 0 ≤ p ∧ p + n ≤ W32 - 8.
Proof.
  intros Hok (r & (j & Hr)%list_elem_of_lookup & ? & ?). destruct (lmm_ok_region s nss j r Hok Hr) as (_ & _ & _ & ? & ? & _). lia.
Qed.

(** ** One region and the others *)
Definition elsewhere (nss : list (list block)) (j : nat) (x : Z) : Prop :=
  ∃ k l, k ≠ j ∧ nss !! k = Some l ∧ free_in l x.

Lemma heap_free_insert nss j ns x : (j < length nss)%nat → heap_free (<[j := ns]> nss) x ↔ free_in ns x ∨ elsewhere nss j x.
Proof.
  intros Hj. unfold heap_free, elsewhere. setoid_rewrite list_elem_of_lookup. split.
  - intros (l & (k & Hk) & Hx). destruct (decide (k = j)) as [->|].
    + rewrite list_lookup_insert_eq in Hk by done. naive_solver.
    + rewrite list_lookup_insert_ne in Hk by done. right. naive_solver.
  - intros [Hx|(k & l & Hne & Hk & Hx)].
    + exists ns. split; [|done]. exists j. by apply list_lookup_insert_eq.
    + exists l. split; [|done]. exists k. by rewrite list_lookup_insert_ne.
Qed.

Lemma heap_free_at nss j ns x : nss !! j = Some ns → heap_free nss x ↔ free_in ns x ∨ elsewhere nss j x.
Proof. intros Hj. rewrite <- (heap_free_insert nss j ns x), list_insert_id by (done || by eapply lookup_lt_Some). done. Qed.

Lemma elsewhere_outside s nss j r x : lmm_ok s nss → regions s !! j = Some r → elsewhere nss j x → ¬ (r_min r ≤ x < r_max r).
Proof.
  intros Hok Hr (k & l & Hne & Hl & Hx).
  destruct (Forall2_lookup_r _ _ _ _ _ (lk_regions _ _ Hok) Hl) as (r' & Hr' & _ & _ & Hb & _).
  apply (free_in_bounds _ _ _ _ Hb) in Hx. destruct (lk_disjoint _ _ Hok k j r' r); done || lia.
Qed.

Lemma free_in_region s nss j r ns x :
  lmm_ok s nss → regions s !! j = Some r → nss !! j = Some ns →
  free_in ns x ↔ heap_free nss x ∧ r_min r ≤ x < r_max r.
Proof.
  intros Hok Hr Hns. destruct (region_of s nss j r ns Hok Hr Hns) as [(_ & _ & Hb & _) _]. split.
  - intros Hx. split; [|by eapply free_in_bounds]. apply (heap_free_at nss j ns); [done|by left].
  - intros [[Hx|Hx]%(heap_free_at nss j ns) Hr']; [done| |done]. by destruct (elsewhere_outside s nss j r x).
Qed.

(** ** Allocation and freeing as sets *)
Lemma took_takes s nss flags p n s' nss' :
  lmm_ok s nss → took s nss flags p n s' nss' → 0 < n → takes s nss p n s' nss' ∧ in_region s p n.
Proof.
  intros Hok Ht Hn. destruct (took_pos _ _ _ _ _ _ _ Ht Hok Hn) as (r0 & _ & Hr0 & _ & ? & ? & _).
  split; [|by exists r0]. destruct Ht as (j & r & ns & ns' & Hr & Hns & _ & -> & Hok' & [Hbs' _ Hfree Hgone Hat] & Hm & Hmeta).
  destruct (region_of s nss j r ns Hok Hr Hns) as [(_ & _ & Hbs & _) _]. pose proof (lookup_lt_Some _ _ _ Hns).
  split; [done| | |done|done].
  - split; intros x.
    + rewrite (heap_free_at nss j ns), heap_free_insert, Hfree by done. tauto.
    + intros Hx. rewrite heap_free_insert by done. intros [Hf|Hf]; [by eapply Hgone|].
      apply (elsewhere_outside s nss j r) in Hf; [|done|done].
      pose proof (free_in_bounds _ _ _ x Hbs). naive_solver.
  - intros x Hx. apply Hm. intros Hf. apply Hx, (heap_free_at nss j ns); [done|by left].
Qed.

Lemma lmm_free_takes s nss blk size :
  lmm_ok s nss → word blk → 0 < size → 0 < ext_lo blk → in_region s (ext_lo blk) (ext_len blk size) →
  (∀ x, ext_lo blk ≤ x < ext_lo blk + ext_len blk size → ¬ heap_free nss x) →
  ∃ s' nss', lmm_free blk size s = Ok tt s' ∧ lmm_ok s' nss' ∧ carve nss' nss (ext_lo blk) (ext_len blk size) ∧
    (∀ x, ¬ heap_free nss' x → mem s' !! x = mem s !! x) ∧ meta <$> regions s' = meta <$> regions s.
Proof.
  intros Hok Hw Hs Hpos (r & (j & Hr)%list_elem_of_lookup & Hmin & Hmax) Hnf.
  destruct (lmm_ok_region s nss j r Hok Hr) as (ns & Hns & _ & _). pose proof (lookup_lt_Some _ _ _ Hns).
  destruct (lmm_free_ok s nss j r ns Hok Hr Hns blk size) as (s' & ns' & E & Hok' & [_ _ Hfree] & Hm & Hmeta); try done.
  { intros x Hx Hin. apply (Hnf x Hin), (heap_free_at nss j ns); [done|by left]. }
  exists s', (<[j := ns']> nss). split_and!; try done.
  - split; [|done]. intros x. rewrite heap_free_insert, (heap_free_at nss j ns), Hfree by done. tauto.
  - intros x Hx. apply Hm. intros Hf. apply Hx, heap_free_insert; [done|by left].
Qed.

Lemma meta_lookup (rs rs' : list lmm_region) j r :
  meta <$> rs' = meta <$> rs → rs !! j = Some r → ∃ r', rs' !! j = Some r' ∧ meta r' = meta r.
Proof.
  intros E Hr. pose proof (f_equal (.!! j) E) as Ej. rewrite !list_lookup_fmap, Hr in Ej.
  destruct (rs' !! j) as [r'|]; [|done]. exists r'. split; [done|]. by apply (inj Some) in Ej.
Qed.

(** Equal sets of free bytes have equal free lists. *)
Lemma lmm_ok_canonical s s' nss nss' :
  lmm_ok s nss → lmm_ok s' nss' → meta <$> regions s' = meta <$> regions s →
  (∀ x, heap_free nss x ↔ heap_free nss' x) → nss = nss' ∧ regions s = regions s'.
Proof.
  intros Hok Hok' Hmeta Hx.
  assert (∀ j r, regions s !! j = Some r → ∃ r', regions s' !! j = Some r' ∧ meta r' = meta r) as Hreg
    by (intros j r; by apply meta_lookup).
  assert (∀ j r r' ns ns', regions s !! j = Some r → regions s' !! j = Some r' → nss !! j = Some ns → nss' !! j = Some ns' →
    meta r' = meta r → ns = ns' ∧ r = r') as Hone.
  { intros j r r' ns ns' Hr Hr' Hns Hns' E. pose proof (meta_inv _ _ E) as (E1 & E2 & E3 & E4 & E5).
    destruct (region_of s nss j r ns Hok Hr Hns) as [(H1 & _ & Hb & H2) _].
    destruct (region_of s' nss' j r' ns' Hok' Hr' Hns') as [(H1' & _ & Hb' & H2') _]. rewrite E2, E3 in Hb'.
    assert (ns = ns') as <-.
    { apply (blocks_ok_canonical _ _ _ _ Hb Hb'). intros x. rewrite (free_in_region s nss j r), (free_in_region s' nss' j r') by done.
      by rewrite Hx, E2, E3. }
    split; [done|]. destruct r, r'. cbn in *. congruence. }
  assert (length (regions s') = length (regions s)) as Hl by (rewrite <- !(length_fmap meta); by rewrite Hmeta).
  pose proof (Forall2_length _ _ _ (lk_regions _ _ Hok)). pose proof (Forall2_length _ _ _ (lk_regions _ _ Hok')).
  split; apply list_eq; intros j.
  - destruct (nss !! j) as [ns|] eqn:Hns.
    + destruct (Forall2_lookup_r _ _ _ _ _ (lk_regions _ _ Hok) Hns) as (r & Hr & _). destruct (Hreg j r Hr) as (r' & Hr' & E).
      destruct (lmm_ok_region s' nss' j r' Hok' Hr') as (ns' & Hns' & _). rewrite Hns'. f_equal. by eapply Hone.
    + symmetry. apply lookup_ge_None. apply lookup_ge_None in Hns. lia.
  - destruct (regions s !! j) as [r|] eqn:Hr.
    + destruct (Hreg j r Hr) as (r' & Hr' & E). rewrite Hr'. f_equal.
      destruct (lmm_ok_region s nss j r Hok Hr) as (ns & Hns & _). destruct (lmm_ok_region s' nss' j r' Hok' Hr') as (ns' & Hns' & _).
      by eapply (Hone j r r' ns ns').
    + symmetry. apply lookup_ge_None. apply lookup_ge_None in Hr. lia.
Qed.

(** Clients may write to memory that is not free. *)
Lemma lmm_ok_write s nss m' : lmm_ok s nss → (∀ x, heap_free nss x → m' !! x = mem s !! x) → lmm_ok (mk_lmm m' (regions s)) nss.
Proof.
  intros Hok Hm. split; [|apply Hok|apply Hok]. apply Forall2_same_length_lookup. cbn.
  split; [by eapply Forall2_length, lk_regions|]. intros j r ns Hr Hns.
  destruct (region_of s nss j r ns Hok Hr Hns) as [(H1 & H2 & H3 & H4) _]. split_and!; try done.
  apply (nodes_agree (mem s)); [|done]. intros b x Hb Hx. apply Hm, (heap_free_at nss j ns); [done|left].
  exists b. split; [done|]. destruct (blocks_ok_elem _ _ _ _ H3 Hb) as (_ & ?%block_ok_8 & _). unfold in_block. lia.
Qed.

Lemma in_region_meta s s' p n : meta <$> regions s' = meta <$> regions s → in_region s p n → in_region s' p n.
Proof.
  intros E (r & (j & Hr)%list_elem_of_lookup & ? & ?). destruct (meta_lookup _ _ _ _ E Hr) as (r' & Hr' & Er).
  apply meta_inv in Er as (_ & E1 & E2 & _). exists r'. rewrite E1, E2. split; [by eapply list_elem_of_lookup_2|done].
Qed.

(** Freeing what an allocation took restores the free lists, whatever the
    client has written to the block. *)
Lemma takes_free s nss p n blk size s' nss' m :
  lmm_ok s nss → takes s nss p n s' nss' → in_region s p n → word blk → 0 < size →
  ext_lo blk = p → ext_len blk size = n → (∀ x, ¬ (p ≤ x < p + n) → m !! x = mem s' !! x) →
  ∃ s'', lmm_free blk size (mk_lmm m (regions s')) = Ok tt s'' ∧ lmm_ok s'' nss ∧ regions s'' = regions s.
Proof.
  intros Hok [Hok' Hc Hm Hmeta [Hpos _]] Hreg Hw Hs Elo Elen Hwr.
  destruct (lmm_free_takes (mk_lmm m (regions s')) nss' blk size) as (s'' & nss'' & E & Hok'' & Hc'' & _ & Hmeta''); try done.
  - apply lmm_ok_write; [done|]. intros x Hx. apply Hwr. intros Hin. by apply (proj2 Hc x).
  - by rewrite Elo.
  - rewrite Elo, Elen. by apply (in_region_meta s).
  - rewrite Elo, Elen. apply Hc.
  - destruct (lmm_ok_canonical s s'' nss nss'') as [-> ->]; [done|done|by rewrite Hmeta''| |by exists s''].
    intros x. destruct Hc as [Hc _], Hc'' as [Hc'' _]. rewrite Hc, Hc'', Elo, Elen. done.
Qed.
