(* ===== verification/Malloc.v ===== *)
(** * The kernel's malloc (410kern/malloc/ and kern/common/malloc_wrappers.c)

    [malloc] keeps the size of a block in the word before it; [smalloc] leaves it
    to the caller.  The functions of 410kern/malloc run on the allocator
    [malloc_lmm] of Lmm.v and its memory; the wrappers of malloc_wrappers.c run
    them while they hold the mutex of the library. *)

From S2P Require Import Prelude Locks CString Lmm.

(** ** 410kern/malloc *)
Definition _malloc (size : Z) : M lmm Z :=
  let size := u32 (size + 4) in
  chunk ← lmm_alloc size 0;
  if decide (chunk = 0) then mret 0
  else store chunk size ;; mret (u32 (chunk + 4)).

Definition _mustmalloc (size : Z) : M lmm Z :=
  buf ← _malloc size;
  kernel_assert (bool_decide (buf ≠ 0)) ;;
  mret buf.

(** [for (shift = 0; (1 << shift) < alignment; shift++);] with [n] values of
    [shift] left; a shift by 32 is not defined. *)
Fixpoint shift_loop (n : nat) (shift alignment : Z) : M lmm Z :=
  match n with
  | O => halt OutOfFuel
  | S n' => if decide (2 ^ shift < alignment) then shift_loop n' (shift + 1) alignment else mret shift
  end.

Definition alignment_shift (alignment : Z) : M lmm Z := shift_loop 32 0 alignment.

Definition _memalign (alignment size : Z) : M lmm Z :=
  shift ← alignment_shift alignment;
  let size := u32 (size + 4) in
  chunk ← lmm_alloc_aligned size 0 shift (u32 (2 ^ shift - 4));
  if decide (chunk = 0) then mret 0
  else store chunk size ;; mret (u32 (chunk + 4)).

(** [memset(ptr, 0, n)] and [memcpy(to, from, n)] of blocks that do not overlap;
    copying a byte that was never written leaves its copy unwritten. *)
Definition mem_zero (a n : Z) : M lmm unit :=
  modify (λ s, mk_lmm (foldr (λ k m, <[a + k := 0]> m) (mem s) (seqZ 0 n)) (regions s)).

Definition mem_copy (to from n : Z) : M lmm unit :=
  modify (λ s, mk_lmm (foldr (λ k m, partial_alter (λ _, mem s !! (from + k)) (to + k) m) (mem s) (seqZ 0 n))
                      (regions s)).

Definition _calloc (nelt eltsize : Z) : M lmm Z :=
  let allocsize := u32 (nelt * eltsize) in
  ptr ← _malloc allocsize;
  if decide (ptr = 0) then mret 0
  else mem_zero ptr allocsize ;; mret ptr.

Definition _mustcalloc (nelt eltsize : Z) : M lmm Z :=
  buf ← _calloc nelt eltsize;
  kernel_assert (bool_decide (buf ≠ 0)) ;;
  mret buf.

Definition _free (chunk_ptr : Z) : M lmm unit :=
  let chunk := u32 (chunk_ptr - 4) in
  size ← load chunk;
  lmm_free chunk size.

Definition _realloc (buf new_size : Z) : M lmm Z :=
  if decide (buf = 0) then _malloc new_size
  else
    let op := u32 (buf - 4) in
    old_size ← load op;
    let new_size := u32 (new_size + 4) in
    np ← lmm_alloc new_size 0;
    if decide (np = 0) then mret 0
    else
      mem_copy np op (if decide (old_size < new_size) then old_size else new_size) ;;
      lmm_free op old_size ;;
      store np new_size ;;
      mret (u32 (np + 4)).

Definition _smalloc (size : Z) : M lmm Z :=
  chunk ← lmm_alloc size 0;
  if decide (chunk = 0) then mret 0 else mret chunk.

Definition _smemalign (alignment size : Z) : M lmm Z :=
  shift ← alignment_shift alignment;
  chunk ← lmm_alloc_aligned size 0 shift 0;
  if decide (chunk = 0) then mret 0 else mret chunk.

Definition _sfree (chunk size : Z) : M lmm unit := lmm_free chunk size.

(** ** malloc_wrappers.c: the library and its mutex *)
Record malloc_lib : Type := mk_malloc_lib { lib_mutex : mutex_t; malloc_lmm : lmm }.

Definition with_mutex {A} (m : M mutex_t A) : M malloc_lib A :=
  zoom lib_mutex (λ mu l, mk_malloc_lib mu (malloc_lmm l)) m.
Definition with_lmm {A} (m : M lmm A) : M malloc_lib A :=
  zoom malloc_lmm (λ s l, mk_malloc_lib (lib_mutex l) s) m.

Definition init_thr_safe_malloc_lib : M malloc_lib unit :=
  modify (λ l, mk_malloc_lib mutex_init (malloc_lmm l)).

(** [mutex_lock(&mutex); r = f(...); mutex_unlock(&mutex);] *)
Definition locked {A} (m : M lmm A) : M malloc_lib A :=
  with_mutex mutex_lock ;;
  r ← with_lmm m;
  with_mutex mutex_unlock ;;
  mret r.

Definition malloc (size : Z) : M malloc_lib Z := locked (_malloc size).
Definition memalign (alignment size : Z) : M malloc_lib Z := locked (_memalign alignment size).
Definition calloc (nelt eltsize : Z) : M malloc_lib Z := locked (_calloc nelt eltsize).
Definition realloc (buf new_size : Z) : M malloc_lib Z := locked (_realloc buf new_size).
Definition free (buf : Z) : M malloc_lib unit := locked (_free buf).
Definition smalloc (size : Z) : M malloc_lib Z := locked (_smalloc size).
Definition smemalign (alignment size : Z) : M malloc_lib Z := locked (_smemalign alignment size).

(** [sfree] takes the mutex with the interrupt state saved, which an
    uncontended lock does not depend on. *)
Definition sfree (buf size : Z) : M malloc_lib unit := locked (_sfree buf size).
