(* ===== verification/MallocHeap.v ===== *)
(** * What the kernel's malloc promises

    Theorems about [malloc] and [free], and the interface [KernelHeap] that the
    virtual-memory code is verified against, implemented by the allocator: a
    heap is the allocator together with the blocks in use. *)

From S2P Require Import Prelude CString FrameAlloc Paging Lmm LmmInv LmmFree LmmAlloc LmmGen LmmHeap Malloc.

(** ** malloc and free *)
Lemma ext_aligned p n : p mod 8 = 0 → ext_lo p = p ∧ ext_len p n = up8 n.
Proof. intros Hp. unfold ext_lo, ext_len. rewrite Hp. split; [lia|done]. Qed.

Lemma lmm_alloc_takes s nss size flags :
  lmm_ok s nss → 0 < size ≤ W32 - 8 →
  (lmm_alloc size flags s = Ok 0 s ∧ ∀ j, no_block s nss (up8 size) flags j) ∨
  ∃ p s' nss', lmm_alloc size flags s = Ok p s' ∧ takes s nss p (up8 size) s' nss' ∧ in_region s p (up8 size).
Proof.
  intros Hok Hs. pose proof (up8_spec size) as [? ?].
  destruct (lmm_alloc_ok s nss size flags Hok Hs) as [?|(p & s' & nss' & E & Ht)]; [by left|right].
  destruct (took_takes _ _ _ _ _ _ _ Hok Ht) as [Htk Hreg]; [lia|]. by exists p, s', nss'.
Qed.

(** A store to a block in use keeps the free lists. *)
Lemma takes_store s nss p n s' nss' a v :
  takes s nss p n s' nss' → p ≤ a → a + 4 ≤ p + n → takes s nss p n (mk_lmm (stw (mem s') a v) (regions s')) nss'.
Proof.
  intros [Hok' Hc Hm Hmeta Hat] H1 H2. split; try done.
  - apply lmm_ok_write; [done|]. intros x Hx. apply stw_other. destruct (decide (p ≤ x < p + n)); [by destruct (proj2 Hc x)|lia].
  - intros x Hx. cbn. rewrite <- Hm by done. apply stw_other. destruct (decide (p ≤ x < p + n)); [destruct Hx; apply Hc; by right|lia].
Qed.

(** [n] is the size of the block with the word before it. *)
Lemma malloc_takes s nss size n :
  lmm_ok s nss → u32 (size + 4) = n → 0 < n ≤ W32 - 8 →
  (_malloc size s = Ok 0 s ∧ ∀ j, no_block s nss (up8 n) 0 j) ∨
  ∃ c s' nss', _malloc size s = Ok (c + 4) s' ∧ takes s nss c (up8 n) s' nss' ∧
    in_region s c (up8 n) ∧ ldw (mem s') c = Some n.
Proof.
  intros Hok En Hs. pose proof (up8_spec n) as [? ?]. unfold _malloc. rewrite En.
  destruct (lmm_alloc_takes s nss n 0 Hok Hs) as [[E Hno]|(p & s' & nss' & E & Ht & Hreg)];
    rewrite (bind_ok _ _ _ _ _ E).
  - left. by rewrite decide_True.
  - right. pose proof (tks_at _ _ _ _ _ _ Ht) as [? ?]. destruct (in_region_word _ _ _ _ Hok Hreg).
    rewrite decide_False by lia. unfold store. rewrite bind_modify, u32_small by (unfold word; lia).
    exists p, (mk_lmm (stw (mem s') p n) (regions s')), nss'. split_and!; [done| |done|].
    + apply takes_store; [done|lia|]. assert (up8 n mod 8 = 0) by done. dlia.
    + apply ldw_stw. unfold word. lia.
Qed.

(** C21. [malloc] then [free]: for a request that does not wrap around, [malloc]
    returns NULL and changes nothing when no region has a large enough block,
    and otherwise a block of free bytes after a word with its size; the free
    bytes are then the others, and no byte outside the free memory has changed.
    Whatever the client writes to the [size] bytes it was given, [free] returns
    and the free lists and the region structs are those before the [malloc]. *)
Theorem malloc_free_round_trip s nss size :
  lmm_ok s nss → 0 ≤ size ≤ W32 - 12 →
  (_malloc size s = Ok 0 s ∧ ∀ j, no_block s nss (up8 (size + 4)) 0 j) ∨
  ∃ p s' nss', _malloc size s = Ok p s' ∧ lmm_ok s' nss' ∧ p mod 8 = 4 ∧
    carve nss nss' (p - 4) (up8 (size + 4)) ∧ (∀ x, ¬ heap_free nss x → mem s' !! x = mem s !! x) ∧
    ∀ m, (∀ x, ¬ (p ≤ x < p + size) → m !! x = mem s' !! x) →
      ∃ s'', _free p (mk_lmm m (regions s')) = Ok tt s'' ∧ lmm_ok s'' nss ∧ regions s'' = regions s.
Proof.
  intros Hok Hs. pose proof (up8_spec (size + 4)) as [? ?].
  destruct (malloc_takes s nss size (size + 4) Hok) as [?|(c & s' & nss' & E & Ht & Hreg & Hw)];
    [apply u32_small; unfold word; lia|lia|by left|right].
  pose proof (tks_at _ _ _ _ _ _ Ht) as [? ?]. destruct (in_region_word _ _ _ _ Hok Hreg). pose proof Ht as [? ? ? ? _].
  destruct (ext_aligned c (size + 4)) as [? ?]; [done|].
  exists (c + 4), s', nss'. split_and!; try done.
  - dlia.
  - by replace (c + 4 - 4) with c by lia.
  - intros m Hm. unfold _free. replace (c + 4 - 4) with c by lia. rewrite u32_small by (unfold word; lia).
    assert (ldw m c = Some (size + 4)) as Hl by (rewrite <- Hw; apply ldw_agree; intros x Hx; apply Hm; lia).
    rewrite (bind_ok _ _ _ (size + 4) (mk_lmm m (regions s'))) by (unfold load; rewrite bind_get; by cbn; rewrite Hl).
    eapply takes_free; try done; [unfold word; lia|lia|]. intros x Hx. apply Hm. lia.
Qed.

(** C40. Sizes close to 2^32: a request for [2^32 - 4] bytes panics; a request for
    more wraps around, and when it succeeds the block has four bytes for the
    client. *)
Theorem malloc_size_wraps s nss size :
  lmm_ok s nss → W32 - 4 ≤ size < W32 →
  (size = W32 - 4 ∧ _malloc size s = Stop KernelPanic) ∨ _malloc size s = Ok 0 s ∨
  ∃ p s' nss', _malloc size s = Ok p s' ∧ lmm_ok s' nss' ∧ carve nss nss' (p - 4) 8 ∧ ldw (mem s') (p - 4) = Some (size + 4 - W32).
Proof.
  intros Hok Hs. assert (u32 (size + 4) = size + 4 - W32) as Eu.
  { unfold u32. symmetry. apply (Z.mod_unique _ _ 1); lia. }
  destruct (decide (size = W32 - 4)) as [->|Hne].
  { left. split; [done|]. unfold _malloc. rewrite Eu. done. }
  right. destruct (malloc_takes s nss size _ Hok Eu) as [[E _]|(c & s' & nss' & E & Ht & _ & Hw)]; [lia|by left|right].
  exists (c + 4), s', nss'. replace (c + 4 - 4) with c by lia. split_and!; try done; [apply Ht|].
  replace 8 with (up8 (size + 4 - W32)) by (unfold up8; dlia). apply Ht.
Qed.

(** ** smemalign *)
Lemma shift_loop_ok n (s : lmm) : ∀ shift al,
  0 ≤ shift → shift + Z.of_nat n = 32 → (0 < n)%nat → al ≤ 2 ^ 31 →
  ∃ sh, shift_loop n shift al s = Ok sh s ∧ shift ≤ sh ≤ 31 ∧ al ≤ 2 ^ sh ∧ (sh = shift ∨ 2 ^ (sh - 1) < al).
Proof.
  induction n as [|n IH]; intros shift al H0 Hn Hpos Hal; [lia|]. cbn [shift_loop]. case_decide as Hd.
  - destruct n as [|n].
    { replace shift with 31 in Hd by lia. lia. }
    destruct (IH (shift + 1) al) as (sh & E & ? & ? & Hsh); [lia|lia|lia|done|].
    exists sh. split_and!; [done|lia|lia|lia|]. right. destruct Hsh as [->|?]; [|done]. by replace (shift + 1 - 1) with shift by lia.
  - exists shift. split_and!; [done|lia|lia|lia|by left].
Qed.

Lemma smemalign_takes s nss al n :
  lmm_ok s nss → al ≤ 2 ^ 30 → 0 < n ≤ 2 ^ 31 → (∀ x, heap_free nss x → x < 2 ^ 31) →
  _smemalign al n s = Ok 0 s ∨
  ∃ p s' nss' sh, _smemalign al n s = Ok p s' ∧ takes s nss (ext_lo p) (ext_len p n) s' nss' ∧
    in_region s (ext_lo p) (ext_len p n) ∧ p mod 2 ^ sh = 0 ∧ al ≤ 2 ^ sh ∧ 0 ≤ sh ∧ word p ∧
    ∀ x, p ≤ x < p + n → ext_lo p ≤ x < ext_lo p + ext_len p n.
Proof.
  intros Hok Hal Hn Hfree. destruct (shift_loop_ok 32 s 0 al) as (sh & E & Hsh & Hle & Hmin); [lia|lia|lia|lia|].
  assert (2 ^ sh ≤ 2 ^ 30) as Hp.
  { apply Z.pow_le_mono_r; [lia|]. destruct Hmin as [->|Hlt]; [lia|].
    assert (2 ^ (sh - 1) < 2 ^ 30) as ?%Z.pow_lt_mono_r_iff by lia; lia. }
  pose proof (Z.pow_pos_nonneg 2 sh ltac:(lia) ltac:(lia)).
  unfold _smemalign, alignment_shift. rewrite (bind_ok _ _ _ _ _ E). unfold lmm_alloc_aligned.
  destruct (lmm_alloc_gen_ok s nss n 0 sh 0 0 (u32 (-1))) as [[Ea _]|(p & b & s' & nss' & Ea & Hfit & Hb & Ht)]; try done; try lia.
  { intros ns b Hns Hb. assert (b.1 < 2 ^ 31); [|lia]. apply Hfree. exists ns. split; [done|]. exists b. split; [done|].
    apply list_elem_of_lookup in Hns as (j & Hj).
    destruct (Forall2_lookup_r _ _ _ _ _ (lk_regions _ _ Hok) Hj) as (r & _ & _ & _ & Hbs & _).
    destruct (blocks_ok_elem _ _ _ _ Hbs Hb) as (_ & (_ & _ & ? & _) & _). unfold in_block. lia. }
  - left. by rewrite (bind_ok _ _ _ _ _ Ea).
  - right. rewrite (bind_ok _ _ _ _ _ Ea). destruct Hfit as [? ? ? Hmax Halign]. rewrite decide_False by lia.
    change (u32 (0 + u32 (-1))) with (W32 - 1) in Hmax.
    assert (word p) by (unfold word; lia). assert (0 < ext_len p n) by (unfold ext_len, up8; dlia).
    destruct (took_takes _ _ _ _ _ _ _ Hok Ht) as [Htk Hreg]; [done|].
    destruct (ext_ok p n) as (_ & ? & ?); [done|lia|apply Htk|].
    exists p, s', nss', sh. split_and!; done || lia.
Qed.

(** ** The heap of the kernel

    [h_live] maps the address of a block in use to its size, with a mark for the
    pages that [smemalign(PAGE_SIZE, PAGE_SIZE)] gave out. *)
Record heap : Type := mk_heap { h_lmm : lmm; h_live : gmap Z (Z * bool) }.

Definition KERNEL_HEAP_START : Z := 0x100000.

(** The bytes of memory a block of [n] bytes at [a] takes. *)
Definition extent (a n x : Z) : Prop := ext_lo a ≤ x < ext_lo a + ext_len a n.

Record live_ok (s : lmm) (nss : list (list block)) (a n : Z) (page : bool) : Prop := {
  lv_size : 0 < n;
  lv_bytes x : extent a n x → ¬ heap_free nss x ∧ KERNEL_HEAP_START ≤ x < USER_MEM_START;
  lv_region : in_region s (ext_lo a) (ext_len a n);
  lv_addr : 0 < ext_lo a ∧ extent a n a;
  lv_page : page = true → a mod 4096 = 0 ∧ n = PAGE_SIZE;
}.

Record heap_inv (h : heap) (nss : list (list block)) : Prop := {
  hp_ok : lmm_ok (h_lmm h) nss;
  hp_bounds x : heap_free nss x → KERNEL_HEAP_START ≤ x < USER_MEM_START;
  hp_live a n t : h_live h !! a = Some (n, t) → live_ok (h_lmm h) nss a n t;
  hp_disjoint a b n k t u x : h_live h !! a = Some (n, t) → h_live h !! b = Some (k, u) → a ≠ b →
    extent a n x → ¬ extent b k x;
}.

Lemma heap_alloc_inv h nss p n t s' nss' :
  heap_inv h nss → 0 < n → takes (h_lmm h) nss (ext_lo p) (ext_len p n) s' nss' →
  in_region (h_lmm h) (ext_lo p) (ext_len p n) → extent p n p → (t = true → p mod 4096 = 0 ∧ n = PAGE_SIZE) →
  h_live h !! p = None ∧ heap_inv (mk_heap s' (<[p := (n, t)]> (h_live h))) nss'.
Proof.
  intros [Hok Hb Hl Hd] Hn [Hok' [Hc Hg] Hm Hmeta Hat] Hreg Hpp Ht.
  assert (∀ x, extent p n x → heap_free nss x) as Hwas by (intros x Hx; apply Hc; by right).
  assert (∀ a k u x, h_live h !! a = Some (k, u) → extent p n x → ¬ extent a k x) as Hnew.
  { intros a k u x Ha Hx Hxa. destruct (lv_bytes _ _ _ _ _ (Hl a k u Ha) x Hxa) as [Hno _]. by apply Hno, Hwas. }
  assert (h_live h !! p = None) as Hnone.
  { destruct (h_live h !! p) as [[k u]|] eqn:E; [|done]. destruct (Hnew p k u p E Hpp). by apply (Hl p k u E). }
  split; [done|]. split; cbn [h_lmm h_live]; [done|..].
  - intros x Hx. apply Hb, Hc. by left.
  - intros a k u. rewrite lookup_insert_Some. intros [[<- [= <- <-]]|[Hne Ha]].
    + split; try done; [|by eapply in_region_meta|by split; [apply Hat|]].
      intros x Hx. split; [by apply Hg|by apply Hb, Hwas].
    + destruct (Hl a k u Ha) as [H1 H2 H3 H4 H5]. split; try done; [|by eapply in_region_meta].
      intros x Hx. destruct (H2 x Hx) as [H6 H7]. split; [|done]. intros H8. apply H6, Hc. by left.
  - intros a b k l u v x. rewrite !lookup_insert_Some. intros [[<- [= <- <-]]|[? Ha]] [[<- [= <- <-]]|[? Hb']] Hne Hx; try done.
    + by eapply Hnew.
    + intros Hxp. by eapply Hnew.
    + by eapply (Hd a b).
Qed.

Lemma heap_free_inv h nss a n t :
  heap_inv h nss → h_live h !! a = Some (n, t) →
  ∃ s' nss', lmm_free a n (h_lmm h) = Ok tt s' ∧ heap_inv (mk_heap s' (delete a (h_live h))) nss'.
Proof.
  intros [Hok Hb Hl Hd] Ha. destruct (Hl a n t Ha) as [H1 H2 H3 [H4 H4'] H5].
  destruct (in_region_word _ _ _ _ Hok H3) as [_ ?].
  destruct (lmm_free_takes (h_lmm h) nss a n) as (s' & nss' & E & Hok' & [Hc Hg] & Hm & Hmeta); try done.
  { unfold extent in H4'. unfold word. lia. }
  { intros x Hx. by apply H2. }
  exists s', nss'. split; [done|]. split; cbn [h_lmm h_live]; [done|..].
  - intros x [Hx|Hx]%Hc; [by apply Hb|by apply H2].
  - intros b k u [Hne Hb']%lookup_delete_Some. destruct (Hl b k u Hb') as [G1 G2 G3 G4 G5].
    split; try done; [|by eapply in_region_meta]. intros x Hx. destruct (G2 x Hx) as [G6 G7]. split; [|done].
    intros [Hf|Hf]%Hc; [done|]. by eapply (Hd a b).
  - intros b c k l u v x [_ Hb']%lookup_delete_Some [_ Hc']%lookup_delete_Some. by eapply Hd.
Qed.

(** *** The operations of the interface

    A request that the allocator is not made for (no bytes, more than half of the
    address space, an alignment above 2^30, a block that is not in use) is
    refused here; the C code panics on it or goes wrong. *)
Definition heap_alloc (page : bool) (m : M lmm Z) (n : Z) (h : heap) : Z * heap :=
  match m (h_lmm h) with
  | Ok p s' => (p, mk_heap s' (if decide (p = 0) then h_live h else <[p := (n, page)]> (h_live h)))
  | Stop _ => (0, h)
  end.

Definition heap_smemalign (h : heap) (al n : Z) : Z * heap :=
  if decide (al ≤ 2 ^ 30 ∧ 0 < n ≤ 2 ^ 31)
  then heap_alloc (bool_decide (al = PAGE_SIZE ∧ n = PAGE_SIZE)) (_smemalign al n) n h
  else (0, h).

Definition heap_smalloc (h : heap) (n : Z) : Z * heap :=
  if decide (0 < n ≤ W32 - 8) then heap_alloc false (_smalloc n) n h else (0, h).

Definition heap_sfree (h : heap) (a n : Z) : heap :=
  match h_live h !! a with
  | Some (k, _) =>
      if decide (k = n) then
        match _sfree a n (h_lmm h) with
        | Ok _ s' => mk_heap s' (delete a (h_live h))
        | Stop _ => h
        end
      else h
  | None => h
  end.

Definition heap_pages (h : heap) : gset Z := dom (filter (λ x, x.2.2 = true) (h_live h)).

Lemma elem_of_heap_pages h a : a ∈ heap_pages h ↔ ∃ n, h_live h !! a = Some (n, true).
Proof.
  unfold heap_pages. rewrite elem_of_dom. split.
  - intros [[n t] [Ha Ht]%map_lookup_filter_Some]. cbn in Ht. subst. by exists n.
  - intros [n Ha]. exists (n, true). by apply map_lookup_filter_Some.
Qed.

(** What an allocation does to a heap. *)
Definition allocates (page : bool) (n : Z) (h : heap) (o : Z * heap) : Prop :=
  o = (0, h) ∨
  ∃ nss', heap_inv o.2 nss' ∧ 0 < o.1 ∧ h_live h !! o.1 = None ∧ h_live o.2 = <[o.1 := (n, page)]> (h_live h) ∧
    live_ok (h_lmm o.2) nss' o.1 n page.

Lemma heap_alloc_ok h nss page m n :
  heap_inv h nss → 0 < n →
  (m (h_lmm h) = Ok 0 (h_lmm h) ∨
   ∃ p s' nss', m (h_lmm h) = Ok p s' ∧ takes (h_lmm h) nss (ext_lo p) (ext_len p n) s' nss' ∧
     in_region (h_lmm h) (ext_lo p) (ext_len p n) ∧ extent p n p ∧ (page = true → p mod 4096 = 0 ∧ n = PAGE_SIZE)) →
  allocates page n h (heap_alloc page m n h).
Proof.
  intros Hh Hn [E|(p & s' & nss' & E & Ht & Hreg & Hext & Hpg)]; unfold heap_alloc; rewrite E.
  - left. by destruct h.
  - right. destruct (heap_alloc_inv h nss p n page s' nss') as [Hnone Hinv]; try done.
    assert (0 < p) by (pose proof (tks_at _ _ _ _ _ _ Ht); unfold extent in Hext; lia).
    rewrite decide_False by lia. exists nss'. cbn [fst snd]. split_and!; try done.
    apply (hp_live _ _ Hinv). cbn. by apply lookup_insert_eq.
Qed.

Lemma mod_pow_le p sh k : 0 ≤ k ≤ sh → p mod 2 ^ sh = 0 → p mod 2 ^ k = 0.
Proof.
  intros Hk Hp. apply Z.mod_divide; [apply Z.pow_nonzero; lia|]. apply Z.mod_divide in Hp; [|apply Z.pow_nonzero; lia].
  destruct Hp as [c ->]. exists (c * 2 ^ (sh - k)). rewrite <- Z.mul_assoc, <- Z.pow_add_r by lia. by replace (sh - k + k) with sh by lia.
Qed.

Lemma heap_smemalign_ok h nss al n : heap_inv h nss →
  allocates (bool_decide (al = PAGE_SIZE ∧ n = PAGE_SIZE)) n h (heap_smemalign h al n).
Proof.
  intros Hh. unfold heap_smemalign. case_decide as Hd; [|by left]. destruct Hd as [Hal Hn].
  apply (heap_alloc_ok h nss); [done|lia|].
  destruct (smemalign_takes (h_lmm h) nss al n) as [E|(p & s' & nss' & sh & E & Ht & Hreg & Hp & Hle & Hsh & Hw & Hext)]; try done.
  { apply Hh. }
  { intros x Hx%(hp_bounds _ _ Hh). unfold USER_MEM_START in Hx. lia. }
  { by left. }
  right. exists p, s', nss'. split_and!; try done; [apply Hext; lia|].
  intros [-> ->]%bool_decide_eq_true. split; [|done]. change 4096 with (2 ^ 12). apply (mod_pow_le p sh); [|done].
  split; [lia|]. unfold PAGE_SIZE in Hle. change 4096 with (2 ^ 12) in Hle. by apply Z.pow_le_mono_r_iff in Hle; [|lia|lia].
Qed.

Lemma heap_smalloc_ok h nss n : heap_inv h nss → allocates false n h (heap_smalloc h n).
Proof.
  intros Hh. unfold heap_smalloc. case_decide as Hd; [|by left]. apply (heap_alloc_ok h nss); [done|lia|].
  unfold _smalloc. destruct (lmm_alloc_takes (h_lmm h) nss n 0) as [[E _]|(p & s' & nss' & E & Ht & Hreg)]; [apply Hh|done|..].
  { left. by rewrite (bind_ok _ _ _ _ _ E). }
  right. pose proof (tks_at _ _ _ _ _ _ Ht) as [? Hp]. destruct (ext_aligned p n Hp) as [E1 E2]. pose proof (up8_spec n) as [_ ?].
  exists p, s', nss'. rewrite (bind_ok _ _ _ _ _ E), decide_False by lia. unfold extent. rewrite E1, E2. split_and!; done || lia.
Qed.

Lemma heap_sfree_ok h nss a n : heap_inv h nss →
  ∃ nss', heap_inv (heap_sfree h a n) nss' ∧
    (h_live (heap_sfree h a n) = h_live h ∧ (∀ t, h_live h !! a ≠ Some (n, t)) ∨
     ∃ t, h_live h !! a = Some (n, t) ∧ h_live (heap_sfree h a n) = delete a (h_live h)).
Proof.
  intros Hh. unfold heap_sfree. destruct (h_live h !! a) as [[k t]|] eqn:Ha.
  2:{ exists nss. split; [done|]. left. split; [done|]. by intros t. }
  case_decide as Hd; [subst k|].
  2:{ exists nss. split; [done|]. left. split; [done|]. intros u [= ? ?]. done. }
  destruct (heap_free_inv h nss a n t Hh Ha) as (s' & nss' & E & Hinv). unfold _sfree. rewrite E. exists nss'. split; [done|].
  right. by exists t.
Qed.

(** *** The interface *)
Definition kernel_heap : Type := { h : heap | ∃ nss, heap_inv h nss }.

Lemma allocates_inv page n h nss o : heap_inv h nss → allocates page n h o → ∃ nss', heap_inv o.2 nss'.
Proof. intros Hh [->|(nss' & Hinv & _)]; [by exists nss|by exists nss']. Qed.

Lemma smemalign_keeps (h : kernel_heap) al n : ∃ nss, heap_inv (heap_smemalign (`h) al n).2 nss.
Proof. destruct h as [h [nss Hh]]. eapply allocates_inv; [done|by eapply heap_smemalign_ok]. Qed.

Lemma smalloc_keeps (h : kernel_heap) n : ∃ nss, heap_inv (heap_smalloc (`h) n).2 nss.
Proof. destruct h as [h [nss Hh]]. eapply allocates_inv; [done|by eapply heap_smalloc_ok]. Qed.

Lemma sfree_keeps (h : kernel_heap) a n : ∃ nss, heap_inv (heap_sfree (`h) a n) nss.
Proof. destruct h as [h [nss Hh]]. destruct (heap_sfree_ok h nss a n Hh) as (nss' & ? & _). by exists nss'. Qed.

#[export] Instance lmm_kernel_heap : KernelHeap kernel_heap := {
  kh_smemalign h al n := let o := heap_smemalign (`h) al n in (o.1, exist _ o.2 (smemalign_keeps h al n));
  kh_smalloc h n := let o := heap_smalloc (`h) n in (o.1, exist _ o.2 (smalloc_keeps h n));
  kh_sfree h a n := exist _ (heap_sfree (`h) a n) (sfree_keeps h a n);
  kh_contents h a := (λ k, default 0 (ldw (mem (h_lmm (`h))) (a + 4 * k))) <$> seqZ 0 1024;
  kh_data h a n := (λ k, default 0 (mem (h_lmm (`h)) !! (a + k))) <$> seqZ 0 n;
  kh_pages h := heap_pages (`h);
}.

(** A block that is given out is fresh, and the pages in use are the old ones
    with it if it is a page. *)
Lemma allocates_pages page n h a h' :
  allocates page n h (a, h') → a ≠ 0 →
  a ∉ heap_pages h ∧ heap_pages h' = (if page then {[a]} else ∅) ∪ heap_pages h.
Proof.
  intros [[= -> _]|(nss' & _ & _ & Hnone & Hl & _)] Ha; [done|]. cbn in Hnone, Hl. split.
  - intros [k Hk]%elem_of_heap_pages. congruence.
  - apply set_eq. intros x. rewrite elem_of_union, !elem_of_heap_pages, Hl. setoid_rewrite lookup_insert_Some. split.
    + intros (k & [[<- [= <- ->]]|[_ ?]]); [left; set_solver|right; by exists k].
    + intros [Hx|[k Hk]].
      * destruct page; [|set_solver]. apply elem_of_singleton in Hx as ->. exists n. by left.
      * exists k. right. split; [|done]. intros <-. congruence.
Qed.

Lemma allocates_null page n h h' : allocates page n h (0, h') → h' = h.
Proof. intros [[= ->]|(nss' & _ & Hpos & _)]; [done|cbn in Hpos; lia]. Qed.

(** C8. The allocator keeps the promises the virtual-memory code relies on: a page
    that [smemalign] returns is aligned, below [USER_MEM_START] and not in use,
    blocks of [smalloc] are no pages in use, [sfree] gives back exactly the block
    it is given, and the pages in use change in no other way. *)
Theorem lmm_implements_kernel_heap : KernelHeapSpec kernel_heap.
Proof.
  split.
  - intros h a h' [= Ea <-] Ha. destruct h as [h [nss Hh]]. cbn [proj1_sig] in *.
    pose proof (heap_smemalign_ok h nss PAGE_SIZE PAGE_SIZE Hh) as Hal. rewrite (bool_decide_true (_ ∧ _)) in Hal by done.
    cbn [kh_pages lmm_kernel_heap proj1_sig].
    rewrite (surjective_pairing (heap_smemalign h _ _)), Ea in Hal. pose proof (allocates_pages _ _ _ _ _ Hal Ha) as [Hfr Hpg].
    destruct Hal as [[= -> _]|(nss' & _ & ? & _ & _ & [? Hby ? [_ Hx] Hpage])]; [done|].
    destruct (Hpage eq_refl) as [? _]. cbn in *. destruct (Hby a Hx) as [_ ?]. split_and!; try done; lia.
  - intros h a h' [= Ea <-] ->. destruct h as [h [nss Hh]]. cbn [proj1_sig] in *. cbn [kh_pages lmm_kernel_heap proj1_sig].
    pose proof (heap_smemalign_ok h nss PAGE_SIZE PAGE_SIZE Hh) as Hal.
    rewrite (surjective_pairing (heap_smemalign h _ _)), Ea in Hal. by rewrite (allocates_null _ _ _ _ Hal).
  - intros h a. cbn [kh_contents lmm_kernel_heap]. by rewrite length_fmap, length_seqZ.
  - intros h a n. cbn [kh_data lmm_kernel_heap]. by rewrite length_fmap, length_seqZ.
  - intros [h [nss Hh]] n. cbn [kh_pages kh_smalloc lmm_kernel_heap proj1_sig snd].
    pose proof (heap_smalloc_ok h nss n Hh) as Hal. rewrite (surjective_pairing (heap_smalloc h n)) in Hal.
    destruct (decide ((heap_smalloc h n).1 = 0)) as [E|Hne].
    + rewrite E in Hal. by rewrite (allocates_null _ _ _ _ Hal).
    + rewrite (proj2 (allocates_pages _ _ _ _ _ Hal Hne)). set_solver.
  - intros [h [nss Hh]] n a h' [= Ea <-] Ha. cbn [kh_pages lmm_kernel_heap proj1_sig] in *.
    pose proof (heap_smalloc_ok h nss n Hh) as Hal. rewrite (surjective_pairing (heap_smalloc h n)), Ea in Hal.
    by apply (allocates_pages _ _ _ _ _ Hal).
  - intros [h [nss Hh]] a. cbn [kh_pages kh_sfree lmm_kernel_heap proj1_sig]. intros [k Hk]%elem_of_heap_pages.
    destruct (lv_page _ _ _ _ _ (hp_live _ _ Hh a k true Hk) eq_refl) as [_ ->].
    destruct (heap_sfree_ok h nss a PAGE_SIZE Hh) as (_ & _ & [[_ Hno]|(t & _ & E)]); [by destruct (Hno true)|].
    apply set_eq. intros x. rewrite elem_of_difference, !elem_of_heap_pages, E. setoid_rewrite lookup_delete_Some. set_solver.
  - intros [h [nss Hh]] a n. cbn [kh_pages kh_sfree lmm_kernel_heap proj1_sig]. intros Hno.
    destruct (heap_sfree_ok h nss a n Hh) as (_ & _ & [[E _]|(t & Ht & E)]); apply set_eq; intros x; rewrite !elem_of_heap_pages, E; [done|].
    setoid_rewrite lookup_delete_Some. split; [naive_solver|]. intros [k Hk]. exists k. split; [|done]. intros <-.
    apply Hno, elem_of_heap_pages. by exists k.
Qed.

(** ** A heap of two megabytes *)
Definition demo_region : lmm_region := mk_region 2 0x200000 0x100000 0x1000000 2 (W32 - 1) 0x200000.
Definition demo_lmm : lmm := mk_lmm (stw (stw ∅ 0x200004 0x200000) 0x200000 0) [demo_region].
Definition demo_blocks : list (list block) := [[(0x200000, 0x200000)]].

Lemma demo_lmm_ok : lmm_ok demo_lmm demo_blocks.
Proof.
  split.
  - apply Forall2_cons. split; [|constructor]. split_and!; done.
  - apply Forall_singleton. unfold bounds_ok, word. cbn. split_and!; done || lia.
  - intros [|i] [|j] r r' Hi Hj; done.
Qed.

(** A hundred bytes of it. *)
Lemma malloc_free_round_trip_witness :
  lmm_ok demo_lmm demo_blocks ∧ ∃ s' s'', _malloc 100 demo_lmm = Ok 0x200004 s' ∧ _free 0x200004 s' = Ok tt s'' ∧
    lmm_ok s'' demo_blocks ∧ regions s'' = regions demo_lmm.
Proof.
  split; [apply demo_lmm_ok|].
  destruct (malloc_free_round_trip demo_lmm demo_blocks 100 demo_lmm_ok ltac:(lia)) as [[E _]|(p & s' & nss' & E & _ & _ & _ & _ & Hf)].
  { vm_compute in E. discriminate. }
  assert (p = 0x200004) as -> by (vm_compute in E; by injection E).
  destruct (Hf (mem s')) as (s'' & E' & H1 & H2); [done|]. exists s', s''. split_and!; try done.
  rewrite <- E'. by destruct s'.
Defined.

Lemma malloc_size_wraps_witness :
  lmm_ok demo_lmm demo_blocks ∧ _malloc (W32 - 4) demo_lmm = Stop KernelPanic ∧
  ∃ p s' nss', _malloc (W32 - 1) demo_lmm = Ok p s' ∧ carve demo_blocks nss' (p - 4) 8.
Proof.
  split; [apply demo_lmm_ok|]. split.
  - destruct (malloc_size_wraps demo_lmm demo_blocks (W32 - 4) demo_lmm_ok ltac:(lia)) as [[_ E]|[E|(p & s' & nss' & E & _)]];
      [done|vm_compute in E; discriminate..].
  - destruct (malloc_size_wraps demo_lmm demo_blocks (W32 - 1) demo_lmm_ok ltac:(lia)) as [[E _]|[E|(p & s' & nss' & E & _ & Hc & _)]];
      [lia|vm_compute in E; discriminate|]. by exists p, s', nss'.
Defined.
