(* ===== verification/LmmFind.v ===== *)
(** * The list memory manager: searching and reserving

    [lmm_find_free] finds the lowest free bytes at or above an address,
    [lmm_remove_free] takes a range out of the heap, and the checks of
    [lmm_dump] hold in every state that satisfies the invariant. *)

From S2P Require Import Prelude CString Lmm LmmInv LmmFree LmmAlloc LmmGen LmmHeap.

(** ** lmm_find_free *)
Section find.
Context (s : lmm) (nss : list (list block)) (start : Z).
Hypothesis Hok : lmm_ok s nss.

(** [a] is the first byte at or above [start] of the free block [b], which ends
    [n] bytes further on, in a region with flags [fl]. *)
Definition candidate (a n fl : Z) : Prop :=
  ∃ j r ns b, regions s !! j = Some r ∧ nss !! j = Some ns ∧ b ∈ ns ∧ fl = r_flags r ∧
    start ≤ a ∧ in_block a b ∧ a + n = b.1 + b.2.

Lemma find_nodes_ok j r ns rest : regions s !! j = Some r → nss !! j = Some ns → ∀ pre n la ln lf,
  ns = pre ++ rest → (length rest < n)%nat → start ≤ la → 0 ≤ start →
  ∃ la' ln' lf', find_nodes n r start (first rest 0) (la, ln, lf) s = Ok (la', ln', lf') s ∧
    start ≤ la' ≤ la ∧ (∀ x, free_in rest x → start ≤ x → la' ≤ x) ∧
    ((la', ln', lf') = (la, ln, lf) ∨ candidate la' ln' lf').
Proof using All.
  intros Hj Hns. destruct (region_of s nss j r ns Hok Hj Hns) as [(_ & Hnd & Hbs & _) (Hb1 & Hb2 & _)].
  induction rest as [|b rest IH]; intros pre [|n] la ln lf E Hlt Hla Hst; cbn in Hlt; try lia; subst ns; cbn [first find_nodes].
  { exists la, ln, lf. rewrite decide_True by done. split_and!; try done; [|by left]. by intros x ?%free_in_nil. }
  pose proof (proj1 (blocks_ok_mid _ _ _ _ _) Hbs) as (_ & Hlo & Hb & Hhi & Hrest). pose proof Hb as (? & _ & ? & _).
  rewrite decide_False by lia. rewrite !bind_assert by (apply bool_decide_true; lia). cbn [fst].
  assert (∀ x, free_in (b :: rest) x → b.1 ≤ x) as Hfirst.
  { intros x [Hx|Hx]%free_in_cons; [apply Hx|]. apply (free_in_bounds _ _ _ _ Hrest) in Hx. lia. }
  destruct (decide (la ≤ b.1)).
  { exists la, ln, lf. split_and!; try done; [|by left]. intros x Hx%Hfirst _. lia. }
  rewrite (bind_ok _ _ _ _ _ (node_size_ok _ _ _ _ _ _ _ Hb2 Hbs Hnd)). rewrite u32_small by (unfold word; lia).
  destruct (decide (start < b.1 + b.2)).
  - assert (∀ a k, start ≤ a → in_block a b → a + k = b.1 + b.2 → candidate a k (r_flags r)) as Hc.
    { intros a k Ha Hin Hk. exists j, r, (pre ++ b :: rest), b. split_and!; try done. set_solver. }
    case_decide.
    + exists b.1, b.2, (r_flags r). split_and!; try done; try lia; [intros x Hx%Hfirst; lia|right; apply Hc; unfold in_block; lia].
    + rewrite (u32_small (start - b.1)), u32_small by (unfold word; lia). eexists start, _, (r_flags r).
      split_and!; try done; try lia. right. apply Hc; unfold in_block; lia.
  - rewrite (bind_ok _ _ _ _ _ (node_next_ok _ _ _ _ _ Hnd)).
    destruct (IH (pre ++ [b]) n la ln lf) as (la' & ln' & lf' & E & ? & Hmin & Hc); [by rewrite <- app_assoc|lia|done|done|].
    exists la', ln', lf'. split_and!; try done; try lia.
    intros x [Hx|Hx]%free_in_cons Hsx; [unfold in_block in Hx; lia|by apply Hmin].
Qed.

(** The best candidate of the regions before [j]. *)
Definition lowest (j : nat) (la ln lf : Z) : Prop :=
  start ≤ la ∧ (∀ k ns x, (k < j)%nat → nss !! k = Some ns → free_in ns x → start ≤ x → la ≤ x) ∧
  ((la, ln, lf) = (W32 - 1, 0, 0) ∨ candidate la ln lf).

Lemma find_regions_ok k : ∀ j la ln lf, (j + k = length (regions s))%nat → 0 ≤ start → lowest j la ln lf →
  ∃ la' ln' lf', find_regions k j start (la, ln, lf) s = Ok (la', ln', lf') s ∧ lowest (length (regions s)) la' ln' lf'.
Proof using All.
  induction k as [|k IH]; intros j la ln lf Hj Hst Hlow; cbn [find_regions].
  { exists la, ln, lf. split; [done|]. by replace (length (regions s)) with j by lia. }
  destruct (region_at s nss Hok j) as (r & ns & Hr & Hns & Er & _); [lia|]. rewrite (bind_ok _ _ _ _ _ Er).
  destruct (region_of s nss j r ns Hok Hr Hns) as [(En & _ & Hbs & _) (Hb1 & Hb2 & _)]. destruct Hlow as (Hla & Hmin & Hc).
  assert (∀ la' ln' lf', start ≤ la' ≤ la → (∀ x, free_in ns x → start ≤ x → la' ≤ x) →
    ((la', ln', lf') = (la, ln, lf) ∨ candidate la' ln' lf') → lowest (S j) la' ln' lf') as Hnext.
  { intros la' ln' lf' ? Hns' Hc'. split_and!; [lia| |destruct Hc' as [[= -> -> ->]|]; [done|by right]].
    intros i ns' x Hi Hi' Hx Hsx. destruct (decide (i = j)) as [->|]; [simplify_eq; by apply Hns'|].
    assert (la ≤ x); [|lia]. eapply (Hmin i); try done. lia. }
  case_decide as Hskip.
  - apply (IH (S j)); [lia|done|]. apply Hnext; [lia| |by left]. cbn [fst] in Hskip. intros x Hx Hsx.
    pose proof (free_in_bounds _ _ _ _ Hbs Hx). destruct Hskip as [E|[?|?]]; [|lia..].
    rewrite En in E. destruct ns as [|b ns]; [by destruct (free_in_nil x)|]. destruct Hbs as (_ & (? & _) & _). cbn in E. lia.
  - unfold fuel. rewrite bind_gets, En.
    destruct (find_nodes_ok j r ns ns Hr Hns [] (S (base.size (mem s))) la ln lf) as (la' & ln' & lf' & E & ? & Hm & Hc');
      [done|by eapply fuel_enough|done|done|].
    rewrite (bind_ok _ _ _ _ _ E). apply (IH (S j)); [lia|done|]. by apply Hnext.
Qed.
End find.

Lemma lmm_find_free_ok s nss addr : lmm_ok s nss → 0 ≤ addr ≤ W32 - 8 → addr mod 8 = 0 →
  ∃ a n fl, lmm_find_free addr s = Ok (a, n, fl) s ∧ addr ≤ a ∧ (∀ x, heap_free nss x → addr ≤ x → a ≤ x) ∧
    ((a, n, fl) = (W32 - 1, 0, 0) ∨ candidate s nss addr a n fl).
Proof.
  intros Hok Ha H8. unfold lmm_find_free. rewrite bind_get, align_up_eq, up8_id by done.
  change (u32 (-1)) with (W32 - 1).
  destruct (find_regions_ok s nss addr Hok (length (regions s)) 0 (W32 - 1) 0 0) as (a & n & fl & E & ? & Hmin & Hc); [lia|lia| |].
  { split_and!; [lia| |by left]. intros k ns x ?. lia. }
  exists a, n, fl. split_and!; try done. intros x (ns & (k & Hk)%list_elem_of_lookup & Hx) Hax. apply (Hmin k ns x); try done.
  rewrite (Forall2_length _ _ _ (lk_regions _ _ Hok)). by eapply lookup_lt_Some.
Qed.

(** ** lmm_remove_free *)
Lemma lacks_own r : word (r_flags r) → lacks (r_flags r) r = false.
Proof.
  intros Hw. unfold lacks. apply bool_decide_eq_false. intros H. apply H. clear H.
  assert (W32 - 1 - r_flags r = Z.ldiff (Z.ones 32) (r_flags r)) as ->.
  { change (W32 - 1) with (Z.ones 32). apply Z.sub_nocarry_ldiff. unfold word in Hw.
    destruct (decide (r_flags r = 0)) as [->|]; [done|]. apply Z.ldiff_ones_r_low; [lia|]. apply Z.log2_lt_pow2; lia. }
  apply Z.bits_inj'. intros i Hi. rewrite Z.land_spec, Z.ldiff_spec, Z.bits_0.
  by destruct (Z.testbit (r_flags r) i); rewrite ?andb_false_r.
Qed.

(** The chunk that [lmm_remove_free] asks for is given. *)
Lemma alloc_candidate s nss start a n fl size :
  lmm_ok s nss → candidate s nss start a n fl → a mod 8 = 0 → size mod 8 = 0 → 0 < size ≤ n → 0 ≤ start →
  ∃ s' nss', lmm_alloc_gen size fl 0 0 a size s = Ok a s' ∧ took s nss fl a size s' nss'.
Proof.
  intros Hok (j & r & ns & b & Hr & Hns & Hb & -> & Ha & Hin & Hn) Ha8 Hs8 Hs Hst.
  destruct (region_of s nss j r ns Hok Hr Hns) as [(_ & _ & Hbs & _) (Hb1 & Hb2 & _ & _ & Hfl)].
  destruct (blocks_ok_elem _ _ _ _ Hbs Hb) as (? & _ & ?). unfold in_block in Hin.
  assert (u32 (a + size) = a + size) as Eu by (apply u32_small; unfold word; lia).
  destruct (lmm_alloc_gen_ok s nss size (r_flags r) 0 0 a size) as [[_ Hno]|(p & c & s' & nss' & E & [? ? ? ? _] & ? & Ht)]; try done; try lia.
  { intros ns' b' (k & Hk)%list_elem_of_lookup Hb'.
    destruct (Forall2_lookup_r _ _ _ _ _ (lk_regions _ _ Hok) Hk) as (r' & Hr' & _ & _ & Hbs' & _).
    destruct (lmm_ok_region s nss k r' Hok Hr') as (_ & _ & _ & _ & ? & _).
    destruct (blocks_ok_elem _ _ _ _ Hbs' Hb') as (_ & (? & _ & ? & _) & ?). rewrite Z.pow_0_r. lia. }
  - destruct (Hno j r ns b a Hr Hns (lacks_own r Hfl) Hb). split; rewrite ?Eu, ?Z.pow_0_r, ?Z.mod_1_r; lia || done.
  - assert (p = a) as -> by lia. exists s', nss'. split; [done|].
    unfold ext_lo, ext_len in Ht. rewrite Ha8, Z.sub_0_r, Z.add_0_l, up8_id in Ht by done. done.
Qed.

Lemma end_not_free lo hi ns b : blocks_ok lo hi ns → b ∈ ns → ¬ free_in ns (b.1 + b.2).
Proof.
  intros Hok (l1 & l2 & ->)%list_elem_of_split. apply blocks_ok_mid in Hok as (H1 & _ & (? & _ & ? & _) & _ & H2).
  rewrite free_in_app, free_in_cons. intros [Hf|[Hf|Hf]].
  - apply (free_in_bounds _ _ _ _ H1) in Hf. lia.
  - unfold in_block in Hf. lia.
  - apply (free_in_bounds _ _ _ _ H2) in Hf. lia.
Qed.

(** What is left of a list from which a chunk was taken. *)
Lemma taken_cut lo hi ns p n ns' :
  blocks_ok lo hi ns → taken lo hi ns p n ns' → 0 < n → n mod 8 = 0 →
  ∃ pre b post, ns = pre ++ b :: post ∧ b.1 ≤ p ∧ p + n ≤ b.1 + b.2 ∧ ns' = pre ++ cut b p n ++ post.
Proof.
  intros Hok Ht Hn Hn8. pose proof Ht as [Hok' _ Hfree Hgone [? ?]].
  destruct (proj2 (Hfree p) ltac:(right; lia)) as (b & Hb & Hp). unfold in_block in Hp.
  assert (p + n ≤ b.1 + b.2).
  { destruct (decide (p + n ≤ b.1 + b.2)); [done|]. destruct (end_not_free _ _ _ _ Hok Hb). apply Hfree. right. lia. }
  destruct (list_elem_of_split _ _ Hb) as (pre & post & ->). exists pre, b, post. split_and!; try done; [lia|].
  pose proof (proj1 (blocks_ok_mid _ _ _ _ _) Hok) as (G1 & G2 & G3 & G4 & G5).
  destruct (cut_taken lo hi pre post b p n G1 G2 G3 G4 G5 ltac:(lia)) as [Hok'' _ Hfree'' Hgone'' _].
  apply (blocks_ok_canonical lo hi); try done. intros x. specialize (Hfree x). specialize (Hfree'' x).
  specialize (Hgone x). specialize (Hgone'' x). tauto.
Qed.

Lemma alloc_candidate_heap s nss start a n fl size :
  lmm_ok s nss → candidate s nss start a n fl → a mod 8 = 0 → size mod 8 = 0 → 0 < size ≤ n → 0 ≤ start →
  ∃ s' j r ns ns', lmm_alloc_gen size fl 0 0 a size s = Ok a s' ∧ nss !! j = Some ns ∧
    takes s nss a size s' (<[j := ns']> nss) ∧ blocks_ok (r_min r) (r_max r) ns ∧
    taken (r_min r) (r_max r) ns a size ns' ∧ ¬ free_in ns (a + n).
Proof.
  intros Hok Hc Ha Hs8 Hs Hst. destruct (alloc_candidate s nss start a n fl size Hok Hc Ha Hs8 Hs Hst) as (s' & nss' & E & Ht).
  destruct (took_takes _ _ _ _ _ _ _ Hok Ht ltac:(lia)) as [Htk _].
  destruct Ht as (j & r & ns & ns' & Hr & Hns & _ & -> & _ & Htn & _).
  destruct (region_of s nss j r ns Hok Hr Hns) as [(_ & _ & Hbs & _) _].
  exists s', j, r, ns, ns'. split_and!; try done.
  destruct Hc as (k & r' & l & b & Hr' & Hl & Hb & _ & _ & Hin & ->).
  assert (k = j) as ->.
  { destruct (decide (k = j)) as [|Hne]; [done|].
    assert (free_in ns a) as Hfa%(free_in_bounds _ _ _ _ Hbs) by (apply (tk_free _ _ _ _ _ _ Htn); right; lia).
    destruct (region_of s nss k r' l Hok Hr' Hl) as [(_ & _ & Hbl & _) _].
    assert (free_in l a) as Hfl%(free_in_bounds _ _ _ _ Hbl) by (by exists b).
    destruct (lk_disjoint _ _ Hok k j r' r Hr' Hr Hne); lia. }
  simplify_eq. by eapply end_not_free.
Qed.

(** The blocks that reach into a range. *)
Definition reaching (lo hi : Z) (ns : list block) : nat := length (filter (λ b, b.1 < hi ∧ lo < b.1 + b.2) ns).
Definition all_reaching (lo hi : Z) (nss : list (list block)) : nat := sum_list_with (reaching lo hi) nss.

Lemma sum_insert {A} (f : A → nat) l i x y : l !! i = Some x → (sum_list_with f (<[i := y]> l) + f x = sum_list_with f l + f y)%nat.
Proof.
  revert i. induction l as [|z l IH]; intros [|i]; cbn; [done..| |].
  - intros [= ->]. lia.
  - intros Hi. specialize (IH i Hi). unfold insert in *. lia.
Qed.

Lemma reaching_mono lo lo' hi ns : lo ≤ lo' → (reaching lo' hi ns ≤ reaching lo hi ns)%nat.
Proof.
  intros Hlo. unfold reaching. induction ns as [|b ns IH]; [done|]. rewrite !filter_cons.
  repeat case_decide; cbn; lia.
Qed.

Lemma all_reaching_mono lo lo' hi nss : lo ≤ lo' → (all_reaching lo' hi nss ≤ all_reaching lo hi nss)%nat.
Proof.
  intros Hlo. unfold all_reaching. induction nss as [|ns nss IH]; [done|]. cbn in *.
  pose proof (reaching_mono lo lo' hi ns Hlo). lia.
Qed.

Lemma reaching_cut a n hi pre b post :
  b.1 ≤ a → a < hi → a + n ≤ b.1 + b.2 → 0 < n → (a + n = b.1 + b.2 ∨ hi ≤ a + n) →
  (reaching a hi (pre ++ cut b a n ++ post) < reaching a hi (pre ++ b :: post))%nat.
Proof.
  intros ? ? ? ? He. unfold reaching. rewrite !filter_app, !length_app, filter_cons. rewrite decide_True by lia. cbn.
  assert (filter (λ b, b.1 < hi ∧ a < b.1 + b.2) (cut b a n) = []) as ->; [|cbn; lia].
  unfold cut. do 2 case_decide; cbn; rewrite ?filter_cons; cbn; rewrite ?decide_False by (cbn; lia); done.
Qed.

(** A step takes the rest of a block or reaches the end of the range. *)
Lemma reaching_taken nss j lo hi ns ns' a k size rend :
  nss !! j = Some ns → blocks_ok lo hi ns → taken lo hi ns a size ns' → 0 < size → size mod 8 = 0 → a < rend →
  ¬ free_in ns (a + k) → (a + size = a + k ∨ rend ≤ a + size) →
  (all_reaching a rend (<[j := ns']> nss) < all_reaching a rend nss)%nat.
Proof.
  intros Hns Hbs Htn Hs Hs8 Ha Hnf Hend. pose proof (sum_insert (reaching a rend) nss j ns ns' Hns) as Hsum.
  destruct (taken_cut _ _ _ _ _ _ Hbs Htn Hs Hs8) as (pre & b & post & -> & ? & ? & ->).
  assert (reaching a rend (pre ++ cut b a size ++ post) < reaching a rend (pre ++ b :: post))%nat as Hcut.
  { apply reaching_cut; try lia. destruct (decide (a + size = b.1 + b.2)) as [|Hne]; [by left|right].
    destruct (decide (rend ≤ a + size)); [done|]. destruct Hnf. exists b. split; [set_solver|]. unfold in_block. lia. }
  unfold all_reaching. lia.
Qed.

Lemma candidate_aligned s nss start a k fl :
  lmm_ok s nss → start mod 8 = 0 → (∀ x, heap_free nss x → start ≤ x → a ≤ x) → candidate s nss start a k fl →
  a mod 8 = 0 ∧ k mod 8 = 0 ∧ 0 < k ∧ a + k ≤ W32 - 8.
Proof.
  intros Hok H8 Hmin (j & r & ns & b & Hr & Hns & Hb & _ & ? & Hin & Hk). unfold in_block in Hin.
  destruct (region_of s nss j r ns Hok Hr Hns) as [(_ & _ & Hbs & _) (_ & ? & _)].
  destruct (blocks_ok_elem _ _ _ _ Hbs Hb) as (_ & (? & ? & ? & ?) & ?).
  assert (∀ x, in_block x b → heap_free nss x) as Hbf.
  { intros x Hx. exists ns. split; [by eapply list_elem_of_lookup_2|]. by exists b. }
  assert (a mod 8 = 0); [|split_and!; try done; try lia; dlia]. destruct (decide (start ≤ b.1)) as [Hle|Hgt].
  - pose proof (Hmin b.1 (Hbf b.1 ltac:(unfold in_block; lia)) Hle). by replace a with b.1 by lia.
  - pose proof (Hmin start (Hbf start ltac:(unfold in_block; lia)) ltac:(lia)). by replace a with start by lia.
Qed.

Lemma remove_loop_ok n : ∀ s nss blk rstart rend,
  lmm_ok s nss → 0 ≤ rstart → rstart mod 8 = 0 → blk ≤ rstart → rend ≤ W32 - 8 → rend mod 8 = 0 →
  (all_reaching rstart rend nss < n)%nat →
  ∃ s' nss', remove_loop n blk rstart rend s = Ok tt s' ∧ lmm_ok s' nss' ∧
    (∀ x, heap_free nss' x ↔ heap_free nss x ∧ ¬ (rstart ≤ x < rend)) ∧
    (∀ x, ¬ heap_free nss x → mem s' !! x = mem s !! x) ∧ meta <$> regions s' = meta <$> regions s.
Proof.
  induction n as [|n IH]; intros s nss blk rstart rend Hok H0 H8 Hblk Hend Hend8 Hn; [lia|]. cbn [remove_loop].
  destruct (decide (rstart < rend)); [|exists s, nss; split_and!; try done; naive_solver lia].
  destruct (lmm_find_free_ok s nss rstart Hok ltac:(lia) H8) as (a & k & fl & E & Ha & Hmin & Hc).
  rewrite (bind_ok _ _ _ _ _ E), bind_assert by (apply bool_decide_true; lia).
  destruct (decide (k = 0 ∨ rend ≤ a)) as [Hdone|Hmore].
  { exists s, nss. split_and!; try done. intros x. split; [|naive_solver]. intros Hx. split; [done|]. intros Hin.
    pose proof (Hmin x Hx ltac:(lia)). destruct Hdone as [->|]; [|lia]. destruct Hc as [[= -> _]|(j & r & ns & b & _ & _ & _ & _ & _ & Hin' & ?)]; [lia|].
    unfold in_block in Hin'. lia. }
  destruct Hc as [[= -> -> _]|Hc]; [lia|].
  destruct (candidate_aligned s nss rstart a k fl Hok H8 Hmin Hc) as (Ha8 & Hk8 & Hkpos & Hak).
  rewrite (u32_small (a + k)), (u32_small (rend - a)) by (unfold word; lia).
  set (size := if decide (rend < a + k) then rend - a else k).
  assert (0 < size ≤ k ∧ size mod 8 = 0 ∧ (a + size = a + k ∨ rend ≤ a + size) ∧ a + size ≤ rend) as (? & ? & ? & ?).
  { unfold size. case_decide; split_and!; try lia; dlia. }
  destruct (alloc_candidate_heap s nss rstart a k fl size Hok Hc) as (s1 & j & r & ns & ns' & Ea & Hns & Htk & Hbs & Htn & Hnf); try done.
  rewrite (bind_ok _ _ _ _ _ Ea), bind_assert by (by apply bool_decide_true).
  assert (all_reaching a rend (<[j := ns']> nss) < n)%nat.
  { pose proof (all_reaching_mono rstart a rend nss ltac:(lia)).
    pose proof (reaching_taken nss j _ _ ns ns' a k size rend Hns Hbs Htn). naive_solver lia. }
  destruct (IH s1 (<[j := ns']> nss) blk a rend) as (s' & nss' & Er & Hok' & Hf & Hm & Hmeta); try done; try lia; [apply Htk|].
  destruct Htk as [_ [Hcarve Hgone] Hm1 Hmeta1 _].
  exists s', nss'. split_and!; try done; [| |by rewrite Hmeta].
  - intros x. rewrite Hf, Hcarve. split.
    + intros [Hx Hout]. split; [by left|]. intros Hin. pose proof (Hmin x ltac:(apply Hcarve; by left) ltac:(lia)). lia.
    + intros [[Hx|Hx] Hout]; [|lia]. split; [done|]. lia.
  - intros x Hx. rewrite Hm, Hm1; [done|done|]. intros Hx1. apply Hx, Hcarve. by left.
Qed.

Lemma all_reaching_bound s nss lo hi : lmm_ok s nss → (all_reaching lo hi nss ≤ length (regions s) * size (mem s))%nat.
Proof.
  intros Hok. rewrite (Forall2_length _ _ _ (lk_regions _ _ Hok)).
  assert (∀ l, (∀ ns, ns ∈ l → (reaching lo hi ns ≤ size (mem s))%nat) → (all_reaching lo hi l ≤ length l * size (mem s))%nat) as Hl.
  { induction l as [|ns l IH]; intros Hns; [done|]. cbn. pose proof (Hns ns ltac:(by left)).
    pose proof (IH ltac:(intros ns' ?; apply Hns; by right)). unfold all_reaching in *. lia. }
  apply Hl. intros ns (j & Hj)%list_elem_of_lookup.
  destruct (Forall2_lookup_r _ _ _ _ _ (lk_regions _ _ Hok) Hj) as (r & _ & _ & Hn & Hbs & _).
  pose proof (nodes_length _ _ _ _ _ Hbs Hn). unfold reaching.
  pose proof (length_filter (λ b : block, b.1 < hi ∧ lo < b.1 + b.2) ns). lia.
Qed.

Lemma lmm_remove_free_ok s nss blk rend bsize :
  lmm_ok s nss → 0 ≤ blk < rend → rend ≤ W32 - 8 → blk mod 8 = 0 → rend mod 8 = 0 → u32 (blk + bsize) = rend →
  ∃ s' nss', lmm_remove_free blk bsize s = Ok tt s' ∧ lmm_ok s' nss' ∧
    (∀ x, heap_free nss' x ↔ heap_free nss x ∧ ¬ (blk ≤ x < rend)) ∧
    (∀ x, ¬ heap_free nss x → mem s' !! x = mem s !! x) ∧ meta <$> regions s' = meta <$> regions s.
Proof.
  intros Hok Hb Hend Hb8 Hend8 Erend. unfold lmm_remove_free. rewrite Erend, bind_assert by (apply bool_decide_true; lia).
  rewrite bind_get. pose proof (all_reaching_bound s nss blk rend Hok). apply remove_loop_ok; done || lia.
Qed.

(** ** The checks of lmm_dump *)
Lemma dump_nodes_ok s r ns rest : ∀ pre n c,
  bounds_ok r → region_ok (mem s) r ns → ns = pre ++ rest → (length rest < n)%nat → 0 ≤ c → c + total rest < W32 →
  dump_nodes n r (first rest 0) c s = Ok (c + total rest) s.
Proof.
  induction rest as [|b rest IH]; intros pre [|n] c Hb Hr E Hn Hc Ht; cbn in Hn; try lia; cbn [first dump_nodes total] in *.
  { rewrite decide_True by done. rewrite Z.add_0_r. done. }
  pose proof Hb as (_ & Hhi & _). pose proof Hr as (_ & Hnd & Hbs & _). rewrite E in Hnd, Hbs.
  pose proof (proj1 (blocks_ok_mid _ _ _ _ _) Hbs) as (_ & _ & Hbk & ? & Hrest). pose proof (block_ok_8 b Hbk).
  pose proof Hbk as (? & ? & ? & ?). pose proof (total_nonneg _ _ _ Hrest). rewrite decide_False by lia.
  rewrite (bind_ok _ _ _ _ _ (node_size_ok _ _ _ _ _ _ _ Hhi Hbs Hnd)), (bind_ok _ _ _ _ _ (node_next_ok _ _ _ _ _ Hnd)).
  rewrite !land_7, !bind_assert by (apply bool_decide_true; done || lia).
  rewrite (bind_assert (bool_decide (_ ∨ _))).
  2:{ apply bool_decide_true. destruct rest as [|c' rest]; [by left|]. right. cbn in *. lia. }
  rewrite bind_assert, u32_small by (apply bool_decide_true; lia) || (unfold word; lia).
  rewrite (IH (pre ++ [b]) n (c + b.2)); try done; [f_equal; lia|by rewrite <- app_assoc|lia..].
Qed.

Lemma lmm_dump_ok s nss : lmm_ok s nss → lmm_dump s = Ok tt s.
Proof.
  intros [HF HB _]. unfold lmm_dump. rewrite bind_get.
  revert HB. induction HF as [|r ns rs nss Hr HF IH]; intros HB; [done|]. apply Forall_cons in HB as [Hb HB].
  cbn [dump_regions]. pose proof Hb as (? & ? & _). pose proof Hr as (En & Hnd & Hbs & Et).
  assert (first ns 0 = 0 ∨ (r_min r ≤ first ns 0 ∧ first ns 0 < r_max r)) as Hf.
  { destruct ns as [|b ns]; [by left|]. right. cbn in *. destruct Hbs as (? & (_ & _ & ? & _) & ? & _). lia. }
  destruct (total_bounds _ _ _ Hbs) as [? _]; [lia|]. rewrite En, Et.
  rewrite !bind_assert by (apply bool_decide_true; rewrite ?u32_small by (unfold word; lia); lia).
  unfold fuel. rewrite bind_gets. pose proof (nodes_length _ _ _ _ _ Hbs Hnd).
  rewrite (bind_ok _ _ _ _ _ (dump_nodes_ok s r ns ns [] (S (size (mem s))) 0 Hb Hr eq_refl ltac:(lia) ltac:(lia) ltac:(lia))).
  rewrite bind_assert by (by apply bool_decide_true). by apply IH.
Qed.
