(* ===== verification/LmmBoot.v ===== *)
(** * The heap at boot (410kern/boot/util_lmm.c and 410kern/entry.c)

    [mb_util_lmm] hands the memory that the boot loader found to the list memory
    manager, except for the parts that are in use; [mb_entry] then takes away
    what is below one megabyte and above [USER_MEM_START].  The addresses the
    linker gives to the kernel image are parameters, and physical memory is
    mapped at address 0 ([phys_mem_va]). *)

From S2P Require Import Prelude CString FrameAlloc Lmm LmmInv LmmFree LmmAlloc LmmGen LmmHeap LmmFind MallocHeap.

(** ** boot/multiboot.h

    The strings that the structs point to matter by their length only. *)
Record multiboot_module : Type := mk_module {
  mod_start : Z;
  mod_end : Z;
  mod_string : Z;
  mod_string_len : Z;
}.

Record mbinfo : Type := mk_mbinfo {
  mb_flags : Z;
  mem_lower : Z;
  mem_upper : Z;
  mb_cmdline : Z;
  mb_cmdline_len : Z;
  mods_addr : Z;
  mods : list multiboot_module;
}.

Definition MULTIBOOT_MEMORY : Z := 1.
Definition MULTIBOOT_CMDLINE : Z := 4.
Definition MULTIBOOT_MODS : Z := 8.

Definition LMM_PRI_1MB : Z := -2.
Definition LMM_PRI_16MB : Z := -1.
Definition LMM_PRI_HIGH : Z := 0.
Definition LMMF_1MB : Z := 1.
Definition LMMF_16MB : Z := 2.

(** The static region structs, by their names. *)
Definition reg1mb : Z := 1.
Definition reg16mb : Z := 2.
Definition reghigh : Z := 3.

(** ** mb_util_lmm *)

(** [skip]: cut the block off at the hole, or continue behind the hole. *)
Definition skip (hole : Z * Z) (min max : Z) : Z + Z :=
  if decide (hole.1 < max ∧ min < hole.2) then
    if decide (min < hole.1) then inl hole.1 else inr hole.2
  else inl max.

(** All skips in order: the end of the block, or the address to retry with. *)
Fixpoint skips (holes : list (Z * Z)) (min max : Z) : Z + Z :=
  match holes with
  | [] => inl max
  | hole :: holes' =>
      match skip hole min max with
      | inl max' => skips holes' min max'
      | inr min' => inr min'
      end
  end.

Definition module_holes (m : multiboot_module) : list (Z * Z) :=
  (if decide (mod_string m ≠ 0) then [(mod_string m, u32 (mod_string m + mod_string_len m + 1))] else []) ++
  [(mod_start m, mod_end m)].

Section boot.
Context (kernel_start kernel_end kimg_start : Z).

(** The areas to skip: below one megabyte, above the memory, the kernel, the
    command line and the modules. *)
Definition boot_holes (mbi : mbinfo) : list (Z * Z) :=
  let cmdline_start_pa := if decide (Z.land (mb_flags mbi) MULTIBOOT_CMDLINE ≠ 0) then mb_cmdline mbi else 0 in
  let cmdline_end_pa := if decide (cmdline_start_pa ≠ 0) then u32 (cmdline_start_pa + mb_cmdline_len mbi + 1) else 0 in
  [(u32 (mem_lower mbi * 1024), 0x100000); (u32 (0x100000 + mem_upper mbi * 1024), 0xffffffff);
   (kernel_start, kernel_end); (kimg_start, kernel_end); (cmdline_start_pa, cmdline_end_pa)] ++
  (if decide (Z.land (mb_flags mbi) MULTIBOOT_MODS ≠ 0 ∧ mods mbi ≠ []) then
     (mods_addr mbi, u32 (mods_addr mbi + Z.of_nat (length (mods mbi)) * 16)) :: mjoin (module_holes <$> mods mbi)
   else []).

(** The loop over the blocks between the holes. *)
Fixpoint add_blocks (n : nat) (holes : list (Z * Z)) (min : Z) : M lmm unit :=
  match n with
  | O => halt OutOfFuel
  | S n' =>
      min' ← match skips holes min 0xffffffff with
             | inl max => lmm_add_free min (u32 (max - min)) ;; mret max
             | inr min' => mret min'
             end;
      if decide (min' < 0xffffffff) then add_blocks n' holes min' else mret tt
  end.

Definition mb_util_lmm (mbi : mbinfo) : M lmm unit :=
  lmm_init ;;
  lmm_add_region reg1mb 0 0x100000 (Z.lor LMMF_1MB LMMF_16MB) LMM_PRI_1MB ;;
  lmm_add_region reg16mb 0x100000 0xf00000 LMMF_16MB LMM_PRI_16MB ;;
  lmm_add_region reghigh 0x1000000 0xfeffffff 0 LMM_PRI_HIGH ;;
  add_blocks (2 * length (boot_holes mbi) + 2) (boot_holes mbi) 0x500.

(** ** entry.c, up to the end of the memory setup: the number of frames *)
Definition mb_entry (mbi : mbinfo) : M lmm Z :=
  kernel_assert (bool_decide (Z.land (mb_flags mbi) MULTIBOOT_MEMORY ≠ 0)) ;;
  let n_phys_frames := u32 (mem_upper mbi + 1024) / (PAGE_SIZE / 1024) in
  kernel_assert (bool_decide (USER_MEM_START / PAGE_SIZE < n_phys_frames)) ;;
  mb_util_lmm mbi ;;
  lmm_remove_free 0 0x100000 ;;
  lmm_remove_free USER_MEM_START (u32 (-8 - USER_MEM_START)) ;;
  mret n_phys_frames.
End boot.

Definition demo_mbinfo : mbinfo := mk_mbinfo 5 639 130048 0x9f000 20 0 [].

(** ** lmm_add_free *)
Lemma in_other_region s nss i j r r' x :
  lmm_ok s nss → regions s !! i = Some r → regions s !! j = Some r' → r_min r ≤ x < r_max r → r_min r' ≤ x < r_max r' → i = j.
Proof.
  intros Hok Hi Hj ? ?. destruct (decide (i = j)); [done|]. destruct (lk_disjoint _ _ Hok i j r r'); done || lia.
Qed.

(** [x] is in one of the regions from the [j]-th on. *)
Definition in_regions_from (s : lmm) (j : nat) (x : Z) : Prop :=
  ∃ i r, (j ≤ i)%nat ∧ regions s !! i = Some r ∧ r_min r ≤ x < r_max r.

Lemma in_regions_meta s s' j x : meta <$> regions s' = meta <$> regions s → in_regions_from s j x → in_regions_from s' j x.
Proof.
  intros E (i & r & Hi & Hr & Hx). destruct (meta_lookup _ _ _ _ E Hr) as (r' & Hr' & (_ & E1 & E2 & _)%meta_inv).
  exists i, r'. by rewrite E1, E2.
Qed.

Section add_free.
Context (min max : Z).
Hypothesis Hmin : 0 < min < max.
Hypothesis Hmax : max ≤ W32 - 8.
Hypothesis Hmin8 : min mod 8 = 0.
Hypothesis Hmax8 : max mod 8 = 0.

Lemma add_free_region_ok s nss j r :
  lmm_ok s nss → regions s !! j = Some r → (∀ x, min ≤ x < max → r_min r ≤ x < r_max r → ¬ heap_free nss x) →
  ∃ s' nss', add_free_region min max r s = Ok tt s' ∧ lmm_ok s' nss' ∧ meta <$> regions s' = meta <$> regions s ∧
    ∀ x, heap_free nss' x ↔ heap_free nss x ∨ (min ≤ x < max ∧ r_min r ≤ x < r_max r).
Proof using All.
  intros Hok Hr Hnf. destruct (lmm_ok_region s nss j r Hok Hr) as (_ & _ & _ & Hb). pose proof Hb as (? & ? & ? & ? & _).
  unfold add_free_region. rewrite !land_7, !bind_assert by (apply bool_decide_true; done || lia).
  case_decide as Hov; [|exists s, nss; split_and!; try done; intros x; split; [by left|intros [?|?]; [done|lia]]].
  set (lo := if decide (min < r_min r) then r_min r else min). set (hi := if decide (r_max r < max) then r_max r else max).
  assert (lo mod 8 = 0 ∧ hi mod 8 = 0 ∧ 0 < lo < hi ∧ r_min r ≤ lo ∧ hi ≤ r_max r ∧ ∀ x, lo ≤ x < hi ↔ min ≤ x < max ∧ r_min r ≤ x < r_max r)
    as (E1 & E2 & ? & ? & ? & Hx).
  { unfold lo, hi. repeat case_decide; split_and!; try done; try lia. }
  rewrite bind_assert by (apply bool_decide_true; lia). rewrite u32_small by (unfold word; lia).
  destruct (ext_aligned lo (hi - lo) E1) as [El Eh]. rewrite up8_id in Eh by dlia.
  destruct (lmm_free_takes s nss lo (hi - lo)) as (s' & nss' & E & Hok' & [Hc _] & _ & Hmeta); rewrite ?El, ?Eh in *; try done; try lia.
  - unfold word. lia.
  - exists r. split; [by eapply list_elem_of_lookup_2|lia].
  - intros x Hin. assert (min ≤ x < max ∧ r_min r ≤ x < r_max r) as [??] by (apply Hx; lia). by apply Hnf.
  - exists s', nss'. split_and!; try done. intros x. rewrite Hc, <- Hx. replace (lo + (hi - lo)) with hi by lia. done.
Qed.

Lemma add_free_loop_ok k : ∀ s nss j,
  lmm_ok s nss → (j + k = length (regions s))%nat → (∀ x, min ≤ x < max → in_regions_from s j x → ¬ heap_free nss x) →
  ∃ s' nss', add_free_loop k j min max s = Ok tt s' ∧ lmm_ok s' nss' ∧ meta <$> regions s' = meta <$> regions s ∧
    ∀ x, heap_free nss' x ↔ heap_free nss x ∨ (min ≤ x < max ∧ in_regions_from s j x).
Proof using All.
  induction k as [|k IH]; intros s nss j Hok Hj Hnf; cbn [add_free_loop].
  { exists s, nss. split_and!; try done. intros x. split; [by left|]. intros [?|[_ (i & r & ? & Hr%lookup_lt_Some & _)]]; [done|lia]. }
  destruct (region_at s nss Hok j) as (r & ns & Hr & _ & Er & _); [lia|]. rewrite (bind_ok _ _ _ _ _ Er).
  destruct (add_free_region_ok s nss j r Hok Hr) as (s1 & nss1 & E1 & Hok1 & Hm1 & Hf1).
  { intros x Hx Hin. apply Hnf; [done|]. by exists j, r. }
  rewrite (bind_ok _ _ _ _ _ E1).
  assert (∀ x, in_regions_from s j x ↔ (r_min r ≤ x < r_max r) ∨ in_regions_from s (S j) x) as Hsplit.
  { intros x. split.
    - intros (i & r' & Hi & Hr' & Hx). destruct (decide (i = j)) as [->|]; [left; by simplify_eq|right; exists i, r'; split_and!; done || lia].
    - intros [Hx|(i & r' & Hi & Hr' & Hx)]; [by exists j, r|exists i, r'; split_and!; done || lia]. }
  assert (∀ x, in_regions_from s1 (S j) x ↔ in_regions_from s (S j) x) as Hs1.
  { intros x. split; apply in_regions_meta; done. }
  destruct (IH s1 nss1 (S j)) as (s' & nss' & E & Hok' & Hm & Hf); [done| | |].
  { rewrite <- (length_fmap meta), Hm1, length_fmap. lia. }
  { intros x Hx Hin%Hs1. rewrite Hf1. intros [Hh|[_ Hin']].
    - apply (Hnf x); [done|apply Hsplit; by right|done].
    - destruct Hin as (i & r' & Hi & Hr' & Hx'). pose proof (in_other_region s nss i j r' r x Hok Hr' Hr Hx' Hin'). lia. }
  exists s', nss'. split_and!; [done|done|by rewrite Hm|]. intros x. rewrite Hf, Hf1, Hs1, Hsplit. tauto.
Qed.
End add_free.

(** [x] rounded down to a multiple of 8. *)
Definition down8 (x : Z) : Z := x - x mod 8.

Lemma lmm_add_free_ok s nss min max :
  lmm_ok s nss → 0 < min < max → max ≤ W32 - 8 → (∀ x, min ≤ x < max → in_regions_from s 0 x) →
  (∀ x, min ≤ x < max → ¬ heap_free nss x) →
  lmm_add_free min (u32 (max - min)) s = Stop KernelPanic ∨
  ∃ s' nss', lmm_add_free min (u32 (max - min)) s = Ok tt s' ∧ lmm_ok s' nss' ∧ meta <$> regions s' = meta <$> regions s ∧
    ∀ x, heap_free nss' x ↔ heap_free nss x ∨ up8 min ≤ x < down8 max.
Proof.
  intros Hok Hmm Hmax Hin Hnf. pose proof (up8_spec min) as [Hu ?]. unfold lmm_add_free.
  rewrite align_up_eq, (u32_small (max - min)) by (unfold word; lia). replace (min + (max - min)) with max by lia.
  rewrite (u32_small max), align_down_eq by (unfold word; lia). fold (down8 max).
  assert (down8 max mod 8 = 0 ∧ down8 max ≤ max) as [Hd ?] by (unfold down8; dlia).
  destruct (decide (up8 min ≤ down8 max)) as [Hle|Hgt].
  2:{ left. rewrite bool_decide_false by done. done. }
  right. rewrite bind_assert by (by apply bool_decide_true). case_decide as Heq.
  { exists s, nss. split_and!; try done. intros x. split; [by left|intros [?|?]; [done|lia]]. }
  rewrite bind_get. destruct (add_free_loop_ok (up8 min) (down8 max) ltac:(lia) ltac:(lia) Hu Hd (length (regions s)) s nss 0)
    as (s' & nss' & E & Hok' & Hm & Hf); try done.
  { intros x Hx _. apply Hnf. lia. }
  exists s', nss'. split_and!; try done. intros x. rewrite Hf. split; [naive_solver|].
  intros [?|Hx]; [by left|right]. split; [done|]. apply Hin. lia.
Qed.

(** ** The holes *)
Definition in_hole (x : Z) (hole : Z * Z) : Prop := hole.1 ≤ x < hole.2.

Lemma skips_block holes : ∀ min max max', min < max → skips holes min max = inl max' →
  min < max' ≤ max ∧ (max' = max ∨ ∃ hole, hole ∈ holes ∧ max' = hole.1) ∧
  ∀ hole x, hole ∈ holes → min ≤ x < max' → ¬ in_hole x hole.
Proof.
  induction holes as [|h holes IH]; intros min max max' Hlt; cbn [skips].
  { intros [= ->]. split_and!; [lia|lia|by left|]. by intros hole x ?%elem_of_nil. }
  unfold skip. destruct (decide (h.1 < max ∧ min < h.2)) as [Hin|Hout]; [case_decide; [|done]|].
  - intros E. destruct (IH min h.1 max') as (? & Hb & Hh); [done|done|]. split_and!; try lia.
    + right. destruct Hb as [->|(hole & ? & ->)]; [exists h|exists hole]; set_solver.
    + intros hole x [->|Hhole]%elem_of_cons Hx; [unfold in_hole; lia|by apply Hh].
  - intros E. destruct (IH min max max') as (? & Hb & Hh); [done|done|]. split_and!; try lia.
    + destruct Hb as [->|(hole & ? & ->)]; [by left|right; exists hole; set_solver].
    + intros hole x [->|Hhole]%elem_of_cons Hx; [unfold in_hole; lia|by apply Hh].
Qed.

Lemma skips_retry holes : ∀ min max min', skips holes min max = inr min' → ∃ hole, hole ∈ holes ∧ min' = hole.2 ∧ min < min'.
Proof.
  induction holes as [|h holes IH]; intros min max min'; cbn [skips]; [done|]. unfold skip.
  destruct (decide (h.1 < max ∧ min < h.2)) as [Hin|Hout]; [case_decide|].
  - intros (hole & ? & ?)%IH. exists hole. set_solver.
  - intros [= <-]. exists h. split_and!; [by left|done|lia].
  - intros (hole & ? & ?)%IH. exists hole. set_solver.
Qed.

(** The bounds of the holes that lie above [min], and the end of memory: an
    iteration moves [min] to one of them. *)
Definition bounds_above (holes : list (Z * Z)) (min : Z) : nat :=
  length (filter (λ x, min < x) (0xffffffff :: holes.*1 ++ holes.*2)).

Lemma bounds_above_lt holes min min' :
  min < min' → min' ∈ 0xffffffff :: holes.*1 ++ holes.*2 → (bounds_above holes min' < bounds_above holes min)%nat.
Proof.
  intros Hlt. unfold bounds_above. generalize (0xffffffff :: holes.*1 ++ holes.*2). intros l.
  assert (∀ l : list Z, length (filter (λ x, (min' < x)%Z) l) ≤ length (filter (λ x, (min < x)%Z) l))%nat as Hle.
  { induction l0 as [|y l0 IH]; [done|]. rewrite !filter_cons. repeat case_decide; cbn; lia. }
  induction l as [|y l IH]; [by intros ?%elem_of_nil|]. specialize (Hle l). rewrite !filter_cons.
  intros [->|Hin]%elem_of_cons; [|specialize (IH Hin)]; repeat case_decide; cbn; lia.
Qed.

Lemma bounds_above_max holes min : (bounds_above holes min ≤ 2 * length holes + 1)%nat.
Proof.
  unfold bounds_above. pose proof (length_filter (λ x, min < x) (0xffffffff :: holes.*1 ++ holes.*2)) as H.
  cbn in H. rewrite length_app, !length_fmap in H. cbn. lia.
Qed.

(** ** The regions at boot *)
Definition boot_regions : list lmm_region :=
  [mk_region reg16mb 0 0x100000 0x1000000 2 (W32 - 1) 0; mk_region reg1mb 0 0 0x100000 3 (W32 - 2) 0;
   mk_region reghigh 0 0x1000000 (W32 - 8) 0 0 0].

Lemma boot_regions_ok m : lmm_ok (mk_lmm m boot_regions) [[]; []; []].
Proof.
  split; cbn.
  - repeat constructor.
  - repeat constructor; cbn; lia.
  - intros [|[|[|i]]] [|[|[|j]]] r r' Hi Hj Hne; cbn in *; try done; simplify_eq; cbn; lia.
Qed.

Lemma boot_regions_cover s x : meta <$> regions s = meta <$> boot_regions → 0 ≤ x < W32 - 8 → in_regions_from s 0 x.
Proof.
  intros E Hx. apply (in_regions_meta (mk_lmm ∅ boot_regions)); [done|].
  destruct (decide (x < 0x100000)); [|destruct (decide (x < 0x1000000))].
  - exists 1%nat. eexists. split_and!; [lia|done|cbn; lia..].
  - exists 0%nat. eexists. split_and!; [lia|done|cbn; lia..].
  - exists 2%nat. eexists. split_and!; [lia|done|cbn; lia..].
Qed.

(** The free bytes found so far. *)
Definition found (holes : list (Z * Z)) (min : Z) (nss : list (list block)) : Prop :=
  ∀ x, heap_free nss x → 0x500 ≤ x < min ∧ ∀ hole, hole ∈ holes → ¬ in_hole x hole.

Lemma add_blocks_ok holes top n : ∀ s nss min,
  (top, 0xffffffff) ∈ holes → top ≤ W32 - 8 → lmm_ok s nss → meta <$> regions s = meta <$> boot_regions →
  0x500 ≤ min < 0xffffffff → found holes min nss → (bounds_above holes min < n)%nat →
  add_blocks n holes min s = Stop KernelPanic ∨
  ∃ s' nss', add_blocks n holes min s = Ok tt s' ∧ lmm_ok s' nss' ∧ meta <$> regions s' = meta <$> boot_regions ∧
    ∀ x, heap_free nss' x → 0x500 ≤ x ∧ ∀ hole, hole ∈ holes → ¬ in_hole x hole.
Proof.
  induction n as [|n IH]; intros s nss min Htop Htop8 Hok Hmeta Hmin Hfound Hn; [lia|]. cbn [add_blocks].
  assert (∀ s' nss' min', lmm_ok s' nss' → meta <$> regions s' = meta <$> boot_regions → min < min' → found holes min' nss' →
    min' ∈ 0xffffffff :: holes.*1 ++ holes.*2 →
    (if decide (min' < 0xffffffff) then add_blocks n holes min' else mret tt) s' = Stop KernelPanic ∨
    ∃ s'' nss'', (if decide (min' < 0xffffffff) then add_blocks n holes min' else mret tt) s' = Ok tt s'' ∧ lmm_ok s'' nss'' ∧
      meta <$> regions s'' = meta <$> boot_regions ∧ ∀ x, heap_free nss'' x → 0x500 ≤ x ∧ ∀ hole, hole ∈ holes → ¬ in_hole x hole) as Hnext.
  { intros s' nss' min' Hok' Hmeta' Hlt Hf Hin. case_decide.
    - apply (IH s' nss'); try done; [lia|]. pose proof (bounds_above_lt holes min min' Hlt Hin). lia.
    - right. exists s', nss'. split_and!; try done. intros x Hx%Hf. naive_solver. }
  destruct (skips holes min 0xffffffff) as [max|min'] eqn:E.
  2:{ destruct (skips_retry _ _ _ _ E) as (hole & Hhole & -> & Hlt). rewrite bind_mret. apply (Hnext s nss); try done.
      - intros x Hx%Hfound. split; [lia|naive_solver].
      - apply elem_of_cons. right. apply elem_of_app. right. apply list_elem_of_fmap. by exists hole. }
  destruct (skips_block _ _ _ _ (proj2 Hmin) E) as (Hmax & Hb & Hh).
  assert (max ≤ top) as Hmt.
  { destruct (decide (max ≤ top)); [done|]. destruct (decide (min ≤ top)).
    - destruct (Hh (top, 0xffffffff) top Htop); [lia|]. unfold in_hole. cbn. lia.
    - destruct (Hh (top, 0xffffffff) min Htop); [lia|]. unfold in_hole. cbn. lia. }
  destruct (lmm_add_free_ok s nss min max Hok) as [Ep|(s1 & nss1 & E1 & Hok1 & Hm1 & Hf1)]; try lia.
  { intros x Hx. apply boot_regions_cover; [done|lia]. }
  { intros x Hx Hf%Hfound. lia. }
  { left. unfold mbind, M_bind. by rewrite Ep. }
  rewrite bind_assoc, (bind_ok _ _ _ _ _ E1), bind_mret. apply (Hnext s1 nss1); try done; [by rewrite Hm1|lia| |].
  - intros x [Hx%Hfound|Hx]%Hf1; [split; [lia|naive_solver]|]. pose proof (up8_spec min) as [_ ?].
    assert (down8 max ≤ max) by (unfold down8; dlia). split; [lia|]. intros hole Hhole. apply Hh; [done|lia].
  - apply elem_of_cons. destruct Hb as [->|(hole & Hhole & ->)]; [by left|right]. apply elem_of_app. left.
    apply list_elem_of_fmap. by exists hole.
Qed.

Lemma mb_util_lmm_ok ks ke ki mbi s :
  0 ≤ mem_upper mbi → 0x100000 + mem_upper mbi * 1024 ≤ W32 - 8 →
  mb_util_lmm ks ke ki mbi s = Stop KernelPanic ∨
  ∃ s' nss, mb_util_lmm ks ke ki mbi s = Ok tt s' ∧ lmm_ok s' nss ∧ meta <$> regions s' = meta <$> boot_regions ∧
    ∀ x, heap_free nss x → 0x500 ≤ x ∧ ∀ hole, hole ∈ boot_holes ks ke ki mbi → ¬ in_hole x hole.
Proof.
  intros Hmu Htop. unfold mb_util_lmm.
  rewrite (bind_ok _ _ _ _ _ (eq_refl : lmm_init s = Ok tt (mk_lmm (mem s) []))).
  rewrite (bind_ok3 _ _ _ _ (mk_lmm (mem s) []) tt (mk_lmm (mem s) boot_regions)) by (vm_compute; done).
  apply (add_blocks_ok _ (0x100000 + mem_upper mbi * 1024) _ _ [[]; []; []]); try done; try lia.
  - unfold boot_holes. rewrite (u32_small (0x100000 + _)) by (unfold word; lia).
    apply elem_of_app. left. apply elem_of_cons. right. apply elem_of_cons. by left.
  - apply boot_regions_ok.
  - intros x (ns & Hns & (b & Hb & _)). repeat (apply elem_of_cons in Hns as [->|Hns]; [by apply elem_of_nil in Hb|]).
    by apply elem_of_nil in Hns.
  - pose proof (bounds_above_max (boot_holes ks ke ki mbi) 0x500). lia.
Qed.

(** C22. The heap after boot: for a machine whose memory ends below the top of the
    address space, the setup of [mb_entry] ends, either with a panic or with free
    lists that satisfy the invariant of the heap: every free byte lies between
    one megabyte and [USER_MEM_START], and in none of the areas that the kernel
    image, the command line, the modules and the devices occupy. *)
Theorem boot_heap_correct kernel_start kernel_end kimg_start mbi s :
  0 ≤ mem_upper mbi → 0x100000 + mem_upper mbi * 1024 ≤ W32 - 8 →
  mb_entry kernel_start kernel_end kimg_start mbi s = Stop KernelPanic ∨
  ∃ n s' nss, mb_entry kernel_start kernel_end kimg_start mbi s = Ok n s' ∧ n = (mem_upper mbi + 1024) / 4 ∧
    heap_inv (mk_heap s' ∅) nss ∧
    ∀ x hole, heap_free nss x → hole ∈ boot_holes kernel_start kernel_end kimg_start mbi → ¬ in_hole x hole.
Proof.
  intros Hmu Htop. unfold mb_entry. rewrite (u32_small (mem_upper mbi + 1024)) by (unfold word; lia).
  destruct (bool_decide (Z.land (mb_flags mbi) MULTIBOOT_MEMORY ≠ 0)); [|by left].
  destruct (bool_decide (USER_MEM_START / PAGE_SIZE < _)); [|by left]. rewrite !bind_assert by done.
  destruct (mb_util_lmm_ok kernel_start kernel_end kimg_start mbi s Hmu Htop) as [E|(s1 & nss1 & E & Hok1 & _ & Hf1)].
  { left. unfold mbind at 1, M_bind at 1. by rewrite E. }
  right. rewrite (bind_ok _ _ _ _ _ E).
  destruct (lmm_remove_free_ok s1 nss1 0 0x100000 0x100000) as (s2 & nss2 & E2 & Hok2 & Hf2 & _); try done.
  rewrite (bind_ok _ _ _ _ _ E2).
  destruct (lmm_remove_free_ok s2 nss2 USER_MEM_START (W32 - 8) (u32 (-8 - USER_MEM_START))) as (s3 & nss3 & E3 & Hok3 & Hf3 & _); try done.
  rewrite (bind_ok _ _ _ _ _ E3). exists ((mem_upper mbi + 1024) / 4), s3, nss3.
  assert (∀ x, heap_free nss3 x → x < W32 - 8) as Hw.
  { intros x (ns & (j & Hj)%list_elem_of_lookup & Hx).
    destruct (Forall2_lookup_r _ _ _ _ _ (lk_regions _ _ Hok3) Hj) as (r & Hr & _ & _ & Hbs & _).
    destruct (lmm_ok_region s3 nss3 j r Hok3 Hr) as (_ & _ & _ & ? & ? & _). apply (free_in_bounds _ _ _ _ Hbs) in Hx. lia. }
  split_and!; [done|done| |].
  - split; cbn; [done| |by intros a n t; rewrite lookup_empty|by intros a b n k t u x; rewrite lookup_empty].
    intros x Hx. pose proof (Hw x Hx). apply Hf3 in Hx as [[[Hx1 _]%Hf1 Hx2]%Hf2 Hx3]. unfold KERNEL_HEAP_START. lia.
  - intros x hole [[Hx _]%Hf2 _]%Hf3. by apply Hf1.
Qed.

(** A machine with 128 megabytes. *)
Lemma boot_heap_correct_witness :
  ∃ s' nss, mb_entry 0x100000 0x180000 0x100000 demo_mbinfo (mk_lmm ∅ []) = Ok 32768 s' ∧ heap_inv (mk_heap s' ∅) nss ∧
    r_free <$> regions s' = [15204352; 0; 0].
Proof.
  destruct (boot_heap_correct 0x100000 0x180000 0x100000 demo_mbinfo (mk_lmm ∅ []) ltac:(done) ltac:(done))
    as [E|(n & s' & nss & E & -> & Hinv & _)]; [vm_compute in E; discriminate|].
  exists s', nss. split_and!; [exact E|done|].
  assert (match mb_entry 0x100000 0x180000 0x100000 demo_mbinfo (mk_lmm ∅ []) with
          | Ok _ s => r_free <$> regions s = [15204352; 0; 0] | Stop _ => False end) as Hr by (vm_compute; done).
  by rewrite E in Hr.
Defined.

(** A gap between two areas with no aligned unit in it makes the setup panic. *)
Example tiny_gap_panics s : lmm_add_free 0x501 2 s = Stop KernelPanic.
Proof. done. Qed.
