(* ===== verification/KeyHelp.v ===== *)
(** * From scan codes to characters (410kern/x86/keyhelp.c)

    The decoder keeps the modifier keys that are down, the sequences of more
    than one byte it is in the middle of, and its position in a pause sequence.
    [process_scancode] returns a word with the modifiers, the result bits and the
    character; the keyboard interrupt (Syscalls.v) takes the character of a key
    that is released.  The typing of a text gives the characters of the text. *)

From stdpp Require Import strings.
From S2P Require Import Prelude Locks Sched CString FrameAlloc Paging VM Console Keyboard Syscalls.

(** ** keyhelp.h *)
Definition KH_STATE_SHIFT : Z := 16.
Definition KH_STATE_SMASK : Z := 0x0FF00.
Definition KH_RMODS_SHIFT : Z := 16.
Definition KH_RAWCHAR_SHIFT : Z := 8.
Definition KH_CHAR_SHIFT : Z := 0.

Definition KH_LSHIFT_KEY : Z := 0x8000.
Definition KH_RSHIFT_KEY : Z := 0x4000.
Definition KH_LCONTROL_KEY : Z := 0x2000.
Definition KH_RCONTROL_KEY : Z := 0x1000.
Definition KH_LALT_KEY : Z := 0x0800.
Definition KH_RALT_KEY : Z := 0x0400.
Definition KH_CAPS_LOCK : Z := 0x0200.
Definition KH_NUM_LOCK : Z := 0x0100.

Definition KH_RESULT_HASRAW : Z := 0x08.
Definition KH_RESULT_HASDATA : Z := 0x04.
Definition KH_RESULT_NUMPAD : Z := 0x02.
Definition KH_RESULT_MAKE : Z := 0x01.

(** The upper code plane: [enum kh_extended_e]. *)
Definition KHE_UNDEFINED : Z := 0x80.
Definition KHE_ARROW_UP : Z := 0x81.
Definition KHE_ARROW_LEFT : Z := 0x82.
Definition KHE_ARROW_DOWN : Z := 0x83.
Definition KHE_ARROW_RIGHT : Z := 0x84.
Definition KHE_LALT : Z := 0x85.
Definition KHE_RALT : Z := 0x86.
Definition KHE_LCTL : Z := 0x87.
Definition KHE_RCTL : Z := 0x88.
Definition KHE_LSHIFT : Z := 0x89.
Definition KHE_RSHIFT : Z := 0x8A.
Definition KHE_CAPSLOCK : Z := 0x8B.
Definition KHE_NUMLOCK : Z := 0x8C.
(** [KHE_F k] is [KHE_Fk]. *)
Definition KHE_F (k : Z) : Z := 0x8C + k.
Definition KHE_PAUSE : Z := 0x99.
Definition KHE_PRINT_SCREEN : Z := 0x9A.

(** ** The static variables of keyhelp.c

    A [short] and the [int] results are kept as the pattern of their bits. *)
Record keyhelp : Type := mk_keyhelp { key_state : Z; key_internal_state : Z; key_sequence : Z }.

Definition KH_PRSCR_UP_SCAN : Z := 0x0008.
Definition KH_PRSCR_DOWN_SCAN : Z := 0x0004.
Definition KH_PAUSE_SCAN : Z := 0x0002.
Definition KH_EXTENDED_SCAN : Z := 0x0001.

Definition upd_state (f : Z → Z) : M keyhelp unit :=
  modify (λ k, mk_keyhelp (f (key_state k)) (key_internal_state k) (key_sequence k)).
Definition upd_internal (f : Z → Z) : M keyhelp unit :=
  modify (λ k, mk_keyhelp (key_state k) (f (key_internal_state k)) (key_sequence k)).
Definition set_sequence (n : Z) : M keyhelp unit :=
  modify (λ k, mk_keyhelp (key_state k) (key_internal_state k) n).

(** [x |= b], [x &= ~b] and [x & b]. *)
Definition set_bit (b x : Z) : Z := Z.lor x b.
Definition clear_bit (b x : Z) : Z := Z.ldiff x b.
Definition has_bit (b x : Z) : bool := bool_decide (Z.land x b ≠ 0).

Definition KHS_SHIFT_CORE (ks : Z) : bool := has_bit (Z.lor KH_LSHIFT_KEY KH_RSHIFT_KEY) ks.
Definition KHS_CTL_CORE (ks : Z) : bool := has_bit (Z.lor KH_LCONTROL_KEY KH_RCONTROL_KEY) ks.

(** ** process_simple_scan

    What the case of a scan code does: a fixed character, a character that
    depends on modifiers (the three macros), a key of the numeric pad, a modifier
    that is down while its key is, a lock that a press toggles, and the three
    codes that are also part of a pause sequence. *)
Inductive key : Type :=
  | Plain (c : Z)
  | Shift (s u : Z)
  | ShiftCtl (cc s u : Z)
  | ShiftCapsCtl (cc s u : Z)
  | Numpad (c : Z)
  | Modifier (rcode bit : Z)
  | Lock (rcode bit : Z)
  | PauseStart
  | Undefined.

Definition simple_key (scancode : Z) : key :=
  match scancode with
  | 0x1 => Plain 0x1B
  | 0x2 => Shift 33 49 | 0x3 => ShiftCtl 0x00 64 50 | 0x4 => Shift 35 51 | 0x5 => Shift 36 52
  | 0x6 => Shift 37 53 | 0x7 => ShiftCtl 0x1E 94 54 | 0x8 => Shift 38 55 | 0x9 => Shift 42 56
  | 0xA => Shift 40 57 | 0xB => Shift 41 48 | 0xC => ShiftCtl 0x1F 95 45 | 0xD => Shift 43 61
  | 0xE => Plain 8 | 0xF => Plain 9
  | 0x10 => ShiftCapsCtl 0x11 81 113 | 0x11 => ShiftCapsCtl 0x17 87 119 | 0x12 => ShiftCapsCtl 0x05 69 101
  | 0x13 => ShiftCapsCtl 0x12 82 114 | 0x14 => ShiftCapsCtl 0x14 84 116 | 0x15 => ShiftCapsCtl 0x19 89 121
  | 0x16 => ShiftCapsCtl 0x15 85 117 | 0x17 => ShiftCapsCtl 0x09 73 105 | 0x18 => ShiftCapsCtl 0x0F 79 111
  | 0x19 => ShiftCapsCtl 0x10 80 112 | 0x1A => ShiftCapsCtl 0x1B 123 91 | 0x1B => ShiftCapsCtl 0x1D 125 93
  | 0x1C => Plain 10
  | 0x1D => Modifier KHE_LCTL KH_LCONTROL_KEY
  | 0x1E => ShiftCapsCtl 0x01 65 97 | 0x1F => ShiftCapsCtl 0x13 83 115 | 0x20 => ShiftCapsCtl 0x04 68 100
  | 0x21 => ShiftCapsCtl 0x06 70 102 | 0x22 => ShiftCapsCtl 0x07 71 103 | 0x23 => ShiftCapsCtl 0x08 72 104
  | 0x24 => ShiftCapsCtl 0x0A 74 106 | 0x25 => ShiftCapsCtl 0x0B 75 107 | 0x26 => ShiftCapsCtl 0x0C 76 108
  | 0x27 => Shift 58 59 | 0x28 => Shift 34 39 | 0x29 => Shift 126 96
  | 0x2A => Modifier KHE_LSHIFT KH_LSHIFT_KEY
  | 0x2B => ShiftCtl 0x1C 124 92
  | 0x2C => ShiftCapsCtl 0x1A 90 122 | 0x2D => ShiftCapsCtl 0x18 88 120 | 0x2E => ShiftCapsCtl 0x03 67 99
  | 0x2F => ShiftCapsCtl 0x16 86 118 | 0x30 => ShiftCapsCtl 0x02 66 98 | 0x31 => ShiftCapsCtl 0x0E 78 110
  | 0x32 => ShiftCapsCtl 0x0D 77 109
  | 0x33 => Shift 60 44 | 0x34 => Shift 62 46 | 0x35 => Shift 63 47
  | 0x36 => Modifier KHE_RSHIFT KH_RSHIFT_KEY
  | 0x37 => Numpad 42
  | 0x38 => Modifier KHE_LALT KH_LALT_KEY
  | 0x39 => Plain 32
  | 0x3A => Lock KHE_CAPSLOCK KH_CAPS_LOCK
  | 0x3B => Plain (KHE_F 1) | 0x3C => Plain (KHE_F 2) | 0x3D => Plain (KHE_F 3) | 0x3E => Plain (KHE_F 4)
  | 0x3F => Plain (KHE_F 5) | 0x40 => Plain (KHE_F 6) | 0x41 => Plain (KHE_F 7) | 0x42 => Plain (KHE_F 8)
  | 0x43 => Plain (KHE_F 9) | 0x44 => Plain (KHE_F 10)
  | 0x45 => Lock KHE_NUMLOCK KH_NUM_LOCK
  | 0x47 => Numpad 55 | 0x48 => Numpad 56 | 0x49 => Numpad 57 | 0x4A => Numpad 45
  | 0x4B => Numpad 52 | 0x4C => Numpad 53 | 0x4D => Numpad 54 | 0x4E => Numpad 43
  | 0x4F => Numpad 49 | 0x50 => Numpad 50 | 0x51 => Numpad 51 | 0x52 => Numpad 48 | 0x53 => Numpad 46
  | 0x57 => Plain (KHE_F 11) | 0x58 => Plain (KHE_F 12)
  | 0x61 => PauseStart
  | _ => Undefined
  end.

(** [KHS_SHIFT], [KHS_SHIFTCTL] and [KHS_SHIFTCAPSCTL]: the character. *)
Definition shifted (ks s u : Z) : Z := if KHS_SHIFT_CORE ks then s else u.
Definition shiftctl (ks cc s u : Z) : Z := if KHS_CTL_CORE ks then cc else shifted ks s u.
Definition shiftcapsctl (ks cc s u : Z) : Z :=
  if KHS_CTL_CORE ks then cc
  else if xorb (KHS_SHIFT_CORE ks) (has_bit KH_CAPS_LOCK ks) then s else u.

(** The step of a pause sequence at a code that can be part of one: [true] when
    it is, and otherwise the sequence is given up. *)
Definition pause_step (stage : Z) : M keyhelp bool :=
  k ← get;
  if has_bit KH_PAUSE_SCAN (key_internal_state k) && bool_decide (key_sequence k = stage) then
    set_sequence (stage + 1) ;;
    mret true
  else
    upd_internal (clear_bit KH_PAUSE_SCAN) ;;
    set_sequence 0 ;;
    mret false.

(** The word for a character and a raw character. *)
Definition result (res code rcode : Z) : Z :=
  let hasdata := bool_decide (rcode ≠ KHE_UNDEFINED ∧ code ≠ KHE_UNDEFINED) in
  let res := if hasdata then Z.lor res (Z.shiftl KH_RESULT_HASDATA KH_RMODS_SHIFT) else res in
  let code := if hasdata then code else 0x00 in
  Z.lor (Z.lor (Z.lor res (Z.shiftl code KH_CHAR_SHIFT)) (Z.shiftl rcode KH_RAWCHAR_SHIFT))
        (Z.shiftl KH_RESULT_HASRAW KH_RMODS_SHIFT).

Definition press_bit (pressed : bool) (bit : Z) : M keyhelp unit :=
  upd_state (if pressed then set_bit bit else clear_bit bit).

Definition toggle_bit (pressed : bool) (bit : Z) : M keyhelp unit :=
  if pressed then upd_state (λ ks, if has_bit bit ks then clear_bit bit ks else set_bit bit ks) else mret tt.

Definition NUMPAD : Z := Z.shiftl KH_RESULT_NUMPAD KH_RMODS_SHIFT.

Definition process_simple_scan (scancode : Z) (pressed : bool) : M keyhelp Z :=
  ks ← gets key_state;
  let code := Z.land scancode 0x7F in
  match simple_key code with
  | Plain c => mret (result 0 c c)
  | Shift s u => mret (result 0 (shifted ks s u) u)
  | ShiftCtl cc s u => mret (result 0 (shiftctl ks cc s u) u)
  | ShiftCapsCtl cc s u => mret (result 0 (shiftcapsctl ks cc s u) u)
  | Numpad c => mret (result NUMPAD c c)
  | Modifier rcode bit =>
      part ← (if decide (code = 0x1D) then pause_step 0 else mret false);
      if part : bool then mret 0
      else press_bit pressed bit ;; mret (result 0 KHE_UNDEFINED rcode)
  | Lock rcode bit =>
      part ← (if decide (code = 0x45) then pause_step 1 else mret false);
      if part : bool then mret 0
      else toggle_bit pressed bit ;; mret (result 0 KHE_UNDEFINED rcode)
  | PauseStart =>
      k ← get;
      if has_bit KH_PAUSE_SCAN (key_internal_state k) then
        part ← pause_step 2;
        if part : bool then mret 0 else mret (result 0 KHE_UNDEFINED KHE_UNDEFINED)
      else
        upd_internal (set_bit KH_PAUSE_SCAN) ;;
        set_sequence 0 ;;
        mret 0
  | Undefined => mret (result 0 KHE_UNDEFINED KHE_UNDEFINED)
  end.

(** ** process_extended_scan *)

(** The two halves of a print-screen sequence: the second one gives the
    character, the first one ([None]) waits for it. *)
Definition prscr_step (mine other : Z) : M keyhelp (option (Z * Z * Z)) :=
  k ← get;
  if has_bit mine (key_internal_state k) then
    upd_internal (clear_bit mine) ;;
    mret (Some (0, KHE_PRINT_SCREEN, KHE_PRINT_SCREEN))
  else
    upd_internal (set_bit other) ;;
    upd_internal (clear_bit KH_EXTENDED_SCAN) ;;
    mret None.

(** [res], [code] and [rcode] at the end of the switch. *)
Definition extended_key (keypress : Z) (pressed : bool) : M keyhelp (option (Z * Z * Z)) :=
  match Z.land keypress 0x7F with
  | 0x1C => mret (Some (NUMPAD, 10, 10))
  | 0x1D => press_bit pressed KH_RCONTROL_KEY ;; mret (Some (0, KHE_UNDEFINED, KHE_RCTL))
  | 0x2A => prscr_step KH_PRSCR_UP_SCAN KH_PRSCR_DOWN_SCAN
  | 0x35 => mret (Some (NUMPAD, 47, 47))
  | 0x37 => prscr_step KH_PRSCR_DOWN_SCAN KH_PRSCR_UP_SCAN
  | 0x38 => press_bit pressed KH_RALT_KEY ;; mret (Some (0, KHE_UNDEFINED, KHE_RALT))
  | 0x48 => mret (Some (0, KHE_ARROW_UP, KHE_ARROW_UP))
  | 0x4b => mret (Some (0, KHE_ARROW_LEFT, KHE_ARROW_LEFT))
  | 0x4d => mret (Some (0, KHE_ARROW_RIGHT, KHE_ARROW_RIGHT))
  | 0x50 => mret (Some (0, KHE_ARROW_DOWN, KHE_ARROW_DOWN))
  | 0x53 => mret (Some (0, 0x7F, 0x7F))
  | _ => mret (Some (0, KHE_UNDEFINED, KHE_UNDEFINED))
  end.

Definition process_extended_scan (keypress : Z) (pressed : bool) : M keyhelp Z :=
  r ← extended_key keypress pressed;
  match r with
  | None => mret 0
  | Some (res, code, rcode) =>
      upd_internal (clear_bit KH_EXTENDED_SCAN) ;;
      mret (result res code rcode)
  end.

(** ** process_scancode *)

(** The code of a key that is no part of a sequence. *)
Definition deflt (keycode : Z) (pressed : bool) : M keyhelp (option Z) :=
  upd_internal (clear_bit (Z.lor KH_PRSCR_UP_SCAN KH_PRSCR_DOWN_SCAN)) ;;
  res ← process_simple_scan keycode pressed;
  mret (Some res).

(** The switch over single bytes; [None] returns at once with the given word. *)
Definition scancode_switch (keypress keycode : Z) (pressed : bool) : M keyhelp (option Z) :=
  match Z.land keypress 0xFF with
  | 0x9D =>
      part ← pause_step 3;
      if part : bool then mret None else deflt keycode pressed
  | 0xC5 =>
      k ← get;
      upd_internal (clear_bit KH_PAUSE_SCAN) ;;
      if has_bit KH_PAUSE_SCAN (key_internal_state k) && bool_decide (key_sequence k = 4) then
        mret (Some (Z.lor (Z.lor (Z.shiftl KHE_PAUSE KH_CHAR_SHIFT) (Z.shiftl KHE_PAUSE KH_RAWCHAR_SHIFT))
                          (Z.shiftl KH_RESULT_HASDATA KH_RMODS_SHIFT)))
      else
        set_sequence 0 ;;
        deflt keycode pressed
  | _ => deflt keycode pressed
  end.

Definition process_scancode (keypress : Z) : M keyhelp Z :=
  let pressed := negb (has_bit 0x80 keypress) in
  let keycode := Z.land keypress 0x7F in
  k ← get;
  let finish res :=
    ks ← gets key_state;
    let res := if pressed then Z.lor res (Z.shiftl KH_RESULT_MAKE KH_RMODS_SHIFT) else res in
    mret (Z.lor res (Z.shiftl (Z.land ks KH_STATE_SMASK) KH_STATE_SHIFT)) in
  if has_bit KH_EXTENDED_SCAN (key_internal_state k) then
    res ← process_extended_scan keycode pressed;
    finish res
  else if decide (Z.land keypress 0xFF = 0xE0) then
    upd_internal (set_bit KH_EXTENDED_SCAN) ;;
    ks ← gets key_state;
    mret (Z.shiftl ks KH_STATE_SHIFT)
  else
    r ← scancode_switch keypress keycode pressed;
    match r with
    | None => mret 0
    | Some res => finish res
    end.

(** ** Every scan code is decoded *)
Record keyhelp_ok (k : keyhelp) : Prop := {
  ko_state : Z.land (key_state k) KH_STATE_SMASK = key_state k;
  ko_internal : Z.land (key_internal_state k) 0xF = key_internal_state k;
  ko_sequence : 0 ≤ key_sequence k ≤ 4;
}.

(** Setting and clearing bits of a mask keeps a word inside the mask. *)
Lemma set_bit_mask m b x : Z.land b m = b → Z.land x m = x → Z.land (set_bit b x) m = set_bit b x.
Proof. intros Hb Hx. unfold set_bit. by rewrite Z.land_lor_distr_l, Hb, Hx. Qed.

Lemma clear_bit_mask m b x : Z.land x m = x → Z.land (clear_bit b x) m = clear_bit b x.
Proof.
  intros Hx. unfold clear_bit. apply Z.bits_inj'. intros i Hi. rewrite Z.land_spec, Z.ldiff_spec, <- Hx, Z.land_spec.
  by destruct (Z.testbit x i), (Z.testbit m i), (Z.testbit b i).
Qed.

(** [m] returns, keeps the state in range and has a result with [P]. *)
Definition decodes {A} (P : A → Prop) (m : M keyhelp A) : Prop :=
  ∀ k, keyhelp_ok k → ∃ a k', m k = Ok a k' ∧ keyhelp_ok k' ∧ P a.

Lemma decodes_mret {A} (P : A → Prop) a : P a → decodes P (mret a).
Proof. intros Ha k Hk. by exists a, k. Qed.

Lemma decodes_bind {A B} (Q : A → Prop) (P : B → Prop) m f :
  decodes Q m → (∀ a, Q a → decodes P (f a)) → decodes P (m ≫= f).
Proof.
  intros Hm Hf k Hk. destruct (Hm k Hk) as (a & k1 & E & Hk1 & Ha). destruct (Hf a Ha k1 Hk1) as (b & k2 & E2 & Hk2 & Hb).
  exists b, k2. by rewrite (bind_ok _ _ _ _ _ E).
Qed.

Lemma decodes_get {B} (P : B → Prop) f : (∀ k, keyhelp_ok k → decodes P (f k)) → decodes P (get ≫= f).
Proof. intros Hf. apply (decodes_bind keyhelp_ok); [intros k Hk; by exists k, k|done]. Qed.

Lemma decodes_state {B} (P : B → Prop) f :
  (∀ ks, Z.land ks KH_STATE_SMASK = ks → decodes P (f ks)) → decodes P (gets key_state ≫= f).
Proof.
  intros Hf. apply (decodes_bind (λ ks, Z.land ks KH_STATE_SMASK = ks)); [|done].
  intros k Hk. exists (key_state k), k. split_and!; [done|done|apply Hk].
Qed.

Lemma decodes_upd_state f :
  (∀ x, Z.land x KH_STATE_SMASK = x → Z.land (f x) KH_STATE_SMASK = f x) → decodes (λ _, True) (upd_state f).
Proof. intros Hf k [H1 H2 H3]. eexists _, _. split_and!; [done| |done]. split; cbn; auto. Qed.

Lemma decodes_upd_internal f :
  (∀ x, Z.land x 0xF = x → Z.land (f x) 0xF = f x) → decodes (λ _, True) (upd_internal f).
Proof. intros Hf k [H1 H2 H3]. eexists _, _. split_and!; [done| |done]. split; cbn; auto. Qed.

Lemma decodes_set_sequence n : 0 ≤ n ≤ 4 → decodes (λ _, True) (set_sequence n).
Proof. intros Hn k [H1 H2 H3]. eexists _, _. split_and!; [done| |done]. by split. Qed.

Create HintDb keys discriminated.
#[export] Hint Resolve clear_bit_mask decodes_mret : keys.
#[export] Hint Extern 1 (Z.land (set_bit _ _) _ = _) => apply set_bit_mask; [reflexivity|] : keys.
#[export] Hint Extern 1 (0 ≤ _ ≤ _) => lia : keys.

(** Run through a computation statement by statement. *)
Ltac decode_step :=
  match goal with
  | |- decodes _ (get ≫= _) => apply decodes_get; intros
  | |- decodes _ (gets key_state ≫= _) => apply decodes_state; intros
  | |- decodes _ (_ ≫= _) => eapply decodes_bind; [|intros]
  | |- decodes _ (mret _) => apply decodes_mret
  | |- decodes _ (upd_state _) => apply decodes_upd_state; intros
  | |- decodes _ (upd_internal _) => apply decodes_upd_internal; intros
  | |- decodes _ (set_sequence _) => apply decodes_set_sequence
  | |- decodes _ (match ?x with _ => _ end) => destruct x
  | |- Z.land (if ?b then _ else _) _ = _ => destruct b
  end.
Ltac decode := repeat decode_step; auto with keys.

Lemma pause_step_ok stage : 0 ≤ stage ≤ 3 → decodes (λ _, True) (pause_step stage).
Proof. intros Hs. unfold pause_step. decode. Qed.

Lemma press_bit_ok pressed bit : Z.land bit KH_STATE_SMASK = bit → decodes (λ _, True) (press_bit pressed bit).
Proof. intros Hb. unfold press_bit. decode; destruct pressed; auto using set_bit_mask, clear_bit_mask. Qed.

Lemma toggle_bit_ok pressed bit : Z.land bit KH_STATE_SMASK = bit → decodes (λ _, True) (toggle_bit pressed bit).
Proof. intros Hb. unfold toggle_bit. decode; auto using set_bit_mask. Qed.

(** *** Results *)
Definition res_ok (r : Z) : Prop := 0 ≤ r < 2 ^ 20.

Lemma lor_bound n a b : 0 ≤ n → 0 ≤ a < 2 ^ n → 0 ≤ b < 2 ^ n → 0 ≤ Z.lor a b < 2 ^ n.
Proof.
  intros Hn Ha Hb. assert (0 ≤ Z.lor a b) by (apply Z.lor_nonneg; lia). split; [done|].
  apply Z.bounded_iff_bits_nonneg; [done|done|]. intros i Hi. rewrite Z.lor_spec.
  rewrite (proj1 (Z.bounded_iff_bits_nonneg n a Hn ltac:(lia)) ltac:(lia) i Hi).
  by rewrite (proj1 (Z.bounded_iff_bits_nonneg n b Hn ltac:(lia)) ltac:(lia) i Hi).
Qed.

Lemma result_ok res code rcode : res_ok res → byte code → byte rcode → res_ok (result res code rcode).
Proof.
  unfold res_ok, byte. intros Hr Hc Hrc. unfold result. rewrite (Z.shiftl_mul_pow2 rcode) by done.
  unfold KH_RAWCHAR_SHIFT, KH_CHAR_SHIFT. rewrite Z.shiftl_0_r.
  repeat (apply lor_bound; [lia|..]); [| |lia|by vm_compute]; case_bool_decide; [|done|lia|lia].
  apply lor_bound; [lia|done|by vm_compute].
Qed.

(** The characters of the table are bytes and its modifiers bits of the state. *)
Definition key_ok (k : key) : bool :=
  match k with
  | Plain c | Numpad c => bool_decide (byte c)
  | Shift s u => bool_decide (byte s ∧ byte u)
  | ShiftCtl cc s u | ShiftCapsCtl cc s u => bool_decide (byte cc ∧ byte s ∧ byte u)
  | Modifier r b | Lock r b => bool_decide (byte r ∧ Z.land b KH_STATE_SMASK = b)
  | PauseStart | Undefined => true
  end.

Lemma simple_key_ok code : 0 ≤ code < 128 → key_ok (simple_key code) = true.
Proof.
  intros Hc. assert (forallb (λ c, key_ok (simple_key c)) (seqZ 0 128) = true) as Hall by by vm_compute.
  rewrite forallb_forall in Hall. apply Hall. apply list_elem_of_In, elem_of_seqZ. lia.
Qed.

Lemma land_low x n : 0 ≤ n → 0 ≤ Z.land x (Z.ones n) < 2 ^ n.
Proof. intros Hn. rewrite Z.land_ones by done. apply Z.mod_pos_bound. lia. Qed.

Lemma shifted_byte ks s u : byte s → byte u → byte (shifted ks s u).
Proof. unfold shifted. by destruct (KHS_SHIFT_CORE ks). Qed.
Lemma shiftctl_byte ks cc s u : byte cc → byte s → byte u → byte (shiftctl ks cc s u).
Proof. intros. unfold shiftctl. destruct (KHS_CTL_CORE ks); auto using shifted_byte. Qed.
Lemma shiftcapsctl_byte ks cc s u : byte cc → byte s → byte u → byte (shiftcapsctl ks cc s u).
Proof. intros. unfold shiftcapsctl. destruct (KHS_CTL_CORE ks); [done|]. by destruct (xorb _ _). Qed.

#[local] Hint Resolve result_ok shifted_byte shiftctl_byte shiftcapsctl_byte : keys.
#[local] Hint Extern 1 (byte _) => unfold byte, KHE_UNDEFINED; lia : keys.
#[local] Hint Extern 1 (res_ok 0) => by vm_compute : keys.
#[local] Hint Extern 1 (res_ok NUMPAD) => by vm_compute : keys.

Lemma process_simple_scan_ok scancode pressed : decodes res_ok (process_simple_scan scancode pressed).
Proof.
  unfold process_simple_scan. apply decodes_state. intros ks _. cbv zeta.
  pose proof (simple_key_ok _ (land_low scancode 7 ltac:(lia))) as Hk.
  change (Z.ones 7) with 0x7F in Hk. destruct (simple_key _) as [c|s u|cc s u|cc s u|c|r b|r b| |]; cbn in Hk;
    rewrite ?bool_decide_eq_true in Hk; destruct_and?; try (apply decodes_mret; auto with keys; fail).
  - apply (decodes_bind (λ _, True)); [case_decide; [by apply pause_step_ok|by apply decodes_mret]|].
    intros [] _; [apply decodes_mret; auto with keys|].
    apply (decodes_bind (λ _, True)); [by apply press_bit_ok|]. intros _ _. apply decodes_mret. auto with keys.
  - apply (decodes_bind (λ _, True)); [case_decide; [by apply pause_step_ok|by apply decodes_mret]|].
    intros [] _; [apply decodes_mret; auto with keys|].
    apply (decodes_bind (λ _, True)); [by apply toggle_bit_ok|]. intros _ _. apply decodes_mret. auto with keys.
  - apply decodes_get. intros k' _. destruct (has_bit _ _).
    + apply (decodes_bind (λ _, True)); [by apply pause_step_ok|]. intros [] _; apply decodes_mret; auto with keys.
    + apply (decodes_bind (λ _, True)); [decode|]. intros _ _.
      apply (decodes_bind (λ _, True)); [decode|]. intros _ _. apply decodes_mret. auto with keys.
Qed.

Definition ext_ok (r : option (Z * Z * Z)) : Prop :=
  match r with Some (res, code, rcode) => res_ok res ∧ byte code ∧ byte rcode | None => True end.

Lemma prscr_step_ok mine other :
  Z.land other 0xF = other → decodes ext_ok (prscr_step mine other).
Proof.
  intros Ho. unfold prscr_step. apply decodes_get. intros k _. destruct (has_bit _ _).
  - apply (decodes_bind (λ _, True)); [decode|]. intros _ _. by apply decodes_mret.
  - apply (decodes_bind (λ _, True)); [apply decodes_upd_internal; auto using set_bit_mask|]. intros _ _.
    apply (decodes_bind (λ _, True)); [decode|]. intros _ _. by apply decodes_mret.
Qed.

Lemma press_result_ok pressed bit r :
  Z.land bit KH_STATE_SMASK = bit → byte r →
  decodes ext_ok (press_bit pressed bit ;; mret (Some (0, KHE_UNDEFINED, r))).
Proof.
  intros Hb Hr. apply (decodes_bind (λ _, True)); [by apply press_bit_ok|]. intros _ _. apply decodes_mret. by split_and!.
Qed.

Lemma extended_key_ok keypress pressed : decodes ext_ok (extended_key keypress pressed).
Proof.
  unfold extended_key. generalize (Z.land keypress 0x7F). intros c.
  repeat (case_match; try (by apply decodes_mret); try (by apply press_result_ok); try (by apply prscr_step_ok)).
Qed.

Lemma process_extended_scan_ok keypress pressed : decodes res_ok (process_extended_scan keypress pressed).
Proof.
  apply (decodes_bind ext_ok); [apply extended_key_ok|]. intros [[[res code] rcode]|] Hr.
  - destruct Hr as (? & ? & ?). apply (decodes_bind (λ _, True)); [decode|]. intros _ _. apply decodes_mret. auto with keys.
  - apply decodes_mret. auto with keys.
Qed.

Lemma deflt_ok keycode pressed : decodes (λ r, ∃ res, r = Some res ∧ res_ok res) (deflt keycode pressed).
Proof.
  apply (decodes_bind (λ _, True)); [decode|]. intros _ _.
  apply (decodes_bind res_ok); [apply process_simple_scan_ok|]. intros res Hr. apply decodes_mret. by exists res.
Qed.

Definition switch_ok (r : option Z) : Prop := match r with Some res => res_ok res | None => True end.

Lemma deflt_switch_ok keycode pressed : decodes switch_ok (deflt keycode pressed).
Proof. intros k Hk. destruct (deflt_ok keycode pressed k Hk) as (a & k' & E & Hk' & res & -> & Hr). by exists (Some res), k'. Qed.

Lemma scancode_switch_ok keypress keycode pressed : decodes switch_ok (scancode_switch keypress keycode pressed).
Proof.
  unfold scancode_switch. generalize (Z.land keypress 0xFF). intros c.
  repeat (case_match; try apply deflt_switch_ok).
  - apply (decodes_bind (λ _, True)); [by apply pause_step_ok|]. intros [] _; [by apply decodes_mret|apply deflt_switch_ok].
  - apply decodes_get. intros k _. apply (decodes_bind (λ _, True)); [decode|]. intros _ _.
    destruct (_ && _); [by apply decodes_mret|].
    apply (decodes_bind (λ _, True)); [decode|]. intros _ _. apply deflt_switch_ok.
Qed.

Lemma masked_word ks : Z.land ks KH_STATE_SMASK = ks → word (Z.shiftl ks KH_STATE_SHIFT).
Proof.
  intros <-. unfold word. rewrite Z.shiftl_mul_pow2 by done.
  pose proof (land_low (Z.land ks KH_STATE_SMASK) 16 ltac:(lia)) as Hb.
  rewrite <- Z.land_assoc in Hb. change (Z.land KH_STATE_SMASK (Z.ones 16)) with KH_STATE_SMASK in Hb.
  unfold KH_STATE_SHIFT. lia.
Qed.

(** The last steps of [process_scancode]. *)
Lemma finish_ok res pressed :
  res_ok res →
  decodes word (ks ← gets key_state;
    mret (Z.lor (if pressed : bool then Z.lor res (Z.shiftl KH_RESULT_MAKE KH_RMODS_SHIFT) else res)
                (Z.shiftl (Z.land ks KH_STATE_SMASK) KH_STATE_SHIFT))).
Proof.
  intros Hr. apply decodes_state. intros ks Hks. apply decodes_mret. rewrite Hks.
  assert (res_ok (Z.shiftl KH_RESULT_MAKE KH_RMODS_SHIFT)) as Hm by by vm_compute.
  apply (lor_bound 32); [done| |by apply masked_word].
  assert (0 ≤ Z.lor res (Z.shiftl KH_RESULT_MAKE KH_RMODS_SHIFT) < 2 ^ 20) by (by apply lor_bound).
  unfold res_ok in *. destruct pressed; lia.
Qed.

(** Every scan code, in every state the decoder can be in, gives a word and
    leaves the decoder in such a state. *)
Lemma process_scancode_ok keypress : decodes word (process_scancode keypress).
Proof.
  unfold process_scancode. cbv zeta. apply decodes_get. intros k Hk. destruct (has_bit KH_EXTENDED_SCAN _).
  - apply (decodes_bind res_ok); [apply process_extended_scan_ok|]. intros res Hr. by apply finish_ok.
  - case_decide.
    + apply (decodes_bind (λ _, True)); [decode|]. intros _ _. apply decodes_state. intros ks Hks.
      apply decodes_mret. by apply masked_word.
    + apply (decodes_bind switch_ok); [apply scancode_switch_ok|]. intros [res|] Hr; [by apply finish_ok|by apply decodes_mret].
Qed.

(** ** Typing

    The keys for a character under the lock keys [ks]: the first key that gives
    it, or else the first key that gives it with the left shift key down. *)
Definition typed (ks scancode : Z) : option Z :=
  match simple_key scancode with
  | Plain c => Some c
  | Shift s u => Some (shifted ks s u)
  | ShiftCtl cc s u => Some (shiftctl ks cc s u)
  | ShiftCapsCtl cc s u => Some (shiftcapsctl ks cc s u)
  | _ => None
  end.

Definition strokes (ks c : Z) : list Z :=
  match list_find (λ sc, typed ks sc = Some c) (seqZ 1 0x39),
        list_find (λ sc, typed (set_bit KH_LSHIFT_KEY ks) sc = Some c) (seqZ 1 0x39) with
  | Some (_, sc), _ => [sc; sc + 0x80]
  | None, Some (_, sc) => [0x2A; sc; sc + 0x80; 0xAA]
  | None, None => []
  end.

(** The US layout, the rows of keys and the space bar with their first
    scan codes, without and with shift.  [typed] looks keys up in the table of the
    code; this is what that table has to hold. *)
Definition us_rows : list (Z * string * string) :=
  [(0x02, "1234567890-=", "!@#$%^&*()_+"); (0x10, "qwertyuiop[]", "QWERTYUIOP{}");
   (0x1E, "asdfghjkl;'`", "ASDFGHJKL:" ++ String (Ascii.ascii_of_nat 34) "~");
   (0x2B, "\zxcvbnm,./", "|ZXCVBNM<>?"); (0x39, " ", " ")]%string.

Definition row_codes (t : string) : list (option Z) :=
  (λ a, Some (Z.of_nat (Ascii.nat_of_ascii a))) <$> String.list_ascii_of_string t.

Lemma us_layout row :
  row ∈ us_rows →
  typed 0 <$> seqZ row.1.1 (Z.of_nat (String.length row.1.2)) = row_codes row.1.2 ∧
  typed KH_LSHIFT_KEY <$> seqZ row.1.1 (Z.of_nat (String.length row.2)) = row_codes row.2.
Proof. unfold us_rows. intros Hr. set_unfold in Hr. destruct_or?; subst; try done; vm_compute; split; reflexivity. Qed.

(** The characters of the console: newline and the printable ones. *)
Definition typable : list Z := ch_newline :: seqZ 32 95.

(** The character the keyboard interrupt takes from a word. *)
Definition taken (key : Z) : list Z :=
  if KH_HASDATA key && negb (KH_ISMAKE key) then [s8 (KH_GETCHAR key)] else [].

Fixpoint decode_all (codes : list Z) : M keyhelp (list Z) :=
  match codes with
  | [] => mret []
  | c :: codes =>
      key ← process_scancode c;
      l ← decode_all codes;
      mret (taken key ++ l)
  end.

(** No modifier is down and no sequence is open; the locks may be on. *)
Definition locks : list Z := [0; KH_NUM_LOCK; KH_CAPS_LOCK; Z.lor KH_CAPS_LOCK KH_NUM_LOCK].
Definition at_rest (ks seq : Z) : keyhelp := mk_keyhelp ks 0 seq.

Lemma strokes_decode ks seq c :
  ks ∈ locks → c ∈ typable → decode_all (strokes ks c) (at_rest ks seq) = Ok [c] (at_rest ks seq).
Proof.
  intros Hks Hc.
  assert ((λ c, decode_all (strokes ks c) (at_rest ks seq)) <$> typable = (λ c, Ok [c] (at_rest ks seq)) <$> typable) as Hall.
  { unfold locks in Hks. set_unfold in Hks. destruct Hks as [->|[->|[->|[->|[]]]]]; vm_compute; reflexivity. }
  apply list_elem_of_lookup in Hc as (i & Hi). assert (Hi' := f_equal (.!! i) Hall). 
  rewrite !list_lookup_fmap, Hi in Hi'. by injection Hi'.
Qed.

(** ** The keyboard interrupt (kern/drivers/keyboard/keyboard.c)

    The decoder's state beside the state of the console calls. *)
Definition INT_ACK_CURRENT : Z := 0x20.
Definition INT_CTL_PORT : Z := 0x20.

Section interrupt.
Context {H : Type}.

(** The decoder, the state of the console calls and the port writes to the
    interrupt controller. *)
Record kio : Type := mk_kio { kio_keys : keyhelp; kio_io : io H; kio_pic : list (Z * Z) }.

Definition keys_of {A} (m : M keyhelp A) : M kio A := zoom kio_keys (λ k s, mk_kio k (kio_io s) (kio_pic s)) m.
Definition io_of {A} (m : M (io H) A) : M kio A := zoom kio_io (λ i s, mk_kio (kio_keys s) i (kio_pic s)) m.

Definition acknowledge_interrupt : M kio unit :=
  modify (λ s, mk_kio (kio_keys s) (kio_io s) (kio_pic s ++ [(INT_CTL_PORT, INT_ACK_CURRENT)])).

(** [enqueue_scancode] with the byte of the keyboard port. *)
Definition keyboard_interrupt (in_ : Z) : M kio unit :=
  key ← keys_of (process_scancode in_);
  io_of (enqueue_scancode key) ;;
  acknowledge_interrupt.

Fixpoint interrupts (codes : list Z) : M kio unit :=
  match codes with
  | [] => mret tt
  | c :: codes => keyboard_interrupt c ;; interrupts codes
  end.

(** The part of [enqueue_scancode] after the decoder. *)
Definition enqueue_char (c : Z) : M (io H) unit :=
  keys_do (add_keystroke c) ;;
  if decide (c = ch_newline) then readline_signal else mret tt.

Fixpoint enqueue_all (l : list Z) : M (io H) unit :=
  match l with
  | [] => mret tt
  | c :: l => enqueue_char c ;; enqueue_all l
  end.

Lemma enqueue_taken key s : enqueue_scancode key s = enqueue_all (taken key) s.
Proof.
  unfold enqueue_scancode, taken. destruct (_ && _); [|done]. cbn [enqueue_all].
  unfold enqueue_char, mbind, M_bind. destruct (keys_do _ s) as [[] s1|]; [|done].
  destruct (decide _); [|done]. by destruct (readline_signal s1) as [[] ?|].
Qed.

Lemma enqueue_app l l' s : enqueue_all (l ++ l') s = (enqueue_all l ;; enqueue_all l') s.
Proof.
  revert s. induction l as [|c l IH]; intros s; [done|]. cbn [enqueue_all app].
  rewrite bind_assoc. unfold mbind, M_bind. destruct (enqueue_char c s) as [a s1|]; [apply IH|done].
Qed.

(** One acknowledgement for every byte. *)
Definition acks (codes : list Z) : list (Z * Z) := (λ _, (INT_CTL_PORT, INT_ACK_CURRENT)) <$> codes.

(** The interrupts of a run of scan codes enqueue what the decoder makes of it. *)
Lemma interrupts_decode codes : ∀ k k' l i i' p,
  decode_all codes k = Ok l k' → enqueue_all l i = Ok tt i' →
  interrupts codes (mk_kio k i p) = Ok tt (mk_kio k' i' (p ++ acks codes)).
Proof.
  induction codes as [|c codes IH]; intros k k' l i i' p Hd He; cbn in Hd.
  - injection Hd as <- <-. cbn in He. injection He as <-. cbn. by rewrite app_nil_r.
  - apply bind_inv in Hd as (key & k1 & Hk & Hd). apply bind_inv in Hd as (l1 & k2 & Hd & Hr). injection Hr as <- <-.
    rewrite enqueue_app in He. apply bind_inv in He as ([] & i1 & He1 & He2).
    cbn [interrupts]. unfold keyboard_interrupt.
    rewrite bind_assoc, (bind_ok _ _ _ key (mk_kio k1 i p)) by (by unfold keys_of, zoom; cbn; rewrite Hk).
    rewrite bind_assoc, (bind_ok _ _ _ tt (mk_kio k1 i1 p)) by (by unfold io_of, zoom; cbn; rewrite enqueue_taken, He1).
    unfold acknowledge_interrupt. rewrite bind_modify. cbn. erewrite IH by done. by rewrite <- app_assoc.
Qed.

Definition newlines (l : list Z) : nat := length (filter (λ c, c = ch_newline) l).

(** The status of the readers [ws] becomes [RUNNABLE]. *)
Definition put_all (ws : list Z) (v : Z) (u : Z) (old : option Z) : option Z :=
  if decide (u ∈ ws) then Some v else old.

(** The scheduler after [n] lines: the first [n] readers of the queue [ws], in
    their order, are runnable at the end of the run queue. *)
Record woken (n : nat) (ws : list Z) (s s' : sched) : Prop := {
  wo_ok : sched_ok s';
  wo_rest : readers_queued s' (drop n ws);
  wo_status : restatus s s' (put_all (take n ws) RUNNABLE);
  wo_runq : runnable_threads s' = runnable_threads s ++ take n ws;
  wo_curr : curr_thread s' = curr_thread s;
  wo_sleepers : sleeping_threads s' = sleeping_threads s;
}.

Lemma woken_none n ws s : take n ws = [] → drop n ws = ws → sched_ok s → readers_queued s ws → woken n ws s s.
Proof.
  intros Ht Hd Hok Hq. split; rewrite ?Ht, ?Hd; by rewrite ?app_nil_r.
Qed.

Lemma woken_app n m ws s s1 s2 : woken n ws s s1 → woken m (drop n ws) s1 s2 → woken (n + m) ws s s2.
Proof.
  intros [_ _ A3 A4 A5 A6] [B1 B2 B3 B4 B5 B6]. rewrite drop_drop in B2.
  split; [done|done| | |congruence|congruence].
  - eapply restatus_ext; [|exact (restatus_trans _ _ _ _ _ A3 B3)]. intros u. unfold put_all.
    rewrite <- (take_take_drop ws n m). destruct (decide (u ∈ take n ws ++ take m (drop n ws))) as [Hin|Hin];
      rewrite elem_of_app in Hin; repeat case_decide; tauto.
  - rewrite B4, A4, <- app_assoc. by rewrite take_take_drop.
Qed.

Lemma signal_ok (s : io H) ws :
  readline_cond_var s = mk_cond COND_VAR_VALID ws free_mutex →
  sched_ok (io_sched s) → readers_queued (io_sched s) ws →
  ∃ sch, readline_signal s = Ok tt (set_io_sched sch
           (set_readline_cond (mk_cond COND_VAR_VALID (drop 1 ws) free_mutex) s)) ∧ woken 1 ws (io_sched s) sch.
Proof.
  destruct s as [v kb m c sch]. cbn [readline_cond_var io_sched]. intros -> Hok Hq.
  unfold readline_signal. rewrite bind_get. erewrite bind_ok by (by apply thread_assert_true).
  erewrite bind_ok by reflexivity. cbn [cv_waiting readline_cond_var set_readline_cond].
  destruct ws as [|w ws]; [exists sch; split; [done|by apply woken_none]|].
  destruct (wake_reader sch w ws Hok Hq) as (s' & Hrun & Hok' & Hq' & Hrs & E1 & E2 & E3).
  apply bind_inv in Hrun as ([] & s1 & Hst & Hrq). exists s'. split.
  - rewrite bind_assoc. erewrite bind_ok by (by apply sched_run). rewrite bind_assoc.
    erewrite bind_ok by (by apply sched_run). rewrite bind_modify. done.
  - split; rewrite ?drop_1; cbn [take tail]; try done. eapply restatus_ext; [|exact Hrs].
    intros u. unfold put, put_all. pose proof (list_elem_of_singleton u w). repeat case_decide; tauto.
Qed.

(** What characters do to the console calls' state: the line editor gets them
    and each newline wakes the next reader. *)
Record arrived (text : list Z) (q : list Z) (t : term) (ws : list Z) (s s' : io H) : Prop := {
  ar_line : represents (io_kbd s') (foldl (λ e c, ed_key c e) (q, t) text);
  ar_woken : woken (newlines text) ws (io_sched s) (io_sched s');
  ar_waiting : readline_cond_var s' = mk_cond COND_VAR_VALID (drop (newlines text) ws) free_mutex;
  ar_vm : io_vm s' = io_vm s;
  ar_mutex : readline_mutex s' = readline_mutex s;
}.

(** The readers' queue: the condition variable and the threads in it. *)
Record waiting_readers (s : io H) (ws : list Z) : Prop := {
  wq_cond : readline_cond_var s = mk_cond COND_VAR_VALID ws free_mutex;
  wq_sched : sched_ok (io_sched s);
  wq_queued : readers_queued (io_sched s) ws;
}.

Lemma arrived_readers text q t ws s s' :
  arrived text q t ws s s' → waiting_readers s' (drop (newlines text) ws).
Proof. intros [_ [] ? _ _]. by split. Qed.

Lemma enqueue_char_ok c q t ws (s : io H) :
  c ∈ typable → represents (io_kbd s) (q, t) → waiting_readers s ws →
  ∃ s', enqueue_char c s = Ok tt s' ∧ arrived [c] q t ws s s'.
Proof.
  intros Hc Hr [Hcv Hok Hq].
  destruct (add_keystroke_ok (io_kbd s) q t c Hr) as (kb & Hrun & Hr' & _); [intros ->; by apply (bool_decide_eq_false_1 (ch_backspace ∈ typable)) in Hc|].
  unfold enqueue_char. rewrite (bind_ok _ _ _ _ _ (keys_run _ _ _ _ Hrun)).
  assert (newlines [c] = if decide (c = ch_newline) then 1 else 0)%nat as En
    by (unfold newlines; rewrite filter_cons, filter_nil; by destruct (decide _)).
  destruct (decide (c = ch_newline)) as [->|Hn].
  - destruct (signal_ok (set_io_kbd kb s) ws Hcv Hok Hq) as (sch & -> & Hw). eexists. split; [done|]. by split.
  - exists (set_io_kbd kb s). split; [done|].
    split; rewrite ?En; cbn [foldl io_kbd io_sched io_vm set_io_kbd readline_cond_var readline_mutex];
      [done|by apply woken_none|by rewrite drop_0|done|done].
Qed.

Lemma enqueue_all_ok text : ∀ q t ws (s : io H),
  Forall (.∈ typable) text → represents (io_kbd s) (q, t) → waiting_readers s ws →
  ∃ s', enqueue_all text s = Ok tt s' ∧ arrived text q t ws s s'.
Proof.
  induction text as [|c text IH]; intros q t ws s Hall Hr Hws.
  - exists s. split; [done|]. destruct Hws. split; cbn; [done|by apply woken_none|by rewrite drop_0|done|done].
  - apply Forall_cons in Hall as [Hc Hall]. destruct (enqueue_char_ok c q t ws s Hc Hr Hws) as (s1 & Hrun & Ha).
    pose proof (arrived_readers _ _ _ _ _ _ Ha) as Hws1. destruct Ha as [A1 A2 A3 A4 A5].
    cbn [foldl] in A1. destruct (ed_key c (q, t)) as [q1 t1] eqn:Ee.
    destruct (IH q1 t1 _ s1 Hall A1 Hws1) as (s2 & Hrun2 & [B1 B2 B3 B4 B5]).
    exists s2. cbn [enqueue_all]. rewrite (bind_ok _ _ _ _ _ Hrun). split; [done|].
    assert (newlines (c :: text) = newlines [c] + newlines text)%nat as En
      by (unfold newlines; rewrite (filter_app _ [c] text), length_app; done).
    split; [cbn [foldl]; by rewrite Ee| | |congruence|congruence]; rewrite En.
    + by eapply woken_app.
    + by rewrite B3, drop_drop.
Qed.

Lemma decode_app l : ∀ l' k, decode_all (l ++ l') k = (a ← decode_all l; b ← decode_all l'; mret (a ++ b)) k.
Proof.
  induction l as [|c l IH]; intros l' k; cbn [decode_all app].
  - rewrite bind_mret. unfold mbind, M_bind. by destruct (decode_all l' k).
  - rewrite bind_assoc. unfold mbind at 1 3, M_bind at 1 3. destruct (process_scancode c k) as [key k1|]; [|done].
    rewrite bind_assoc. unfold mbind at 1, M_bind at 1. rewrite IH. unfold mbind, M_bind.
    destruct (decode_all l k1) as [a k2|]; [|done]. cbn. destruct (decode_all l' k2); [|done]. cbn. by rewrite app_assoc.
Qed.

Lemma text_decode ks seq text :
  ks ∈ locks → Forall (.∈ typable) text →
  decode_all (text ≫= strokes ks) (at_rest ks seq) = Ok text (at_rest ks seq).
Proof.
  intros Hks Hall. induction Hall as [|c text Hc Hall IH]; [done|]. cbn [mbind list_bind].
  rewrite decode_app, (bind_ok _ _ _ _ _ (strokes_decode ks seq c Hks Hc)), (bind_ok _ _ _ _ _ IH). done.
Qed.

(** C28. Typing a text of printable characters and newlines, with the keys of the
    table and the left shift key where needed, under any setting of the lock
    keys: the interrupts return, the decoder is at rest as before, the line editor
    has received exactly the characters of the text in order, and each newline
    has made the reader that waits longest runnable, at the end of the run queue;
    the other threads, memory and [readline_mutex] are untouched, and each
    interrupt was acknowledged once. *)
Theorem typing_reaches_readers ks seq text q t ws (s : io H) p :
  ks ∈ locks → Forall (.∈ typable) text → represents (io_kbd s) (q, t) → waiting_readers s ws →
  let codes := text ≫= strokes ks in
  ∃ s', interrupts codes (mk_kio (at_rest ks seq) s p) = Ok tt (mk_kio (at_rest ks seq) s' (p ++ acks codes)) ∧
    arrived text q t ws s s'.
Proof.
  intros Hks Hall Hr Hws codes. destruct (enqueue_all_ok text q t ws s Hall Hr Hws) as (s' & He & Ha).
  exists s'. split; [|done]. by apply (interrupts_decode _ _ _ text); [apply text_decode|].
Qed.
End interrupt.

(** *** Keys of more than one byte *)
Definition PAUSE_KEY : list Z := [0xE1; 0x1D; 0x45; 0xE1; 0x9D; 0xC5].
Definition PRINT_SCREEN_MAKE : list Z := [0xE0; 0x2A; 0xE0; 0x37].
Definition PRINT_SCREEN_BREAK : list Z := [0xE0; 0xB7; 0xE0; 0xAA].

(** The pause key is one character, and its bytes [0x1D] and [0x45] neither press
    the control key nor toggle num lock. *)
Lemma pause_key_decoded ks :
  ks ∈ locks → decode_all PAUSE_KEY (at_rest ks 0) = Ok [s8 KHE_PAUSE] (at_rest ks 4).
Proof. unfold locks. intros Hks. set_unfold in Hks. destruct Hks as [->|[->|[->|[->|[]]]]]; vm_compute; reflexivity. Qed.

(** Pressing and releasing print screen is one character. *)
Lemma print_screen_decoded ks seq :
  ks ∈ locks →
  decode_all (PRINT_SCREEN_MAKE ++ PRINT_SCREEN_BREAK) (at_rest ks seq) = Ok [s8 KHE_PRINT_SCREEN] (at_rest ks seq).
Proof. unfold locks. intros Hks. set_unfold in Hks. destruct Hks as [->|[->|[->|[->|[]]]]]; vm_compute; reflexivity. Qed.

(** Caps lock also shifts the bracket keys: the key for [\[] gives [{]. *)
Lemma caps_lock_shifts_brackets seq :
  decode_all [0x3A; 0xBA; 0x1A; 0x9A] (at_rest 0 seq) = Ok [123] (at_rest KH_CAPS_LOCK seq).
Proof. reflexivity. Qed.

(** *** An instance: two lines typed while thread 7 waits for one *)
Definition demo_reader_sched : sched :=
  set_threads (<[7 := demo_thread WAITING 0]> (threads demo_sched)) demo_sched.

Definition demo_waiting : io bump :=
  set_io_sched demo_reader_sched (set_readline_cond (mk_cond COND_VAR_VALID [7] free_mutex) demo_io).

Lemma demo_reader_sched_ok : sched_ok demo_reader_sched.
Proof.
  assert (∀ t, st demo_reader_sched t = if decide (t = 7) then Some WAITING else st demo_sched t) as Hst.
  { intros t. unfold st. cbn. case_decide as E; [by subst; rewrite lookup_insert_eq|by rewrite lookup_insert_ne]. }
  assert (∀ t, pt demo_reader_sched t = if decide (t = 7) then Some 1 else pt demo_sched t) as Hpt.
  { intros t. unfold pt. cbn. case_decide as E; [by subst; rewrite lookup_insert_eq|by rewrite lookup_insert_ne]. }
  pose proof demo_sched_ok as Hok. split.
  - intros c Hc. rewrite Hst. case_decide; [done|]. by apply (so_curr _ Hok).
  - by eexists.
  - apply (so_idle_out _ Hok).
  - apply (so_nodup _ Hok).
  - intros t Ht. rewrite Hst. case_decide as E; [|by apply (so_runq _ Hok)]. subst. cbn in Ht. set_solver.
  - intros t. rewrite Hst. case_decide; [done|]. apply (so_runnable _ Hok).
  - intros t. rewrite Hst. case_decide; [done|]. apply (so_running _ Hok).
  - intros t Ht. rewrite Hst. case_decide; [done|]. by apply (so_sleep _ Hok).
  - split; [|done]. intros u Hu. by apply elem_of_nil in Hu.
  - intros t p. rewrite Hpt. case_decide; [intros [= <-]; by eexists|]. apply (so_task _ Hok).
Qed.

Lemma demo_waiting_readers : waiting_readers demo_waiting [7].
Proof.
  split; [done|exact demo_reader_sched_ok|]. split; [apply NoDup_singleton|..];
    intros t ->%list_elem_of_singleton; [done|cbn; set_solver|done].
Qed.

Lemma typing_reaches_readers_witness :
  ∃ s' p', interrupts ([72; 105; 33; 10; 111; 107; 10] ≫= strokes KH_CAPS_LOCK) (mk_kio (at_rest KH_CAPS_LOCK 0) demo_waiting [])
          = Ok tt (mk_kio (at_rest KH_CAPS_LOCK 0) s' p') ∧
    runnable_threads (io_sched s') = [3; 4; 7] ∧ st (io_sched s') 7 = Some RUNNABLE ∧ length p' = 22%nat.
Proof.
  pose proof (kbd_boot_lap demo_console demo_term 0 demo_console_ok demo_console_shows ltac:(lia)) as Hfl.
  destruct (typing_reaches_readers KH_CAPS_LOCK 0 [72; 105; 33; 10; 111; 107; 10] [] demo_term [7] demo_waiting []) as (s' & Hrun & Ha).
  - apply (bool_decide_unpack _). vm_compute. exact I.
  - apply (bool_decide_unpack _). vm_compute. exact I.
  - exact (fl_rep _ _ _ Hfl).
  - exact demo_waiting_readers.
  - pose proof (ar_woken _ _ _ _ _ _ Ha) as Hw. eexists s', _. split; [exact Hrun|].
    split; [exact (wo_runq _ _ _ _ Hw)|]. split; [|vm_compute; reflexivity].
    rewrite (rs_st _ _ _ (wo_status _ _ _ _ Hw)). reflexivity.
Defined.
