(* ===== verification/Cmdline.v ===== *)
(** * The kernel's command line (410kern/boot/util_cmdline.c)

    [mb_util_cmdline] cuts the command line of the boot loader into words with
    [strtok] (410kern/string/strtok.c), which writes terminators into it, and
    copies the pointers to the words to a block of the heap: first the words without
    [=], the arguments, then the others, the environment. *)

From S2P Require Import Prelude CString FrameAlloc Lmm LmmInv LmmFree LmmAlloc LmmGen LmmHeap LmmFind Malloc MallocHeap LmmBoot.

(** ** 410kern/string, on memory

    A scan of a string reads bytes of memory that were written before, each one
    once, so that the number of these bounds it. *)
Definition ldb (a : Z) : M lmm Z := s ← get; deref (mem s !! a).
Definition stb (a v : Z) : M lmm unit := modify (λ s, mk_lmm (<[a := v]> (mem s)) (regions s)).

Fixpoint strlen_loop (n : nat) (string ret : Z) : M lmm Z :=
  match n with
  | O => halt OutOfFuel
  | S n' =>
      c ← ldb string;
      if decide (c = 0) then mret ret else strlen_loop n' (u32 (string + 1)) (ret + 1)
  end.
Definition strlen_at (string : Z) : M lmm Z := n ← fuel; strlen_loop n string 0.

Fixpoint strchr_loop (n : nat) (s c : Z) : M lmm Z :=
  match n with
  | O => halt OutOfFuel
  | S n' =>
      b ← ldb s;
      if decide (char_of b = c) then mret s
      else if decide (b = 0) then mret 0
      else strchr_loop n' (u32 (s + 1)) c
  end.
Definition strchr (s c : Z) : M lmm Z := n ← fuel; strchr_loop n s c.

(** [strtok]: skip delimiters; the first other character and the address
    behind it. *)
Fixpoint strtok_cont (n : nat) (s : Z) (delim : list Z) : M lmm (Z * Z) :=
  match n with
  | O => halt OutOfFuel
  | S n' =>
      c ← ldb s;
      if decide (c ∈ delim) then strtok_cont n' (u32 (s + 1)) delim else mret (c, u32 (s + 1))
  end.

(** Scan a word and end it; the new value of [last]. *)
Fixpoint strtok_scan (n : nat) (s : Z) (delim : list Z) : M lmm Z :=
  match n with
  | O => halt OutOfFuel
  | S n' =>
      c ← ldb s;
      if decide (c = 0) then mret 0
      else if decide (c ∈ delim) then stb s 0 ;; mret (u32 (s + 1))
      else strtok_scan n' (u32 (s + 1)) delim
  end.

(** The word and the new value of the static variable [last]; [delim] without
    its terminator. *)
Definition strtok (s last : Z) (delim : list Z) : M lmm (Z * Z) :=
  let s := if decide (s = 0) then last else s in
  if decide (s = 0) then mret (0, last)
  else
    n ← fuel;
    '(c, s) ← strtok_cont n s delim;
    if decide (c = 0) then mret (0, 0)
    else
      let tok := u32 (s - 1) in
      last ← strtok_scan n s delim;
      mret (tok, last).

(** ** util_cmdline.c *)
Definition delim : list Z := [32; 12; 10; 13; 9; 11].

(** An element more in a local array with room for [cap] elements. *)
Definition push (cap : Z) (l : list Z) (x : Z) : M lmm (list Z) :=
  if decide (Z.of_nat (length l) < cap) then mret (l ++ [x]) else halt BadAccess.

(** The loop over the words: [targ] and [tvar]. *)
Fixpoint cmdline_loop (n : nat) (cllen tok last : Z) (targ tvar : list Z) : M lmm (list Z * list Z) :=
  match n with
  | O => halt OutOfFuel
  | S n' =>
      if decide (tok = 0) then mret (targ, tvar)
      else
        eq ← strchr tok 61;
        '(targ, tvar) ← (if decide (eq ≠ 0) then tvar ← push cllen tvar tok; mret (targ, tvar)
                         else targ ← push (1 + cllen) targ tok; mret (targ, tvar));
        '(tok, last) ← strtok 0 last delim;
        cmdline_loop n' cllen tok last targ tvar
  end.

(** [memcpy] of an array of pointers. *)
Fixpoint store_words (a : Z) (l : list Z) : M lmm unit :=
  match l with
  | [] => mret tt
  | v :: l => store a v ;; store_words (u32 (a + 4)) l
  end.

(** [argc], [argv] and [envp]; [null_args] is the address of the static array, and
    [last] the value of [strtok]'s variable. *)
Definition mb_util_cmdline (null_args : Z) (mbi : mbinfo) (last : Z) : M lmm (Z * Z * Z) :=
  if decide (Z.land (mb_flags mbi) MULTIBOOT_CMDLINE ≠ 0) then
    let cl := mb_cmdline mbi in
    cllen ← strlen_at cl;
    '(tok, last) ← strtok cl last delim;
    '(targ, tvar) ← cmdline_loop (S (Z.to_nat cllen)) cllen tok last [] [];
    let narg := Z.of_nat (length targ) in
    let nvar := Z.of_nat (length tvar) in
    argv ← _malloc (u32 (4 * (narg + nvar + 2)));
    kernel_assert (bool_decide (argv ≠ 0)) ;;
    store_words argv targ ;;
    store (u32 (argv + 4 * narg)) 0 ;;
    let envp := u32 (argv + 4 * (narg + 1)) in
    store_words envp tvar ;;
    store (u32 (envp + 4 * nvar)) 0 ;;
    mret (narg, argv, envp)
  else mret (1, null_args, u32 (null_args + 4)).

(** *** An instance: [kernel a=b  x] *)
Definition demo_line : list Z := [32; 107; 101; 114; 110; 101; 108; 32; 97; 61; 98; 32; 32; 120; 0].
Fixpoint put_bytes (a : Z) (l : list Z) (m : gmap Z Z) : gmap Z Z :=
  match l with [] => m | b :: l => <[a := b]> (put_bytes (a + 1) l m) end.
Definition demo_boot : lmm := mk_lmm (put_bytes 0x9f000 demo_line (mem demo_lmm)) (regions demo_lmm).

Example demo_cmdline :
  match mb_util_cmdline 0x1000 demo_mbinfo 0 demo_boot with
  | Ok (argc, argv, envp) s =>
      argc = 2 ∧ ldw (mem s) argv = Some 0x9f001 ∧ ldw (mem s) (argv + 4) = Some 0x9f00d ∧ ldw (mem s) (argv + 8) = Some 0 ∧
      ldw (mem s) envp = Some 0x9f008 ∧ ldw (mem s) (envp + 4) = Some 0
  | Stop _ => False
  end.
Proof. vm_compute. done. Qed.

(** ** Strings in memory *)
Record string (m : gmap Z Z) (a : Z) (t : list Z) : Prop := {
  st_chars : Forall (λ b, 0 < b < 256) t;
  st_at (i : nat) c : (t ++ [0]) !! i = Some c → m !! (a + Z.of_nat i) = Some c;
  st_range : 0 < a ∧ a + Z.of_nat (length t) + 1 < W32;
}.

Lemma string_nil m a : string m a [] → m !! a = Some 0.
Proof. intros [_ Ha _]. pose proof (Ha 0%nat 0 eq_refl) as E. by rewrite Z.add_0_r in E. Qed.

Lemma string_cons m a c t :
  string m a (c :: t) → m !! a = Some c ∧ 0 < c < 256 ∧ string m (a + 1) t ∧ u32 (a + 1) = a + 1.
Proof.
  intros [[Hc Ht]%Forall_cons Ha Hr]. cbn in Hr. split_and!; [|lia|lia| |apply u32_small; unfold word; lia].
  - pose proof (Ha 0%nat c eq_refl) as E. by rewrite Z.add_0_r in E.
  - split; [done| |lia]. intros i d Hd. rewrite <- (Ha (S i) d Hd). f_equal. lia.
Qed.

Lemma string_app m l : ∀ a t, string m a (l ++ t) → string m (a + Z.of_nat (length l)) t.
Proof.
  induction l as [|c l IH]; intros a t Hs; cbn in *; [by rewrite Z.add_0_r|].
  apply string_cons in Hs as (_ & _ & Hs & _). replace (a + Z.of_nat (S (length l))) with (a + 1 + Z.of_nat (length l)) by lia. by apply IH.
Qed.

Lemma string_agree m m' a t :
  (∀ x, a ≤ x ≤ a + Z.of_nat (length t) → m' !! x = m !! x) → string m a t → string m' a t.
Proof.
  intros Hm [Hc Ha Hr]. split; [done| |done]. intros i c Hi. rewrite Hm; [by apply Ha|].
  apply lookup_lt_Some in Hi. rewrite length_app in Hi. cbn in Hi. lia.
Qed.

(** A string fits into the bytes that were written. *)
Lemma string_size m a t : string m a t → (length t < size m)%nat.
Proof.
  intros [_ Ha _]. set (l := seqZ a (Z.of_nat (length t) + 1)).
  assert (length l = S (length t)) as El by (unfold l; rewrite length_seqZ; lia).
  assert ((list_to_set l : gset Z) ⊆ dom m) as Hsub.
  { intros x Hx. apply elem_of_list_to_set, elem_of_seqZ in Hx. apply elem_of_dom.
    destruct (lookup_lt_is_Some_2 (t ++ [0]) (Z.to_nat (x - a))) as [c Hc]; [rewrite length_app; cbn; lia|].
    exists c. rewrite <- (Ha _ _ Hc). f_equal. lia. }
  apply subseteq_size in Hsub. rewrite size_list_to_set, size_dom in Hsub by apply NoDup_seqZ. lia.
Qed.

(** Ending a string early leaves its start. *)
Lemma string_cut m a w r :
  string m a (w ++ r) → r ≠ [] → string (<[a + Z.of_nat (length w) := 0]> m) a w.
Proof.
  intros [Hc Ha Hr] Hne. apply Forall_app in Hc as [Hc _]. destruct r as [|d r]; [done|]. rewrite length_app in Hr.
  split; [done| |cbn in Hr; lia]. intros i c Hi. destruct (decide (i = length w)) as [->|Hne'].
  - rewrite lookup_insert_eq. by rewrite lookup_app_r, Nat.sub_diag in Hi.
  - rewrite lookup_insert_ne by lia. apply Ha. assert (i < length w)%nat.
    { apply lookup_lt_Some in Hi. rewrite length_app in Hi. cbn in Hi. lia. }
    rewrite lookup_app_l in Hi by done. by rewrite <- app_assoc, lookup_app_l.
Qed.

Lemma ldb_ok a c (s : lmm) : mem s !! a = Some c → ldb a s = Ok c s.
Proof. intros E. unfold ldb. rewrite bind_get. by cbn; rewrite E. Qed.

Lemma strlen_loop_ok t : ∀ n a ret s,
  string (mem s) a t → (length t < n)%nat → strlen_loop n a ret s = Ok (ret + Z.of_nat (length t)) s.
Proof.
  induction t as [|c t IH]; intros [|n] a ret s Hs Hn; cbn in Hn; try lia; cbn [strlen_loop].
  - rewrite (bind_ok _ _ _ _ _ (ldb_ok _ _ _ (string_nil _ _ Hs))). rewrite decide_True by done. cbn. by rewrite Z.add_0_r.
  - apply string_cons in Hs as (E & Hc & Hs & Eu). rewrite (bind_ok _ _ _ _ _ (ldb_ok _ _ _ E)).
    rewrite decide_False, Eu, IH by (done || lia). f_equal. cbn. lia.
Qed.

Lemma strchr_loop_ok t : ∀ n a s,
  string (mem s) a t → (length t < n)%nat → ∃ p, strchr_loop n a 61 s = Ok p s ∧ (p ≠ 0 ↔ 61 ∈ t).
Proof.
  induction t as [|c t IH]; intros [|n] a s Hs Hn; cbn in Hn; try lia; cbn [strchr_loop].
  - rewrite (bind_ok _ _ _ _ _ (ldb_ok _ _ _ (string_nil _ _ Hs))). exists 0. split; [done|].
    split; [done|]. intros H61%elem_of_nil. done.
  - pose proof (st_range _ _ _ Hs) as [? _]. apply string_cons in Hs as (E & Hc & Hs & Eu).
    rewrite (bind_ok _ _ _ _ _ (ldb_ok _ _ _ E)). case_decide as Hd.
    + assert (c = 61) as -> by (unfold char_of in Hd; dlia). exists a. split; [done|]. split; [intros _; by left|lia].
    + rewrite decide_False, Eu by lia. destruct (IH n (a + 1) s Hs) as (p & Hp & Hiff); [lia|]. exists p. split; [done|].
      rewrite Hiff, elem_of_cons. assert (61 ≠ c) by (intros <-; done). tauto.
Qed.

(** ** The words of a line: their addresses and characters *)
Fixpoint words (a : Z) (cur t : list Z) : list (Z * list Z) :=
  let word := match cur with [] => [] | _ => [(a - Z.of_nat (length cur), cur)] end in
  match t with
  | [] => word
  | c :: t' => if decide (c ∈ delim) then word ++ words (a + 1) [] t' else words (a + 1) (cur ++ [c]) t'
  end.

Lemma words_skip ds : ∀ a r, Forall (.∈ delim) ds → words a [] (ds ++ r) = words (a + Z.of_nat (length ds)) [] r.
Proof.
  induction ds as [|d ds IH]; intros a r Hd; cbn; [by rewrite Z.add_0_r|]. apply Forall_cons in Hd as [Hd Hds].
  rewrite decide_True, IH by done. f_equal. lia.
Qed.

Lemma words_word w : ∀ a cur r, Forall (.∉ delim) w → words a cur (w ++ r) = words (a + Z.of_nat (length w)) (cur ++ w) r.
Proof.
  induction w as [|c w IH]; intros a cur r Hw; [cbn; by rewrite Z.add_0_r, app_nil_r|]. apply Forall_cons in Hw as [Hc Hw].
  cbn [words app]. rewrite decide_False, IH, <- app_assoc by done. cbn. f_equal. lia.
Qed.

Lemma words_count t : ∀ a cur, (length (words a cur t) ≤ length cur + length t)%nat.
Proof.
  induction t as [|c t IH]; intros a cur; cbn [words].
  - destruct cur; cbn; lia.
  - case_decide.
    + rewrite length_app. specialize (IH (a + 1) []). destruct cur; cbn in *; lia.
    + specialize (IH (a + 1) (cur ++ [c])). rewrite length_app in IH. cbn in *. lia.
Qed.

Lemma words_range t : ∀ a cur x,
  x ∈ words a cur t → a - Z.of_nat (length cur) ≤ x.1 ∧ x.1 + Z.of_nat (length x.2) ≤ a + Z.of_nat (length t).
Proof.
  assert (∀ (a : Z) (cur : list Z) x, x ∈ match cur with [] => [] | _ => [(a - Z.of_nat (length cur), cur)] end →
    x = (a - Z.of_nat (length cur), cur)) as Hcur by (intros a [|c cur] x Hx; set_solver).
  induction t as [|c t IH]; intros a cur x; cbn [words].
  - intros ->%Hcur. cbn. lia.
  - case_decide; [rewrite elem_of_app; intros [->%Hcur|Hx%IH]|intros Hx%IH; rewrite length_app in Hx]; cbn in *; lia.
Qed.

(** A list up to the first element outside [P]. *)
Lemma span_exists (P : Z → Prop) `{!∀ x, Decision (P x)} (t : list Z) :
  ∃ l r, t = l ++ r ∧ Forall P l ∧ match r with [] => True | c :: _ => ¬ P c end.
Proof.
  induction t as [|c t (l & r & -> & Hl & Hr)]; [by exists [], []|]. destruct (decide (P c)).
  - exists (c :: l), r. split_and!; [done|by constructor|done].
  - by exists [], (c :: l ++ r).
Qed.

Lemma cont_ok ds r : ∀ n a s,
  string (mem s) a (ds ++ r) → Forall (.∈ delim) ds → match r with [] => True | c :: _ => c ∉ delim end →
  (length ds < n)%nat → strtok_cont n a delim s = Ok (default 0 (head r), a + Z.of_nat (length ds) + 1) s.
Proof.
  induction ds as [|d ds IH]; intros [|n] a s Hs Hd Hr Hn; cbn in Hn; try lia; cbn [strtok_cont app].
  - assert (mem s !! a = Some (default 0 (head r)) ∧ default 0 (head r) ∉ delim ∧ u32 (a + 1) = a + 1) as (E & Hc & Eu).
    { destruct r as [|c r]; cbn in *.
      - split; [by apply string_nil|]. split; [by apply (bool_decide_unpack _)|].
        apply u32_small. pose proof (st_range _ _ _ Hs). cbn in *. unfold word. lia.
      - apply string_cons in Hs as (E & _ & _ & Eu). done. }
    rewrite (bind_ok _ _ _ _ _ (ldb_ok _ _ _ E)), decide_False by done. cbn. by rewrite Eu, Z.add_0_r.
  - apply Forall_cons in Hd as [Hd Hds]. apply string_cons in Hs as (E & _ & Hs & Eu).
    rewrite (bind_ok _ _ _ _ _ (ldb_ok _ _ _ E)), decide_True, Eu, IH by (done || lia). do 2 f_equal. cbn. lia.
Qed.

(** What the scan of a word does at the end of the word. *)
Definition cut (a : Z) (w r : list Z) (s : lmm) : outcome lmm Z :=
  match r with
  | [] => Ok 0 s
  | _ => Ok (a + Z.of_nat (length w) + 1) (mk_lmm (<[a + Z.of_nat (length w) := 0]> (mem s)) (regions s))
  end.

Lemma scan_ok w r : ∀ n a s,
  string (mem s) a (w ++ r) → Forall (.∉ delim) w → match r with [] => True | c :: _ => c ∈ delim end →
  (length w < n)%nat → strtok_scan n a delim s = cut a w r s.
Proof.
  induction w as [|c w IH]; intros [|n] a s Hs Hw Hr Hn; cbn in Hn; try lia; cbn [strtok_scan app].
  - destruct r as [|d r]; cbn in Hs.
    + by rewrite (bind_ok _ _ _ _ _ (ldb_ok _ _ _ (string_nil _ _ Hs))).
    + apply string_cons in Hs as (E & Hd & _ & Eu). rewrite (bind_ok _ _ _ _ _ (ldb_ok _ _ _ E)).
      rewrite decide_False, decide_True by (done || lia). cbn. unfold stb. rewrite bind_modify, Eu, Z.add_0_r. done.
  - apply Forall_cons in Hw as [Hc Hw]. apply string_cons in Hs as (E & Hp & Hs & Eu).
    rewrite (bind_ok _ _ _ _ _ (ldb_ok _ _ _ E)). rewrite !decide_False, Eu, IH by (done || lia).
    unfold cut. destruct r; [done|]. do 2 f_equal; [cbn; lia|]. f_equal. cbn. lia.
Qed.

(** What a call of [strtok] leaves to be cut: nothing, or a string further on. *)
Definition pending (m : gmap Z Z) (last hi : Z) (rest : list (Z * list Z)) : Prop :=
  last = 0 ∧ rest = [] ∨ ∃ t, string m last t ∧ rest = words last [] t ∧ last + Z.of_nat (length t) = hi.

Record token (m : gmap Z Z) (p hi q : Z) (w : list Z) (rest : list (Z * list Z)) (m' : gmap Z Z) (last : Z) : Prop := {
  tk_string : string m' q w;
  tk_range : p ≤ q ∧ q + Z.of_nat (length w) ≤ hi;
  tk_next : last = 0 ∨ last = q + Z.of_nat (length w) + 1;
  tk_mem x : x ≠ q + Z.of_nat (length w) → m' !! x = m !! x;
  tk_pending : pending m' last hi rest;
}.

Lemma strtok_ok s0 last p t s :
  (if decide (s0 = 0) then last else s0) = p → string (mem s) p t →
  (words p [] t = [] ∧ strtok s0 last delim s = Ok (0, 0) s) ∨
  ∃ q w rest m' last', words p [] t = (q, w) :: rest ∧ strtok s0 last delim s = Ok (q, last') (mk_lmm m' (regions s)) ∧
    token (mem s) p (p + Z.of_nat (length t)) q w rest m' last'.
Proof.
  intros Hp Hs. pose proof (string_size _ _ _ Hs) as Hn. pose proof (st_range _ _ _ Hs) as [? ?].
  unfold strtok. rewrite Hp, decide_False by lia. unfold fuel. rewrite bind_gets.
  destruct (span_exists (.∈ delim) t) as (ds & r & -> & Hds & Hr). rewrite length_app in Hn.
  rewrite (bind_ok _ _ _ _ _ (cont_ok ds r (S (size (mem s))) p s Hs Hds Hr ltac:(lia))). apply string_app in Hs as Hs1. rewrite words_skip by done.
  destruct r as [|c r0]; [by left|right]. cbn [head from_option id]. destruct (span_exists (.∉ delim) (c :: r0)) as (w & r & Ew & Hw & Hr').
  destruct w as [|c' w]; [cbn in Ew; subst r; done|]. injection Ew as <- ->.
  set (a := p + Z.of_nat (length ds)) in *. rewrite !length_app in *. cbn in Hn. rewrite length_app in Hn.
  apply string_cons in Hs1 as Hs2. destruct Hs2 as (_ & Hc & Hs2 & Eu).
  assert (match r with [] => True | c :: _ => c ∈ delim end) as Hr2 by (destruct r; [done|by apply dec_stable]).
  assert (Forall (.∉ delim) w) as Hw' by (apply Forall_cons in Hw; apply Hw).
  rewrite decide_False by lia. replace (u32 (a + 1 - 1)) with a by (rewrite u32_small; unfold word; lia).
  assert (words a [] (c :: w ++ r) = (a, c :: w) :: match r with [] => [] | _ :: r => words (a + Z.of_nat (length w) + 2) [] r end) as Ewd.
  { change (c :: w ++ r) with ((c :: w) ++ r). rewrite (words_word (c :: w) a [] r Hw). cbn. destruct r as [|d r]; cbn.
    - do 2 f_equal. lia.
    - rewrite decide_True by done. cbn. f_equal; [f_equal; lia|f_equal; lia]. }
  unfold mbind at 1, M_bind at 1. rewrite (scan_ok w r (S (size (mem s))) (a + 1) s Hs2 Hw' Hr2 ltac:(lia)). unfold cut.
  destruct r as [|d r].
  - eexists a, (c :: w), [], (mem s), 0. split; [done|]. split; [by destruct s|]. rewrite app_nil_r in *.
    split; [done|cbn; lia|by left|done|by left].
  - eexists a, (c :: w), _, _, _. split; [done|]. split; [done|]. cbn [length] in *. 
    replace (a + 1 + Z.of_nat (length w)) with (a + Z.of_nat (length (c :: w))) by (cbn; lia).
    split; [apply (string_cut _ _ (c :: w) (d :: r)); [exact Hs1|done]|cbn; rewrite length_app; cbn; lia|right; cbn; lia| |].
    + intros x Hx. by rewrite lookup_insert_ne.
    + right. exists r. split_and!.
      * eapply string_agree; [intros x Hx; rewrite lookup_insert_ne; [done|cbn in *; lia]|].
        replace (a + Z.of_nat (length (c :: w)) + 1) with (a + Z.of_nat (length (c :: w ++ [d]))) by (cbn; rewrite length_app; cbn; lia).
        apply string_app. cbn. by rewrite <- app_assoc.
      * f_equal. cbn. lia.
      * cbn. rewrite length_app. cbn. lia.
Qed.

(** ** The loop over the words *)
Definition is_var (x : Z * list Z) : Prop := 61 ∈ x.2.
Definition args (l : list (Z * list Z)) : list Z := fst <$> filter (λ x, ¬ is_var x) l.
Definition vars (l : list (Z * list Z)) : list Z := fst <$> filter is_var l.

Lemma args_cons x l : args (x :: l) = args [x] ++ args l.
Proof. unfold args. change (x :: l) with ([x] ++ l). by rewrite filter_app, fmap_app. Qed.

Lemma vars_cons x l : vars (x :: l) = vars [x] ++ vars l.
Proof. unfold vars. change (x :: l) with ([x] ++ l). by rewrite filter_app, fmap_app. Qed.

Lemma args_vars_length l : (length (args l) + length (vars l) = length l)%nat.
Proof.
  unfold args, vars. rewrite !length_fmap. induction l as [|x l IH]; [done|]. rewrite !filter_cons. cbn.
  destruct (decide (is_var x)); [rewrite decide_False by tauto|rewrite decide_True by done]; cbn; lia.
Qed.

(** One word: it goes to the array it belongs to. *)
Lemma word_ok cllen q w targ tvar (k : list Z → list Z → M lmm (list Z * list Z)) s :
  string (mem s) q w → Z.of_nat (length targ + length tvar) < cllen →
  (eq ← strchr q 61;
   '(targ, tvar) ← (if decide (eq ≠ 0) then tvar ← push cllen tvar q; mret (targ, tvar)
                    else targ ← push (1 + cllen) targ q; mret (targ, tvar));
   k targ tvar) s = k (targ ++ args [(q, w)]) (tvar ++ vars [(q, w)]) s.
Proof.
  intros Hs Hcap. pose proof (string_size _ _ _ Hs) as Hn. destruct (strchr_loop_ok w (S (size (mem s))) q s Hs) as (p & E & Hp); [lia|].
  rewrite (bind_ok _ _ _ p s) by (unfold strchr, fuel; by rewrite bind_gets).
  unfold push, args, vars. rewrite !filter_cons, !filter_nil. unfold is_var at 1 2. cbn [snd]. case_decide as Hd.
  - rewrite decide_True by lia. rewrite decide_False, decide_True by (rewrite <- Hp; tauto). cbn. by rewrite app_nil_r.
  - rewrite decide_True by lia. rewrite decide_True, decide_False by (rewrite <- Hp; tauto). cbn. by rewrite app_nil_r.
Qed.

Lemma strtok_done s : strtok 0 0 delim s = Ok (0, 0) s.
Proof. done. Qed.

Lemma loop_ok rest : ∀ n cllen q w last hi targ tvar s,
  string (mem s) q w → (last = 0 ∨ q + Z.of_nat (length w) < last) → q + Z.of_nat (length w) ≤ hi →
  pending (mem s) last hi rest → (length rest + 1 < n)%nat →
  Z.of_nat (length targ + length tvar + length rest) + 1 ≤ cllen →
  ∃ m', cmdline_loop n cllen q last targ tvar s =
          Ok (targ ++ args ((q, w) :: rest), tvar ++ vars ((q, w) :: rest)) (mk_lmm m' (regions s)) ∧
    (∀ x, ¬ (q + Z.of_nat (length w) < x ≤ hi) → m' !! x = mem s !! x) ∧ Forall (λ x, string m' x.1 x.2) ((q, w) :: rest).
Proof.
  induction rest as [|[q' w'] rest IH]; intros [|n] cllen q w last hi targ tvar s Hs Hlast Hhi Hp Hn Hcap; cbn in Hn; try lia;
    cbn [cmdline_loop]; pose proof (st_range _ _ _ Hs) as [? ?]; rewrite decide_False by lia;
    rewrite (word_ok cllen q w targ tvar (λ targ tvar, '(tok, last) ← strtok 0 last delim; cmdline_loop n cllen tok last targ tvar)) by (done || lia).
  - assert (strtok 0 last delim s = Ok (0, 0) s) as E.
    { destruct Hp as [[-> _]|(t & Ht & Er & _)]; [done|].
      destruct (strtok_ok 0 last last t s eq_refl Ht) as [[_ E]|(? & ? & ? & ? & ? & E & _)]; [done|congruence]. }
    rewrite (bind_ok _ _ _ _ _ E). destruct n as [|n]; [lia|]. exists (mem s). split; [by destruct s|].
    split; [done|]. by apply Forall_singleton.
  - destruct Hp as [[_ ?]|(t & Ht & Er & Eh)]; [done|].
    destruct (strtok_ok 0 last last t s eq_refl Ht) as [[Er' _]|(q1 & w1 & rest1 & m1 & last1 & Er' & E & [T1 T2 T3 T4 T5])]; [congruence|].
    rewrite (bind_ok _ _ _ _ _ E). rewrite Er' in Er. injection Er as -> -> ->. rewrite Eh in *.
    destruct Hlast as [->|Hlast]; [pose proof (st_range _ _ _ Ht); lia|].
    assert (length (targ ++ args [(q, w)]) + length (tvar ++ vars [(q, w)]) = length targ + length tvar + 1)%nat as El.
    { rewrite !length_app. pose proof (args_vars_length [(q, w)]) as E1. cbn [length] in E1. lia. }
    destruct (IH n cllen q1 w1 last1 hi (targ ++ args [(q, w)]) (tvar ++ vars [(q, w)]) (mk_lmm m1 (regions s))) as (m' & E' & Hm & Hall);
      [done|lia|lia|done|lia|cbn in *; lia|].
    exists m'. rewrite E', <- !app_assoc. cbn [fst snd].
    rewrite (args_cons (q, w) (_ :: _)), (vars_cons (q, w) (_ :: _)). split; [done|]. cbn in Hm. split.
    + intros x Hx. rewrite Hm, T4 by lia. done.
    + apply Forall_cons. split; [|done]. cbn. eapply string_agree; [|done]. intros x Hx. rewrite Hm, T4 by lia. done.
Qed.

(** The line is cut into its words. *)
Lemma split_ok cl last t s :
  string (mem s) cl t →
  ∃ m', (∀ B (k : list Z → list Z → M lmm B),
          ('(tok, last) ← strtok cl last delim;
           '(targ, tvar) ← cmdline_loop (S (length t)) (Z.of_nat (length t)) tok last [] [];
           k targ tvar) s = k (args (words cl [] t)) (vars (words cl [] t)) (mk_lmm m' (regions s))) ∧
    (∀ x, ¬ (cl ≤ x ≤ cl + Z.of_nat (length t)) → m' !! x = mem s !! x) ∧ Forall (λ x, string m' x.1 x.2) (words cl [] t).
Proof.
  intros Hs. pose proof (st_range _ _ _ Hs) as [? _].
  destruct (strtok_ok cl last cl t s) as [[-> E]|(q & w & rest & m1 & last1 & Ew & E & [T1 T2 T3 T4 T5])]; [by rewrite decide_False by lia|done| |].
  - exists (mem s). split_and!; [|done|done]. intros B k. rewrite (bind_ok _ _ _ _ _ E). by destruct s.
  - pose proof (words_count t cl []) as Hl. rewrite Ew in Hl |- *. cbn [length] in Hl.
    destruct (loop_ok rest (S (length t)) (Z.of_nat (length t)) q w last1 (cl + Z.of_nat (length t)) [] [] (mk_lmm m1 (regions s)))
      as (m' & E' & Hm & Hall); [done|lia|lia|done|lia|cbn; lia|].
    exists m'. split_and!; [|intros x Hx; rewrite Hm, T4 by lia; done|done].
    intros B k. rewrite (bind_ok _ _ _ _ _ E), (bind_ok _ _ _ _ _ E'). done.
Qed.

(** ** Arrays of pointers *)
Fixpoint stws (m : gmap Z Z) (a : Z) (l : list Z) : gmap Z Z :=
  match l with [] => m | v :: l => stws (stw m a v) (a + 4) l end.

Definition pointers (m : gmap Z Z) (a : Z) (l : list Z) : Prop :=
  ∀ (i : nat) v, (l ++ [0]) !! i = Some v → ldw m (a + 4 * Z.of_nat i) = Some v.

Lemma store_words_ok l : ∀ a s, 0 ≤ a → a + 4 * Z.of_nat (length l) < W32 →
  store_words a l s = Ok tt (mk_lmm (stws (mem s) a l) (regions s)).
Proof.
  induction l as [|v l IH]; intros a s H1 H2; cbn [store_words]; [by destruct s|]. cbn in H2.
  unfold store. rewrite bind_modify, u32_small by (unfold word; lia). rewrite IH by lia. done.
Qed.

Lemma stws_app l l' : ∀ m a, stws m a (l ++ l') = stws (stws m a l) (a + 4 * Z.of_nat (length l)) l'.
Proof.
  induction l as [|v l IH]; intros m a; cbn [stws app length]; [f_equal; lia|]. rewrite IH. f_equal. lia.
Qed.

Lemma stws_other l : ∀ m a x, x < a ∨ a + 4 * Z.of_nat (length l) ≤ x → stws m a l !! x = m !! x.
Proof.
  induction l as [|v l IH]; intros m a x Hx; cbn [stws length] in *; [done|]. rewrite IH by lia. apply stw_other. lia.
Qed.

Lemma stws_ldw l : ∀ m a (i : nat) v, Forall word l → l !! i = Some v → ldw (stws m a l) (a + 4 * Z.of_nat i) = Some v.
Proof.
  induction l as [|v0 l IH]; intros m a [|i] v Hl Hi; try done; apply Forall_cons in Hl as [Hv Hl]; cbn [stws].
  - injection Hi as ->. rewrite Z.mul_0_r, Z.add_0_r. rewrite (ldw_agree (stw m a v)) by (intros; apply stws_other; lia). by apply ldw_stw.
  - cbn in Hi. rewrite <- (IH (stw m a v0) (a + 4) i v Hl Hi). f_equal. lia.
Qed.

(** The block that holds both arrays. *)
Lemma pointers_both m a l l' :
  Forall word l → Forall word l' →
  pointers (stws m a (l ++ 0 :: l' ++ [0])) a l ∧ pointers (stws m a (l ++ 0 :: l' ++ [0])) (a + 4 * (Z.of_nat (length l) + 1)) l'.
Proof.
  intros Hl Hl'. assert (word 0) as H0 by (unfold word; lia).
  assert (Forall word (l ++ 0 :: l' ++ [0])) as Hall.
  { apply Forall_app. split; [done|]. apply Forall_cons. split; [done|]. apply Forall_app. split; [done|]. by apply Forall_singleton. }
  split; intros i v Hi.
  - apply stws_ldw; [done|]. change (0 :: l' ++ [0]) with ([0] ++ l' ++ [0]). rewrite app_assoc. by apply lookup_app_l_Some.
  - replace (a + 4 * (Z.of_nat (length l) + 1) + 4 * Z.of_nat i) with (a + 4 * Z.of_nat (length l + S i)) by lia.
    apply stws_ldw; [done|]. rewrite lookup_app_r by lia. by replace (length l + S i - length l)%nat with (S i) by lia.
Qed.

(** A client that writes only to the block it was given. *)
Lemma takes_write s nss p n s' nss' m :
  takes s nss p n s' nss' → (∀ x, ¬ (p ≤ x < p + n) → m !! x = mem s' !! x) → takes s nss p n (mk_lmm m (regions s')) nss'.
Proof.
  intros [Hok Hc Hm Hmeta Hat] Hw. split; [|done| |done|done].
  - apply lmm_ok_write; [done|]. intros x Hx. apply Hw. intros Hin. by destruct (proj2 Hc x).
  - intros x Hx. cbn. rewrite <- Hm by done. apply Hw. intros Hin. apply Hx, Hc. by right.
Qed.

(** Storing both arrays in their block. *)
Lemma store_arrays argv targ tvar s :
  let narg := Z.of_nat (length targ) in
  let nvar := Z.of_nat (length tvar) in
  let envp := u32 (argv + 4 * (narg + 1)) in
  0 ≤ argv → argv + 4 * (narg + nvar + 2) < W32 →
  (store_words argv targ ;; store (u32 (argv + 4 * narg)) 0 ;; store_words envp tvar ;; store (u32 (envp + 4 * nvar)) 0 ;;
   mret (narg, argv, envp)) s =
  Ok (narg, argv, argv + 4 * (narg + 1)) (mk_lmm (stws (mem s) argv (targ ++ 0 :: tvar ++ [0])) (regions s)).
Proof.
  intros narg nvar envp Ha Hb. assert (0 ≤ narg ∧ 0 ≤ nvar) by (unfold narg, nvar; lia).
  assert (envp = argv + 4 * (narg + 1)) as -> by (apply u32_small; unfold word; lia).
  rewrite !u32_small by (unfold word; lia). subst narg nvar.
  rewrite (bind_ok _ _ _ _ _ (store_words_ok targ argv s ltac:(lia) ltac:(lia))). unfold store. rewrite bind_modify. cbn [mem regions].
  erewrite bind_ok by (apply store_words_ok; lia). rewrite bind_modify. cbn [mem regions]. 
  rewrite stws_app. cbn [stws]. rewrite stws_app. cbn [stws].
  by replace (argv + 4 * (Z.of_nat (length targ) + 1)) with (argv + 4 * Z.of_nat (length targ) + 4) by lia.
Qed.

(** C23. [mb_util_cmdline] on a command line of less than a megabyte outside the
    free memory: it panics when no free block can hold the pointers, and otherwise it
    returns the number of words without [=]; [argv] is a fresh block with pointers to
    these words and a null pointer, [envp] points behind it to the pointers to the
    words with [=] and a null pointer.  Each pointer is the address of a string with
    the characters of the word, the words are those between delimiters, in
    order; the heap keeps its invariant and other memory is unchanged. *)
Theorem cmdline_correct null_args mbi last s nss t :
  lmm_ok s nss → Z.land (mb_flags mbi) MULTIBOOT_CMDLINE ≠ 0 →
  let cl := mb_cmdline mbi in
  string (mem s) cl t → Z.of_nat (length t) ≤ 0x100000 →
  (∀ x, cl ≤ x ≤ cl + Z.of_nat (length t) → ¬ heap_free nss x) →
  let ws := words cl [] t in
  let n := up8 (4 * (Z.of_nat (length ws) + 2) + 4) in
  (mb_util_cmdline null_args mbi last s = Stop KernelPanic ∧ ∀ j, no_block s nss n 0 j) ∨
  ∃ argv envp s' nss', mb_util_cmdline null_args mbi last s = Ok (Z.of_nat (length (args ws)), argv, envp) s' ∧
    pointers (mem s') argv (args ws) ∧ pointers (mem s') envp (vars ws) ∧ Forall (λ x, string (mem s') x.1 x.2) ws ∧
    lmm_ok s' nss' ∧ carve nss nss' (argv - 4) n ∧
    ∀ x, ¬ heap_free nss x → ¬ (cl ≤ x ≤ cl + Z.of_nat (length t)) → mem s' !! x = mem s !! x.
Proof.
  intros Hok Hfl cl Hs Hlen Hfree ws n. unfold mb_util_cmdline. rewrite decide_True by done. fold cl.
  pose proof (string_size _ _ _ Hs) as Hsz.
  rewrite (bind_ok _ _ _ (Z.of_nat (length t)) s)
    by (unfold strlen_at, fuel; rewrite bind_gets, (strlen_loop_ok t) by (done || lia); by rewrite Z.add_0_l).
  rewrite Nat2Z.id. destruct (split_ok cl last t s Hs) as (m1 & E & Hm1 & Hstr). fold ws in E, Hstr.
  rewrite E. pose proof (args_vars_length ws) as Hl. pose proof (words_count t cl []) as Hw. fold ws in Hw. cbn in Hw.
  assert (u32 (4 * (Z.of_nat (length (args ws)) + Z.of_nat (length (vars ws)) + 2)) = 4 * (Z.of_nat (length ws) + 2)) as ->
    by (rewrite <- Hl, u32_small; unfold word; lia).
  assert (lmm_ok (mk_lmm m1 (regions s)) nss) as Hok1.
  { apply lmm_ok_write; [done|]. intros x Hx. apply Hm1. intros Hin. by apply (Hfree x). }
  pose proof (up8_spec (4 * (Z.of_nat (length ws) + 2) + 4)) as [? ?].
  destruct (malloc_takes _ nss (4 * (Z.of_nat (length ws) + 2)) (4 * (Z.of_nat (length ws) + 2) + 4) Hok1)
    as [[Ea Hno]|(c & s2 & nss2 & Ea & Ht & Hreg & _)]; [apply u32_small; unfold word; lia|lia| |]; rewrite (bind_ok _ _ _ _ _ Ea).
  { left. split; [done|]. exact Hno. }
  right. pose proof (tks_at _ _ _ _ _ _ Ht) as [? _]. destruct (in_region_word _ _ _ _ Hok1 Hreg).
  rewrite bind_assert by (apply bool_decide_true; lia). rewrite store_arrays by lia. fold n in Ht.
  assert (takes (mk_lmm m1 (regions s)) nss c n (mk_lmm (stws (mem s2) (c + 4) (args ws ++ 0 :: vars ws ++ [0])) (regions s2)) nss2) as Ht'.
  { apply takes_write; [done|]. intros x Hx. apply stws_other. rewrite length_app. cbn. rewrite length_app. cbn. lia. }
  pose proof Ht' as [Hok2 Hc2 Hm2 _ _]. eexists (c + 4), _, _, nss2. split; [done|].
  assert (∀ x, x ∈ ws → word x.1) as Hwd.
  { intros x Hx. rewrite Forall_forall in Hstr. destruct (st_range _ _ _ (Hstr x Hx)). unfold word. lia. }
  destruct (pointers_both (mem s2) (c + 4) (args ws) (vars ws)) as [Hp1 Hp2].
  { apply Forall_fmap, Forall_forall. intros x [_ Hx]%list_elem_of_filter. by apply Hwd. }
  { apply Forall_fmap, Forall_forall. intros x [_ Hx]%list_elem_of_filter. by apply Hwd. }
  split_and!; [done|done| |done|by replace (c + 4 - 4) with c by lia|].
  - rewrite Forall_forall in Hstr |- *. intros x Hx. destruct (words_range t cl [] x Hx). cbn in *.
    eapply string_agree; [|by apply Hstr]. intros y Hy. apply Hm2, Hfree. lia.
  - intros x Hx Hout. rewrite Hm2 by done. by apply Hm1.
Qed.

(** *** The instance *)
Lemma put_bytes_other l : ∀ a m x, x < a ∨ a + Z.of_nat (length l) ≤ x → put_bytes a l m !! x = m !! x.
Proof. induction l as [|b l IH]; intros a m x Hx; cbn in *; [done|]. rewrite lookup_insert_ne, IH by lia. done. Qed.

Lemma put_bytes_at l : ∀ a m (i : nat) c, l !! i = Some c → put_bytes a l m !! (a + Z.of_nat i) = Some c.
Proof.
  induction l as [|b l IH]; intros a m [|i] c Hi; cbn [put_bytes] in *; try done.
  - injection Hi as ->. by rewrite Z.add_0_r, lookup_insert_eq.
  - cbn in Hi. rewrite lookup_insert_ne by lia. rewrite <- (IH (a + 1) m i c Hi). f_equal. lia.
Qed.

Lemma demo_boot_ok : lmm_ok demo_boot demo_blocks.
Proof.
  apply lmm_ok_write; [exact demo_lmm_ok|]. intros x (ns & Hns & b & Hb & Hx). unfold demo_blocks in Hns.
  apply list_elem_of_singleton in Hns as ->. apply list_elem_of_singleton in Hb as ->. unfold in_block in Hx. cbn in Hx.
  apply put_bytes_other. right. change (length demo_line) with 15%nat. lia.
Qed.

(** The line [ kernel a=b  x]: two arguments and one variable. *)
Lemma cmdline_correct_witness :
  ∃ argv envp s', mb_util_cmdline 0x1000 demo_mbinfo 0 demo_boot = Ok (2, argv, envp) s' ∧
    pointers (mem s') argv [0x9f001; 0x9f00d] ∧ pointers (mem s') envp [0x9f008] ∧ string (mem s') 0x9f008 [97; 61; 98].
Proof.
  destruct (cmdline_correct 0x1000 demo_mbinfo 0 demo_boot demo_blocks (removelast demo_line) demo_boot_ok)
    as [[E _]|(argv & envp & s' & nss' & E & H1 & H2 & H3 & _)].
  - vm_compute. discriminate.
  - split; [apply (bool_decide_unpack _); vm_compute; exact I| |cbn; lia].
    intros i c Hi. apply put_bytes_at. exact Hi.
  - cbn. lia.
  - intros x Hx (ns & Hns & b & Hb & Hf). cbn in Hx.
    apply list_elem_of_singleton in Hns as ->. apply list_elem_of_singleton in Hb as ->. unfold in_block in Hf. cbn in Hf. lia.
  - vm_compute in E. discriminate.
  - exists argv, envp, s'. split; [exact E|]. split; [exact H1|]. split; [exact H2|].
    rewrite Forall_forall in H3. apply (H3 (0x9f008, [97; 61; 98])). apply (bool_decide_unpack _). vm_compute. exact I.
Defined.
