(* ===== verification/Qdivrem.v ===== *)
(** * Division of 64-bit numbers (410kern/misc/gccisms.c)

    [__qdivrem] divides two 64-bit numbers on a 32-bit machine: long division
    in base [2^16], where a digit of the quotient is estimated from the first
    digits of the dividend and the divisor and corrected afterwards (Knuth's
    Algorithm D).  The theorem is that it computes quotient and remainder.

    An array of digits is a list with the most significant digit first, and a
    pointer into it the part of the list that it points to; a loop from the last
    digit to the first is a recursion that handles the rest of the list first.
    Digits are kept in 32-bit words. *)

From S2P Require Import Prelude.

Definition HALF_BITS : Z := 16.
Definition B : Z := 65536.
Definition HHALF (x : Z) : Z := Z.shiftr (u32 x) HALF_BITS.
Definition LHALF (x : Z) : Z := Z.land (u32 x) (B - 1).
Definition COMBINE (a b : Z) : Z := Z.lor (u32 (Z.shiftl (u32 a) HALF_BITS)) b.

(** [union uu]: a 64-bit number and its two words. *)
Definition quad (h l : Z) : Z := h * W32 + l.
Definition ul_H (q : Z) : Z := q / W32.
Definition ul_L (q : Z) : Z := q mod W32.

Definition digits (q : Z) : list Z := [HHALF (ul_H q); LHALF (ul_H q); HHALF (ul_L q); LHALF (ul_L q)].

(** The digits [p[1]] to [p[4]] of an array as a number. *)
Definition assemble (p : list Z) : option Z :=
  match p with
  | [_; p1; p2; p3; p4] => Some (quad (COMBINE p1 p2) (COMBINE p3 p4))
  | _ => None
  end.

(** The divisor has one digit: the quotient and the remainder of [u[1..4]]. *)
Definition short_division (u : list Z) (t : Z) : option (Z * Z) :=
  match u with
  | [_; u1; u2; u3; u4] =>
      let q1 := u1 / t in
      let rbj := COMBINE (u1 mod t) u2 in
      let q2 := rbj / t in
      let rbj := COMBINE (rbj mod t) u3 in
      let q3 := rbj / t in
      let rbj := COMBINE (rbj mod t) u4 in
      let q4 := rbj / t in
      Some (quad (COMBINE q1 q2) (COMBINE q3 q4), rbj mod t)
  | _ => None
  end.

(** [for (n = 4; v[1] == 0; v++)]: the digits [v[1..n]], or the divisor when it
    has one digit. *)
Fixpoint v_loop (n : nat) (v : list Z) : option (list Z + Z) :=
  match v with
  | v1 :: v' =>
      if decide (v1 = 0) then
        match n with
        | 2%nat => match v' with v2 :: _ => Some (inr v2) | [] => None end
        | S n' => v_loop n' v'
        | O => None
        end
      else Some (inl v)
  | [] => None
  end.

(** [for (m = 4 - n; u[1] == 0; u++) m--;] *)
Fixpoint u_loop (u : list Z) (m : nat) : option (list Z * nat) :=
  match u with
  | _ :: u' =>
      match u' with
      | u1 :: _ => if decide (u1 = 0) then match m with S m' => u_loop u' m' | O => None end else Some (u, m)
      | [] => None
      end
  | [] => None
  end.

(** D1: the shift that makes the first digit at least [B / 2]; [t] has 16 bits. *)
Fixpoint d_shift (n : nat) (t d : Z) : option Z :=
  match n with
  | O => None
  | S n' => if decide (t < B / 2) then d_shift n' (u32 (Z.shiftl t 1)) (d + 1) else Some d
  end.

(** [shl]: the digits [p[0..len]]. *)
Fixpoint shl (p : list Z) (sh : Z) : list Z :=
  match p with
  | [] => []
  | x :: p' =>
      match p' with
      | [] => LHALF (Z.shiftl x sh)
      | y :: _ => Z.lor (LHALF (Z.shiftl x sh)) (Z.shiftr y (HALF_BITS - sh))
      end :: shl p' sh
  end.

(** D3: the test and the correction of [qhat]; it is corrected twice at most. *)
Fixpoint qhat_loop (n : nat) (v1 v2 uj2 qhat rhat : Z) : option Z :=
  match n with
  | O => None
  | S n' =>
      if decide (COMBINE rhat uj2 < u32 (v2 * qhat)) then
        let qhat := u32 (qhat - 1) in
        let rhat := u32 (rhat + v1) in
        if decide (B ≤ rhat) then Some qhat else qhat_loop n' v1 v2 uj2 qhat rhat
      else Some qhat
  end.

Definition estimate (v1 v2 uj0 uj1 uj2 : Z) : option Z :=
  if decide (uj0 = v1) then
    let qhat := u32 (B - 1) in
    let rhat := u32 (uj1 + v1) in
    if decide (B ≤ rhat) then Some qhat else qhat_loop 3 v1 v2 uj2 qhat rhat
  else
    let nn := COMBINE uj0 uj1 in
    qhat_loop 3 v1 v2 uj2 (nn / v1) (nn mod v1).

(** D4: multiply and subtract, [u[j+1..j+n]] and [v[1..n]]; the borrow and the new
    digits. *)
Fixpoint mulsub (us vs : list Z) (qhat : Z) : Z * list Z :=
  match us, vs with
  | u :: us, v :: vs =>
      let '(t, us) := mulsub us vs qhat in
      let t := u32 (u - v * qhat - t) in
      (Z.land (B - HHALF t) (B - 1), LHALF t :: us)
  | _, _ => (0, [])
  end.

(** D6: add back. *)
Fixpoint addback (us vs : list Z) : Z * list Z :=
  match us, vs with
  | u :: us, v :: vs =>
      let '(t, us) := addback us vs in
      let t := u32 (t + (u + v)) in
      (HHALF t, LHALF t :: us)
  | _, _ => (0, [])
  end.

(** One digit of the quotient, from [u[j..]]; the digit and the new [u[j..]]. *)
Definition d_step (v u : list Z) : option (Z * list Z) :=
  match v, u with
  | v1 :: v2 :: _, uj0 :: us =>
      match us with
      | uj1 :: uj2 :: _ =>
          let n := length v in
          qhat ← estimate v1 v2 uj0 uj1 uj2;
          let '(t, us') := mulsub (take n us) v qhat in
          let t := u32 (uj0 - t) in
          let u0 := LHALF t in
          if decide (HHALF t ≠ 0) then
            let '(t, us'') := addback us' v in
            Some (u32 (qhat - 1), LHALF (u0 + t) :: us'' ++ drop n us)
          else Some (qhat, u0 :: us' ++ drop n us)
      | _ => None
      end
  | _, _ => None
  end.

(** D7: [k] digits; the digits of the quotient and the array [u]. *)
Fixpoint d_loop (k : nat) (v u : list Z) : option (list Z * list Z) :=
  match k with
  | O => Some ([], u)
  | S k' =>
      '(qj, u) ← d_step v u;
      match u with
      | u0 :: u' => '(q, u') ← d_loop k' v u'; Some (qj :: q, u0 :: u')
      | [] => None
      end
  end.

(** The remainder is shifted back: [u[m+1..m+n]] after the digit [prev]. *)
Fixpoint shr (prev : Z) (u : list Z) (d : Z) : list Z :=
  match u with
  | [] => []
  | x :: u' => Z.lor (Z.shiftr x d) (LHALF (Z.shiftl prev (HALF_BITS - d))) :: shr x u' d
  end.

Definition unnormalize (m : nat) (u : list Z) (d : Z) : list Z :=
  if decide (d = 0) then u
  else match drop m u with
       | um :: u' => take m u ++ 0 :: shr um u' d
       | [] => u
       end.

(** The quotient and the remainder; [None] is the fault of a division by zero. *)
Definition __qdivrem (uq vq : Z) : option (Z * Z) :=
  if decide (vq = 0) then None
  else if decide (uq < vq) then Some (0, uq)
  else
    let uspace := 0 :: digits uq in
    r ← v_loop 4 (digits vq);
    match r with
    | inr t => short_division uspace t
    | inl v =>
        let n := length v in
        '(u, m) ← u_loop uspace (4 - n);
        v1 ← head v;
        d ← d_shift 16 v1 0;
        let u := if decide (0 < d) then shl u d else u in
        let v := if decide (0 < d) then shl v d else v in
        '(q, u) ← d_loop (S m) v u;
        rem ← assemble (take (5 - (m + n + 1)) uspace ++ unnormalize m u d);
        quot ← assemble (replicate (4 - m) 0 ++ q);
        Some (quot, rem)
    end.

Definition __umoddi3 (a b : Z) : option Z := snd <$> __qdivrem a b.
Definition __udivdi3 (a b : Z) : option Z := fst <$> __qdivrem a b.

(** A case in which the estimate is corrected and the divisor added back. *)
Example add_back_case :
  __qdivrem 0x7fff800100000000 0x800080020005 = Some (0x7fff800100000000 / 0x800080020005, 0x7fff800100000000 mod 0x800080020005).
Proof. vm_compute. reflexivity. Qed.
Example tests :
  forallb (λ '(a, b), bool_decide (__qdivrem a b = Some (a / b, a mod b)))
    [(2 ^ 64 - 1, 1); (2 ^ 64 - 1, 2 ^ 64 - 1); (2 ^ 64 - 1, 65536); (2 ^ 64 - 1, 65537); (2 ^ 63, 2 ^ 32 + 1);
     (0x8000000000000000, 0x8000ffff); (0xfffffffeffffffff, 0xffffffff); (0x7fffffff00000000, 0x80000001); (12345678901234567, 9876543);
     (0x0000800000000003, 0x0000200000000001); (0x8000000000000003, 0x2000000000000001); (5, 3); (0x10000, 0xffff); (0x12345678, 0x12345)] = true.
Proof. vm_compute. reflexivity. Qed.

(** ** Digits *)
Definition digit (x : Z) : Prop := 0 ≤ x < 65536.

Fixpoint val (l : list Z) : Z :=
  match l with [] => 0 | x :: l' => x * 65536 ^ Z.of_nat (length l') + val l' end.

Lemma lor_add a b k : 0 ≤ k → 0 ≤ b < 2 ^ k → Z.lor (a * 2 ^ k) b = a * 2 ^ k + b.
Proof.
  intros Hk Hb. symmetry. apply Z.add_nocarry_lor. apply Z.bits_inj'. intros i Hi. rewrite Z.land_spec, Z.bits_0.
  destruct (decide (i < k)).
  - by rewrite Z.mul_pow2_bits_low.
  - rewrite (proj1 (Z.bounded_iff_bits_nonneg k b Hk ltac:(lia)) ltac:(lia) i ltac:(lia)). by rewrite andb_false_r.
Qed.

Lemma HHALF_eq x : HHALF x = u32 x / 65536.
Proof. unfold HHALF. by rewrite Z.shiftr_div_pow2. Qed.

Lemma LHALF_eq x : LHALF x = u32 x mod 65536.
Proof. unfold LHALF. change (B - 1) with (Z.ones 16). by rewrite Z.land_ones. Qed.

Lemma halves x : word (u32 x) ∧ digit (HHALF x) ∧ digit (LHALF x) ∧ u32 x = HHALF x * 65536 + LHALF x.
Proof. rewrite HHALF_eq, LHALF_eq. pose proof (u32_word x) as Hw. unfold word, digit in *. dlia. Qed.

Lemma COMBINE_eq a b : digit a → digit b → COMBINE a b = a * 65536 + b.
Proof.
  unfold digit, COMBINE. intros Ha Hb. rewrite (u32_small a) by (unfold word; lia).
  rewrite Z.shiftl_mul_pow2, u32_small by (unfold word, HALF_BITS; lia). by apply (lor_add a b 16).
Qed.

Lemma val_app l l' : val (l ++ l') = val l * 65536 ^ Z.of_nat (length l') + val l'.
Proof.
  induction l as [|x l IH]; cbn [val app]; [lia|]. rewrite IH, length_app, Nat2Z.inj_add, Z.pow_add_r by lia. lia.
Qed.

Lemma pow_pos n : 0 < 65536 ^ Z.of_nat n.
Proof. apply Z.pow_pos_nonneg; lia. Qed.

Lemma pow_S n : 65536 ^ Z.of_nat (S n) = 65536 * 65536 ^ Z.of_nat n.
Proof. rewrite Nat2Z.inj_succ, Z.pow_succ_r by lia. done. Qed.

Lemma val_bound l : Forall digit l → 0 ≤ val l < 65536 ^ Z.of_nat (length l).
Proof.
  induction 1 as [|x l Hx _ IH]; cbn [val length]; [done|]. rewrite pow_S. unfold digit in Hx. pose proof (pow_pos (length l)). nia.
Qed.

(** Two numbers in digits of the same length are equal digit by digit. *)
Lemma val_zero l : Forall digit l → val l = 0 → l = replicate (length l) 0.
Proof.
  induction 1 as [|x l Hx Hl IH]; [done|]. cbn [val length]. intros E. pose proof (val_bound l Hl). unfold digit in Hx.
  pose proof (pow_pos (length l)). assert (x = 0) as -> by nia. cbn. f_equal. apply IH. lia.
Qed.

Lemma digits_ok q : 0 ≤ q < 2 ^ 64 → Forall digit (digits q) ∧ val (digits q) = q.
Proof.
  intros Hq. unfold digits. destruct (halves (ul_H q)) as (_ & H1 & H2 & E1). destruct (halves (ul_L q)) as (_ & H3 & H4 & E2).
  split; [rewrite !Forall_cons, Forall_nil; tauto|]. cbn. unfold ul_H, ul_L in *. rewrite u32_small in E1 by (unfold word; dlia).
  rewrite u32_small in E2 by (unfold word; dlia). dlia.
Qed.

Lemma assemble_ok x l : length l = 4%nat → Forall digit l → assemble (x :: l) = Some (val l).
Proof.
  destruct l as [|a [|b [|c [|d [|]]]]]; try done. intros _ Hl. rewrite !Forall_cons in Hl. destruct Hl as (Ha & Hb & Hc & Hd & _).
  cbn [assemble val length]. rewrite !COMBINE_eq by done. unfold quad. f_equal. cbn. lia.
Qed.

(** ** D4 and D6 *)
Lemma borrow_eq x : Z.land (B - HHALF x) (B - 1) = (- HHALF x) mod 65536.
Proof.
  change (B - 1) with (Z.ones 16). rewrite Z.land_ones by done. change (2 ^ 16) with 65536. unfold B.
  rewrite <- (Z.mod_add (- HHALF x) 1) by lia. f_equal. lia.
Qed.

(** A word that stands for a number that may be negative. *)
Lemma borrow_step x : - (65535 * 65536) ≤ x < 65536 →
  digit ((- HHALF (u32 x)) mod 65536) ∧ x = LHALF (u32 x) - 65536 * ((- HHALF (u32 x)) mod 65536).
Proof.
  intros Hx. assert (u32 (u32 x) = u32 x) as Eu by (apply u32_small, u32_word).
  rewrite HHALF_eq, LHALF_eq, Eu. unfold u32, digit. change (2 ^ 32) with 4294967296. dlia.
Qed.

Lemma mulsub_ok q us : ∀ vs, 0 ≤ q < 65536 → Forall digit us → Forall digit vs → length us = length vs →
  ∃ t us', mulsub us vs q = (t, us') ∧ digit t ∧ Forall digit us' ∧ length us' = length us ∧
    val us' = val us - q * val vs + t * 65536 ^ Z.of_nat (length us).
Proof.
  intros vs Hq Hus. revert vs. induction Hus as [|u us Hu Hus IH]; intros [|v vs] Hvs El; try done.
  - exists 0, []. split_and!; unfold digit; cbn; done || lia.
  - apply Forall_cons in Hvs as [Hv Hvs]. injection El as El. destruct (IH vs Hvs El) as (t & us' & E & Ht & Hd & El' & Ev).
    cbn [mulsub]. rewrite E. destruct (borrow_step (u - v * q - t)) as [Hb Eb]; [unfold digit in *; nia|].
    eexists _, _. split; [done|]. rewrite borrow_eq. set (b := (- HHALF _) mod 65536) in *.
    destruct (halves (u32 (u - v * q - t))) as (_ & _ & Hl & _).
    split_and!; [done|by constructor|cbn; lia|]. cbn [val length]. rewrite El', Ev, <- El, pow_S. nia.
Qed.

Lemma addback_ok us : ∀ vs, Forall digit us → Forall digit vs → length us = length vs →
  ∃ c us', addback us vs = (c, us') ∧ 0 ≤ c ≤ 1 ∧ Forall digit us' ∧ length us' = length us ∧
    val us' = val us + val vs - c * 65536 ^ Z.of_nat (length us).
Proof.
  intros vs Hus. revert vs. induction Hus as [|u us Hu Hus IH]; intros [|v vs] Hvs El; try done.
  - exists 0, []. split_and!; unfold digit; cbn; done || lia.
  - apply Forall_cons in Hvs as [Hv Hvs]. injection El as El. destruct (IH vs Hvs El) as (t & us' & E & Ht & Hd & El' & Ev).
    cbn [addback]. rewrite E. destruct (halves (u32 (t + (u + v)))) as (_ & Hh & Hl & Es).
    rewrite !(u32_small (t + (u + v))) in * by (unfold word, digit in *; lia).
    eexists _, _. split; [done|]. unfold digit in *. split_and!; [lia|lia|by constructor|cbn; lia|].
    cbn [val length]. rewrite El', Ev, <- El, pow_S. nia.
Qed.

(** ** The shifts *)
Lemma shift_parts x sh : 1 ≤ sh ≤ 15 → digit x →
  LHALF (Z.shiftl x sh) = x * 2 ^ sh mod 65536 ∧ x * 2 ^ sh / 65536 = x / 2 ^ (16 - sh) ∧
  65536 = 2 ^ sh * 2 ^ (16 - sh) ∧ 0 < 2 ^ sh ∧ 0 < 2 ^ (16 - sh) ∧ (x * 2 ^ sh mod 65536) = (x mod 2 ^ (16 - sh)) * 2 ^ sh.
Proof.
  intros Hsh Hx. assert (65536 = 2 ^ sh * 2 ^ (16 - sh)) as E by (rewrite <- Z.pow_add_r by lia; by replace (sh + (16 - sh)) with 16 by lia).
  assert (0 < 2 ^ sh) by (apply Z.pow_pos_nonneg; lia). assert (0 < 2 ^ (16 - sh)) by (apply Z.pow_pos_nonneg; lia).
  assert (2 ^ sh ≤ 2 ^ 15) by (apply Z.pow_le_mono_r; lia).
  split_and!; try done.
  - rewrite LHALF_eq, Z.shiftl_mul_pow2, u32_small by (lia || (unfold word, digit in *; nia)). done.
  - rewrite E, (Z.mul_comm x). apply Z.div_mul_cancel_l; lia.
  - rewrite E, (Z.mul_comm x), Z.mul_mod_distr_l by lia. lia.
Qed.

Lemma shl_ok sh l : 1 ≤ sh ≤ 15 → Forall digit l →
  Forall digit (shl l sh) ∧ length (shl l sh) = length l ∧
  val (shl l sh) + default 0 (head l) / 2 ^ (16 - sh) * 65536 ^ Z.of_nat (length l) = val l * 2 ^ sh.
Proof.
  intros Hsh. induction 1 as [|x l Hx Hl IH].
  - split_and!; [done|done|]. cbn. rewrite Zdiv_0_l. done.
  - destruct IH as (IH1 & IH2 & IH3). destruct (shift_parts x sh Hsh Hx) as (E1 & E2 & E3 & P1 & P2 & E4).
    assert (∃ c, shl (x :: l) sh = (x * 2 ^ sh mod 65536 + c) :: shl l sh ∧ 0 ≤ c < 2 ^ sh ∧ c = default 0 (head l) / 2 ^ (16 - sh)) as (c & Es & Hc & Ec).
    { destruct l as [|y l]; cbn [shl].
      - exists 0. split_and!; [by rewrite E1, Z.add_0_r|lia|lia|]. cbn. by rewrite Zdiv_0_l.
      - apply Forall_cons in Hl as [Hy _]. exists (y / 2 ^ (16 - sh)). assert (0 ≤ y / 2 ^ (16 - sh) < 2 ^ sh) as Hb.
        { split; [apply Z.div_pos; unfold digit in Hy; lia|]. apply Z.div_lt_upper_bound; unfold digit in Hy; lia. }
        split_and!; try done; try lia. f_equal. rewrite E1, E4, Z.shiftr_div_pow2 by (unfold HALF_BITS; lia).
        unfold HALF_BITS. apply lor_add; [lia|done]. }
    rewrite Es. split_and!.
    + constructor; [|done]. rewrite E4. assert (0 ≤ x mod 2 ^ (16 - sh) < 2 ^ (16 - sh)) by (apply Z.mod_pos_bound; lia). unfold digit. nia.
    + cbn. lia.
    + cbn [val length head default from_option id] in *. rewrite IH2, pow_S. rewrite <- Ec in IH3.
      pose proof (Z.div_mod (x * 2 ^ sh) 65536 ltac:(lia)) as Ed. rewrite E2 in Ed. nia.
Qed.

Lemma shr_ok d l : ∀ prev, 1 ≤ d ≤ 15 → digit prev → Forall digit l →
  Forall digit (shr prev l d) ∧ length (shr prev l d) = length l ∧
  val (shr prev l d) * 2 ^ d + default prev (last l) mod 2 ^ d = prev mod 2 ^ d * 65536 ^ Z.of_nat (length l) + val l.
Proof.
  intros prev Hd Hp Hl. revert prev Hp. induction Hl as [|x l Hx Hl IH]; intros prev Hp.
  - split_and!; [done|done|]. cbn. lia.
  - destruct (IH x Hx) as (IH1 & IH2 & IH3). cbn [shr].
    destruct (shift_parts prev (16 - d) ltac:(lia) Hp) as (E1 & _ & _ & _ & _ & E4). replace (16 - (16 - d)) with d in E4 by lia.
    destruct (shift_parts x d Hd Hx) as (_ & _ & EB & P1 & P2 & _).
    assert (0 ≤ x / 2 ^ d < 2 ^ (16 - d)) as Hq.
    { split; [apply Z.div_pos; unfold digit in Hx; lia|]. apply Z.div_lt_upper_bound; unfold digit in Hx; lia. }
    assert (0 ≤ prev mod 2 ^ d < 2 ^ d) as Hm by (apply Z.mod_pos_bound; lia).
    unfold HALF_BITS. rewrite E1, E4, Z.shiftr_div_pow2, Z.lor_comm, lor_add by (done || lia).
    split_and!; [constructor; [unfold digit; nia|done]|cbn; lia|].
    cbn [val length]. rewrite IH2, pow_S. replace (default prev (last (x :: l))) with (default x (last l)) by (rewrite last_cons; by destruct (last l)).
    pose proof (Z.div_mod x (2 ^ d) ltac:(lia)). pose proof (pow_pos (length l)). nia.
Qed.

Lemma d_shift_ok n : ∀ t d, digit t → 2 ^ (16 - Z.of_nat n) ≤ t → (1 ≤ n ≤ 16)%nat →
  ∃ k, d_shift n t d = Some (d + k) ∧ 0 ≤ k ≤ 15 ∧ 32768 ≤ t * 2 ^ k < 65536.
Proof.
  induction n as [|n IH]; intros t d Ht Hn Hb; [lia|]. cbn [d_shift]. change (B / 2) with 32768. case_decide as Hc.
  - assert (n ≠ 0%nat) by (intros ->; cbn in Hn; lia). rewrite Z.shiftl_mul_pow2 by done. change (2 ^ 1) with 2.
    unfold digit in Ht. rewrite u32_small by (unfold word; lia).
    destruct (IH (t * 2) (d + 1)) as (k & E & Hk & Hr); [unfold digit; lia| |lia|].
    { replace (16 - Z.of_nat n) with (Z.succ (16 - Z.of_nat (S n))) by lia. rewrite Z.pow_succ_r by lia. lia. }
    assert (k ≤ 14). { destruct (decide (k ≤ 14)); [done|]. assert (k = 15) as -> by lia. change (2 ^ 15) with 32768 in Hr.
      assert (0 < 2 ^ (16 - Z.of_nat (S n))) by (apply Z.pow_pos_nonneg; lia). lia. }
    exists (k + 1). rewrite E, Z.pow_add_r by lia. split; [f_equal; lia|]. change (2 ^ 1) with 2. lia.
  - exists 0. split; [f_equal; lia|]. unfold digit in Ht. cbn. lia.
Qed.

(** ** D3: the estimate is the quotient of three digits by two, cut to a digit *)
Lemma qhat_loop_ok v1 v2 nn uj2 n : ∀ qhat rhat,
  digit v2 → 32768 ≤ v1 < 65536 → digit uj2 → 0 ≤ qhat < 65536 → rhat = nn - qhat * v1 → 0 ≤ rhat < 65536 →
  (2 ≤ n)%nat → 32768 * (3 - Z.of_nat n) ≤ rhat →
  Z.min 65535 ((nn * 65536 + uj2) / (v1 * 65536 + v2)) ≤ qhat →
  qhat_loop n v1 v2 uj2 qhat rhat = Some (Z.min 65535 ((nn * 65536 + uj2) / (v1 * 65536 + v2))).
Proof.
  induction n as [|n IH]; intros qhat rhat Hv2 Hv1 Hu Hq Er Hr Hn Hf Hmin; [lia|]. cbn [qhat_loop]. unfold digit in *.
  rewrite COMBINE_eq by (unfold digit; lia). rewrite (u32_small (v2 * qhat)) by (unfold word; nia).
  set (X := nn * 65536 + uj2) in *. set (Y := v1 * 65536 + v2) in *.
  assert (rhat * 65536 + uj2 - v2 * qhat = X - qhat * Y) as Et by (unfold X, Y; subst rhat; ring). assert (0 < Y) by (unfold Y; lia).
  case_decide as Hc.
  - assert (X / Y < qhat) as Hlt by (apply Z.div_lt_upper_bound; lia).
    assert (0 ≤ nn) by (assert (0 ≤ qhat * v1) by (apply Z.mul_nonneg_nonneg; lia); lia). assert (0 ≤ X) by (unfold X; lia).
    assert (0 ≤ X / Y) by (apply Z.div_pos; lia).
    rewrite !u32_small by (unfold word; lia). case_decide as Hb.
    + f_equal. assert (qhat - 1 ≤ X / Y); [|lia]. apply Z.div_le_lower_bound; [done|].
      assert (v2 * (qhat - 1) ≤ 65535 * 65535) by (apply Z.mul_le_mono_nonneg; lia).
      assert (v1 * (qhat - 1) ≤ nn - 65536) by (unfold B in Hb; lia). unfold X, Y. lia.
    + unfold B in Hb. apply IH; unfold digit; try lia.
  - f_equal. assert (qhat ≤ X / Y) by (apply Z.div_le_lower_bound; lia). lia.
Qed.

Lemma estimate_ok v1 v2 uj0 uj1 uj2 :
  32768 ≤ v1 < 65536 → digit v2 → digit uj0 → digit uj1 → digit uj2 → uj0 ≤ v1 →
  estimate v1 v2 uj0 uj1 uj2 = Some (Z.min 65535 (((uj0 * 65536 + uj1) * 65536 + uj2) / (v1 * 65536 + v2))).
Proof.
  intros Hv1 Hv2 H0 H1 H2 Hle. unfold estimate. case_decide as Hc.
  - subst uj0. unfold digit in *. change (u32 (B - 1)) with 65535. rewrite u32_small by (unfold word; lia). case_decide as Hb.
    + f_equal. unfold B in Hb. rewrite Z.min_l; [done|]. apply Z.div_le_lower_bound; nia.
    + unfold B in Hb. apply qhat_loop_ok; unfold digit; lia.
  - rewrite COMBINE_eq by done. unfold digit in *. set (nn := uj0 * 65536 + uj1).
    pose proof (Z.div_mod nn v1 ltac:(lia)). pose proof (Z.mod_pos_bound nn v1 ltac:(lia)).
    assert (0 ≤ nn / v1 < 65536) by (split; [apply Z.div_pos|apply Z.div_lt_upper_bound]; unfold nn; lia).
    apply qhat_loop_ok; unfold digit; try lia.
    assert ((nn * 65536 + uj2) / (v1 * 65536 + v2) ≤ nn / v1); [|lia].
    apply Z.div_le_lower_bound; [lia|]. set (x := (nn * 65536 + uj2) / (v1 * 65536 + v2)).
    assert (0 ≤ x) by (apply Z.div_pos; unfold nn; lia).
    pose proof (Z.mul_div_le (nn * 65536 + uj2) (v1 * 65536 + v2) ltac:(lia)) as Hm. fold x in Hm. nia.
Qed.

(** The estimate is the digit of the quotient or one more. *)
Lemma estimate_close X Y P vl wl :
  65536 * 32768 ≤ Y → 0 ≤ X → 0 < P → 0 ≤ vl < P → 0 ≤ wl < P →
  let V := Y * P + vl in
  let w := X * P + wl in
  w < 65536 * V → let qh := Z.min 65535 (X / Y) in w / V ≤ qh ≤ w / V + 1.
Proof.
  intros HY HX HP Hvl Hwl V w Hw qh. assert (0 < V) by (unfold V; nia). assert (0 ≤ w) by (unfold w; nia).
  assert (0 ≤ w / V < 65536) as Hq by (split; [by apply Z.div_pos|apply Z.div_lt_upper_bound; lia]).
  pose proof (Z.mul_div_le w V ltac:(lia)) as Hle. set (q := w / V) in *.
  assert (0 ≤ X / Y) by (apply Z.div_pos; lia). pose proof (Z.mul_div_le X Y ltac:(lia)) as HXY. split.
  - assert (q ≤ X / Y); [|lia]. apply Z.div_le_lower_bound; [lia|].
    assert (Y * q * P < (X + 1) * P) as Hlt; [|apply Z.mul_lt_mono_pos_r in Hlt; lia].
    assert (0 ≤ vl * q) by nia. unfold V, w in Hle. lia.
  - assert (qh * Y ≤ X) as Hqh by (assert (qh ≤ X / Y) by lia; nia). assert (0 ≤ qh ≤ 65535) by lia.
    assert (qh - 1 ≤ q); [|lia]. destruct (decide (qh = 0)) as [->|]; [lia|]. apply Z.div_le_lower_bound; [done|].
    assert (V ≤ (Y + 1) * P) as HV by (unfold V; lia).
    assert (V * (qh - 1) ≤ (Y + 1) * P * (qh - 1)) as Hx1 by (apply Z.mul_le_mono_nonneg_r; lia).
    assert ((Y + 1) * (qh - 1) * P ≤ X * P) as Hx2 by (apply Z.mul_le_mono_nonneg_r; lia). unfold w. lia.
Qed.

Definition top_digit (v : list Z) : Prop := match v with v1 :: _ :: _ => 32768 ≤ v1 | _ => False end.

(** The two leading digits of the divisor and the three of the dividend. *)
Lemma d_estimate v u uj0 us rest :
  Forall digit v → top_digit v → u = uj0 :: us ++ rest → Forall digit u → length us = length v →
  val (uj0 :: us) < 65536 * val v →
  ∃ v1 v2 v' uj1 uj2 us' qh, v = v1 :: v2 :: v' ∧ us = uj1 :: uj2 :: us' ∧ estimate v1 v2 uj0 uj1 uj2 = Some qh ∧
    0 ≤ qh < 65536 ∧ val (uj0 :: us) / val v ≤ qh ≤ val (uj0 :: us) / val v + 1.
Proof.
  intros Hv Htop -> Hu El Hlt. destruct v as [|v1 [|v2 v']]; try done. destruct us as [|uj1 [|uj2 us']]; try done.
  cbn in Htop. rewrite !Forall_cons in Hv. destruct Hv as (Hv1 & Hv2 & Hv'). cbn [app] in Hu. rewrite !Forall_cons, Forall_app in Hu.
  destruct Hu as (H0 & H1 & H2 & Hus' & _). injection El as El.
  pose proof (val_bound v' Hv') as Bv. pose proof (val_bound us' Hus') as Bu. rewrite El in Bu. pose proof (pow_pos (length v')) as HP.
  set (P := 65536 ^ Z.of_nat (length v')) in *. set (Y := v1 * 65536 + v2). set (X := (uj0 * 65536 + uj1) * 65536 + uj2).
  assert (val (v1 :: v2 :: v') = Y * P + val v') as EV by (cbn [val length]; rewrite pow_S; fold P; unfold Y; lia).
  assert (val (uj0 :: uj1 :: uj2 :: us') = X * P + val us') as EW by (cbn [val length]; rewrite El, !pow_S; fold P; unfold X; lia).
  rewrite EV, EW in *. unfold digit in *.
  assert (uj0 ≤ v1) as Hle.
  { apply Z.nlt_ge. intros Hgt. assert (65536 * (Y * P + val v') ≤ X * P); [|lia].
    assert (65536 * (Y + 1) * P ≤ X * P) by (apply Z.mul_le_mono_nonneg_r; unfold X, Y; lia). lia. }
  destruct (estimate_close X Y P (val v') (val us')) as [Hlo Hhi]; try (unfold X, Y; lia).
  exists v1, v2, v', uj1, uj2, us', (Z.min 65535 (X / Y)).
  assert (0 ≤ X / Y) by (apply Z.div_pos; unfold X, Y; lia).
  split_and!; try done; [apply estimate_ok; unfold digit; lia|lia..].
Qed.

Lemma d_step_ok v uj0 us rest :
  Forall digit v → top_digit v → Forall digit (uj0 :: us ++ rest) → length us = length v →
  val (uj0 :: us) < 65536 * val v →
  ∃ us', d_step v (uj0 :: us ++ rest) = Some (val (uj0 :: us) / val v, 0 :: us' ++ rest) ∧
    Forall digit us' ∧ length us' = length v ∧ val us' = val (uj0 :: us) mod val v.
Proof.
  intros Hv Htop Hu El Hlt.
  destruct (d_estimate v _ uj0 us rest Hv Htop eq_refl Hu El Hlt) as (v1 & v2 & v' & uj1 & uj2 & us0 & qh & Ev & Eus & Ee & Hqh & Hlo & Hhi).
  apply Forall_cons in Hu as [H0 [Hus Hrest]%Forall_app]. unfold d_step. rewrite Ev, Eus. cbn [app]. rewrite Ee.
  change (uj1 :: uj2 :: us0 ++ rest) with ((uj1 :: uj2 :: us0) ++ rest). rewrite <- Ev, <- Eus. cbn [mbind option_bind].
  rewrite take_app_length' , drop_app_length' by done.
  destruct (mulsub_ok qh us v Hqh Hus Hv El) as (t & us1 & Em & Ht & Hd1 & El1 & Ev1). rewrite Em.
  pose proof (val_bound us1 Hd1) as B1. pose proof (val_bound v Hv) as BV. rewrite El1, El in B1. rewrite El in Ev1.
  set (P := 65536 ^ Z.of_nat (length v)) in *. assert (val (uj0 :: us) = uj0 * P + val us) as Ew by (cbn [val]; by rewrite El).
  assert (0 ≤ val (uj0 :: us)) as Hw0 by (apply val_bound; by constructor). assert (0 < val v) as HV by lia.
  set (w := val (uj0 :: us)) in *. set (V := val v) in *. pose proof (Z.div_mod w V ltac:(lia)) as Edm. pose proof (Z.mod_pos_bound w V HV) as Hm.
  assert (w - qh * V = (uj0 - t) * P + val us1) as Es by lia. assert (qh = w / V ∨ qh = w / V + 1) as [Eq|Eq] by lia.
  - assert (uj0 - t = 0) as E0 by nia. rewrite E0. change (u32 0) with 0. rewrite decide_False by (intros Hn; by apply Hn).
    exists us1. split_and!; [by rewrite Eq|done|lia|nia].
  - assert (uj0 - t = -1) as E0 by nia. rewrite E0. change (u32 (-1)) with 4294967295.
    rewrite decide_True by done. destruct (addback_ok us1 v Hd1 Hv ltac:(lia)) as (c & us2 & Ea & Hc & Hd2 & El2 & Ev2). rewrite Ea.
    pose proof (val_bound us2 Hd2) as B2. rewrite El2, El1, El in B2. rewrite El1, El in Ev2. fold P V in B2, Ev2.
    assert (c = 1) as -> by nia. exists us2. split_and!; [|done|lia|nia].
    change (LHALF (LHALF 4294967295 + 1)) with 0. assert (0 ≤ w / V) by (apply Z.div_pos; lia).
    rewrite Eq, u32_small by (unfold word; lia). do 2 f_equal. lia.
Qed.

(** ** D7 *)
Lemma d_loop_ok v k : ∀ u,
  Forall digit v → top_digit v → Forall digit u → length u = (k + length v)%nat → val u < val v * 65536 ^ Z.of_nat k →
  ∃ q u', d_loop k v u = Some (q, u') ∧ Forall digit q ∧ length q = k ∧ val q = val u / val v ∧
    Forall digit u' ∧ length u' = length u ∧ val u' = val u mod val v.
Proof.
  induction k as [|k IH]; intros u Hv Htop Hu El Hlt; pose proof (val_bound u Hu) as Bu; cbn [d_loop].
  - cbn in Hlt. exists [], u. rewrite Z.div_small, Z.mod_small by lia. split_and!; done.
  - destruct u as [|u0 u]; [done|]. injection El as El.
    assert (∃ us low, u = us ++ low ∧ length us = length v ∧ length low = k) as (us & low & -> & Et & Ek).
    { exists (take (length v) u), (drop (length v) u). rewrite take_drop, length_take, length_drop. split_and!; [done|lia|lia]. }
    assert (Forall digit low) as Hlow by (by apply Forall_cons in Hu as [_ [_ ?]%Forall_app]).
    pose proof (val_bound low Hlow) as Bl. rewrite Ek in Bl. pose proof (pow_pos k) as HP. set (P := 65536 ^ Z.of_nat k) in *.
    assert (val (u0 :: us ++ low) = val (u0 :: us) * P + val low) as Ew by (change (u0 :: us ++ low) with ((u0 :: us) ++ low); rewrite val_app, Ek; done).
    rewrite pow_S in Hlt. fold P in Hlt. set (w := val (u0 :: us)) in *. set (V := val v) in *.
    assert (w < 65536 * V) as Hw by (apply (Z.mul_lt_mono_pos_r P); lia).
    destruct (d_step_ok v u0 us low Hv Htop Hu Et Hw) as (us' & Es & Hd & El' & Ev). fold w V in Es, Ev. rewrite Es.
    assert (0 ≤ w) as Hw0 by (apply val_bound; apply Forall_cons in Hu as [? [? ?]%Forall_app]; by constructor). assert (0 < V) as HV by lia.
    pose proof (Z.div_mod w V ltac:(lia)) as Edm. pose proof (Z.mod_pos_bound w V HV) as Hm.
    destruct (IH (us' ++ low)) as (q & u' & Eq & Hq & Elq & Evq & Hu' & Elu & Evu); try done.
    { by apply Forall_app. } { rewrite length_app. lia. } { rewrite val_app, Ek, Ev. fold P V. nia. }
    cbn [mbind option_bind]. rewrite Eq. exists (w / V :: q), (0 :: u'). cbn [mbind option_bind].
    rewrite val_app, Ek, Ev in Evq, Evu. fold P V in Evq, Evu.
    assert (val (u0 :: us ++ low) = (w / V * P) * V + (w mod V * P + val low)) as Ed by (rewrite Ew; nia).
    assert (0 ≤ w / V < 65536) by (split; [apply Z.div_pos; lia|apply Z.div_lt_upper_bound; lia]).
    split_and!; [done|by constructor|cbn; lia| |by constructor; [unfold digit; lia|]|cbn; rewrite Elu, !length_app; lia|].
    + rewrite Ed. cbn [val]. rewrite Elq, Evq, Z.div_add_l by lia. done.
    + rewrite Ed. cbn [val]. rewrite Z.mul_0_l, Z.add_0_l, Evu. by rewrite (Z.add_comm (_ * V)), Z.mod_add by lia.
Qed.

(** ** The digits of the operands *)
Lemma v_loop_ok l : length l = 4%nat → Forall digit l → 0 < val l →
  (∃ t, v_loop 4 l = Some (inr t) ∧ digit t ∧ t = val l) ∨
  ∃ v1 v', v_loop 4 l = Some (inl (v1 :: v')) ∧ Forall digit (v1 :: v') ∧ 0 < v1 ∧ (1 ≤ length v' ≤ 3)%nat ∧ val (v1 :: v') = val l.
Proof.
  destruct l as [|a [|b [|c [|d [|]]]]]; try done. intros _ Hl Hpos. rewrite !Forall_cons in Hl. destruct Hl as (Ha & Hb & Hc & Hd & _).
  cbn [v_loop]. unfold digit in *. repeat case_decide; subst.
  - left. exists d. split_and!; try done; cbn; lia.
  - right. exists c, [d]. rewrite !Forall_cons, Forall_nil. split_and!; unfold digit; cbn; try done; lia.
  - right. exists b, [c; d]. rewrite !Forall_cons, Forall_nil. split_and!; unfold digit; cbn; try done; lia.
  - right. exists a, [b; c; d]. rewrite !Forall_cons, Forall_nil. split_and!; unfold digit; cbn; try done; lia.
Qed.

Lemma u_loop_cons x l m :
  u_loop (0 :: x :: l) m = if decide (x = 0) then match m with S m' => u_loop (x :: l) m' | O => None end else Some (0 :: x :: l, m).
Proof. done. Qed.

Lemma u_loop_ok n m : ∀ l, Forall digit l → length l = (m + S n)%nat → 65536 ^ Z.of_nat n ≤ val l →
  ∃ m' l', u_loop (0 :: l) m = Some (0 :: l', m') ∧ (m' ≤ m)%nat ∧ 0 :: l = replicate (m - m') 0 ++ 0 :: l' ∧
    length l' = (m' + S n)%nat ∧ Forall digit l' ∧ val l' = val l.
Proof.
  induction m as [|m IH]; intros [|x l] Hl El Hval; try done; apply Forall_cons in Hl as [Hx Hl]; rewrite u_loop_cons; case_decide as H0.
  - subst x. exfalso. cbn [val] in Hval. pose proof (val_bound l Hl) as Hb. injection El as El. rewrite El in Hb. lia.
  - exists 0%nat, (x :: l). split_and!; try done. by constructor.
  - subst x. cbn in El. injection El as El. cbn [val] in Hval |- *. rewrite Z.mul_0_l, Z.add_0_l in Hval |- *.
    destruct (IH l Hl El Hval) as (m' & l' & E & Hm & Ep & El' & Hl' & Ev). exists m', l'.
    rewrite E. split_and!; try done; [lia|]. replace (S m - m')%nat with (S (m - m')) by lia. cbn. by rewrite <- Ep.
  - exists (S m), (x :: l). rewrite Nat.sub_diag. split_and!; try done. by constructor.
Qed.

Lemma short_division_ok l t : length l = 4%nat → Forall digit l → 0 < t → digit t →
  short_division (0 :: l) t = Some (val l / t, val l mod t).
Proof.
  destruct l as [|a [|b [|c [|d [|]]]]]; try done. intros _ Hl Ht Hdt. rewrite !Forall_cons in Hl. destruct Hl as (Ha & Hb & Hc & Hd & _).
  assert (∀ r x, 0 ≤ r < t → digit x → COMBINE r x = r * 65536 + x ∧ digit ((r * 65536 + x) / t) ∧ 0 ≤ (r * 65536 + x) mod t < t) as Hstep.
  { intros r x Hr Hx. split; [apply COMBINE_eq; unfold digit in *; lia|]. split; [|by apply Z.mod_pos_bound].
    unfold digit in *. split; [apply Z.div_pos; lia|]. apply Z.div_lt_upper_bound; nia. }
  assert (digit (a / t)) as Hq1 by (unfold digit in *; split; [apply Z.div_pos; lia|apply Z.div_lt_upper_bound; nia]).
  pose proof (Z.mod_pos_bound a t Ht) as Hr1. cbn [short_division].
  destruct (Hstep _ _ Hr1 Hb) as (-> & Hq2 & Hr2). destruct (Hstep _ _ Hr2 Hc) as (-> & Hq3 & Hr3). destruct (Hstep _ _ Hr3 Hd) as (-> & Hq4 & Hr4).
  rewrite !COMBINE_eq by done. unfold quad. cbn [val length]. change (65536 ^ Z.of_nat 3) with 281474976710656.
  change (65536 ^ Z.of_nat 2) with 4294967296. change (65536 ^ Z.of_nat 1) with 65536. change (65536 ^ Z.of_nat 0) with 1.
  pose proof (Z.div_mod a t ltac:(lia)) as E1. set (r1 := a mod t) in *. set (q1 := a / t) in *.
  pose proof (Z.div_mod (r1 * 65536 + b) t ltac:(lia)) as E2. set (r2 := (r1 * 65536 + b) mod t) in *. set (q2 := (r1 * 65536 + b) / t) in *.
  pose proof (Z.div_mod (r2 * 65536 + c) t ltac:(lia)) as E3. set (r3 := (r2 * 65536 + c) mod t) in *. set (q3 := (r2 * 65536 + c) / t) in *.
  pose proof (Z.div_mod (r3 * 65536 + d) t ltac:(lia)) as E4. set (r4 := (r3 * 65536 + d) mod t) in *. set (q4 := (r3 * 65536 + d) / t) in *.
  clearbody q4 r4 q3 r3 q2 r2 q1 r1.
  set (q := (q1 * 65536 + q2) * W32 + (q3 * 65536 + q4)).
  assert (a * 281474976710656 + (b * 4294967296 + (c * 65536 + (d * 1 + 0))) = t * q + r4) as E by (unfold q; lia).
  rewrite E. f_equal. f_equal; [by apply (Z.div_unique_pos _ _ _ r4)|by apply (Z.mod_unique_pos _ _ q)].
Qed.

(** *** The main theorem *)
Lemma assemble_val l : length l = 5%nat → Forall digit l → val l < 65536 ^ 4 → assemble l = Some (val l).
Proof.
  destruct l as [|x l]; [done|]. intros El [Hx Hl]%Forall_cons Hv. injection El as El. pose proof (val_bound l Hl) as Hb.
  cbn [val] in Hv |- *. rewrite El in *. change (65536 ^ Z.of_nat 4) with (65536 ^ 4) in *. unfold digit in Hx.
  assert (x = 0) as -> by lia. rewrite assemble_ok by done. f_equal; lia.
Qed.

Lemma val_replicate k l : val (replicate k 0 ++ l) = val l.
Proof. induction k as [|k IH]; [done|]. cbn [replicate app val]. rewrite IH. lia. Qed.

Lemma digits_replicate k : Forall digit (replicate k 0).
Proof. apply Forall_replicate. unfold digit. lia. Qed.

(** D1: after the shift the divisor starts with a digit of at least [2^15]. *)
Lemma normalized v1 v' d (v := if decide (0 < d) then shl (v1 :: v') d else v1 :: v') :
  Forall digit (v1 :: v') → (1 ≤ length v')%nat → 0 ≤ d ≤ 15 → 32768 ≤ v1 * 2 ^ d < 65536 →
  Forall digit v ∧ length v = length (v1 :: v') ∧ val v = val (v1 :: v') * 2 ^ d ∧ top_digit v ∧
  32768 * 65536 ^ Z.of_nat (length v') ≤ val v.
Proof.
  intros Hv Hn Hd Hnorm. assert (Forall digit v ∧ length v = length (v1 :: v') ∧ val v = val (v1 :: v') * 2 ^ d) as (H1 & H2 & H3).
  { unfold v. case_decide; [|assert (d = 0) as -> by lia; split_and!; [done|done|by rewrite Z.mul_1_r]].
    destruct (shl_ok d (v1 :: v') ltac:(lia) Hv) as (A1 & A2 & A3). split_and!; [done|done|].
    cbn [head default from_option id] in A3. apply Forall_cons in Hv as [Hv1 _].
    destruct (shift_parts v1 d ltac:(lia) Hv1) as (_ & E & _). rewrite <- E, Z.div_small in A3 by lia. lia. }
  apply Forall_cons in Hv as [Hv1 Hv']. pose proof (val_bound v' Hv') as Hb. pose proof (pow_pos (length v')) as HP.
  assert (0 < 2 ^ d) by (apply Z.pow_pos_nonneg; lia).
  assert (32768 * 65536 ^ Z.of_nat (length v') ≤ val v) as Hlo.
  { rewrite H3. cbn [val]. set (P := 65536 ^ _) in *. assert (32768 * P ≤ v1 * 2 ^ d * P) by (apply Z.mul_le_mono_nonneg_r; lia). nia. }
  split_and!; try done. clearbody v. destruct v as [|a [|b v]]; [done|cbn in H2; lia|]. cbn [top_digit].
  apply Forall_cons in H1 as [Ha H1]. pose proof (val_bound _ H1) as Hb1. cbn [length] in H2. injection H2 as H2. 
  cbn [length] in Hb1. rewrite H2 in Hb1. change (val (a :: b :: v)) with (a * 65536 ^ Z.of_nat (S (length v)) + val (b :: v)) in Hlo.
  rewrite H2 in Hlo. set (P := 65536 ^ _) in *. nia.
Qed.

Lemma shl_zero_head l d (u := if decide (0 < d) then shl (0 :: l) d else 0 :: l) :
  Forall digit l → 0 ≤ d ≤ 15 → Forall digit u ∧ length u = S (length l) ∧ val u = val l * 2 ^ d.
Proof.
  intros Hl Hd. assert (Forall digit (0 :: l)) as H0 by (constructor; [unfold digit; lia|done]). unfold u. case_decide.
  - destruct (shl_ok d (0 :: l) ltac:(lia) H0) as (A1 & A2 & A3). split_and!; [done|done|].
    cbn [head default from_option id] in A3. rewrite Zdiv_0_l in A3. cbn [val] in A3 |- *. lia.
  - assert (d = 0) as -> by lia. split_and!; [done|done|]. cbn [val]. lia.
Qed.

(** The remainder is shifted back. *)
Lemma unnormalize_ok m n u d r :
  Forall digit u → length u = (m + S n)%nat → 0 ≤ d ≤ 15 → val u = r * 2 ^ d → r * 2 ^ d < 65536 ^ Z.of_nat n →
  Forall digit (unnormalize m u d) ∧ length (unnormalize m u d) = length u ∧ val (unnormalize m u d) = r.
Proof.
  intros Hu El Hd Ev Hr. unfold unnormalize. case_decide as Hd0; [subst d; split_and!; [done|done|]; rewrite Ev; lia|].
  assert (∃ z um u', u = z ++ um :: u' ∧ length z = m ∧ length u' = n) as (z & um & u' & -> & Ez & En).
  { destruct (drop m u) as [|um u'] eqn:E; [apply (f_equal length) in E; rewrite length_drop in E; cbn in E; lia|].
    exists (take m u), um, u'. rewrite <- E, take_drop, length_take. split_and!; [done|lia|].
    apply (f_equal length) in E. rewrite length_drop in E. cbn in E. lia. }
  rewrite drop_app_length', take_app_length' by done. apply Forall_app in Hu as [Hz [Hum Hu']%Forall_cons].
  rewrite val_app in Ev. cbn [val length] in Ev. rewrite En, pow_S in Ev. pose proof (val_bound z Hz). pose proof (val_bound u' Hu') as Bu.
  rewrite En in Bu. pose proof (pow_pos n). set (P := 65536 ^ Z.of_nat n) in *. assert (digit um) as Hum' by done. unfold digit in Hum'.
  assert (val z = 0) as Hz0 by nia. assert (um = 0) as -> by nia. rewrite Hz0 in Ev.
  destruct (shr_ok d u' 0 ltac:(lia) Hum Hu') as (S1 & S2 & S3). rewrite (val_zero z Hz Hz0), length_replicate in *.
  assert (0 < 2 ^ d) by (apply Z.pow_pos_nonneg; lia).
  split_and!.
  - apply Forall_app. split; [apply digits_replicate|]. constructor; [done|done].
  - rewrite !length_app. cbn. lia.
  - rewrite val_replicate. cbn [val]. rewrite Z.mod_0_l, Z.mul_0_l, Z.add_0_l in S3 by lia.
    pose proof (Z.mod_pos_bound (default 0 (last u')) (2 ^ d) ltac:(lia)). nia.
Qed.

(** Program D on operands that were taken apart: the divisor has at least two
    digits and the dividend at least as many. *)
Lemma program_d uq vq v1 v' :
  0 ≤ uq < 2 ^ 64 → vq ≤ uq → val (v1 :: v') = vq → Forall digit (v1 :: v') → 0 < v1 → (1 ≤ length v' ≤ 3)%nat →
  ('(u, m) ← u_loop (0 :: digits uq) (4 - length (v1 :: v'));
   v1 ← head (v1 :: v');
   d ← d_shift 16 v1 0;
   let u := if decide (0 < d) then shl u d else u in
   let v := if decide (0 < d) then shl (v1 :: v') d else v1 :: v' in
   '(q, u) ← d_loop (S m) v u;
   rem ← assemble (take (5 - (m + length (v1 :: v') + 1)) (0 :: digits uq) ++ unnormalize m u d);
   quot ← assemble (replicate (4 - m) 0 ++ q);
   Some (quot, rem)) = Some (uq / vq, uq mod vq).
Proof.
  intros Hu Hle Ev Hv Hv1 Hn. set (n := length v') in *. destruct (digits_ok uq Hu) as [Hdu Eu].
  assert (65536 ^ Z.of_nat n ≤ vq) as Hlow.
  { rewrite <- Ev. apply Forall_cons in Hv as [_ Hv']. pose proof (val_bound v' Hv'). pose proof (pow_pos n). cbn [val]. fold n. nia. }
  destruct (u_loop_ok n (4 - S n) (digits uq) Hdu) as (m & l & E & Hm & Ep & El & Hl & Evl); [cbn; lia|lia|].
  rewrite Eu in Evl. cbn [length]. fold n. rewrite E. cbn [mbind option_bind head].
  assert (digit v1) as Hdv1 by (by apply Forall_cons in Hv as [? _]).
  destruct (d_shift_ok 16 v1 0 Hdv1) as (d & Ed & Hd & Hnorm); [cbn; lia|lia|]. rewrite Z.add_0_l in Ed. rewrite Ed. cbn [mbind option_bind]. cbv zeta.
  destruct (normalized v1 v' d Hv ltac:(lia) Hd Hnorm) as (N1 & N2 & N3 & N4 & N5). destruct (shl_zero_head l d Hl Hd) as (U1 & U2 & U3).
  set (v := if decide (0 < d) then shl (v1 :: v') d else v1 :: v') in *. set (u := if decide (0 < d) then shl (0 :: l) d else 0 :: l) in *.
  cbn [length] in N2. fold n in N2, N5. rewrite Ev in N3. rewrite Evl in U3.
  assert (0 < 2 ^ d) as Hpd by (apply Z.pow_pos_nonneg; lia). assert (2 ^ d ≤ 32768) by (apply (Z.pow_le_mono_r 2 d 15); lia).
  assert (0 < vq) as Hvq by (pose proof (pow_pos n); lia).
  assert (val u < val v * 65536 ^ Z.of_nat (S m)) as Hlt.
  { pose proof (val_bound l Hl) as Hb. rewrite Evl, El in Hb. replace (m + S n)%nat with (n + S m)%nat in Hb by lia.
    rewrite Nat2Z.inj_add, Z.pow_add_r in Hb by lia. pose proof (pow_pos n). pose proof (pow_pos (S m)).
    set (P := 65536 ^ Z.of_nat n) in *. set (Q := 65536 ^ Z.of_nat (S m)) in *. rewrite U3.
    assert (32768 * P * Q ≤ val v * Q) by (apply Z.mul_le_mono_nonneg_r; lia). assert (uq * 2 ^ d ≤ uq * 32768) by (apply Z.mul_le_mono_nonneg_l; lia). lia. }
  destruct (d_loop_ok v (S m) u N1 N4 U1) as (q & u' & Eq & Hq & Elq & Evq & Hu' & Elu & Evu); [lia|done|].
  rewrite U3, N3, Z.div_mul_cancel_r in Evq by lia. rewrite U3, N3, Z.mul_mod_distr_r in Evu by lia.
  rewrite Eq. cbn [mbind option_bind].
  destruct (unnormalize_ok m (S n) u' d (uq mod vq) Hu') as (R1 & R2 & R3); [lia|done|done| |].
  { pose proof (val_bound v N1) as Hb. rewrite N2, N3 in Hb. pose proof (Z.mod_pos_bound uq vq Hvq). nia. }
  assert (take (5 - (m + S n + 1)) (0 :: digits uq) = replicate (5 - (m + S n + 1)) 0) as Et.
  { rewrite Ep. replace (4 - S n - m)%nat with (5 - (m + S n + 1))%nat by lia. by rewrite take_app_length' by (by rewrite length_replicate). }
  assert (uq < 65536 ^ 4) as Hu4 by (change (65536 ^ 4) with (2 ^ 64); lia).
  rewrite Et, (assemble_val (replicate _ 0 ++ q)), (assemble_val (replicate _ 0 ++ unnormalize m u' d)).
  - cbn [mbind option_bind]. by rewrite !val_replicate, Evq, R3.
  - rewrite length_app, length_replicate, R2, Elu, U2, El. lia.
  - apply Forall_app. split; [apply digits_replicate|done].
  - rewrite val_replicate, R3. pose proof (Z.mod_le uq vq ltac:(lia) Hvq). lia.
  - rewrite length_app, length_replicate, Elq. lia.
  - apply Forall_app. split; [apply digits_replicate|done].
  - rewrite val_replicate, Evq. pose proof (Z.div_le_upper_bound uq vq uq Hvq ltac:(nia)). lia.
Qed.

Lemma qdivrem_ok uq vq :
  0 ≤ uq < 2 ^ 64 → 0 ≤ vq < 2 ^ 64 →
  __qdivrem uq vq = if decide (vq = 0) then None else Some (uq / vq, uq mod vq).
Proof.
  intros Hu Hv. unfold __qdivrem. case_decide as H0; [done|]. case_decide as Hlt; [by rewrite Z.div_small, Z.mod_small by lia|].
  cbv zeta. destruct (digits_ok vq Hv) as [Hdv Ev]. destruct (digits_ok uq Hu) as [Hdu Eu].
  destruct (v_loop_ok (digits vq) eq_refl Hdv ltac:(lia)) as [(t & -> & Ht & Et)|(v1 & v' & -> & Hvd & Hv1 & Hn & Evv)]; cbn [mbind option_bind].
  - rewrite Et, Ev in *. by rewrite short_division_ok, Eu by (done || lia).
  - apply program_d; try done; lia.
Qed.

(** C29. The 64-bit division of the compiler's run-time: on all pairs of 64-bit
    numbers [__udivdi3] and [__umoddi3] fault for the divisor 0 and otherwise
    return the quotient and the remainder, which [__qdivrem] computes without an
    access outside its arrays, with at most two corrections of an estimated
    digit and at most one addition of the divisor. *)
Theorem division_correct uq vq :
  0 ≤ uq < 2 ^ 64 → 0 ≤ vq < 2 ^ 64 →
  __qdivrem uq vq = (if decide (vq = 0) then None else Some (uq / vq, uq mod vq)) ∧
  __udivdi3 uq vq = (if decide (vq = 0) then None else Some (uq / vq)) ∧
  __umoddi3 uq vq = (if decide (vq = 0) then None else Some (uq mod vq)).
Proof. intros Hu Hv. unfold __udivdi3, __umoddi3. rewrite qdivrem_ok by done. by case_decide. Qed.

Lemma division_correct_witness : __udivdi3 0x7fff800100000000 0x800080020005 = Some 65533.
Proof.
  destruct (division_correct 0x7fff800100000000 0x800080020005) as (_ & E & _); [split; [discriminate|reflexivity]..|].
  rewrite E. vm_compute. reflexivity.
Defined.
